(* ===== verification/_CoqProject ===== *)
-Q . S2P
Prelude.v
GoStd.v
Money.v
Calendar.v
Counters.v
Policy.v
Json.v
Store.v
Pricing.v
PolicyService.v
PathMatch.v
Grants.v
Admission.v
Settlement.v
Reservations.v
Lifecycle.v
Booking.v
Charges.v
Reprice.v
Operations.v
Reachable.v
Replays.v
Decode.v
Tokens.v
Marshal.v
Printing.v
Canonical.v
Dialects.v
Encode.v
Decoded.v
Translated.v
Streaming.v
Streamed.v
Endings.v
Spoken.v
Items.v
Metered.v
Streams.v
Capture.v
Dispatch.v
Deferral.v
Forward.v
Projection.v
Mirror.v
Counted.v
Mirrored.v
Keys.v
Users.v
Credentials.v
Sessions.v
Identity.v
Accounts.v
Throttle.v
Limits.v
Sha256.v
Catalogue.v
Connections.v
Routing.v
Selection.v
Publishing.v
Scenario.v
Signin.v
Dispatched.v
Deployment.v
Delivered.v
Programs.v
Predictions.v
Attempts.v
MediaJobs.v
MediaLife.v
MediaThreads.v
MediaSystem.v
MediaRelease.v
MediaRuns.v
Studio.v
