(* ===== verification/Prelude.v ===== *)
(** * Pocket AI Gateway: a verified model of its accounting, identity, routing
    and translation

    Pocket AI Gateway is one Go process between clients and model providers.
    It authenticates an API key, routes a request to one of the targets
    published under a model name, admits the attempt against limit policies,
    forwards it, in the client's dialect or translated into the provider's,
    and settles what it used. Its state is in two SQLite databases: the system
    database, which every service reads and writes in transactions, and an
    analytics database fed from it through an outbox. This development models
    the services that carry that state (src/internal/features), the dispatch of
    a request from admission to settlement (src/internal/gateway) and the
    translation between dialects (src/internal/protocol), from their source,
    and proves what they promise each other.

    ** The parts of the program and where they are modelled

    - The system database ([storage/migrations/system]): [Store]. A row type
      per table, the database [db] as a record of finite maps keyed by the
      tables' unique keys, and the SQL statements the code issues as steps of
      the transaction type [tx]. [commit] runs a transaction and rolls it back
      on an error, as the deferred [Rollback] does.
    - The language and its library: [Prelude] (integers at their width,
      results, transactions, automation), [GoStd] (math/bits, strconv,
      strings, sort), [Calendar] (time in UTC), [Json] (utf8, json.Marshal of
      flat objects, json.Valid), [Decode] (json.Unmarshal into maps, numbers
      rounded to float64), [Marshal] (json.Marshal of maps, floats printed in
      their shortest form), [Printing] (what is printed is read back),
      [PathMatch] (path.Match), [Sha256] (crypto/sha256).
    - Money and counters ([usage/money.go], [usage/admission.go]): [Money],
      [Counters]. All amounts are [int64]; sums, products and quotients wrap
      or are refused exactly where the code does so.
    - Limit policies ([usage/policy.go]): [Policy], [PolicyService].
    - Prices and cost corrections ([usage/pricing.go]): [Pricing], [Reprice].
    - Admission ([usage/admission.go]): [Admission]; what it books: [Booking].
    - Settlement, cancellation, reconciliation, crash recovery and repair
      ([usage/settlement.go], [usage/repair.go]): [Settlement]; the balance
      of reserved units: [Reservations]; requests, attempts and leases:
      [Lifecycle]; what is charged: [Charges]; repeated calls: [Replays]; all
      of it as one state machine: [Reachable].
    - What the owner's operations write into these tables
      ([operations/config.go], [operations/service.go]): [Operations] (the
      policies and prices of a configuration import, the retention of details).
    - The limits a key is shown ([usage/query.go]): [Limits].
    - Grants, keys and users ([keys/service.go], [users/service.go],
      [auth/scopes.go]): [Grants], [Keys], [Users], [Identity].
    - Accounts ([auth/service.go], [auth/lifecycle.go],
      [credentials/credentials.go]): [Credentials] (stored password hashes),
      [Sessions] (setup, sessions, login, codes, own changes), [Accounts]
      (what a session is worth), [Throttle] (how fast passwords can be tried).
    - The provider catalogue and routing ([providers/presets.go],
      [providers/service.go], [providers/credential_source.go],
      [providers/crypto.go], [providers/adapter_scripts.go],
      [providers/routing.go]): [Catalogue], [Connections], [Routing]; what a
      route plan promises: [Selection]; what catalogue writes keep:
      [Publishing].
    - Dispatch ([gateway/accounting.go], [dispatch.go], [forward.go]):
      [Tokens] (token usage and tool calls read from a response), [Capture]
      (the bounded copies of streams), [Dispatch] (the settlement derived from
      a response, retries), [Deferral] (settlements that fail and are
      delivered later), [Forward] (the loop over the targets of a plan).
    - Outbox and analytics ([usage/projection.go]): [Projection] (the
      projections and their delivery), [Mirror] (the ledger's side), [Counted]
      (how requests are counted), [Mirrored] (the two databases as one state
      machine).
    - Translation ([protocol/decode.go], [encode.go], [helpers.go],
      [translate.go], [validation.go], [stream.go]): [Canonical] (requests
      without a dialect), [Dialects] (the decoders), [Encode] (the encoders,
      [TranslateRequest], [TranslateResponse]), [Decoded] (what a decoded
      request is), [Translated] (translations read back); [Streaming]
      ([TranslateStream]), [Streamed], [Endings], [Spoken], [Items], [Metered]
      (what the client of a translated stream and the accounting are told).
    - Media jobs ([mediajobs/service.go], [worker.go], [replicate.go],
      [together.go], [gemini.go], [custom.go]): [Predictions] (what is sent to
      a provider and read from its answers), [MediaJobs] (the table, the calls
      of the API, the rounds of the worker, its start after a restart);
      [Attempts] (what the accounting does to any attempt), [MediaLife] (the
      invariant of the jobs), [MediaThreads] (what each program keeps and
      promises while the others run), [MediaSystem] (all of them together),
      [MediaRelease] (what an ended job still holds), [MediaRuns] (programs run
      to their end).
    - Concrete gateways the properties are applied to: [Scenario] (usage,
      identity), [Signin] (accounts), [Deployment] (catalogue, routing,
      limits), [Dispatched] (responses and settlements), [Delivered] (the
      outbox), [Streams] (translated streams), [Studio] (media jobs).

    ** How the parts interact

    [Authenticate] turns a secret into a principal. [Route] turns a public
    model and the principal's grants into an ordered list of targets. [Admit]
    takes the principal and a target, checks both again inside its
    transaction, prices the attempt, evaluates every matching policy and
    books request, attempt, counters, reservations, leases and an outbox
    event. [MarkDispatching] and [MarkStreaming] follow the attempt; [Settle],
    [CancelBeforeDispatch], [ReconcileUnknown] or [Recover] end it and give
    the reserved units back or book them; [RecordRouteOutcome] feeds the
    circuit breaker [Route] reads. [Forward] composes them: for each target of
    the plan it admits, forwards, reads the response with [parseUsageDetails]
    and [parseToolMetadata], settles, and goes on only after a failure that
    allows it. When the dialects differ, [TranslateRequest] writes the body,
    [TranslateResponse] or [TranslateStream] the answer, and the accounting
    reads the document the latter leaves. [ProjectOutbox] moves the events the
    ledger wrote into the daily totals. A media job is admitted like a request
    when [CreateJob] stores it; the worker's [workOnce] marks its attempt with
    [MarkDispatching], sends it, polls the provider, and settles the attempt
    before it ends the job. Prices, policies, grants and routes change
    between any two of these calls, which is why each re-reads what it needs.

    ** How code becomes definitions

    - A method that runs a transaction is a function [tx db A], from a
      database to [result (A * db)], composed in the order of its statements, with a name
      ending in [_tx]; the exported method adds validation before it and
      [commit] around it, and has the method's Go name.
    - Errors are values of [error], one constructor per sentinel or error
      type the code compares, [Msg] for the others.
    - The clock and the random source are fields of [env]: the n-th reading of
      either in a call. The host's network, files, ciphers and scripts are
      fields of [Host]; mail.ParseAddress, strings.ToLower, time parsing and
      the SHA-256 verifier of secrets and Argon2 are arguments where they are
      used. A theorem with a condition on one of them states it.
    - An account call hashes a password between its reads and its
      transaction, and other calls may commit meanwhile: it takes the database
      its reads saw besides the one its writes meet, and the theorems of
      [Accounts] put any history of calls between the two. Logins may overlap:
      [Throttle] lets each write on a database others wrote to since it read.
    - A scan over a table is a list in key order ([map_to_list]) sorted as the
      query's ORDER BY asks; without an ORDER BY no theorem relies on the
      order. A failing SQLite statement (disk, lock) is not modelled: it
      aborts the transaction and changes nothing.
    - Optional columns are [option]; JSON columns holding string lists are
      lists; instants are milliseconds.
    - A JSON value is [value] when it was read (a float64 is a mantissa and an
      exponent) and [any] when it is written; the decoders and encoders are
      functions between them, and the exported methods go from text to text.
      A map under construction is the list of its assignments, the last of
      each name counting, as [marshal] and [lookup_field] do.
    - A connection is a function that says which frame it still takes; a
      stream is its text and whether reading it failed. Frames are kept as the
      values they print, with [frame_text].
    - A call of the media API and a round of its worker are several statements
      between which others commit: a [program] of [Programs], a tree of
      statements on the database. [run] runs one alone; [media_step] interleaves
      them; [safe] says what one keeps and promises whatever the others do.
    - Two databases: a step of [Mirrored] is a call on either, and a
      projection may fail between its two writes.

    ** What the theorems show

    - Charging: an admission charges every matching policy and only those,
      within its limit; a settlement moves what was used from reserved to
      consumed, once; a cancellation is free ([Booking], [Charges], [Replays]).
    - Invariants over every reachable state: reserved units are the sum of
      the reservations holding them, an attempt holds reservations exactly
      while it runs, a restart ends everything that was running ([Reachable],
      [Lifecycle]). Imports that turn a policy with reservations into a token
      bucket or back are left out: [import_strands_reservation] shows why.
    - Corrections: adjusting and repricing book their difference to the
      periods the attempt was charged to, exactly once ([Reprice], [Replays]).
    - Identity: one active owner, keys within their owner's grants, writes
      only by those entitled, revocation is final, rotation replaces
      ([Keys], [Users], [Identity]).
    - Accounts: a change of authority ends every earlier session, logins and
      password changes go by the password in force, a code works once, and
      wrong passwords are few, also when logins overlap ([Accounts],
      [Throttle], [Credentials]).
    - Routing: targets offered are granted, current, credentialed, eligible
      and not short-circuited; every candidate is offered or rejected with a
      reason; the order is the strategy's; the weighted strategy draws each
      target in proportion to its weight; a breaker opens after three failures
      in a row ([Selection]). Credentials reach only the endpoint they were
      entered for, and the catalogue stays consistent ([Publishing]).
    - The limits shown are the limits enforced ([Limits]).
    - Dispatch: a settlement derived from a response is accepted by the
      ledger, but for three kinds of responses the theorem names; another target is tried only after an attempt that left nothing
      open; a forwarded request leaves nothing running; a settlement is booked
      at most once however often it is retried, and is delivered by a round of
      the worker over whatever is queued, if the queue had room ([Dispatch], [Forward], [Deferral]). A captured stream is whole, or made
      of whole events ([Capture]).
    - Analytics: the daily amounts and the events still to project are the
      ledger's, in every state the two databases reach, and requests are
      counted at their first event; a projection run without a fault delivers
      its batch ([Mirrored]).
    - Translation: a request written for an Anthropic provider, read back, is
      the client's request, whatever dialect the client speaks; an answer
      written for an OpenAI client, read back, is the provider's; what a
      dialect has no place for is named in the relations [same_request] and
      [same_answer] ([Translated]). A translated stream says what the provider's stream says
      ([Streamed]), ends for the client only when the provider's answer was
      whole ([Endings]), opens and closes every item once and lists them as
      they were, which is what the provider streamed ([Items]), and is charged
      what it said, counts and cached tokens alike ([Metered]). These hold for every body the encoder
      can write: valid UTF-8, numbers that read back, at most 10000 levels.
    - Media jobs: in every configuration reached by any interleaving of calls,
      worker, other services and restarts, the rows are consistent and a job
      stays as it ended ([MediaSystem]); an ended job holds no charge, unless
      it was cancelled while queued and the release is still to come or was
      refused ([MediaRelease]); the worker
      gives up on providers that do not answer, and what a provider delivers
      is what the key reads ([MediaRuns]).
    - Arithmetic and text: rates, periods, patterns, amounts ([Pricing],
      [Policy], [Counters], [Grants], [PathMatch], [Money]).
    - Defects of the code are theorems on concrete inputs:
      [tokenCost_wraps_to_zero], [modelIntersection_backslash_escapes],
      [ReconcileUnknown_skips_settled_spend], [Route_loses_keyless_target],
      [blank_body_panics], [tool_loop_is_refused], [huge_limit_is_negative],
      [serial_calls_dropped], [unreported_fetch_never_settles], [excepted],
      [import_strands_reservation], [two_gemini_calls_fail], [gemini_call_stops],
      [unterminated_fails], [overtaken_cancellation_spins],
      [restart_strands_finished_job]; and [restart_strands_submission].

    ** Bounds and fuel

    [PathMatch] recurses on fuel bounded by the lengths of pattern and name;
    [Match_terminates] shows it is never exhausted. SHA-256 runs a fixed
    number of rounds over the blocks of the padded message. The JSON decoder
    takes one more step than its text has bytes and consumes a byte in each.
    The loop that lists the items of a final response is bounded by the items
    opened, which [items_length] shows are all it looks for. The loop of the
    media worker needs no fuel: [worker_loop_ends] bounds its rounds. Everything else
    is structural. Row scans with a LIMIT in the source keep it.

    ** Not modelled, and why

    - HTTP round trips and the checks of single endpoints ([gateway]): their
      outcome is an argument of [Forward]. Background loops and the observers
      of background requests: each of their rounds is modelled, the timer is
      not.
    - The checks of legacy completions and the image event stream
      ([protocol/openai_completions.go], [openai_image_stream.go]).
    - Read views (paged listings, analytics): they change no state.
    - The rest of the configuration import (connections, models, routes,
      settings), export, alerts and backups ([operations]), batches, files and
      vector stores.
    - Of media jobs the HTTP handler, the URL and client of a provider's
      request, whose outcome is a [reply] drawn from the call's [MediaEnv], and
      the timer between rounds. The lock that holds configuration writes back
      while a request is sent is the check of its target alone. The foreign
      keys of the table are not among its constraints.
    - Storage engine, migrations, self-update, process wiring, generated SQL
      bindings, the dashboard: input and output, or generated.
    - Concurrent transactions: SQLite runs them one after the other on the
      single connection the program opens, so a history of the system is a
      sequence of calls. *)
From Stdlib Require Export Ascii ZArith Lia.
From stdpp Require Export base gmap strings list fin_maps sorting.

Open Scope Z_scope.

Create HintDb gw.
Create HintDb keeps.
Create HintDb evolves.
#[export] Hint Rewrite Nat.sub_0_r : gw.

Lemma str_app_nil (s : string) : ("" +:+ s)%string = s.
Proof. done. Qed.

Lemma str_app_cons (c : ascii) (s t : string) : (String c s +:+ t)%string = String c (s +:+ t).
Proof. done. Qed.
#[export] Hint Rewrite str_app_nil str_app_cons : gw.

(** A bounded integer is one of finitely many; [enumerate n k] proves
    [0 <= n < k] by [lia] and leaves one goal per value. *)
Lemma below_elem (n : Z) (k : nat) : 0 <= n < Z.of_nat k -> n ∈ map Z.of_nat (seq 0 k).
Proof. intros H. rewrite list_elem_of_In, in_map_iff. exists (Z.to_nat n). rewrite in_seq. lia. Qed.

Ltac enumerate n k :=
  let H := fresh in
  assert (n ∈ map Z.of_nat (seq 0 k)) as H by (apply below_elem; lia);
  cbn in H; repeat (apply elem_of_cons in H as [H|H]; [subst n|]); [..|by apply elem_of_nil in H].

Declare Scope gateway_scope.
Delimit Scope gateway_scope with gw.

(** * Machine integers

    Go's [int64] and [uint64] are [Z]; the code's arithmetic is written with
    an explicit wrap-around wherever it could leave the range. *)

Definition max_int64 : Z := 9223372036854775807.
Definition min_int64 : Z := -9223372036854775808.
Definition two64 : Z := 18446744073709551616.

Definition in_int64 (x : Z) : Prop := min_int64 <= x <= max_int64.
Definition in_uint64 (x : Z) : Prop := 0 <= x < two64.

(** The value of an [int64] expression whose exact value is [x]. *)
Definition wrap64 (x : Z) : Z := (x - min_int64) mod two64 + min_int64.
(** The value of a [uint64] expression whose exact value is [x]; it is also
    the conversion [uint64(x)] of an [int64]. *)
Definition wrapu64 (x : Z) : Z := x mod two64.

Ltac unfold_ints := unfold in_int64, in_uint64, max_int64, min_int64, two64 in *.

Lemma wrap64_id (x : Z) : in_int64 x -> wrap64 x = x.
Proof. unfold wrap64; unfold_ints; intros; rewrite Z.mod_small; lia. Qed.

Lemma wrapu64_id (x : Z) : in_uint64 x -> wrapu64 x = x.
Proof. unfold wrapu64; unfold_ints; intros; rewrite Z.mod_small; lia. Qed.

Lemma wrapu64_range (x : Z) : in_uint64 (wrapu64 x).
Proof. unfold wrapu64, in_uint64, two64; apply Z.mod_pos_bound; lia. Qed.

Lemma wrap64_range (x : Z) : in_int64 (wrap64 x).
Proof.
  unfold wrap64, in_int64, two64, min_int64, max_int64.
  pose proof (Z.mod_pos_bound (x - -9223372036854775808) 18446744073709551616); lia.
Qed.

(** * Results

    Every failure the modelled code reports. [Msg] carries the text of an
    [errors.New]; [Denial] is the code's typed policy denial. *)

Inductive error : Type :=
| ErrDenied
| ErrNotFound
| ErrConflict
| ErrExpired
| ErrNoRows
| ErrSetupComplete
| ErrInvalidSession
| ErrInvalidCredentials
| ErrInvalidActivation
| ErrTooManyAttempts
| Denial (policy_id metric reason : string) (retry_after : option Z)
| Msg (text : string).

#[export] Instance error_eq_dec : EqDecision error.
Proof. solve_decision. Defined.

Inductive result (A : Type) : Type :=
| Ok (a : A)
| Err (e : error).
Arguments Ok {A} _.
Arguments Err {A} _.

#[export] Instance result_eq_dec {A} `{EqDecision A} : EqDecision (result A).
Proof. solve_decision. Defined.

#[export] Instance result_ret : MRet result := fun A a => Ok a.
#[export] Instance result_bind : MBind result :=
  fun A B k m => match m with Ok a => k a | Err e => Err e end.

(** A guard: [if cond { return err }] negated, so the check that must hold. *)
Definition ensure (b : bool) (e : error) : result unit :=
  if b then Ok tt else Err e.

Definition is_some {A} (v : option A) : bool := match v with Some _ => true | None => false end.

Lemma result_bind_Ok {A B} (m : result A) (k : A -> result B) (b : B) :
  m ≫= k = Ok b <-> exists a, m = Ok a /\ k a = Ok b.
Proof. destruct m; cbn; naive_solver. Qed.

Lemma ensure_Ok (b : bool) (e : error) (u : unit) : ensure b e = Ok u <-> b = true.
Proof. destruct b, u; cbn; naive_solver. Qed.

(** * Sums over a table *)

Definition msum {K A} `{Countable K} (f : K -> A -> Z) (m : gmap K A) : Z :=
  map_fold (fun k a acc => f k a + acc) 0 m.

Section Sums.
Context {K A : Type} `{Countable K}.
Implicit Types (m : gmap K A) (f g : K -> A -> Z).

Lemma msum_empty f : msum f ∅ = 0.
Proof. apply map_fold_empty. Qed.

Lemma msum_insert f m k a : m !! k = None -> msum f (<[k := a]> m) = f k a + msum f m.
Proof. intros Hk. unfold msum. rewrite map_fold_insert_L; [done | | done]. intros; lia. Qed.

Lemma msum_delete f m k a : m !! k = Some a -> msum f m = f k a + msum f (delete k m).
Proof.
  intros Hk. rewrite <- (insert_delete_id m k a Hk) at 1. rewrite msum_insert; [done|].
  apply lookup_delete_eq.
Qed.

Lemma msum_update f m k a b : m !! k = Some a -> msum f (<[k := b]> m) = msum f m - f k a + f k b.
Proof.
  intros Hk. rewrite (msum_delete f m k a Hk), <- insert_delete_eq.
  rewrite msum_insert by apply lookup_delete_eq. lia.
Qed.

Lemma msum_ext f g m : (forall k a, m !! k = Some a -> f k a = g k a) -> msum f m = msum g m.
Proof.
  induction m as [|k a m Hk IH] using map_ind; intros Hfg; [by rewrite !msum_empty|].
  rewrite !msum_insert by done. rewrite (Hfg k a) by apply lookup_insert_eq. f_equal. apply IH.
  intros k' a' Hk'. apply Hfg. rewrite lookup_insert_ne; [done|]. congruence.
Qed.

Lemma msum_imap f m (g : K -> A -> A) : msum f (map_imap (fun k a => Some (g k a)) m) = msum (fun k a => f k (g k a)) m.
Proof.
  induction m as [|k a m Hk IH] using map_ind; [by rewrite map_imap_empty, !msum_empty|].
  rewrite (map_imap_insert_Some _ _ _ _ (g k a)) by done.
  rewrite !msum_insert; [by rewrite IH|done|]. by rewrite map_lookup_imap, Hk.
Qed.

Lemma msum_fmap f m (g : A -> A) : msum f (g <$> m) = msum (fun k a => f k (g a)) m.
Proof.
  induction m as [|k a m Hk IH] using map_ind; [by rewrite fmap_empty, !msum_empty|].
  rewrite fmap_insert, !msum_insert; [by rewrite IH|done|by rewrite lookup_fmap, Hk].
Qed.

Lemma msum_zero f m : (forall k a, m !! k = Some a -> f k a = 0) -> msum f m = 0.
Proof.
  intros Hf. rewrite (msum_ext f (fun _ _ => 0)) by done. clear Hf.
  induction m as [|k a m Hk IH] using map_ind; [apply msum_empty|]. rewrite msum_insert by done. lia.
Qed.

Lemma msum_nonneg f m : (forall k a, m !! k = Some a -> 0 <= f k a) -> 0 <= msum f m.
Proof.
  induction m as [|k a m Hk IH] using map_ind; intros Hf; [by rewrite msum_empty|].
  rewrite msum_insert by done. pose proof (Hf k a (lookup_insert_eq _ _ _)).
  enough (0 <= msum f m) by lia. apply IH. intros k' a' Hk'. apply (Hf k').
  rewrite lookup_insert_ne; [done|]. congruence.
Qed.

(** One entry is at most the sum of non-negative entries. *)
Lemma msum_entry f m k a :
  (forall k a, m !! k = Some a -> 0 <= f k a) -> m !! k = Some a -> f k a <= msum f m.
Proof.
  intros Hf Hk. rewrite (msum_delete f m k a Hk).
  enough (0 <= msum f (delete k m)) by lia. apply msum_nonneg.
  intros k' a' [_ Hk']%lookup_delete_Some. eauto.
Qed.
End Sums.

(** * Transactions

    A function running inside [BeginTx .. Commit] is a state-and-error
    computation over the tables [S]; an error discards the state, which is
    [defer tx.Rollback()]. *)

Definition tx (S A : Type) : Type := S -> result (A * S).

#[export] Instance tx_ret {S} : MRet (tx S) := fun A a s => Ok (a, s).
#[export] Instance tx_bind {S} : MBind (tx S) :=
  fun A B k m s => match m s with Ok (a, s') => k a s' | Err e => Err e end.

Section Tx.
Context {S : Type}.

Definition fail {A} (e : error) : tx S A := fun _ => Err e.
Definition require (b : bool) (e : error) : tx S unit :=
  fun s => if b then Ok (tt, s) else Err e.
Definition reads {A} (f : S -> A) : tx S A := fun s => Ok (f s, s).
Definition modify (f : S -> S) : tx S unit := fun s => Ok (tt, f s).
Definition lift {A} (r : result A) : tx S A :=
  fun s => match r with Ok a => Ok (a, s) | Err e => Err e end.
(** [QueryRow(..).Scan]: [e] is what the caller returns for no row. *)
Definition get_row {A} (f : S -> option A) (e : error) : tx S A :=
  fun s => match f s with Some a => Ok (a, s) | None => Err e end.

Fixpoint for_each {X} (f : X -> tx S unit) (l : list X) : tx S unit :=
  match l with
  | [] => mret tt
  | x :: l => f x ≫= fun _ => for_each f l
  end.

(** What the caller and the database see of a transaction. *)
Definition commit {A} (m : tx S A) (s : S) : result A * S :=
  match m s with Ok (a, s') => (Ok a, s') | Err e => (Err e, s) end.

Lemma tx_bind_Ok {A B} (m : tx S A) (k : A -> tx S B) s b s' :
  (m ≫= k) s = Ok (b, s') <-> exists a s1, m s = Ok (a, s1) /\ k a s1 = Ok (b, s').
Proof. unfold mbind, tx_bind; destruct (m s) as [[a s1]|e]; naive_solver. Qed.

Lemma tx_ret_Ok {A} (a b : A) s s' :
  (mret a : tx S A) s = Ok (b, s') <-> a = b /\ s = s'.
Proof. unfold mret, tx_ret; naive_solver. Qed.

Lemma require_Ok b e s u s' : require b e s = Ok (u, s') <-> b = true /\ s' = s.
Proof. unfold require; destruct b, u; naive_solver. Qed.

Lemma reads_Ok {A} (f : S -> A) s a s' : reads f s = Ok (a, s') <-> a = f s /\ s' = s.
Proof. unfold reads; naive_solver. Qed.

Lemma modify_Ok f s u s' : modify f s = Ok (u, s') <-> s' = f s.
Proof. unfold modify; destruct u; naive_solver. Qed.

Lemma lift_Ok {A} (r : result A) s a s' : lift r s = Ok (a, s') <-> r = Ok a /\ s' = s.
Proof. unfold lift; destruct r; naive_solver. Qed.

Lemma get_row_Ok {A} (f : S -> option A) e s a s' :
  get_row f e s = Ok (a, s') <-> f s = Some a /\ s' = s.
Proof. unfold get_row; destruct (f s); naive_solver. Qed.

Lemma fail_Ok {A} e s (a : A) s' : fail e s = Ok (a, s') <-> False.
Proof. unfold fail; naive_solver. Qed.

(** An invariant of one iteration is an invariant of the loop. *)
Lemma for_each_inv {X} (I : S -> Prop) (f : X -> tx S unit) l :
  (forall x s u s', x ∈ l -> I s -> f x s = Ok (u, s') -> I s') ->
  forall s u s', I s -> for_each f l s = Ok (u, s') -> I s'.
Proof.
  induction l as [|x l IH]; intros Hf s u s' HI; cbn.
  - intros [_ <-]%tx_ret_Ok; done.
  - intros (? & s1 & H1 & H2)%tx_bind_Ok.
    eapply IH; [| | exact H2].
    + intros; eapply Hf; eauto; by constructor.
    + eapply Hf; [|exact HI|exact H1]; by constructor.
Qed.

(** An invariant that may mention the iterations still to come. *)
Lemma for_each_pending {X} (P : list X -> S -> Prop) (f : X -> tx S unit) :
  (forall x l s u s', P (x :: l) s -> f x s = Ok (u, s') -> P l s') ->
  forall l s u s', P l s -> for_each f l s = Ok (u, s') -> P [] s'.
Proof.
  intros Hf l. induction l as [|x l IH]; intros s u s' HP; cbn.
  - intros [_ <-]%tx_ret_Ok; done.
  - intros (? & s1 & H1 & H2)%tx_bind_Ok. eapply IH; [|exact H2]. eapply Hf; eauto.
Qed.
(** ** Frames: a transaction keeps an observation of the state *)

Definition keeps {X A} (obs : S -> X) (m : tx S A) : Prop :=
  forall s a s', m s = Ok (a, s') -> obs s' = obs s.

Lemma keeps_bind {X A B} (obs : S -> X) (m : tx S A) (k : A -> tx S B) :
  keeps obs m -> (forall a, keeps obs (k a)) -> keeps obs (m ≫= k).
Proof. intros Hm Hk s b s' (a & s1 & H1 & H2)%tx_bind_Ok. rewrite (Hk _ _ _ _ H2). by eapply Hm. Qed.

Lemma keeps_ret {X A} (obs : S -> X) (a : A) : keeps obs (mret a).
Proof. by intros s b s' [_ <-]%tx_ret_Ok. Qed.

Lemma keeps_fail {X A} (obs : S -> X) e : keeps (A := A) obs (fail e).
Proof. by intros s b s' H%fail_Ok. Qed.

Lemma keeps_require {X} (obs : S -> X) b e : keeps obs (require b e).
Proof. by intros s u s' [_ ->]%require_Ok. Qed.

Lemma keeps_reads {X A} (obs : S -> X) (f : S -> A) : keeps obs (reads f).
Proof. by intros s u s' [_ ->]%reads_Ok. Qed.

Lemma keeps_lift {X A} (obs : S -> X) (r : result A) : keeps obs (lift r).
Proof. by intros s u s' [_ ->]%lift_Ok. Qed.

Lemma keeps_get_row {X A} (obs : S -> X) (f : S -> option A) e : keeps obs (get_row f e).
Proof. by intros s u s' [_ ->]%get_row_Ok. Qed.

Lemma keeps_modify {X} (obs : S -> X) f : (forall s, obs (f s) = obs s) -> keeps obs (modify f).
Proof. intros Hf s u s' ->%modify_Ok. apply Hf. Qed.

Lemma keeps_for_each {X Y} (obs : S -> X) (f : Y -> tx S unit) l : (forall y, keeps obs (f y)) -> keeps obs (for_each f l).
Proof. intros Hf. induction l as [|y l IH]; cbn; [apply keeps_ret|by apply keeps_bind]. Qed.

Lemma keeps_commit {X A} (obs : S -> X) (m : tx S A) s : keeps obs m -> obs (snd (commit m s)) = obs s.
Proof. intros Hm. unfold commit. destruct (m s) as [[a s']|] eqn:E; [|done]. by eapply Hm. Qed.

(** ** Evolution: a transaction relates the states before and after it *)

Definition evolves {A} (R : relation S) (m : tx S A) : Prop := forall s a s', m s = Ok (a, s') -> R s s'.

Section Evolution.
Context (R : relation S) `{!PreOrder R}.

Lemma evolves_bind {A B} (m : tx S A) (k : A -> tx S B) : evolves R m -> (forall a, evolves R (k a)) -> evolves R (m ≫= k).
Proof. intros Hm Hk s b s' (a & s1 & H1 & H2)%tx_bind_Ok. etransitivity; [by eapply Hm|by eapply Hk]. Qed.

Lemma evolves_keeps {X A} (obs : S -> X) (m : tx S A) : (forall s s', obs s' = obs s -> R s s') -> keeps obs m -> evolves R m.
Proof. intros HR Hm s a s' H. apply HR. by eapply Hm. Qed.

Lemma evolves_still {A} (m : tx S A) : keeps id m -> evolves R m.
Proof. apply evolves_keeps. unfold id. by intros s s' ->. Qed.

(** A check made while the state stays where it is may be used afterwards. *)
Lemma evolves_require {A} b e (k : unit -> tx S A) : (b = true -> evolves R (k tt)) -> evolves R (require b e ≫= k).
Proof. intros Hk s a s' H. apply tx_bind_Ok in H as ([] & s1 & [Hb ->]%require_Ok & H). by eapply Hk. Qed.

Lemma evolves_commit {A} (m : tx S A) s : evolves R m -> R s (snd (commit m s)).
Proof. intros Hm. unfold commit. destruct (m s) as [[a s']|] eqn:E; [by eapply Hm|done]. Qed.
End Evolution.
End Tx.

#[export] Hint Resolve keeps_ret keeps_fail keeps_require keeps_reads keeps_lift keeps_get_row : keeps.

(** [tx_inv] takes apart every successful run of a transaction in the context
    into the successful runs of its steps. *)
Ltac tx_inv :=
  repeat match goal with
  | H : (_ ≫= _) _ = Ok (_, _) |- _ => apply tx_bind_Ok in H; destruct H as (? & ? & H & ?)
  | H : mbind _ _ _ = Ok (_, _) |- _ => apply tx_bind_Ok in H; destruct H as (? & ? & H & ?)
  | H : mret _ _ = Ok (_, _) |- _ => apply tx_ret_Ok in H; destruct H as [? ?]
  | H : require _ _ _ = Ok (_, _) |- _ => apply require_Ok in H; destruct H as [? ?]
  | H : reads _ _ = Ok (_, _) |- _ => apply reads_Ok in H; destruct H as [? ?]
  | H : modify _ _ = Ok (_, _) |- _ => apply modify_Ok in H
  | H : lift _ _ = Ok (_, _) |- _ => apply lift_Ok in H; destruct H as [? ?]
  | H : get_row _ _ _ = Ok (_, _) |- _ => apply get_row_Ok in H; destruct H as [? ?]
  | H : fail _ _ = Ok (_, _) |- _ => apply fail_Ok in H; destruct H
  end; subst; cbn beta in *.

(** [tx_peel H] takes the leading reads and checks off a successful run [H],
    stopping at the first statement that writes. *)
Ltac tx_peel H :=
  repeat (let s := fresh "s" in let Hs := fresh "Hs" in
    lazymatch type of H with mbind _ _ _ = _ => apply tx_bind_Ok in H end; destruct H as (? & s & Hs & H);
    first [ apply reads_Ok in Hs as [-> ->] | apply lift_Ok in Hs as [? ->]
          | apply require_Ok in Hs as [? ->] | apply get_row_Ok in Hs as [? ->] ]); cbn beta in H.

(** [keeps_tac] proves a frame by going through the statements of a
    transaction; the lemmas of the steps it calls are in the [keeps] database. *)
Ltac keeps_tac :=
  repeat (intros; cbv zeta; first
    [ solve [auto with keeps]
    | apply keeps_bind; [|intros ?]
    | apply keeps_for_each; intros ?
    | apply keeps_modify; intros ?; reflexivity
    | match goal with
      | |- keeps _ (match ?x with _ => _ end) => destruct x
      | |- keeps _ (if ?b then _ else _) => destruct b
      | |- keeps _ (let '(_, _) := ?x in _) => destruct x
      end ]).

(** [evolves_tac] goes through the statements of a transaction likewise; the
    lemmas of the steps that write are in the [evolves] database. *)
Ltac evolves_tac :=
  repeat (intros; cbv zeta; first
    [ solve [auto with evolves]
    | apply evolves_require; intros ?
    | apply evolves_bind; [| |intros ?]
    | solve [apply evolves_still; auto with keeps]
    | match goal with
      | |- evolves _ (match ?x with _ => _ end) => destruct x
      | |- evolves _ (if ?b then _ else _) => destruct b
      | |- evolves _ (let '(_, _) := ?x in _) => destruct x
      end ]).
