(* ===== verification/GoStd.v ===== *)
(** The Go standard library, as far as the gateway's code uses it: the
    two-word arithmetic of [math/bits], decimal conversion of [strconv], and
    byte-string helpers of [strings]. Go strings are byte strings, here
    [String.string]; the runes the code looks at are decoded where needed. *)
From S2P Require Import Prelude.

(** * math/bits *)

(** [bits.Mul64]: the 128-bit product as (high, low). *)
Definition Mul64 (x y : Z) : Z * Z := ((x * y) / two64, (x * y) mod two64).
(** [bits.Add64] with carry in: (sum, carry out). *)
Definition Add64 (x y carry : Z) : Z * Z :=
  ((x + y + carry) mod two64, (x + y + carry) / two64).
(** [bits.Div64] for [hi < y] (it panics otherwise; every call is guarded). *)
Definition Div64 (hi lo y : Z) : Z * Z :=
  ((hi * two64 + lo) / y, (hi * two64 + lo) mod y).

Lemma Mul64_spec (x y hi lo : Z) :
  Mul64 x y = (hi, lo) -> x * y = hi * two64 + lo /\ 0 <= lo < two64.
Proof.
  unfold Mul64; intros [= <- <-]. split.
  - rewrite (Z.mul_comm (_ / _)). apply Z.div_mod. unfold two64; lia.
  - apply Z.mod_pos_bound; unfold two64; lia.
Qed.

Lemma Mul64_hi_nonneg (x y hi lo : Z) :
  0 <= x -> 0 <= y -> Mul64 x y = (hi, lo) -> 0 <= hi.
Proof. unfold Mul64; intros ?? [= <- <-]. apply Z.div_pos; unfold two64; nia. Qed.

(** * Bytes *)

Definition byte_of (c : ascii) : Z := Z.of_nat (nat_of_ascii c).
Definition is_digit (c : ascii) : bool := (48 <=? byte_of c) && (byte_of c <=? 57).
Definition digit_val (c : ascii) : Z := byte_of c - 48.
Definition digit_char (d : Z) : ascii := ascii_of_nat (Z.to_nat (d + 48)).

Lemma byte_of_digit_char (d : Z) : 0 <= d <= 9 -> byte_of (digit_char d) = d + 48.
Proof.
  intros. unfold byte_of, digit_char. rewrite nat_ascii_embedding by lia. lia.
Qed.

Lemma is_digit_char (d : Z) : 0 <= d <= 9 -> is_digit (digit_char d) = true.
Proof. intros. unfold is_digit. rewrite byte_of_digit_char by lia. lia. Qed.

Lemma digit_val_char (d : Z) : 0 <= d <= 9 -> digit_val (digit_char d) = d.
Proof. intros. unfold digit_val. rewrite byte_of_digit_char by lia. lia. Qed.

Definition str_len (s : string) : Z := Z.of_nat (String.length s).

Fixpoint str_forall (p : ascii -> bool) (s : string) : bool :=
  match s with
  | EmptyString => true
  | String c s => p c && str_forall p s
  end.

Lemma str_app_assoc (a b c : string) : ((a +:+ b) +:+ c = a +:+ (b +:+ c))%string.
Proof. induction a; cbn; autorewrite with gw; cbn; congruence. Qed.

Lemma str_app_nil_r (a : string) : (a +:+ "")%string = a.
Proof. induction a; cbn; autorewrite with gw; cbn; congruence. Qed.

Lemma str_length_app (a b : string) :
  String.length (a +:+ b) = (String.length a + String.length b)%nat.
Proof. induction a; cbn; autorewrite with gw; cbn; congruence. Qed.

Lemma str_forall_app p a b : str_forall p (a +:+ b) = str_forall p a && str_forall p b.
Proof. induction a as [|c a IH]; [done|]. autorewrite with gw. cbn. by rewrite IH, andb_assoc. Qed.

(** * strings *)

(** [strings.HasPrefix], [strings.TrimPrefix]. *)
Fixpoint HasPrefix (s p : string) : bool :=
  match p, s with
  | EmptyString, _ => true
  | String x p, String c s => Ascii.eqb c x && HasPrefix s p
  | String _ _, EmptyString => false
  end.

Lemma HasPrefix_byte (c x : ascii) (s : string) :
  HasPrefix (String c s) (String x "") = Ascii.eqb c x.
Proof. cbn. destruct s; apply andb_true_r. Qed.

Fixpoint drop_bytes (n : nat) (s : string) : string :=
  match n, s with
  | S n, String _ s => drop_bytes n s
  | _, _ => s
  end.

Definition TrimPrefix (s p : string) : string :=
  if HasPrefix s p then drop_bytes (String.length p) s else s.

(** [strings.HasSuffix] and [strings.TrimSuffix]. *)
Definition HasSuffix (s p : string) : bool :=
  Nat.leb (String.length p) (String.length s)
  && String.eqb (drop_bytes (String.length s - String.length p) s) p.
Fixpoint take_bytes (n : nat) (s : string) : string :=
  match n, s with S n, String c s => String c (take_bytes n s) | _, _ => EmptyString end.
Definition TrimSuffix (s p : string) : string :=
  if HasSuffix s p then take_bytes (String.length s - String.length p) s else s.

(** [strings.Split] at a one-byte separator: always at least one part. *)
Fixpoint Split (s : string) (sep : ascii) : list string :=
  match s with
  | EmptyString => [EmptyString]
  | String c s =>
      if Ascii.eqb c sep then EmptyString :: Split s sep
      else match Split s sep with
           | [] => [String c EmptyString]
           | p :: ps => String c p :: ps
           end
  end.

(** [strings.Repeat] of a one-byte string. *)
Fixpoint repeat_byte (c : ascii) (n : nat) : string :=
  match n with O => EmptyString | S n => String c (repeat_byte c n) end.

(** [strings.TrimRight] with a one-byte cutset. *)
Fixpoint TrimRight (s : string) (c : ascii) : string :=
  match s with
  | EmptyString => EmptyString
  | String x s =>
      match TrimRight s c with
      | EmptyString => if Ascii.eqb x c then EmptyString else String x EmptyString
      | t => String x t
      end
  end.

(** [strings.TrimLeft] with a one-byte cutset. *)
Fixpoint TrimLeft (s : string) (c : ascii) : string :=
  match s with
  | EmptyString => EmptyString
  | String x s' => if Ascii.eqb x c then TrimLeft s' c else s
  end.

(** [strings.TrimSpace]: removes the Unicode white space runes, recognised
    by their UTF-8 encodings, from both ends. [leading_space] gives the width
    of a white space rune the bytes start with, reading forwards;
    [trailing_space] reads the reversed bytes. *)
Definition leading_space (s : list Z) : option nat :=
  match s with
  | b :: rest =>
      if ((9 <=? b) && (b <=? 13)) || (b =? 32) then Some 1%nat else
      match rest with
      | c :: rest2 =>
          if (b =? 194) && ((c =? 133) || (c =? 160)) then Some 2%nat else
          match rest2 with
          | d :: _ =>
              if ((b =? 225) && (c =? 154) && (d =? 128))
                 || ((b =? 226) && (c =? 128) &&
                     (((128 <=? d) && (d <=? 138)) || (d =? 168) || (d =? 169) || (d =? 175)))
                 || ((b =? 226) && (c =? 129) && (d =? 159))
                 || ((b =? 227) && (c =? 128) && (d =? 128))
              then Some 3%nat else None
          | [] => None
          end
      | [] => None
      end
  | [] => None
  end.

Definition trailing_space (rs : list Z) : option nat :=
  match leading_space (rev (firstn 1 rs)), leading_space (rev (firstn 2 rs)),
        leading_space (rev (firstn 3 rs)) with
  | Some 1%nat, _, _ => Some 1%nat
  | _, Some 2%nat, _ => Some 2%nat
  | _, _, Some 3%nat => Some 3%nat
  | _, _, _ => None
  end.

Fixpoint trim_with (f : list Z -> option nat) (fuel : nat) (s : list Z) : list Z :=
  match fuel with
  | O => s
  | S fuel => match f s with Some n => trim_with f fuel (skipn n s) | None => s end
  end.

Definition bytes (s : string) : list Z := map byte_of (String.list_ascii_of_string s).
Definition of_bytes (l : list Z) : string :=
  String.string_of_list_ascii (map (fun b => ascii_of_nat (Z.to_nat b)) l).

Definition TrimSpace (s : string) : string :=
  let fuel := String.length s in
  let left := trim_with leading_space fuel (bytes s) in
  of_bytes (rev (trim_with trailing_space fuel (rev left))).

(** * strconv *)

(** Decimal digits of [s] read onto the accumulator [acc]. *)
Fixpoint parse_digits (s : string) (acc : Z) : option Z :=
  match s with
  | EmptyString => Some acc
  | String c s => if is_digit c then parse_digits s (acc * 10 + digit_val c) else None
  end.

(** [strconv.ParseInt(s, 10, 64)]; [None] is its error, whichever it is. *)
Definition ParseInt (s : string) : option Z :=
  let neg := HasPrefix s "-" in
  let body := if neg || HasPrefix s "+" then drop_bytes 1 s else s in
  if String.eqb body "" then None else
  match parse_digits body 0 with
  | Some n =>
      if neg then (if n <=? 9223372036854775808 then Some (- n) else None)
      else (if n <=? max_int64 then Some n else None)
  | None => None
  end.

Fixpoint digits_onto (fuel : nat) (n : Z) (acc : string) : string :=
  match fuel with
  | O => acc
  | S fuel =>
      let acc := String (digit_char (n mod 10)) acc in
      if n <? 10 then acc else digits_onto fuel (n / 10) acc
  end.

(** [strconv.FormatUint(n, 10)]; twenty digits hold every [uint64]. *)
Definition FormatUint (n : Z) : string := digits_onto 20 n "".
#[global] Arguments FormatUint : simpl never.

(** [strconv.FormatInt(n, 10)], also [fmt]'s [%d]. *)
Definition FormatInt (n : Z) : string :=
  if n <? 0 then String "-" (FormatUint (- n)) else FormatUint n.

Lemma parse_digits_onto (fuel : nat) (n : Z) (acc : string) :
  0 <= n < 10 ^ Z.of_nat fuel -> fuel <> O ->
  parse_digits (digits_onto fuel n acc) 0 = parse_digits acc n.
Proof.
  revert n acc; induction fuel as [|fuel IH]; intros n acc Hn Hf; [done|].
  cbn [digits_onto]. pose proof (Z.mod_pos_bound n 10 ltac:(lia)) as Hm.
  destruct (n <? 10) eqn:E.
  - cbn [parse_digits]. rewrite is_digit_char, digit_val_char by lia.
    f_equal. rewrite Z.mod_small; lia.
  - rewrite Nat2Z.inj_succ, Z.pow_succ_r in Hn by lia.
    rewrite IH; [| split; [apply Z.div_pos; lia | apply Z.div_lt_upper_bound; lia] |].
    + cbn [parse_digits]. rewrite is_digit_char, digit_val_char by lia.
      f_equal. pose proof (Z.div_mod n 10 ltac:(lia)). lia.
    + intros ->. cbn in Hn. lia.
Qed.

Lemma str_forall_digits_onto (p : ascii -> bool) fuel n acc :
  (forall c, is_digit c = true -> p c = true) ->
  0 <= n -> str_forall p acc = true -> str_forall p (digits_onto fuel n acc) = true.
Proof.
  intros Hp. revert n acc; induction fuel as [|fuel IH]; intros n acc Hn Ha; cbn; [done|].
  pose proof (Z.mod_pos_bound n 10 ltac:(lia)) as Hm.
  assert (p (digit_char (n mod 10)) = true) by (apply Hp, is_digit_char; lia).
  destruct (n <? 10); [cbn | apply IH; [apply Z.div_pos; lia | cbn]]; by rewrite H, Ha.
Qed.

Lemma digits_onto_head fuel n acc :
  0 <= n -> fuel <> O ->
  exists c s, digits_onto fuel n acc = String c s /\ is_digit c = true.
Proof.
  revert n acc; induction fuel as [|fuel IH]; intros n acc Hn Hf; [done|]. cbn.
  pose proof (Z.mod_pos_bound n 10 ltac:(lia)) as Hm.
  assert (is_digit (digit_char (n mod 10)) = true) by (apply is_digit_char; lia).
  destruct (n <? 10); [eauto|].
  destruct fuel; [cbn; eauto|]. apply IH; [apply Z.div_pos; lia | done].
Qed.

Lemma length_digits_onto (k fuel : nat) (n : Z) (acc : string) :
  10 ^ Z.of_nat k <= n < 10 ^ Z.of_nat (S k) -> (k < fuel)%nat ->
  String.length (digits_onto fuel n acc) = (S k + String.length acc)%nat.
Proof.
  revert fuel n acc; induction k as [|k IH]; intros [|fuel] n acc Hn Hf; try lia; cbn [digits_onto].
  - cbn in Hn. assert (n <? 10 = true) as -> by lia. done.
  - rewrite (Nat2Z.inj_succ (S k)), Nat2Z.inj_succ, !Z.pow_succ_r in Hn by lia.
    pose proof (Z.pow_pos_nonneg 10 (Z.of_nat k)).
    assert (n <? 10 = false) as -> by lia.
    rewrite IH; [cbn; lia | | lia].
    rewrite Nat2Z.inj_succ, Z.pow_succ_r by lia.
    split; [apply Z.div_le_lower_bound | apply Z.div_lt_upper_bound]; lia.
Qed.

Lemma ParseInt_FormatUint (n : Z) : 0 <= n <= max_int64 -> ParseInt (FormatUint n) = Some n.
Proof.
  intros Hn. unfold FormatUint.
  pose proof (parse_digits_onto 20 n "") as Hp. cbn [parse_digits] in Hp.
  specialize (Hp ltac:(unfold max_int64 in Hn; lia) ltac:(done)).
  destruct (digits_onto_head 20 n "" ltac:(lia) ltac:(done)) as (c & s & E & Hc).
  rewrite E in *. unfold ParseInt. rewrite !HasPrefix_byte.
  destruct (Ascii.eqb_spec c "-") as [->|]; [done|].
  destruct (Ascii.eqb_spec c "+") as [->|]; [done|]. cbn [orb].
  cbn [String.eqb]. rewrite Hp.
  destruct (n <=? max_int64) eqn:E2; [done|]. lia.
Qed.

(** A leading value shifts the number read by its weight. *)
Lemma parse_digits_shift (s : string) (a b n : Z) :
  parse_digits s a = Some n ->
  parse_digits s b = Some (n + (b - a) * 10 ^ str_len s).
Proof.
  unfold str_len. revert a b; induction s as [|c s IH]; intros a b; cbn [parse_digits].
  - intros [= ->]. f_equal. cbn. lia.
  - destruct (is_digit c); [|done]. intros H%(IH _ (b * 10 + digit_val c)).
    rewrite H. f_equal. cbn [String.length]. rewrite Nat2Z.inj_succ, Z.pow_succ_r by lia. ring.
Qed.

Lemma parse_digits_app (s t : string) (a : Z) :
  parse_digits (s +:+ t) a = parse_digits s a ≫= parse_digits t.
Proof.
  revert a; induction s as [|c s IH]; intros a; [done|]. autorewrite with gw. cbn.
  destruct (is_digit c); [apply IH | done].
Qed.

Lemma parse_digits_bound (s : string) (a n : Z) :
  0 <= a -> parse_digits s a = Some n ->
  a * 10 ^ str_len s <= n < (a + 1) * 10 ^ str_len s.
Proof.
  unfold str_len. revert a; induction s as [|c s IH]; intros a Ha; cbn [parse_digits].
  - intros [= ->]. cbn. lia.
  - destruct (is_digit c) eqn:E; [|done].
    assert (0 <= digit_val c <= 9).
    { unfold is_digit, digit_val in *. lia. }
    intros H1%IH; [|lia]. cbn [String.length].
    rewrite Nat2Z.inj_succ, Z.pow_succ_r by lia.
    pose proof (Z.pow_pos_nonneg 10 (Z.of_nat (String.length s))). nia.
Qed.

Lemma str_forall_digits_parse (s : string) (a : Z) :
  str_forall is_digit s = true -> exists n, parse_digits s a = Some n.
Proof.
  revert a; induction s as [|c s IH]; intros a; cbn; [eauto|].
  destruct (is_digit c); [apply IH | done].
Qed.

Lemma length_repeat_byte c n : String.length (repeat_byte c n) = n.
Proof. induction n; cbn; congruence. Qed.

Lemma TrimRight_repeat (s : string) (c : ascii) :
  (TrimRight s c +:+ repeat_byte c (String.length s - String.length (TrimRight s c)))%string = s.
Proof.
  induction s as [|x s IH]; cbn; [done|].
  destruct (TrimRight s c) as [|y t] eqn:E.
  - cbn in IH. autorewrite with gw in IH.
    destruct (Ascii.eqb_spec x c) as [->|]; cbn; autorewrite with gw; congruence.
  - cbn. autorewrite with gw. f_equal. exact IH.
Qed.

Lemma str_forall_TrimRight p s c : str_forall p s = true -> str_forall p (TrimRight s c) = true.
Proof.
  intros H. rewrite <- (TrimRight_repeat s c), str_forall_app in H.
  by apply andb_true_iff in H as [? _].
Qed.

(** Text without white space at its ends is left alone. *)
Definition plain_byte (c : ascii) : bool := (33 <=? byte_of c) && (byte_of c <=? 126).

Lemma of_bytes_bytes (s : string) : of_bytes (bytes s) = s.
Proof.
  unfold of_bytes, bytes. rewrite map_map.
  rewrite (map_ext _ id), map_id; [apply String.string_of_list_ascii_of_string|].
  intros c. unfold byte_of. rewrite Nat2Z.id. apply ascii_nat_embedding.
Qed.

Lemma trim_with_none f fuel s : f s = None -> trim_with f fuel s = s.
Proof. destruct fuel; cbn; [done|]. by intros ->. Qed.

Lemma leading_space_plain (b : Z) (l : list Z) : 33 <= b <= 126 -> leading_space (b :: l) = None.
Proof.
  intros Hb. cbn.
  assert (((9 <=? b) && (b <=? 13)) || (b =? 32) = false) as -> by lia.
  destruct l as [|c l]; [done|].
  assert ((b =? 194) = false) as -> by lia. cbn.
  destruct l; [done|].
  assert ((b =? 225) = false) as -> by lia.
  assert ((b =? 226) = false) as -> by lia.
  assert ((b =? 227) = false) as -> by lia. done.
Qed.

Lemma leading_space_last_plain (l : list Z) (b : Z) :
  33 <= b <= 126 -> (length l <= 2)%nat -> leading_space (l ++ [b]) <> Some (S (length l)).
Proof.
  intros Hb Hl. destruct l as [|x [|y [|z l]]]; cbn in Hl; [| | |lia].
  - cbn [app]. by rewrite leading_space_plain.
  - cbn. destruct (_ || _); [done|].
    assert ((b =? 133) = false) as -> by lia. assert ((b =? 160) = false) as -> by lia.
    by rewrite andb_false_r.
  - cbn. destruct (_ || _); [done|]. destruct (_ && _); [done|].
    replace (b =? 128) with false by lia. replace (b =? 168) with false by lia.
    replace (b =? 169) with false by lia. replace (b =? 175) with false by lia.
    replace (b =? 159) with false by lia. replace (128 <=? b) with false by lia.
    cbn. by rewrite !andb_false_r.
Qed.

Lemma leading_space_width (l : list Z) (n : nat) :
  leading_space l = Some n -> (n <= length l)%nat.
Proof. unfold leading_space. intros H. repeat case_match; simplify_eq; cbn; lia. Qed.

Lemma leading_space_last (l : list Z) (b : Z) (k : nat) :
  33 <= b <= 126 -> (k <= 2)%nat -> leading_space (rev (firstn k l) ++ [b]) <> Some (S k).
Proof.
  intros Hb Hk H. pose proof (leading_space_width _ _ H) as Hw.
  rewrite length_app, length_rev in Hw. cbn in Hw.
  assert (length (firstn k l) = k) as E by (rewrite length_firstn in *; lia).
  eapply (leading_space_last_plain (rev (firstn k l)) b Hb); rewrite length_rev, E; done.
Qed.

Lemma trailing_space_plain (b : Z) (l : list Z) : 33 <= b <= 126 -> trailing_space (b :: l) = None.
Proof.
  intros Hb. unfold trailing_space.
  pose proof (leading_space_last l b 0 Hb ltac:(lia)) as H1.
  pose proof (leading_space_last l b 1 Hb ltac:(lia)) as H2.
  pose proof (leading_space_last l b 2 Hb ltac:(lia)) as H3.
  change (rev (firstn 1 (b :: l))) with (rev (firstn 0 l) ++ [b]).
  change (rev (firstn 2 (b :: l))) with (rev (firstn 1 l) ++ [b]).
  change (rev (firstn 3 (b :: l))) with (rev (firstn 2 l) ++ [b]).
  repeat case_match; congruence.
Qed.

Lemma TrimSpace_plain (s : string) : str_forall plain_byte s = true -> TrimSpace s = s.
Proof.
  intros Hs. unfold TrimSpace.
  assert (Forall (fun b => 33 <= b <= 126) (bytes s)) as Hb.
  { unfold bytes. induction s as [|c s IH]; cbn in *; [constructor|].
    apply andb_true_iff in Hs as [Hc Hs]. unfold plain_byte in Hc.
    constructor; [lia | by apply IH]. }
  assert (trim_with leading_space (String.length s) (bytes s) = bytes s) as ->.
  { apply trim_with_none. destruct (bytes s); [done|].
    inversion_clear Hb. by apply leading_space_plain. }
  rewrite trim_with_none.
  - by rewrite rev_involutive, of_bytes_bytes.
  - apply List.Forall_rev in Hb. destruct (rev (bytes s)); [done|].
    inversion_clear Hb. by apply trailing_space_plain.
Qed.

Lemma Split_none (s : string) (sep : ascii) :
  str_forall (fun c => negb (Ascii.eqb c sep)) s = true -> Split s sep = [s].
Proof.
  induction s as [|c s IH]; cbn; [done|].
  intros [Hc Hs]%andb_true_iff. destruct (Ascii.eqb c sep); [done|]. by rewrite IH.
Qed.

Lemma Split_cut (s t : string) (sep : ascii) :
  str_forall (fun c => negb (Ascii.eqb c sep)) s = true ->
  Split (s +:+ String sep t) sep = s :: Split t sep.
Proof.
  induction s as [|c s IH]; autorewrite with gw; cbn.
  - by rewrite Ascii.eqb_refl.
  - intros [Hc Hs]%andb_true_iff. destruct (Ascii.eqb c sep); [done|]. by rewrite IH.
Qed.

(** [strings.Join] at a one-byte separator undoes [Split]. *)
Fixpoint Join (parts : list string) (sep : ascii) : string :=
  match parts with
  | [] => ""
  | [p] => p
  | p :: ps => (p +:+ String sep (Join ps sep))%string
  end.

Lemma Split_nonempty (s : string) (sep : ascii) : Split s sep <> [].
Proof. destruct s as [|c s]; cbn; [done|]. repeat case_match; done. Qed.

Lemma Join_Split (s : string) (sep : ascii) : Join (Split s sep) sep = s.
Proof.
  induction s as [|c s IH]; [done|]. cbn [Split].
  pose proof (Split_nonempty s sep) as Hne.
  destruct (Ascii.eqb_spec c sep) as [->|].
  - cbn. destruct (Split s sep); [done|]. autorewrite with gw. by rewrite IH.
  - destruct (Split s sep) as [|p ps]; [done|]. cbn in *.
    destruct ps; autorewrite with gw; congruence.
Qed.

Lemma ParseInt_unsigned (s : string) (n : Z) :
  HasPrefix s "-" = false -> HasPrefix s "+" = false -> s <> "" ->
  ParseInt s = Some n <-> parse_digits s 0 = Some n /\ n <= max_int64.
Proof.
  unfold ParseInt. intros -> ->; cbn. intros Hs.
  destruct (String.eqb_spec s ""); [done|].
  destruct (parse_digits s 0) as [m|]; [|naive_solver].
  destruct (m <=? max_int64) eqn:E; split; naive_solver lia.
Qed.

Lemma parse_digits_all (s : string) (a n : Z) :
  parse_digits s a = Some n -> str_forall is_digit s = true.
Proof.
  revert a; induction s as [|c s IH]; cbn; intros a; [done|].
  destruct (is_digit c); [apply IH|done].
Qed.

Lemma HasPrefix_app (s t : string) (c : ascii) :
  s <> "" -> HasPrefix (s +:+ t) (String c "") = HasPrefix s (String c "").
Proof. destruct s as [|x s]; [done|]. intros _. autorewrite with gw. by rewrite !HasPrefix_byte. Qed.

(** * sort

    [sort.SliceStable] by a strict weak order: the sorted arrangement that
    keeps the order of equivalent elements. [sort.Slice] and [sort.Strings]
    are used on keys without duplicates, where every sort gives this list. *)

Section SliceStable.
Context {A : Type} (less : A -> A -> bool).

Fixpoint insert_stable (x : A) (l : list A) : list A :=
  match l with
  | [] => [x]
  | y :: l' => if less y x then y :: insert_stable x l' else x :: l
  end.

Fixpoint SliceStable (l : list A) : list A :=
  match l with [] => [] | x :: l => insert_stable x (SliceStable l) end.

Lemma insert_stable_perm x l : insert_stable x l ≡ₚ x :: l.
Proof. induction l as [|y l IH]; cbn; [done|]. destruct (less y x); [|done]. rewrite IH. constructor. Qed.

Lemma SliceStable_perm l : SliceStable l ≡ₚ l.
Proof. induction l as [|x l IH]; cbn; [done|]. by rewrite insert_stable_perm, IH. Qed.

(** [y] may not come before [x]: no element is less than one before it. *)
Definition in_order (x y : A) : Prop := less y x = false.

Lemma insert_stable_sorted x l :
  (forall a b, less a b = true -> less b a = false) ->
  (forall a b c, less b a = false -> less c b = false -> less c a = false) ->
  StronglySorted in_order l -> StronglySorted in_order (insert_stable x l).
Proof.
  intros Hasym Htrans. induction 1 as [|y l Hl IH Hy]; cbn; [by repeat constructor|].
  destruct (less y x) eqn:E.
  - constructor; [done|]. rewrite insert_stable_perm. constructor; [by apply Hasym|done].
  - constructor; [by constructor|]. constructor; [done|].
    eapply Forall_impl; [exact Hy|]. intros z Hz. by eapply Htrans.
Qed.

Lemma SliceStable_sorted l :
  (forall a b, less a b = true -> less b a = false) ->
  (forall a b c, less b a = false -> less c b = false -> less c a = false) ->
  StronglySorted in_order (SliceStable l).
Proof. intros ??. induction l; cbn; [constructor|]. by apply insert_stable_sorted. Qed.

(** Elements none of which is less than another keep their order. *)
Lemma insert_stable_filter (p : A -> bool) x l :
  (forall a b, p a = true -> p b = true -> less a b = false) ->
  List.filter p (insert_stable x l) = List.filter p (x :: l).
Proof.
  intros Hp. induction l as [|y l IH]; [done|]. cbn [insert_stable].
  destruct (less y x) eqn:E; [|done]. cbn in *. rewrite IH.
  destruct (p y) eqn:Ey, (p x) eqn:Ex; try done. by rewrite (Hp y x) in E.
Qed.

Lemma SliceStable_stable (p : A -> bool) l :
  (forall a b, p a = true -> p b = true -> less a b = false) ->
  List.filter p (SliceStable l) = List.filter p l.
Proof. intros Hp. induction l as [|x l IH]; [done|]. cbn [SliceStable]. rewrite insert_stable_filter by done. cbn. by rewrite IH. Qed.

(** Sorting what is already in the order [R] breaks ties by [R]. *)
Definition then_by (R : A -> A -> Prop) (x y : A) : Prop := less x y = true \/ (less y x = false /\ R x y).

Lemma insert_stable_then_by (R : A -> A -> Prop) x l :
  (forall a b, less a b = true -> less b a = false) ->
  (forall a b c, less b a = false -> less c b = false -> less c a = false) ->
  Forall (R x) l -> StronglySorted (then_by R) l -> StronglySorted (then_by R) (insert_stable x l).
Proof.
  intros Hasym Htrans Hx. induction 1 as [|y l Hl IH Hy]; cbn; [by repeat constructor|].
  apply Forall_cons in Hx as [Hxy Hx]. specialize (IH Hx). destruct (less y x) eqn:E.
  - constructor; [done|]. rewrite insert_stable_perm. constructor; [by left|done].
  - constructor; [by constructor|]. constructor; [by right|].
    rewrite Forall_forall in Hx, Hy |- *. intros z Hz. right. split; [|by apply Hx].
    apply (Htrans x y z); [done|]. destruct (Hy z Hz) as [H|[H _]]; [by apply Hasym|done].
Qed.

Lemma SliceStable_then_by (R : A -> A -> Prop) l :
  (forall a b, less a b = true -> less b a = false) ->
  (forall a b c, less b a = false -> less c b = false -> less c a = false) ->
  StronglySorted R l -> StronglySorted (then_by R) (SliceStable l).
Proof.
  intros ??. induction 1 as [|x l Hl IH Hx]; cbn; [constructor|].
  apply insert_stable_then_by; [done..| |done]. by rewrite SliceStable_perm.
Qed.
End SliceStable.
