(* ===== verification/Money.v ===== *)
(** Money ([internal/features/usage/money.go]): USD amounts are [int64]
    nano-dollars. Parsing and printing of decimal amounts, and the price of a
    number of tokens at a rate per million. *)
From S2P Require Import Prelude GoStd.

Definition nanosPerUSD : Z := 1000000000.

Definition bad_amount : error := Msg "amount must be a non-negative USD decimal".
Definition too_large : error := Msg "amount is too large".

(** [ParseUSD] from the parsed whole part on. *)
Definition usd_of_parts (part0 fraction : string) : result Z :=
  whole ← match ParseInt part0 with
          | Some whole => if max_int64 / nanosPerUSD <? whole then Err too_large else Ok whole
          | None => Err too_large
          end;
  _ ← ensure (negb (9 <? str_len fraction)) (Msg "amount supports at most 9 decimal places");
  _ ← ensure (str_forall is_digit fraction) bad_amount;
  let fraction := (fraction +:+ repeat_byte "0" (9 - String.length fraction))%string in
  let fractionNanos :=
    if negb (String.eqb fraction "") then default 0 (ParseInt fraction) else 0 in
  _ ← ensure (negb (Z.quot (wrap64 (max_int64 - fractionNanos)) nanosPerUSD <? whole)) too_large;
  Ok (wrap64 (wrap64 (whole * nanosPerUSD) + fractionNanos)).

Definition ParseUSD (value : string) : result Z :=
  let value := TrimSpace value in
  _ ← ensure (negb (String.eqb value "" || HasPrefix value "-" || HasPrefix value "+")) bad_amount;
  match Split value "." with
  | [part0] =>
      _ ← ensure (negb (String.eqb part0 "")) bad_amount;
      usd_of_parts part0 ""
  | [part0; part1] =>
      _ ← ensure (negb (String.eqb part0 "" || String.eqb part1 "")) bad_amount;
      usd_of_parts part0 part1
  | _ => Err bad_amount
  end.

Definition parseSignedUSD (value : string) : result Z :=
  let value := TrimSpace value in
  let negative := HasPrefix value "-" in
  let value := if negative then TrimPrefix value "-" else value in
  amount ← ParseUSD value;
  if negative then Ok (wrap64 (- amount)) else Ok amount.

Definition formatUSDUnsigned (nanos : Z) : string :=
  let whole := nanos / nanosPerUSD in
  let fraction := nanos mod nanosPerUSD in
  if fraction =? 0 then FormatUint whole
  else (FormatUint whole +:+ "." +:+
        TrimRight (drop_bytes 1 (FormatUint (wrapu64 (fraction + nanosPerUSD)))) "0")%string.

Definition FormatUSD (nanos : Z) : string :=
  if nanos <? 0 then
    let magnitude := wrapu64 (wrapu64 (wrap64 (- wrap64 (nanos + 1))) + 1) in
    ("-" +:+ formatUSDUnsigned magnitude)%string
  else formatUSDUnsigned (wrapu64 nanos).

Definition cost_too_large : error := Msg "calculated cost is too large".

Definition tokenCost (tokens rateNanosPerMillion : Z) : result Z :=
  if (tokens <? 0) || (rateNanosPerMillion <? 0)
  then Err (Msg "token counts and prices must be non-negative")
  else
    let '(hi, lo) := Mul64 (wrapu64 tokens) (wrapu64 rateNanosPerMillion) in
    if 1000000 <=? hi then Err cost_too_large
    else
      let '(quotient, remainder) := Div64 hi lo 1000000 in
      let quotient := if negb (remainder =? 0) then wrapu64 (quotient + 1) else quotient in
      if max_int64 <? quotient then Err cost_too_large else Ok (wrap64 quotient).

Definition CalculateCost (inputTokens outputTokens inputRate outputRate : Z) : result Z :=
  inputCost ← tokenCost inputTokens inputRate;
  match tokenCost outputTokens outputRate with
  | Err _ => Err cost_too_large
  | Ok outputCost =>
      if wrap64 (max_int64 - outputCost) <? inputCost then Err cost_too_large
      else Ok (wrap64 (inputCost + outputCost))
  end.

(** * The reference: a price is rounded up to the next nano-dollar *)

Definition ceil_div (a b : Z) : Z := (a + b - 1) / b.

Lemma ceil_div_spec (a b : Z) : 0 < b -> a <= b * ceil_div a b < a + b.
Proof.
  intros Hb. unfold ceil_div.
  pose proof (Z.div_mod (a + b - 1) b ltac:(lia)).
  pose proof (Z.mod_pos_bound (a + b - 1) b Hb). nia.
Qed.

Lemma ceil_div_unique (a b q : Z) : 0 < b -> a <= b * q < a + b -> q = ceil_div a b.
Proof. intros Hb Hq. pose proof (ceil_div_spec a b Hb). nia. Qed.

Lemma ceil_div_mono (a a' b : Z) : 0 < b -> a <= a' -> ceil_div a b <= ceil_div a' b.
Proof. intros. unfold ceil_div. apply Z.div_le_mono; lia. Qed.

(** Splitting an amount in two can round up once more, never twice. *)
Lemma ceil_div_split (a a' b : Z) :
  0 < b -> ceil_div (a + a') b <= ceil_div a b + ceil_div a' b <= ceil_div (a + a') b + 1.
Proof.
  intros Hb. pose proof (ceil_div_spec a b Hb). pose proof (ceil_div_spec a' b Hb).
  pose proof (ceil_div_spec (a + a') b Hb). nia.
Qed.

Lemma Div64_ceil (hi lo q r : Z) :
  Div64 hi lo 1000000 = (q, r) ->
  (if negb (r =? 0) then q + 1 else q) = ceil_div (hi * two64 + lo) 1000000.
Proof.
  unfold Div64. intros [= <- <-]. apply ceil_div_unique; [lia|].
  pose proof (Z.div_mod (hi * two64 + lo) 1000000 ltac:(lia)).
  pose proof (Z.mod_pos_bound (hi * two64 + lo) 1000000 ltac:(lia)).
  destruct (_ =? 0) eqn:E; cbn; lia.
Qed.

(** The exact behaviour of [tokenCost]: the rounded-up price, computed
    modulo 2^64 after the [hi] guard. *)
Lemma tokenCost_cases (t r : Z) :
  0 <= t <= max_int64 -> 0 <= r <= max_int64 ->
  tokenCost t r =
    (if 1000000 * two64 <=? t * r then Err cost_too_large
     else let q := ceil_div (t * r) 1000000 mod two64 in
          if max_int64 <? q then Err cost_too_large else Ok q).
Proof.
  intros Ht Hr. unfold tokenCost.
  assert ((t <? 0) || (r <? 0) = false) as -> by lia.
  rewrite !wrapu64_id by (unfold_ints; lia).
  destruct (Mul64 t r) as [hi lo] eqn:E.
  pose proof (Mul64_spec _ _ _ _ E) as [E1 E2].
  pose proof (Mul64_hi_nonneg _ _ _ _ (proj1 Ht) (proj1 Hr) E) as Hhi.
  assert ((1000000 * two64 <=? t * r) = (1000000 <=? hi)) as -> by (unfold two64 in *; lia).
  destruct (1000000 <=? hi) eqn:Eh; [done|].
  destruct (Div64 hi lo 1000000) as [q rem] eqn:Ed.
  pose proof (Div64_ceil _ _ _ _ Ed) as Hc. rewrite <- E1 in Hc. cbv zeta. rewrite <- Hc.
  assert (0 <= q < two64) as Hq.
  { unfold Div64 in Ed. injection Ed as <- <-. split; [apply Z.div_pos; unfold_ints; nia|].
    apply Z.div_lt_upper_bound; unfold_ints; lia. }
  assert ((if negb (rem =? 0) then wrapu64 (q + 1) else q)
          = (if negb (rem =? 0) then q + 1 else q) mod two64) as ->.
  { destruct (rem =? 0); cbn; [|done]. symmetry. by apply Z.mod_small. }
  destruct (max_int64 <? _) eqn:Em; [done|]. f_equal. apply wrap64_id.
  pose proof (Z.mod_pos_bound (if negb (rem =? 0) then q + 1 else q) two64). unfold_ints; lia.
Qed.

Lemma tokenCost_nonneg_args (t r c : Z) : tokenCost t r = Ok c -> 0 <= t /\ 0 <= r.
Proof. unfold tokenCost. destruct ((t <? 0) || (r <? 0)) eqn:E; [done|]. lia. Qed.

Lemma tokenCost_range (t r c : Z) : tokenCost t r = Ok c -> 0 <= c <= max_int64.
Proof.
  unfold tokenCost. intros H. repeat case_match; simplify_eq;
  rewrite wrap64_id; unfold wrapu64, Mul64, Div64 in *; simplify_eq;
  rewrite ?negb_true_iff, ?negb_false_iff in *; unfold_ints; try lia; Z.div_mod_to_equations; lia.
Qed.

(** Below the last million of the 84-bit range the price is exact. *)
Lemma tokenCost_exact (t r : Z) :
  0 <= t <= max_int64 -> 0 <= r <= max_int64 -> t * r <= 1000000 * (two64 - 1) ->
  tokenCost t r =
    (if max_int64 <? ceil_div (t * r) 1000000 then Err cost_too_large
     else Ok (ceil_div (t * r) 1000000)).
Proof.
  intros Ht Hr Hb. rewrite tokenCost_cases by done.
  assert ((1000000 * two64 <=? t * r) = false) as -> by (unfold two64 in *; lia). cbv zeta.
  pose proof (ceil_div_spec (t * r) 1000000 ltac:(lia)).
  assert (0 <= t * r) by nia.
  rewrite Z.mod_small; [done|]. unfold two64 in *; lia.
Qed.

(** * Decimal amounts: lemmas *)

Lemma digits_no_byte (c : ascii) (s : string) :
  is_digit c = false -> str_forall is_digit s = true ->
  str_forall (fun x => negb (Ascii.eqb x c)) s = true.
Proof.
  intros Hc. induction s as [|x s IH]; cbn; [done|]. intros [Hx Hs]%andb_true_iff.
  rewrite IH by done. destruct (Ascii.eqb_spec x c); [congruence|done].
Qed.

Lemma FormatUint_digits (n : Z) : 0 <= n -> str_forall is_digit (FormatUint n) = true.
Proof. intros. by apply str_forall_digits_onto. Qed.

Lemma plain_of_digits (s : string) : str_forall is_digit s = true -> str_forall plain_byte s = true.
Proof.
  induction s as [|x s IH]; cbn; [done|]. intros [Hx Hs]%andb_true_iff.
  rewrite IH by done. unfold is_digit, plain_byte in *. lia.
Qed.

(** The nine fraction digits of an amount below one dollar. *)
Definition fraction_digits (fraction : Z) : string :=
  drop_bytes 1 (FormatUint (fraction + nanosPerUSD)).

Lemma fraction_digits_spec (f : Z) :
  0 <= f < nanosPerUSD ->
  String.length (fraction_digits f) = 9%nat /\
  str_forall is_digit (fraction_digits f) = true /\
  parse_digits (fraction_digits f) 0 = Some f.
Proof.
  intros Hf. unfold fraction_digits, nanosPerUSD in *.
  pose proof (FormatUint_digits (f + 1000000000) ltac:(lia)) as Hd.
  pose proof (parse_digits_onto 20 (f + 1000000000) "" ltac:(cbn; lia) ltac:(done)) as Hp.
  fold (FormatUint (f + 1000000000)) in Hp. cbn [parse_digits] in Hp.
  destruct (digits_onto_head 20 (f + 1000000000) "" ltac:(lia) ltac:(done)) as (c & s & E & Hc).
  fold (FormatUint (f + 1000000000)) in E. rewrite E in *. cbn [drop_bytes].
  cbn [str_forall parse_digits] in Hd, Hp. rewrite Hc in Hd, Hp. cbn in Hd.
  assert (0 <= digit_val c <= 9) as Hv by (unfold is_digit, digit_val in *; lia).
  pose proof (parse_digits_bound s (0 * 10 + digit_val c) _ ltac:(lia) Hp) as Hb.
  (* the leading byte is 1 and nine digits follow *)
  assert (String.length s = 9%nat) as Hl.
  { pose proof (length_digits_onto 9 20 (f + 1000000000) "" ltac:(cbn; lia) ltac:(lia)) as Hn.
    fold (FormatUint (f + 1000000000)) in Hn. rewrite E in Hn. cbn in Hn. lia. }
  unfold str_len in Hb. rewrite Hl in Hb.
  assert (digit_val c = 1) as Hv1 by (cbn in Hb; nia).
  rewrite Hv1 in Hp.
  pose proof (parse_digits_shift _ _ 0 _ Hp) as Hs. unfold str_len in Hs. rewrite Hl in Hs.
  split_and!; [done|done|]. rewrite Hs. f_equal. cbn. lia.
Qed.

(** The text of a decimal amount with whole part [w] and fraction part [f]. *)
Definition decimal (w f : string) : string :=
  if String.eqb f "" then w else (w +:+ "." +:+ f)%string.

(** [n] nano-dollars is what the decimal [w.f] denotes. *)
Definition denotes (w f : string) (n : Z) : Prop :=
  exists W F, parse_digits w 0 = Some W /\
    parse_digits (f +:+ repeat_byte "0" (9 - String.length f)) 0 = Some F /\
    n = W * nanosPerUSD + F.

Lemma eqb_neq_digit (c x : ascii) : is_digit x = false -> is_digit c = true -> Ascii.eqb c x = false.
Proof. intros. destruct (Ascii.eqb_spec c x); congruence. Qed.

Lemma decimal_plain (w f : string) :
  w <> "" -> str_forall is_digit w = true -> str_forall is_digit f = true ->
  TrimSpace (decimal w f) = decimal w f /\ decimal w f <> "" /\
  HasPrefix (decimal w f) "-" = false /\ HasPrefix (decimal w f) "+" = false.
Proof.
  intros Hw Hdw Hdf. split.
  { apply TrimSpace_plain. unfold decimal. destruct (String.eqb f ""); [by apply plain_of_digits|].
    rewrite !str_forall_app. rewrite (plain_of_digits w), (plain_of_digits f) by done. done. }
  destruct w as [|c w]; [done|]. cbn in Hdw. apply andb_true_iff in Hdw as [Hc _].
  assert (HasPrefix (String c w) "-" = false /\ HasPrefix (String c w) "+" = false) as [E1 E2].
  { rewrite !HasPrefix_byte. split; by apply eqb_neq_digit. }
  unfold decimal. destruct (String.eqb f ""); [done|]. by rewrite !HasPrefix_app.
Qed.

Lemma decimal_parts (w f : string) :
  str_forall is_digit w = true -> str_forall is_digit f = true ->
  Split (decimal w f) "." = if String.eqb f "" then [w] else [w; f].
Proof.
  intros Hw Hf. pose proof (digits_no_byte "." w eq_refl Hw) as Nw.
  pose proof (digits_no_byte "." f eq_refl Hf) as Nf.
  unfold decimal. destruct (String.eqb f ""); [by apply Split_none|].
  change ("." +:+ f)%string with (String "." f). rewrite Split_cut by done. by rewrite Split_none.
Qed.

Lemma padded_fraction_bound (f : string) (F : Z) :
  (String.length f <= 9)%nat ->
  parse_digits (f +:+ repeat_byte "0" (9 - String.length f)) 0 = Some F ->
  0 <= F < nanosPerUSD.
Proof.
  intros Hl HF. apply parse_digits_bound in HF; [|lia]. unfold str_len in HF.
  rewrite str_length_app, length_repeat_byte in HF.
  replace (String.length f + (9 - String.length f))%nat with 9%nat in HF by lia.
  unfold nanosPerUSD. cbn in HF. lia.
Qed.

Lemma str_forall_repeat_byte p c n : p c = true -> str_forall p (repeat_byte c n) = true.
Proof. intros Hp. induction n; cbn; [done|]. by rewrite Hp. Qed.

Lemma pad_fraction (f : string) :
  (String.length f <= 9)%nat ->
  String.length (f +:+ repeat_byte "0" (9 - String.length f)) = 9%nat.
Proof. intros. rewrite str_length_app, length_repeat_byte. lia. Qed.

Lemma ParseInt_digits (s : string) (n : Z) :
  s <> "" -> str_forall is_digit s = true ->
  ParseInt s = Some n <-> parse_digits s 0 = Some n /\ n <= max_int64.
Proof.
  intros Hs Hd. destruct (decimal_plain s "" Hs Hd eq_refl) as (_ & _ & ? & ?).
  by apply ParseInt_unsigned.
Qed.

(** The fraction the code reads is the padded digit string's value. *)
Lemma pad_parsed (f : string) (F : Z) :
  (String.length f <= 9)%nat ->
  parse_digits (f +:+ repeat_byte "0" (9 - String.length f)) 0 = Some F ->
  (if negb (String.eqb (f +:+ repeat_byte "0" (9 - String.length f)) "")
   then default 0 (ParseInt (f +:+ repeat_byte "0" (9 - String.length f))) else 0) = F.
Proof.
  intros Hl HF. pose proof (pad_fraction f Hl) as Hlen.
  pose proof (padded_fraction_bound f F Hl HF) as HFb.
  set (pad := (f +:+ repeat_byte "0" (9 - String.length f))%string) in *.
  assert (pad <> "") as Hne by (intros E; rewrite E in Hlen; done).
  destruct (String.eqb_spec pad ""); [done|]. cbn [negb].
  assert (ParseInt pad = Some F) as ->; [|done].
  apply ParseInt_digits; [done|by eapply parse_digits_all|].
  split; [done|]. unfold nanosPerUSD in *; unfold_ints; lia.
Qed.

(** [usd_of_parts] accepts exactly the amounts that fit, and is exact. *)
Lemma usd_of_parts_Ok (w f : string) (n : Z) :
  w <> "" -> str_forall is_digit w = true ->
  usd_of_parts w f = Ok n <->
  str_forall is_digit f = true /\ (String.length f <= 9)%nat /\ denotes w f n /\ n <= max_int64.
Proof.
  intros Hw Hdw. unfold usd_of_parts, denotes. cbv zeta.
  set (pad := (f +:+ repeat_byte "0" (9 - String.length f))%string).
  rewrite result_bind_Ok. setoid_rewrite result_bind_Ok. setoid_rewrite result_bind_Ok.
  setoid_rewrite result_bind_Ok. setoid_rewrite ensure_Ok. split.
  - intros (W & HW & [] & Hl & [] & Hd & [] & Hfit & Hn).
    assert (String.length f <= 9)%nat as Hl' by (unfold str_len in Hl; lia).
    destruct (ParseInt w) as [W'|] eqn:EW; [|done].
    destruct (max_int64 / nanosPerUSD <? W') eqn:EW2; [done|]. injection HW as <-.
    apply ParseInt_digits in EW as [EW EWm]; [|done..].
    destruct (str_forall_digits_parse pad 0) as [F HF].
    { unfold pad. rewrite str_forall_app, Hd. by apply str_forall_repeat_byte. }
    pose proof (padded_fraction_bound f F Hl' HF) as HFb.
    pose proof (parse_digits_bound w 0 W' ltac:(lia) EW) as HWb.
    pose proof (pad_parsed f F Hl' HF) as Hpp. fold pad in Hpp. rewrite Hpp in Hfit, Hn.
    unfold nanosPerUSD in *.
    rewrite wrap64_id, Z.quot_div_nonneg, negb_true_iff, Z.ltb_ge in Hfit by (unfold_ints; lia).
    assert (W' * 1000000000 + F <= max_int64) as Hm.
    { pose proof (Z.mul_div_le (max_int64 - F) 1000000000 ltac:(done)). lia. }
    split_and!; [done|done| |].
    + exists W', F. split_and!; [done..|]. rewrite (wrap64_id (W' * _)), wrap64_id in Hn by (unfold_ints; nia). congruence.
    + rewrite (wrap64_id (W' * _)), wrap64_id in Hn by (unfold_ints; nia). congruence.
  - intros (Hd & Hl & (W & F & HW & HF & ->) & Hm).
    pose proof (padded_fraction_bound f F Hl HF) as HFb.
    pose proof (parse_digits_bound w 0 W ltac:(lia) HW) as HWb.
    exists W. split.
    { assert (ParseInt w = Some W) as ->.
      { apply ParseInt_digits; [done..|]. split; [done|]. unfold nanosPerUSD in *; lia. }
      destruct (Z.ltb_spec (max_int64 / nanosPerUSD) W) as [Hlt|]; [|done].
      exfalso. apply Z.lt_nge in Hlt. apply Hlt, Z.div_le_lower_bound; unfold nanosPerUSD in *; lia. }
    exists (). split; [unfold str_len; lia|]. exists (). split; [done|]. exists ().
    pose proof (pad_parsed f F Hl HF) as Hpp. fold pad in Hpp. rewrite Hpp.
    unfold nanosPerUSD in *.
    rewrite wrap64_id, Z.quot_div_nonneg, negb_true_iff, Z.ltb_ge by (unfold_ints; lia).
    split; [apply Z.div_le_lower_bound; lia|]. rewrite (wrap64_id (W * _)), wrap64_id; [done|unfold_ints; nia..].
Qed.

Lemma usd_of_parts_whole (p f : string) (n : Z) :
  usd_of_parts p f = Ok n -> HasPrefix p "-" = false -> HasPrefix p "+" = false -> p <> "" ->
  str_forall is_digit p = true.
Proof.
  unfold usd_of_parts. intros (W & HW & _)%result_bind_Ok ?? Hp.
  destruct (ParseInt p) as [m|] eqn:E; [|done].
  apply ParseInt_unsigned in E as [E _]; [|done..]. by eapply parse_digits_all.
Qed.

Lemma HasPrefix_head (p t : string) (x : ascii) :
  p <> "" -> HasPrefix (p +:+ t) (String x "") = false -> HasPrefix p (String x "") = false.
Proof. intros Hp. by rewrite HasPrefix_app. Qed.

Lemma ParseUSD_Ok (s : string) (n : Z) :
  ParseUSD s = Ok n <->
  exists w f, TrimSpace s = decimal w f /\ w <> "" /\ str_forall is_digit w = true /\
    str_forall is_digit f = true /\ (String.length f <= 9)%nat /\ denotes w f n /\ n <= max_int64.
Proof.
  unfold ParseUSD. cbv zeta. split.
  - intros ([] & Hg%ensure_Ok & H)%result_bind_Ok.
    rewrite negb_true_iff, !orb_false_iff in Hg. destruct Hg as [[Hne Hm] Hp].
    pose proof (Join_Split (TrimSpace s) ".") as HJ.
    destruct (Split (TrimSpace s) ".") as [|w [|f [|? ?]]]; try done.
    + apply result_bind_Ok in H as ([] & Hw%ensure_Ok & H). cbn in HJ. subst w.
      apply negb_true_iff, String.eqb_neq in Hw.
      pose proof (usd_of_parts_whole _ _ _ H Hm Hp Hw) as Hd.
      apply usd_of_parts_Ok in H as (? & ? & ? & ?); [|done..]. by exists (TrimSpace s), "".
    + apply result_bind_Ok in H as ([] & Hw%ensure_Ok & H).
      rewrite negb_true_iff, orb_false_iff, !String.eqb_neq in Hw. destruct Hw as [Hw Hf].
      cbn in HJ. rewrite <- HJ in Hm, Hp. apply HasPrefix_head in Hm, Hp; [|done..].
      pose proof (usd_of_parts_whole _ _ _ H Hm Hp Hw) as Hd.
      apply usd_of_parts_Ok in H as (? & ? & ? & ?); [|done..]. exists w, f.
      split_and!; try done. rewrite <- HJ. unfold decimal. by destruct (String.eqb_spec f "").
  - intros (w & f & Hs & Hw & Hdw & Hdf & Hl & Hden & Hn).
    destruct (decimal_plain w f Hw Hdw Hdf) as (_ & Hne & Hm & Hp).
    rewrite Hs, Hm, Hp. destruct (String.eqb_spec (decimal w f) ""); [done|].
    cbn [orb negb ensure mbind result_bind]. rewrite decimal_parts by done.
    assert (usd_of_parts w f = Ok n) by by apply usd_of_parts_Ok.
    destruct (String.eqb_spec f "") as [->|], (String.eqb_spec w ""); cbn; try done.
    by destruct (String.eqb_spec f "").
Qed.

Lemma FormatUint_denotes (n : Z) :
  0 <= n <= max_int64 -> FormatUint n <> "" /\ str_forall is_digit (FormatUint n) = true /\
  parse_digits (FormatUint n) 0 = Some n.
Proof.
  intros Hn. split_and!.
  - destruct (digits_onto_head 20 n "" ltac:(lia) ltac:(done)) as (c & s & E & _).
    unfold FormatUint. by rewrite E.
  - apply FormatUint_digits; lia.
  - unfold FormatUint. rewrite parse_digits_onto; [done| |done]. unfold_ints. cbn. lia.
Qed.

Lemma formatUSDUnsigned_decimal (n : Z) :
  0 <= n <= max_int64 -> exists w f, formatUSDUnsigned n = decimal w f /\ w <> "" /\
    str_forall is_digit w = true /\ str_forall is_digit f = true /\
    (String.length f <= 9)%nat /\ denotes w f n.
Proof.
  intros Hn. unfold formatUSDUnsigned. cbv zeta.
  pose proof (Z.mod_pos_bound n nanosPerUSD ltac:(done)) as Hm.
  pose proof (Z.div_mod n nanosPerUSD ltac:(done)) as Hdm.
  destruct (FormatUint_denotes (n / nanosPerUSD)) as (Hw & Hdw & HW).
  { split; [apply Z.div_pos; [lia|done]|]. apply Z.div_le_upper_bound; [done|]. unfold nanosPerUSD. lia. }
  destruct (Z.eqb_spec (n mod nanosPerUSD) 0) as [E|E].
  - exists (FormatUint (n / nanosPerUSD)), "". split_and!; try done; [cbn; lia|].
    exists (n / nanosPerUSD), 0. split_and!; [done|done|lia].
  - rewrite wrapu64_id by (unfold_ints; unfold nanosPerUSD in *; lia).
    fold (fraction_digits (n mod nanosPerUSD)).
    destruct (fraction_digits_spec _ Hm) as (Hl & Hd & HF).
    set (d := fraction_digits (n mod nanosPerUSD)) in *.
    pose proof (TrimRight_repeat d "0") as HT. rewrite Hl in HT.
    assert (TrimRight d "0" <> "") as Hne.
    { intros E2. rewrite E2 in HT. change (repeat_byte "0" 9 = d) in HT. rewrite <- HT in HF.
      change (Some 0 = Some (n mod nanosPerUSD)) in HF. congruence. }
    exists (FormatUint (n / nanosPerUSD)), (TrimRight d "0"). split_and!; try done.
    + unfold decimal. by destruct (String.eqb_spec (TrimRight d "0") "").
    + by apply str_forall_TrimRight.
    + assert (String.length (TrimRight d "0" +:+ repeat_byte "0" (9 - String.length (TrimRight d "0")))
              = 9%nat) as Hlen by by rewrite HT.
      rewrite str_length_app in Hlen. lia.
    + exists (n / nanosPerUSD), (n mod nanosPerUSD). rewrite HT. split_and!; [done..|lia].
Qed.

Lemma ParseUSD_format (n : Z) : 0 <= n <= max_int64 -> ParseUSD (formatUSDUnsigned n) = Ok n.
Proof.
  intros Hn. destruct (formatUSDUnsigned_decimal n Hn) as (w & f & -> & Hw & Hdw & Hdf & Hl & Hden).
  apply ParseUSD_Ok. exists w, f. destruct (decimal_plain w f Hw Hdw Hdf) as (-> & _).
  split_and!; [done..|lia].
Qed.

(** every representable amount survives printing and signed parsing: for
    each [int64] above the minimum, [parseSignedUSD (FormatUSD n) = n], and a
    non-negative one also survives the unsigned parser. *)
Theorem FormatUSD_parse_roundtrip (n : Z) :
  - max_int64 <= n <= max_int64 ->
  parseSignedUSD (FormatUSD n) = Ok n /\ (0 <= n -> ParseUSD (FormatUSD n) = Ok n).
Proof.
  intros Hn. assert (0 <= Z.abs n <= max_int64) as Ha by lia.
  destruct (formatUSDUnsigned_decimal _ Ha) as (w & f & E & Hw & Hdw & Hdf & Hl & Hden).
  destruct (decimal_plain w f Hw Hdw Hdf) as (Ht & Hne & Hm & Hp).
  pose proof (ParseUSD_format _ Ha) as HP. unfold parseSignedUSD, FormatUSD. cbv zeta.
  destruct (Z.ltb_spec n 0) as [Hneg|Hpos].
  - split; [|lia].
    rewrite (wrap64_id (n + 1)), (wrap64_id (- (n + 1))) by (unfold_ints; lia).
    rewrite (wrapu64_id (- (n + 1))), (wrapu64_id (_ + 1)) by (unfold_ints; lia).
    replace (- (n + 1) + 1) with (Z.abs n) by lia.
    assert (TrimSpace ("-" +:+ formatUSDUnsigned (Z.abs n)) = ("-" +:+ formatUSDUnsigned (Z.abs n))%string) as ->.
    { apply TrimSpace_plain. rewrite str_forall_app, E. unfold decimal.
      destruct (String.eqb f ""); rewrite ?str_forall_app, ?(plain_of_digits w), ?(plain_of_digits f); done. }
    assert (HasPrefix ("-" +:+ formatUSDUnsigned (Z.abs n)) "-" = true) as Hpre.
    { change ("-" +:+ formatUSDUnsigned (Z.abs n))%string with (String "-" (formatUSDUnsigned (Z.abs n))).
      by rewrite HasPrefix_byte. }
    rewrite Hpre. unfold TrimPrefix. rewrite Hpre.
    change (drop_bytes _ _) with (formatUSDUnsigned (Z.abs n)). rewrite HP. cbn [mbind result_bind].
    f_equal. rewrite wrap64_id; unfold_ints; lia.
  - rewrite wrapu64_id by (unfold_ints; lia). replace (Z.abs n) with n in * by lia.
    rewrite E in *. rewrite Ht, Hm, HP. done.
Qed.

Lemma FormatUSD_parse_roundtrip_witness :
  -1500000000 <= 0 /\ FormatUSD (-1500000000) = "-1.5" /\ parseSignedUSD (FormatUSD (-1500000000)) = Ok (-1500000000).
Proof.
  split; [lia|]. split; [reflexivity|].
  apply (FormatUSD_parse_roundtrip (-1500000000)). unfold max_int64. lia.
Defined.

(** [ParseUSD] accepts exactly the trimmed decimals [w] or [w.f] with a
    non-empty whole part, at most nine fraction digits and a value of at most
    2^63-1 nano-dollars, and returns exactly that value; nothing wraps. *)
Theorem ParseUSD_exact (s : string) (n : Z) :
  ParseUSD s = Ok n <->
  exists w f, TrimSpace s = decimal w f /\ w <> "" /\ str_forall is_digit w = true /\
    str_forall is_digit f = true /\ (String.length f <= 9)%nat /\ denotes w f n /\
    0 <= n <= max_int64.
Proof.
  rewrite ParseUSD_Ok. split; intros (w & f & H1 & H2 & H3 & H4 & H5 & H6 & H7); exists w, f;
    split_and!; try done; [|lia].
  destruct H6 as (W & F & HW & HF & ->). apply parse_digits_bound in HW; [|lia].
  pose proof (padded_fraction_bound f F H5 HF). unfold nanosPerUSD in *. lia.
Qed.

(** As long as the exact price stays below 2^64-1 nano-dollars,
    [tokenCost] returns the price rounded up to the next nano-dollar, or an
    error when that price does not fit an [int64]. *)
Theorem tokenCost_rounds_up (t r : Z) :
  0 <= t <= max_int64 -> 0 <= r <= max_int64 -> t * r <= 1000000 * (two64 - 1) ->
  tokenCost t r =
    (if max_int64 <? ceil_div (t * r) 1000000 then Err cost_too_large
     else Ok (ceil_div (t * r) 1000000)) /\
  t * r <= 1000000 * ceil_div (t * r) 1000000 < t * r + 1000000.
Proof. intros. split; [by apply tokenCost_exact | by apply ceil_div_spec]. Qed.

Lemma tokenCost_rounds_up_witness :
  tokenCost 1500 2500000001 = Ok 3750001.
Proof.
  rewrite (proj1 (tokenCost_rounds_up 1500 2500000001 ltac:(unfold max_int64; lia)
    ltac:(unfold max_int64; lia) ltac:(unfold two64; lia))). reflexivity.
Defined.

(** In the last million products before the [hi] guard the rounding
    increment wraps the 64-bit quotient: 2,000,001 tokens at a representable
    rate cost 0 nano-dollars instead of being rejected as too large. *)
Theorem tokenCost_wraps_to_zero :
  let t := 2000001 in
  let r := 9223367425171063222 in
  r <= max_int64 /\ max_int64 < ceil_div (t * r) 1000000 /\
  tokenCost t r = Ok 0 /\ CalculateCost t 0 r 0 = Ok 0.
Proof. by vm_compute. Qed.

(** [CalculateCost] adds two prices and checks the sum. *)
Lemma CalculateCost_sum (i o ri ro ci co : Z) :
  tokenCost i ri = Ok ci -> tokenCost o ro = Ok co ->
  CalculateCost i o ri ro = (if max_int64 <? ci + co then Err cost_too_large else Ok (ci + co)).
Proof.
  intros Hi Ho. pose proof (tokenCost_range _ _ _ Hi). pose proof (tokenCost_range _ _ _ Ho).
  unfold CalculateCost. rewrite Hi, Ho. cbn [mbind result_bind].
  rewrite (wrap64_id (max_int64 - co)) by (unfold_ints; lia).
  assert ((max_int64 - co <? ci) = (max_int64 <? ci + co)) as -> by lia.
  destruct (max_int64 <? ci + co) eqn:E; [done|]. rewrite wrap64_id; [done|unfold_ints; lia].
Qed.

Lemma CalculateCost_Ok (i o ri ro c : Z) :
  CalculateCost i o ri ro = Ok c ->
  exists ci co, tokenCost i ri = Ok ci /\ tokenCost o ro = Ok co /\ c = ci + co /\ c <= max_int64.
Proof.
  intros H. pose proof H as H'. unfold CalculateCost in H'.
  apply result_bind_Ok in H' as (ci & Hi & H'). destruct (tokenCost o ro) as [co|] eqn:Ho; [|done].
  rewrite (CalculateCost_sum _ _ _ _ ci co) in H by done.
  destruct (max_int64 <? ci + co) eqn:E; [done|]. exists ci, co. naive_solver lia.
Qed.
