(* ===== verification/Calendar.v ===== *)
(** Go's [time] package, as far as the code uses it: UTC calendar fields of a
    Unix millisecond time and [time.Date] in UTC, over the proleptic Gregorian
    calendar. Years start in March internally, so leap days come last. *)
From S2P Require Import Prelude.

Definition ms_per_day : Z := 86400000.

(** First day of March-year [y], counted from 1 March of year 0. *)
Definition year_start (y : Z) : Z := 365 * y + y / 4 - y / 100 + y / 400.
(** First day of March-month [mp] (0 is March) within its year. *)
Definition month_start (mp : Z) : Z := (153 * mp + 2) / 5.
(** Days from 1 March of year 0 to 1 January 1970. *)
Definition epoch_shift : Z := 719468.

(** [days_of y m d] is the day number of [time.Date(y, m, d, ...)]; a month
    outside 1..12 is normalised into the year, as [time.Date] does. *)
Definition days_of (y m d : Z) : Z :=
  let y := y + (m - 1) / 12 in
  let m := (m - 1) mod 12 + 1 in
  let y' := if m <=? 2 then y - 1 else y in
  let mp := (m + 9) mod 12 in
  year_start y' + month_start mp + d - 1 - epoch_shift.

(** The March-year of a day number counted from 1 March of year 0. *)
Definition march_year (n : Z) : Z :=
  let era := n / 146097 in
  let doe := n mod 146097 in
  era * 400 + (doe - doe / 1460 + doe / 36524 - doe / 146096) / 365.

Record date := mkDate { Year : Z; Month : Z; Day : Z }.

Definition date_of_days (z : Z) : date :=
  let n := z + epoch_shift in
  let y := march_year n in
  let doy := n - year_start y in
  let mp := (5 * doy + 2) / 153 in
  let d := doy - month_start mp + 1 in
  let m := if mp <? 10 then mp + 3 else mp - 9 in
  mkDate (if m <=? 2 then y + 1 else y) m d.

Definition days_of_millis (t : Z) : Z := t / ms_per_day.
Definition date_of_millis (t : Z) : date := date_of_days (days_of_millis t).
Definition Hour (t : Z) : Z := (t mod ms_per_day) / 3600000.
Definition Minute (t : Z) : Z := (t mod 3600000) / 60000.
(** [time.Weekday]: Sunday is 0; 1 January 1970 was a Thursday. *)
Definition Weekday (t : Z) : Z := (days_of_millis t + 4) mod 7.

(** [time.Date(y, m, d, h, 0, 0, 0, time.UTC).UnixMilli()]. *)
Definition Date (y m d h : Z) : Z := days_of y m d * ms_per_day + h * 3600000.

Lemma year_start_era (e y : Z) : 0 <= y < 400 ->
  year_start (e * 400 + y) = e * 146097 + 365 * y + y / 4 - y / 100.
Proof. intros. unfold year_start. Z.div_mod_to_equations. lia. Qed.

Lemma march_year_era (n : Z) :
  exists e y doe, n = e * 146097 + doe /\ 0 <= doe < 146097 /\ march_year n = e * 400 + y /\
    y = (doe - doe / 1460 + doe / 36524 - doe / 146096) / 365.
Proof.
  exists (n / 146097), ((n mod 146097 - n mod 146097 / 1460 + n mod 146097 / 36524 - n mod 146097 / 146096) / 365),
    (n mod 146097).
  pose proof (Z.div_mod n 146097 ltac:(lia)). pose proof (Z.mod_pos_bound n 146097 ltac:(lia)).
  split_and!; try lia; done.
Qed.

Lemma year_of_era_bounds (doe : Z) :
  0 <= doe < 146097 ->
  let y := (doe - doe / 1460 + doe / 36524 - doe / 146096) / 365 in
  0 <= y < 400 /\ 365 * y + y / 4 - y / 100 <= doe /\
  (y < 399 -> doe < 365 * (y + 1) + (y + 1) / 4 - (y + 1) / 100).
Proof. intros H y. subst y. Z.div_mod_to_equations. lia. Qed.

Lemma march_year_bounds (n : Z) : year_start (march_year n) <= n < year_start (march_year n + 1).
Proof.
  destruct (march_year_era n) as (e & y & doe & Hn & Hd & -> & Hy).
  pose proof (year_of_era_bounds doe Hd) as Hb. cbv zeta in Hb. rewrite <- Hy in Hb.
  destruct Hb as (Hyb & Hlo & Hhi). rewrite year_start_era by lia.
  destruct (Z.lt_ge_cases y 399) as [Hlt|Hge].
  - replace (e * 400 + y + 1) with (e * 400 + (y + 1)) by lia. rewrite year_start_era by lia. lia.
  - assert (y = 399) as -> by lia. replace (e * 400 + 399 + 1) with ((e + 1) * 400 + 0) by lia.
    rewrite (year_start_era (e + 1) 0) by lia. change (399 / 4) with 99. change (399 / 100) with 3.
    change (0 / 4) with 0. change (0 / 100) with 0. change (399 / 4) with 99 in Hlo. change (399 / 100) with 3 in Hlo. lia.
Qed.

Lemma year_length (y : Z) : year_start (y + 1) - year_start y <= 366.
Proof. unfold year_start. Z.div_mod_to_equations. lia. Qed.

Lemma month_of_doy (doy : Z) :
  0 <= doy < 366 ->
  let mp := (5 * doy + 2) / 153 in
  0 <= mp <= 11 /\ month_start mp <= doy /\ (mp < 11 -> doy < month_start (mp + 1)).
Proof. intros H mp. subst mp. unfold month_start. Z.div_mod_to_equations. lia. Qed.

(** A date in terms of its March-based year and month. *)
Lemma days_of_march (y mp d : Z) :
  0 <= mp <= 11 ->
  let m := if mp <? 10 then mp + 3 else mp - 9 in
  days_of (if m <=? 2 then y + 1 else y) m d = year_start y + month_start mp + d - 1 - epoch_shift.
Proof.
  intros Hmp m. unfold days_of.
  assert (1 <= m <= 12 /\ (m <= 2 <-> 10 <= mp) /\ (m + 9) mod 12 = mp) as (Hm & Hle & Hmod).
  { subst m. destruct (Z.ltb_spec mp 10); split_and!; try lia; Z.div_mod_to_equations; lia. }
  assert ((m - 1) / 12 = 0) as -> by (apply Z.div_small; lia).
  assert ((m - 1) mod 12 + 1 = m) as -> by (rewrite Z.mod_small; lia).
  rewrite Hmod, Z.add_0_r. destruct (Z.leb_spec m 2); [|lia].
  replace (y + 1 - 1) with y by lia. lia.
Qed.

Lemma days_of_next_month (y mp : Z) :
  0 <= mp <= 11 ->
  let m := if mp <? 10 then mp + 3 else mp - 9 in
  days_of (if m <=? 2 then y + 1 else y) (m + 1) 1 =
  (if mp <? 11 then year_start y + month_start (mp + 1) else year_start (y + 1)) - epoch_shift.
Proof.
  intros Hmp m. destruct (Z.eq_dec mp 9) as [->|H9].
  - (* December to January of the next year *)
    change m with 12. unfold days_of. change ((12 + 1 - 1) / 12) with 1.
    change ((12 + 1 - 1) mod 12 + 1) with 1. change ((1 + 9) mod 12) with 10.
    change (12 <=? 2) with false. change (1 <=? 2) with true. change (9 <? 11) with true.
    change (9 + 1) with 10. cbv iota. replace (y + 1 - 1) with y by lia. lia.
  - destruct (Z.eq_dec mp 11) as [->|H11].
    + change m with 2. unfold days_of.
      change ((2 + 1 - 1) / 12) with 0. change ((2 + 1 - 1) mod 12 + 1) with 3.
      change ((3 + 9) mod 12) with 0. change (month_start 0) with 0. 
      change (3 <=? 2) with false. change (2 <=? 2) with true.
      change (11 <? 11) with false. cbv iota. rewrite !Z.add_0_r. lia.
    + pose proof (days_of_march y (mp + 1) 1 ltac:(lia)) as H. cbv zeta in H.
      assert ((if mp + 1 <? 10 then mp + 1 + 3 else mp + 1 - 9) = m + 1) as Em.
      { subst m. destruct (Z.ltb_spec (mp + 1) 10), (Z.ltb_spec mp 10); lia. }
      rewrite Em in H. assert ((m + 1 <=? 2) = (m <=? 2)) as E2.
      { subst m. destruct (Z.ltb_spec mp 10); [|assert (mp = 10) by lia; subst; done].
        destruct (Z.leb_spec (mp + 3 + 1) 2), (Z.leb_spec (mp + 3) 2); lia. }
      rewrite E2 in H. rewrite H. destruct (Z.ltb_spec mp 11); [|lia]. lia.
Qed.

(** The fields of a day name it, and the day lies in their month. *)
Lemma date_of_days_spec (z : Z) :
  let t := date_of_days z in
  days_of (Year t) (Month t) (Day t) = z /\
  days_of (Year t) (Month t) 1 <= z < days_of (Year t) (Month t + 1) 1.
Proof.
  unfold date_of_days. cbv zeta. cbn [Year Month Day].
  set (n := z + epoch_shift). set (y := march_year n). set (doy := n - year_start y).
  pose proof (march_year_bounds n) as Hb. fold y in Hb. pose proof (year_length y) as Hl.
  assert (0 <= doy < 366) as Hd by lia.
  pose proof (month_of_doy doy Hd) as Hm. cbv zeta in Hm. set (mp := (5 * doy + 2) / 153) in *.
  destruct Hm as (Hmp & Hlo & Hhi).
  pose proof (days_of_march y mp) as Hdm. cbv zeta in Hdm. rewrite !Hdm by done.
  pose proof (days_of_next_month y mp) as Hnm. cbv zeta in Hnm. rewrite Hnm by done.
  destruct (Z.ltb_spec mp 11); split; lia.
Qed.

(** ** Months as an increasing sequence of days *)

(** First day of the month with ordinal [k] = 12 * year + (month - 1). *)
Definition month_first (k : Z) : Z := days_of 0 (k + 1) 1.

Lemma days_of_shift (y m d k : Z) : days_of y m (d + k) = days_of y m d + k.
Proof. unfold days_of. cbv zeta. lia. Qed.

Lemma month_first_ordinal (y m : Z) : days_of y m 1 = month_first (12 * y + m - 1).
Proof.
  unfold month_first, days_of. replace (12 * y + m - 1 + 1 - 1) with (m - 1 + y * 12) by lia.
  rewrite Z.div_add, Z.mod_add by lia. cbv zeta. replace (0 + ((m - 1) / 12 + y)) with (y + (m - 1) / 12) by lia.
  done.
Qed.

Lemma year_start_lt (y : Z) : year_start y + 365 <= year_start (y + 1).
Proof. unfold year_start. Z.div_mod_to_equations. lia. Qed.

Lemma days_of_first (q r : Z) :
  0 <= r < 12 ->
  days_of q (r + 1) 1 =
  (if r <=? 1 then year_start (q - 1) else year_start q) + month_start ((r + 10) mod 12) - epoch_shift.
Proof.
  intros H. unfold days_of. replace (r + 1 - 1) with r by lia.
  rewrite Z.div_small, Z.mod_small by lia. cbv zeta. replace (r + 1 + 9) with (r + 10) by lia.
  rewrite Z.add_0_r. destruct (Z.leb_spec (r + 1) 2), (Z.leb_spec r 1); lia.
Qed.

(** Evaluates the calendar tables at literal months. *)
Ltac month_table :=
  repeat match goal with
  | |- context [month_start ?x] => let v := eval vm_compute in (month_start x) in change (month_start x) with v
  | |- context [?a <=? ?b] => let v := eval vm_compute in (a <=? b) in change (a <=? b) with v; cbv iota
  end.

Lemma month_first_step (k : Z) : month_first k < month_first (k + 1).
Proof.
  pose proof (Z.mod_pos_bound k 12 ltac:(lia)) as Hr. pose proof (Z.div_mod k 12 ltac:(lia)) as Hk.
  set (q := k / 12) in *. set (r := k mod 12) in *. clearbody q r. subst k.
  assert (month_first (12 * q + r) = days_of q (r + 1) 1) as ->.
  { rewrite month_first_ordinal. f_equal. lia. }
  rewrite days_of_first by done.
  pose proof (year_start_lt (q - 1)) as H. replace (q - 1 + 1) with q in H by lia.
  destruct (Z.eq_dec r 11) as [->|Hn].
  - replace (12 * q + 11 + 1) with (12 * (q + 1) + 0 + 1 - 1) by lia.
    replace (12 * (q + 1) + 0 + 1 - 1) with (12 * (q + 1) + (0 + 1) - 1) by lia.
    rewrite <- month_first_ordinal, days_of_first by lia. replace (q + 1 - 1) with q by lia.
    month_table. lia.
  - replace (12 * q + r + 1) with (12 * q + (r + 1 + 1) - 1) by lia.
    rewrite <- month_first_ordinal, days_of_first by lia.
    enumerate r 11%nat; month_table; lia.
Qed.

Lemma month_first_lt (k l : Z) : k < l -> month_first k < month_first l.
Proof.
  intros H. replace l with (k + 1 + Z.of_nat (Z.to_nat (l - k - 1))) by lia.
  induction (Z.to_nat (l - k - 1)) as [|n IH].
  - rewrite Z.add_0_r. apply month_first_step.
  - pose proof (month_first_step (k + 1 + Z.of_nat n)).
    replace (k + 1 + Z.of_nat (S n)) with (k + 1 + Z.of_nat n + 1) by lia. lia.
Qed.

(** A day lies in one month only. *)
Lemma month_first_unique (k l z : Z) :
  month_first k <= z < month_first (k + 1) -> month_first l <= z < month_first (l + 1) -> k = l.
Proof.
  intros Hk Hl. destruct (Z.lt_trichotomy k l) as [H|[H|H]]; [|done|].
  - destruct (Z.eq_dec (k + 1) l) as [<-|]; [lia|]. pose proof (month_first_lt (k + 1) l ltac:(lia)). lia.
  - destruct (Z.eq_dec (l + 1) k) as [<-|]; [lia|]. pose proof (month_first_lt (l + 1) k ltac:(lia)). lia.
Qed.

Definition month_of (z : Z) : Z := 12 * Year (date_of_days z) + Month (date_of_days z) - 1.

Lemma month_of_spec (z : Z) : month_first (month_of z) <= z < month_first (month_of z + 1).
Proof.
  unfold month_of. destruct (date_of_days_spec z) as [_ H]. rewrite !month_first_ordinal in H.
  replace (12 * Year (date_of_days z) + Month (date_of_days z) - 1 + 1)
    with (12 * Year (date_of_days z) + (Month (date_of_days z) + 1) - 1) by lia. done.
Qed.

Lemma month_of_same (z z' : Z) :
  month_first (month_of z) <= z' < month_first (month_of z + 1) -> month_of z' = month_of z.
Proof. intros H. eapply month_first_unique; [apply month_of_spec | exact H]. Qed.
