(* ===== verification/Counters.v ===== *)
(** Counter arithmetic ([internal/features/usage/admission.go], [query.go]):
    overflow-checked sums, token-bucket refill and the retry hint, all on
    [int64] counters with 128-bit intermediate products. *)
From S2P Require Import Prelude GoStd Money.

(** [checkedAdd(values...)]: [None] is the code's [(0, false)]. *)
Fixpoint checkedAdd_from (total : Z) (values : list Z) : option Z :=
  match values with
  | [] => Some total
  | value :: values =>
      if (0 <? value) && (wrap64 (max_int64 - value) <? total) then None
      else if (value <? 0) && (total <? wrap64 (min_int64 - value)) then None
      else checkedAdd_from (wrap64 (total + value)) values
  end.
Definition checkedAdd (values : list Z) : option Z := checkedAdd_from 0 values.

Definition saturatingAdd (left right : Z) : Z :=
  match checkedAdd [left; right] with Some value => value | None => max_int64 end.

Definition min (a b : Z) : Z := if a <? b then a else b.
Definition max (a b : Z) : Z := if b <? a then a else b.

Definition refillAmount (elapsed refill interval remainder : Z) : result (Z * Z) :=
  if (elapsed <? 0) || (refill <? 0) || (interval <=? 0) || (remainder <? 0)
     || (interval <=? remainder)
  then Err (Msg "invalid rate calculation")
  else
    let '(hi, lo) := Mul64 (wrapu64 elapsed) (wrapu64 refill) in
    let '(lo, carry) := Add64 lo (wrapu64 remainder) 0 in
    let hi := wrapu64 (hi + carry) in
    if wrapu64 interval <=? hi then Ok (max_int64, 0)
    else
      let '(quotient, next) := Div64 hi lo (wrapu64 interval) in
      if max_int64 <? quotient then Ok (max_int64, wrap64 next)
      else Ok (wrap64 quotient, wrap64 next).

Definition retryAfter (deficit refill intervalMillis : Z) : option Z :=
  if refill <=? 0 then None
  else
    let '(hi, lo) := Mul64 (wrapu64 deficit) (wrapu64 intervalMillis) in
    if wrapu64 refill <=? hi then None
    else
      let '(millis, remainder) := Div64 hi lo (wrapu64 refill) in
      let millis := if negb (remainder =? 0) then wrapu64 (millis + 1) else millis in
      if max_int64 <? millis then None
      else
        let milliseconds := wrap64 millis in
        Some (max 1 (wrap64 (Z.quot (wrap64 (milliseconds - 1)) 1000 + 1))).

Definition remainingCapacity (limit consumed reserved : Z) : Z :=
  match checkedAdd [limit; wrap64 (- consumed); wrap64 (- reserved)] with
  | Some value => if value <? 0 then 0 else value
  | None => 0
  end.

(** * Lemmas *)

(** The partial sums the code visits. *)
Fixpoint partial_sums_fit (total : Z) (values : list Z) : Prop :=
  match values with
  | [] => True
  | value :: values => in_int64 (total + value) /\ partial_sums_fit (total + value) values
  end.

Lemma checkedAdd_from_Some (values : list Z) (total n : Z) :
  in_int64 total -> Forall in_int64 values ->
  checkedAdd_from total values = Some n <->
  partial_sums_fit total values /\ n = total + foldr Z.add 0 values.
Proof.
  revert total; induction values as [|v values IH]; intros total Ht Hv; cbn.
  - rewrite Z.add_0_r. naive_solver.
  - apply Forall_cons in Hv as [Hv Hvs].
    destruct ((0 <? v) && (wrap64 (max_int64 - v) <? total)) eqn:E1.
    { rewrite wrap64_id in E1 by (unfold_ints; lia). split; [done|]. unfold_ints. lia. }
    destruct ((v <? 0) && (total <? wrap64 (min_int64 - v))) eqn:E2.
    { rewrite wrap64_id in E2 by (unfold_ints; lia). split; [done|]. unfold_ints. lia. }
    assert (in_int64 (total + v)) as Hs.
    { destruct (Z.ltb_spec 0 v), (Z.ltb_spec v 0); cbn in E1, E2;
        rewrite ?wrap64_id in E1 by (unfold_ints; lia);
        rewrite ?wrap64_id in E2 by (unfold_ints; lia); unfold_ints; lia. }
    rewrite wrap64_id by done. rewrite IH by done.
    split; intros H; split_and!; naive_solver lia.
Qed.

Lemma checkedAdd2 (a b : Z) :
  in_int64 a -> in_int64 b ->
  checkedAdd [a; b] = if decide (in_int64 (a + b)) then Some (a + b) else None.
Proof.
  intros Ha Hb. unfold checkedAdd.
  assert (in_int64 0) as H0 by (unfold_ints; lia).
  assert (Forall in_int64 [a; b]) as Hab by (rewrite !Forall_cons; split_and!; done).
  pose proof (fun n => checkedAdd_from_Some [a; b] 0 n H0 Hab) as Hspec. cbn [foldr partial_sums_fit] in Hspec.
  rewrite Z.add_0_l, Z.add_0_r in Hspec.
  destruct (checkedAdd_from 0 [a; b]) as [n|] eqn:E.
  - destruct (proj1 (Hspec n) eq_refl) as [(_ & H & _) ->]. by rewrite Z.add_0_l, decide_True.
  - destruct (decide _) as [Hin|]; [|done]. exfalso.
    enough (None = Some (0 + (a + b))) by done. apply Hspec. done.
Qed.

(** A successful sum is exact, and its result and every partial sum fit. *)
Lemma checkedAdd_exact (values : list Z) (n : Z) :
  Forall in_int64 values -> checkedAdd values = Some n -> n = foldr Z.add 0 values /\ in_int64 n.
Proof.
  intros Hv H. assert (in_int64 0) as H0 by (unfold_ints; lia).
  apply checkedAdd_from_Some in H as [Hf ->]; [|done|done]. rewrite Z.add_0_l. split; [done|].
  replace (foldr Z.add 0 values) with (0 + foldr Z.add 0 values) by lia. clear Hv. revert Hf H0.
  generalize 0 at 1 2 3 as total. induction values as [|v values IH]; cbn; intros total Hf Ht.
  - by rewrite Z.add_0_r.
  - destruct Hf as [H1 H2]. rewrite Z.add_assoc. by apply IH.
Qed.

(** Sums of two and three non-negative counters. *)
Lemma checkedAdd_nonneg (values : list Z) (n : Z) :
  Forall (fun v => 0 <= v <= max_int64) values ->
  checkedAdd values = Some n <-> n = foldr Z.add 0 values /\ n <= max_int64.
Proof.
  intros Hv. unfold checkedAdd.
  assert (Forall in_int64 values) as Hv' by (eapply Forall_impl; [done|]; unfold_ints; cbn; lia).
  rewrite checkedAdd_from_Some; [|unfold_ints; lia|done]. rewrite Z.add_0_l.
  assert (forall t, 0 <= t -> t + foldr Z.add 0 values <= max_int64 -> partial_sums_fit t values) as Hp.
  { clear Hv' n. induction values as [|v values IH]; intros t Ht Hs; cbn in *; [done|].
    apply Forall_cons in Hv as [Hv1 Hv2].
    assert (0 <= foldr Z.add 0 values).
    { clear -Hv2. induction values; cbn; [lia|]. apply Forall_cons in Hv2 as [? ?]. specialize (IHvalues H0). lia. }
    split; [unfold_ints; lia|]. apply IH; [done|lia|lia]. }
  split.
  - intros [Hf ->]. split; [done|].
    destruct (checkedAdd_exact values (foldr Z.add 0 values) Hv') as [_ Hin]; [|unfold_ints; lia].
    unfold checkedAdd. apply checkedAdd_from_Some; [unfold_ints; lia|done|]. split; [done|lia].
  - intros [-> Hm]. split; [|done]. apply Hp; lia.
Qed.

Lemma min_spec (a b : Z) : min a b = Z.min a b.
Proof. unfold min. destruct (Z.ltb_spec a b); lia. Qed.

Lemma max_spec (a b : Z) : max a b = Z.max a b.
Proof. unfold max. destruct (Z.ltb_spec b a); lia. Qed.

(** The 128-bit sum the refill divides. *)
Lemma refill_words (e r rem hi lo lo' carry : Z) :
  0 <= e <= max_int64 -> 0 <= r <= max_int64 -> 0 <= rem <= max_int64 ->
  Mul64 e r = (hi, lo) -> Add64 lo rem 0 = (lo', carry) ->
  wrapu64 (hi + carry) * two64 + lo' = e * r + rem /\ 0 <= lo' < two64 /\
  0 <= wrapu64 (hi + carry) < max_int64.
Proof.
  intros He Hr Hrem Hm Ha. pose proof (Mul64_spec _ _ _ _ Hm) as [E1 E2].
  pose proof (Mul64_hi_nonneg _ _ _ _ (proj1 He) (proj1 Hr) Hm) as Hhi.
  unfold Add64 in Ha. rewrite Z.add_0_r in Ha. injection Ha as <- <-.
  pose proof (Z.div_mod (lo + rem) two64 ltac:(done)). pose proof (Z.mod_pos_bound (lo + rem) two64 ltac:(done)).
  assert (0 <= (lo + rem) / two64 <= 1).
  { split; [apply Z.div_pos; unfold_ints; lia|]. apply Z.lt_succ_r, Z.div_lt_upper_bound; unfold_ints; lia. }
  assert (hi < 4611686018427387904) by (unfold_ints; nia).
  rewrite wrapu64_id by (unfold_ints; lia). unfold_ints; lia.
Qed.

(** The exact refill: quotient and remainder of the accumulated units. *)
Lemma refillAmount_exact (e r i rem : Z) :
  0 <= e <= max_int64 -> 0 <= r <= max_int64 -> 0 < i <= max_int64 -> 0 <= rem < i ->
  refillAmount e r i rem =
    let total := e * r + rem in
    if i * two64 <=? total then Ok (max_int64, 0)
    else if max_int64 <? total / i then Ok (max_int64, total mod i)
    else Ok (total / i, total mod i).
Proof.
  intros He Hr Hi Hrem. unfold refillAmount.
  assert ((e <? 0) || (r <? 0) || (i <=? 0) || (rem <? 0) || (i <=? rem) = false) as -> by lia.
  rewrite !wrapu64_id by (unfold_ints; lia).
  destruct (Mul64 e r) as [hi lo] eqn:Em. destruct (Add64 lo rem 0) as [lo' carry] eqn:Ea.
  destruct (refill_words e r rem hi lo lo' carry He Hr ltac:(lia) Em Ea) as (E & Hlo & Hhi).
  set (hi' := wrapu64 (hi + carry)) in *. cbv zeta. rewrite <- E.
  assert ((i * two64 <=? hi' * two64 + lo') = (i <=? hi')) as -> by (unfold two64 in *; lia).
  destruct (Z.leb_spec i hi'); [done|].
  destruct (Div64 hi' lo' i) as [q n] eqn:Ed. unfold Div64 in Ed. injection Ed as <- <-.
  pose proof (Z.mod_pos_bound (hi' * two64 + lo') i ltac:(lia)).
  rewrite (wrap64_id ((hi' * two64 + lo') mod i)) by (unfold_ints; lia).
  destruct (Z.ltb_spec max_int64 ((hi' * two64 + lo') / i)); [done|].
  rewrite wrap64_id; [done|]. assert (0 <= (hi' * two64 + lo') / i) by (apply Z.div_pos; unfold two64 in *; lia).
  unfold_ints; lia.
Qed.

Lemma refillAmount_range (e r i rem q n : Z) :
  e <= max_int64 -> r <= max_int64 -> i <= max_int64 ->
  refillAmount e r i rem = Ok (q, n) -> 0 <= q <= max_int64 /\ 0 <= n < i.
Proof.
  intros He Hr Hi H. pose proof H as H'. unfold refillAmount in H'.
  destruct ((e <? 0) || (r <? 0) || (i <=? 0) || (rem <? 0) || (i <=? rem)) eqn:G; [done|]. clear H'.
  rewrite refillAmount_exact in H by lia. cbv zeta in H.
  pose proof (Z.mod_pos_bound (e * r + rem) i ltac:(lia)).
  assert (0 <= (e * r + rem) / i) by (apply Z.div_pos; nia).
  repeat case_match; simplify_eq; unfold_ints; lia.
Qed.

(** Polling a token bucket early or often loses nothing: refilling over
    [e1] and then over [e2] with the carried remainder grants exactly what one
    refill over [e1 + e2] grants, and leaves the same remainder. *)
Theorem refillAmount_additive (e1 e2 r i rem q1 n1 q2 n2 : Z) :
  0 <= e1 -> 0 <= e2 -> e1 + e2 <= max_int64 -> 0 <= r <= max_int64 -> 0 < i <= max_int64 ->
  (e1 + e2) * r + rem < i * max_int64 ->
  refillAmount e1 r i rem = Ok (q1, n1) -> refillAmount e2 r i n1 = Ok (q2, n2) ->
  refillAmount (e1 + e2) r i rem = Ok (q1 + q2, n2).
Proof.
  intros He1 He2 Hs Hr Hi Hb H1 H2.
  assert (0 <= rem < i) as Hrem.
  { unfold refillAmount in H1. destruct (_ || _) eqn:G in H1; [done|]. lia. }
  destruct (refillAmount_range e1 r i rem q1 n1) as [_ Hn1]; [lia..|done|].
  rewrite refillAmount_exact in H1 by lia. rewrite refillAmount_exact in H2 by lia.
  rewrite refillAmount_exact by lia. cbv zeta in *.
  assert (forall t, 0 <= t < i * max_int64 -> (i * two64 <=? t) = false /\ (max_int64 <? t / i) = false) as Hbig.
  { intros t Ht. split; [unfold_ints; nia|]. apply Z.ltb_ge, Z.lt_le_incl, Z.div_lt_upper_bound; lia. }
  destruct (Hbig (e1 * r + rem)) as [B1 B2]; [nia|]. rewrite B1, B2 in H1. injection H1 as <- <-.
  pose proof (Z.div_mod (e1 * r + rem) i ltac:(lia)) as D1.
  pose proof (Z.mod_pos_bound (e1 * r + rem) i ltac:(lia)) as M1.
  assert (0 <= (e1 * r + rem) / i) by (apply Z.div_pos; nia).
  destruct (Hbig (e2 * r + (e1 * r + rem) mod i)) as [B3 B4]; [nia|].
  rewrite B3, B4 in H2. injection H2 as <- <-.
  destruct (Hbig ((e1 + e2) * r + rem)) as [B5 B6]; [nia|]. rewrite B5, B6.
  replace ((e1 + e2) * r + rem) with (e2 * r + (e1 * r + rem) mod i + (e1 * r + rem) / i * i) by lia.
  rewrite Z.div_add, Z.mod_add by lia. f_equal. f_equal. lia.
Qed.

Lemma refillAmount_additive_witness :
  refillAmount 1500 10 1000 0 = Ok (15, 0) /\ refillAmount 250 10 1000 0 = Ok (2, 500) /\
  refillAmount (250 + 1250) 10 1000 0 = Ok (2 + 13, 0).
Proof.
  split; [reflexivity|]. split; [reflexivity|].
  apply (refillAmount_additive 250 1250 10 1000 0 2 500 13 0);
    solve [unfold max_int64; lia | reflexivity].
Defined.

(** the [Retry-After] hint is right to the second: after [s] seconds the
    bucket has refilled at least the missing units, and a smaller hint of at
    least one second would have been too early. *)
Theorem retryAfter_tight (d r i s : Z) :
  0 < d <= max_int64 -> 0 < r <= max_int64 -> 0 < i <= max_int64 ->
  d * i <= (two64 - 1) * r ->
  retryAfter d r i = Some s ->
  1 <= s /\ d * i <= 1000 * s * r /\ (1 < s -> 1000 * (s - 1) * r < d * i).
Proof.
  intros Hd Hr Hi Hb H. unfold retryAfter in H.
  destruct (Z.leb_spec r 0); [lia|]. rewrite !wrapu64_id in H by (unfold_ints; lia).
  destruct (Mul64 d i) as [hi lo] eqn:Em. pose proof (Mul64_spec _ _ _ _ Em) as [E1 E2].
  destruct (Z.leb_spec r hi); [done|].
  destruct (Div64 hi lo r) as [q rem] eqn:Ed. unfold Div64 in Ed. rewrite <- E1 in Ed.
  injection Ed as <- <-.
  pose proof (Z.div_mod (d * i) r ltac:(lia)) as D. pose proof (Z.mod_pos_bound (d * i) r ltac:(lia)) as M.
  assert (0 <= d * i / r) by (apply Z.div_pos; nia).
  assert (d * i / r < two64) by (apply Z.div_lt_upper_bound; unfold two64 in *; nia).
  set (ms := if negb (d * i mod r =? 0) then wrapu64 (d * i / r + 1) else d * i / r) in H.
  assert (d * i <= ms * r < d * i + r) as Hms.
  { subst ms. destruct (Z.eqb_spec (d * i mod r) 0); cbn [negb]; [nia|].
    assert (d * i / r + 1 < two64) by (unfold two64 in *; nia). rewrite wrapu64_id by (split; lia). nia. }
  destruct (Z.ltb_spec max_int64 ms); [done|]. injection H as <-.
  assert (1 <= ms) by nia. rewrite (wrap64_id ms), (wrap64_id (ms - 1)) by (unfold_ints; lia).
  rewrite Z.quot_div_nonneg by lia. pose proof (Z.div_mod (ms - 1) 1000 ltac:(lia)).
  pose proof (Z.mod_pos_bound (ms - 1) 1000 ltac:(lia)).
  assert (0 <= (ms - 1) / 1000) by (apply Z.div_pos; lia).
  rewrite wrap64_id, max_spec by (unfold_ints; lia). split_and!; [lia|nia|]. intros. nia.
Qed.

Lemma retryAfter_tight_witness :
  retryAfter 7 2 1000 = Some 4 /\ 7 * 1000 <= 1000 * 4 * 2.
Proof.
  split; [reflexivity|].
  apply (retryAfter_tight 7 2 1000 4); solve [unfold max_int64, two64; lia | reflexivity].
Defined.
