(* ===== verification/Policy.v ===== *)
(** Limit policies ([internal/features/usage/policy.go] and [periodBounds] of
    [admission.go]): the policy vocabulary, input validation against the
    schema's CHECK constraints, and the accounting periods of a policy. *)
From S2P Require Import Prelude GoStd Money Counters Calendar.

Infix "=s" := String.eqb (at level 70, no associativity) : gateway_scope.
Open Scope gateway_scope.

Inductive ScopeKind := ScopeInstance | ScopeUser | ScopeKey | ScopeConnection.
Inductive Metric :=
| MRequests | MTokens | MSpend | MConcurrency | MBodyBytes | MOutputTokens | MBatchItems.
Inductive Algorithm := TokenBucket | FixedWindow | Quota | Concurrency | Ceiling.
Inductive Period := PNone | PHour | PDay | PWeek | PMonth | PLifetime.

#[export] Instance ScopeKind_eq_dec : EqDecision ScopeKind.
Proof. solve_decision. Defined.
#[export] Instance Metric_eq_dec : EqDecision Metric.
Proof. solve_decision. Defined.
#[export] Instance Algorithm_eq_dec : EqDecision Algorithm.
Proof. solve_decision. Defined.
#[export] Instance Period_eq_dec : EqDecision Period.
Proof. solve_decision. Defined.

(** The column texts and their values. *)
Definition scope_kind_of (s : string) : option ScopeKind :=
  if s =s "instance" then Some ScopeInstance else if s =s "user" then Some ScopeUser
  else if s =s "key" then Some ScopeKey else if s =s "connection" then Some ScopeConnection else None.
Definition metric_of (s : string) : option Metric :=
  if s =s "requests" then Some MRequests else if s =s "tokens" then Some MTokens
  else if s =s "spend" then Some MSpend else if s =s "concurrency" then Some MConcurrency
  else if s =s "body_bytes" then Some MBodyBytes else if s =s "output_tokens" then Some MOutputTokens
  else if s =s "batch_items" then Some MBatchItems else None.
Definition algorithm_of (s : string) : option Algorithm :=
  if s =s "token_bucket" then Some TokenBucket else if s =s "fixed_window" then Some FixedWindow
  else if s =s "quota" then Some Quota else if s =s "concurrency" then Some Concurrency
  else if s =s "ceiling" then Some Ceiling else None.
Definition period_of (s : string) : option Period :=
  if s =s "" then Some PNone else if s =s "hour" then Some PHour else if s =s "day" then Some PDay
  else if s =s "week" then Some PWeek else if s =s "month" then Some PMonth
  else if s =s "lifetime" then Some PLifetime else None.

Definition metric_text (m : Metric) : string :=
  match m with
  | MRequests => "requests" | MTokens => "tokens" | MSpend => "spend" | MConcurrency => "concurrency"
  | MBodyBytes => "body_bytes" | MOutputTokens => "output_tokens" | MBatchItems => "batch_items"
  end.

Definition maxSafeInteger : Z := 9007199254740991.

Record PolicyInput := mkPolicyInput {
  pi_ScopeKind : string; pi_ScopeID : string; pi_Metric : string; pi_Algorithm : string;
  pi_Period : string; pi_WindowSeconds : Z; pi_LimitUnits : Z; pi_LimitUSD : string;
  pi_RefillUnits : Z; pi_RefillIntervalMS : Z; pi_Enabled : option bool }.

(** A row of [limit_policies], and its projection used at run time. *)
Record PolicyRow := mkPolicyRow {
  p_ScopeKind : ScopeKind; p_ScopeID : string; p_Metric : Metric; p_Algorithm : Algorithm;
  p_Period : Period; p_WindowSeconds : Z; p_LimitUnits : Z; p_RefillUnits : Z;
  p_RefillIntervalMS : Z; p_Enabled : bool; p_Revision : Z; p_CreatedAt : Z; p_UpdatedAt : Z }.

Record runtimePolicy := mkRuntimePolicy {
  rp_ID : string; rp_ScopeKind : ScopeKind; rp_Metric : Metric; rp_Algorithm : Algorithm;
  rp_Period : Period; rp_WindowSeconds : Z; rp_Limit : Z; rp_Refill : Z; rp_RefillInterval : Z }.

Definition contains (values : list string) (value : string) : bool :=
  existsb (fun item => item =s value) values.

(** ** Input validation *)

(** The trimmed input, with the scope id of an instance policy cleared. *)
Definition trimmed (input : PolicyInput) : PolicyInput :=
  mkPolicyInput (TrimSpace (pi_ScopeKind input)) (TrimSpace (pi_ScopeID input))
    (TrimSpace (pi_Metric input)) (TrimSpace (pi_Algorithm input)) (TrimSpace (pi_Period input))
    (pi_WindowSeconds input) (pi_LimitUnits input) (pi_LimitUSD input) (pi_RefillUnits input)
    (pi_RefillIntervalMS input) (pi_Enabled input).

Definition with_scope_id (input : PolicyInput) (id : string) : PolicyInput :=
  mkPolicyInput (pi_ScopeKind input) id (pi_Metric input) (pi_Algorithm input) (pi_Period input)
    (pi_WindowSeconds input) (pi_LimitUnits input) (pi_LimitUSD input) (pi_RefillUnits input)
    (pi_RefillIntervalMS input) (pi_Enabled input).

Definition with_limit (input : PolicyInput) (limit : Z) : PolicyInput :=
  mkPolicyInput (pi_ScopeKind input) (pi_ScopeID input) (pi_Metric input) (pi_Algorithm input)
    (pi_Period input) (pi_WindowSeconds input) limit (pi_LimitUSD input) (pi_RefillUnits input)
    (pi_RefillIntervalMS input) (pi_Enabled input).

(** The [switch input.Algorithm] of [validatePolicyInput]. *)
Definition validAlgorithm (i : PolicyInput) : result unit :=
  let no_refill := (pi_RefillUnits i =? 0) && (pi_RefillIntervalMS i =? 0) in
  let no_period := pi_Period i =s "" in
  let no_window := pi_WindowSeconds i =? 0 in
  let counted := (pi_Metric i =s "requests") || (pi_Metric i =s "tokens") in
  if pi_Algorithm i =s "token_bucket" then
    ensure (no_period && no_window && (0 <? pi_RefillUnits i) && (0 <? pi_RefillIntervalMS i) && counted)
      (Msg "invalid token-bucket policy")
  else if pi_Algorithm i =s "fixed_window" then
    ensure (no_period && (0 <? pi_WindowSeconds i)
            && negb (Z.quot max_int64 1000 <? pi_WindowSeconds i) && no_refill && counted)
      (Msg "invalid fixed-window policy")
  else if pi_Algorithm i =s "quota" then
    ensure (contains ["hour"; "day"; "week"; "month"; "lifetime"]%string (pi_Period i) && no_window
            && no_refill && contains ["requests"; "tokens"; "spend"]%string (pi_Metric i))
      (Msg "invalid quota policy")
  else if pi_Algorithm i =s "concurrency" then
    ensure ((pi_Metric i =s "concurrency") && no_period && no_window && no_refill)
      (Msg "invalid concurrency policy")
  else if pi_Algorithm i =s "ceiling" then
    ensure (contains ["body_bytes"; "output_tokens"; "batch_items"]%string (pi_Metric i)
            && no_period && no_window && no_refill)
      (Msg "invalid ceiling policy")
  else Err (Msg "unsupported policy algorithm").

Definition validatePolicyInput (input : PolicyInput) : result PolicyInput :=
  let input := trimmed input in
  _ ← ensure (negb ((maxSafeInteger <? pi_WindowSeconds input) || (maxSafeInteger <? pi_RefillUnits input)
                    || (maxSafeInteger <? pi_RefillIntervalMS input)))
        (Msg "policy values must not exceed 9007199254740991");
  input ← (if pi_ScopeKind input =s "instance" then Ok (with_scope_id input "")
           else if pi_ScopeID input =s "" then Err (Msg "scope_id is required") else Ok input);
  input ← (if pi_Metric input =s "spend" then
             limit ← ParseUSD (pi_LimitUSD input); Ok (with_limit input limit)
           else Ok input);
  _ ← ensure (negb ((pi_LimitUnits input <=? 0) || (maxSafeInteger <? pi_LimitUnits input)))
        (Msg "limit must be between 1 and 9007199254740991");
  let validScope := (pi_ScopeKind input =s "instance") || (pi_ScopeKind input =s "user")
                    || (pi_ScopeKind input =s "key") || (pi_ScopeKind input =s "connection") in
  let validMetric := contains ["requests"; "tokens"; "spend"; "concurrency"; "body_bytes";
                               "output_tokens"; "batch_items"]%string (pi_Metric input) in
  _ ← ensure (validScope && validMetric) (Msg "unsupported policy scope or metric");
  _ ← validAlgorithm input;
  Ok input.

(** The row [CreatePolicy] inserts; the schema refuses other texts. *)
Definition row_of_input (i : PolicyInput) (now : Z) : option PolicyRow :=
  k ← scope_kind_of (pi_ScopeKind i); m ← metric_of (pi_Metric i);
  a ← algorithm_of (pi_Algorithm i); p ← period_of (pi_Period i);
  Some (mkPolicyRow k (pi_ScopeID i) m a p (pi_WindowSeconds i) (pi_LimitUnits i)
          (pi_RefillUnits i) (pi_RefillIntervalMS i) (default true (pi_Enabled i)) 1 now now).

(** The CHECK constraints of [limit_policies] (0004_limits_usage_pricing.sql). *)
Definition schema_ok (p : PolicyRow) : Prop :=
  0 <= p_WindowSeconds p /\ 0 < p_LimitUnits p /\ 0 <= p_RefillUnits p /\ 0 <= p_RefillIntervalMS p /\
  (p_ScopeKind p = ScopeInstance <-> p_ScopeID p = "") /\
  match p_Algorithm p with
  | TokenBucket => p_Period p = PNone /\ p_WindowSeconds p = 0 /\ 0 < p_RefillUnits p /\
      0 < p_RefillIntervalMS p /\ (p_Metric p = MRequests \/ p_Metric p = MTokens)
  | FixedWindow => p_Period p = PNone /\ 0 < p_WindowSeconds p /\ p_RefillUnits p = 0 /\
      p_RefillIntervalMS p = 0 /\ (p_Metric p = MRequests \/ p_Metric p = MTokens)
  | Quota => p_Period p <> PNone /\ p_WindowSeconds p = 0 /\ p_RefillUnits p = 0 /\
      p_RefillIntervalMS p = 0 /\ (p_Metric p = MRequests \/ p_Metric p = MTokens \/ p_Metric p = MSpend)
  | Concurrency => p_Period p = PNone /\ p_WindowSeconds p = 0 /\ p_RefillUnits p = 0 /\
      p_RefillIntervalMS p = 0 /\ p_Metric p = MConcurrency
  | Ceiling => p_Period p = PNone /\ p_WindowSeconds p = 0 /\ p_RefillUnits p = 0 /\
      p_RefillIntervalMS p = 0 /\
      (p_Metric p = MBodyBytes \/ p_Metric p = MOutputTokens \/ p_Metric p = MBatchItems)
  end.

(** ** Accounting periods *)

(** [time.Time{}.UnixMilli()]: what the code computes for an empty period. *)
Definition zero_time_millis : Z := -62135596800000.

Definition periodBounds (policy : runtimePolicy) (millis : Z) : Z * option Z :=
  if decide (rp_Algorithm policy = FixedWindow) then
    let window := wrap64 (rp_WindowSeconds policy * 1000) in
    let start := wrap64 (millis - Z.rem millis window) in
    (start, Some (wrap64 (start + window)))
  else if decide (rp_Period policy = PLifetime) then (0, None)
  else
    let t := date_of_millis millis in
    let day := Date (Year t) (Month t) (Day t) 0 in
    match rp_Period policy with
    | PHour => let start := Date (Year t) (Month t) (Day t) (Hour millis) in
               (start, Some (start + 3600000))
    | PDay => (day, Some (Date (Year t) (Month t) (Day t + 1) 0))
    | PWeek => let back := Z.rem (Weekday millis + 6) 7 in
               (Date (Year t) (Month t) (Day t - back) 0,
                Some (Date (Year t) (Month t) (Day t - back + 7) 0))
    | PMonth => (Date (Year t) (Month t) 1 0, Some (Date (Year t) (Month t + 1) 1 0))
    | _ => (zero_time_millis, Some zero_time_millis)
    end.

(** * Validation lemmas *)

Lemma contains_In (l : list string) (s : string) : contains l s = true <-> In s l.
Proof.
  unfold contains. rewrite existsb_exists. setoid_rewrite String.eqb_eq. naive_solver.
Qed.

(** Turns the boolean guards of the code into equations and inequalities. *)
Ltac guards :=
  repeat match goal with
  | H : ensure _ _ = Ok _ |- _ => apply ensure_Ok in H
  | H : _ && _ = true |- _ => apply andb_true_iff in H; destruct H
  | H : negb _ = true |- _ => apply negb_true_iff in H
  | H : negb _ = false |- _ => apply negb_false_iff in H
  | H : _ || _ = false |- _ => apply orb_false_iff in H; destruct H
  | H : (_ =s _) = true |- _ => apply String.eqb_eq in H
  | H : (_ =s _) = false |- _ => apply String.eqb_neq in H
  | H : contains _ _ = true |- _ => apply contains_In in H; cbn [In] in H
  end.

Ltac split_or H := repeat (destruct H as [H|H]; [|]); try contradiction.

Lemma row_of_input_fields (i : PolicyInput) now row :
  row_of_input i now = Some row ->
  scope_kind_of (pi_ScopeKind i) = Some (p_ScopeKind row) /\ p_ScopeID row = pi_ScopeID i /\
  metric_of (pi_Metric i) = Some (p_Metric row) /\ algorithm_of (pi_Algorithm i) = Some (p_Algorithm row) /\
  period_of (pi_Period i) = Some (p_Period row) /\ p_WindowSeconds row = pi_WindowSeconds i /\
  p_LimitUnits row = pi_LimitUnits i /\ p_RefillUnits row = pi_RefillUnits i /\
  p_RefillIntervalMS row = pi_RefillIntervalMS i.
Proof.
  unfold row_of_input. intros H.
  apply bind_Some in H as (k & Hk & H). apply bind_Some in H as (m & Hm & H).
  apply bind_Some in H as (a & Ha & H). apply bind_Some in H as (p & Hp & H).
  injection H as <-. cbn. done.
Qed.

(** What a successful [validatePolicyInput] establishes about its output. *)
Lemma validatePolicyInput_Ok (i j : PolicyInput) :
  validatePolicyInput i = Ok j ->
  pi_WindowSeconds j <= maxSafeInteger /\ pi_RefillUnits j <= maxSafeInteger /\
  pi_RefillIntervalMS j <= maxSafeInteger /\ 1 <= pi_LimitUnits j <= maxSafeInteger /\
  (pi_ScopeKind j = "instance" <-> pi_ScopeID j = "") /\
  In (pi_ScopeKind j) ["instance"; "user"; "key"; "connection"]%string /\
  In (pi_Metric j) ["requests"; "tokens"; "spend"; "concurrency"; "body_bytes"; "output_tokens"; "batch_items"]%string /\
  validAlgorithm j = Ok tt.
Proof.
  unfold validatePolicyInput. cbv zeta. set (t := trimmed i).
  intros ([] & G1 & H)%result_bind_Ok. apply result_bind_Ok in H as (j1 & Hscope & H).
  apply result_bind_Ok in H as (j2 & Hspend & H). apply result_bind_Ok in H as ([] & G2 & H).
  apply result_bind_Ok in H as ([] & G3 & H). apply result_bind_Ok in H as ([] & G4 & H).
  injection H as <-. guards.
  assert (pi_ScopeKind j2 = pi_ScopeKind j1 /\ pi_ScopeID j2 = pi_ScopeID j1 /\
          pi_WindowSeconds j2 = pi_WindowSeconds j1 /\ pi_RefillUnits j2 = pi_RefillUnits j1 /\
          pi_RefillIntervalMS j2 = pi_RefillIntervalMS j1) as (E1 & E1i & -> & -> & ->).
  { destruct (pi_Metric j1 =s "spend"); [|by simplify_eq].
    apply result_bind_Ok in Hspend as (? & _ & [= <-]). done. }
  assert (pi_ScopeKind j1 = pi_ScopeKind t /\ pi_WindowSeconds j1 = pi_WindowSeconds t /\
          pi_RefillUnits j1 = pi_RefillUnits t /\ pi_RefillIntervalMS j1 = pi_RefillIntervalMS t /\
          (pi_ScopeKind t = "instance" <-> pi_ScopeID j1 = "")) as (E2 & -> & -> & -> & Hiff).
  { destruct (String.eqb_spec (pi_ScopeKind t) "instance") as [E|E].
    - injection Hscope as <-. cbn. done.
    - destruct (String.eqb_spec (pi_ScopeID t) ""); [done|]. injection Hscope as <-. done. }
  rewrite <- E1i, <- E2, <- E1 in Hiff. split_and!; try lia; try apply Hiff; try done.
  rewrite !orb_true_iff, !String.eqb_eq in H. cbn. intuition congruence.
Qed.

(** Evaluates the vocabulary at the texts the guards fixed. *)
Ltac by_texts i :=
  guards;
  repeat match goal with
  | H : _ || _ = true |- _ => apply orb_true_iff in H
  | H : _ \/ _ |- _ => destruct H
  | H : False |- _ => destruct H
  | H : (_ =s _) = true |- _ => apply String.eqb_eq in H
  | H : _ = pi_Metric i |- _ => symmetry in H
  | H : _ = pi_Period i |- _ => symmetry in H
  end;
  repeat match goal with
  | H : pi_Metric i = _ |- _ => rewrite H; clear H
  | H : pi_Period i = _ |- _ => rewrite H; clear H
  end;
  eexists _, _, _; split_and!; try reflexivity; intros; unfold schema_ok; cbn; split_and!; try lia; try tauto; try done.

(** The combinations of algorithm, metric and period the switch lets through. *)
Lemma validAlgorithm_Ok (i : PolicyInput) :
  validAlgorithm i = Ok tt ->
  exists a m p, algorithm_of (pi_Algorithm i) = Some a /\ metric_of (pi_Metric i) = Some m /\
    period_of (pi_Period i) = Some p /\
    forall k id e now, 0 < pi_LimitUnits i -> (k = ScopeInstance <-> id = "") ->
      schema_ok (mkPolicyRow k id m a p (pi_WindowSeconds i) (pi_LimitUnits i) (pi_RefillUnits i)
                   (pi_RefillIntervalMS i) e 1 now now).
Proof.
  unfold validAlgorithm. cbv zeta.
  destruct (String.eqb_spec (pi_Algorithm i) "token_bucket") as [->|_]; [intros H; by_texts i|].
  destruct (String.eqb_spec (pi_Algorithm i) "fixed_window") as [->|_]; [intros H; by_texts i|].
  destruct (String.eqb_spec (pi_Algorithm i) "quota") as [->|_]; [intros H; by_texts i|].
  destruct (String.eqb_spec (pi_Algorithm i) "concurrency") as [->|_]; [intros H; by_texts i|].
  destruct (String.eqb_spec (pi_Algorithm i) "ceiling") as [->|_]; [intros H; by_texts i|done].
Qed.

Lemma scope_kind_of_In (s : string) :
  In s ["instance"; "user"; "key"; "connection"]%string ->
  exists k, scope_kind_of s = Some k /\ (k = ScopeInstance <-> s = "instance").
Proof. intros [<-|[<-|[<-|[<-|[]]]]]; eexists; (split; [reflexivity | split; congruence]). Qed.

(** C40: whatever [validatePolicyInput] accepts is a row the schema accepts:
    every text is in the vocabulary, the CHECK constraints hold, and all
    quantities are within the dashboard-safe integers. *)
Theorem validatePolicyInput_schema (i j : PolicyInput) (now : Z) :
  validatePolicyInput i = Ok j ->
  exists row, row_of_input j now = Some row /\ schema_ok row /\
    1 <= p_LimitUnits row <= maxSafeInteger /\ p_WindowSeconds row <= maxSafeInteger /\
    p_RefillUnits row <= maxSafeInteger /\ p_RefillIntervalMS row <= maxSafeInteger.
Proof.
  intros H%validatePolicyInput_Ok. destruct H as (Hw & Hr & Hi & Hl & Hscope & Hk & _ & Ha).
  destruct (scope_kind_of_In _ Hk) as (k & Ek & Hki).
  destruct (validAlgorithm_Ok _ Ha) as (a & m & p & Ea & Em & Ep & Hok).
  unfold row_of_input. rewrite Ek, Em, Ea, Ep. cbn.
  eexists. split; [reflexivity|]. cbn. split_and!; try lia. apply Hok; [lia|]. by rewrite Hki.
Qed.

Lemma validatePolicyInput_schema_witness :
  let i := mkPolicyInput " user " "usr_1" "spend" "quota" "month" 0 0 "12.5" 0 0 None in
  let j := mkPolicyInput "user" "usr_1" "spend" "quota" "month" 0 12500000000 "12.5" 0 0 None in
  validatePolicyInput i = Ok j /\ exists row, row_of_input j 7 = Some row /\ schema_ok row.
Proof.
  cbv zeta. split; [reflexivity|].
  destruct (validatePolicyInput_schema
    (mkPolicyInput " user " "usr_1" "spend" "quota" "month" 0 0 "12.5" 0 0 None)
    (mkPolicyInput "user" "usr_1" "spend" "quota" "month" 0 12500000000 "12.5" 0 0 None) 7)
    as (row & H1 & H2 & _); [reflexivity|]. exists row. split; [exact H1 | exact H2].
Defined.

(** * Periods partition time *)

(** The configurations [periodBounds] is called with: a validated policy
    that is not a token bucket, a concurrency limit or a ceiling. *)
Definition periodic (policy : runtimePolicy) : Prop :=
  (rp_Algorithm policy = FixedWindow /\ 0 < rp_WindowSeconds policy <= maxSafeInteger) \/
  (rp_Algorithm policy = Quota /\ rp_Period policy ∈ [PHour; PDay; PWeek; PMonth]).

(** The last millisecond of the year 9999. *)
Definition max_millis : Z := 253402300799999.

Lemma Date_shift (y m d k h : Z) : Date y m (d + k) h = Date y m d h + k * ms_per_day.
Proof. unfold Date. rewrite days_of_shift. lia. Qed.

Lemma Date_of_millis (t h : Z) :
  let d := date_of_millis t in Date (Year d) (Month d) (Day d) h = days_of_millis t * ms_per_day + h * 3600000.
Proof. unfold Date, date_of_millis. destruct (date_of_days_spec (days_of_millis t)) as [-> _]. done. Qed.

Lemma Date_month (t k : Z) :
  let d := date_of_millis t in
  Date (Year d) (Month d + k) 1 0 = month_first (month_of (days_of_millis t) + k) * ms_per_day.
Proof.
  unfold Date, date_of_millis, month_of. cbv zeta. rewrite month_first_ordinal, Z.mul_0_l, Z.add_0_r.
  do 2 f_equal. lia.
Qed.

(** The closed forms of the periods, as whole days and hours. *)
Lemma periodBounds_fixed (p : runtimePolicy) (t : Z) :
  rp_Algorithm p = FixedWindow -> 0 < rp_WindowSeconds p <= maxSafeInteger -> 0 <= t <= max_millis ->
  let w := rp_WindowSeconds p * 1000 in periodBounds p t = (t / w * w, Some (t / w * w + w)).
Proof.
  unfold periodBounds, maxSafeInteger, max_millis. intros Ha Hw Ht. rewrite decide_True by done. cbv zeta.
  rewrite (wrap64_id (rp_WindowSeconds p * 1000)) by (unfold_ints; lia).
  set (w := rp_WindowSeconds p * 1000). assert (0 < w <= 9007199254740991000) as Hb by lia. clearbody w.
  rewrite Z.rem_mod_nonneg by lia. pose proof (Z.mod_pos_bound t w ltac:(lia)).
  pose proof (Z.div_mod t w ltac:(lia)). pose proof (Z.mod_le t w ltac:(lia) ltac:(lia)).
  replace (t / w * w) with (t - t mod w) by lia.
  rewrite (wrap64_id (t - _)) by (unfold_ints; lia). rewrite wrap64_id by (unfold_ints; lia). done.
Qed.

Lemma periodBounds_quota (p : runtimePolicy) (t : Z) :
  rp_Algorithm p = Quota -> rp_Period p <> PLifetime ->
  periodBounds p t =
  let z := days_of_millis t in let m := month_of z in let w := (z + 3) / 7 * 7 - 3 in
  match rp_Period p with
  | PHour => (t / 3600000 * 3600000, Some (t / 3600000 * 3600000 + 3600000))
  | PDay => (z * ms_per_day, Some ((z + 1) * ms_per_day))
  | PWeek => (w * ms_per_day, Some ((w + 7) * ms_per_day))
  | PMonth => (month_first m * ms_per_day, Some (month_first (m + 1) * ms_per_day))
  | _ => (zero_time_millis, Some zero_time_millis)
  end.
Proof.
  unfold periodBounds. intros Ha Hp. rewrite !decide_False by congruence. cbv zeta.
  destruct (rp_Period p); try done.
  - rewrite Date_of_millis. unfold Hour, days_of_millis, ms_per_day.
    enough (t / 86400000 * 86400000 + t mod 86400000 / 3600000 * 3600000 = t / 3600000 * 3600000) by congruence.
    Z.div_mod_to_equations. lia.
  - rewrite Date_shift, !Date_of_millis. repeat f_equal; lia.
  - assert (0 <= Weekday t < 7) as Hw by (apply Z.mod_pos_bound; lia).
    assert (days_of_millis t - Z.rem (Weekday t + 6) 7 = (days_of_millis t + 3) / 7 * 7 - 3) as Hb.
    { rewrite Z.rem_mod_nonneg by lia. unfold Weekday. generalize (days_of_millis t). intros.
      Z.div_mod_to_equations. lia. }
    rewrite Date_shift. replace (Day _ - Z.rem (Weekday t + 6) 7) with (Day (date_of_millis t) + - Z.rem (Weekday t + 6) 7) by lia.
    rewrite Date_shift, Date_of_millis. rewrite <- Hb. repeat f_equal; lia.
  - pose proof (Date_month t 0) as H0. pose proof (Date_month t 1) as H1. cbv zeta in H0, H1.
    rewrite !Z.add_0_r in H0. by rewrite H0, H1.
Qed.

(** the accounting periods of a fixed-window, hourly, daily, weekly or
    monthly policy partition time: the period computed at [t] contains [t],
    and every later or earlier instant inside that period computes the same
    bounds. So two admissions share a counter row exactly when they are in
    the same period, and no instant is in two periods. *)
Theorem periodBounds_partition (p : runtimePolicy) (t : Z) :
  periodic p -> 0 <= t <= max_millis ->
  exists s e, periodBounds p t = (s, Some e) /\ s <= t < e /\
    forall t', 0 <= t' <= max_millis -> s <= t' < e -> periodBounds p t' = (s, Some e).
Proof.
  intros [[Ha Hw]|[Ha Hp]] Ht.
  - eexists _, _. split; [by apply periodBounds_fixed|]. set (w := rp_WindowSeconds p * 1000).
    assert (0 < w) by lia. pose proof (Z.div_mod t w ltac:(lia)). pose proof (Z.mod_pos_bound t w ltac:(lia)).
    split; [lia|]. intros t' Ht' Hin. rewrite periodBounds_fixed by done. fold w.
    replace (t' / w) with (t / w); [done|]. apply Z.div_unique with (t' - t / w * w); lia.
  - assert (rp_Period p <> PLifetime) as Hl by (intros E; rewrite E in Hp; by apply (bool_decide_eq_true_2 _) in Hp).
    pose proof (periodBounds_quota p t Ha Hl) as Hb. cbv zeta in Hb. 
    assert (forall t', days_of_millis t' * ms_per_day <= t' < (days_of_millis t' + 1) * ms_per_day) as Hday.
    { intros t'. unfold days_of_millis, ms_per_day. Z.div_mod_to_equations. lia. }
    pose proof (Hday t) as Hd. pose proof (month_of_spec (days_of_millis t)) as Hm.
    rewrite !elem_of_cons in Hp. destruct Hp as [E|[E|[E|[E|Hp]]]]; [..|by apply elem_of_nil in Hp]; rewrite E in Hb;
      eexists _, _; (split; [exact Hb|]); (split; [unfold ms_per_day in *; Z.div_mod_to_equations; lia|]);
      intros t' _ Hin; rewrite periodBounds_quota, E by done; cbv zeta; specialize (Hday t').
    + replace (t' / 3600000) with (t / 3600000); [done|]. Z.div_mod_to_equations. lia.
    + replace (days_of_millis t') with (days_of_millis t); [done|]. unfold ms_per_day in *. lia.
    + replace ((days_of_millis t' + 3) / 7) with ((days_of_millis t + 3) / 7); [done|].
      unfold ms_per_day in *. Z.div_mod_to_equations. lia.
    + rewrite (month_of_same (days_of_millis t) (days_of_millis t')); [done|]. unfold ms_per_day in *. lia.
Qed.

Lemma periodBounds_partition_witness :
  let p := mkRuntimePolicy "p" ScopeUser MSpend Quota PMonth 0 1 0 0 in
  exists s e, periodBounds p 1709200000000 = (s, Some e) /\ s <= 1709200000000 < e.
Proof.
  destruct (periodBounds_partition (mkRuntimePolicy "p" ScopeUser MSpend Quota PMonth 0 1 0 0) 1709200000000)
    as (s & e & H1 & H2 & _).
  - right. split; [reflexivity | set_solver].
  - unfold max_millis. lia.
  - exists s, e. exact (conj H1 H2).
Defined.
