(* ===== verification/Json.v ===== *)
(** UTF-8 decoding ([unicode/utf8]) and the part of [encoding/json] the code
    uses to write event payloads: [json.Marshal] of a [map[string]any] whose
    values are strings, integers, booleans and null. *)
From S2P Require Import Prelude GoStd.

(** * UTF-8 *)

Definition RuneError : Z := 65533.

Definition in_range (b lo hi : Z) : bool := (lo <=? b) && (b <=? hi).

Definition byte_at (n : nat) (s : string) : Z :=
  match String.get n s with Some c => byte_of c | None => -1 end.

(** [utf8.DecodeRuneInString]: the rune and its width; an invalid sequence is
    [RuneError] of width 1, the empty string [RuneError] of width 0. *)
Definition DecodeRuneInString (s : string) : Z * nat :=
  match s with
  | EmptyString => (RuneError, 0%nat)
  | String c _ =>
    let b0 := byte_of c in let b1 := byte_at 1 s in let b2 := byte_at 2 s in let b3 := byte_at 3 s in
    if b0 <? 128 then (b0, 1%nat)
    else if in_range b0 194 223 then
      if in_range b1 128 191 then (b0 mod 32 * 64 + b1 mod 64, 2%nat) else (RuneError, 1%nat)
    else if in_range b0 224 239 then
      let lo := if b0 =? 224 then 160 else 128 in let hi := if b0 =? 237 then 159 else 191 in
      if in_range b1 lo hi && in_range b2 128 191
      then (b0 mod 16 * 4096 + b1 mod 64 * 64 + b2 mod 64, 3%nat) else (RuneError, 1%nat)
    else if in_range b0 240 244 then
      let lo := if b0 =? 240 then 144 else 128 in let hi := if b0 =? 244 then 143 else 191 in
      if in_range b1 lo hi && in_range b2 128 191 && in_range b3 128 191
      then (b0 mod 8 * 262144 + b1 mod 64 * 4096 + b2 mod 64 * 64 + b3 mod 64, 4%nat)
      else (RuneError, 1%nat)
    else (RuneError, 1%nat)
  end.

(** Runes of a string: [len([]rune(s))], and SQLite's [length] of a text. *)
Fixpoint rune_count_skip (skip : nat) (s : string) : Z :=
  match s with
  | EmptyString => 0
  | String _ s' =>
    match skip with
    | S k => rune_count_skip k s'
    | O => 1 + rune_count_skip (Nat.pred (snd (DecodeRuneInString s))) s'
    end
  end.
Definition rune_count (s : string) : Z := rune_count_skip 0 s.

(** * JSON text *)

Definition chr (n : nat) : ascii := ascii_of_nat n.
Definition quote_char : ascii := chr 34.
Definition backslash : ascii := chr 92.

Definition hex_digit (n : Z) : ascii := if n <? 10 then chr (48 + Z.to_nat n) else chr (87 + Z.to_nat n).

(** The escape of one byte below 128, as [appendString] with HTML escaping. *)
Definition json_ascii (c : ascii) : string :=
  let b := byte_of c in
  let esc (x : ascii) := String backslash (String x "") in
  if b =? 34 then esc quote_char else if b =? 92 then esc backslash
  else if b =? 8 then esc "b"%char else if b =? 12 then esc "f"%char else if b =? 10 then esc "n"%char
  else if b =? 13 then esc "r"%char else if b =? 9 then esc "t"%char
  else if (b <? 32) || (b =? 60) || (b =? 62) || (b =? 38)
       then String backslash ("u00" +:+ String (hex_digit (b / 16)) (String (hex_digit (b mod 16)) ""))
  else String c "".

Fixpoint json_body (skip : nat) (s : string) : string :=
  match s with
  | EmptyString => ""
  | String c s' =>
    match skip with
    | S (S k) => String c (json_body (S k) s')
    | S O => String c (json_body 0 s')
    | O =>
      if byte_of c <? 128 then json_ascii c +:+ json_body 0 s'
      else
        let (r, w) := DecodeRuneInString s in
        match w, s' with
        | 1%nat, _ => String backslash ("ufffd" +:+ json_body 0 s')
        | 3%nat, String _ (String _ rest) =>
          if (r =? 8232) || (r =? 8233)
          then String backslash ("u202" +:+ String (hex_digit (r mod 16)) (json_body 0 rest))
          else String c (json_body 2 s')
        | _, _ => String c (json_body (Nat.pred w) s')
        end
    end
  end.

Inductive json : Type :=
| JString (s : string)
| JInt (z : Z)
| JBool (b : bool)
| JNull
| JList (l : list string).

Definition json_string (s : string) : string :=
  String quote_char (json_body 0 s +:+ String quote_char "").

Fixpoint json_items (l : list string) : string :=
  match l with
  | [] => ""
  | [s] => json_string s
  | s :: l => json_string s +:+ "," +:+ json_items l
  end.

Definition json_value (v : json) : string :=
  match v with
  | JString s => json_string s
  | JInt z => FormatInt z
  | JBool b => if b then "true" else "false"
  | JNull => "null"
  | JList l => "[" +:+ json_items l +:+ "]"
  end.

Definition JOption (v : option Z) : json := match v with Some z => JInt z | None => JNull end.

Fixpoint json_members (l : list (string * json)) : string :=
  match l with
  | [] => ""
  | [(k, v)] => json_string k +:+ ":" +:+ json_value v
  | (k, v) :: l => json_string k +:+ ":" +:+ json_value v +:+ "," +:+ json_members l
  end.

(** [json.Marshal] of a map: the members in the order of their keys. *)
Definition Marshal (members : list (string * json)) : string := "{" +:+ json_members members +:+ "}".

(** * [json.Valid]

    The byte-driven scanner of [encoding/json]: its step functions and its
    stack of parse states. *)

Inductive parse_state := ObjectKey | ObjectValue | ArrayValue.
Inductive scan_step :=
| BeginValueOrEmpty | BeginValue | BeginStringOrEmpty | BeginString | EndValue | EndTop
| InString | InStringEsc | InStringEscU (n : nat) | Neg | Int1 | Int0 | Dot | Dot0 | Exp | ExpSign | Exp0
| Literal (rest : string) | ScanError.

Record scanner := mkScanner { sn_step : scan_step; sn_stack : list parse_state; sn_endTop : bool }.

Definition scan_error : scanner := mkScanner ScanError [] false.
Definition is_space (b : Z) : bool := (b =? 32) || (b =? 9) || (b =? 13) || (b =? 10).
Definition is_hex (b : Z) : bool := in_range b 48 57 || in_range b 97 102 || in_range b 65 70.

Definition push_state (step : scan_step) (p : parse_state) (stack : list parse_state) : scanner :=
  if (Z.of_nat (length stack) + 1 <=? 10000) then mkScanner step (p :: stack) false else scan_error.
Definition pop_state (stack : list parse_state) : scanner :=
  match stack with
  | _ :: [] | [] => mkScanner EndTop [] true
  | _ :: stack => mkScanner EndValue stack false
  end.

Definition end_value (stack : list parse_state) (b : Z) : scanner :=
  match stack with
  | [] => if is_space b then mkScanner EndTop [] true else scan_error
  | p :: rest =>
    if is_space b then mkScanner EndValue stack false
    else match p with
         | ObjectKey => if b =? 58 then mkScanner BeginValue (ObjectValue :: rest) false else scan_error
         | ObjectValue => if b =? 44 then mkScanner BeginString (ObjectKey :: rest) false
                          else if b =? 125 then pop_state stack else scan_error
         | ArrayValue => if b =? 44 then mkScanner BeginValue stack false
                         else if b =? 93 then pop_state stack else scan_error
         end
  end.

Definition begin_value (stack : list parse_state) (b : Z) : scanner :=
  let go step := mkScanner step stack false in
  if is_space b then go BeginValue
  else if b =? 123 then push_state BeginStringOrEmpty ObjectKey stack
  else if b =? 91 then push_state BeginValueOrEmpty ArrayValue stack
  else if b =? 34 then go InString
  else if b =? 45 then go Neg
  else if b =? 48 then go Int0
  else if b =? 116 then go (Literal "rue") else if b =? 102 then go (Literal "alse")
  else if b =? 110 then go (Literal "ull")
  else if in_range b 49 57 then go Int1 else scan_error.

Definition begin_string (stack : list parse_state) (b : Z) : scanner :=
  if is_space b then mkScanner BeginString stack false
  else if b =? 34 then mkScanner InString stack false else scan_error.

Definition scan_byte (s : scanner) (c : ascii) : scanner :=
  let b := byte_of c in let stack := sn_stack s in
  let go step := mkScanner step stack false in
  let digit := in_range b 48 57 in
  let int0 := if b =? 46 then go Dot else if (b =? 101) || (b =? 69) then go Exp else end_value stack b in
  match sn_step s with
  | BeginValueOrEmpty => if is_space b then go BeginValueOrEmpty
                         else if b =? 93 then end_value stack b else begin_value stack b
  | BeginValue => begin_value stack b
  | BeginStringOrEmpty =>
      if is_space b then go BeginStringOrEmpty
      else if b =? 125 then end_value (match stack with _ :: r => ObjectValue :: r | [] => [] end) b
      else begin_string stack b
  | BeginString => begin_string stack b
  | EndValue => end_value stack b
  | EndTop => if is_space b then mkScanner EndTop stack true else scan_error
  | InString => if b =? 34 then go EndValue else if b =? 92 then go InStringEsc
                else if b <? 32 then scan_error else go InString
  | InStringEsc => if (b =? 98) || (b =? 102) || (b =? 110) || (b =? 114) || (b =? 116) || (b =? 92)
                      || (b =? 47) || (b =? 34) then go InString
                   else if b =? 117 then go (InStringEscU 4) else scan_error
  | InStringEscU n => if is_hex b then match n with S (S n) => go (InStringEscU (S n)) | _ => go InString end
                      else scan_error
  | Neg => if b =? 48 then go Int0 else if in_range b 49 57 then go Int1 else scan_error
  | Int1 => if digit then go Int1 else int0
  | Int0 => int0
  | Dot => if digit then go Dot0 else scan_error
  | Dot0 => if digit then go Dot0 else if (b =? 101) || (b =? 69) then go Exp else end_value stack b
  | Exp => if (b =? 43) || (b =? 45) then go ExpSign else if digit then go Exp0 else scan_error
  | ExpSign => if digit then go Exp0 else scan_error
  | Exp0 => if digit then go Exp0 else end_value stack b
  | Literal (String d rest) => if Ascii.eqb c d then (if String.eqb rest "" then go EndValue else go (Literal rest))
                               else scan_error
  | Literal EmptyString | ScanError => scan_error
  end.

Fixpoint scan_string (s : scanner) (text : string) : scanner :=
  match text with EmptyString => s | String c text => scan_string (scan_byte s c) text end.

Definition json_valid (text : string) : bool :=
  let s := scan_string (mkScanner BeginValue [] false) text in
  sn_endTop s || sn_endTop (scan_byte s " "%char).
