(* ===== verification/Store.v ===== *)
(** The system database ([internal/storage/migrations/system]): the rows of
    the tables the modelled services read and write, the database as a record
    of finite maps keyed by the tables' unique keys, and the statements
    (SELECT by key, INSERT, UPDATE, DELETE) as transaction steps. *)
From S2P Require Import Prelude GoStd Money Json Policy.

(** * Rows *)

Inductive RequestState := RqReserved | RqInProgress | RqSucceeded | RqFailed | RqCancelled | RqInterrupted.
Inductive AttemptState :=
| AtReserved | AtDispatching | AtStreaming | AtSucceeded | AtFailed
| AtCancelledBeforeDispatch | AtCancelled | AtInterrupted.
Inductive UsageStatus := UsPending | UsProviderReported | UsEstimated | UsUnknown.
Inductive ReservationState := RvActive | RvSettled | RvReleased | RvUncertain.
Inductive LeaseKind := LeaseRequest | LeaseAttempt.
Inductive EntryType := EnSettlement | EnReconciliation | EnAdjustment | EnReprice.
Inductive AssessmentKind := AsRecorded | AsRestated.
Inductive Role := Owner | Admin | Member.
Inductive UserStatus := UActive | USuspended | UArchived.
Inductive KeyState := KActive | KDisabled | KRevoked.

#[export] Instance RequestState_eq_dec : EqDecision RequestState. Proof. solve_decision. Defined.
#[export] Instance AttemptState_eq_dec : EqDecision AttemptState. Proof. solve_decision. Defined.
#[export] Instance UsageStatus_eq_dec : EqDecision UsageStatus. Proof. solve_decision. Defined.
#[export] Instance ReservationState_eq_dec : EqDecision ReservationState. Proof. solve_decision. Defined.
#[export] Instance LeaseKind_eq_dec : EqDecision LeaseKind. Proof. solve_decision. Defined.
#[export] Instance EntryType_eq_dec : EqDecision EntryType. Proof. solve_decision. Defined.
#[export] Instance AssessmentKind_eq_dec : EqDecision AssessmentKind. Proof. solve_decision. Defined.
#[export] Instance Role_eq_dec : EqDecision Role. Proof. solve_decision. Defined.
#[export] Instance UserStatus_eq_dec : EqDecision UserStatus. Proof. solve_decision. Defined.
#[export] Instance KeyState_eq_dec : EqDecision KeyState. Proof. solve_decision. Defined.

#[export] Program Instance LeaseKind_countable : Countable LeaseKind :=
  {| encode k := match k with LeaseRequest => 1%positive | LeaseAttempt => 2%positive end;
     decode p := Some (if Pos.eqb p 1 then LeaseRequest else LeaseAttempt) |}.
Next Obligation. by intros []. Qed.

#[export] Program Instance AssessmentKind_countable : Countable AssessmentKind :=
  {| encode k := match k with AsRecorded => 1%positive | AsRestated => 2%positive end;
     decode p := Some (if Pos.eqb p 1 then AsRecorded else AsRestated) |}.
Next Obligation. by intros []. Qed.

Record BucketRow := mkBucketRow {
  b_Remaining : Z; b_Remainder : Z; b_LastRefill : Z; b_LastEffective : Z }.

Record PeriodRow := mkPeriodRow {
  q_End : option Z; q_Consumed : Z; q_Reserved : Z; q_LastEffective : Z }.

Record ClockRow := mkClockRow { ck_LastEffective : Z; ck_Epoch : string }.

Record RequestRow := mkRequestRow {
  rq_Owner : string; rq_Key : string; rq_Operation : string; rq_Dialect : string; rq_Model : string;
  rq_State : RequestState; rq_Started : Z; rq_Finished : option Z; rq_Streaming : bool }.

(** The columns of an attempt fixed when it is admitted. *)
Record AttemptSnapshot := mkAttemptSnapshot {
  as_Request : string; as_Ordinal : Z; as_Connection : string; as_Model : string;
  as_UpstreamRecord : string; as_UpstreamModel : string; as_ConnectionRevision : Z;
  as_TargetDialect : string; as_TargetOperation : string; as_Translated : bool;
  as_RequestTools : Z; as_WebSearchMax : option Z; as_WebFetch : bool;
  as_SelectionReason : string; as_RejectedJSON : string;
  as_Price : option string; as_QuotedAt : option Z;
  as_EstimatedTokens : Z; as_EstimatedCost : option Z; as_Started : Z }.

(** The columns settlement writes. *)
Record AttemptUsage := mkAttemptUsage {
  au_Input : option Z; au_Output : option Z; au_CacheCreation : option Z; au_CacheRead : option Z;
  au_Cache5m : option Z; au_Cache1h : option Z; au_Recorded : option Z; au_Restated : option Z;
  au_WebSearches : option Z; au_ToolCalls : Z; au_ToolStatus : string }.
Definition no_usage : AttemptUsage :=
  mkAttemptUsage None None None None None None None None None 0 "none".

Record AttemptRow := mkAttemptRow {
  at_Snapshot : AttemptSnapshot; at_State : AttemptState; at_UsageStatus : UsageStatus;
  at_Usage : AttemptUsage; at_FirstByte : option Z; at_Finished : option Z }.

Definition at_Request (a : AttemptRow) : string := as_Request (at_Snapshot a).

Record ReservationRow := mkReservationRow {
  rv_Attempt : string; rv_Policy : string; rv_Period : option Z; rv_Units : Z;
  rv_State : ReservationState; rv_Created : Z; rv_Settled : option Z }.

Record LeaseRow := mkLeaseRow {
  le_Request : string; le_Attempt : option string; le_Epoch : string; le_Created : Z }.

(** [usage_ledger], keyed by its unique idempotency key. *)
Record LedgerRow := mkLedgerRow {
  ld_ID : string; ld_Attempt : string; ld_Type : EntryType; ld_Tokens : option Z;
  ld_Cost : option Z; ld_Actor : option string; ld_Reason : string; ld_Created : Z }.

(** [cost_assessments], keyed by (attempt, price version, calculation version, kind). *)
Record AssessmentRow := mkAssessmentRow {
  ca_ID : string; ca_Amount : Z; ca_Delta : Z; ca_Created : Z }.

(** [pricing_jobs], keyed by idempotency key. *)
Record JobRow := mkJobRow {
  jb_ID : string; jb_Actor : string; jb_Model : string; jb_Connection : string; jb_From : Z; jb_To : Z;
  jb_Affected : Z; jb_Missing : Z; jb_Delta : Z; jb_Created : Z }.

Record PriceRow := mkPriceRow {
  pr_Connection : string; pr_Model : string; pr_Input : Z; pr_Output : Z; pr_CacheRead : option Z;
  pr_WebSearch : option Z; pr_Source : string; pr_From : Z; pr_To : option Z;
  pr_Weekly : option (Z * Z); pr_CreatedBy : string; pr_Created : Z }.

(** ** Outbox events *)

(** Who an event is about, and when its attempt started. *)
Record EventSubject := mkEventSubject {
  ev_Owner : string; ev_Key : string; ev_Model : string; ev_Connection : string; ev_Started : Z }.

Inductive Payload :=
| AttemptReserved (owner key connection model : string) (ordinal : Z)
| CancelledBeforeDispatch (who : EventSubject)
| AttemptSettled (who : EventSubject) (state : AttemptState) (status : UsageStatus) (usage : AttemptUsage)
| AttemptInterrupted (who : EventSubject)
| AttemptReconciled (who : EventSubject) (input output cost unknown : Z)
| CostAdjusted (who : EventSubject) (delta unknown : Z).

Definition event_type (p : Payload) : string :=
  match p with
  | AttemptReserved _ _ _ _ _ => "attempt.reserved"
  | CancelledBeforeDispatch _ => "request.cancelled_before_dispatch"
  | AttemptSettled _ _ _ _ | AttemptInterrupted _ => "attempt.settled"
  | AttemptReconciled _ _ _ _ _ => "attempt.reconciled"
  | CostAdjusted _ _ _ => "attempt.cost_adjusted"
  end.

Definition attempt_state_text (s : AttemptState) : string :=
  match s with
  | AtReserved => "reserved" | AtDispatching => "dispatching" | AtStreaming => "streaming"
  | AtSucceeded => "succeeded" | AtFailed => "failed"
  | AtCancelledBeforeDispatch => "cancelled_before_dispatch" | AtCancelled => "cancelled"
  | AtInterrupted => "interrupted_unknown"
  end.
Definition usage_status_text (s : UsageStatus) : string :=
  match s with
  | UsPending => "pending" | UsProviderReported => "provider_reported"
  | UsEstimated => "estimated" | UsUnknown => "unknown"
  end.

Definition subject_members (w : EventSubject) : list (string * json) :=
  [("owner_user_id", JString (ev_Owner w)); ("key_id", JString (ev_Key w));
   ("model_id", JString (ev_Model w)); ("connection_id", JString (ev_Connection w));
   ("started_at", JInt (ev_Started w))]%string.

(** The members of each payload, as the code's map literals list them. *)
Definition payload_members (p : Payload) : list (string * json) :=
  match p with
  | AttemptReserved owner key connection model ordinal =>
      [("owner_user_id", JString owner); ("key_id", JString key); ("connection_id", JString connection);
       ("model_id", JString model); ("ordinal", JInt ordinal)]
  | CancelledBeforeDispatch w => subject_members w
  | AttemptSettled w st us u =>
      app (subject_members w)
      [("state", JString (attempt_state_text st)); ("usage_status", JString (usage_status_text us));
       ("input_tokens", JOption (au_Input u)); ("output_tokens", JOption (au_Output u));
       ("cache_creation_input_tokens", JOption (au_CacheCreation u));
       ("cache_read_input_tokens", JOption (au_CacheRead u));
       ("cache_creation_5m_input_tokens", JOption (au_Cache5m u));
       ("cache_creation_1h_input_tokens", JOption (au_Cache1h u));
       ("web_search_call_count", JOption (au_WebSearches u)); ("cost_nanos", JOption (au_Recorded u))]
  | AttemptInterrupted w =>
      app (subject_members w)
      [("state", JString "interrupted_unknown"); ("usage_status", JString "unknown");
       ("input_tokens", JNull); ("output_tokens", JNull); ("cost_nanos", JNull)]
  | AttemptReconciled w input output cost unknown =>
      app (subject_members w)
      [("input_tokens", JInt input); ("output_tokens", JInt output); ("cost_nanos", JInt cost);
       ("unknown_delta", JInt unknown)]
  | CostAdjusted w delta unknown =>
      app (subject_members w) [("delta_nanos", JInt delta); ("unknown_delta", JInt unknown)]
  end%string.

(** [length(payload_json)]; the order of the members does not change it. *)
Definition payload_length (p : Payload) : Z := rune_count (Marshal (payload_members p)).

Record OutboxRow := mkOutboxRow {
  ob_ID : string; ob_Request : option string; ob_Attempt : option string; ob_Payload : Payload;
  ob_Created : Z; ob_Delivered : option Z }.

(** ** Identity and catalogue rows *)

Record Grants := mkGrants {
  g_Unrestricted : bool; g_Scopes : list string; g_Models : list string; g_Connections : list string }.

Record UserRow := mkUserRow {
  u_Email : string; u_Name : string; u_Password : string; u_Role : Role; u_Status : UserStatus;
  u_Created : Z; u_Updated : Z; u_AuthRevision : Z; u_Revision : Z; u_Grants : Grants }.

Record KeyRow := mkKeyRow {
  k_Owner : string; k_Label : string; k_State : KeyState; k_Scopes : list string;
  k_Models : list string; k_Connections : list string; k_Expires : option Z;
  k_Revision : Z; k_Created : Z; k_Updated : Z }.

(** [api_key_secrets], keyed by selector. *)
Record SecretRow := mkSecretRow {
  sc_Verifier : string; sc_Key : string; sc_Created : Z; sc_Expires : option Z; sc_Revoked : option Z }.

(** [user_sessions], keyed by the unique verifier of the token. *)
Record SessionRow := mkSessionRow {
  ss_ID : string; ss_User : string; ss_Expires : Z; ss_Created : Z; ss_LastSeen : Z; ss_Authenticated : Z;
  ss_AuthRevision : Z; ss_UserAgent : string }.

(** [login_throttles], keyed by the verifier of the subject. *)
Record ThrottleRow := mkThrottleRow { th_Started : Z; th_Failures : Z; th_Blocked : Z }.

(** [activation_tokens], keyed by verifier. *)
Record CodeRow := mkCodeRow { cd_User : string; cd_Purpose : string; cd_Expires : Z; cd_Created : Z }.

Inductive Credential := NoCredential | Sealed (ciphertext nonce : string) | External (reference : string).

(** A connection with its row of [provider_credentials] and its row of
    [provider_adapter_scripts], both keyed by the connection and deleted with it. *)
Record ScriptRow := mkScriptRow { sr_Request : string; sr_Response : string; sr_Updated : Z }.
Record ConnectionRow := mkConnectionRow {
  cn_Name : string; cn_Adapter : string; cn_Preset : string; cn_BaseURL : string; cn_Enabled : bool;
  cn_AllowPrivate : bool; cn_TimeoutMS : Z; cn_Revision : Z; cn_Credential : Credential;
  cn_Scripts : option ScriptRow; cn_Created : Z; cn_Updated : Z }.

Record UpstreamModelRow := mkUpstreamModelRow {
  um_Connection : string; um_UpstreamID : string; um_Capabilities : list string; um_Active : bool }.

Record PublicModelRow := mkPublicModelRow {
  pm_Label : string; pm_Description : string; pm_TargetConnection : string; pm_TargetModel : string;
  pm_Capabilities : list string; pm_Active : bool; pm_Strategy : string; pm_FreeOnly : bool;
  pm_Revision : Z; pm_Updated : Z }.

(** [public_model_targets], keyed by (public model, upstream model). *)
Record TargetRow := mkTargetRow { tg_Priority : Z; tg_Weight : Z; tg_Enabled : bool; tg_Created : Z }.

(** [route_observations], keyed by (upstream model, operation, streaming). *)
Record ObservationRow := mkObservationRow {
  ro_Successes : Z; ro_Failures : Z; ro_Consecutive : Z; ro_FirstByte : option Z; ro_Total : option Z;
  ro_CircuitUntil : option Z; ro_Updated : Z }.

Record AuditRow := mkAuditRow {
  ad_ID : string; ad_Actor : option string; ad_Action : string; ad_Type : string; ad_Resource : string;
  ad_Detail : string; ad_Created : Z }.

(** * The database

    [t_busy_requests] stands for the requests a stored response or a batch
    item is still working on; those tables belong to components that are not
    modelled here and are only read by the repair of stale requests. *)

Record db := mkDb {
  t_policies : gmap string PolicyRow;
  t_buckets : gmap string BucketRow;
  t_periods : gmap (string * Z) PeriodRow;
  t_clock : option ClockRow;
  t_requests : gmap string RequestRow;
  t_attempts : gmap string AttemptRow;
  t_reservations : gmap string ReservationRow;
  t_leases : gmap (string * LeaseKind * string) LeaseRow;
  t_ledger : gmap string LedgerRow;
  t_assessments : gmap (string * string * Z * AssessmentKind) AssessmentRow;
  t_jobs : gmap string JobRow;
  t_prices : gmap string PriceRow;
  t_outbox : list OutboxRow;
  t_users : gmap string UserRow;
  t_keys : gmap string KeyRow;
  t_secrets : gmap string SecretRow;
  t_sessions : gmap string SessionRow;
  t_codes : gmap string CodeRow;
  t_throttles : gmap string ThrottleRow;
  t_connections : gmap string ConnectionRow;
  t_upstream_models : gmap string UpstreamModelRow;
  t_public_models : gmap string PublicModelRow;
  t_targets : gmap (string * string) TargetRow;
  t_observations : gmap (string * string * bool) ObservationRow;
  t_audit : list AuditRow;
  t_busy_requests : gset string }.

Definition set_policies (x : gmap string PolicyRow) (d : db) : db :=
  mkDb x (t_buckets d) (t_periods d) (t_clock d) (t_requests d) (t_attempts d) (t_reservations d)
    (t_leases d) (t_ledger d) (t_assessments d) (t_jobs d) (t_prices d) (t_outbox d) (t_users d)
    (t_keys d) (t_secrets d) (t_sessions d) (t_codes d) (t_throttles d) (t_connections d)
    (t_upstream_models d) (t_public_models d) (t_targets d) (t_observations d) (t_audit d)
    (t_busy_requests d).
Definition set_buckets (x : gmap string BucketRow) (d : db) : db :=
  mkDb (t_policies d) x (t_periods d) (t_clock d) (t_requests d) (t_attempts d) (t_reservations d)
    (t_leases d) (t_ledger d) (t_assessments d) (t_jobs d) (t_prices d) (t_outbox d) (t_users d)
    (t_keys d) (t_secrets d) (t_sessions d) (t_codes d) (t_throttles d) (t_connections d)
    (t_upstream_models d) (t_public_models d) (t_targets d) (t_observations d) (t_audit d)
    (t_busy_requests d).
Definition set_periods (x : gmap (string * Z) PeriodRow) (d : db) : db :=
  mkDb (t_policies d) (t_buckets d) x (t_clock d) (t_requests d) (t_attempts d) (t_reservations d)
    (t_leases d) (t_ledger d) (t_assessments d) (t_jobs d) (t_prices d) (t_outbox d) (t_users d)
    (t_keys d) (t_secrets d) (t_sessions d) (t_codes d) (t_throttles d) (t_connections d)
    (t_upstream_models d) (t_public_models d) (t_targets d) (t_observations d) (t_audit d)
    (t_busy_requests d).
Definition set_clock (x : option ClockRow) (d : db) : db :=
  mkDb (t_policies d) (t_buckets d) (t_periods d) x (t_requests d) (t_attempts d)
    (t_reservations d) (t_leases d) (t_ledger d) (t_assessments d) (t_jobs d) (t_prices d)
    (t_outbox d) (t_users d) (t_keys d) (t_secrets d) (t_sessions d) (t_codes d) (t_throttles d)
    (t_connections d) (t_upstream_models d) (t_public_models d) (t_targets d) (t_observations d)
    (t_audit d) (t_busy_requests d).
Definition set_requests (x : gmap string RequestRow) (d : db) : db :=
  mkDb (t_policies d) (t_buckets d) (t_periods d) (t_clock d) x (t_attempts d) (t_reservations d)
    (t_leases d) (t_ledger d) (t_assessments d) (t_jobs d) (t_prices d) (t_outbox d) (t_users d)
    (t_keys d) (t_secrets d) (t_sessions d) (t_codes d) (t_throttles d) (t_connections d)
    (t_upstream_models d) (t_public_models d) (t_targets d) (t_observations d) (t_audit d)
    (t_busy_requests d).
Definition set_attempts (x : gmap string AttemptRow) (d : db) : db :=
  mkDb (t_policies d) (t_buckets d) (t_periods d) (t_clock d) (t_requests d) x (t_reservations d)
    (t_leases d) (t_ledger d) (t_assessments d) (t_jobs d) (t_prices d) (t_outbox d) (t_users d)
    (t_keys d) (t_secrets d) (t_sessions d) (t_codes d) (t_throttles d) (t_connections d)
    (t_upstream_models d) (t_public_models d) (t_targets d) (t_observations d) (t_audit d)
    (t_busy_requests d).
Definition set_reservations (x : gmap string ReservationRow) (d : db) : db :=
  mkDb (t_policies d) (t_buckets d) (t_periods d) (t_clock d) (t_requests d) (t_attempts d) x
    (t_leases d) (t_ledger d) (t_assessments d) (t_jobs d) (t_prices d) (t_outbox d) (t_users d)
    (t_keys d) (t_secrets d) (t_sessions d) (t_codes d) (t_throttles d) (t_connections d)
    (t_upstream_models d) (t_public_models d) (t_targets d) (t_observations d) (t_audit d)
    (t_busy_requests d).
Definition set_leases (x : gmap (string * LeaseKind * string) LeaseRow) (d : db) : db :=
  mkDb (t_policies d) (t_buckets d) (t_periods d) (t_clock d) (t_requests d) (t_attempts d)
    (t_reservations d) x (t_ledger d) (t_assessments d) (t_jobs d) (t_prices d) (t_outbox d)
    (t_users d) (t_keys d) (t_secrets d) (t_sessions d) (t_codes d) (t_throttles d)
    (t_connections d) (t_upstream_models d) (t_public_models d) (t_targets d) (t_observations d)
    (t_audit d) (t_busy_requests d).
Definition set_ledger (x : gmap string LedgerRow) (d : db) : db :=
  mkDb (t_policies d) (t_buckets d) (t_periods d) (t_clock d) (t_requests d) (t_attempts d)
    (t_reservations d) (t_leases d) x (t_assessments d) (t_jobs d) (t_prices d) (t_outbox d)
    (t_users d) (t_keys d) (t_secrets d) (t_sessions d) (t_codes d) (t_throttles d)
    (t_connections d) (t_upstream_models d) (t_public_models d) (t_targets d) (t_observations d)
    (t_audit d) (t_busy_requests d).
Definition set_assessments (x : gmap (string * string * Z * AssessmentKind) AssessmentRow) (d : db) : db :=
  mkDb (t_policies d) (t_buckets d) (t_periods d) (t_clock d) (t_requests d) (t_attempts d)
    (t_reservations d) (t_leases d) (t_ledger d) x (t_jobs d) (t_prices d) (t_outbox d)
    (t_users d) (t_keys d) (t_secrets d) (t_sessions d) (t_codes d) (t_throttles d)
    (t_connections d) (t_upstream_models d) (t_public_models d) (t_targets d) (t_observations d)
    (t_audit d) (t_busy_requests d).
Definition set_jobs (x : gmap string JobRow) (d : db) : db :=
  mkDb (t_policies d) (t_buckets d) (t_periods d) (t_clock d) (t_requests d) (t_attempts d)
    (t_reservations d) (t_leases d) (t_ledger d) (t_assessments d) x (t_prices d) (t_outbox d)
    (t_users d) (t_keys d) (t_secrets d) (t_sessions d) (t_codes d) (t_throttles d)
    (t_connections d) (t_upstream_models d) (t_public_models d) (t_targets d) (t_observations d)
    (t_audit d) (t_busy_requests d).
Definition set_prices (x : gmap string PriceRow) (d : db) : db :=
  mkDb (t_policies d) (t_buckets d) (t_periods d) (t_clock d) (t_requests d) (t_attempts d)
    (t_reservations d) (t_leases d) (t_ledger d) (t_assessments d) (t_jobs d) x (t_outbox d)
    (t_users d) (t_keys d) (t_secrets d) (t_sessions d) (t_codes d) (t_throttles d)
    (t_connections d) (t_upstream_models d) (t_public_models d) (t_targets d) (t_observations d)
    (t_audit d) (t_busy_requests d).
Definition set_outbox (x : list OutboxRow) (d : db) : db :=
  mkDb (t_policies d) (t_buckets d) (t_periods d) (t_clock d) (t_requests d) (t_attempts d)
    (t_reservations d) (t_leases d) (t_ledger d) (t_assessments d) (t_jobs d) (t_prices d) x
    (t_users d) (t_keys d) (t_secrets d) (t_sessions d) (t_codes d) (t_throttles d)
    (t_connections d) (t_upstream_models d) (t_public_models d) (t_targets d) (t_observations d)
    (t_audit d) (t_busy_requests d).
Definition set_users (x : gmap string UserRow) (d : db) : db :=
  mkDb (t_policies d) (t_buckets d) (t_periods d) (t_clock d) (t_requests d) (t_attempts d)
    (t_reservations d) (t_leases d) (t_ledger d) (t_assessments d) (t_jobs d) (t_prices d)
    (t_outbox d) x (t_keys d) (t_secrets d) (t_sessions d) (t_codes d) (t_throttles d)
    (t_connections d) (t_upstream_models d) (t_public_models d) (t_targets d) (t_observations d)
    (t_audit d) (t_busy_requests d).
Definition set_keys (x : gmap string KeyRow) (d : db) : db :=
  mkDb (t_policies d) (t_buckets d) (t_periods d) (t_clock d) (t_requests d) (t_attempts d)
    (t_reservations d) (t_leases d) (t_ledger d) (t_assessments d) (t_jobs d) (t_prices d)
    (t_outbox d) (t_users d) x (t_secrets d) (t_sessions d) (t_codes d) (t_throttles d)
    (t_connections d) (t_upstream_models d) (t_public_models d) (t_targets d) (t_observations d)
    (t_audit d) (t_busy_requests d).
Definition set_secrets (x : gmap string SecretRow) (d : db) : db :=
  mkDb (t_policies d) (t_buckets d) (t_periods d) (t_clock d) (t_requests d) (t_attempts d)
    (t_reservations d) (t_leases d) (t_ledger d) (t_assessments d) (t_jobs d) (t_prices d)
    (t_outbox d) (t_users d) (t_keys d) x (t_sessions d) (t_codes d) (t_throttles d)
    (t_connections d) (t_upstream_models d) (t_public_models d) (t_targets d) (t_observations d)
    (t_audit d) (t_busy_requests d).
Definition set_sessions (x : gmap string SessionRow) (d : db) : db :=
  mkDb (t_policies d) (t_buckets d) (t_periods d) (t_clock d) (t_requests d) (t_attempts d)
    (t_reservations d) (t_leases d) (t_ledger d) (t_assessments d) (t_jobs d) (t_prices d)
    (t_outbox d) (t_users d) (t_keys d) (t_secrets d) x (t_codes d) (t_throttles d)
    (t_connections d) (t_upstream_models d) (t_public_models d) (t_targets d) (t_observations d)
    (t_audit d) (t_busy_requests d).
Definition set_codes (x : gmap string CodeRow) (d : db) : db :=
  mkDb (t_policies d) (t_buckets d) (t_periods d) (t_clock d) (t_requests d) (t_attempts d)
    (t_reservations d) (t_leases d) (t_ledger d) (t_assessments d) (t_jobs d) (t_prices d)
    (t_outbox d) (t_users d) (t_keys d) (t_secrets d) (t_sessions d) x (t_throttles d)
    (t_connections d) (t_upstream_models d) (t_public_models d) (t_targets d) (t_observations d)
    (t_audit d) (t_busy_requests d).
Definition set_throttles (x : gmap string ThrottleRow) (d : db) : db :=
  mkDb (t_policies d) (t_buckets d) (t_periods d) (t_clock d) (t_requests d) (t_attempts d)
    (t_reservations d) (t_leases d) (t_ledger d) (t_assessments d) (t_jobs d) (t_prices d)
    (t_outbox d) (t_users d) (t_keys d) (t_secrets d) (t_sessions d) (t_codes d) x
    (t_connections d) (t_upstream_models d) (t_public_models d) (t_targets d) (t_observations d)
    (t_audit d) (t_busy_requests d).
Definition set_connections (x : gmap string ConnectionRow) (d : db) : db :=
  mkDb (t_policies d) (t_buckets d) (t_periods d) (t_clock d) (t_requests d) (t_attempts d)
    (t_reservations d) (t_leases d) (t_ledger d) (t_assessments d) (t_jobs d) (t_prices d)
    (t_outbox d) (t_users d) (t_keys d) (t_secrets d) (t_sessions d) (t_codes d) (t_throttles d) x
    (t_upstream_models d) (t_public_models d) (t_targets d) (t_observations d) (t_audit d)
    (t_busy_requests d).
Definition set_upstream_models (x : gmap string UpstreamModelRow) (d : db) : db :=
  mkDb (t_policies d) (t_buckets d) (t_periods d) (t_clock d) (t_requests d) (t_attempts d)
    (t_reservations d) (t_leases d) (t_ledger d) (t_assessments d) (t_jobs d) (t_prices d)
    (t_outbox d) (t_users d) (t_keys d) (t_secrets d) (t_sessions d) (t_codes d) (t_throttles d)
    (t_connections d) x (t_public_models d) (t_targets d) (t_observations d) (t_audit d)
    (t_busy_requests d).
Definition set_public_models (x : gmap string PublicModelRow) (d : db) : db :=
  mkDb (t_policies d) (t_buckets d) (t_periods d) (t_clock d) (t_requests d) (t_attempts d)
    (t_reservations d) (t_leases d) (t_ledger d) (t_assessments d) (t_jobs d) (t_prices d)
    (t_outbox d) (t_users d) (t_keys d) (t_secrets d) (t_sessions d) (t_codes d) (t_throttles d)
    (t_connections d) (t_upstream_models d) x (t_targets d) (t_observations d) (t_audit d)
    (t_busy_requests d).
Definition set_targets (x : gmap (string * string) TargetRow) (d : db) : db :=
  mkDb (t_policies d) (t_buckets d) (t_periods d) (t_clock d) (t_requests d) (t_attempts d)
    (t_reservations d) (t_leases d) (t_ledger d) (t_assessments d) (t_jobs d) (t_prices d)
    (t_outbox d) (t_users d) (t_keys d) (t_secrets d) (t_sessions d) (t_codes d) (t_throttles d)
    (t_connections d) (t_upstream_models d) (t_public_models d) x (t_observations d) (t_audit d)
    (t_busy_requests d).
Definition set_observations (x : gmap (string * string * bool) ObservationRow) (d : db) : db :=
  mkDb (t_policies d) (t_buckets d) (t_periods d) (t_clock d) (t_requests d) (t_attempts d)
    (t_reservations d) (t_leases d) (t_ledger d) (t_assessments d) (t_jobs d) (t_prices d)
    (t_outbox d) (t_users d) (t_keys d) (t_secrets d) (t_sessions d) (t_codes d) (t_throttles d)
    (t_connections d) (t_upstream_models d) (t_public_models d) (t_targets d) x (t_audit d)
    (t_busy_requests d).
Definition set_audit (x : list AuditRow) (d : db) : db :=
  mkDb (t_policies d) (t_buckets d) (t_periods d) (t_clock d) (t_requests d) (t_attempts d)
    (t_reservations d) (t_leases d) (t_ledger d) (t_assessments d) (t_jobs d) (t_prices d)
    (t_outbox d) (t_users d) (t_keys d) (t_secrets d) (t_sessions d) (t_codes d) (t_throttles d)
    (t_connections d) (t_upstream_models d) (t_public_models d) (t_targets d) (t_observations d) x
    (t_busy_requests d).
Definition set_busy_requests (x : gset string) (d : db) : db :=
  mkDb (t_policies d) (t_buckets d) (t_periods d) (t_clock d) (t_requests d) (t_attempts d)
    (t_reservations d) (t_leases d) (t_ledger d) (t_assessments d) (t_jobs d) (t_prices d)
    (t_outbox d) (t_users d) (t_keys d) (t_secrets d) (t_sessions d) (t_codes d) (t_throttles d)
    (t_connections d) (t_upstream_models d) (t_public_models d) (t_targets d) (t_observations d)
    (t_audit d) x.

(** * Statements *)

Definition constraint_failed : error := Msg "constraint failed".

(** [INSERT]: fails when the unique key is taken. *)
Definition insert_row {K V} `{Countable K} (get : db -> gmap K V) (put : gmap K V -> db -> db)
    (k : K) (v : V) : tx db unit :=
  fun s => match get s !! k with
           | Some _ => Err constraint_failed
           | None => Ok (tt, put (<[k := v]> (get s)) s)
           end.

(** [UPDATE ... WHERE key = k AND cond]: the result is [RowsAffected]. *)
Definition update_row {K V} `{Countable K} (get : db -> gmap K V) (put : gmap K V -> db -> db)
    (k : K) (cond : V -> bool) (f : V -> V) : tx db Z :=
  fun s => match get s !! k with
           | Some v => if cond v then Ok (1, put (<[k := f v]> (get s)) s) else Ok (0, s)
           | None => Ok (0, s)
           end.

(** [UPDATE ... WHERE cond] over a whole table. *)
Definition update_rows {K V} `{Countable K} (get : db -> gmap K V) (put : gmap K V -> db -> db)
    (cond : K -> V -> bool) (f : V -> V) : tx db unit :=
  modify (fun s => put (map_imap (fun k v => Some (if cond k v then f v else v)) (get s)) s).

(** [DELETE ... WHERE cond]. *)
Definition delete_rows {K V} `{Countable K} (get : db -> gmap K V) (put : gmap K V -> db -> db)
    (cond : K -> V -> bool) : tx db unit :=
  modify (fun s => put (filter (fun kv => cond (kv.1) (kv.2) = false) (get s)) s).

(** The rows of an unordered SELECT. *)
Definition select_rows {K V} `{Countable K} (cond : K -> V -> bool)
    (m : gmap K V) : list (K * V) :=
  map_to_list (filter (fun kv => cond (kv.1) (kv.2) = true) m).

(** What a service call draws from its surroundings: the process epoch, the
    successive readings of the wall clock and the successive random tokens. *)
Record env := mkEnv { epoch : string; now : nat -> Z; token : nat -> string }.

(** [appendOutbox]: the row id is unique and the payload at most 16384 long. *)
Definition nullableString (value : string) : option string := if value =s "" then None else Some value.

Definition appendOutbox (tok : string) (requestID attemptID : string) (payload : Payload) (at_ : Z) : tx db unit :=
  s ← reads t_outbox;
  let id := "evt_" +:+ tok in
  _ ← require (forallb (fun r => negb (ob_ID r =s id)) s && (payload_length payload <=? 16384)) constraint_failed;
  modify (fun d => set_outbox (s ++ [mkOutboxRow id (nullableString requestID) (nullableString attemptID)
                                       payload at_ None]) d).

Definition insertAuditRow (tok : string) (actorID : option string) (action resourceType resourceID : string)
    (detail : list (string * json)) (at_ : Z) : tx db unit :=
  s ← reads t_audit;
  let id := "aud_" +:+ tok in
  _ ← require (forallb (fun r => negb (ad_ID r =s id)) s) constraint_failed;
  modify (fun d => set_audit (s ++ [mkAuditRow id actorID action resourceType resourceID (Marshal detail) at_]) d).
Definition insertAudit (tok : string) (actorID action resourceType resourceID : string)
    (detail : list (string * json)) (at_ : Z) : tx db unit :=
  insertAuditRow tok (Some actorID) action resourceType resourceID detail at_.

(** * Actors *)

Record User := mkUser { us_ID : string; us_Email : string; us_Name : string; us_Role : Role; us_Status : UserStatus }.

(** [refreshUsageActor]: the actor's row, while it is active. *)
Definition refreshUsageActor (s : db) (actor : User) : result User :=
  match t_users s !! us_ID actor with
  | Some u => if decide (u_Status u = UActive)
              then Ok (mkUser (us_ID actor) (u_Email u) (u_Name u) (u_Role u) (u_Status u))
              else Err ErrDenied
  | None => Err ErrDenied
  end.

Definition is_manager (r : Role) : bool := bool_decide (r = Owner) || bool_decide (r = Admin).

(** * Lemmas on statements *)

Lemma insert_row_Ok {K V} `{Countable K} (get : db -> gmap K V) put k v s u s' :
  insert_row get put k v s = Ok (u, s') <-> get s !! k = None /\ s' = put (<[k := v]> (get s)) s.
Proof. unfold insert_row. destruct (get s !! k), u; naive_solver. Qed.

Lemma update_row_Ok {K V} `{Countable K} (get : db -> gmap K V) put k cond f s n s' :
  update_row get put k cond f s = Ok (n, s') ->
  (exists v, get s !! k = Some v /\ cond v = true /\ n = 1 /\ s' = put (<[k := f v]> (get s)) s) \/
  (n = 0 /\ s' = s /\ forall v, get s !! k = Some v -> cond v = false).
Proof.
  unfold update_row. destruct (get s !! k) as [v|] eqn:Hk.
  - destruct (cond v) eqn:Hc; intros [= <- <-]; [left; eauto | right; naive_solver].
  - intros [= <- <-]. right. naive_solver.
Qed.

Lemma update_row_always {K V} `{Countable K} (get : db -> gmap K V) put k f s n s' v :
  get s !! k = Some v -> update_row get put k (fun _ => true) f s = Ok (n, s') -> s' = put (<[k := f v]> (get s)) s.
Proof. unfold update_row. intros ->. by intros [= <- <-]. Qed.

Lemma insertAuditRow_Ok tok a b c d l t s u s' :
  insertAuditRow tok a b c d l t s = Ok (u, s') -> exists x, s' = set_audit x s.
Proof. unfold insertAuditRow. intros H. tx_inv. eauto. Qed.

Lemma insertAudit_Ok tok a b c d l t s u s' :
  insertAudit tok a b c d l t s = Ok (u, s') -> exists x, s' = set_audit x s.
Proof. apply insertAuditRow_Ok. Qed.

Lemma refreshUsageActor_Ok s actor a :
  refreshUsageActor s actor = Ok a ->
  us_ID a = us_ID actor /\ exists u, t_users s !! us_ID actor = Some u /\ u_Status u = UActive /\ us_Role a = u_Role u.
Proof.
  unfold refreshUsageActor. destruct (t_users s !! us_ID actor) as [u|]; [|done].
  destruct (decide (u_Status u = UActive)); intros [= <-]. cbn. naive_solver.
Qed.

(** What [DELETE ... WHERE cond] leaves under a key. *)
Lemma lookup_delete_rows {K V} `{Countable K} (cond : K -> V -> bool) (m : gmap K V) k :
  filter (fun kv => cond (kv.1) (kv.2) = false) m !! k = match m !! k with Some v => if cond k v then None else Some v | None => None end.
Proof.
  destruct (m !! k) as [v|] eqn:E; [destruct (cond k v) eqn:Ec|].
  - apply map_lookup_filter_None. right. intros v' Hv'. rewrite E in Hv'. injection Hv' as <-. cbn. by rewrite Ec.
  - by apply map_lookup_filter_Some.
  - apply map_lookup_filter_None. by left.
Qed.

Lemma elem_of_select_rows {K V} `{Countable K} (cond : K -> V -> bool)
    (m : gmap K V) k v :
  (k, v) ∈ select_rows cond m <-> m !! k = Some v /\ cond k v = true.
Proof. unfold select_rows. by rewrite elem_of_map_to_list, map_lookup_filter_Some. Qed.

Lemma NoDup_select_rows {K V} `{Countable K} (cond : K -> V -> bool)
    (m : gmap K V) : NoDup (select_rows cond m).*1.
Proof. apply NoDup_fst_map_to_list. Qed.

(** ** Frames of the statements *)

Lemma keeps_insert_row {X K V} `{Countable K} (obs : db -> X) (get : db -> gmap K V) put k v :
  (forall m s, obs (put m s) = obs s) -> keeps obs (insert_row get put k v).
Proof. intros Hp s u s' [_ ->]%insert_row_Ok. apply Hp. Qed.

Lemma keeps_update_row {X K V} `{Countable K} (obs : db -> X) (get : db -> gmap K V) put k c f :
  (forall m s, obs (put m s) = obs s) -> keeps obs (update_row get put k c f).
Proof. intros Hp s u s' H'. apply update_row_Ok in H' as [(v & _ & _ & _ & ->)|(_ & -> & _)]; [apply Hp|done]. Qed.

Lemma keeps_update_rows {X K V} `{Countable K} (obs : db -> X) (get : db -> gmap K V) put c f :
  (forall m s, obs (put m s) = obs s) -> keeps obs (update_rows get put c f).
Proof. intros Hp. apply keeps_modify. intros s. apply Hp. Qed.

Lemma keeps_delete_rows {X K V} `{Countable K} (obs : db -> X) (get : db -> gmap K V) put c :
  (forall m s, obs (put m s) = obs s) -> keeps obs (delete_rows get put c).
Proof. intros Hp. apply keeps_modify. intros s. apply Hp. Qed.

Lemma keeps_appendOutbox {X} (obs : db -> X) tok r a p t :
  (forall m s, obs (set_outbox m s) = obs s) -> keeps obs (appendOutbox tok r a p t).
Proof. intros Hp. unfold appendOutbox. keeps_tac. apply keeps_modify. intros. apply Hp. Qed.

Lemma keeps_insertAuditRow {X} (obs : db -> X) tok a b c d l t :
  (forall m s, obs (set_audit m s) = obs s) -> keeps obs (insertAuditRow tok a b c d l t).
Proof. intros Hp. unfold insertAuditRow. keeps_tac. apply keeps_modify. intros. apply Hp. Qed.

Lemma keeps_insertAudit {X} (obs : db -> X) tok a b c d l t :
  (forall m s, obs (set_audit m s) = obs s) -> keeps obs (insertAudit tok a b c d l t).
Proof. apply keeps_insertAuditRow. Qed.

(** Statements on tables the observation does not see. *)
#[export] Hint Extern 1 (keeps _ (insert_row _ _ _ _)) => apply keeps_insert_row; intros; reflexivity : keeps.
#[export] Hint Extern 1 (keeps _ (update_row _ _ _ _ _)) => apply keeps_update_row; intros; reflexivity : keeps.
#[export] Hint Extern 1 (keeps _ (update_rows _ _ _ _)) => apply keeps_update_rows; intros; reflexivity : keeps.
#[export] Hint Extern 1 (keeps _ (delete_rows _ _ _)) => apply keeps_delete_rows; intros; reflexivity : keeps.
#[export] Hint Extern 1 (keeps _ (appendOutbox _ _ _ _ _)) => apply keeps_appendOutbox; intros; reflexivity : keeps.
#[export] Hint Extern 1 (keeps _ (insertAuditRow _ _ _ _ _ _ _)) => apply keeps_insertAuditRow; intros; reflexivity : keeps.
#[export] Hint Extern 1 (keeps _ (insertAudit _ _ _ _ _ _ _)) => apply keeps_insertAudit; intros; reflexivity : keeps.
