(* ===== verification/Pricing.v ===== *)
(** Price versions ([internal/features/usage/pricing.go]): the cost of cached
    and uncached tokens and hosted web searches, the price in force at a time,
    and [CreatePrice], which keeps the versions of a model disjoint in time. *)
From S2P Require Import Prelude GoStd Money Calendar Counters Policy Json Store.

(** * Costs *)

Definition validWeeklyWindow (start end_ : option Z) : bool :=
  match start, end_ with
  | None, None => true
  | Some s, Some e => (0 <=? s) && (s <? e) && (e <=? 7 * 24 * 60)
  | _, _ => false
  end.

Definition VerifiedFreePrice (inputNanos outputNanos : Z) (cacheReadNanos : option Z) (source : string)
    (verifiedAt now : Z) : bool :=
  let freshness := 24 * 60 * 60 * 1000 in
  (inputNanos =? 0) && (outputNanos =? 0)
  && match cacheReadNanos with Some r => r =? 0 | None => false end
  && negb (TrimSpace source =s "") && (verifiedAt <=? now) && (wrap64 (now - freshness) <=? verifiedAt).

Definition ConservativeInputRate (inputNanos : Z) (cacheReadNanos : option Z) : Z :=
  match cacheReadNanos with
  | Some r => if inputNanos <? r then r else inputNanos
  | None => inputNanos
  end.

Definition calculateCacheAwareCost (inputTokens outputTokens cacheReadTokens inputRate outputRate : Z)
    (cacheReadRate : option Z) : result (option Z) :=
  _ ← ensure (negb ((inputTokens <? 0) || (outputTokens <? 0) || (cacheReadTokens <? 0)
                    || (inputTokens <? cacheReadTokens)))
        (Msg "cache-read tokens must be within total input tokens");
  match cacheReadRate with
  | None =>
      if 0 <? cacheReadTokens then Ok None
      else
        uncachedCost ← tokenCost (inputTokens - cacheReadTokens) inputRate;
        outputCost ← tokenCost outputTokens outputRate;
        match checkedAdd [uncachedCost; 0; outputCost] with
        | Some total => if total <? 0 then Err (Msg "calculated cost is too large") else Ok (Some total)
        | None => Err (Msg "calculated cost is too large")
        end
  | Some readRate =>
      uncachedCost ← tokenCost (inputTokens - cacheReadTokens) inputRate;
      cachedCost ← (if 0 <? cacheReadTokens then tokenCost cacheReadTokens readRate else Ok 0);
      outputCost ← tokenCost outputTokens outputRate;
      match checkedAdd [uncachedCost; cachedCost; outputCost] with
      | Some total => if total <? 0 then Err (Msg "calculated cost is too large") else Ok (Some total)
      | None => Err (Msg "calculated cost is too large")
      end
  end.

Definition addWebSearchCost (tokenCost : option Z) (fee : option Z) (calls : Z) : result (option Z) :=
  match tokenCost with
  | None => Ok None
  | Some cost =>
    if calls =? 0 then Ok (Some cost)
    else
      _ ← ensure (negb ((calls <? 0) || (4 <? calls))) (Msg "web search call count is out of range");
      match fee with
      | None => Ok None
      | Some fee =>
        _ ← ensure (negb ((fee <? 0) || (Z.quot max_int64 calls <? fee))) (Msg "calculated cost is too large");
        match checkedAdd [cost; wrap64 (fee * calls)] with
        | Some total => Ok (Some total)
        | None => Err (Msg "calculated cost is too large")
        end
      end
  end.

Definition priceCalculationVersion (cacheRead webSearch : bool) : Z :=
  1 + (if cacheRead then 1 else 0) + (if webSearch then 2 else 0).

(** * The price in force *)

(** [UTCMinuteOfWeek(time.UnixMilli(at))]; the week starts on Monday. *)
Definition UTCMinuteOfWeek (at_ : Z) : Z :=
  let day := Z.rem (Weekday at_ + 6) 7 in day * 24 * 60 + Hour at_ * 60 + Minute at_.

(** The WHERE clause of [priceAt]. *)
Definition price_matches (connectionID modelID : string) (at_ : Z) (p : PriceRow) : bool :=
  (pr_Connection p =s connectionID) && (pr_Model p =s modelID) && (pr_From p <=? at_)
  && match pr_To p with Some t => at_ <? t | None => true end
  && match pr_Weekly p with
     | Some (s, e) => (s <=? UTCMinuteOfWeek at_) && (UTCMinuteOfWeek at_ <? e)
     | None => true
     end.

(** [ORDER BY effective_from DESC, id DESC]. *)
Definition price_before (a b : string * PriceRow) : bool :=
  (pr_From b.2 <? pr_From a.2) || ((pr_From a.2 =? pr_From b.2) && String.ltb b.1 a.1).

(** [LIMIT 1]: the first of the rows in that order. *)
Fixpoint latest (l : list (string * PriceRow)) : option (string * PriceRow) :=
  match l with
  | [] => None
  | x :: l => match latest l with
              | Some y => if price_before x y then Some x else Some y
              | None => Some x
              end
  end.

Definition priceAt (prices : gmap string PriceRow) (connectionID modelID : string) (at_ : Z) :
    option (string * PriceRow) :=
  latest (select_rows (fun _ p => price_matches connectionID modelID at_ p) prices).

Record PriceQuote := mkPriceQuote {
  pq_ID : string; pq_Input : Z; pq_Output : Z; pq_CacheRead : option Z; pq_Source : string;
  pq_CreatedAt : Z; pq_QuotedAt : Z }.

Definition QuotePrice (prices : gmap string PriceRow) (connectionID modelID : string) (at_ : Z) :
    result PriceQuote :=
  match priceAt prices connectionID modelID at_ with
  | Some (id, p) => Ok (mkPriceQuote id (pr_Input p) (pr_Output p) (pr_CacheRead p) (pr_Source p)
                          (pr_Created p) at_)
  | None => Err ErrNoRows
  end.

Definition EstimateCost (quote : PriceQuote) (inputTokens outputTokens cacheReadTokens : Z) :
    result (option Z) :=
  calculateCacheAwareCost inputTokens outputTokens cacheReadTokens (pq_Input quote) (pq_Output quote)
    (pq_CacheRead quote).

(** * Creating a price *)

Record PriceInput := mkPriceInput {
  pn_ConnectionID : string; pn_ModelID : string; pn_InputUSD : string; pn_OutputUSD : string;
  pn_CacheReadUSD : option string; pn_WebSearchUSD : option string; pn_Source : string;
  pn_EffectiveFrom : string; pn_EffectiveTo : string; pn_WeeklyStart : option Z; pn_WeeklyEnd : option Z }.

(** [fmt.Errorf("prefix: %w", err)]. *)
Definition wrap_error {A} (prefix : string) (r : result A) : result A :=
  match r with Err (Msg t) => Err (Msg (prefix +:+ t)) | r => r end.

Definition ParseOptionalUSD (prefix : string) (v : option string) : result (option Z) :=
  match v with
  | None => Ok None
  | Some text => rate ← wrap_error prefix (ParseUSD text); Ok (Some rate)
  end.

(** The weekly part of the overlap conditions. *)
Definition weekly_overlap (p q : option (Z * Z)) : bool :=
  match p, q with
  | Some (s, e), Some (s', e') => (s <? e') && (s' <? e)
  | _, _ => true
  end.

Definition weekly_of (start end_ : option Z) : option (Z * Z) :=
  match start, end_ with Some s, Some e => Some (s, e) | _, _ => None end.

(** The open versions a new open-ended version closes, latest first. *)
Definition open_before (connectionID modelID : string) (from : Z) (weekly : option (Z * Z)) (p : PriceRow) : bool :=
  (pr_Connection p =s connectionID) && (pr_Model p =s modelID)
  && match pr_To p with None => true | Some _ => false end
  && (pr_From p <? from) && weekly_overlap (pr_Weekly p) weekly.

(** The overlap check of [CreatePrice]. *)
Definition overlaps_interval (connectionID modelID : string) (from toMillis : Z) (weekly : option (Z * Z))
    (p : PriceRow) : bool :=
  (pr_Connection p =s connectionID) && (pr_Model p =s modelID) && (pr_From p <? toMillis)
  && match pr_To p with None => true | Some t => from <? t end && weekly_overlap (pr_Weekly p) weekly.

Definition with_To (to : option Z) (p : PriceRow) : PriceRow :=
  mkPriceRow (pr_Connection p) (pr_Model p) (pr_Input p) (pr_Output p) (pr_CacheRead p) (pr_WebSearch p)
    (pr_Source p) (pr_From p) to (pr_Weekly p) (pr_CreatedBy p) (pr_Created p).

(** An attempt priced by version [id] at or after [from]. *)
Definition quoted_from (id : string) (from : Z) (a : AttemptRow) : bool :=
  bool_decide (as_Price (at_Snapshot a) = Some id)
  && (from <=? default (as_Started (at_Snapshot a)) (as_QuotedAt (at_Snapshot a))).

Definition from_desc (a b : string * PriceRow) : Prop := pr_From b.2 <= pr_From a.2.
#[export] Instance from_desc_dec : RelDecision from_desc.
Proof. intros a b. unfold from_desc. apply _. Defined.

(** What the API shows of a version ([scanPrice]); instants stay in milliseconds. *)
Record PriceVersion := mkPriceVersion {
  pv_ID : string; pv_Row : PriceRow; pv_InputUSD : string; pv_OutputUSD : string;
  pv_CacheReadUSD : option string; pv_WebSearchUSD : option string }.

Definition scanPrice (id : string) (p : PriceRow) : PriceVersion :=
  mkPriceVersion id p (FormatUSD (pr_Input p)) (FormatUSD (pr_Output p))
    (FormatUSD <$> pr_CacheRead p) (FormatUSD <$> pr_WebSearch p).

Definition GetPrice (actor : User) (id : string) (s : db) : result PriceVersion :=
  actor ← refreshUsageActor s actor;
  _ ← ensure (is_manager (us_Role actor)) ErrDenied;
  match t_prices s !! id with Some p => Ok (scanPrice id p) | None => Err ErrNotFound end.

Section CreatePrice.
(** [time.Parse(time.RFC3339, _)], as nanoseconds since the epoch. *)
Variable parse_time : string -> option Z.

Definition UnixMilli (nanos : Z) : Z := nanos / 1000000.

(** The interval of a price input: its start and its optional end. *)
Definition price_interval (input : PriceInput) : result (Z * option Z) :=
  match parse_time (pn_EffectiveFrom input) with
  | None => Err (Msg "effective_from must be RFC3339")
  | Some from =>
    if pn_EffectiveTo input =s "" then Ok (UnixMilli from, None)
    else match parse_time (pn_EffectiveTo input) with
         | Some to => if from <? to then Ok (UnixMilli from, Some (UnixMilli to))
                      else Err (Msg "effective_to must be later than effective_from")
         | None => Err (Msg "effective_to must be later than effective_from")
         end
  end.

(** Closes one open version at [from], unless attempts already use it later. *)
Definition close_price (e : env) (actor : User) (from : Z) (x : nat * (string * PriceRow)) : tx db unit :=
  let (i, row) := x in let id := fst row in
  attempts ← reads t_attempts;
  _ ← require (negb (existsb (fun kv => quoted_from id from (snd kv)) (map_to_list attempts)))
        (Msg "new effective date would invalidate snapshotted attempts; use historical repricing");
  _ ← update_row t_prices set_prices id (fun p => match pr_To p with None => true | Some _ => false end)
        (with_To (Some from));
  insertAudit (token e (2 + i)) (us_ID actor) "price.close" "price" id [("effective_to", JInt from)]%string
    (now e (1 + i)).

(** The transaction of [CreatePrice], from the validated input on. *)
Definition create_price_tx (e : env) (actor : User) (input : PriceInput) (inputRate outputRate : Z)
    (cacheReadRate webSearchFee : option Z) (from : Z) (to : option Z) : tx db (User * string) :=
  s ← reads id;
  actor ← lift (refreshUsageActor s actor);
  _ ← require (is_manager (us_Role actor)) ErrDenied;
  let weekly := weekly_of (pn_WeeklyStart input) (pn_WeeklyEnd input) in
  prices ← reads t_prices;
  let previous := merge_sort from_desc
    (select_rows (fun _ p => open_before (pn_ConnectionID input) (pn_ModelID input) from weekly p) prices) in
  _ ← (match to with
       | None => for_each (close_price e actor from) (imap pair previous)
       | Some _ => mret tt
       end);
  prices ← reads t_prices;
  _ ← require (negb (existsb (fun kv => overlaps_interval (pn_ConnectionID input) (pn_ModelID input) from
                                          (default max_int64 to) weekly (snd kv)) (map_to_list prices)))
        (Msg "price interval overlaps an existing version");
  let id := "prc_" +:+ token e 0 in
  _ ← require (match to with Some t => from <? t | None => true end) constraint_failed;
  _ ← insert_row t_prices set_prices id
        (mkPriceRow (pn_ConnectionID input) (pn_ModelID input) inputRate outputRate cacheReadRate webSearchFee
           (pn_Source input) from to weekly (us_ID actor) (now e 0));
  _ ← insertAudit (token e 1) (us_ID actor) "price.create" "price" id
        [("connection_id", JString (pn_ConnectionID input)); ("model_id", JString (pn_ModelID input));
         ("source", JString (pn_Source input))]%string (now e (1 + length previous));
  mret (actor, id).

Definition CreatePrice (e : env) (actor : User) (input : PriceInput) (s : db) : result PriceVersion * db :=
  let checked :=
    inputRate ← wrap_error "input price: " (ParseUSD (pn_InputUSD input));
    outputRate ← wrap_error "output price: " (ParseUSD (pn_OutputUSD input));
    cacheReadRate ← ParseOptionalUSD "cache read price: " (pn_CacheReadUSD input);
    webSearchFee ← ParseOptionalUSD "web search price: " (pn_WebSearchUSD input);
    _ ← ensure (validWeeklyWindow (pn_WeeklyStart input) (pn_WeeklyEnd input))
          (Msg "weekly UTC window must be a half-open minute range within one week");
    interval ← price_interval input;
    _ ← ensure (negb ((pn_ConnectionID input =s "") || (pn_ModelID input =s "") || (pn_Source input =s "")
                      || (200 <? str_len (pn_ConnectionID input)) || (200 <? str_len (pn_ModelID input))
                      || (500 <? str_len (pn_Source input))))
          (Msg "connection, model, and source are required");
    Ok (inputRate, outputRate, cacheReadRate, webSearchFee, interval) in
  match checked with
  | Err err => (Err err, s)
  | Ok (inputRate, outputRate, cacheReadRate, webSearchFee, (from, to)) =>
    match commit (create_price_tx e actor input inputRate outputRate cacheReadRate webSearchFee from to) s with
    | (Ok (actor, id), s') => (GetPrice actor id s', s')
    | (Err err, s') => (Err err, s')
    end
  end.
End CreatePrice.

(** * Lemmas *)

Lemma latest_In l x : latest l = Some x -> In x l.
Proof.
  revert x. induction l as [|y l IH]; intros x; cbn; [done|].
  destruct (latest l) as [z|]; [|intros [= ->]; by left].
  destruct (price_before y z); intros [= <-]; [by left | right; by apply IH].
Qed.

Lemma latest_None l : latest l = None -> l = [].
Proof. destruct l as [|y l]; cbn; [done|]. destruct (latest l) as [z|]; [destruct (price_before y z)|]; done. Qed.

Lemma priceAt_Some prices c m t id p :
  priceAt prices c m t = Some (id, p) -> prices !! id = Some p /\ price_matches c m t p = true.
Proof. intros H%latest_In%list_elem_of_In. by apply elem_of_select_rows in H. Qed.

Lemma priceAt_None prices c m t :
  priceAt prices c m t = None -> forall id p, prices !! id = Some p -> price_matches c m t p = false.
Proof.
  intros H%latest_None id p Hp. destruct (price_matches c m t p) eqn:E; [|done].
  assert ((id, p) ∈ select_rows (fun _ p => price_matches c m t p) prices) as Hin
    by (by apply elem_of_select_rows).
  rewrite H in Hin. by apply elem_of_nil in Hin.
Qed.

(** ** Disjoint intervals *)

Definition ends_by (p : PriceRow) (t : Z) : Prop :=
  match pr_To p with Some e => e <= t | None => False end.

(** No instant is in the intervals and weekly windows of both versions. *)
Definition disjoint_prices (p q : PriceRow) : Prop :=
  pr_Connection p <> pr_Connection q \/ pr_Model p <> pr_Model q \/
  ends_by p (pr_From q) \/ ends_by q (pr_From p) \/ weekly_overlap (pr_Weekly p) (pr_Weekly q) = false.

Definition prices_ok (m : gmap string PriceRow) : Prop :=
  (forall i p, m !! i = Some p -> pr_From p < max_int64) /\
  (forall i j p q, i <> j -> m !! i = Some p -> m !! j = Some q -> disjoint_prices p q).

Lemma price_matches_true c m t p :
  price_matches c m t p = true <->
  pr_Connection p = c /\ pr_Model p = m /\ pr_From p <= t /\
  match pr_To p with Some e => t < e | None => True end /\
  match pr_Weekly p with Some (s, e) => s <= UTCMinuteOfWeek t < e | None => True end.
Proof.
  unfold price_matches. rewrite !andb_true_iff, !String.eqb_eq, Z.leb_le.
  destruct (pr_To p), (pr_Weekly p) as [[s e]|]; rewrite ?andb_true_iff, ?Z.leb_le, ?Z.ltb_lt; intuition.
Qed.

Lemma disjoint_not_both c m t p q :
  disjoint_prices p q -> price_matches c m t p = true -> price_matches c m t q = true -> False.
Proof.
  rewrite !price_matches_true. intros Hd (<- & <- & Hp & Hpt & Hpw) (Hc & Hm & Hq & Hqt & Hqw).
  unfold disjoint_prices, ends_by, weekly_overlap in Hd.
  destruct Hd as [Hd|[Hd|[Hd|[Hd|Hd]]]]; [congruence|congruence|..].
  - destruct (pr_To p); [lia|done].
  - destruct (pr_To q); [lia|done].
  - destruct (pr_Weekly p) as [[? ?]|], (pr_Weekly q) as [[? ?]|]; try done.
    apply andb_false_iff in Hd as [Hd|Hd]; apply Z.ltb_ge in Hd; lia.
Qed.

Lemma weekly_overlap_comm a b : weekly_overlap a b = weekly_overlap b a.
Proof. destruct a as [[? ?]|], b as [[? ?]|]; try done. cbn. apply andb_comm. Qed.

Lemma disjoint_prices_comm p q : disjoint_prices p q -> disjoint_prices q p.
Proof. unfold disjoint_prices. rewrite weekly_overlap_comm. intuition congruence. Qed.

(** Ending an open version earlier keeps it disjoint from the others. *)
Lemma disjoint_close p q e : pr_To p = None -> disjoint_prices p q -> disjoint_prices (with_To (Some e) p) q.
Proof. unfold disjoint_prices, ends_by. intros ->. cbn. tauto. Qed.

Lemma prices_ok_close m i p e :
  prices_ok m -> m !! i = Some p -> pr_To p = None -> prices_ok (<[i := with_To (Some e) p]> m).
Proof.
  intros [Hf Hd] Hi Ho. split.
  - intros j q. destruct (decide (i = j)) as [<-|Hn].
    + rewrite lookup_insert_eq. intros [= <-]. exact (Hf i p Hi).
    + rewrite lookup_insert_ne by done. apply Hf.
  - intros j k q r Hjk. destruct (decide (i = j)) as [<-|Hj], (decide (i = k)) as [<-|Hk]; try done;
      rewrite ?lookup_insert_eq, ?lookup_insert_ne by done.
    + intros [= <-] Hr. apply disjoint_close; [done|]. by apply (Hd i k).
    + intros Hq [= <-]. apply disjoint_prices_comm, disjoint_close; [done|]. by apply (Hd i j).
    + by apply Hd.
Qed.

Lemma prices_ok_insert m i p :
  prices_ok m -> m !! i = None -> pr_From p < max_int64 ->
  (forall j q, m !! j = Some q ->
     overlaps_interval (pr_Connection p) (pr_Model p) (pr_From p) (default max_int64 (pr_To p)) (pr_Weekly p) q = false) ->
  prices_ok (<[i := p]> m).
Proof.
  intros [Hf Hd] Hi Hp Hov.
  assert (forall j q, m !! j = Some q -> disjoint_prices q p) as Hnew.
  { intros j q Hq. specialize (Hov j q Hq). pose proof (Hf j q Hq) as Hq'. unfold overlaps_interval in Hov.
    unfold disjoint_prices, ends_by.
    rewrite !andb_false_iff, !String.eqb_neq, Z.ltb_ge in Hov.
    destruct Hov as [[[[Hov|Hov]|Hov]|Hov]|Hov]; [tauto|tauto|..|tauto].
    - destruct (pr_To p); cbn in Hov; [tauto | lia].
    - destruct (pr_To q); [|done]. apply Z.ltb_ge in Hov. tauto. }
  split.
  - intros j q. destruct (decide (i = j)) as [<-|Hn].
    + rewrite lookup_insert_eq. by intros [= <-].
    + rewrite lookup_insert_ne by done. apply Hf.
  - intros j k q r Hjk. destruct (decide (i = j)) as [<-|Hj], (decide (i = k)) as [<-|Hk]; try done;
      rewrite ?lookup_insert_eq, ?lookup_insert_ne by done.
    + intros [= <-] Hr. apply disjoint_prices_comm. by apply (Hnew k).
    + intros Hq [= <-]. by apply (Hnew j).
    + by apply Hd.
Qed.

Lemma appendOutbox_Ok tok r a p t s u s' :
  appendOutbox tok r a p t s = Ok (u, s') -> exists x, s' = set_outbox x s.
Proof. unfold appendOutbox. intros H. tx_inv. eauto. Qed.

Lemma close_price_ok e actor from x s u s' :
  close_price e actor from x s = Ok (u, s') -> prices_ok (t_prices s) -> prices_ok (t_prices s').
Proof.
  unfold close_price. destruct x as [i row]. intros H Hok. tx_inv.
  match goal with H : insertAudit _ _ _ _ _ _ _ _ = _ |- _ => apply insertAudit_Ok in H as [z ->] end.
  match goal with H : update_row _ _ _ _ _ _ = _ |- _ => apply update_row_Ok in H as [(p & Hp & Hc & _ & ->)|(_ & -> & _)] end;
    cbn; [|done].
  apply prices_ok_close; [done|done|]. by destruct (pr_To p).
Qed.

Lemma create_price_tx_ok e actor input ir or cr wf from to s r s' :
  create_price_tx e actor input ir or cr wf from to s = Ok (r, s') ->
  from < max_int64 -> prices_ok (t_prices s) -> prices_ok (t_prices s').
Proof.
  unfold create_price_tx. intros H Hf Hok. tx_inv.
  repeat match goal with H : insertAudit _ _ _ _ _ _ _ _ = _ |- _ => apply insertAudit_Ok in H as [? ->] end.
  match goal with H : insert_row _ _ _ _ _ = _ |- _ => apply insert_row_Ok in H as [Hnew ->] end. cbn.
  match goal with H : negb (existsb _ _) = true |- _ => apply negb_true_iff in H; rename H into Hov end.
  match type of Hov with existsb _ (map_to_list (t_prices ?s1)) = _ => assert (prices_ok (t_prices s1)) as Hok' end.
  { destruct to; tx_inv; [done|].
    match goal with H : for_each _ _ _ = _ |- _ => revert H end.
    apply (for_each_inv (fun s => prices_ok (t_prices s))); [|done].
    intros; eapply close_price_ok; eauto. }
  apply prices_ok_insert; [done|done|done|]. cbn. intros j q Hq.
  destruct (overlaps_interval _ _ _ _ _ _) eqn:E; [|done]. rewrite <- Hov. symmetry.
  apply existsb_exists. exists (j, q). split; [|done].
  apply list_elem_of_In. by apply elem_of_map_to_list.
Qed.

(** [CreatePrice] as a whole, over its input checks and its transaction. *)
Lemma CreatePrice_prices_ok (parse_time : string -> option Z) (e : env) (actor : User)
    (input : PriceInput) (s : db) :
  (forall text t, parse_time text = Some t -> UnixMilli t <= max_millis) ->
  prices_ok (t_prices s) -> prices_ok (t_prices (snd (CreatePrice parse_time e actor input s))).
Proof.
  intros Hparse Hok. unfold CreatePrice.
  match goal with |- context [match ?c with Ok _ => _ | Err _ => _ end] => destruct c as [[[[[ir or] cr] wf] [from to]]|err] eqn:Hc end;
    [|done].
  assert (from < max_int64) as Hfrom.
  { repeat (apply result_bind_Ok in Hc as (? & ? & Hc)).
    match goal with H : price_interval _ _ = Ok ?x |- _ => rename H into Hi; destruct x as [f t] end.
    injection Hc as -> -> -> -> -> ->. unfold price_interval in Hi.
    destruct (parse_time (pn_EffectiveFrom input)) as [t0|] eqn:Et; [|done]. specialize (Hparse _ _ Et).
    unfold max_millis, max_int64 in *. repeat case_match; simplify_eq; lia. }
  unfold commit. destruct (create_price_tx _ _ _ _ _ _ _ _ _ s) as [[[a id] s']|err] eqn:Ht; cbn; [|done].
  by eapply create_price_tx_ok.
Qed.

(** [CreatePrice] keeps the versions of every model pairwise disjoint in
    time: after it, whether it succeeds or fails, no instant is covered by two
    versions of one connection and model. RFC3339 years have four digits, so a
    parsed time is far below the largest int64. *)
Theorem CreatePrice_keeps_disjoint (parse_time : string -> option Z) (e : env) (actor : User)
    (input : PriceInput) (s : db) :
  (forall text t, parse_time text = Some t -> UnixMilli t <= max_millis) ->
  prices_ok (t_prices s) -> prices_ok (t_prices (snd (CreatePrice parse_time e actor input s))).
Proof. apply CreatePrice_prices_ok. Qed.

(** A fixed table of instants, standing in for the RFC3339 parser. *)
Definition sample_times (text : string) : option Z :=
  if text =s "2026-01-01T00:00:00Z" then Some 1767225600000000000
  else if text =s "2026-02-01T00:00:00Z" then Some 1769904000000000000 else None.

Lemma CreatePrice_keeps_disjoint_witness :
  let s := set_users {[ "usr_1" := mkUserRow "o@x" "O" "!" Owner UActive 0 0 1 1 (mkGrants true [] [] []) ]}
    (mkDb ∅ ∅ ∅ None ∅ ∅ ∅ ∅ ∅ ∅ ∅ ∅ [] ∅ ∅ ∅ ∅ ∅ ∅ ∅ ∅ ∅ ∅ ∅ [] ∅) in
  let owner := mkUser "usr_1" "o@x" "O" Owner UActive in
  let e t := mkEnv "ep" (fun _ => 5) (fun n => t +:+ FormatInt (Z.of_nat n)) in
  let input f := mkPriceInput "con_1" "m" "0.5" "1.5" (Some "0.1") None "list" f "" None None in
  let s1 := snd (CreatePrice sample_times (e "a") owner (input "2026-01-01T00:00:00Z") s) in
  let s2 := snd (CreatePrice sample_times (e "b") owner (input "2026-02-01T00:00:00Z") s1) in
  size (t_prices s2) = 2%nat /\ prices_ok (t_prices s2).
Proof.
  cbv zeta. split; [vm_compute; reflexivity|].
  assert (forall text t, sample_times text = Some t -> UnixMilli t <= max_millis) as Hp.
  { intros text t. unfold sample_times. repeat case_match; intros; simplify_eq; vm_compute; discriminate. }
  apply CreatePrice_keeps_disjoint; [exact Hp|]. apply CreatePrice_keeps_disjoint; [exact Hp|].
  split; [intros i p Hi | intros i j p q _ Hi]; exfalso; revert Hi; cbn; by rewrite lookup_empty.
Defined.

(** With disjoint versions, [priceAt] returns a version exactly when it
    is the one that covers the instant: it never misses a version in force,
    and the [ORDER BY .. LIMIT 1] never has to choose. *)
Theorem priceAt_unique (prices : gmap string PriceRow) (c m : string) (t : Z) (id : string) (p : PriceRow) :
  prices_ok prices ->
  priceAt prices c m t = Some (id, p) <-> prices !! id = Some p /\ price_matches c m t p = true.
Proof.
  intros [_ Hd]. split; [apply priceAt_Some|]. intros [Hp Hm].
  destruct (priceAt prices c m t) as [[j q]|] eqn:E.
  - apply priceAt_Some in E as [Hq Hmq]. destruct (decide (id = j)) as [->|Hne]; [by simplify_eq|].
    exfalso. eapply disjoint_not_both; [by apply (Hd id j)|done|done].
  - apply (priceAt_None _ _ _ _ E) in Hp. congruence.
Qed.

Lemma priceAt_unique_witness :
  let p := mkPriceRow "c" "m" 1 2 None None "list" 0 (Some 100) None "u" 0 in
  let q := mkPriceRow "c" "m" 3 4 None None "list" 100 None None "u" 0 in
  priceAt {[ "a" := p; "b" := q ]} "c" "m" 100 = Some ("b"%string, q).
Proof.
  cbv zeta. apply priceAt_unique.
  - split.
    + intros i r Hi. apply lookup_insert_Some in Hi as [[_ <-]|[_ Hi]]; [vm_compute; reflexivity|].
      apply lookup_singleton_Some in Hi as [_ <-]. vm_compute; reflexivity.
    + intros i j r r' Hn Hi Hj.
      apply lookup_insert_Some in Hi as [[<- <-]|[_ Hi]]; apply lookup_insert_Some in Hj as [[<- <-]|[_ Hj]];
        try apply lookup_singleton_Some in Hi as [<- <-]; try apply lookup_singleton_Some in Hj as [<- <-];
        try congruence; unfold disjoint_prices, ends_by; cbn; lia.
  - split; reflexivity.
Defined.

(** ** Estimates and actual costs *)

Lemma calculateCacheAwareCost_Ok i o c r ro cr a :
  calculateCacheAwareCost i o c r ro cr = Ok (Some a) ->
  0 <= i /\ 0 <= o /\ 0 <= c <= i /\ (0 < c -> is_Some cr) /\
  exists cu cc co, tokenCost (i - c) r = Ok cu /\ tokenCost o ro = Ok co /\
    (if 0 <? c then tokenCost c (default 0 cr) else Ok 0) = Ok cc /\ a = cu + cc + co /\ a <= max_int64.
Proof.
  unfold calculateCacheAwareCost. intros ([] & G & H)%result_bind_Ok. guards.
  assert (forall cu cc co, 0 <= cu <= max_int64 -> 0 <= cc <= max_int64 -> 0 <= co <= max_int64 ->
    match checkedAdd [cu; cc; co] with
    | Some total => if total <? 0 then Err (Msg "calculated cost is too large") else Ok (Some total)
    | None => Err (Msg "calculated cost is too large") end = Ok (Some a) ->
    a = cu + cc + co /\ a <= max_int64) as Hsum.
  { intros cu cc co Hu Hc Ho Hm. destruct (checkedAdd [cu; cc; co]) as [n|] eqn:E; [|done].
    apply checkedAdd_nonneg in E; [|by rewrite !Forall_cons, Forall_nil]. cbn in E. destruct (n <? 0); simplify_eq. lia. }
  destruct cr as [cr|].
  - apply result_bind_Ok in H as (cu & Hu & H). apply result_bind_Ok in H as (cc & Hc & H).
    apply result_bind_Ok in H as (co & Ho & H). apply Hsum in H; [|by eapply tokenCost_range| |by eapply tokenCost_range].
    + split_and!; try lia; [done|]. exists cu, cc, co. naive_solver.
    + destruct (0 <? c); [by eapply tokenCost_range|]. simplify_eq. unfold max_int64. lia.
  - destruct (0 <? c) eqn:E; [done|]. apply result_bind_Ok in H as (cu & Hu & H).
    apply result_bind_Ok in H as (co & Ho & H).
    apply Hsum in H; [|by eapply tokenCost_range|unfold max_int64; lia|by eapply tokenCost_range].
    split_and!; try lia. exists cu, 0, co. naive_solver.
Qed.

(** The reservation made at admission covers the settled cost up to one
    nano-dollar: pricing all input at the dearer of the input and cache-read
    rates is at most one below the cost split into cached and uncached
    tokens, because the split rounds up twice. *)
Theorem estimate_covers_cost (i o c r ro est a : Z) (cr : option Z) :
  i <= max_int64 -> o <= max_int64 -> 0 <= r <= max_int64 -> 0 <= ro <= max_int64 ->
  (forall x, cr = Some x -> 0 <= x <= max_int64) ->
  i * ConservativeInputRate r cr <= 1000000 * (two64 - 1) ->
  CalculateCost i o (ConservativeInputRate r cr) ro = Ok est ->
  calculateCacheAwareCost i o c r ro cr = Ok (Some a) ->
  a <= est + 1.
Proof.
  intros Hi Ho Hr Hro Hcr Hb He Ha.
  apply calculateCacheAwareCost_Ok in Ha as (Hi0 & Ho0 & Hc & Hs & cu & cc & co & Hu & Hco & Hcc & -> & _).
  apply CalculateCost_Ok in He as (ci & co' & Hci & Hco' & -> & _). rewrite Hco in Hco'. injection Hco' as <-.
  set (R := ConservativeInputRate r cr) in *.
  assert (r <= R /\ R <= max_int64 /\ forall x, cr = Some x -> x <= R) as (HrR & HRm & HcR).
  { subst R. unfold ConservativeInputRate. destruct cr as [x|]; [|naive_solver lia].
    specialize (Hcr x eq_refl). destruct (Z.ltb_spec r x); split_and!; try lia; intros ? [= <-]; lia. }
  clearbody R. rewrite tokenCost_exact in Hci by (try lia; nia).
  rewrite tokenCost_exact in Hu by (try lia; nia).
  destruct (max_int64 <? ceil_div (i * R) 1000000); [done|]. injection Hci as <-.
  destruct (max_int64 <? ceil_div ((i - c) * r) 1000000); [done|]. injection Hu as <-.
  pose proof (ceil_div_mono ((i - c) * r) ((i - c) * R) 1000000 ltac:(lia) ltac:(nia)).
  pose proof (ceil_div_split ((i - c) * R) (c * R) 1000000 ltac:(lia)) as Hsplit.
  replace ((i - c) * R + c * R) with (i * R) in Hsplit by lia.
  destruct (Z.ltb_spec 0 c) as [Hpos|Hz].
  - destruct (Hs Hpos) as [x ->]. cbn in Hcc. specialize (Hcr x eq_refl). specialize (HcR x eq_refl).
    rewrite tokenCost_exact in Hcc by (try lia; nia).
    destruct (max_int64 <? ceil_div (c * x) 1000000); [done|]. injection Hcc as <-.
    pose proof (ceil_div_mono (c * x) (c * R) 1000000 ltac:(lia) ltac:(nia)). lia.
  - assert (c = 0) as -> by lia. injection Hcc as <-.
    replace (ceil_div (0 * R) 1000000) with 0 in Hsplit by done. lia.
Qed.

(** The bound is attained: one cached and one uncached token at a nano each. *)
Lemma estimate_covers_cost_witness :
  CalculateCost 2 0 (ConservativeInputRate 1 (Some 1)) 0 = Ok 1 /\
  calculateCacheAwareCost 2 0 1 1 0 (Some 1) = Ok (Some 2) /\ 2 <= 1 + 1.
Proof.
  split; [reflexivity|]. split; [reflexivity|].
  apply (estimate_covers_cost 2 0 1 1 0 1 2 (Some 1)); try solve [unfold max_int64, two64; cbn; lia | reflexivity].
  intros x [= <-]. unfold max_int64. lia.
Defined.
