(* ===== verification/PolicyService.v ===== *)
(** The limit-policy service ([internal/features/usage/policy.go]): who may
    create, change and read a policy, and that every stored policy stays in
    the shape its algorithm was validated with. *)
From S2P Require Import Prelude GoStd Money Counters Policy Json Store.

(** [authorizePolicyScope]. *)
Definition authorizePolicyScope (s : db) (actor : User) (scopeKind : ScopeKind) (scopeID : string) : result unit :=
  let scoped (role : option Role) : result unit :=
    match role with
    | None => Err ErrNotFound
    | Some role =>
      if decide (us_Role actor = Owner) then Ok tt
      else if decide (us_Role actor = Admin) then ensure (bool_decide (role = Member)) ErrDenied
      else Err ErrDenied
    end in
  match scopeKind with
  | ScopeInstance => ensure (bool_decide (us_Role actor = Owner)) ErrDenied
  | ScopeConnection => ensure (is_manager (us_Role actor)) ErrDenied
  | ScopeUser =>
      scoped (u ← t_users s !! scopeID; if decide (u_Status u = UArchived) then None else Some (u_Role u))
  | ScopeKey => scoped (k ← t_keys s !! scopeID; u ← t_users s !! k_Owner k; Some (u_Role u))
  end.

Definition readPolicy (s : db) (id : string) : result PolicyRow :=
  match t_policies s !! id with Some p => Ok p | None => Err ErrNotFound end.

(** What the API shows ([scanPolicy]): the row, with a spend limit in dollars. *)
Record PolicyView := mkPolicyView { vw_ID : string; vw_Row : PolicyRow; vw_LimitUSD : string }.
Definition scanPolicy (id : string) (p : PolicyRow) : PolicyView :=
  mkPolicyView id p (if decide (p_Metric p = MSpend) then FormatUSD (p_LimitUnits p) else "").

Definition GetPolicy (actor : User) (id : string) (s : db) : result PolicyView :=
  actor ← refreshUsageActor s actor;
  policy ← readPolicy s id;
  _ ← authorizePolicyScope s actor (p_ScopeKind policy) (p_ScopeID policy);
  Ok (scanPolicy id policy).

(** UNIQUE (scope_kind, scope_id, metric, algorithm, period, window_seconds). *)
Definition same_policy (p q : PolicyRow) : bool :=
  bool_decide (p_ScopeKind p = p_ScopeKind q) && (p_ScopeID p =s p_ScopeID q)
  && bool_decide (p_Metric p = p_Metric q) && bool_decide (p_Algorithm p = p_Algorithm q)
  && bool_decide (p_Period p = p_Period q) && (p_WindowSeconds p =? p_WindowSeconds q).

Definition scope_text (k : ScopeKind) : string :=
  match k with ScopeInstance => "instance" | ScopeUser => "user" | ScopeKey => "key" | ScopeConnection => "connection" end.

Definition create_policy_tx (e : env) (actor : User) (input : PolicyInput) : tx db (User * string) :=
  s ← reads id;
  actor ← lift (refreshUsageActor s actor);
  let id := "pol_" +:+ token e 0 in
  match row_of_input input (now e 0) with
  | None => fail constraint_failed
  | Some row =>
    _ ← lift (authorizePolicyScope s actor (p_ScopeKind row) (p_ScopeID row));
    _ ← require (bool_decide (t_policies s !! id = None)
                 && negb (existsb (fun kv => same_policy (snd kv) row) (map_to_list (t_policies s)))) ErrConflict;
    _ ← insert_row t_policies set_policies id row;
    _ ← insertAudit (token e 1) (us_ID actor) "policy.create" "policy" id
          [("metric", JString (pi_Metric input)); ("scope_id", JString (pi_ScopeID input));
           ("scope_kind", JString (pi_ScopeKind input))]%string (now e 1);
    mret (actor, id)
  end.

Definition CreatePolicy (e : env) (actor : User) (input : PolicyInput) (s : db) : result PolicyView * db :=
  match validatePolicyInput input with
  | Err err => (Err err, s)
  | Ok input =>
    match commit (create_policy_tx e actor input) s with
    | (Ok (actor, id), s') => (GetPolicy actor id s', s')
    | (Err err, s') => (Err err, s')
    end
  end.

Definition with_limit_enabled (limit : Z) (enabled : bool) (at_ : Z) (p : PolicyRow) : PolicyRow :=
  mkPolicyRow (p_ScopeKind p) (p_ScopeID p) (p_Metric p) (p_Algorithm p) (p_Period p) (p_WindowSeconds p)
    limit (p_RefillUnits p) (p_RefillIntervalMS p) enabled (p_Revision p + 1) (p_CreatedAt p) at_.

Definition update_policy_tx (e : env) (actor : User) (id : string) (revision limitUnits : Z)
    (limitUSD : string) (enabled : bool) : tx db User :=
  s ← reads (fun s => s);
  actor ← lift (refreshUsageActor s actor);
  policy ← lift (readPolicy s id);
  _ ← lift (authorizePolicyScope s actor (p_ScopeKind policy) (p_ScopeID policy));
  limit ← lift (match (if decide (p_Metric policy = MSpend) then ParseUSD limitUSD else Ok limitUnits) with
                | Ok l => _ ← ensure (negb ((l <=? 0) || (maxSafeInteger <? l)))
                                (Msg "limit must be between 1 and 9007199254740991"); Ok l
                | Err _ => Err (Msg "limit must be between 1 and 9007199254740991")
                end);
  changed ← update_row t_policies set_policies id (fun p => p_Revision p =? revision)
              (with_limit_enabled limit enabled (now e 0));
  _ ← require (changed =? 1) ErrConflict;
  _ ← insertAudit (token e 0) (us_ID actor) "policy.update" "policy" id
        [("enabled", JBool enabled); ("limit_units", JInt limit)]%string (now e 1);
  mret actor.

Definition UpdatePolicy (e : env) (actor : User) (id : string) (revision limitUnits : Z) (limitUSD : string)
    (enabled : bool) (s : db) : result PolicyView * db :=
  match commit (update_policy_tx e actor id revision limitUnits limitUSD enabled) s with
  | (Ok actor, s') => (GetPolicy actor id s', s')
  | (Err err, s') => (Err err, s')
  end.

(** * Stored policies stay well formed *)

Definition policies_within (bound : Z) (s : db) : Prop :=
  map_Forall (fun _ p => schema_ok p /\ p_LimitUnits p <= bound /\ p_WindowSeconds p <= bound /\
    p_RefillUnits p <= bound /\ p_RefillIntervalMS p <= bound) (t_policies s).
(** Within the schema and the dashboard-safe integers. *)
Definition policies_ok : db -> Prop := policies_within maxSafeInteger.

(** The part of a policy that fixes how its counters are kept. *)
Definition policy_shape (p : PolicyRow) : ScopeKind * string * Metric * Algorithm * Period * Z * Z * Z :=
  (p_ScopeKind p, p_ScopeID p, p_Metric p, p_Algorithm p, p_Period p, p_WindowSeconds p, p_RefillUnits p,
   p_RefillIntervalMS p).

(** Every policy of [s] is still there in [s'] with the same shape. *)
Definition policies_kept (s s' : db) : Prop :=
  forall id p, t_policies s !! id = Some p ->
    exists p', t_policies s' !! id = Some p' /\ policy_shape p' = policy_shape p.

Lemma schema_ok_limit l en at_ p : schema_ok p -> 0 < l -> schema_ok (with_limit_enabled l en at_ p).
Proof. intros (? & ? & ? & ? & ? & ?) Hl. repeat (split; [done|]). done. Qed.

(** Access to the scope of a policy, as [authorizePolicyScope] grants it. *)
Definition may_write (s : db) (u : UserRow) (k : ScopeKind) (id : string) : Prop :=
  match k with
  | ScopeInstance => u_Role u = Owner
  | ScopeConnection => u_Role u = Owner \/ u_Role u = Admin
  | ScopeUser => exists t, t_users s !! id = Some t /\ u_Status t <> UArchived /\
      (u_Role u = Owner \/ u_Role u = Admin /\ u_Role t = Member)
  | ScopeKey => exists key t, t_keys s !! id = Some key /\ t_users s !! k_Owner key = Some t /\
      (u_Role u = Owner \/ u_Role u = Admin /\ u_Role t = Member)
  end.

Lemma authorizePolicyScope_Ok s actor u k id :
  us_Role actor = u_Role u -> authorizePolicyScope s actor k id = Ok tt -> may_write s u k id.
Proof.
  intros Hr. unfold authorizePolicyScope, may_write, is_manager. rewrite Hr.
  destruct k; intros H.
  - by apply ensure_Ok, bool_decide_eq_true in H.
  - destruct (t_users s !! id) as [t|]; cbn in H; [|done].
    destruct (decide (u_Status t = UArchived)); [done|]. exists t. repeat case_decide; try done; [tauto|].
    apply ensure_Ok, bool_decide_eq_true in H. tauto.
  - destruct (t_keys s !! id) as [key|]; cbn in H; [|done].
    destruct (t_users s !! k_Owner key) as [t|] eqn:Ht; cbn in H; [|done].
    exists key, t. repeat case_decide; try done; [tauto|].
    apply ensure_Ok, bool_decide_eq_true in H. tauto.
  - apply ensure_Ok, orb_true_iff in H. rewrite !bool_decide_eq_true in H. tauto.
Qed.

(** One committed write: what it may do to the policies, and who may do it. *)
Definition policy_write (s s' : db) (actor : User) : Prop :=
  policies_kept s s' /\ (forall bound, maxSafeInteger <= bound -> policies_within bound s -> policies_within bound s') /\
  (t_policies s' <> t_policies s -> exists u id p, t_users s !! us_ID actor = Some u /\ u_Status u = UActive /\
     t_policies s' !! id = Some p /\ may_write s u (p_ScopeKind p) (p_ScopeID p) /\
     forall j, j <> id -> t_policies s' !! j = t_policies s !! j).

Lemma policy_write_refl s actor : policy_write s s actor.
Proof. split; [|done]. intros id p H. eauto. Qed.

Lemma create_policy_write e actor input s r s' :
  (exists i0, validatePolicyInput i0 = Ok input) ->
  create_policy_tx e actor input s = Ok (r, s') -> policy_write s s' actor.
Proof.
  intros [i0 Hv] H. unfold create_policy_tx in H. tx_inv.
  match goal with H : refreshUsageActor _ _ = Ok _ |- _ => apply refreshUsageActor_Ok in H as (Hid & u & Hu & Hact & Hrole) end.
  destruct (row_of_input input (now e 0)) as [row|] eqn:Hrow; [|by tx_inv]. tx_inv.
  match goal with H : insertAudit _ _ _ _ _ _ _ _ = _ |- _ => apply insertAudit_Ok in H as [? ->] end.
  match goal with H : insert_row _ _ _ _ _ = _ |- _ => apply insert_row_Ok in H as [Hnew ->] end.
  match goal with H : authorizePolicyScope _ _ _ _ = Ok ?t |- _ => destruct t; eapply authorizePolicyScope_Ok in H as Hw; [|exact Hrole] end.
  cbn in *. split_and!.
  - intros id p Hp. exists p. split; [|done]. cbn. rewrite lookup_insert_ne; [done|]. by intros <-; simplify_eq.
  - intros bound Hb Hok. unfold policies_within. cbn. apply map_Forall_insert_2; [|done].
      destruct (validatePolicyInput_Ok _ _ Hv) as (? & ? & ? & ? & Hscope & Hk & _ & Ha).
      destruct (row_of_input_fields _ _ _ Hrow) as (Ek & Eid & Em & Ea & Ep & Ew & El & Er & Ei).
      rewrite Ew, El, Er, Ei. split; [|lia].
      destruct (scope_kind_of_In _ Hk) as (k & Hk1 & Hk2). destruct (validAlgorithm_Ok _ Ha) as (a & m & p & Ha1 & Hm1 & Hp1 & Hs).
      specialize (Hs k (pi_ScopeID input) true 0 ltac:(lia) ltac:(by rewrite Hk2)).
      rewrite Hk1 in Ek. rewrite Ha1 in Ea. rewrite Hm1 in Em. rewrite Hp1 in Ep. simplify_eq.
      unfold schema_ok in *. cbn in Hs. by rewrite Eid, Ew, El, Er, Ei.
  - intros _. cbn. exists u. eexists _, row. rewrite lookup_insert_eq. split_and!; try done.
    intros j Hj. by rewrite lookup_insert_ne.
Qed.

Lemma update_policy_write e actor id rev lu lusd en s r s' :
  update_policy_tx e actor id rev lu lusd en s = Ok (r, s') -> policy_write s s' actor.
Proof.
  intros H. unfold update_policy_tx in H. tx_inv.
  match goal with H : refreshUsageActor _ _ = Ok _ |- _ => apply refreshUsageActor_Ok in H as (Hid & u & Hu & Hact & Hrole) end.
  match goal with H : insertAudit _ _ _ _ _ _ _ _ = _ |- _ => apply insertAudit_Ok in H as [? ->] end.
  match goal with H : readPolicy _ _ = Ok ?p |- _ => unfold readPolicy in H; destruct (t_policies s !! id) as [row|] eqn:Hp; [|done]; injection H as <- end.
  match goal with H : authorizePolicyScope _ _ _ _ = Ok ?t |- _ => destruct t; eapply authorizePolicyScope_Ok in H as Hw; [|exact Hrole] end.
  match goal with H : update_row _ _ _ _ _ _ = _ |- _ => apply update_row_Ok in H as [(p & Hp' & Hc & _ & ->)|(-> & _ & _)] end; [|done].
  rewrite Hp in Hp'. injection Hp' as <-.
  match goal with H : match ?c with Ok _ => _ | Err _ => _ end = Ok ?l |- _ => destruct c as [l0|]; [|done]; apply result_bind_Ok in H as ([] & G & [= <-]); guards end.
  cbn in *. split_and!.
  - intros j p Hj. cbn. destruct (decide (id = j)) as [<-|Hne].
      * rewrite lookup_insert_eq. eexists. split; [done|]. simplify_eq. done.
      * rewrite lookup_insert_ne by done. eauto.
  - intros bound Hb Hok. pose proof (map_Forall_lookup_1 _ _ _ _ Hok Hp) as (Hs & ? & ? & ? & ?). unfold policies_within. cbn.
      apply map_Forall_insert_2; [|done]. cbn. split_and!; try lia. apply schema_ok_limit; [done|lia].
  - intros _. cbn. exists u, id; eexists; rewrite lookup_insert_eq. split_and!; try done. intros j Hj. by rewrite lookup_insert_ne.
Qed.

Lemma CreatePolicy_write e actor input s : policy_write s (snd (CreatePolicy e actor input s)) actor.
Proof.
  unfold CreatePolicy, commit. destruct (validatePolicyInput input) as [j|] eqn:Hv; [|apply policy_write_refl].
  destruct (create_policy_tx e actor j s) as [[[a id] s']|] eqn:H; [|apply policy_write_refl].
  eapply create_policy_write; eauto.
Qed.

Lemma UpdatePolicy_write e actor id rev l usd en s : policy_write s (snd (UpdatePolicy e actor id rev l usd en s)) actor.
Proof.
  unfold UpdatePolicy, commit. destruct (update_policy_tx e actor id rev l usd en s) as [[a s']|] eqn:H; [|apply policy_write_refl].
  eapply update_policy_write; eauto.
Qed.

(** [CreatePolicy] and [UpdatePolicy] keep every stored policy within the
    schema and the dashboard-safe integers, never change the algorithm,
    metric, scope, period or refill of an existing policy, and write only for
    an active actor entitled to the scope: the owner, or an admin for
    connections and for members and their keys. *)
Theorem policy_writes_keep_shape (e : env) (actor : User) (s : db) :
  (forall input, policy_write s (snd (CreatePolicy e actor input s)) actor) /\
  (forall id revision limit usd enabled, policy_write s (snd (UpdatePolicy e actor id revision limit usd enabled s)) actor).
Proof. split; intros; [apply CreatePolicy_write | apply UpdatePolicy_write]. Qed.
