(* ===== verification/PathMatch.v ===== *)
(** Go's [path.Match], the pattern language of model grants: [*] matches any
    run of bytes other than [/], [?] one rune other than [/], [[...]] a class,
    and a backslash quotes the next byte. *)
From S2P Require Import Prelude GoStd Json Policy.

Definition slash : ascii := "/"%char.
Definition star : ascii := "*"%char.

(** What a call of [Match] can return; [MatchFuel] is never returned, see
    [Match_terminates]. *)
Inductive match_result := Matched (b : bool) | BadPattern | MatchFuel.

Definition has_byte (c : ascii) (s : string) : bool := negb (str_forall (fun d => negb (Ascii.eqb d c)) s).

(** [scanChunk] after the leading stars: the chunk up to the next star outside
    a class, and the rest. [skip] is set behind a backslash. *)
Fixpoint scan_chunk (inrange skip : bool) (p : string) : string * string :=
  match p with
  | EmptyString => ("", "")
  | String c p' =>
    let continue inrange skip := let (chunk, rest) := scan_chunk inrange skip p' in (String c chunk, rest) in
    if skip then continue inrange false
    else if Ascii.eqb c backslash then continue inrange true
    else if Ascii.eqb c "["%char then continue true false
    else if Ascii.eqb c "]"%char then continue false false
    else if Ascii.eqb c star && negb inrange then ("", p)
    else continue inrange false
  end.

Fixpoint drop_stars (p : string) : bool * string :=
  match p with
  | String c p' => if Ascii.eqb c star then (true, snd (drop_stars p')) else (false, p)
  | EmptyString => (false, p)
  end.

Definition scanChunk (pattern : string) : bool * string * string :=
  let (star, p) := drop_stars pattern in
  let (chunk, rest) := scan_chunk false false p in (star, chunk, rest).

(** [getEsc]: one possibly escaped rune of a class; [None] is [ErrBadPattern]. *)
Definition getEsc (chunk : string) : option (Z * string) :=
  match chunk with
  | EmptyString => None
  | String c chunk' =>
    if Ascii.eqb c "-"%char || Ascii.eqb c "]"%char then None
    else
      let chunk := if Ascii.eqb c backslash then chunk' else chunk in
      if chunk =s "" then None
      else
        let (r, n) := DecodeRuneInString chunk in
        if (r =? RuneError) && (Nat.eqb n 1) then None
        else
          let nchunk := drop_bytes n chunk in
          if nchunk =s "" then None else Some (r, nchunk)
  end.

(** [len(s) > 0 && s[0] == c]: what follows the byte. *)
Definition after_byte (c : ascii) (s : string) : option string :=
  match s with String d s' => if Ascii.eqb d c then Some s' else None | EmptyString => None end.

(** One range of a class: its bounds and what follows. *)
Definition class_range (chunk : string) : option (Z * Z * string) :=
  match getEsc chunk with
  | None => None
  | Some (lo, chunk) =>
    match after_byte "-"%char chunk with
    | Some chunk => match getEsc chunk with Some (hi, chunk) => Some (lo, hi, chunk) | None => None end
    | None => Some (lo, lo, chunk)
    end
  end.

(** The ranges of a class: whether one contains [r], and what follows [']']. *)
Fixpoint class_ranges (fuel : nat) (nrange : nat) (matched : bool) (r : Z) (chunk : string) :
    option (bool * string) :=
  match fuel with
  | O => None
  | S fuel =>
    match after_byte "]"%char chunk with
    | Some rest => if Nat.ltb 0 nrange then Some (matched, rest) else None
    | None =>
      match class_range chunk with
      | None => None
      | Some (lo, hi, chunk) => class_ranges fuel (S nrange) (matched || (lo <=? r) && (r <=? hi)) r chunk
      end
    end
  end.

(** [matchChunk]: [Some (Some rest)] when the chunk matches a prefix of [s],
    [Some None] when it does not, [None] for a bad pattern. Every round of the
    loop consumes the chunk, whose length is the fuel. *)
Fixpoint match_chunk (fuel : nat) (failed : bool) (chunk s : string) : option (option string) :=
  match fuel with
  | O => None
  | S fuel =>
    match chunk with
    | EmptyString => Some (if failed then None else Some s)
    | String c chunk' =>
      let failed := failed || (s =s "") in
      if Ascii.eqb c "["%char then
        let '(r, s) := if failed then (0, s) else let (r, n) := DecodeRuneInString s in (r, drop_bytes n s) in
        let '(negated, chunk'') := match after_byte "^"%char chunk' with
                                   | Some rest => (true, rest)
                                   | None => (false, chunk')
                                   end in
        match class_ranges (S (String.length chunk'')) 0 false r chunk'' with
        | None => None
        | Some (matched, rest) => match_chunk fuel (failed || Bool.eqb matched negated) rest s
        end
      else if Ascii.eqb c "?"%char then
        let failed' := failed || match s with String d _ => Ascii.eqb d slash | EmptyString => false end in
        match_chunk fuel failed' chunk' (if failed then s else drop_bytes (snd (DecodeRuneInString s)) s)
      else
        let quoted := if Ascii.eqb c backslash
                      then match chunk' with String d rest => Some (d, rest) | EmptyString => None end
                      else Some (c, chunk') in
        match quoted with
        | None => None
        | Some (d, rest) =>
          let failed' := failed || match s with String e _ => negb (Ascii.eqb d e) | EmptyString => false end in
          match_chunk fuel failed' rest (if failed then s else drop_bytes 1 s)
        end
    end
  end.

Definition matchChunk (chunk s : string) : option (option string) :=
  match_chunk (S (String.length chunk)) false chunk s.

(** The check that the rest of a failed pattern is well formed. *)
Fixpoint check_rest (fuel : nat) (pattern : string) : match_result :=
  match fuel with
  | O => MatchFuel
  | S fuel =>
    if pattern =s "" then Matched false
    else let '(_, chunk, rest) := scanChunk pattern in
         match matchChunk chunk "" with
         | None => BadPattern
         | Some _ => check_rest fuel rest
         end
  end.

(** The search behind a star: the first suffix of [name] after skipping at
    least one byte, none of them a slash, at which the chunk matches;
    [None] for a bad pattern. *)
Fixpoint star_search (chunk : string) (last : bool) (name : string) : option (option string) :=
  match name with
  | EmptyString => Some None
  | String c name' =>
    if Ascii.eqb c slash then Some None
    else match matchChunk chunk name' with
         | None => None
         | Some (Some t) => if last && negb (t =s "") then star_search chunk last name' else Some (Some t)
         | Some None => star_search chunk last name'
         end
  end.

Fixpoint match_fuel (fuel : nat) (pattern name : string) : match_result :=
  match fuel with
  | O => MatchFuel
  | S fuel =>
    if pattern =s "" then Matched (name =s "")
    else
      let '(star, chunk, rest) := scanChunk pattern in
      if star && (chunk =s "") then Matched (negb (has_byte slash name))
      else
        let last := rest =s "" in
        match matchChunk chunk name with
        | None => BadPattern
        | Some (Some t) =>
          if (t =s "") || negb last then match_fuel fuel rest t
          else if star then
            match star_search chunk last name with
            | None => BadPattern
            | Some (Some t) => match_fuel fuel rest t
            | Some None => check_rest (S (String.length rest)) rest
            end
          else check_rest (S (String.length rest)) rest
        | Some None =>
          if star then
            match star_search chunk last name with
            | None => BadPattern
            | Some (Some t) => match_fuel fuel rest t
            | Some None => check_rest (S (String.length rest)) rest
            end
          else check_rest (S (String.length rest)) rest
        end
  end.

Definition Match (pattern name : string) : match_result :=
  match_fuel (S (String.length pattern)) pattern name.

(** [matched, err := path.Match(..); err == nil && matched]. *)
Definition matches (pattern name : string) : bool :=
  match Match pattern name with Matched b => b | _ => false end.

(** * Plain patterns *)

(** A byte that stands for itself in a pattern. *)
Definition plain_byte (c : ascii) : bool :=
  negb (Ascii.eqb c star) && negb (Ascii.eqb c "?"%char) && negb (Ascii.eqb c "["%char) && negb (Ascii.eqb c backslash).
Definition plain (s : string) : bool := str_forall plain_byte s.

Ltac plain_inv H :=
  unfold plain_byte in H; rewrite !andb_true_iff, !negb_true_iff in H; destruct H as [[[? ?] ?] ?].

Lemma scan_chunk_plain (p : string) : plain p = true -> scan_chunk false false p = (p, "").
Proof.
  induction p as [|c p IH]; cbn; [done|]. intros [Hc Hp]%andb_true_iff. rewrite IH by done.
  plain_inv Hc. rewrite H, H1, H2. cbn. by destruct (Ascii.eqb c "]"%char).
Qed.

Lemma scan_chunk_star (p : string) :
  plain p = true -> scan_chunk false false (p +:+ String star "") = (p, String star "").
Proof.
  induction p as [|c p IH]; [done|]. intros [Hc Hp]%andb_true_iff. autorewrite with gw. cbn [scan_chunk].
  rewrite IH by done. plain_inv Hc. rewrite H, H1, H2. cbn. by destruct (Ascii.eqb c "]"%char).
Qed.

Lemma drop_stars_plain (c : ascii) (p : string) : plain_byte c = true -> drop_stars (String c p) = (false, String c p).
Proof. intros Hc. plain_inv Hc. cbn. by rewrite H. Qed.

Lemma scanChunk_plain (p : string) : plain p = true -> scanChunk p = (false, p, "").
Proof.
  destruct p as [|c p]; [done|]. intros Hp. pose proof Hp as [Hc _]%andb_true_iff. unfold scanChunk.
  rewrite drop_stars_plain by done. by rewrite scan_chunk_plain.
Qed.

Lemma scanChunk_prefix (p : string) :
  plain p = true -> p <> "" -> scanChunk (p +:+ String star "") = (false, p, String star "").
Proof.
  destruct p as [|c p]; [done|]. intros Hp _. pose proof Hp as [Hc _]%andb_true_iff. unfold scanChunk.
  autorewrite with gw. rewrite drop_stars_plain by done. rewrite <- str_app_cons. by rewrite scan_chunk_star.
Qed.

Lemma match_chunk_failed (p s : string) (fuel : nat) :
  plain p = true -> (String.length p < fuel)%nat -> match_chunk fuel true p s = Some None.
Proof.
  revert fuel. induction p as [|c p IH]; intros fuel Hp Hf; destruct fuel as [|fuel]; [lia|done|lia|].
  cbn in Hp. apply andb_true_iff in Hp as [Hc Hp]. cbn in Hf. plain_inv Hc. cbn.
  rewrite H1, H0, H2. cbn. apply IH; [done|lia].
Qed.

(** A plain chunk matches exactly the names it is a prefix of. *)
Lemma match_chunk_plain (p s : string) (fuel : nat) :
  plain p = true -> (String.length p < fuel)%nat ->
  match_chunk fuel false p s = Some (if HasPrefix s p then Some (drop_bytes (String.length p) s) else None).
Proof.
  revert s fuel. induction p as [|c p IH]; intros s fuel Hp Hf; destruct fuel as [|fuel]; [lia|by destruct s|lia|].
  cbn in Hp. apply andb_true_iff in Hp as [Hc Hp]. cbn in Hf. plain_inv Hc. cbn [match_chunk].
  rewrite H1, H0, H2. destruct s as [|d s]; cbn.
  - by rewrite match_chunk_failed by (done || lia).
  - rewrite (Ascii.eqb_sym d c). destruct (Ascii.eqb c d); cbn.
    + apply IH; [done|lia].
    + by rewrite match_chunk_failed by (done || lia).
Qed.

Lemma matchChunk_plain (p s : string) :
  plain p = true -> matchChunk p s = Some (if HasPrefix s p then Some (drop_bytes (String.length p) s) else None).
Proof. intros. apply match_chunk_plain; [done|lia]. Qed.

Lemma HasPrefix_drop (p s : string) : HasPrefix s p = true <-> s = (p +:+ drop_bytes (String.length p) s)%string.
Proof.
  revert s. induction p as [|c p IH]; intros s; [by destruct s|].
  destruct s as [|d s]; cbn; [done|]. autorewrite with gw. rewrite andb_true_iff, Ascii.eqb_eq, IH.
  split; [intros [-> H]; by f_equal | intros [= -> H]; done].
Qed.

Lemma drop_prefix (p s : string) : drop_bytes (String.length p) (p +:+ s) = s.
Proof. induction p as [|c p IH]; [done|]. autorewrite with gw. apply IH. Qed.

Lemma HasPrefix_self (p s : string) : HasPrefix (p +:+ s) p = true.
Proof. apply HasPrefix_drop. by rewrite drop_prefix. Qed.

(** One round of [Match] on a plain chunk without leading star. *)
Lemma match_fuel_plain (fuel : nat) (pattern p rest name : string) :
  pattern <> "" -> scanChunk pattern = (false, p, rest) -> plain p = true ->
  match_fuel (S fuel) pattern name =
  if HasPrefix name p && ((drop_bytes (String.length p) name =s "") || negb (rest =s ""))
  then match_fuel fuel rest (drop_bytes (String.length p) name)
  else check_rest (S (String.length rest)) rest.
Proof.
  intros Hne Hscan Hp. cbn [match_fuel]. apply String.eqb_neq in Hne. rewrite Hne, Hscan. cbn [andb].
  rewrite matchChunk_plain by done. destruct (HasPrefix name p); [|done]. cbn [andb].
  by destruct (_ || _).
Qed.

(** A plain pattern matches itself only. *)
Lemma Match_plain (p name : string) : plain p = true -> matches p name = (name =s p).
Proof.
  intros Hp. unfold matches, Match. destruct (decide (p = "")) as [->|Hne]; [done|].
  rewrite (match_fuel_plain _ p p "") by (done || by apply scanChunk_plain).
  destruct (HasPrefix name p) eqn:E; cbn [andb].
  - apply HasPrefix_drop in E. destruct (drop_bytes (String.length p) name) as [|d t] eqn:Ed.
    + rewrite E, str_app_nil_r, !String.eqb_refl. by destruct p.
    + cbn. symmetry. apply String.eqb_neq. rewrite E. intros Hx. apply (f_equal String.length) in Hx.
      rewrite str_length_app in Hx. cbn in Hx. lia.
  - cbn. symmetry. apply String.eqb_neq. intros ->.
    pose proof (HasPrefix_self p "") as H. rewrite str_app_nil_r in H. congruence.
Qed.

(** A plain prefix and a star match the names that continue the prefix
    without a slash. *)
Lemma Match_prefix (p name : string) :
  plain p = true ->
  matches (p +:+ String star "") name =
  HasPrefix name p && negb (has_byte slash (drop_bytes (String.length p) name)).
Proof.
  intros Hp. unfold matches, Match. rewrite str_length_app. cbn [String.length].
  destruct (decide (p = "")) as [->|Hne]; [by destruct name|].
  rewrite (match_fuel_plain _ _ p (String star "")); [|by destruct p|by apply scanChunk_prefix|done].
  rewrite orb_true_r, andb_true_r. destruct (HasPrefix name p); [|done].
  rewrite Nat.add_comm. cbn [Nat.add match_fuel]. done.
Qed.

(** * Termination: the fuel is enough *)

Lemma drop_bytes_length (n : nat) (s : string) : String.length (drop_bytes n s) = (String.length s - n)%nat.
Proof. revert s. induction n as [|n IH]; intros s; [destruct s; cbn; lia|]. destruct s; cbn; [lia|]. apply IH. Qed.

Lemma DecodeRune_width (c : ascii) (s : string) : (1 <= snd (DecodeRuneInString (String c s)))%nat.
Proof. unfold DecodeRuneInString. repeat case_match; cbn; lia. Qed.

Lemma getEsc_length (chunk nchunk : string) (r : Z) :
  getEsc chunk = Some (r, nchunk) -> (String.length nchunk < String.length chunk)%nat.
Proof.
  unfold getEsc. destruct chunk as [|c chunk']; [done|].
  destruct (Ascii.eqb c "-"%char || Ascii.eqb c "]"%char); [done|].
  set (chunk := if Ascii.eqb c backslash then chunk' else String c chunk').
  assert (String.length chunk <= S (String.length chunk'))%nat as Hl by (subst chunk; destruct (Ascii.eqb c backslash); cbn; lia).
  destruct chunk as [|d rest] eqn:Ec; [done|]. cbn -[DecodeRuneInString drop_bytes String.eqb].
  pose proof (DecodeRune_width d rest) as Hw.
  destruct (DecodeRuneInString (String d rest)) as [x n]. cbn [snd] in Hw.
  destruct ((x =? RuneError) && (n =? 1)%nat); [done|].
  destruct (drop_bytes n (String d rest) =s "") eqn:En; [done|]. intros [= <- <-].
  rewrite drop_bytes_length. cbn in *. lia.
Qed.

Lemma after_byte_length c s s' : after_byte c s = Some s' -> String.length s = S (String.length s').
Proof. destruct s as [|d s]; cbn; [done|]. destruct (Ascii.eqb d c); [|done]. by intros [= ->]. Qed.

Lemma class_range_length chunk lo hi rest :
  class_range chunk = Some (lo, hi, rest) -> (String.length rest < String.length chunk)%nat.
Proof.
  unfold class_range. destruct (getEsc chunk) as [[l c1]|] eqn:E1; [|done]. apply getEsc_length in E1.
  destruct (after_byte "-"%char c1) as [c2|] eqn:E2.
  - apply after_byte_length in E2. destruct (getEsc c2) as [[h c3]|] eqn:E3; [|done].
    apply getEsc_length in E3. intros [= <- <- <-]. lia.
  - intros [= <- <- <-]. lia.
Qed.

Lemma class_ranges_length fuel n b r chunk b' rest :
  class_ranges fuel n b r chunk = Some (b', rest) -> (String.length rest <= String.length chunk)%nat.
Proof.
  revert n b chunk. induction fuel as [|fuel IH]; intros n b chunk; [done|]. cbn [class_ranges].
  destruct (after_byte "]"%char chunk) as [c1|] eqn:E1.
  - apply after_byte_length in E1. destruct (Nat.ltb 0 n); [|done]. intros [= <- <-]. lia.
  - destruct (class_range chunk) as [[[lo hi] c2]|] eqn:E2; [|done]. apply class_range_length in E2.
    intros H%IH. lia.
Qed.

Lemma class_ranges_fuel f f' n b r chunk :
  (String.length chunk < f)%nat -> (String.length chunk < f')%nat ->
  class_ranges f n b r chunk = class_ranges f' n b r chunk.
Proof.
  revert f' n b chunk. induction f as [|f IH]; intros [|f'] n b chunk; [lia..|]. intros Hf Hf'. cbn [class_ranges].
  destruct (after_byte "]"%char chunk); [done|].
  destruct (class_range chunk) as [[[lo hi] c2]|] eqn:E2; [|done]. apply class_range_length in E2. apply IH; lia.
Qed.

Lemma match_chunk_fuel f f' failed chunk s :
  (String.length chunk < f)%nat -> (String.length chunk < f')%nat ->
  match_chunk f failed chunk s = match_chunk f' failed chunk s.
Proof.
  revert f' failed chunk s. induction f as [|f IH]; intros [|f'] failed chunk s; [lia..|]. intros Hf Hf'.
  destruct chunk as [|c chunk']; [done|]. cbn in Hf, Hf'. cbn [match_chunk].
  destruct (Ascii.eqb c "["%char).
  - destruct (if failed || (s =s "") then _ else _) as [r s'].
    destruct (match after_byte "^"%char chunk' with Some rest => _ | None => _ end) as [negated chunk''] eqn:E.
    assert (String.length chunk'' <= String.length chunk')%nat.
    { destruct (after_byte "^"%char chunk') eqn:Ea; [apply after_byte_length in Ea|]; simplify_eq; lia. }
    destruct (class_ranges _ _ _ _ _) as [[m rest]|] eqn:Ec; [|done]. apply class_ranges_length in Ec. apply IH; lia.
  - destruct (Ascii.eqb c "?"%char); [apply IH; lia|].
    destruct (if Ascii.eqb c backslash then _ else _) as [[d rest]|] eqn:E; [|done].
    apply IH; destruct (Ascii.eqb c backslash), chunk'; cbn in *; simplify_eq; cbn in *; lia.
Qed.

Lemma scan_chunk_length inrange skip p chunk rest :
  scan_chunk inrange skip p = (chunk, rest) -> String.length p = (String.length chunk + String.length rest)%nat.
Proof.
  revert inrange skip chunk rest. induction p as [|c p IH]; intros inrange skip chunk rest; cbn [scan_chunk].
  - by intros [= <- <-].
  - assert (forall i k, (let (chunk, rest) := scan_chunk i k p in (String c chunk, rest)) = (chunk, rest) ->
      String.length (String c p) = (String.length chunk + String.length rest)%nat) as Hc.
    { intros i k. destruct (scan_chunk i k p) as [x y] eqn:E. intros [= <- <-]. apply IH in E. cbn. lia. }
    destruct skip; [apply Hc|]. destruct (Ascii.eqb c backslash); [apply Hc|].
    destruct (Ascii.eqb c "["%char); [apply Hc|]. destruct (Ascii.eqb c "]"%char); [apply Hc|].
    destruct (Ascii.eqb c star && negb inrange); [|apply Hc]. by intros [= <- <-].
Qed.

Lemma scan_chunk_nonempty c p chunk rest :
  Ascii.eqb c star = false -> scan_chunk false false (String c p) = (chunk, rest) -> chunk <> "".
Proof.
  intros Hc. cbn [scan_chunk]. rewrite Hc. cbn.
  destruct (Ascii.eqb c backslash), (Ascii.eqb c "["%char), (Ascii.eqb c "]"%char);
    match goal with |- context [scan_chunk ?i ?k p] => destruct (scan_chunk i k p) end; by intros [= <- <-].
Qed.

Lemma drop_stars_length p b q :
  drop_stars p = (b, q) ->
  (String.length q + (if b then 1 else 0) <= String.length p)%nat /\ match q with String c _ => Ascii.eqb c star = false | _ => True end.
Proof.
  revert b q. induction p as [|c p IH]; intros b q; cbn [drop_stars]; [by intros [= <- <-]|].
  destruct (Ascii.eqb c star) eqn:E.
  - destruct (drop_stars p) as [b' q'] eqn:Ed. destruct (IH _ _ eq_refl) as [H1 H2]. intros [= <- <-].
    split; [|done]. cbn. destruct b'; lia.
  - intros [= <- <-]. cbn. split; [lia|done].
Qed.

(** Every round of [Match] shortens the pattern. *)
Lemma scanChunk_length p b chunk rest :
  p <> "" -> scanChunk p = (b, chunk, rest) -> (String.length rest < String.length p)%nat.
Proof.
  unfold scanChunk. intros Hne. destruct (drop_stars p) as [b' q] eqn:Ed. apply drop_stars_length in Ed as [Hl Hq].
  destruct (scan_chunk false false q) as [x y] eqn:Es. intros [= <- <- <-]. pose proof (scan_chunk_length _ _ _ _ _ Es) as Hs.
  destruct b'; [lia|]. destruct q as [|c q].
  - cbn in Hs. destruct p; [done|]. cbn. lia.
  - apply scan_chunk_nonempty in Es; [|done]. destruct x; [done|]. cbn in Hs |- *. cbn in Hl. lia.
Qed.

Lemma check_rest_fuel fuel pattern : (String.length pattern < fuel)%nat -> check_rest fuel pattern <> MatchFuel.
Proof.
  revert pattern. induction fuel as [|fuel IH]; intros pattern Hf; [lia|]. cbn [check_rest].
  destruct (String.eqb_spec pattern ""); [done|]. destruct (scanChunk pattern) as [[b chunk] rest] eqn:E.
  apply scanChunk_length in E; [|done]. destruct (matchChunk chunk ""); [|done]. apply IH. lia.
Qed.

Lemma match_fuel_enough fuel pattern name :
  (String.length pattern < fuel)%nat -> match_fuel fuel pattern name <> MatchFuel.
Proof.
  revert pattern name. induction fuel as [|fuel IH]; intros pattern name Hf; [lia|]. cbn [match_fuel].
  destruct (String.eqb_spec pattern ""); [done|]. destruct (scanChunk pattern) as [[b chunk] rest] eqn:E.
  apply scanChunk_length in E; [|done]. destruct (b && (chunk =s "")); [done|].
  assert (check_rest (S (String.length rest)) rest <> MatchFuel) as Hc by (apply check_rest_fuel; lia).
  assert (forall t, match_fuel fuel rest t <> MatchFuel) as Hm by (intros; apply IH; lia).
  repeat case_match; done.
Qed.

(** [path.Match] terminates on every pattern and name: the fuel of the
    model, the length of the pattern, is never exhausted, and giving any of
    its loops more changes nothing. *)
Theorem Match_terminates (pattern name : string) :
  Match pattern name <> MatchFuel /\
  (forall chunk s f, (String.length chunk < f)%nat -> match_chunk f false chunk s = matchChunk chunk s) /\
  (forall chunk r n b f, (String.length chunk < f)%nat ->
     class_ranges f n b r chunk = class_ranges (S (String.length chunk)) n b r chunk).
Proof.
  split; [apply match_fuel_enough; lia|]. split.
  - intros. apply match_chunk_fuel; lia.
  - intros. apply class_ranges_fuel; lia.
Qed.
