(* ===== verification/Grants.v ===== *)
(** Grant arithmetic ([internal/features/keys/service.go] and
    [internal/features/users/service.go], which carry copies of the same
    functions): sets of scopes and connections, sets of model patterns, and
    the intersection that clamps a key to its owner's grants. *)
From S2P Require Import Prelude GoStd Json Policy PathMatch.

(** * The operations *)

Fixpoint unique_from (seen : list string) (values : list string) : list string :=
  match values with
  | [] => []
  | v :: values => if contains seen v then unique_from seen values else v :: unique_from (v :: seen) values
  end.
Definition unique (values : list string) : list string := unique_from [] values.

(** [keys.intersection]; the result is without duplicates. *)
Definition intersection (values ceiling : list string) : list string :=
  List.filter (contains ceiling) (unique values).

Definition subset (values ceiling : list string) : bool :=
  Nat.eqb (length (intersection values ceiling)) (length (unique values)).

(** [users.subset] and [users.intersection], which keeps duplicates. *)
Definition users_subset (values ceiling : list string) : bool := forallb (contains ceiling) values.
Definition users_intersection (values ceiling : list string) : list string :=
  List.filter (fun v => users_subset [v] ceiling) values.

Fixpoint Count (c : ascii) (s : string) : nat :=
  match s with
  | EmptyString => 0
  | String d s => (if Ascii.eqb d c then 1 else 0) + Count c s
  end.

Definition ContainsAny (s chars : string) : bool := existsb (fun c => has_byte c s) (String.list_ascii_of_string chars).

Fixpoint HasSuffixByte (c : ascii) (s : string) : bool :=
  match s with
  | EmptyString => false
  | String d EmptyString => Ascii.eqb d c
  | String _ s => HasSuffixByte c s
  end.

(** [strings.TrimSuffix(s, "*")]. *)
Fixpoint TrimSuffixByte (c : ascii) (s : string) : string :=
  match s with
  | EmptyString => ""
  | String d EmptyString => if Ascii.eqb d c then "" else s
  | String d s => String d (TrimSuffixByte c s)
  end.

Definition simplePrefixPattern (pattern : string) : option string :=
  if negb (Nat.eqb (Count star pattern) 1) || negb (HasSuffixByte star pattern)
     || ContainsAny (TrimSuffixByte star pattern) "?["
  then None else Some (TrimSuffixByte star pattern).

(** One pattern of the key under one pattern of the ceiling. *)
Definition pattern_allowed (value allowed : string) : bool :=
  (value =s allowed)
  || negb (ContainsAny value "*?[") && matches allowed value
  || match simplePrefixPattern allowed, simplePrefixPattern value with
     | Some allowedPrefix, Some valuePrefix =>
         HasPrefix valuePrefix allowedPrefix && Nat.eqb (Count slash valuePrefix) (Count slash allowedPrefix)
         && negb (ContainsAny (valuePrefix +:+ allowedPrefix) (String backslash ""))
     | _, _ => false
     end.

Definition modelIntersection (values ceiling : list string) : list string :=
  List.filter (fun value => existsb (pattern_allowed value) ceiling) (unique values).

Definition modelSubset (values ceiling : list string) : bool :=
  Nat.eqb (length (modelIntersection values ceiling)) (length (unique values)).

(** [modelAllowed] of usage, and the loop of [Principal.Allows]. *)
Definition modelAllowed (patterns : list string) (model : string) : bool :=
  existsb (fun pattern => matches pattern model) patterns.

(** The checks on a grant list shared by both services. *)
Definition valid_grant (value : string) : bool :=
  negb (TrimSpace value =s "") && (str_len value <=? 200).

(** * Lemmas *)

Lemma unique_from_In (l seen : list string) (x : string) :
  In x (unique_from seen l) <-> In x l /\ ~ In x seen.
Proof.
  revert seen. induction l as [|v l IH]; intros seen; cbn; [tauto|].
  destruct (contains seen v) eqn:E.
  - apply contains_In in E. rewrite IH. naive_solver.
  - assert (~ In v seen) as Hv by (by rewrite <- contains_In, E). cbn. rewrite IH. cbn.
    destruct (decide (v = x)) as [->|]; naive_solver.
Qed.

Lemma unique_In (l : list string) (x : string) : In x (unique l) <-> In x l.
Proof. unfold unique. rewrite unique_from_In. cbn. tauto. Qed.

Lemma intersection_In (values ceiling : list string) (x : string) :
  In x (intersection values ceiling) <-> In x values /\ In x ceiling.
Proof. unfold intersection. by rewrite filter_In, unique_In, contains_In. Qed.

Lemma filter_length_le {A} (f : A -> bool) (l : list A) : (length (List.filter f l) <= length l)%nat.
Proof. induction l as [|a l IH]; cbn; [done|]. destruct (f a); cbn; lia. Qed.

Lemma filter_length_all {A} (f : A -> bool) (l : list A) :
  length (List.filter f l) = length l <-> forall x, In x l -> f x = true.
Proof.
  induction l as [|a l IH]; cbn; [naive_solver|]. pose proof (filter_length_le f l).
  destruct (f a) eqn:E; cbn.
  - rewrite Nat.succ_inj_wd, IH. naive_solver.
  - split; [lia|]. intros Hf. specialize (Hf a (or_introl eq_refl)). congruence.
Qed.

Lemma subset_spec (values ceiling : list string) :
  subset values ceiling = true <-> forall x, In x values -> In x ceiling.
Proof.
  unfold subset, intersection. rewrite Nat.eqb_eq, filter_length_all. setoid_rewrite unique_In.
  by setoid_rewrite contains_In.
Qed.

Lemma users_subset_spec (values ceiling : list string) :
  users_subset values ceiling = true <-> forall x, In x values -> In x ceiling.
Proof. unfold users_subset. rewrite forallb_forall. by setoid_rewrite contains_In. Qed.

Lemma modelIntersection_In (values ceiling : list string) (x : string) :
  In x (modelIntersection values ceiling) <->
  In x values /\ exists allowed, In allowed ceiling /\ pattern_allowed x allowed = true.
Proof. unfold modelIntersection. rewrite filter_In, unique_In, existsb_exists. naive_solver. Qed.

Lemma modelSubset_spec (values ceiling : list string) :
  modelSubset values ceiling = true <->
  forall x, In x values -> exists allowed, In allowed ceiling /\ pattern_allowed x allowed = true.
Proof.
  unfold modelSubset, modelIntersection. rewrite Nat.eqb_eq, filter_length_all. setoid_rewrite unique_In.
  by setoid_rewrite existsb_exists.
Qed.

(** ** Prefix patterns *)

Lemma has_byte_app (c : ascii) (s t : string) : has_byte c (s +:+ t) = has_byte c s || has_byte c t.
Proof. unfold has_byte. rewrite str_forall_app. by destruct (str_forall _ s), (str_forall _ t). Qed.

Lemma has_byte_cons (c d : ascii) (s : string) : has_byte c (String d s) = Ascii.eqb d c || has_byte c s.
Proof. unfold has_byte. cbn. by destruct (Ascii.eqb d c), (str_forall _ s). Qed.

Lemma Count_app (c : ascii) (s t : string) : Count c (s +:+ t) = (Count c s + Count c t)%nat.
Proof. induction s as [|d s IH]; [done|]. autorewrite with gw. cbn. rewrite IH. lia. Qed.

Lemma Count_zero (c : ascii) (s : string) : Count c s = 0%nat <-> has_byte c s = false.
Proof.
  induction s as [|d s IH]; [done|]. rewrite has_byte_cons, orb_false_iff, <- IH. cbn.
  destruct (Ascii.eqb d c); intuition lia.
Qed.

Lemma ContainsAny_false (s chars : string) :
  ContainsAny s chars = false <-> forall c, In c (String.list_ascii_of_string chars) -> has_byte c s = false.
Proof.
  unfold ContainsAny. split.
  - intros H c Hc. destruct (has_byte c s) eqn:E; [|done]. rewrite <- H. symmetry. apply existsb_exists. eauto.
  - intros H. destruct (existsb _ _) eqn:E; [|done]. apply existsb_exists in E as (c & Hc & E). rewrite H in E; done.
Qed.

Lemma plain_has_byte (s : string) :
  plain s = true <-> has_byte star s = false /\ has_byte "?"%char s = false /\ has_byte "["%char s = false /\
                     has_byte backslash s = false.
Proof.
  induction s as [|c s IH]; [done|]. rewrite !has_byte_cons, !orb_false_iff. unfold plain in *. cbn [str_forall].
  rewrite andb_true_iff, IH. unfold plain_byte. rewrite !andb_true_iff, !negb_true_iff. tauto.
Qed.

Lemma suffix_star (s : string) :
  HasSuffixByte star s = true -> s = (TrimSuffixByte star s +:+ String star "")%string.
Proof.
  induction s as [|c s IH]; [done|]. destruct s as [|d s].
  - cbn. rewrite Ascii.eqb_eq. by intros ->.
  - intros H. change (HasSuffixByte star (String d s) = true) in H. apply IH in H.
    change (TrimSuffixByte star (String c (String d s))) with (String c (TrimSuffixByte star (String d s))).
    autorewrite with gw. by rewrite <- H.
Qed.

(** A simple prefix pattern is a prefix without metacharacters and a star. *)
Lemma simplePrefixPattern_Some (pattern prefix : string) :
  simplePrefixPattern pattern = Some prefix ->
  pattern = (prefix +:+ String star "")%string /\ has_byte star prefix = false /\ has_byte "?"%char prefix = false /\
  has_byte "["%char prefix = false.
Proof.
  unfold simplePrefixPattern. destruct (_ || _) eqn:E; [done|]. intros [= <-].
  apply orb_false_iff in E as [E E3]. apply orb_false_iff in E as [E1 E2].
  apply negb_false_iff, Nat.eqb_eq in E1. apply negb_false_iff, suffix_star in E2.
  pose proof E1 as Hc. rewrite E2, Count_app in Hc. cbn in Hc.
  pose proof (proj1 (ContainsAny_false _ _) E3) as H. split_and!; [done| |apply H; cbn; tauto..].
  apply Count_zero. lia.
Qed.

(** What a pattern of the intersection matches, its ceiling matches too. *)
Lemma pattern_allowed_sound (value allowed model : string) :
  has_byte backslash value = false -> pattern_allowed value allowed = true ->
  matches value model = true -> matches allowed model = true.
Proof.
  intros Hb Ha Hm. unfold pattern_allowed in Ha. apply orb_true_iff in Ha as [Ha|Ha].
  apply orb_true_iff in Ha as [Ha|Ha].
  - apply String.eqb_eq in Ha. by subst.
  - apply andb_true_iff in Ha as [Hp Ha]. apply negb_true_iff in Hp.
    pose proof (proj1 (ContainsAny_false _ _) Hp) as H.
    rewrite Match_plain in Hm by (apply plain_has_byte; split_and!; try done; apply H; cbn; tauto).
    apply String.eqb_eq in Hm. by subst.
  - destruct (simplePrefixPattern allowed) as [ap|] eqn:Ea; [|done].
    destruct (simplePrefixPattern value) as [vp|] eqn:Ev; [|done].
    apply simplePrefixPattern_Some in Ea as (-> & Ha1 & Ha2 & Ha3).
    apply simplePrefixPattern_Some in Ev as (-> & Hv1 & Hv2 & Hv3).
    apply andb_true_iff in Ha as [Ha Hbs]. apply andb_true_iff in Ha as [Hpre Hcnt].
    apply negb_true_iff in Hbs. pose proof (proj1 (ContainsAny_false _ _) Hbs backslash (or_introl eq_refl)) as Hbs'.
    rewrite has_byte_app, orb_false_iff in Hbs'. destruct Hbs' as [Hvb Hab].
    rewrite Match_prefix in Hm by (by apply plain_has_byte). rewrite Match_prefix by (by apply plain_has_byte).
    apply andb_true_iff in Hm as [Hm1 Hm2]. apply Nat.eqb_eq in Hcnt.
    apply HasPrefix_drop in Hpre. set (x := drop_bytes (String.length ap) vp) in *.
    apply HasPrefix_drop in Hm1. set (t := drop_bytes (String.length vp) model) in *.
    rewrite Hm1, Hpre, str_app_assoc, HasPrefix_self, drop_prefix. cbn [andb].
    rewrite has_byte_app, negb_orb, Hm2, andb_true_r. apply negb_true_iff, Count_zero.
    rewrite Hpre, Count_app in Hcnt. lia.
Qed.

Lemma modelIntersection_within (values ceiling : list string) (model : string) :
  Forall (fun v => has_byte backslash v = false) values ->
  modelAllowed (modelIntersection values ceiling) model = true ->
  modelAllowed ceiling model = true /\ modelAllowed values model = true.
Proof.
  intros Hb Hm. unfold modelAllowed in *. apply existsb_exists in Hm as (v & Hv & Hm).
  apply modelIntersection_In in Hv as (Hv & allowed & Ha & Hok).
  split; apply existsb_exists; [exists allowed | by exists v]. split; [done|].
  eapply pattern_allowed_sound; [|done..]. rewrite Forall_forall in Hb. by apply Hb, list_elem_of_In.
Qed.

(** A key never reaches a model its ceiling does not: whatever matches a
    pattern of [modelIntersection values ceiling] matches a pattern of the
    ceiling (and one of the values), as long as the values quote no bytes. *)
Theorem modelIntersection_sound (values ceiling : list string) (model : string) :
  Forall (fun v => has_byte backslash v = false) values ->
  modelAllowed (modelIntersection values ceiling) model = true ->
  modelAllowed ceiling model = true /\ modelAllowed values model = true.
Proof. apply modelIntersection_within. Qed.

Lemma modelIntersection_sound_witness :
  modelIntersection ["gpt-4*"; "claude-3"; "gemini-*"]%string ["gpt-*"; "claude-?"]%string = ["gpt-4*"; "claude-3"]%string /\
  modelAllowed ["gpt-*"; "claude-?"]%string "gpt-4o" = true.
Proof.
  split; [vm_compute; reflexivity|].
  apply (modelIntersection_sound ["gpt-4*"; "claude-3"; "gemini-*"]%string ["gpt-*"; "claude-?"]%string "gpt-4o").
  - repeat constructor.
  - vm_compute; reflexivity.
Defined.

(** With a quoting backslash the clamp is unsound: the value
    [team\secret] is kept under the ceiling [team?secret] because it contains
    no metacharacter the check looks for, yet as a pattern it matches the
    model [teamsecret], which the ceiling excludes. *)
Theorem modelIntersection_backslash_escapes :
  let value := ("team" +:+ String backslash "secret")%string in
  modelIntersection [value] ["team?secret"]%string = [value] /\
  modelSubset [value] ["team?secret"]%string = true /\
  modelAllowed [value] "teamsecret" = true /\ modelAllowed ["team?secret"]%string "teamsecret" = false.
Proof. by vm_compute. Qed.
