(* ===== verification/Admission.v ===== *)
(** Admission ([internal/features/usage/admission.go]): deciding whether an
    attempt may start, against the key and its owner, the catalogue, the
    price in force and every matching limit policy, and booking it: request,
    attempt, counters, reservations, concurrency leases and outbox event, in
    one transaction. *)
From S2P Require Import Prelude GoStd Money Calendar Counters Policy Json Store Pricing PathMatch Grants.

Definition maxPendingOutboxEvents : Z := 10000.
Definition maxPendingOutboxBytes : Z := Z.shiftl 64 20.
Definition outboxEventAllowance : Z := 1024.

Record AdmissionInput := mkAdmissionInput {
  ai_RequestID : string; ai_KeyID : string; ai_ConnectionID : string; ai_ModelID : string;
  ai_UpstreamModelRecordID : string; ai_UpstreamModelID : string;
  ai_ConnectionRevision : Z; ai_ModelRevision : Z;
  ai_Operation : string; ai_TargetOperation : string; ai_Scope : string;
  ai_Dialect : string; ai_TargetDialect : string; ai_TranslationApplied : bool;
  ai_RequestToolCount : Z; ai_WebSearchMaxCalls : Z; ai_WebFetchPresent : bool;
  ai_SelectionReason : string; ai_RejectedCandidatesJSON : string;
  ai_RequiredPriceVersionID : string; ai_PriceQuoteAt : Z; ai_QuotedPriceVersionID : option string;
  ai_RequireFreePrice : bool; ai_PriceUnavailable : bool; ai_SnapshotPriceOnly : bool;
  ai_BodyBytes : Z; ai_BatchItems : Z; ai_Streaming : bool;
  ai_EstimatedInputTokens : Z; ai_EstimatedOutputTokens : Z;
  ai_EnforceInputBound : bool; ai_InputBounded : bool; ai_EnforceOutputBound : bool; ai_OutputBounded : bool }.

Record AdmissionResult := mkAdmissionResult {
  ad_RequestID : string; ad_AttemptID : string; ad_Ordinal : Z; ad_AdmittedAt : Z }.

(** The counters one policy would have after the admission. *)
Record counterPlan := mkCounterPlan {
  cp_policy : runtimePolicy; cp_periodStart : Z; cp_periodEnd : option Z; cp_consumed : Z; cp_reserved : Z;
  cp_bucketRemaining : Z; cp_bucketRemainder : Z; cp_bucketRefillAt : Z; cp_units : Z; cp_reserve : bool;
  cp_lease : option (LeaseKind * string) }.

(** * Input defaults and checks *)

Definition default_text (value fallback : string) : string := if value =s "" then fallback else value.

(** The fields of the input that [Admit] fills in. *)
Definition target_operation (i : AdmissionInput) : string := default_text (ai_TargetOperation i) (ai_Operation i).
Definition target_dialect (i : AdmissionInput) : string := default_text (ai_TargetDialect i) (ai_Dialect i).
Definition rejected_json (i : AdmissionInput) : string :=
  if (ai_RejectedCandidatesJSON i =s "") || (ai_RejectedCandidatesJSON i =s "null") then "[]"
  else ai_RejectedCandidatesJSON i.
Definition price_unavailable (i : AdmissionInput) : bool :=
  ai_PriceUnavailable i || (0 <? ai_WebSearchMaxCalls i) && ai_WebFetchPresent i.

Definition invalid_admission (i : AdmissionInput) : bool :=
  (ai_KeyID i =s "") || (ai_ConnectionID i =s "") || (ai_ModelID i =s "") || (ai_Operation i =s "")
  || (target_operation i =s "") || (ai_Scope i =s "") || (ai_Dialect i =s "") || (target_dialect i =s "")
  || (200 <? str_len (ai_KeyID i)) || (200 <? str_len (ai_ConnectionID i)) || (200 <? str_len (ai_ModelID i))
  || (100 <? str_len (ai_Operation i)) || (300 <? str_len (target_operation i)) || (100 <? str_len (ai_Scope i))
  || (50 <? str_len (ai_Dialect i)) || (50 <? str_len (target_dialect i)) || (500 <? str_len (ai_SelectionReason i))
  || (16384 <? str_len (rejected_json i)) || (200 <? str_len (ai_RequiredPriceVersionID i))
  || match ai_QuotedPriceVersionID i with
     | Some id => (ai_PriceQuoteAt i <=? 0) || (200 <? str_len id)
     | None => false
     end
  || (ai_PriceQuoteAt i <? 0) || ai_RequireFreePrice i && (ai_RequiredPriceVersionID i =s "")
  || negb (json_valid (rejected_json i))
  || (ai_BodyBytes i <? 0) || (ai_BatchItems i <? 0) || (ai_RequestToolCount i <? 0)
  || (ai_WebSearchMaxCalls i <? 0) || (4 <? ai_WebSearchMaxCalls i)
  || (ai_EstimatedInputTokens i <? 0) || (ai_EstimatedOutputTokens i <? 0).

(** * Clock, outbox and policies *)

Definition effectiveTimeTxAtLeast (e : env) (reading : nat) (floor : Z) : tx db Z :=
  let wall := if now e reading <? floor then floor else now e reading in
  clock ← reads t_clock;
  let effective := match clock with Some c => Z.max (ck_LastEffective c) wall | None => wall end in
  _ ← modify (set_clock (Some (mkClockRow effective (epoch e))));
  mret effective.

Definition effectiveTimeTx (e : env) (reading : nat) : tx db Z := effectiveTimeTxAtLeast e reading 0.

(** [Service.effectiveTime] and [QuoteTime]. *)
Definition effectiveTime (e : env) : db -> result Z * db := commit (effectiveTimeTx e 0).
Definition QuoteTime (e : env) (s : db) : Z :=
  match t_clock s with Some c => max (now e 0) (ck_LastEffective c) | None => now e 0 end.

Definition live_state (st : AttemptState) : bool :=
  match st with AtReserved | AtDispatching | AtStreaming => true | _ => false end.

Definition live_attempts (s : db) : Z := Z.of_nat (length (select_rows (fun _ a => live_state (at_State a)) (t_attempts s))).

Definition pending (r : OutboxRow) : bool := match ob_Delivered r with None => true | Some _ => false end.
Definition pending_count (s : db) : Z := Z.of_nat (length (List.filter pending (t_outbox s))).
Definition pending_bytes (s : db) : Z :=
  foldr Z.add 0 (map (fun r => payload_length (ob_Payload r)) (List.filter pending (t_outbox s))).

Definition requireOutboxCapacity (additional : Z) : tx db unit :=
  s ← reads (fun s => s);
  let reserved := live_attempts s + additional in
  require (negb ((maxPendingOutboxEvents <? pending_count s + reserved)
                 || (maxPendingOutboxBytes <? pending_bytes s + reserved * outboxEventAllowance)))
    (Msg "usage event outbox is full").

Definition runtime_of (id : string) (p : PolicyRow) : runtimePolicy :=
  mkRuntimePolicy id (p_ScopeKind p) (p_Metric p) (p_Algorithm p) (p_Period p) (p_WindowSeconds p)
    (p_LimitUnits p) (p_RefillUnits p) (p_RefillIntervalMS p).

Definition by_id {A} (a b : string * A) : Prop := String.leb a.1 b.1 = true.
#[export] Instance by_id_dec {A} : RelDecision (@by_id A).
Proof. intros a b. unfold by_id. apply _. Defined.

Definition policy_applies (userID keyID connectionID : string) (p : PolicyRow) : bool :=
  p_Enabled p && match p_ScopeKind p with
                 | ScopeInstance => p_ScopeID p =s ""
                 | ScopeUser => p_ScopeID p =s userID
                 | ScopeKey => p_ScopeID p =s keyID
                 | ScopeConnection => p_ScopeID p =s connectionID
                 end.

Definition matchingPolicies (s : db) (userID keyID connectionID : string) : list runtimePolicy :=
  map (fun kv => runtime_of (fst kv) (snd kv))
    (merge_sort by_id (select_rows (fun _ p => policy_applies userID keyID connectionID p) (t_policies s))).

Definition admissionGranted (i : AdmissionInput) (k : KeyRow) (g : Grants) : bool :=
  contains (k_Scopes k) (ai_Scope i) && contains (k_Connections k) (ai_ConnectionID i)
  && modelAllowed (k_Models k) (ai_ModelID i)
  && (g_Unrestricted g
      || contains (g_Scopes g) (ai_Scope i) && contains (g_Connections g) (ai_ConnectionID i)
         && modelAllowed (g_Models g) (ai_ModelID i)).

(** * Evaluating one policy *)

Definition deny {A} (p : runtimePolicy) (reason : string) (retry : option Z) : result A :=
  Err (Denial (rp_ID p) (metric_text (rp_Metric p)) reason retry).

Definition lease_count (s : db) (policyID : string) : Z :=
  Z.of_nat (length (select_rows (fun k _ => k.1.1 =s policyID) (t_leases s))).

(** The units a policy counts, and whether they are reserved until settlement;
    [None] when the policy does not apply. *)
Definition plan_units (p : runtimePolicy) (first : bool) (i : AdmissionInput) (estimatedTokens : Z)
    (estimatedCost : option Z) : result (option (Z * bool)) :=
  match rp_Metric p with
  | MRequests => if negb first && negb (bool_decide (rp_ScopeKind p = ScopeConnection)) then Ok None else Ok (Some (1, false))
  | MTokens => Ok (Some (estimatedTokens, true))
  | MSpend => match estimatedCost with
              | None => deny p "a bounded price estimate is required" None
              | Some cost => Ok (Some (cost, true))
              end
  | MBodyBytes => Ok (Some (ai_BodyBytes i, false))
  | MOutputTokens => Ok (Some (ai_EstimatedOutputTokens i, false))
  | MBatchItems => Ok (Some (ai_BatchItems i, false))
  | MConcurrency => Ok (Some (0, false))
  end.

Definition evaluate_concurrency (s : db) (p : runtimePolicy) (requestID attemptID : string) : result (option counterPlan) :=
  let '(kind, id) := if decide (rp_ScopeKind p = ScopeConnection) then (LeaseAttempt, attemptID)
                     else (LeaseRequest, requestID) in
  match t_leases s !! (rp_ID p, kind, id) with
  | Some _ => Ok None
  | None =>
    if rp_Limit p <=? lease_count s (rp_ID p) then deny p "concurrency limit reached" None
    else Ok (Some (mkCounterPlan p 0 None 0 0 0 0 0 0 false (Some (kind, id))))
  end.

Definition evaluate_bucket (s : db) (p : runtimePolicy) (now_ units : Z) (reserve : bool) : result (option counterPlan) :=
  let row := default (mkBucketRow (rp_Limit p) 0 now_ now_) (t_buckets s !! rp_ID p) in
  let effective := max now_ (b_LastEffective row) in
  let elapsed := max 0 (wrap64 (effective - b_LastRefill row)) in
  r ← refillAmount elapsed (rp_Refill p) (rp_RefillInterval p) (b_Remainder row);
  let '(refill, nextRemainder) := r in
  let refilled := saturatingAdd (b_Remaining row) refill in
  let '(remaining, nextRemainder) :=
    if rp_Limit p <=? refilled then (rp_Limit p, 0) else (refilled, nextRemainder) in
  if remaining <? units then
    deny p "token bucket exhausted" (retryAfter (wrap64 (units - remaining)) (rp_Refill p) (rp_RefillInterval p))
  else Ok (Some (mkCounterPlan p 0 None 0 0 (wrap64 (remaining - units)) nextRemainder effective units reserve None)).

Definition evaluate_period (s : db) (p : runtimePolicy) (now_ units : Z) (reserve : bool) : result (option counterPlan) :=
  let '(start, end_) := periodBounds p now_ in
  let '(consumed, reserved) :=
    match t_periods s !! (rp_ID p, start) with Some q => (q_Consumed q, q_Reserved q) | None => (0, 0) end in
  match checkedAdd [consumed; reserved; units] with
  | None => Err (Msg "policy counter overflow")
  | Some used =>
    if rp_Limit p <? used then
      deny p "policy allowance exhausted"
        (option_map (fun end_ => max 1 (Z.quot (wrap64 (end_ - now_ + 999)) 1000)) end_)
    else
      Ok (Some (mkCounterPlan p start end_
        (if reserve then consumed else wrap64 (consumed + units))
        (if reserve then wrap64 (reserved + units) else reserved) 0 0 0 units reserve None))
  end.

Definition evaluatePolicy (s : db) (p : runtimePolicy) (now_ : Z) (first : bool) (requestID attemptID : string)
    (i : AdmissionInput) (estimatedTokens : Z) (estimatedCost : option Z) : result (option counterPlan) :=
  u ← plan_units p first i estimatedTokens estimatedCost;
  match u with
  | None => Ok None
  | Some (units, reserve) =>
    if decide (rp_Metric p = MConcurrency) then evaluate_concurrency s p requestID attemptID
    else if decide (rp_Algorithm p = Ceiling) then
      if rp_Limit p <? units then deny p "request ceiling exceeded" None else Ok None
    else if units <? 0 then Err (Msg "reservation units cannot be negative")
    else if (units =? 0) && negb reserve then Ok None
    else if decide (rp_Algorithm p = TokenBucket) then evaluate_bucket s p now_ units reserve
    else evaluate_period s p now_ units reserve
  end.

(** * Booking one policy *)

Definition insert_lease (policyID : string) (kind : LeaseKind) (id : string) (row : LeaseRow) : tx db unit :=
  insert_row t_leases set_leases (policyID, kind, id) row.

(** [INSERT .. ON CONFLICT DO UPDATE] on [bucket_state]. *)
Definition upsert_bucket (policyID : string) (row : BucketRow) : tx db unit :=
  _ ← require (0 <=? b_Remainder row) constraint_failed;
  modify (fun s => set_buckets (<[policyID := row]> (t_buckets s)) s).

(** [INSERT .. ON CONFLICT DO UPDATE] on [quota_periods]. *)
Definition upsert_period (policyID : string) (start : Z) (row : PeriodRow) : tx db unit :=
  _ ← require ((0 <=? q_Consumed row) && (0 <=? q_Reserved row)) constraint_failed;
  modify (fun s =>
    let merged := match t_periods s !! (policyID, start) with
                  | Some old => mkPeriodRow (q_End old) (q_Consumed row) (q_Reserved row)
                                  (Z.max (q_LastEffective old) (q_LastEffective row))
                  | None => row
                  end in
    set_periods (<[(policyID, start) := merged]> (t_periods s)) s).

(** INSERT INTO reservations, with UNIQUE (attempt_id, policy_id). *)
Definition reservation_of (attemptID policyID : string) (r : ReservationRow) : bool :=
  (rv_Attempt r =s attemptID) && (rv_Policy r =s policyID).
Definition insert_reservation (id : string) (row : ReservationRow) : tx db unit :=
  s ← reads t_reservations;
  _ ← require ((0 <=? rv_Units row)
               && negb (existsb (fun kv => reservation_of (rv_Attempt row) (rv_Policy row) (snd kv)) (map_to_list s)))
        constraint_failed;
  insert_row t_reservations set_reservations id row.

Definition applyPlan (e : env) (requestID attemptID : string) (now_ : Z) (x : nat * counterPlan) : tx db unit :=
  let (i, plan) := x in
  let p := cp_policy plan in
  match cp_lease plan with
  | Some (kind, id) =>
      insert_lease (rp_ID p) kind id
        (mkLeaseRow requestID (if decide (kind = LeaseAttempt) then Some attemptID else None) (epoch e) now_)
  | None =>
    let bucket := bool_decide (rp_Algorithm p = TokenBucket) in
    _ ← (if bucket
         then upsert_bucket (rp_ID p) (mkBucketRow (cp_bucketRemaining plan) (cp_bucketRemainder plan)
                                         (cp_bucketRefillAt plan) (cp_bucketRefillAt plan))
         else upsert_period (rp_ID p) (cp_periodStart plan)
                (mkPeriodRow (cp_periodEnd plan) (cp_consumed plan) (cp_reserved plan) now_));
    if cp_reserve plan
    then insert_reservation ("res_" +:+ token e (2 + i))
           (mkReservationRow attemptID (rp_ID p) (if bucket then None else Some (cp_periodStart plan))
              (cp_units plan) RvActive now_ None)
    else mret tt
  end.

(** * [Admit] *)

(** The key and its owner, while both are active. *)
Definition active_key (s : db) (keyID : string) (at_ : Z) : option (KeyRow * UserRow) :=
  k ← t_keys s !! keyID; u ← t_users s !! k_Owner k;
  if decide (k_State k = KActive /\ u_Status u = UActive)
  then match k_Expires k with
       | Some t => if at_ <? t then Some (k, u) else None
       | None => Some (k, u)
       end
  else None.

(** The routed upstream model, connection and public model are unchanged. *)
Definition target_current (s : db) (i : AdmissionInput) : bool :=
  match t_public_models s !! ai_ModelID i, t_targets s !! (ai_ModelID i, ai_UpstreamModelRecordID i),
        t_upstream_models s !! ai_UpstreamModelRecordID i with
  | Some pm, Some tg, Some um =>
    match t_connections s !! um_Connection um with
    | Some cn => (um_Connection um =s ai_ConnectionID i) && (pm_Revision pm =? ai_ModelRevision i)
                 && (um_UpstreamID um =s ai_UpstreamModelID i) && pm_Active pm && tg_Enabled tg && um_Active um
                 && cn_Enabled cn && (cn_Revision cn =? ai_ConnectionRevision i)
    | None => false
    end
  | _, _, _ => false
  end.

(** [COALESCE(MAX(ordinal), 0) + 1]. *)
Definition next_ordinal (s : db) (requestID : string) : Z :=
  1 + foldr Z.max 0 (map (fun kv => as_Ordinal (at_Snapshot (snd kv)))
                       (select_rows (fun _ a => at_Request a =s requestID) (t_attempts s))).

(** The ordinal of the attempt, once an existing request is found to be the
    one the input continues. *)
Definition attempt_ordinal (i : AdmissionInput) (owner : string) : tx db Z :=
  if ai_RequestID i =s "" then mret 1
  else
    r ← get_row (fun s => t_requests s !! ai_RequestID i) ErrNotFound;
    _ ← require ((rq_Key r =s ai_KeyID i) && (rq_Owner r =s owner) && (rq_Model r =s ai_ModelID i)
                 && (rq_Operation r =s ai_Operation i) && (rq_Dialect r =s ai_Dialect i)
                 && bool_decide (rq_State r = RqInProgress)) ErrDenied;
    reads (fun s => next_ordinal s (ai_RequestID i)).

(** The policies that refuse an attempt without bounded tokens. *)
Definition first_denied (metrics : list Metric) (reason : string) (policies : list runtimePolicy) : result unit :=
  match find (fun p => bool_decide (rp_Metric p ∈ metrics)) policies with
  | Some p => deny p reason None
  | None => Ok tt
  end.

Definition check_bounds (i : AdmissionInput) (policies : list runtimePolicy) : result unit :=
  _ ← (if ai_EnforceOutputBound i && negb (ai_OutputBounded i)
       then first_denied [MTokens; MOutputTokens; MSpend]
              "an explicit output token limit is required by the active policy" policies else Ok tt);
  if ai_EnforceInputBound i && negb (ai_InputBounded i)
  then first_denied [MTokens; MSpend] "a bounded input token estimate is required by the active policy" policies
  else Ok tt.

(** The price snapshot of the attempt and its estimated cost. *)
Definition admission_price (s : db) (i : AdmissionInput) (effective : Z) : result (string * option Z) :=
  if price_unavailable i then
    _ ← ensure (negb (ai_RequireFreePrice i)) ErrDenied; Ok (""%string, None)
  else
    let at_ := match ai_QuotedPriceVersionID i with Some _ => ai_PriceQuoteAt i | None => effective end in
    let found := priceAt (t_prices s) (ai_ConnectionID i) (ai_ModelID i) at_ in
    _ ← ensure (match ai_QuotedPriceVersionID i, found with
                | Some quoted, Some (id, _) => id =s quoted
                | Some quoted, None => quoted =s ""
                | None, _ => true
                end) ErrConflict;
    match found with
    | None => _ ← ensure (negb (ai_RequireFreePrice i)) ErrDenied; Ok (""%string, None)
    | Some (id, p) =>
      _ ← ensure (negb (ai_RequireFreePrice i
                        && (negb (id =s ai_RequiredPriceVersionID i)
                            || negb (VerifiedFreePrice (pr_Input p) (pr_Output p) (pr_CacheRead p) (pr_Source p)
                                       (pr_Created p) at_)
                            || (0 <? ai_WebSearchMaxCalls i)
                               && match pr_WebSearch p with Some fee => negb (fee =? 0) | None => true end)))
            ErrDenied;
      if ai_SnapshotPriceOnly i then Ok (id, None)
      else
        cost ← CalculateCost (ai_EstimatedInputTokens i) (ai_EstimatedOutputTokens i)
                 (ConservativeInputRate (pr_Input p) (pr_CacheRead p)) (pr_Output p);
        if 0 <? ai_WebSearchMaxCalls i then
          match pr_CacheRead p with
          | Some _ => estimate ← addWebSearchCost (Some cost) (pr_WebSearch p) (ai_WebSearchMaxCalls i);
                      Ok (id, estimate)
          | None => Ok (id, None)
          end
        else Ok (id, Some cost)
    end.

(** The spend policies need an estimated cost. *)
Definition check_spend (policies : list runtimePolicy) (estimatedCost : option Z) : result unit :=
  match estimatedCost with
  | Some _ => Ok tt
  | None => first_denied [MSpend] "a current price is required" policies
  end.

Fixpoint evaluate_all (s : db) (now_ : Z) (first : bool) (requestID attemptID : string) (i : AdmissionInput)
    (estimatedTokens : Z) (estimatedCost : option Z) (policies : list runtimePolicy) : result (list counterPlan) :=
  match policies with
  | [] => Ok []
  | p :: policies =>
    plan ← evaluatePolicy s p now_ first requestID attemptID i estimatedTokens estimatedCost;
    plans ← evaluate_all s now_ first requestID attemptID i estimatedTokens estimatedCost policies;
    Ok (match plan with Some plan => plan :: plans | None => plans end)
  end.

Definition zero_null (z : Z) : option Z := if z =? 0 then None else Some z.

Definition with_request_state (st : RequestState) (finished : option Z) (r : RequestRow) : RequestRow :=
  mkRequestRow (rq_Owner r) (rq_Key r) (rq_Operation r) (rq_Dialect r) (rq_Model r) st (rq_Started r) finished
    (rq_Streaming r).

(** The request row: inserted for a first attempt, reopened otherwise. *)
Definition book_request (i : AdmissionInput) (requestID owner : string) (effective : Z) : tx db unit :=
  if ai_RequestID i =s "" then
    insert_row t_requests set_requests requestID
      (mkRequestRow owner (ai_KeyID i) (ai_Operation i) (ai_Dialect i) (ai_ModelID i) RqReserved effective None
         (ai_Streaming i))
  else
    _ ← update_row t_requests set_requests requestID (fun _ => true) (with_request_state RqReserved None); mret tt.

Definition attempt_snapshot (i : AdmissionInput) (requestID : string) (ordinal : Z) (priceID : string)
    (tokens : Z) (cost : option Z) (effective : Z) : AttemptSnapshot :=
  mkAttemptSnapshot requestID ordinal (ai_ConnectionID i) (ai_ModelID i) (ai_UpstreamModelRecordID i)
    (ai_UpstreamModelID i) (ai_ConnectionRevision i) (target_dialect i) (target_operation i)
    (ai_TranslationApplied i) (ai_RequestToolCount i) (zero_null (ai_WebSearchMaxCalls i)) (ai_WebFetchPresent i)
    (ai_SelectionReason i) (rejected_json i) (nullableString priceID) (zero_null (ai_PriceQuoteAt i)) tokens cost
    effective.

(** INSERT INTO attempts, with UNIQUE (request_id, ordinal). *)
Definition insert_attempt (id : string) (snapshot : AttemptSnapshot) : tx db unit :=
  s ← reads t_attempts;
  _ ← require ((0 <? as_Ordinal snapshot)
               && negb (existsb (fun kv => (at_Request (snd kv) =s as_Request snapshot)
                                           && (as_Ordinal (at_Snapshot (snd kv)) =? as_Ordinal snapshot)) (map_to_list s)))
        constraint_failed;
  insert_row t_attempts set_attempts id (mkAttemptRow snapshot AtReserved UsPending no_usage None None).

Definition admit_tx (e : env) (i : AdmissionInput) (estimatedTokens : Z) : tx db AdmissionResult :=
  let first := ai_RequestID i =s "" in
  let requestID := if first then ("req_" +:+ token e 0)%string else ai_RequestID i in
  let attemptID := ("att_" +:+ token e 1)%string in
  effective ← effectiveTimeTxAtLeast e 0 (ai_PriceQuoteAt i);
  ku ← get_row (fun s => active_key s (ai_KeyID i) effective) ErrDenied;
  let (k, u) := (ku : KeyRow * UserRow) in
  _ ← require (admissionGranted i k (u_Grants u)) ErrDenied;
  s ← reads (fun s => s);
  _ ← require ((ai_UpstreamModelRecordID i =s "") || target_current s i) ErrDenied;
  ordinal ← attempt_ordinal i (k_Owner k);
  _ ← requireOutboxCapacity 2;
  let policies := matchingPolicies s (k_Owner k) (ai_KeyID i) (ai_ConnectionID i) in
  _ ← lift (check_bounds i policies);
  price ← lift (admission_price s i effective);
  let (priceID, estimatedCost) := (price : string * option Z) in
  _ ← lift (check_spend policies estimatedCost);
  plans ← lift (evaluate_all s effective first requestID attemptID i estimatedTokens estimatedCost policies);
  _ ← book_request i requestID (k_Owner k) effective;
  _ ← insert_attempt attemptID
        (attempt_snapshot i requestID ordinal priceID estimatedTokens estimatedCost effective);
  _ ← for_each (applyPlan e requestID attemptID effective) (imap pair plans);
  _ ← appendOutbox (token e (2 + length plans)) requestID attemptID
        (AttemptReserved (k_Owner k) (ai_KeyID i) (ai_ConnectionID i) (ai_ModelID i) ordinal) effective;
  mret (mkAdmissionResult requestID attemptID ordinal effective).

Definition Admit (e : env) (i : AdmissionInput) (s : db) : result AdmissionResult * db :=
  if invalid_admission i then (Err (Msg "invalid admission input"), s)
  else match checkedAdd [ai_EstimatedInputTokens i; ai_EstimatedOutputTokens i] with
       | None => (Err (Msg "estimated token count is too large"), s)
       | Some tokens => commit (admit_tx e i tokens) s
       end.

(** [MarkDispatching] and [MarkStreaming]: one conditional UPDATE each. *)
Definition with_attempt_state (st : AttemptState) (a : AttemptRow) : AttemptRow :=
  mkAttemptRow (at_Snapshot a) st (at_UsageStatus a) (at_Usage a) (at_FirstByte a) (at_Finished a).

Definition mark_attempt (from to : AttemptState) (attemptID : string) : tx db unit :=
  changed ← update_row t_attempts set_attempts attemptID (fun a => bool_decide (at_State a = from))
              (with_attempt_state to);
  require (changed =? 1) ErrConflict.

Definition MarkDispatching (attemptID : string) : db -> result unit * db :=
  commit (mark_attempt AtReserved AtDispatching attemptID).
Definition MarkStreaming (attemptID : string) : db -> result unit * db :=
  commit (mark_attempt AtDispatching AtStreaming attemptID).
