(* ===== verification/Settlement.v ===== *)
(** Settlement ([internal/features/usage/settlement.go] and [repair.go]): how an
    attempt ends. Settling books actual usage against the reservations,
    cancelling returns them, a crash turns them uncertain, reconciliation
    resolves uncertain ones; requests are finalized and repaired. *)
From S2P Require Import Prelude GoStd Money Calendar Counters Policy Json Store Pricing PolicyService Admission.

Record SettlementInput := mkSettlementInput {
  si_IdempotencyKey : string; si_State : string; si_UsageStatus : string;
  si_InputTokens : option Z; si_OutputTokens : option Z; si_CacheCreation : option Z; si_CacheRead : option Z;
  si_Cache5m : option Z; si_Cache1h : option Z; si_CostNanos : option Z; si_WebSearchCalls : option Z;
  si_ToolCalls : Z; si_ToolStatus : string; si_FinalRequest : bool; si_FirstByteAt : option Z }.

Record ReconciliationInput := mkReconciliationInput {
  ri_InputTokens : option Z; ri_OutputTokens : option Z; ri_CostNanos : option Z; ri_UsageStatus : string;
  ri_Reason : string; ri_IdempotencyKey : string }.

(** * Values *)

Definition settled_state_of (s : string) : option AttemptState :=
  if s =s "succeeded" then Some AtSucceeded else if s =s "failed" then Some AtFailed
  else if s =s "cancelled" then Some AtCancelled else if s =s "interrupted_unknown" then Some AtInterrupted else None.
Definition usage_status_of (s : string) : option UsageStatus :=
  if s =s "provider_reported" then Some UsProviderReported else if s =s "estimated" then Some UsEstimated
  else if s =s "unknown" then Some UsUnknown else None.

(** A state [Settle] can write: succeeded, failed, cancelled or interrupted. *)
Definition settled (st : AttemptState) : bool :=
  match st with AtSucceeded | AtFailed | AtCancelled | AtInterrupted => true | _ => false end.

Definition requestState (st : AttemptState) : RequestState :=
  match st with
  | AtSucceeded => RqSucceeded | AtCancelled => RqCancelled | AtInterrupted => RqInterrupted | _ => RqFailed
  end.

Definition nullableValue (v : option Z) : string := match v with None => "null" | Some z => FormatInt z end.

Definition nullableEqual (stored value : option Z) : bool := bool_decide (stored = value).

Definition nullableInt64Sum (left right : option Z) : result (option Z) :=
  match left, right with
  | Some l, Some r =>
    match checkedAdd [l; r] with
    | Some value => if maxSafeInteger <? value then Err (Msg "settlement token count is too large") else Ok (Some value)
    | None => Err (Msg "settlement token count is too large")
    end
  | _, _ => Ok None
  end.

Definition settlementUnits (metric : Metric) (tokens cost : option Z) : option Z :=
  match metric with MTokens => tokens | MSpend => cost | _ => None end.

Definition bool_text (b : bool) : string := if b then "true" else "false".

Definition settlementSignature (i : SettlementInput) (cost : option Z) : string :=
  "state=" +:+ si_State i +:+ ";usage=" +:+ si_UsageStatus i +:+ ";final=" +:+ bool_text (si_FinalRequest i)
  +:+ ";input=" +:+ nullableValue (si_InputTokens i) +:+ ";output=" +:+ nullableValue (si_OutputTokens i)
  +:+ ";cache_creation=" +:+ nullableValue (si_CacheCreation i) +:+ ";cache_read=" +:+ nullableValue (si_CacheRead i)
  +:+ ";cache_5m=" +:+ nullableValue (si_Cache5m i) +:+ ";cache_1h=" +:+ nullableValue (si_Cache1h i)
  +:+ ";web_search=" +:+ nullableValue (si_WebSearchCalls i) +:+ ";cost=" +:+ nullableValue cost
  +:+ ";tools=" +:+ FormatInt (si_ToolCalls i) +:+ ";tool_status=" +:+ si_ToolStatus i.

(** [calculatedPriceCost]. *)
Definition calculatedPriceCost (s : db) (priceID : string) (inputTokens outputTokens cacheCreation cacheRead
    webSearchCalls : option Z) : result (option Z) :=
  match inputTokens, outputTokens with
  | Some input, Some output =>
    if match cacheCreation with Some c => 0 <? c | None => false end then Ok None
    else match t_prices s !! priceID with
         | None => Err ErrNoRows
         | Some p =>
           cost ← calculateCacheAwareCost input output (default 0 cacheRead) (pr_Input p) (pr_Output p) (pr_CacheRead p);
           match webSearchCalls with
           | None => Ok cost
           | Some calls => addWebSearchCost cost (pr_WebSearch p) calls
           end
         end
  | _, _ => Ok None
  end.

(** * Counters *)

(** [updateQuotaPeriod]: a compare-and-set on one period row. *)
Definition updateQuotaPeriod (policyID : string) (periodStart consumedDelta reservedDelta : Z) : tx db unit :=
  q ← get_row (fun s => t_periods s !! (policyID, periodStart)) ErrNoRows;
  nextConsumed ← lift (match checkedAdd [q_Consumed q; consumedDelta] with
    | Some n => if (n <? 0) || (maxSafeInteger <? n) then Err (Msg "consumed units overflow") else Ok n
    | None => Err (Msg "consumed units overflow") end);
  nextReserved ← lift (match checkedAdd [q_Reserved q; reservedDelta] with
    | Some n => if (n <? 0) || (maxSafeInteger <? n) then Err (Msg "reserved units overflow") else Ok n
    | None => Err (Msg "reserved units overflow") end);
  changed ← update_row t_periods set_periods (policyID, periodStart)
    (fun r => (q_Consumed r =? q_Consumed q) && (q_Reserved r =? q_Reserved q))
    (fun r => mkPeriodRow (q_End r) nextConsumed nextReserved (q_LastEffective r));
  require (changed =? 1) (Msg "quota period changed concurrently").

Definition with_remaining (n : Z) (b : BucketRow) : BucketRow :=
  mkBucketRow n (b_Remainder b) (b_LastRefill b) (b_LastEffective b).

Definition with_reservation_state (st : ReservationState) (at_ : Z) (r : ReservationRow) : ReservationRow :=
  mkReservationRow (rv_Attempt r) (rv_Policy r) (rv_Period r) (rv_Units r) st (rv_Created r) (Some at_).

Definition set_reservation_state (id : string) (st : ReservationState) (at_ : Z) : tx db unit :=
  _ ← update_row t_reservations set_reservations id (fun _ => true) (with_reservation_state st at_); mret tt.

(** The rows of [reservations JOIN limit_policies] of one attempt in a state. *)
Definition held_by (s : db) (attemptID : string) (st : ReservationState) : list (string * (ReservationRow * PolicyRow)) :=
  omap (fun kv => p ← t_policies s !! rv_Policy (snd kv); Some (fst kv, (snd kv, p)))
    (select_rows (fun _ r => (rv_Attempt r =s attemptID) && bool_decide (rv_State r = st)) (t_reservations s)).

(** [fmt.Errorf(prefix + "%w", err)] around a step. *)
Definition wrap_tx {A} (prefix : string) (m : tx db A) : tx db A := fun s => wrap_error prefix (m s).

(** Books [actual] units for one reservation and settles it. *)
Definition settle_reservation (overflow noPeriod prefix : string) (at_ actual : Z)
    (item : string * (ReservationRow * PolicyRow)) : tx db unit :=
  let '(id, (r, p)) := item in
  _ ← (if decide (p_Algorithm p = TokenBucket) then
         b ← get_row (fun s => t_buckets s !! rv_Policy r) ErrNoRows;
         next ← lift (match checkedAdd [b_Remaining b; rv_Units r; wrap64 (- actual)] with
                      | Some n => Ok n | None => Err (Msg overflow) end);
         _ ← update_row t_buckets set_buckets (rv_Policy r) (fun _ => true)
               (with_remaining (min (p_LimitUnits p) next)); mret tt
       else match rv_Period r with
            | None => fail (Msg noPeriod)
            | Some start => wrap_tx prefix (updateQuotaPeriod (rv_Policy r) start actual (wrap64 (- rv_Units r)))
            end);
  set_reservation_state id RvSettled at_.

(** One iteration of the loop of [Settle]: without known units the
    reservation becomes uncertain. *)
Definition settle_item (at_ : Z) (unknown : bool) (tokens cost : option Z)
    (item : string * (ReservationRow * PolicyRow)) : tx db unit :=
  let '(id, (r, p)) := item in
  match (if unknown then None else settlementUnits (p_Metric p) tokens cost) with
  | None => set_reservation_state id RvUncertain at_
  | Some actual => settle_reservation "bucket settlement overflow" "quota reservation has no period"
                     "quota reservation state is inconsistent: " at_ actual item
  end.

(** One iteration of the loop of [ReconcileUnknown]. *)
Definition reconcile_item (at_ : Z) (tokens cost : option Z) (item : string * (ReservationRow * PolicyRow)) : tx db unit :=
  let '(id, (r, p)) := item in
  match settlementUnits (p_Metric p) tokens cost with
  | None => mret tt
  | Some actual => settle_reservation "bucket reconciliation overflow" "quota reconciliation has no period" ""
                     at_ actual item
  end.

(** One iteration of [releaseReservations]: the units go back unconsumed. *)
Definition release_item (at_ : Z) (item : string * (ReservationRow * PolicyRow)) : tx db unit :=
  let '(id, (r, p)) := item in
  _ ← (if decide (p_Algorithm p = TokenBucket) then
         update_row t_buckets set_buckets (rv_Policy r) (fun _ => true)
           (fun b => with_remaining (Z.min (p_LimitUnits p) (b_Remaining b + rv_Units r)) b)
       else
         update_row t_periods set_periods (rv_Policy r, default 0 (rv_Period r)) (fun q => rv_Units r <=? q_Reserved q)
           (fun q => mkPeriodRow (q_End q) (q_Consumed q) (q_Reserved q - rv_Units r) (q_LastEffective q)));
  set_reservation_state id RvReleased at_.

Definition releaseReservations (attemptID : string) (at_ : Z) : tx db unit :=
  items ← reads (fun s => held_by s attemptID RvActive);
  for_each (release_item at_) items.

(** * Requests and leases *)

Definition delete_leases (kind : LeaseKind) (id : string) : tx db unit :=
  delete_rows t_leases set_leases (fun k _ => bool_decide (k.1.2 = kind) && (k.2 =s id)).

(** [DELETE .. WHERE lease_kind = 'request' AND request_id = ?]. *)
Definition delete_request_leases (requestID : string) : tx db unit :=
  delete_rows t_leases set_leases (fun k l => bool_decide (k.1.2 = LeaseRequest) && (le_Request l =s requestID)).

Definition set_request_state (requestID : string) (st : RequestState) (finished : option Z) : tx db unit :=
  _ ← update_row t_requests set_requests requestID (fun _ => true) (with_request_state st finished); mret tt.

Definition finish_attempt (st : AttemptState) (us : UsageStatus) (at_ : Z) (a : AttemptRow) : AttemptRow :=
  mkAttemptRow (at_Snapshot a) st us (at_Usage a) (at_FirstByte a) (Some at_).

Definition subject_of (a : AttemptRow) (r : RequestRow) : EventSubject :=
  mkEventSubject (rq_Owner r) (rq_Key r) (as_Model (at_Snapshot a)) (as_Connection (at_Snapshot a))
    (as_Started (at_Snapshot a)).

(** [attempts JOIN requests] by attempt id. *)
Definition attempt_join (s : db) (attemptID : string) : option (AttemptRow * RequestRow) :=
  a ← t_attempts s !! attemptID; r ← t_requests s !! at_Request a; Some (a, r).

(** [CloseFailedRequest]. *)
Definition close_failed_tx (e : env) (requestID : string) : tx db unit :=
  _ ← delete_leases LeaseRequest requestID;
  changed ← update_row t_requests set_requests requestID (fun r => bool_decide (rq_State r = RqInProgress))
              (with_request_state RqFailed (Some (now e 0)));
  require (changed =? 1) ErrConflict.
Definition CloseFailedRequest (e : env) (requestID : string) : db -> result unit * db :=
  commit (close_failed_tx e requestID).

(** [CancelBeforeDispatch]. *)
Definition cancel_tx (e : env) (attemptID : string) : tx db unit :=
  ar ← get_row (fun s => ar ← attempt_join s attemptID; if decide (at_State ar.1 = AtReserved) then Some ar else None) ErrNoRows;
  let (a, r) := (ar : AttemptRow * RequestRow) in
  _ ← releaseReservations attemptID (now e 0);
  _ ← delete_leases LeaseAttempt attemptID;
  _ ← delete_leases LeaseRequest (at_Request a);
  _ ← update_row t_attempts set_attempts attemptID (fun _ => true)
        (finish_attempt AtCancelledBeforeDispatch UsEstimated (now e 0));
  _ ← set_request_state (at_Request a) RqCancelled (Some (now e 0));
  appendOutbox (token e 0) (at_Request a) attemptID (CancelledBeforeDispatch (subject_of a r)) (now e 0).
Definition CancelBeforeDispatch (e : env) (attemptID : string) : db -> result unit * db :=
  commit (cancel_tx e attemptID).

(** [FinalizeRequestTx] and [FinalizeRequest]. *)
Definition final_state_of (s : string) : option RequestState := option_map requestState (settled_state_of s).

Definition request_live (s : db) (requestID : string) : bool :=
  existsb (fun kv => (at_Request (snd kv) =s requestID) && live_state (at_State (snd kv))) (map_to_list (t_attempts s)).

Definition finalize_request_tx (e : env) (requestID : string) (state : string) : tx db unit :=
  match final_state_of state with
  | None => fail (Msg "invalid final request state")
  | Some st =>
    live ← reads (fun s => request_live s requestID);
    _ ← require (negb live) ErrConflict;
    changed ← update_row t_requests set_requests requestID (fun r => bool_decide (rq_State r = RqInProgress))
                (with_request_state st (Some (now e 0)));
    _ ← require (changed =? 1) ErrConflict;
    delete_request_leases requestID
  end.
Definition FinalizeRequest (e : env) (requestID state : string) : db -> result unit * db :=
  commit (finalize_request_tx e requestID state).

(** * [Settle] *)

(** A token count outside the safe integers. *)
Definition bad_count (v : option Z) : bool :=
  match v with Some z => (z <? 0) || (maxSafeInteger <? z) | None => false end.

(** The checks of [Settle] before it opens its transaction. *)
Definition check_settlement (i : SettlementInput) (toolStatus : string) : result (AttemptState * UsageStatus) :=
  _ ← ensure (negb ((si_IdempotencyKey i =s "") || negb (is_some (settled_state_of (si_State i)))
                    || negb (is_some (usage_status_of (si_UsageStatus i))))) (Msg "invalid settlement");
  _ ← ensure (negb ((si_ToolCalls i <? 0) || negb (contains ["none"; "completed"; "incomplete"]%string toolStatus)
                    || (si_ToolCalls i =? 0) && negb (toolStatus =s "none")
                    || (0 <? si_ToolCalls i) && (toolStatus =s "none"))) (Msg "invalid tool call settlement");
  _ ← ensure (negb (bad_count (si_InputTokens i) || bad_count (si_OutputTokens i) || bad_count (si_CacheCreation i)
                    || bad_count (si_CacheRead i) || bad_count (si_Cache5m i) || bad_count (si_Cache1h i)
                    || match si_CostNanos i with Some c => c <? 0 | None => false end
                    || match si_WebSearchCalls i with Some w => (w <? 0) || (4 <? w) | None => false end))
        (Msg "settlement values cannot be negative");
  let cacheCreation := default 0 (si_CacheCreation i) in
  let cacheInput := checkedAdd [cacheCreation; default 0 (si_CacheRead i)] in
  let cacheDetails := checkedAdd [default 0 (si_Cache5m i); default 0 (si_Cache1h i)] in
  _ ← ensure (negb (negb (is_some cacheInput) || negb (is_some cacheDetails)
                    || (is_some (si_CacheCreation i) || is_some (si_CacheRead i)) && negb (is_some (si_InputTokens i))
                    || match si_InputTokens i, cacheInput with Some input, Some c => input <? c | _, _ => false end
                    || (is_some (si_Cache5m i) || is_some (si_Cache1h i))
                       && (negb (is_some (si_CacheCreation i))
                           || match cacheDetails with Some d => negb (d =? cacheCreation) | None => false end)))
        (Msg "invalid cache usage settlement");
  match settled_state_of (si_State i), usage_status_of (si_UsageStatus i) with
  | Some st, Some us => Ok (st, us)
  | _, _ => Err (Msg "invalid settlement")
  end.

(** The web-search rule: known calls exactly for a search that succeeded. *)
Definition web_search_ok (max_calls calls : option Z) (known : bool) : bool :=
  match max_calls with
  | None => negb (is_some calls)
  | Some m => if known then match calls with Some c => c <=? m | None => false end else negb (is_some calls)
  end.

(** Whether a cost may be calculated from the price snapshot. *)
Definition may_calculate (i : SettlementInput) (a : AttemptSnapshot) : bool :=
  let hasWebSearch := is_some (as_WebSearchMax a) in
  negb (hasWebSearch && as_WebFetch a) && (negb hasWebSearch || is_some (si_WebSearchCalls i)).

Definition calculated_cost (s : db) (i : SettlementInput) (a : AttemptSnapshot) : result (option Z) :=
  match si_CostNanos i, as_Price a with
  | None, Some priceID =>
      if may_calculate i a
      then calculatedPriceCost s priceID (si_InputTokens i) (si_OutputTokens i) (si_CacheCreation i) (si_CacheRead i)
             (si_WebSearchCalls i)
      else Ok None
  | cost, _ => Ok cost
  end.

(** A settlement whose idempotency key is already in the ledger: accepted when
    it repeats the recorded one, a conflict otherwise. *)
Definition replay_settlement (s : db) (attemptID : string) (a : AttemptSnapshot) (i : SettlementInput)
    (entry : LedgerRow) : result unit :=
  let cost := match calculated_cost s i a with Ok c => c | Err _ => None end in
  tokens ← nullableInt64Sum (si_InputTokens i) (si_OutputTokens i);
  ensure ((ld_Attempt entry =s attemptID) && bool_decide (ld_Type entry = EnSettlement)
          && nullableEqual (ld_Tokens entry) tokens && nullableEqual (ld_Cost entry) cost
          && (ld_Reason entry =s settlementSignature i cost)) ErrConflict.

Definition insert_ledger (idempotencyKey : string) (row : LedgerRow) : tx db unit :=
  l ← reads t_ledger;
  _ ← require (negb (existsb (fun kv => ld_ID (snd kv) =s ld_ID row) (map_to_list l))) constraint_failed;
  insert_row t_ledger set_ledger idempotencyKey row.

Definition usage_of (i : SettlementInput) (cost : option Z) (toolStatus : string) : AttemptUsage :=
  mkAttemptUsage (si_InputTokens i) (si_OutputTokens i) (si_CacheCreation i) (si_CacheRead i) (si_Cache5m i)
    (si_Cache1h i) cost cost (si_WebSearchCalls i) (si_ToolCalls i) toolStatus.

Definition settle_attempt_row (st : AttemptState) (us : UsageStatus) (u : AttemptUsage) (firstByte : option Z)
    (at_ : Z) (a : AttemptRow) : AttemptRow :=
  mkAttemptRow (at_Snapshot a) st us u (match firstByte with Some t => Some t | None => at_FirstByte a end) (Some at_).

Definition insert_assessment (key : string * string * Z * AssessmentKind) (row : AssessmentRow) : tx db unit :=
  m ← reads t_assessments;
  _ ← require ((0 <=? ca_Amount row) && negb (existsb (fun kv => ca_ID (snd kv) =s ca_ID row) (map_to_list m)))
        constraint_failed;
  insert_row t_assessments set_assessments key row.

(** The assessment of a priced attempt with a known cost. *)
Definition record_assessment (tok attemptID : string) (snap : AttemptSnapshot) (i : SettlementInput)
    (cost : option Z) (at_ : Z) : tx db unit :=
  match as_Price snap, cost with
  | Some priceID, Some amount =>
      insert_assessment (attemptID, priceID,
          priceCalculationVersion (is_some (si_CacheRead i)) (is_some (as_WebSearchMax snap)), AsRecorded)
        (mkAssessmentRow ("ass_" +:+ tok) amount 0 at_)
  | _, _ => mret tt
  end.

(** The request after one of its attempts settled. *)
Definition end_or_continue (final : bool) (requestID : string) (st : AttemptState) (at_ : Z) : tx db unit :=
  if final then
    _ ← delete_leases LeaseRequest requestID;
    set_request_state requestID (requestState st) (Some at_)
  else
    _ ← update_row t_requests set_requests requestID (fun _ => true)
          (fun r => with_request_state RqInProgress (rq_Finished r) r); mret tt.

(** The writes of a first settlement of a live attempt. *)
Definition book_settlement (e : env) (attemptID : string) (i : SettlementInput) (st : AttemptState) (us : UsageStatus)
    (a : AttemptRow) (r : RequestRow) (cost tokens : option Z) : tx db unit :=
  let snap := at_Snapshot a in
  let usage := usage_of i cost (si_ToolStatus i) in
  let at_ := now e 1 in
  _ ← insert_ledger (si_IdempotencyKey i)
        (mkLedgerRow ("led_" +:+ token e 0) attemptID EnSettlement tokens cost None (settlementSignature i cost) (now e 0));
  items ← reads (fun s => held_by s attemptID RvActive);
  _ ← for_each (settle_item at_ (bool_decide (us = UsUnknown)) tokens cost) items;
  _ ← require (match si_FirstByteAt i with Some t => 0 <=? t | None => true end) constraint_failed;
  _ ← update_row t_attempts set_attempts attemptID (fun _ => true) (settle_attempt_row st us usage (si_FirstByteAt i) at_);
  _ ← record_assessment (token e 1) attemptID snap i cost at_;
  _ ← delete_leases LeaseAttempt attemptID;
  _ ← end_or_continue (si_FinalRequest i) (at_Request a) st at_;
  appendOutbox (token e 2) (at_Request a) attemptID (AttemptSettled (subject_of a r) st us usage) at_.

Definition settle_tx (e : env) (attemptID : string) (i : SettlementInput) (st : AttemptState) (us : UsageStatus) : tx db unit :=
  a ← get_row (fun s => t_attempts s !! attemptID) ErrNotFound;
  let snap := at_Snapshot a in
  _ ← require (web_search_ok (as_WebSearchMax snap) (si_WebSearchCalls i)
                 (bool_decide (st = AtSucceeded) && negb (bool_decide (us = UsUnknown))))
        (Msg "invalid web search settlement");
  s ← reads (fun s => s);
  match t_ledger s !! si_IdempotencyKey i with
  | Some entry => lift (replay_settlement s attemptID snap i entry)
  | None =>
    ar ← get_row (fun s => attempt_join s attemptID) ErrNotFound;
    _ ← require (live_state (at_State a)) ErrConflict;
    cost ← lift (calculated_cost s i snap);
    tokens ← lift (nullableInt64Sum (si_InputTokens i) (si_OutputTokens i));
    book_settlement e attemptID i st us a (snd ar) cost tokens
  end.

(** The input with its tool status defaulted. *)
Definition with_tool_status (i : SettlementInput) : SettlementInput :=
  mkSettlementInput (si_IdempotencyKey i) (si_State i) (si_UsageStatus i) (si_InputTokens i) (si_OutputTokens i)
    (si_CacheCreation i) (si_CacheRead i) (si_Cache5m i) (si_Cache1h i) (si_CostNanos i) (si_WebSearchCalls i)
    (si_ToolCalls i) (default_text (si_ToolStatus i) "none") (si_FinalRequest i) (si_FirstByteAt i).

Definition Settle (e : env) (attemptID : string) (input : SettlementInput) (s : db) : result unit * db :=
  let i := with_tool_status input in
  match check_settlement i (si_ToolStatus i) with
  | Err err => (Err err, s)
  | Ok (st, us) => commit (settle_tx e attemptID i st us) s
  end.

(** * [ReconcileUnknown] *)

Definition check_reconciliation (i : ReconciliationInput) : result (Z * Z * UsageStatus) :=
  let bad := Msg "known tokens, usage_status, reason, and idempotency_key are required" in
  match ri_InputTokens i, ri_OutputTokens i, usage_status_of (ri_UsageStatus i) with
  | Some input, Some output, Some us =>
    _ ← ensure (negb (bad_count (Some input) || bad_count (Some output)
                      || match ri_CostNanos i with Some c => c <? 0 | None => false end
                      || bool_decide (us = UsUnknown) || (str_len (ri_Reason i) <? 3) || (500 <? str_len (ri_Reason i))
                      || (ri_IdempotencyKey i =s "") || (200 <? str_len (ri_IdempotencyKey i)))) bad;
    Ok (input, output, us)
  | _, _, _ => Err bad
  end.

Definition reconciliationSignature (i : ReconciliationInput) : string :=
  "reconcile:" +:+ ri_UsageStatus i +:+ ":" +:+ ri_Reason i +:+ ":" +:+ nullableValue (ri_InputTokens i)
  +:+ ":" +:+ nullableValue (ri_OutputTokens i) +:+ ":" +:+ nullableValue (ri_CostNanos i).

Definition count_reservations (s : db) (attemptID : string) (st : ReservationState) : Z :=
  Z.of_nat (length (select_rows (fun _ r => (rv_Attempt r =s attemptID) && bool_decide (rv_State r = st)) (t_reservations s))).

Definition count_ledger (s : db) (attemptID : string) (ty : EntryType) : Z :=
  Z.of_nat (length (select_rows (fun _ l => (ld_Attempt l =s attemptID) && bool_decide (ld_Type l = ty)) (t_ledger s))).

(** [COALESCE(restated_cost_nanos, as_recorded_cost_nanos)]. *)
Definition current_cost (u : AttemptUsage) : option Z :=
  match au_Restated u with Some c => Some c | None => au_Recorded u end.

(** The cost correction an admin may make only for members. *)
Definition admin_may_touch (s : db) (actor : User) (owner : string) : result unit :=
  if bool_decide (us_Role actor = Admin) && negb (owner =s us_ID actor) then
    match t_users s !! owner with
    | Some u => ensure (bool_decide (u_Role u = Member)) ErrDenied
    | None => Err ErrNoRows
    end
  else Ok tt.

(** [COALESCE(?, column)]. *)
Definition coalesce (v old : option Z) : option Z := match v with Some _ => v | None => old end.

Definition reconcile_usage (us : UsageStatus) (input output : Z) (cost : option Z) (a : AttemptRow) : AttemptRow :=
  let u := at_Usage a in
  mkAttemptRow (at_Snapshot a) (at_State a) us
    (mkAttemptUsage (Some input) (Some output) (au_CacheCreation u) (au_CacheRead u) (au_Cache5m u) (au_Cache1h u)
       (coalesce cost (au_Recorded u)) (coalesce cost (au_Restated u)) (au_WebSearches u) (au_ToolCalls u)
       (au_ToolStatus u)) (at_FirstByte a) (at_Finished a).

(** Whether the attempt still has something to reconcile. *)
Definition reconcilable (s : db) (attemptID : string) (a : AttemptRow) (previousCost : option Z) : bool :=
  (bool_decide (at_State a = AtInterrupted) && bool_decide (at_UsageStatus a = UsUnknown))
  || settled (at_State a)
     && negb ((count_reservations s attemptID RvUncertain =? 0) && is_some (au_Input (at_Usage a))
              && is_some (au_Output (at_Usage a)) && is_some previousCost).

Definition subtract (v : Z) (old : option Z) : option Z := checkedAdd [v; wrap64 (- default 0 old)].

(** The books of a reconciliation, once everything is checked. *)
Definition book_reconciliation (e : env) (actor : User) (attemptID : string) (i : ReconciliationInput)
    (a : AttemptRow) (r : RequestRow) (input output : Z) (us : UsageStatus)
    (inputCost effectiveCost tokens : option Z) : tx db unit :=
  let u := at_Usage a in
  let previousCost := current_cost u in
  items ← reads (fun s => held_by s attemptID RvUncertain);
  _ ← for_each (reconcile_item (now e 0) tokens effectiveCost) items;
  let nextUsageStatus := match effectiveCost with Some _ => us | None => UsUnknown end in
  _ ← update_row t_attempts set_attempts attemptID (fun _ => true) (reconcile_usage nextUsageStatus input output inputCost);
  let wasUnknown := bool_decide (at_UsageStatus a = UsUnknown) || negb (is_some previousCost) in
  let unknownDelta := if wasUnknown && negb (bool_decide (nextUsageStatus = UsUnknown)) && is_some effectiveCost
                      then -1 else 0 in
  let costDelta := match inputCost with Some c => subtract c previousCost | None => Some 0 end in
  match subtract input (au_Input u), subtract output (au_Output u), costDelta with
  | Some inputDelta, Some outputDelta, Some costDelta =>
    tokenDelta ← lift (match checkedAdd [inputDelta; outputDelta] with
                       | Some d => Ok d | None => Err (Msg "reconciliation token delta overflow") end);
    _ ← insert_ledger (ri_IdempotencyKey i)
          (mkLedgerRow ("led_" +:+ token e 0) attemptID EnReconciliation (Some tokenDelta)
             (match inputCost with Some _ => Some costDelta | None => None end) (Some (us_ID actor))
             (reconciliationSignature i) (now e 1));
    _ ← appendOutbox (token e 1) (at_Request a) attemptID
          (AttemptReconciled (subject_of a r) inputDelta outputDelta costDelta unknownDelta) (now e 2);
    insertAudit (token e 2) (us_ID actor) "usage.reconcile" "attempt" attemptID
      [("reason", JString (ri_Reason i))]%string (now e 3)
  | _, _, _ => fail (Msg "reconciliation delta overflow")
  end.

Definition reconcile_tx (e : env) (actor : User) (attemptID : string) (i : ReconciliationInput)
    (input output : Z) (us : UsageStatus) (tokens : option Z) : tx db unit :=
  s ← reads (fun s => s);
  actor ← lift (refreshUsageActor s actor);
  _ ← require (is_manager (us_Role actor)) ErrDenied;
  match t_ledger s !! ri_IdempotencyKey i with
  | Some entry =>
      require ((ld_Attempt entry =s attemptID) && bool_decide (ld_Type entry = EnReconciliation)
               && (ld_Reason entry =s reconciliationSignature i)) ErrConflict
  | None =>
    ar ← get_row (fun s => attempt_join s attemptID) ErrNotFound;
    let (a, r) := (ar : AttemptRow * RequestRow) in
    let u := at_Usage a in
    let previousCost := current_cost u in
    _ ← lift (match checkedAdd [default 0 (au_CacheCreation u); default 0 (au_CacheRead u)] with
              | Some total => ensure (total <=? input)
                  (Msg "reconciled input tokens cannot be less than the recorded cache-token breakdown")
              | None => Err (Msg "reconciled input tokens cannot be less than the recorded cache-token breakdown")
              end);
    _ ← require (reconcilable s attemptID a previousCost) ErrConflict;
    _ ← require (negb ((0 <? count_ledger s attemptID EnReconciliation)
                       && (match au_Input u with Some n => negb (n =? input) | None => false end
                           || match au_Output u with Some n => negb (n =? output) | None => false end))) ErrConflict;
    inputCost ← lift (match ri_CostNanos i, previousCost, as_Price (at_Snapshot a), as_WebSearchMax (at_Snapshot a) with
                      | None, None, Some priceID, None =>
                          calculatedPriceCost s priceID (Some input) (Some output) (au_CacheCreation u) (au_CacheRead u) None
                      | cost, _, _, _ => Ok cost
                      end);
    let effectiveCost := coalesce inputCost previousCost in
    _ ← lift (admin_may_touch s actor (rq_Owner r));
    _ ← requireOutboxCapacity 1;
    book_reconciliation e actor attemptID i a r input output us inputCost effectiveCost tokens
  end.

Definition ReconcileUnknown (e : env) (actor : User) (attemptID : string) (i : ReconciliationInput) (s : db) : result unit * db :=
  match (c ← check_reconciliation i; t ← nullableInt64Sum (ri_InputTokens i) (ri_OutputTokens i); Ok (c, t)) with
  | Err err => (Err err, s)
  | Ok (input, output, us, tokens) => commit (reconcile_tx e actor attemptID i input output us tokens) s
  end.

(** * [Recover]

    At start-up, the attempts a previous process left unfinished. *)

Definition recover_item (e : env) (x : nat * (string * (AttemptRow * RequestRow))) : tx db unit :=
  let '(n, (attemptID, (a, r))) := x in
  let at_ := now e 0 in
  if decide (at_State a = AtReserved) then
    _ ← releaseReservations attemptID at_;
    _ ← update_row t_attempts set_attempts attemptID (fun _ => true) (finish_attempt AtCancelledBeforeDispatch UsEstimated at_);
    _ ← set_request_state (at_Request a) RqCancelled (Some at_);
    appendOutbox (token e n) (at_Request a) attemptID (CancelledBeforeDispatch (subject_of a r)) at_
  else
    _ ← update_rows t_reservations set_reservations
          (fun _ rv => (rv_Attempt rv =s attemptID) && bool_decide (rv_State rv = RvActive))
          (with_reservation_state RvUncertain at_);
    _ ← update_row t_attempts set_attempts attemptID (fun _ => true) (finish_attempt AtInterrupted UsUnknown at_);
    _ ← set_request_state (at_Request a) RqInterrupted (Some at_);
    appendOutbox (token e n) (at_Request a) attemptID (AttemptInterrupted (subject_of a r)) at_.

(** [attempts JOIN requests] over the live attempts. *)
Definition live_join (s : db) : list (string * (AttemptRow * RequestRow)) :=
  omap (fun kv => r ← t_requests s !! at_Request (snd kv); Some (fst kv, (snd kv, r)))
    (select_rows (fun _ a => live_state (at_State a)) (t_attempts s)).

Definition recover_tx (e : env) : tx db unit :=
  items ← reads live_join;
  _ ← for_each (recover_item e) (imap pair items);
  s ← reads (fun s => s);
  _ ← update_rows t_requests set_requests
        (fun id r => bool_decide (rq_State r = RqInProgress) && negb (request_live s id))
        (with_request_state RqFailed (Some (now e 0)));
  _ ← modify (set_leases ∅);
  clock ← reads t_clock;
  modify (set_clock (Some (mkClockRow (match clock with Some c => Z.max (ck_LastEffective c) (now e 0) | None => now e 0 end)
                             (epoch e)))).
Definition Recover (e : env) : db -> result unit * db := commit (recover_tx e).

(** * Repair ([repair.go]) *)

Definition staleRequestRepairAge : Z := 5 * 60 * 1000.

(** The condition of [RepairStaleRequests] on one request. *)
Definition stale_request (s : db) (cutoff : Z) (id : string) (r : RequestRow) : bool :=
  let attempts := select_rows (fun _ a => at_Request a =s id) (t_attempts s) in
  bool_decide (rq_State r = RqInProgress) && negb (request_live s id) && bool_decide (id ∉ t_busy_requests s)
  && match attempts with
     | [] => rq_Started r <=? cutoff
     | _ => forallb (fun kv => match at_Finished (snd kv) with Some t => t <=? cutoff | None => false end) attempts
     end.

Definition started_first (a b : string * RequestRow) : Prop :=
  rq_Started a.2 < rq_Started b.2 \/ (rq_Started a.2 = rq_Started b.2 /\ String.leb a.1 b.1 = true).
#[export] Instance started_first_dec : RelDecision started_first.
Proof. intros a b. unfold started_first. apply _. Defined.

(** [ORDER BY started_at, id LIMIT 100]. *)
Definition stale_requests (s : db) (cutoff : Z) : list (string * RequestRow) :=
  take 100 (merge_sort started_first (select_rows (fun id r => stale_request s cutoff id r) (t_requests s))).

(** One round of the repair loop: the UPDATE checks the condition again. *)
Definition repair_request (e : env) (cutoff : Z) (requestID : string) : tx db Z :=
  s ← reads (fun s => s);
  changed ← update_row t_requests set_requests requestID (fun r => stale_request s cutoff requestID r)
              (with_request_state RqFailed (Some (now e 0)));
  _ ← (if changed =? 0 then mret tt else delete_request_leases requestID);
  mret changed.

Fixpoint repair_all (e : env) (cutoff : Z) (ids : list string) : tx db Z :=
  match ids with
  | [] => mret 0
  | id :: ids => changed ← repair_request e cutoff id; rest ← repair_all e cutoff ids; mret (changed + rest)
  end.

Definition repair_tx (e : env) : tx db Z :=
  let cutoff := now e 0 - staleRequestRepairAge in
  ids ← reads (fun s => map fst (stale_requests s cutoff));
  repair_all e cutoff ids.
Definition RepairStaleRequests (e : env) : db -> result Z * db := commit (repair_tx e).
