(* ===== verification/Reservations.v ===== *)
(** Conservation of reserved units: in every reachable state the
    [reserved_units] of a quota period is the sum of the reservations that
    hold units of it. This file proves that each booking step of admission,
    settlement, release and reconciliation keeps the balance. *)
From S2P Require Import Prelude GoStd Money Calendar Counters Policy Json Store Pricing PolicyService Admission Settlement.

(** * The balance *)

Definition held_state (st : ReservationState) : bool :=
  match st with RvActive | RvUncertain => true | _ => false end.

(** The units reservation [r] holds of period [start] of policy [pid]. *)
Definition held (pid : string) (start : Z) (_ : string) (r : ReservationRow) : Z :=
  if (rv_Policy r =s pid) && bool_decide (rv_Period r = Some start) && held_state (rv_State r) then rv_Units r else 0.

Definition period_reserved (periods : gmap (string * Z) PeriodRow) (pid : string) (start : Z) : Z :=
  match periods !! (pid, start) with Some q => q_Reserved q | None => 0 end.

Definition period_consumed (s : db) (pid : string) (start : Z) : Z :=
  match t_periods s !! (pid, start) with Some q => q_Consumed q | None => 0 end.

(** A reservation names a policy, and has a period unless it drew a bucket. *)
Definition reservation_ok (policies : gmap string PolicyRow) (r : ReservationRow) : Prop :=
  0 <= rv_Units r <= max_int64 /\
  exists p, policies !! rv_Policy r = Some p /\ (p_Algorithm p = TokenBucket <-> rv_Period r = None).

Record balanced (s : db) : Prop := mkBalanced {
  bal_sum : forall pid start, period_reserved (t_periods s) pid start = msum (held pid start) (t_reservations s);
  bal_rows : forall id r, t_reservations s !! id = Some r -> reservation_ok (t_policies s) r;
  bal_consumed : forall k q, t_periods s !! k = Some q -> 0 <= q_Consumed q <= max_int64 /\ 0 <= q_Reserved q <= max_int64 }.

(** Steps that leave these three tables alone keep the balance. *)
Lemma balanced_frame s s' :
  t_policies s' = t_policies s -> t_periods s' = t_periods s -> t_reservations s' = t_reservations s ->
  balanced s -> balanced s'.
Proof. intros Ep Eq Er [H1 H2 H3]. split; rewrite ?Ep, ?Eq, ?Er; done. Qed.

Lemma reservation_ok_shape policies policies' r :
  (forall id p, policies !! id = Some p -> exists p', policies' !! id = Some p' /\ p_Algorithm p' = p_Algorithm p) ->
  reservation_ok policies r -> reservation_ok policies' r.
Proof.
  intros Hp (Hu & p & Hr & Hi). split; [done|]. destruct (Hp _ _ Hr) as (p' & Hp' & Ha).
  exists p'. by rewrite Ha.
Qed.

Lemma held_nonneg s pid start : balanced s -> forall id r, t_reservations s !! id = Some r -> 0 <= held pid start id r.
Proof. intros Hb id r Hr. destruct (bal_rows s Hb id r Hr) as [? _]. unfold held. case_match; lia. Qed.

Lemma held_state_change pid start id r st t :
  held pid start id (with_reservation_state st t r) =
  if (rv_Policy r =s pid) && bool_decide (rv_Period r = Some start) && held_state st then rv_Units r else 0.
Proof. done. Qed.

(** Changing the state of one reservation changes the sum by its units. *)
Lemma held_sum_change m id r st t pid start :
  m !! id = Some r ->
  msum (held pid start) (<[id := with_reservation_state st t r]> m) =
  msum (held pid start) m +
  if (rv_Policy r =s pid) && bool_decide (rv_Period r = Some start)
  then (if held_state st then rv_Units r else 0) - (if held_state (rv_State r) then rv_Units r else 0) else 0.
Proof.
  intros Hr. rewrite (msum_update _ _ _ r _ Hr), held_state_change. unfold held.
  destruct ((rv_Policy r =s pid) && bool_decide (rv_Period r = Some start)); cbn [andb]; [|lia].
  destruct (held_state st), (held_state (rv_State r)); lia.
Qed.

(** The state a reservation change leaves behind. *)
Definition put_reservation (id : string) (r : ReservationRow) (s : db) : db :=
  set_reservations (<[id := r]> (t_reservations s)) s.

Lemma reservation_rows_change s id r st t :
  balanced s -> t_reservations s !! id = Some r ->
  forall j r', <[id := with_reservation_state st t r]> (t_reservations s) !! j = Some r' -> reservation_ok (t_policies s) r'.
Proof.
  intros Hb Hr j r'. destruct (decide (id = j)) as [<-|Hn].
  - rewrite lookup_insert_eq. intros [= <-]. exact (bal_rows s Hb id r Hr).
  - rewrite lookup_insert_ne by done. apply (bal_rows s Hb).
Qed.

(** A change between two holding states, or of a reservation without period. *)
Lemma balanced_hold s id r st t :
  balanced s -> t_reservations s !! id = Some r ->
  (held_state st = held_state (rv_State r) \/ rv_Period r = None \/ rv_Units r = 0) ->
  balanced (put_reservation id (with_reservation_state st t r) s).
Proof.
  intros Hb Hr Hc. split; cbn.
  - intros pid start. rewrite (held_sum_change _ _ r) by done. rewrite <- (bal_sum s Hb).
    destruct ((rv_Policy r =s pid) && bool_decide (rv_Period r = Some start)) eqn:E; [|lia].
    apply andb_true_iff in E as [_ E]. apply bool_decide_eq_true in E.
    destruct Hc as [->|[Hc|Hc]]; [lia|congruence|]. rewrite Hc. destruct (held_state st), (held_state (rv_State r)); lia.
  - by apply reservation_rows_change.
  - apply (bal_consumed s Hb).
Qed.

(** Ending a holding reservation together with its units in the period. *)
Lemma balanced_drop s id r st t start q q' :
  balanced s -> t_reservations s !! id = Some r -> held_state (rv_State r) = true -> held_state st = false ->
  rv_Period r = Some start -> t_periods s !! (rv_Policy r, start) = Some q ->
  q_Reserved q' = q_Reserved q - rv_Units r -> 0 <= q_Consumed q' <= max_int64 -> 0 <= q_Reserved q' ->
  balanced (put_reservation id (with_reservation_state st t r) (set_periods (<[(rv_Policy r, start) := q']> (t_periods s)) s)).
Proof.
  intros Hb Hr Hh Hst Hp Hq Hq' Hc Hres. pose proof (bal_consumed s Hb _ _ Hq) as Hqb.
  destruct (bal_rows s Hb id r Hr) as [Hu _]. split; cbn.
  - intros pid start'. rewrite (held_sum_change _ _ r) by done. rewrite <- (bal_sum s Hb), Hst, Hh.
    unfold period_reserved. destruct (decide ((rv_Policy r, start) = (pid, start'))) as [[= <- <-]|Hne].
    + rewrite lookup_insert_eq, Hq, String.eqb_refl, bool_decide_eq_true_2 by done. cbn. lia.
    + rewrite lookup_insert_ne by done.
      replace ((rv_Policy r =s pid) && bool_decide (rv_Period r = Some start')) with false; [lia|].
      symmetry. apply andb_false_iff. rewrite String.eqb_neq, bool_decide_eq_false, Hp.
      destruct (decide (rv_Policy r = pid)) as [<-|]; [right|by left]. intros [= ->]. done.
  - by apply reservation_rows_change.
  - intros k q0. destruct (decide ((rv_Policy r, start) = k)) as [<-|Hne].
    + rewrite lookup_insert_eq. intros [= <-]. lia.
    + rewrite lookup_insert_ne by done. apply (bal_consumed s Hb).
Qed.

(** A period is never short of the units a reservation holds of it. *)
Lemma period_covers s id r start :
  balanced s -> t_reservations s !! id = Some r -> held_state (rv_State r) = true -> rv_Period r = Some start ->
  rv_Units r <= period_reserved (t_periods s) (rv_Policy r) start.
Proof.
  intros Hb Hr Hh Hp. rewrite (bal_sum s Hb).
  pose proof (msum_entry (held (rv_Policy r) start) _ id r (held_nonneg s _ _ Hb) Hr) as H.
  unfold held at 1 in H. rewrite String.eqb_refl, bool_decide_eq_true_2, Hh in H by done. exact H.
Qed.

(** * One booking step *)

(** Only counters and reservations differ. *)
Record counters_only (s s' : db) : Prop := mkCountersOnly {
  co_policies : t_policies s' = t_policies s; co_requests : t_requests s' = t_requests s;
  co_attempts : t_attempts s' = t_attempts s; co_leases : t_leases s' = t_leases s;
  co_ledger : t_ledger s' = t_ledger s; co_prices : t_prices s' = t_prices s;
  co_outbox : t_outbox s' = t_outbox s; co_users : t_users s' = t_users s;
  co_assessments : t_assessments s' = t_assessments s; co_clock : t_clock s' = t_clock s }.

Lemma counters_only_refl s : counters_only s s.
Proof. by split. Qed.

Lemma counters_only_trans s1 s2 s3 : counters_only s1 s2 -> counters_only s2 s3 -> counters_only s1 s3.
Proof. intros [] []. split; congruence. Qed.

Lemma updateQuotaPeriod_Ok pid start cd rd s u s' :
  updateQuotaPeriod pid start cd rd s = Ok (u, s') ->
  exists q n m, t_periods s !! (pid, start) = Some q /\ checkedAdd [q_Consumed q; cd] = Some n /\
    checkedAdd [q_Reserved q; rd] = Some m /\ 0 <= n <= maxSafeInteger /\ 0 <= m <= maxSafeInteger /\
    s' = set_periods (<[(pid, start) := mkPeriodRow (q_End q) n m (q_LastEffective q)]> (t_periods s)) s.
Proof.
  unfold updateQuotaPeriod. intros H. tx_inv.
  match goal with H : t_periods _ !! _ = Some ?q |- _ => exists q; rename H into Hq end.
  repeat match goal with H : match checkedAdd ?l with Some _ => _ | None => _ end = Ok _ |- _ =>
    destruct (checkedAdd l) eqn:?; [|done];
    match type of H with (if ?c then _ else _) = _ => destruct c eqn:?; [done|]; injection H as <- end end.
  match goal with H : update_row _ _ _ _ _ _ = _ |- _ => apply update_row_Ok in H as [(q' & Hq' & _ & _ & ->)|(-> & _ & _)] end; [|done].
  rewrite Hq in Hq'. injection Hq' as <-. eexists _, _. split_and!; try done; lia.
Qed.

Lemma wrap_tx_Ok {A} prefix (m : tx db A) s x : wrap_tx prefix m s = Ok x <-> m s = Ok x.
Proof. unfold wrap_tx, wrap_error. repeat case_match; naive_solver. Qed.

Lemma set_reservation_state_Ok id st t s u s' r :
  t_reservations s !! id = Some r -> set_reservation_state id st t s = Ok (u, s') ->
  s' = put_reservation id (with_reservation_state st t r) s.
Proof.
  unfold set_reservation_state. intros Hr H. tx_inv.
  match goal with H : update_row _ _ _ _ _ _ = _ |- _ => apply update_row_Ok in H as [(q' & Hq' & _ & _ & ->)|(-> & _ & Hc)] end.
  - by simplify_eq.
  - by specialize (Hc _ Hr).
Qed.

(** What one step of a booking loop does to its reservation. *)
Definition booked (out : ReservationRow -> ReservationRow -> Prop) (id : string) (r : ReservationRow) (s s' : db) : Prop :=
  counters_only s s' /\ balanced s' /\
  exists r', out r r' /\ t_reservations s' = <[id := r']> (t_reservations s).

(** The row in its next state. *)
Definition ended (st : ReservationState) (r r' : ReservationRow) : Prop := exists t, r' = with_reservation_state st t r.

Lemma neg_units r policies : reservation_ok policies r -> wrap64 (- rv_Units r) = - rv_Units r.
Proof. intros [Hu _]. apply wrap64_id. unfold_ints. lia. Qed.

(** Booking known units: the reservation is settled. *)
Lemma settle_reservation_booked o np pre t actual id r p s u s' :
  balanced s -> t_reservations s !! id = Some r -> held_state (rv_State r) = true -> t_policies s !! rv_Policy r = Some p ->
  settle_reservation o np pre t actual (id, (r, p)) s = Ok (u, s') ->
  booked (ended RvSettled) id r s s'.
Proof.
  intros Hb Hr Hh Hp H. unfold settle_reservation in H. tx_inv.
  pose proof (bal_rows s Hb id r Hr) as Hok. destruct Hok as (Hu & p0 & Hp0 & Hiff). rewrite Hp in Hp0. injection Hp0 as <-.
  destruct (decide (p_Algorithm p = TokenBucket)) as [Ha|Ha].
  - tx_inv. match goal with H : update_row _ _ _ _ _ _ = Ok (?n, ?s1) |- _ =>
      assert (exists x, s1 = set_buckets x s) as [y ->] by
        (apply update_row_Ok in H as [(? & _ & _ & _ & ->)|(_ & -> & _)]; [eauto | exists (t_buckets s); by destruct s]) end.
    match goal with H : set_reservation_state _ _ _ _ = _ |- _ => eapply set_reservation_state_Ok in H; [|exact Hr] end. subst.
    split_and!; [by split| |by eexists; split; [eexists|]].
    apply balanced_hold; [eapply balanced_frame; [..|exact Hb]; done|done|]. right; left. by apply Hiff.
  - destruct (rv_Period r) as [start|] eqn:Eper; [|tauto].
    match goal with H : wrap_tx _ _ _ = _ |- _ => apply wrap_tx_Ok, updateQuotaPeriod_Ok in H as (q & n & m & Hq & Hn & Hm & Hnb & Hmb & ->) end.
    match goal with H : set_reservation_state _ _ _ _ = _ |- _ => eapply set_reservation_state_Ok in H; [|exact Hr] end. subst.
    split_and!; [by split| |by eexists; split; [eexists|]].
    eapply balanced_drop; try done; cbn.
    + pose proof (bal_consumed s Hb _ _ Hq). rewrite (neg_units r (t_policies s)) in Hm by (by apply (bal_rows s Hb id)).
      apply checkedAdd_exact in Hm as [-> _]; [cbn; lia|].
      rewrite !Forall_cons, Forall_nil. unfold_ints. lia.
    + unfold maxSafeInteger, max_int64 in *. lia.
    + lia.
Qed.

Lemma settle_item_booked t unknown tokens cost id r p s u s' :
  balanced s -> t_reservations s !! id = Some r -> rv_State r = RvActive -> t_policies s !! rv_Policy r = Some p ->
  settle_item t unknown tokens cost (id, (r, p)) s = Ok (u, s') ->
  booked (fun r r' => ended RvSettled r r' \/ ended RvUncertain r r') id r s s'.
Proof.
  intros Hb Hr Hst Hp. unfold settle_item.
  destruct (if unknown then None else settlementUnits (p_Metric p) tokens cost) as [actual|].
  - intros H. eapply settle_reservation_booked in H as (? & ? & r' & ? & ?); [|done|done|by rewrite Hst|done].
    split_and!; [done..|]. exists r'. auto.
  - intros H. eapply set_reservation_state_Ok in H; [|exact Hr]. subst.
    split_and!; [by split| |eexists; split; [right; by exists t|done]]. apply balanced_hold; [done..|]. left. by rewrite Hst.
Qed.

Lemma release_item_booked t id r p s u s' :
  balanced s -> t_reservations s !! id = Some r -> rv_State r = RvActive -> t_policies s !! rv_Policy r = Some p ->
  release_item t (id, (r, p)) s = Ok (u, s') -> booked (ended RvReleased) id r s s'.
Proof.
  intros Hb Hr Hst Hp H. unfold release_item in H. tx_inv.
  pose proof (bal_rows s Hb id r Hr) as (Hu & p0 & Hp0 & Hiff). rewrite Hp in Hp0. injection Hp0 as <-.
  destruct (decide (p_Algorithm p = TokenBucket)) as [Ha|Ha].
  - match goal with H : update_row _ _ _ _ _ _ = Ok (?n, ?s1) |- _ =>
      assert (exists x, s1 = set_buckets x s) as [y ->] by
        (apply update_row_Ok in H as [(? & _ & _ & _ & ->)|(_ & -> & _)]; [eauto | exists (t_buckets s); by destruct s]) end.
    match goal with H : set_reservation_state _ _ _ _ = _ |- _ => eapply set_reservation_state_Ok in H; [|exact Hr] end. subst.
    split_and!; [by split| |by eexists; split; [eexists|]].
    apply balanced_hold; [eapply balanced_frame; [..|exact Hb]; done|done|]. right; left. by apply Hiff.
  - destruct (rv_Period r) as [start|] eqn:Eper; [|tauto]. change (default 0 (Some start)) with start in *.
    pose proof (period_covers s id r start Hb Hr ltac:(by rewrite Hst) Eper) as Hcov. unfold period_reserved in Hcov.
    match goal with H : update_row _ _ _ _ _ _ = _ |- _ => apply update_row_Ok in H as [(q & Hq & Hc & _ & ->)|(_ & -> & Hc)] end.
    + match goal with H : set_reservation_state _ _ _ _ = _ |- _ => eapply set_reservation_state_Ok in H; [|exact Hr] end. subst.
      rewrite Hq in Hcov. pose proof (bal_consumed s Hb _ _ Hq).
      split_and!; [by split| |by eexists; split; [eexists|]]. eapply balanced_drop; try done; cbn; try lia. by rewrite Hst.
    + match goal with H : set_reservation_state _ _ _ _ = _ |- _ => eapply set_reservation_state_Ok in H; [|exact Hr] end. subst.
      split_and!; [by split| |by eexists; split; [eexists|]]. apply balanced_hold; [done..|]. right; right.
      destruct (t_periods s !! (rv_Policy r, start)) as [q|] eqn:Hq; [|lia]. specialize (Hc _ eq_refl). lia.
Qed.

Lemma reconcile_item_booked t tokens cost id r p s u s' :
  balanced s -> t_reservations s !! id = Some r -> rv_State r = RvUncertain -> t_policies s !! rv_Policy r = Some p ->
  reconcile_item t tokens cost (id, (r, p)) s = Ok (u, s') ->
  booked (fun r r' => r' = r \/ ended RvSettled r r') id r s s'.
Proof.
  intros Hb Hr Hst Hp. unfold reconcile_item.
  destruct (settlementUnits (p_Metric p) tokens cost) as [actual|].
  - intros H. eapply settle_reservation_booked in H as (? & ? & r' & ? & ?); [|done|done|by rewrite Hst|done].
    split_and!; [done..|]. exists r'. auto.
  - intros [_ <-]%tx_ret_Ok. split_and!; [apply counters_only_refl|done|]. exists r. split; [by left|]. by rewrite insert_id.
Qed.

(** * The booking loops *)

Section Loop.
Context (st0 : ReservationState) (out : ReservationRow -> ReservationRow -> Prop).
Context (f : string * (ReservationRow * PolicyRow) -> tx db unit).
Hypothesis step : forall id r p s u s',
  balanced s -> t_reservations s !! id = Some r -> rv_State r = st0 -> t_policies s !! rv_Policy r = Some p ->
  f (id, (r, p)) s = Ok (u, s') -> booked out id r s s'.

(** What a whole loop over [items] does: every item ends in an outcome, the
    other reservations are untouched. *)
Definition looped (items : list (string * (ReservationRow * PolicyRow))) (s s' : db) : Prop :=
  counters_only s s' /\ balanced s' /\
  (forall id, id ∉ items.*1 -> t_reservations s' !! id = t_reservations s !! id) /\
  (forall id r p, (id, (r, p)) ∈ items -> exists r', out r r' /\ t_reservations s' !! id = Some r').

Lemma loop_looped items s u s' :
  balanced s -> NoDup items.*1 ->
  (forall id r p, (id, (r, p)) ∈ items ->
     t_reservations s !! id = Some r /\ rv_State r = st0 /\ t_policies s !! rv_Policy r = Some p) ->
  for_each f items s = Ok (u, s') -> looped items s s'.
Proof.
  revert s. induction items as [|[id [r p]] items IH]; intros s Hb Hnd Hin; cbn [for_each].
  - intros [_ <-]%tx_ret_Ok. split_and!; [apply counters_only_refl|done|done|]. intros id r p Hel. by apply elem_of_nil in Hel.
  - intros ([] & s1 & H1 & H2)%tx_bind_Ok. cbn in Hnd. apply NoDup_cons in Hnd as [Hnotin Hnd].
    destruct (Hin id r p ltac:(by left)) as (Hr & Hst & Hp).
    destruct (step id r p s tt s1 Hb Hr Hst Hp H1) as (Hco & Hb1 & r' & Hout & Hres).
    destruct (IH s1 Hb1 Hnd) as (Hco2 & Hb2 & Hother & Hitems); [|exact H2|].
    { intros id' r0 p' Hel. assert (id <> id').
      { intros ->. apply Hnotin. apply list_elem_of_fmap. by exists (id', (r0, p')). }
      rewrite Hres, lookup_insert_ne, (co_policies _ _ Hco) by done. apply Hin. by right. }
    split_and!; [by eapply counters_only_trans|done|..].
    + intros id' Hn. cbn in Hn. apply not_elem_of_cons in Hn as [Hne Hn].
      rewrite Hother, Hres, lookup_insert_ne by done. done.
    + intros id' r0 p' Hel. apply elem_of_cons in Hel as [[= -> -> ->]|Hel].
      * exists r'. split; [done|]. rewrite Hother by done. rewrite Hres. apply lookup_insert_eq.
      * by apply Hitems in Hel.
Qed.
End Loop.

(** The join with the policies loses no row of a balanced store. *)
Lemma elem_of_held_by s attemptID st id r p :
  (id, (r, p)) ∈ held_by s attemptID st <->
  t_reservations s !! id = Some r /\ rv_Attempt r = attemptID /\ rv_State r = st /\ t_policies s !! rv_Policy r = Some p.
Proof.
  unfold held_by. rewrite list_elem_of_omap. split.
  - intros ([id' r'] & Hel & H). apply elem_of_select_rows in Hel as [Hr Hc]. cbn in H.
    destruct (t_policies s !! rv_Policy r') eqn:Hp; [|done]. injection H as -> -> ->.
    apply andb_true_iff in Hc as [Hc1 Hc2]. apply String.eqb_eq in Hc1. apply bool_decide_eq_true in Hc2. done.
  - intros (Hr & Ha & Hst & Hp). exists (id, r). split.
    + apply elem_of_select_rows. split; [done|]. rewrite Ha, String.eqb_refl. by apply bool_decide_eq_true.
    + cbn. by rewrite Hp.
Qed.

Lemma held_by_complete s attemptID st id r :
  balanced s -> t_reservations s !! id = Some r -> rv_Attempt r = attemptID -> rv_State r = st ->
  exists p, (id, (r, p)) ∈ held_by s attemptID st.
Proof.
  intros Hb Hr Ha Hst. destruct (bal_rows s Hb id r Hr) as (_ & p & Hp & _). exists p. by apply elem_of_held_by.
Qed.

Lemma NoDup_held_by s attemptID st : NoDup (held_by s attemptID st).*1.
Proof.
  unfold held_by. match goal with |- NoDup (omap ?f ?l).*1 => assert (sublist ((omap f l).*1) (l.*1)) as Hsub end.
  - induction (select_rows _ _) as [|[id r] l IH]; cbn; [constructor|].
    destruct (t_policies s !! rv_Policy r); cbn; by constructor.
  - eapply sublist_NoDup; [|exact Hsub]. apply NoDup_select_rows.
Qed.

(** ** The loop of each operation *)

(** After it the attempt holds nothing in the state the loop started from. *)
Definition attempt_done (attemptID : string) (st : ReservationState) (s s' : db) : Prop :=
  counters_only s s' /\ balanced s' /\
  (forall id r', t_reservations s' !! id = Some r' ->
     (t_reservations s !! id = Some r' /\ ~ (rv_Attempt r' = attemptID /\ rv_State r' = st)) \/
     (exists r, t_reservations s !! id = Some r /\ rv_Attempt r = attemptID /\ rv_State r = st /\
        rv_Attempt r' = rv_Attempt r /\ rv_Policy r' = rv_Policy r /\ rv_Period r' = rv_Period r /\
        rv_Units r' = rv_Units r /\ rv_State r' <> RvActive)).

Lemma looped_done attemptID st out s s' :
  balanced s -> looped out (held_by s attemptID st) s s' ->
  (forall r r', rv_State r = st -> out r r' -> rv_Attempt r' = rv_Attempt r /\ rv_Policy r' = rv_Policy r /\
     rv_Period r' = rv_Period r /\ rv_Units r' = rv_Units r /\ rv_State r' <> RvActive) ->
  attempt_done attemptID st s s'.
Proof.
  intros Hb (Hco & Hb' & Hother & Hitems) Hout. split_and!; [done..|]. intros id r' Hr'.
  destruct (decide (id ∈ (held_by s attemptID st).*1)) as [Hin|Hn].
  - right. apply list_elem_of_fmap in Hin as ([id' [r p]] & -> & Hin). cbn in *.
    destruct (Hitems _ _ _ Hin) as (r'' & Ho & Hr''). apply elem_of_held_by in Hin as (Hr & Ha & Hst & _).
    rewrite Hr' in Hr''. injection Hr'' as <-. exists r. naive_solver.
  - left. rewrite Hother in Hr' by done. split; [done|]. intros [Ha Hst]. apply Hn.
    destruct (held_by_complete s attemptID st id r' Hb Hr' Ha Hst) as [p Hp].
    apply list_elem_of_fmap. by exists (id, (r', p)).
Qed.

Ltac outcome :=
  intros; cbn beta in *; repeat match goal with H : _ \/ _ |- _ => destruct H | H : ended _ _ _ |- _ => destruct H as [? ->] end;
  subst; cbn; split_and!; congruence.

Lemma settle_loop_done t unknown tokens cost attemptID s u s' :
  balanced s -> for_each (settle_item t unknown tokens cost) (held_by s attemptID RvActive) s = Ok (u, s') ->
  attempt_done attemptID RvActive s s'.
Proof.
  intros Hb H. eapply looped_done; [done| |]; [eapply (loop_looped RvActive); [|done|apply NoDup_held_by| |exact H]|].
  - intros. by eapply settle_item_booked.
  - intros id r p Hel. apply elem_of_held_by in Hel. tauto.
  - outcome.
Qed.

Lemma release_done attemptID t s u s' :
  balanced s -> releaseReservations attemptID t s = Ok (u, s') -> attempt_done attemptID RvActive s s'.
Proof.
  intros Hb H. unfold releaseReservations in H. tx_inv.
  match goal with H' : for_each _ _ _ = _ |- _ => rename H' into H end.
  eapply looped_done; [done| |]; [eapply (loop_looped RvActive); [|done|apply NoDup_held_by| |exact H]|].
  - intros. by eapply release_item_booked.
  - intros id r p Hel. apply elem_of_held_by in Hel. tauto.
  - outcome.
Qed.

Lemma reconcile_loop_done t tokens cost attemptID s u s' :
  balanced s -> for_each (reconcile_item t tokens cost) (held_by s attemptID RvUncertain) s = Ok (u, s') ->
  attempt_done attemptID RvUncertain s s'.
Proof.
  intros Hb H. eapply looped_done; [done| |]; [eapply (loop_looped RvUncertain); [|done|apply NoDup_held_by| |exact H]|].
  - intros. by eapply reconcile_item_booked.
  - intros id r p Hel. apply elem_of_held_by in Hel. tauto.
  - outcome.
Qed.
