(* ===== verification/Lifecycle.v ===== *)
(** The life of requests and attempts: every operation of the usage services
    as a step on the database, and the invariant its reachable states keep.
    The reserved units balance, an active reservation belongs to a running
    attempt, a request has at most one running attempt and is [reserved]
    exactly while it has one, and concurrency leases are held only for what
    is still open. *)
From S2P Require Import Prelude GoStd Money Calendar Counters Policy Json Store Pricing PolicyService Admission Settlement Reservations.

(** * The invariant *)

Definition live (a : AttemptRow) : Prop := live_state (at_State a) = true.

(** A request that may still run an attempt. *)
Definition open_request (st : RequestState) : Prop := st = RqReserved \/ st = RqInProgress.

Record lifecycle (s : db) : Prop := mkLifecycle {
  lc_active : forall id r, t_reservations s !! id = Some r -> rv_State r = RvActive ->
    exists a, t_attempts s !! rv_Attempt r = Some a /\ live a;
  lc_request : forall id a, t_attempts s !! id = Some a ->
    exists rq, t_requests s !! at_Request a = Some rq /\ (live a -> rq_State rq = RqReserved);
  lc_one : forall i j a b, t_attempts s !! i = Some a -> t_attempts s !! j = Some b -> live a -> live b ->
    at_Request a = at_Request b -> i = j;
  lc_reserved : forall id rq, t_requests s !! id = Some rq -> rq_State rq = RqReserved ->
    exists i a, t_attempts s !! i = Some a /\ at_Request a = id /\ live a }.

Definition lease_ok (s : db) (kind : LeaseKind) (id : string) (l : LeaseRow) : Prop :=
  match kind with
  | LeaseRequest => le_Request l = id /\ exists rq, t_requests s !! id = Some rq /\ open_request (rq_State rq)
  | LeaseAttempt => exists a, t_attempts s !! id = Some a /\ live a
  end.

Definition leases_ok (s : db) : Prop :=
  forall pid kind id l, t_leases s !! (pid, kind, id) = Some l -> lease_ok s kind id l.

Record invariant (s : db) : Prop := mkInvariant {
  inv_balanced : balanced s; inv_lifecycle : lifecycle s; inv_leases : leases_ok s }.

(** * Frames *)

Lemma lifecycle_frame s s' :
  t_requests s' = t_requests s -> t_attempts s' = t_attempts s -> t_reservations s' = t_reservations s ->
  lifecycle s -> lifecycle s'.
Proof. intros Eq Ea Er [H1 H2 H3 H4]. split; rewrite ?Eq, ?Ea, ?Er; done. Qed.

Lemma leases_frame s s' :
  t_requests s' = t_requests s -> t_attempts s' = t_attempts s -> t_leases s' = t_leases s ->
  leases_ok s -> leases_ok s'.
Proof. unfold leases_ok, lease_ok. intros Eq Ea El H pid [] id l; rewrite El, ?Eq, ?Ea; apply H. Qed.

Lemma invariant_frame s s' :
  t_policies s' = t_policies s -> t_periods s' = t_periods s -> t_reservations s' = t_reservations s ->
  t_requests s' = t_requests s -> t_attempts s' = t_attempts s -> t_leases s' = t_leases s ->
  invariant s -> invariant s'.
Proof.
  intros ? ? ? ? ? ? [Hb Hl Hle].
  split; [by eapply balanced_frame | by eapply lifecycle_frame | by eapply leases_frame].
Qed.

(** * Ending an attempt *)

(** The step every ending shares: the attempt leaves the running states, its
    request leaves [reserved], and its active reservations are gone. *)
Record ends (attemptID : string) (a : AttemptRow) (rq' : RequestRow) (s s' : db) : Prop := mkEnds {
  en_attempt : exists a', t_attempts s' = <[attemptID := a']> (t_attempts s) /\ at_Request a' = at_Request a /\ ~ live a';
  en_request : t_requests s' = <[at_Request a := rq']> (t_requests s) /\ rq_State rq' <> RqReserved;
  en_active : forall id r, t_reservations s' !! id = Some r -> rv_State r = RvActive ->
    t_reservations s !! id = Some r /\ rv_Attempt r <> attemptID }.

Lemma ends_lifecycle attemptID a rq' s s' :
  lifecycle s -> t_attempts s !! attemptID = Some a -> live a -> ends attemptID a rq' s s' -> lifecycle s'.
Proof.
  intros [H1 H2 H3 H4] Ha Hl [(a' & Ea & Hr' & Hd) (Er & Hst) Hact]. split.
  - intros id r Hr Hs. destruct (Hact id r Hr Hs) as [Hr0 Hne]. rewrite Ea, lookup_insert_ne by done. by eapply H1.
  - intros id b. rewrite Ea. intros Hb. destruct (decide (attemptID = id)) as [<-|Hne].
    + rewrite lookup_insert_eq in Hb. injection Hb as <-. rewrite Hr', Er, lookup_insert_eq. exists rq'. done.
    + rewrite lookup_insert_ne in Hb by done. destruct (H2 id b Hb) as (rq & Hrq & Hlb). rewrite Er.
      destruct (decide (at_Request a = at_Request b)) as [E|E].
      * rewrite E, lookup_insert_eq. exists rq'. split; [done|]. intros Hlive. exfalso. apply Hne. by eapply H3.
      * rewrite lookup_insert_ne by done. eauto.
  - intros i j b c. rewrite Ea. intros Hi Hj Hbl Hcl E.
    destruct (decide (attemptID = i)) as [<-|Hi']; [rewrite lookup_insert_eq in Hi; by injection Hi as <-|].
    destruct (decide (attemptID = j)) as [<-|Hj']; [rewrite lookup_insert_eq in Hj; by injection Hj as <-|].
    rewrite lookup_insert_ne in Hi, Hj by done. by eapply H3.
  - intros id rq. rewrite Er. intros Hrq Hs. destruct (decide (at_Request a = id)) as [<-|Hne].
    + rewrite lookup_insert_eq in Hrq. by injection Hrq as <-.
    + rewrite lookup_insert_ne in Hrq by done. destruct (H4 id rq Hrq Hs) as (i & b & Hb & <- & Hlb).
      exists i, b. rewrite Ea, lookup_insert_ne; [done|]. intros <-. rewrite Ha in Hb. injection Hb as <-. done.
Qed.

(** The leases that survive: those of the attempt go, those of the request go
    unless it stays open. *)
Lemma ends_leases attemptID a rq' s s' :
  lifecycle s -> leases_ok s -> t_attempts s !! attemptID = Some a -> live a -> ends attemptID a rq' s s' ->
  (forall pid kind id l, t_leases s' !! (pid, kind, id) = Some l ->
     t_leases s !! (pid, kind, id) = Some l /\ (kind = LeaseAttempt -> id <> attemptID) /\
     (kind = LeaseRequest -> id = at_Request a -> open_request (rq_State rq'))) ->
  leases_ok s'.
Proof.
  intros Hlc Hle Ha Hl [(a' & Ea & _ & _) (Er & _) _] Hsub pid kind id l Hlease.
  destruct (Hsub _ _ _ _ Hlease) as (Hl0 & Hna & Hnr). specialize (Hle _ _ _ _ Hl0). destruct kind; cbn in *.
  - destruct Hle as (Hreq & rq & Hrq & Hop). split; [done|]. rewrite Er.
    destruct (decide (at_Request a = id)) as [<-|Hne].
    + rewrite lookup_insert_eq. exists rq'. split; [done|]. by apply Hnr.
    + rewrite lookup_insert_ne by done. eauto.
  - destruct Hle as (b & Hb & Hlb). rewrite Ea, lookup_insert_ne by (intros <-; by apply Hna). eauto.
Qed.

(** What [attempt_done] says about active reservations. *)
Lemma attempt_done_active attemptID s s' id r :
  attempt_done attemptID RvActive s s' -> t_reservations s' !! id = Some r -> rv_State r = RvActive ->
  t_reservations s !! id = Some r /\ rv_Attempt r <> attemptID.
Proof.
  intros (_ & _ & H) Hr Hs. destruct (H id r Hr) as [[Hr0 Hn]|(r0 & _ & _ & _ & _ & _ & _ & _ & Hna)]; [|done].
  split; [done|]. intros E. by apply Hn.
Qed.

(** * Reading the effects of statements *)

Lemma set_request_state_Ok id st fin s u s' rq :
  t_requests s !! id = Some rq -> set_request_state id st fin s = Ok (u, s') ->
  s' = set_requests (<[id := with_request_state st fin rq]> (t_requests s)) s.
Proof. unfold set_request_state. intros Hr H. tx_inv. by eapply (update_row_always t_requests). Qed.

Lemma delete_leases_Ok kind id s u s' :
  delete_leases kind id s = Ok (u, s') ->
  exists m, s' = set_leases m s /\ forall pid k i l, m !! (pid, k, i) = Some l <->
    t_leases s !! (pid, k, i) = Some l /\ ~ (k = kind /\ i = id).
Proof.
  unfold delete_leases, delete_rows. intros ->%modify_Ok. eexists. split; [done|]. intros pid k i l.
  rewrite map_lookup_filter_Some. cbn. rewrite andb_false_iff, bool_decide_eq_false, String.eqb_neq. destruct (decide (k = kind)), (decide (i = id)); tauto.
Qed.

Lemma delete_request_leases_Ok id s u s' :
  delete_request_leases id s = Ok (u, s') ->
  exists m, s' = set_leases m s /\ forall pid k i l, m !! (pid, k, i) = Some l <->
    t_leases s !! (pid, k, i) = Some l /\ ~ (k = LeaseRequest /\ le_Request l = id).
Proof.
  unfold delete_request_leases, delete_rows. intros ->%modify_Ok. eexists. split; [done|]. intros pid k i l.
  rewrite map_lookup_filter_Some. cbn. rewrite andb_false_iff, bool_decide_eq_false, String.eqb_neq. destruct (decide (k = LeaseRequest)), (decide (le_Request l = id)); tauto.
Qed.

Lemma insert_ledger_Ok k row s u s' : insert_ledger k row s = Ok (u, s') -> t_ledger s !! k = None /\ s' = set_ledger (<[k := row]> (t_ledger s)) s.
Proof. unfold insert_ledger. intros H. tx_inv. by match goal with H : insert_row _ _ _ _ _ = _ |- _ => apply insert_row_Ok in H end. Qed.

Lemma insert_assessment_Ok k row s u s' : insert_assessment k row s = Ok (u, s') -> exists m, s' = set_assessments m s.
Proof. unfold insert_assessment. intros H. tx_inv. match goal with H : insert_row _ _ _ _ _ = _ |- _ => apply insert_row_Ok in H as [_ ->] end. eauto. Qed.

Lemma attempt_join_Some s id a r :
  attempt_join s id = Some (a, r) <-> t_attempts s !! id = Some a /\ t_requests s !! at_Request a = Some r.
Proof.
  unfold attempt_join. destruct (t_attempts s !! id) as [a'|]; cbn; [|naive_solver].
  destruct (t_requests s !! at_Request a') as [r'|] eqn:E; cbn; naive_solver.
Qed.

Lemma live_reserved s id a : lifecycle s -> t_attempts s !! id = Some a -> live a ->
  exists rq, t_requests s !! at_Request a = Some rq /\ rq_State rq = RqReserved.
Proof. intros H Ha Hl. destruct (lc_request s H id a Ha) as (rq & ? & ?). eauto. Qed.

(** Applies the effect lemma of every statement in the context. *)
Ltac effects :=
  repeat match goal with
  | H : appendOutbox _ _ _ _ _ _ = Ok _ |- _ => apply appendOutbox_Ok in H as [? ->]
  | H : insertAudit _ _ _ _ _ _ _ _ = Ok _ |- _ => apply insertAudit_Ok in H as [? ->]
  | H : insert_assessment _ _ _ = Ok _ |- _ => apply insert_assessment_Ok in H as [? ->]
  | H : insert_ledger _ _ _ = Ok _ |- _ => apply insert_ledger_Ok in H as [? ->]
  | H : delete_leases _ _ _ = Ok _ |- _ => apply delete_leases_Ok in H as (? & -> & ?)
  | H : delete_request_leases _ _ = Ok _ |- _ => apply delete_request_leases_Ok in H as (? & -> & ?)
  end.

(** * The operations keep the invariant *)

Lemma live_reserved_state a : at_State a = AtReserved -> live a.
Proof. unfold live. by intros ->. Qed.

Lemma cancel_invariant e attemptID s u s' :
  invariant s -> cancel_tx e attemptID s = Ok (u, s') -> invariant s'.
Proof.
  intros [Hb Hlc Hle] H. unfold cancel_tx in H.
  apply tx_bind_Ok in H as ([a r] & s1 & Hg & H). apply get_row_Ok in Hg as [Hj ->].
  destruct (attempt_join s attemptID) as [[a0 r0]|] eqn:Ej; cbn in Hj; [|done].
  destruct (decide (at_State a0 = AtReserved)) as [Hst|]; [|done]. injection Hj as -> ->.
  apply attempt_join_Some in Ej as [Ha Hr]. apply live_reserved_state in Hst as Hl. tx_inv.
  match goal with H : releaseReservations _ _ _ = _ |- _ => apply release_done in H as Hdone; [|done]; clear H end.
  pose proof Hdone as (Hco & Hb2 & _). effects.
  match goal with H : update_row t_attempts _ _ _ _ _ = _ |- _ => apply update_row_always with (v := a) in H; [subst|cbn; by rewrite (co_attempts _ _ Hco)] end.
  match goal with H : set_request_state _ _ _ _ = _ |- _ => apply set_request_state_Ok with (rq := r) in H; [subst|cbn; by rewrite (co_requests _ _ Hco)] end.
  cbn in *. rewrite (co_leases _ _ Hco), ?(co_attempts _ _ Hco), ?(co_requests _ _ Hco) in *.
  match goal with |- invariant ?s2 =>
    assert (ends attemptID a (with_request_state RqCancelled (Some (now e 0)) r) s s2) as Hends end.
  { split; cbn; [eexists; split; [done|by split]|done|]. intros id rv Hrv Hs. by eapply attempt_done_active. }
  split.
  - eapply balanced_frame; [..|exact Hb2]; done.
  - by eapply ends_lifecycle.
  - eapply ends_leases; [exact Hlc|exact Hle|exact Ha|exact Hl|exact Hends|]. cbn. intros pid k i l Hx. naive_solver.
Qed.

Lemma requestState_ended st : requestState st <> RqReserved /\ requestState st <> RqInProgress.
Proof. by destruct st. Qed.

Lemma record_assessment_Ok tok attemptID snap i cost t s u s' :
  record_assessment tok attemptID snap i cost t s = Ok (u, s') -> exists m, s' = set_assessments m s.
Proof.
  unfold record_assessment. destruct (as_Price snap), cost; try apply insert_assessment_Ok;
    intros [_ <-]%tx_ret_Ok; exists (t_assessments s); by destruct s.
Qed.

Lemma end_or_continue_Ok final id st t s u s' r :
  t_requests s !! id = Some r -> end_or_continue final id st t s = Ok (u, s') ->
  exists rq' m, s' = set_requests (<[id := rq']> (t_requests s)) (set_leases m s) /\ rq_State rq' <> RqReserved /\
    forall pid k i l, m !! (pid, k, i) = Some l ->
      t_leases s !! (pid, k, i) = Some l /\ (k = LeaseRequest -> i = id -> open_request (rq_State rq')).
Proof.
  unfold end_or_continue. intros Hr H. destruct final; tx_inv; effects.
  - match goal with H : set_request_state _ _ _ _ = _ |- _ => apply set_request_state_Ok with (rq := r) in H; [subst|done] end.
    eexists _, _. split; [done|]. split; [apply requestState_ended|]. intros pid k i l Hl. naive_solver.
  - match goal with H : update_row _ _ _ _ _ _ = _ |- _ => apply update_row_always with (v := r) in H; [subst|done] end.
    exists (with_request_state RqInProgress (rq_Finished r) r), (t_leases s). split; [by destruct s|]. split; [done|].
    intros pid k i l Hl. split; [done|]. intros _ _. by right.
Qed.

Lemma book_settlement_invariant e attemptID i st us a r cost tokens s u s' :
  invariant s -> t_attempts s !! attemptID = Some a -> t_requests s !! at_Request a = Some r ->
  live a -> live_state st = false ->
  book_settlement e attemptID i st us a r cost tokens s = Ok (u, s') -> invariant s'.
Proof.
  intros [Hb Hlc Hle] Ha Hr Hl Hst H. unfold book_settlement in H. tx_inv.
  match goal with H : insert_ledger _ _ _ = _ |- _ => apply insert_ledger_Ok in H as [_ ->] end.
  match goal with H : for_each _ _ _ = _ |- _ => apply settle_loop_done in H as Hdone; [|eapply balanced_frame; [..|exact Hb]; done]; clear H end.
  pose proof Hdone as (Hco & Hb2 & _). effects.
  match goal with H : update_row t_attempts _ _ _ _ _ = _ |- _ => apply update_row_always with (v := a) in H; [subst|by rewrite (co_attempts _ _ Hco)] end.
  match goal with H : record_assessment _ _ _ _ _ _ _ = _ |- _ => apply record_assessment_Ok in H as [? ->] end.
  match goal with H : end_or_continue _ _ _ _ _ = _ |- _ => apply end_or_continue_Ok with (r := r) in H as (rq' & m & -> & Hrq & Hm); [|cbn; by rewrite (co_requests _ _ Hco)] end.
  cbn in *. rewrite (co_leases _ _ Hco), ?(co_attempts _ _ Hco), ?(co_requests _ _ Hco) in *. cbn in *.
  match goal with |- invariant ?s2 => assert (ends attemptID a rq' s s2) as Hends end.
  { split; cbn; [eexists; split; [done|]; split; [done|]; unfold live; cbn; congruence|done|].
    intros id rv Hrv Hs. apply (attempt_done_active _ _ _ _ _ Hdone Hrv Hs). }
  split.
  - eapply balanced_frame; [..|exact Hb2]; done.
  - by eapply ends_lifecycle.
  - eapply ends_leases; [exact Hlc|exact Hle|exact Ha|exact Hl|exact Hends|]. cbn. intros pid k j l Hx.
    apply Hm in Hx as [Hx Hop]. naive_solver.
Qed.

Lemma check_settlement_dead i ts st us : check_settlement i ts = Ok (st, us) -> live_state st = false.
Proof.
  unfold check_settlement. intros H. do 4 apply result_bind_Ok in H as (? & _ & H).
  unfold settled_state_of in H. repeat case_match; simplify_eq; done.
Qed.

Lemma settle_invariant e attemptID i st us s u s' :
  invariant s -> live_state st = false -> settle_tx e attemptID i st us s = Ok (u, s') -> invariant s'.
Proof.
  intros Hi Hst H. unfold settle_tx in H.
  apply tx_bind_Ok in H as (a & s1 & Hg & H). apply get_row_Ok in Hg as [Ha ->].
  apply tx_bind_Ok in H as (? & s1 & Hg & H). apply require_Ok in Hg as [_ ->].
  apply tx_bind_Ok in H as (s0 & s1 & Hg & H). apply reads_Ok in Hg as [-> ->].
  destruct (t_ledger s !! si_IdempotencyKey i); [by apply lift_Ok in H as [_ ->]|].
  apply tx_bind_Ok in H as ([a0 r] & s1 & Hg & H). apply get_row_Ok in Hg as [Hj ->].
  apply attempt_join_Some in Hj as [Ha0 Hr]. rewrite Ha in Ha0. injection Ha0 as <-.
  apply tx_bind_Ok in H as (? & s1 & Hg & H). apply require_Ok in Hg as [Hl ->].
  apply tx_bind_Ok in H as (cost & s1 & Hg & H). apply lift_Ok in Hg as [_ ->].
  apply tx_bind_Ok in H as (tokens & s1 & Hg & H). apply lift_Ok in Hg as [_ ->].
  by eapply book_settlement_invariant.
Qed.

(** * Steps that end no attempt *)

Definition same_attempt (a a' : AttemptRow) : Prop := at_Request a' = at_Request a /\ (live a' <-> live a).
Definition same_request (r r' : RequestRow) : Prop := rq_State r' = RqReserved <-> rq_State r = RqReserved.

(** Attempts keep their request and whether they run, requests whether they
    are reserved; no reservation becomes active. *)
Record relabels (s s' : db) : Prop := mkRelabels {
  rl_attempts : map_Forall2 (fun _ => same_attempt) (t_attempts s) (t_attempts s');
  rl_requests : map_Forall2 (fun _ => same_request) (t_requests s) (t_requests s');
  rl_active : forall id r, t_reservations s' !! id = Some r -> rv_State r = RvActive -> t_reservations s !! id = Some r }.

Lemma row_before {K A} `{Countable K} (R : A -> A -> Prop) (m m' : gmap K A) k a' :
  map_Forall2 (fun _ => R) m m' -> m' !! k = Some a' -> exists a, m !! k = Some a /\ R a a'.
Proof. intros HR Hk. specialize (HR k). rewrite Hk in HR. inversion HR; eauto. Qed.

Lemma row_after {K A} `{Countable K} (R : A -> A -> Prop) (m m' : gmap K A) k a :
  map_Forall2 (fun _ => R) m m' -> m !! k = Some a -> exists a', m' !! k = Some a' /\ R a a'.
Proof. intros HR Hk. specialize (HR k). rewrite Hk in HR. inversion HR; eauto. Qed.

Lemma map_Forall2_same {K A} `{Countable K} (R : A -> A -> Prop) `{!Reflexive R} (m : gmap K A) :
  map_Forall2 (fun _ => R) m m.
Proof. intros k. destruct (m !! k); constructor. done. Qed.

Lemma map_Forall2_change {K A} `{Countable K} (R : A -> A -> Prop) `{!Reflexive R} (m : gmap K A) k a a' :
  m !! k = Some a -> R a a' -> map_Forall2 (fun _ => R) m (<[k := a']> m).
Proof.
  intros Hk HR j. destruct (decide (k = j)) as [<-|Hne].
  - rewrite lookup_insert_eq, Hk. by constructor.
  - rewrite lookup_insert_ne by done. destruct (m !! j); by constructor.
Qed.

#[export] Instance same_attempt_refl : Reflexive same_attempt. Proof. by split. Qed.
#[export] Instance same_request_refl : Reflexive same_request. Proof. by split. Qed.

Lemma relabels_lifecycle s s' : relabels s s' -> lifecycle s -> lifecycle s'.
Proof.
  intros [Ra Rr Rv] [H1 H2 H3 H4].
  assert (forall id a', t_attempts s' !! id = Some a' -> exists a, t_attempts s !! id = Some a /\ same_attempt a a') as Ba
    by (intros id a' Ha; by apply (row_before _ _ _ _ _ Ra Ha)).
  split.
  - intros id r Hr Hs. specialize (Rv id r Hr Hs). destruct (H1 id r Rv Hs) as (a & Ha & Hl).
    destruct (row_after _ _ _ _ _ Ra Ha) as (a' & Ha' & _ & Hl'). exists a'. tauto.
  - intros id a' Ha'. destruct (Ba _ _ Ha') as (a & Ha & Hq & Hl). destruct (H2 id a Ha) as (rq & Hrq & Himp).
    destruct (row_after _ _ _ _ _ Rr Hrq) as (rq' & Hrq' & Hs). rewrite Hq. exists rq'. split; [done|].
    intros Hl'. apply Hs. tauto.
  - intros i j a b Ha Hb Hla Hlb E. destruct (Ba _ _ Ha) as (a0 & Ha0 & Hqa & Hl0), (Ba _ _ Hb) as (b0 & Hb0 & Hqb & Hl1).
    eapply H3; [exact Ha0|exact Hb0|tauto..|]. congruence.
  - intros id rq' Hrq' Hs. destruct (row_before _ _ _ _ _ Rr Hrq') as (rq & Hrq & Hss).
    destruct (H4 id rq Hrq) as (i & a & Ha & Hq & Hl); [by apply Hss|].
    destruct (row_after _ _ _ _ _ Ra Ha) as (a' & Ha' & Hq' & Hl'). exists i, a'. split_and!; [done|congruence|tauto].
Qed.

(** Leases may go; those that stay still name something open. *)
Lemma relabels_leases s s' :
  relabels s s' -> leases_ok s ->
  (forall pid kind id l, t_leases s' !! (pid, kind, id) = Some l -> t_leases s !! (pid, kind, id) = Some l /\
     (kind = LeaseRequest -> forall rq, t_requests s !! id = Some rq -> open_request (rq_State rq) ->
        exists rq', t_requests s' !! id = Some rq' /\ open_request (rq_State rq'))) ->
  leases_ok s'.
Proof.
  intros [Ra Rr _] Hle Hsub pid kind id l Hl. destruct (Hsub _ _ _ _ Hl) as [Hl0 Hop].
  specialize (Hle _ _ _ _ Hl0). destruct kind; cbn in *.
  - destruct Hle as (? & rq & Hrq & Ho). split; [done|]. eauto.
  - destruct Hle as (a & Ha & Hlv). destruct (row_after _ _ _ _ _ Ra Ha) as (a' & ? & _ & Hl'). exists a'. tauto.
Qed.

Lemma leases_kept s s' :
  t_leases s' = t_leases s -> t_requests s' = t_requests s ->
  forall pid kind id l, t_leases s' !! (pid, kind, id) = Some l -> t_leases s !! (pid, kind, id) = Some l /\
     (kind = LeaseRequest -> forall rq, t_requests s !! id = Some rq -> open_request (rq_State rq) ->
        exists rq', t_requests s' !! id = Some rq' /\ open_request (rq_State rq')).
Proof. intros -> ->. eauto. Qed.

Lemma mark_invariant from to id s u s' :
  live_state from = true -> live_state to = true -> invariant s -> mark_attempt from to id s = Ok (u, s') -> invariant s'.
Proof.
  intros Hf Ht [Hb Hl Hle] H. unfold mark_attempt in H. tx_inv.
  match goal with H : update_row _ _ _ _ _ _ = _ |- _ => apply update_row_Ok in H as [(a & Ha & Hc & _ & ->)|(-> & _ & _)] end; [|done].
  apply bool_decide_eq_true in Hc. subst from.
  match goal with |- invariant ?s2 => assert (relabels s s2) as R end.
  { split; cbn; [|by apply map_Forall2_same|done]. eapply map_Forall2_change; [apply _|done|]. split; [done|].
    unfold live. cbn. by rewrite Hf, Ht. }
  split; [eapply balanced_frame; [..|exact Hb]; done|by eapply relabels_lifecycle|eapply relabels_leases; [done|done|by apply leases_kept]].
Qed.

(** A request that runs no attempt ends, and its leases go. *)
Lemma close_request_relabels s id rq st t m :
  t_requests s !! id = Some rq -> rq_State rq = RqInProgress -> st <> RqReserved ->
  relabels s (set_requests (<[id := with_request_state st t rq]> (t_requests s)) (set_leases m s)).
Proof.
  intros Hr Hs Hst. split; cbn; [by apply map_Forall2_same| |done].
  eapply map_Forall2_change; [apply _|done|]. unfold same_request. cbn. rewrite Hs. by split.
Qed.

Lemma close_request_invariant s id rq st t m :
  invariant s -> t_requests s !! id = Some rq -> rq_State rq = RqInProgress -> st <> RqReserved ->
  (forall pid k i l, m !! (pid, k, i) = Some l -> t_leases s !! (pid, k, i) = Some l /\ ~ (k = LeaseRequest /\ i = id)) ->
  invariant (set_requests (<[id := with_request_state st t rq]> (t_requests s)) (set_leases m s)).
Proof.
  intros [Hb Hl Hle] Hr Hs Hst Hm. pose proof (close_request_relabels s id rq st t m Hr Hs Hst) as R.
  split; [eapply balanced_frame; [..|exact Hb]; done|by eapply relabels_lifecycle|].
  eapply relabels_leases; [done|done|]. cbn. intros pid k i l Hi. apply Hm in Hi as [Hi Hn]. split; [done|].
  intros -> rq0 Hrq0 Ho. exists rq0. rewrite lookup_insert_ne by (intros <-; by apply Hn). done.
Qed.

Lemma requests_with_leases q m s : set_requests q (set_leases m s) = set_leases m (set_requests q s).
Proof. done. Qed.

Lemma close_failed_invariant e id s u s' : invariant s -> close_failed_tx e id s = Ok (u, s') -> invariant s'.
Proof.
  intros Hi H. unfold close_failed_tx in H. tx_inv. effects.
  match goal with H : update_row _ _ _ _ _ _ = _ |- _ => apply update_row_Ok in H as [(rq & Hr & Hc & _ & ->)|(-> & _ & _)] end; [|done].
  apply bool_decide_eq_true in Hc. apply (close_request_invariant s); [done..|]. intros pid k i l Hl. naive_solver.
Qed.

Lemma finalize_invariant e id state s u s' : invariant s -> finalize_request_tx e id state s = Ok (u, s') -> invariant s'.
Proof.
  intros Hi H. unfold finalize_request_tx in H. destruct (final_state_of state) as [st|] eqn:Est; [|by apply fail_Ok in H].
  assert (st <> RqReserved) as Hst.
  { unfold final_state_of in Est. destruct (settled_state_of state); [|done]. injection Est as <-. apply requestState_ended. }
  tx_inv. effects.
  match goal with H : update_row _ _ _ _ _ _ = _ |- _ => apply update_row_Ok in H as [(rq & Hr & Hc & _ & ->)|(-> & _ & _)] end; [|done].
  apply bool_decide_eq_true in Hc. rewrite <- requests_with_leases. apply (close_request_invariant s); [done..|].
  intros pid k i l Hl. cbn in *.
  match goal with H : forall _ _ _ _, _ <-> _ |- _ => apply H in Hl as [Hl Hn] end. split; [done|]. intros [-> ->]. apply Hn. split; [done|].
  by destruct (inv_leases s Hi _ _ _ _ Hl).
Qed.

(** ** Repair *)

Lemma repair_request_invariant e cutoff id s n s' :
  invariant s -> repair_request e cutoff id s = Ok (n, s') -> invariant s'.
Proof.
  intros Hi H. unfold repair_request in H. tx_inv.
  match goal with H : update_row _ _ _ _ _ _ = _ |- _ => apply update_row_Ok in H as [(rq & Hr & Hc & -> & ->)|(-> & -> & _)] end.
  - cbn in *. tx_inv. effects. rewrite <- requests_with_leases.
    unfold stale_request in Hc. rewrite !andb_true_iff in Hc. destruct Hc as [[[Hc _] _] _]. apply bool_decide_eq_true in Hc.
    apply (close_request_invariant s); [done..|]. intros pid k i l Hl. cbn in *.
    match goal with H : forall _ _ _ _, _ <-> _ |- _ => apply H in Hl as [Hl Hn] end.
    split; [done|]. intros [-> ->]. apply Hn. split; [done|]. by destruct (inv_leases s Hi _ _ _ _ Hl).
  - cbn in *. by tx_inv.
Qed.

Lemma repair_all_invariant e cutoff ids : forall s n s', invariant s -> repair_all e cutoff ids s = Ok (n, s') -> invariant s'.
Proof.
  induction ids as [|id ids IH]; intros s n s' Hi H; cbn in H; tx_inv; [done|].
  eapply IH; [|eassumption]. by eapply repair_request_invariant.
Qed.

Lemma repair_invariant e s n s' : invariant s -> repair_tx e s = Ok (n, s') -> invariant s'.
Proof. unfold repair_tx. intros Hi H. tx_inv. by eapply repair_all_invariant. Qed.

(** ** Reconciliation *)

Lemma book_reconciliation_invariant e actor attemptID i a r input output us ic ec tokens s u s' :
  invariant s -> t_attempts s !! attemptID = Some a ->
  book_reconciliation e actor attemptID i a r input output us ic ec tokens s = Ok (u, s') -> invariant s'.
Proof.
  intros [Hb Hlc Hle] Ha H. unfold book_reconciliation in H.
  apply tx_bind_Ok in H as (items & s1 & Hg & H). apply reads_Ok in Hg as [-> ->].
  apply tx_bind_Ok in H as (? & s1 & Hloop & H). apply reconcile_loop_done in Hloop as (Hco & Hb2 & Hrv); [|done].
  apply tx_bind_Ok in H as (? & s2 & Hu & H). apply update_row_always with (v := a) in Hu; [|by rewrite (co_attempts _ _ Hco)].
  do 3 (match type of H with match ?m with Some _ => _ | None => _ end _ = _ => destruct m; [|by apply fail_Ok in H] end).
  tx_inv. effects. cbn in *.
  match goal with |- invariant ?s2 => assert (relabels s s2) as R end.
  { split; cbn; rewrite ?(co_attempts _ _ Hco), ?(co_requests _ _ Hco).
    - eapply map_Forall2_change; [apply _|done|]. by split.
    - by apply map_Forall2_same.
    - intros id rv Hr Hs. destruct (Hrv id rv Hr) as [[? _]|(? & _ & _ & _ & _ & _ & _ & _ & Hna)]; done. }
  split; [eapply balanced_frame; [..|exact Hb2]; done|by eapply relabels_lifecycle|].
  eapply relabels_leases; [done|done|]. apply leases_kept; cbn; [apply (co_leases _ _ Hco)|apply (co_requests _ _ Hco)].
Qed.

Lemma reconcile_invariant e actor attemptID i input output us tokens s u s' :
  invariant s -> reconcile_tx e actor attemptID i input output us tokens s = Ok (u, s') -> invariant s'.
Proof.
  intros Hi H. unfold reconcile_tx in H.
  apply tx_bind_Ok in H as (s0 & s1 & Hg & H). apply reads_Ok in Hg as [-> ->].
  apply tx_bind_Ok in H as (actor' & s1 & Hg & H). apply lift_Ok in Hg as [_ ->].
  apply tx_bind_Ok in H as (? & s1 & Hg & H). apply require_Ok in Hg as [_ ->].
  destruct (t_ledger s !! ri_IdempotencyKey i); [by apply require_Ok in H as [_ ->]|].
  apply tx_bind_Ok in H as ([a r] & s1 & Hg & H). apply get_row_Ok in Hg as [Hj ->].
  apply attempt_join_Some in Hj as [Ha Hr]. unfold requireOutboxCapacity in H. tx_inv.
  by eapply book_reconciliation_invariant.
Qed.

(** ** Recovery *)

(** A whole-table change of reservations that keeps what each holds. *)
Lemma balanced_update s (f : ReservationRow -> ReservationRow) (c : string -> ReservationRow -> bool) :
  balanced s ->
  (forall id r, c id r = true -> rv_Policy (f r) = rv_Policy r /\ rv_Period (f r) = rv_Period r /\
     rv_Units (f r) = rv_Units r /\ held_state (rv_State (f r)) = held_state (rv_State r)) ->
  balanced (set_reservations (map_imap (fun k v => Some (if c k v then f v else v)) (t_reservations s)) s).
Proof.
  intros [Hs Hr Hc] Hf. split; cbn; [..|exact Hc].
  - intros pid start. rewrite Hs, msum_imap. apply msum_ext. intros k r _.
    destruct (c k r) eqn:E; [|done]. destruct (Hf k r E) as (E1 & E2 & E3 & E4). unfold held. by rewrite E1, E2, E3, E4.
  - intros id r'. rewrite map_lookup_imap. destruct (t_reservations s !! id) as [r|] eqn:E; [|done]. cbn. intros [= <-].
    specialize (Hr id r E). destruct (c id r) eqn:Ec; [|done]. destruct (Hf id r Ec) as (E1 & E2 & E3 & E4).
    destruct Hr as (Hu & p & Hp & Hi). split; [by rewrite E3|]. exists p. by rewrite E1, E2.
Qed.

(** The interrupted attempt: its active reservations become uncertain. *)
Definition interrupt_reservation (attemptID : string) (t : Z) (s : db) : db :=
  set_reservations (map_imap (fun k v => Some (if (rv_Attempt v =s attemptID) && bool_decide (rv_State v = RvActive)
                                               then with_reservation_state RvUncertain t v else v)) (t_reservations s)) s.

Lemma interrupt_balanced attemptID t s : balanced s -> balanced (interrupt_reservation attemptID t s).
Proof.
  intros Hb. apply (balanced_update s _ (fun _ v => (rv_Attempt v =s attemptID) && bool_decide (rv_State v = RvActive))); [done|].
  cbn. intros _ r [_ Hc]%andb_true_iff. apply bool_decide_eq_true in Hc. by rewrite Hc.
Qed.

Lemma interrupt_active attemptID t s id r :
  t_reservations (interrupt_reservation attemptID t s) !! id = Some r -> rv_State r = RvActive ->
  t_reservations s !! id = Some r /\ rv_Attempt r <> attemptID.
Proof.
  cbn. rewrite map_lookup_imap. destruct (t_reservations s !! id) as [r0|]; [|done]. cbn. intros [= <-].
  destruct (rv_Attempt r0 =s attemptID) eqn:E; cbn; [|intros _; apply String.eqb_neq in E; done].
  destruct (decide (rv_State r0 = RvActive)); [rewrite bool_decide_eq_true_2 by done|rewrite bool_decide_eq_false_2 by done]; done.
Qed.

(** One attempt of [Recover] ends. *)
Lemma recover_item_ends e n attemptID a r s u s' :
  balanced s -> lifecycle s -> t_attempts s !! attemptID = Some a -> live a -> t_requests s !! at_Request a = Some r ->
  recover_item e (n, (attemptID, (a, r))) s = Ok (u, s') ->
  exists rq', ends attemptID a rq' s s' /\ balanced s' /\ rq_State rq' <> RqInProgress.
Proof.
  intros Hb Hlc Ha Hl Hr H. unfold recover_item in H. destruct (decide (at_State a = AtReserved)) as [Hst|Hst].
  - tx_inv. match goal with H : releaseReservations _ _ _ = _ |- _ => apply release_done in H as Hdone; [|done]; clear H end.
    pose proof Hdone as (Hco & Hb2 & _). effects.
    match goal with H : update_row t_attempts _ _ _ _ _ = _ |- _ => apply update_row_always with (v := a) in H; [subst|by rewrite (co_attempts _ _ Hco)] end.
    match goal with H : set_request_state _ _ _ _ = _ |- _ => apply set_request_state_Ok with (rq := r) in H; [subst|cbn; by rewrite (co_requests _ _ Hco)] end.
    exists (with_request_state RqCancelled (Some (now e 0)) r). cbn in *. rewrite ?(co_attempts _ _ Hco), ?(co_requests _ _ Hco) in *.
    split_and!; [|eapply balanced_frame; [..|exact Hb2]; done|done].
    split; cbn; [eexists; split; [done|by split]|done|]. intros id rv Hrv Hs. by eapply attempt_done_active.
  - tx_inv. unfold update_rows in *. tx_inv. effects.
    match goal with H : update_row t_attempts _ _ _ _ _ = _ |- _ => apply update_row_always with (v := a) in H; [subst|done] end.
    match goal with H : set_request_state _ _ _ _ = _ |- _ => apply set_request_state_Ok with (rq := r) in H; [subst|done] end.
    exists (with_request_state RqInterrupted (Some (now e 0)) r).
    split_and!; [|eapply balanced_frame; [..|apply (interrupt_balanced attemptID (now e 0) s Hb)]; done|done].
    split; cbn; [eexists; split; [done|by split]|done|]. intros id rv Hrv Hs. exact (interrupt_active attemptID (now e 0) s id rv Hrv Hs).
Qed.

(** The loop: what is still to recover is still running, and nothing else is. *)
Definition recovering (items : list (nat * (string * (AttemptRow * RequestRow)))) (s : db) : Prop :=
  balanced s /\ lifecycle s /\ NoDup (map (fun x => x.2.1) items) /\
  (forall n id a r, (n, (id, (a, r))) ∈ items -> t_attempts s !! id = Some a /\ live a /\ t_requests s !! at_Request a = Some r) /\
  (forall id a, t_attempts s !! id = Some a -> live a -> id ∈ map (fun x => x.2.1) items).

Lemma recover_loop e items s u s' :
  recovering items s -> for_each (recover_item e) items s = Ok (u, s') -> recovering [] s'.
Proof.
  apply (for_each_pending recovering). clear. intros [n [id [a r]]] items s u s' (Hb & Hlc & Hnd & Hin & Hall) H.
  destruct (Hin n id a r ltac:(by left)) as (Ha & Hl & Hr).
  destruct (recover_item_ends e n id a r s u s' Hb Hlc Ha Hl Hr H) as (rq' & Hends & Hb' & _).
  cbn in Hnd. apply NoDup_cons in Hnd as [Hnotin Hnd].
  pose proof Hends as [(a' & Ea & Hq & Hdead) [Er _] _].
  split_and!; [done|by eapply ends_lifecycle|done|..].
  - intros n' id' b rb Hel. destruct (Hin n' id' b rb ltac:(by right)) as (Hb0 & Hlb & Hrb).
    assert (id <> id') as Hne by (intros ->; apply Hnotin, list_elem_of_fmap; by exists (n', (id', (b, rb)))).
    rewrite Ea, lookup_insert_ne by done. split_and!; [done..|]. rewrite Er, lookup_insert_ne; [done|].
    intros E. apply Hne. by eapply (lc_one s Hlc).
  - intros id' b Hb0 Hlb. rewrite Ea in Hb0. destruct (decide (id = id')) as [<-|Hne].
    + rewrite lookup_insert_eq in Hb0. by injection Hb0 as <-.
    + rewrite lookup_insert_ne in Hb0 by done. specialize (Hall id' b Hb0 Hlb). cbn in Hall. apply elem_of_cons in Hall as [->|?]; done.
Qed.

Lemma imap_pair_snd {A} (l : list A) : forall k, imap (fun n x => ((k + n)%nat, x)) l = zip (seq k (length l)) l.
Proof.
  induction l as [|x l IH]; intros k; [done|]. cbn. rewrite Nat.add_0_r. f_equal. rewrite <- IH.
  apply imap_ext. intros i y _. cbn. by rewrite Nat.add_succ_r.
Qed.

Lemma map_snd_imap_pair {A} (l : list A) : map snd (imap pair l) = l.
Proof. change (imap pair l) with (imap (fun n x => ((0 + n)%nat, x)) l). rewrite imap_pair_snd. apply snd_zip. by rewrite length_seq. Qed.

Lemma elem_of_live_join s id a r :
  (id, (a, r)) ∈ live_join s <-> t_attempts s !! id = Some a /\ live a /\ t_requests s !! at_Request a = Some r.
Proof.
  unfold live_join, live. rewrite list_elem_of_omap. split.
  - intros ([id' a'] & Hel & H). apply elem_of_select_rows in Hel as [Ha Hc]. cbn in *.
    destruct (t_requests s !! at_Request a') eqn:E; [|done]. injection H as -> -> ->. done.
  - intros (Ha & Hl & Hr). exists (id, a). rewrite elem_of_select_rows. cbn. by rewrite Hr.
Qed.

Lemma NoDup_live_join s : NoDup (live_join s).*1.
Proof.
  unfold live_join. match goal with |- NoDup (omap ?f ?l).*1 => assert (sublist ((omap f l).*1) (l.*1)) as Hsub end.
  - induction (select_rows _ _) as [|[id a] l IH]; cbn; [constructor|]. destruct (t_requests s !! at_Request a); cbn; by constructor.
  - eapply sublist_NoDup; [|exact Hsub]. apply NoDup_select_rows.
Qed.

Lemma recovering_start s : balanced s -> lifecycle s -> recovering (imap pair (live_join s)) s.
Proof.
  intros Hb Hlc.
  assert (map (fun x : nat * (string * (AttemptRow * RequestRow)) => x.2.1) (imap pair (live_join s)) = (live_join s).*1) as E.
  { transitivity (map fst (map snd (imap pair (live_join s)))); [by rewrite map_map|by rewrite map_snd_imap_pair]. }
  split_and!; [done..|rewrite E; apply NoDup_live_join| |].
  - intros n id a r Hel. apply elem_of_live_join. apply (list_elem_of_fmap_2 snd) in Hel. cbn in Hel.
    change (snd <$> imap pair (live_join s)) with (map snd (imap pair (live_join s))) in Hel. by rewrite map_snd_imap_pair in Hel.
  - intros id a Ha Hl. rewrite E. destruct (lc_request s Hlc id a Ha) as (r & Hr & _).
    apply list_elem_of_fmap. exists (id, (a, r)). split; [done|]. by apply elem_of_live_join.
Qed.

(** Nothing runs and nothing is held. *)
Record idle (s : db) : Prop := mkIdle {
  id_attempts : forall id a, t_attempts s !! id = Some a -> ~ live a;
  id_requests : forall id r, t_requests s !! id = Some r -> ~ open_request (rq_State r);
  id_reservations : forall id r, t_reservations s !! id = Some r -> rv_State r <> RvActive;
  id_leases : t_leases s = ∅ }.

Lemma request_live_false s id : (forall k a, t_attempts s !! k = Some a -> ~ live a) -> request_live s id = false.
Proof.
  intros Hn. unfold request_live. destruct (existsb _ _) eqn:E; [|done]. apply existsb_exists in E as ([k a] & Hin & Hc).
  apply list_elem_of_In, elem_of_map_to_list in Hin. apply andb_true_iff in Hc as [_ Hc]. by destruct (Hn k a Hin).
Qed.

Lemma recover_tx_Ok e s u s' : invariant s -> recover_tx e s = Ok (u, s') -> invariant s' /\ idle s'.
Proof.
  intros [Hb Hlc Hle] H. unfold recover_tx in H.
  apply tx_bind_Ok in H as (items & s1 & Hg & H). apply reads_Ok in Hg as [-> ->].
  apply tx_bind_Ok in H as (? & s1 & Hloop & H). apply recover_loop in Hloop as (Hb1 & Hlc1 & _ & _ & Hall); [|by apply recovering_start].
  unfold update_rows in H. tx_inv.
  assert (forall k a, t_attempts s1 !! k = Some a -> ~ live a) as Hdead.
  { intros k a Ha Hl. specialize (Hall k a Ha Hl). by apply elem_of_nil in Hall. }
  assert (forall id rq', map_imap (fun id r => Some (if bool_decide (rq_State r = RqInProgress) && negb (request_live s1 id)
      then with_request_state RqFailed (Some (now e 0)) r else r)) (t_requests s1) !! id = Some rq' ->
      ~ open_request (rq_State rq')) as Hclosed.
  { intros id rq'. rewrite map_lookup_imap. destruct (t_requests s1 !! id) as [rq|] eqn:E; [|done]. cbn. intros [= <-].
    rewrite (request_live_false s1 id Hdead). destruct (decide (rq_State rq = RqInProgress)) as [Hp|Hp].
    - rewrite bool_decide_eq_true_2 by done. cbn. by intros [|].
    - rewrite bool_decide_eq_false_2 by done. cbn. intros [Hs|Hs]; [|done].
      destruct (lc_reserved s1 Hlc1 id rq E Hs) as (k & a & Ha & _ & Hl). by apply (Hdead k a). }
  split; [split|split]; cbn; try done.
  - eapply balanced_frame; [..|exact Hb1]; done.
  - eapply relabels_lifecycle; [|exact Hlc1]. split; cbn; [by apply map_Forall2_same| |done].
    intros id. rewrite map_lookup_imap. destruct (t_requests s1 !! id) as [rq|] eqn:E; cbn; constructor.
    case_match eqn:Hc; [|done]. apply andb_true_iff in Hc as [Hc _]. apply bool_decide_eq_true in Hc.
    unfold same_request. cbn. rewrite Hc. by split.
  - intros id r Hr Hs. destruct (lc_active s1 Hlc1 id r Hr Hs) as (a & Ha & Hl). by apply (Hdead (rv_Attempt r) a).
Qed.

(** * Writes that leave the usage tables alone *)

Lemma policies_kept_balanced s s' :
  (forall id p, t_policies s !! id = Some p -> exists p', t_policies s' !! id = Some p' /\ p_Algorithm p' = p_Algorithm p) ->
  t_periods s' = t_periods s -> t_reservations s' = t_reservations s -> balanced s -> balanced s'.
Proof.
  intros Hp Eq Er [H1 H2 H3]. split; rewrite ?Eq, ?Er; [done| |done]. intros id r Hr. eapply reservation_ok_shape; eauto.
Qed.

(** * Recovery always returns *)

(** A transaction body that cannot fail. *)
Definition total {A} (m : tx db A) : Prop := forall s, exists a s', m s = Ok (a, s').

Lemma total_bind {A B} (m : tx db A) (f : A -> tx db B) : total m -> (forall a, total (f a)) -> total (m ≫= f).
Proof. intros Hm Hf s. destruct (Hm s) as (a & s1 & E). destruct (Hf a s1) as (b & s2 & E2). exists b, s2. unfold mbind, tx_bind. by rewrite E. Qed.
Lemma total_ret {A} (a : A) : total (mret a).
Proof. intros s. by exists a, s. Qed.
Lemma total_reads {A} (f : db -> A) : total (reads f).
Proof. intros s. by exists (f s), s. Qed.
Lemma total_modify f : total (modify f : tx db unit).
Proof. intros s. by exists tt, (f s). Qed.
Lemma total_update_row {K V} `{Countable K} (get : db -> gmap K V) put k c f : total (update_row get put k c f).
Proof. intros s. unfold update_row. destruct (get s !! k) as [v|]; [destruct (c v)|]; eauto. Qed.
Lemma total_for_each {A} (f : A -> tx db unit) (l : list A) : (forall x, total (f x)) -> total (for_each f l).
Proof. intros Hf. induction l as [|x l IH]; cbn; [apply total_ret|]. apply total_bind; auto. Qed.

Create HintDb total.
#[export] Hint Resolve total_bind total_ret total_reads total_modify total_update_row total_for_each : total.

Lemma release_total id t : total (releaseReservations id t).
Proof.
  unfold releaseReservations. apply total_bind; [apply total_reads|]. intros items. apply total_for_each. intros [rid [r p]].
  unfold release_item, set_reservation_state. apply total_bind; [case_decide; apply total_update_row|]. auto with total.
Qed.

(** Both events recovery may write for an attempt fit the outbox. *)
Definition recovery_event_fits (a : AttemptRow) (r : RequestRow) : bool :=
  (payload_length (CancelledBeforeDispatch (subject_of a r)) <=? 16384) &&
  (payload_length (AttemptInterrupted (subject_of a r)) <=? 16384).

Definition event_unused (e : env) (n : nat) (s : db) : Prop :=
  forall row, row ∈ t_outbox s -> ob_ID row <> ("evt_" +:+ token e n)%string.

Lemma appendOutbox_total tok rq at_ p t s :
  (forall row, row ∈ t_outbox s -> ob_ID row <> ("evt_" +:+ tok)%string) -> payload_length p <=? 16384 = true ->
  exists s' row, appendOutbox tok rq at_ p t s = Ok (tt, s') /\ t_outbox s' = t_outbox s ++ [row] /\ ob_ID row = ("evt_" +:+ tok)%string.
Proof.
  intros Hf Hp. unfold appendOutbox, mbind, tx_bind, reads, require. rewrite Hp, andb_true_r.
  replace (forallb _ (t_outbox s)) with true; [by eexists _, _|]. symmetry. apply forallb_forall. intros row Hrow%list_elem_of_In.
  apply negb_true_iff, String.eqb_neq. by apply Hf.
Qed.

Lemma recover_item_total e n id a r s :
  recovery_event_fits a r = true -> event_unused e n s ->
  exists s' row, recover_item e (n, (id, (a, r))) s = Ok (tt, s') /\ t_outbox s' = t_outbox s ++ [row] /\ ob_ID row = ("evt_" +:+ token e n)%string.
Proof.
  intros Hfit Hun. apply andb_true_iff in Hfit as [Hf1 Hf2].
  assert (forall (m1 : tx db unit) (m2 : tx db Z) (m3 : tx db unit) p, total m1 -> total m2 -> total m3 ->
    keeps t_outbox m1 -> keeps t_outbox m2 -> keeps t_outbox m3 -> payload_length p <=? 16384 = true ->
    exists s' row, (_ ← m1; _ ← m2; _ ← m3; appendOutbox (token e n) (at_Request a) id p (now e 0)) s = Ok (tt, s') /\
      t_outbox s' = t_outbox s ++ [row] /\ ob_ID row = ("evt_" +:+ token e n)%string) as Hgen.
  { intros m1 m2 m3 p T1 T2 T3 K1 K2 K3 Hp. unfold mbind, tx_bind.
    destruct (T1 s) as (a1 & s1 & E1). rewrite E1. apply K1 in E1. destruct (T2 s1) as (a2 & s2 & E2). rewrite E2. apply K2 in E2.
    destruct (T3 s2) as (a3 & s3 & E3). rewrite E3. apply K3 in E3. cbn in *. assert (t_outbox s3 = t_outbox s) as E by congruence.
    destruct (appendOutbox_total (token e n) (at_Request a) id p (now e 0) s3) as (s' & row & Hs & Ho & Hid); [|done|].
    { rewrite E. exact Hun. }
    exists s', row. by rewrite Hs, Ho, E. }
  cbn [recover_item]. case_decide; apply Hgen; try done; try apply release_total; unfold update_rows, set_request_state;
    try (apply total_modify || apply total_update_row || (apply total_bind; [apply total_update_row|intros; apply total_ret]));
    unfold releaseReservations, release_item, set_reservation_state; keeps_tac.
Qed.

Lemma recover_loop_total e items s :
  (forall n m, token e n = token e m -> n = m) -> NoDup (map fst items) ->
  (forall n id a r, (n, (id, (a, r))) ∈ items -> recovery_event_fits a r = true /\ event_unused e n s) ->
  exists s', for_each (recover_item e) items s = Ok (tt, s').
Proof.
  intros Hinj. revert s. induction items as [|[n [id [a r]]] items IH]; intros s Hnd Hin; [by exists s|]. cbn in Hnd.
  apply NoDup_cons in Hnd as [Hn Hnd]. destruct (Hin n id a r ltac:(by left)) as [Hfit Hun].
  destruct (recover_item_total e n id a r s Hfit Hun) as (s1 & row & E & Ho & Hid).
  destruct (IH s1 Hnd) as [s' Hs'].
  - intros n' id' a' r' Hel. destruct (Hin n' id' a' r' ltac:(by right)) as [Hf' Hu']. split; [done|].
    intros row' Hrow'. rewrite Ho in Hrow'. apply elem_of_app in Hrow' as [Hrow'|Hrow']; [by apply Hu'|].
    apply list_elem_of_singleton in Hrow' as ->. rewrite Hid. intros Heq. simplify_eq/=.
    apply Hn. assert (n = n') as -> by (by apply Hinj). apply list_elem_of_fmap. by exists (n', (id', (a', r'))).
  - exists s'. cbn [for_each]. unfold mbind at 1, tx_bind at 1. by rewrite E.
Qed.

(** C37: A restart is never refused: whatever the database holds, [Recover]
    succeeds, provided the process draws fresh distinct event ids and the
    events of the running attempts fit the outbox. *)
Theorem Recover_succeeds (e : env) (s : db) :
  (forall n m, token e n = token e m -> n = m) ->
  (forall n, event_unused e n s) ->
  (forall id a r, (id, (a, r)) ∈ live_join s -> recovery_event_fits a r = true) ->
  exists s', Recover e s = (Ok tt, s').
Proof.
  intros Hinj Hun Hfit. destruct (recover_loop_total e (imap pair (live_join s)) s Hinj) as [s1 E].
  - change (imap pair (live_join s)) with (imap (fun n x => ((0 + n)%nat, x)) (live_join s)). rewrite imap_pair_snd.
    change (NoDup ((zip (seq 0 (length (live_join s))) (live_join s)).*1)). rewrite fst_zip by (by rewrite length_seq). apply NoDup_seq.
  - intros n id a r Hel. split; [|apply Hun]. apply (Hfit id). apply (list_elem_of_fmap_2 snd) in Hel. cbn in Hel.
    change (snd <$> imap pair (live_join s)) with (map snd (imap pair (live_join s))) in Hel. by rewrite map_snd_imap_pair in Hel.
  - unfold Recover, commit, recover_tx, mbind, tx_bind, reads, update_rows, modify. rewrite E. eauto.
Qed.
