(* ===== verification/Booking.v ===== *)
(** What an admission books: the plan of every matching policy fits the
    counters it was computed from, applying it keeps the invariant of the
    usage tables, and no counter is taken past its policy's limit. *)
From S2P Require Import Prelude GoStd Money Calendar Counters Policy Json Store Pricing PolicyService PathMatch Grants Admission Settlement Reservations Lifecycle.

(** * Ranges *)

Lemma checkedAdd_from_range vs : forall total n, in_int64 total -> checkedAdd_from total vs = Some n -> in_int64 n.
Proof.
  induction vs as [|v vs IH]; intros total n Ht H; cbn in H; [by injection H as <-|].
  repeat case_match; [done..|]. eapply IH; [|exact H]. apply wrap64_range.
Qed.

Lemma checkedAdd_range vs n : checkedAdd vs = Some n -> in_int64 n.
Proof. apply checkedAdd_from_range. unfold_ints. lia. Qed.

(** The counts of the input are [int64] values. *)
Definition typed_input (i : AdmissionInput) : Prop :=
  in_int64 (ai_BodyBytes i) /\ in_int64 (ai_BatchItems i) /\ in_int64 (ai_EstimatedOutputTokens i).

Definition typed_cost (cost : option Z) : Prop := match cost with Some c => in_int64 c | None => True end.

Lemma addWebSearchCost_typed cost fee calls r : typed_cost cost -> addWebSearchCost cost fee calls = Ok r -> typed_cost r.
Proof.
  unfold addWebSearchCost. destruct cost as [c|]; [|by intros _ [= <-]]. intros Hc.
  destruct (calls =? 0); [by intros [= <-]|]. intros H. apply result_bind_Ok in H as (? & _ & H).
  destruct fee as [f|]; [|by injection H as <-]. apply result_bind_Ok in H as (? & _ & H).
  destruct (checkedAdd _) eqn:E; [|done]. injection H as <-. by apply checkedAdd_range in E.
Qed.

Lemma admission_price_typed s i t id cost : admission_price s i t = Ok (id, cost) -> typed_cost cost.
Proof.
  unfold admission_price. destruct (price_unavailable i); cbn.
  { destruct (ensure _ _); cbn; [|done]. by intros [= _ <-]. }
  intros H. apply result_bind_Ok in H as (? & _ & H).
  destruct (priceAt _ _ _ _) as [[pid p]|].
  - apply result_bind_Ok in H as (? & _ & H). destruct (ai_SnapshotPriceOnly i); [by injection H as _ <-|].
    apply result_bind_Ok in H as (c & Hc & H). apply CalculateCost_Ok in Hc as (ci & co & Hi & Ho & -> & Hm).
    pose proof (tokenCost_range _ _ _ Hi). pose proof (tokenCost_range _ _ _ Ho).
    assert (in_int64 (ci + co)) as Ht by (unfold_ints; lia).
    destruct (0 <? ai_WebSearchMaxCalls i); [|by injection H as _ <-].
    destruct (pr_CacheRead p); [|by injection H as _ <-]. apply result_bind_Ok in H as (r & Hr & H).
    injection H as _ <-.
    exact (addWebSearchCost_typed (Some (ci + co)) (pr_WebSearch p) (ai_WebSearchMaxCalls i) r Ht Hr).
  - apply result_bind_Ok in H as (? & _ & H). by injection H as _ <-.
Qed.

Lemma plan_units_typed p first i tokens cost u b :
  typed_input i -> in_int64 tokens -> typed_cost cost -> plan_units p first i tokens cost = Ok (Some (u, b)) -> in_int64 u.
Proof.
  intros (Hb & Hn & Ho) Ht Hc. unfold plan_units.
  assert (in_int64 1) by (unfold_ints; lia). assert (in_int64 0) by (unfold_ints; lia).
  destruct (rp_Metric p); repeat case_match; unfold deny; intros Heq; simplify_eq; done.
Qed.

(** * What a plan promises *)

Section Plans.
Context (requestID attemptID : string).

(** A plan against the counters of [s]. *)
Definition plan_fits (s : db) (plan : counterPlan) : Prop :=
  exists p, t_policies s !! rp_ID (cp_policy plan) = Some p /\ cp_policy plan = runtime_of (rp_ID (cp_policy plan)) p /\
  match cp_lease plan with
  | Some (kind, id) =>
      (kind = LeaseAttempt /\ id = attemptID \/ kind = LeaseRequest /\ id = requestID) /\
      lease_count s (rp_ID (cp_policy plan)) < p_LimitUnits p
  | None =>
      0 <= cp_units plan <= max_int64 /\
      if decide (p_Algorithm p = TokenBucket) then 0 <= cp_bucketRemaining plan <= p_LimitUnits p
      else cp_reserved plan = period_reserved (t_periods s) (rp_ID (cp_policy plan)) (cp_periodStart plan) +
                              (if cp_reserve plan then cp_units plan else 0) /\
           cp_consumed plan = period_consumed s (rp_ID (cp_policy plan)) (cp_periodStart plan) +
                              (if cp_reserve plan then 0 else cp_units plan) /\
           0 <= cp_consumed plan /\ 0 <= cp_reserved plan /\ cp_consumed plan + cp_reserved plan <= p_LimitUnits p
  end.

Lemma evaluate_concurrency_fits s id p plan :
  t_policies s !! id = Some p -> evaluate_concurrency s (runtime_of id p) requestID attemptID = Ok (Some plan) ->
  cp_policy plan = runtime_of id p /\ plan_fits s plan.
Proof.
  intros Hp. unfold evaluate_concurrency, deny.
  assert (forall k i, (k = LeaseAttempt /\ i = attemptID \/ k = LeaseRequest /\ i = requestID) ->
    match t_leases s !! (rp_ID (runtime_of id p), k, i) with
    | Some _ => Ok None
    | None => if rp_Limit (runtime_of id p) <=? lease_count s (rp_ID (runtime_of id p))
              then Err (Denial (rp_ID (runtime_of id p)) (metric_text (rp_Metric (runtime_of id p))) "concurrency limit reached" None)
              else Ok (Some (mkCounterPlan (runtime_of id p) 0 None 0 0 0 0 0 0 false (Some (k, i))))
    end = Ok (Some plan) -> cp_policy plan = runtime_of id p /\ plan_fits s plan) as Hmain.
  { intros k i Hk. destruct (t_leases s !! _); [done|]. destruct (_ <=? _) eqn:E; [done|]. intros [= <-].
    split; [done|]. exists p. cbn in *. split_and!; [done..|lia]. }
  destruct (decide _); apply Hmain; auto.
Qed.

Lemma evaluate_bucket_fits s id p t u r plan :
  t_policies s !! id = Some p -> p_Algorithm p = TokenBucket -> p_LimitUnits p <= max_int64 -> in_int64 u -> 0 <= u ->
  evaluate_bucket s (runtime_of id p) t u r = Ok (Some plan) -> cp_policy plan = runtime_of id p /\ plan_fits s plan.
Proof.
  intros Hp Ha Hlim Hu Hu0. unfold evaluate_bucket, deny. cbn [rp_Limit rp_Refill rp_RefillInterval rp_ID runtime_of].
  intros H. apply result_bind_Ok in H as ([refill next] & _ & H).
  match type of H with context [saturatingAdd ?a ?b] => set (refilled := saturatingAdd a b) in * end.
  match type of H with (let '(_, _) := (if ?c then _ else _) in _) = _ =>
    assert (exists rem nx, (if c then (p_LimitUnits p, 0) else (refilled, next)) = (rem, nx) /\ rem <= p_LimitUnits p)
      as (rem & nx & E & Hrem) by (destruct c eqn:Ec; [exists (p_LimitUnits p), 0 | exists refilled, next]; split; [done|lia|done|lia]);
    rewrite E in H end.
  destruct (rem <? u) eqn:El; [done|]. injection H as <-. split; [done|]. exists p. cbn. rewrite decide_True by done.
  rewrite wrap64_id by (unfold_ints; lia). split_and!; try done; unfold_ints; lia.
Qed.

Lemma evaluate_period_fits s id p t u r plan :
  balanced s -> t_policies s !! id = Some p -> p_Algorithm p <> TokenBucket -> in_int64 u -> 0 <= u ->
  evaluate_period s (runtime_of id p) t u r = Ok (Some plan) -> cp_policy plan = runtime_of id p /\ plan_fits s plan.
Proof.
  intros Hb Hp Ha Hu Hu0. unfold evaluate_period, deny. destruct (periodBounds _ _) as [start end_].
  cbn [rp_Limit rp_ID runtime_of].
  match goal with |- context [let '(_, _) := ?c in _] => destruct c as [consumed reserved] eqn:Ec end.
  assert (reserved = period_reserved (t_periods s) id start /\ consumed = period_consumed s id start /\
    0 <= consumed <= max_int64 /\ 0 <= reserved <= max_int64) as (Er & Ec' & Hc & Hr).
  { unfold period_reserved, period_consumed. destruct (t_periods s !! (id, start)) as [q|] eqn:Hq; injection Ec as <- <-.
    - by destruct (bal_consumed s Hb _ _ Hq).
    - unfold max_int64. lia. }
  destruct (checkedAdd _) as [used|] eqn:E; [|done].
  apply checkedAdd_nonneg in E as [Eu Hm]; [|rewrite !Forall_cons; unfold_ints; split_and!; try lia; by apply Forall_nil].
  cbn in Eu. destruct (_ <? used) eqn:El; [done|]. intros [= <-]. split; [done|]. exists p. cbn. rewrite decide_False by done.
  destruct r; rewrite ?wrap64_id by (unfold_ints; lia); subst; split_and!; try done; unfold_ints; lia.
Qed.

Lemma evaluatePolicy_fits s id p t first i tokens cost plan :
  balanced s -> t_policies s !! id = Some p -> p_LimitUnits p <= max_int64 ->
  typed_input i -> in_int64 tokens -> typed_cost cost ->
  evaluatePolicy s (runtime_of id p) t first requestID attemptID i tokens cost = Ok (Some plan) ->
  cp_policy plan = runtime_of id p /\ plan_fits s plan.
Proof.
  intros Hb Hp Hlim Hi Ht Hc H. unfold evaluatePolicy in H.
  apply result_bind_Ok in H as ([[u r]|] & Hu & H); [|done]. apply plan_units_typed in Hu; [|done..].
  destruct (decide (rp_Metric _ = MConcurrency)); [by eapply evaluate_concurrency_fits|].
  destruct (decide (rp_Algorithm _ = Ceiling)); [by destruct (_ <? _)|].
  destruct (u <? 0) eqn:E0; [done|]. destruct ((u =? 0) && negb r); [done|].
  destruct (decide (rp_Algorithm _ = TokenBucket)) as [Ha|Ha].
  - eapply evaluate_bucket_fits; [done|done|done|done|lia|done].
  - eapply evaluate_period_fits; [done|done|done|done|lia|done].
Qed.

Lemma evaluate_all_fits s t first i tokens cost : forall ids plans,
  balanced s -> (forall id p, t_policies s !! id = Some p -> p_LimitUnits p <= max_int64) ->
  typed_input i -> in_int64 tokens -> typed_cost cost ->
  Forall (fun kv => t_policies s !! kv.1 = Some kv.2) ids ->
  evaluate_all s t first requestID attemptID i tokens cost (map (fun kv => runtime_of kv.1 kv.2) ids) = Ok plans ->
  Forall (plan_fits s) plans /\ map (fun plan => rp_ID (cp_policy plan)) plans `sublist_of` ids.*1.
Proof.
  induction ids as [|[id p] ids IH]; intros plans Hb Hlim Hi Ht Hc Hids H; cbn in H.
  - injection H as <-. split; constructor.
  - apply Forall_cons in Hids as [Hp Hids]. cbn in Hp.
    apply result_bind_Ok in H as (plan & Hplan & H). apply result_bind_Ok in H as (plans' & Hplans & H).
    destruct (IH plans' Hb Hlim Hi Ht Hc Hids Hplans) as [Hf Hsub]. injection H as <-.
    destruct plan as [plan|]; [|split; [done|by constructor]].
    eapply evaluatePolicy_fits in Hplan as [Epl Hfit]; [|by eauto..].
    split; [by constructor|]. cbn. rewrite Epl. by constructor.
Qed.
End Plans.

(** * Starting an attempt *)

(** A new attempt of a request that runs none. *)
Lemma start_attempt_lifecycle s requestID attemptID a rq :
  lifecycle s -> t_attempts s !! attemptID = None -> at_Request a = requestID -> live a -> rq_State rq = RqReserved ->
  (forall id b, t_attempts s !! id = Some b -> live b -> at_Request b <> requestID) ->
  lifecycle (set_attempts (<[attemptID := a]> (t_attempts s)) (set_requests (<[requestID := rq]> (t_requests s)) s)).
Proof.
  intros [H1 H2 H3 H4] Hn Ha Hl Hq Hone. split; cbn.
  - intros id r Hr Hs. destruct (H1 id r Hr Hs) as (b & Hb & Hlb). exists b. split; [|done].
    rewrite lookup_insert_ne; [done|]. intros E. by rewrite <- E, Hn in Hb.
  - intros id b Hb. destruct (decide (attemptID = id)) as [<-|Hne].
    + rewrite lookup_insert_eq in Hb. injection Hb as <-. rewrite Ha, lookup_insert_eq. eauto.
    + rewrite lookup_insert_ne in Hb by done. destruct (decide (requestID = at_Request b)) as [E|E].
      * rewrite E, lookup_insert_eq. eauto.
      * rewrite lookup_insert_ne by done. eauto.
  - intros i j b c Hb Hc Hlb Hlc E. destruct (decide (attemptID = i)) as [<-|Hi], (decide (attemptID = j)) as [<-|Hj];
      [done|..].
    + rewrite lookup_insert_eq in Hb. rewrite lookup_insert_ne in Hc by done. injection Hb as <-. exfalso. apply (Hone j c Hc Hlc). congruence.
    + rewrite lookup_insert_ne in Hb by done. rewrite lookup_insert_eq in Hc. injection Hc as <-.
      exfalso. apply (Hone i b Hb Hlb). congruence.
    + rewrite lookup_insert_ne in Hb, Hc by done. eauto.
  - intros id r Hr Hs. destruct (decide (requestID = id)) as [<-|Hne].
    + exists attemptID, a. by rewrite lookup_insert_eq.
    + rewrite lookup_insert_ne in Hr by done. destruct (H4 id r Hr Hs) as (i & b & Hb & Hrb & Hlb).
      exists i, b. split; [|done]. rewrite lookup_insert_ne; [done|]. intros E. by rewrite <- E, Hn in Hb.
Qed.

Lemma start_attempt_leases s requestID attemptID a rq :
  leases_ok s -> t_attempts s !! attemptID = None -> rq_State rq = RqReserved ->
  leases_ok (set_attempts (<[attemptID := a]> (t_attempts s)) (set_requests (<[requestID := rq]> (t_requests s)) s)).
Proof.
  intros Hle Hn Hq pid kind id l Hl. specialize (Hle _ _ _ _ Hl). destruct kind; cbn in *.
  - destruct Hle as (? & r & Hr & Ho). split; [done|]. destruct (decide (requestID = id)) as [<-|Hne].
    + rewrite lookup_insert_eq. exists rq. split; [done|by left].
    + rewrite lookup_insert_ne by done. eauto.
  - destruct Hle as (b & Hb & Hlb). exists b. split; [|done]. rewrite lookup_insert_ne; [done|]. intros E. by rewrite <- E, Hn in Hb.
Qed.

(** The request and the attempt of [Admit], before the plans are applied. *)
Lemma start_invariant e i s owner effective ordinal priceID tokens cost u s1 u' s2 :
  let requestID := if ai_RequestID i =s "" then ("req_" +:+ token e 0)%string else ai_RequestID i in
  let attemptID := ("att_" +:+ token e 1)%string in
  invariant s ->
  (ai_RequestID i <> ""%string -> exists rq, t_requests s !! ai_RequestID i = Some rq /\ rq_State rq = RqInProgress) ->
  book_request i requestID owner effective s = Ok (u, s1) ->
  insert_attempt attemptID (attempt_snapshot i requestID ordinal priceID tokens cost effective) s1 = Ok (u', s2) ->
  invariant s2 /\ t_policies s2 = t_policies s /\ t_periods s2 = t_periods s /\ t_buckets s2 = t_buckets s /\
  t_leases s2 = t_leases s /\ t_reservations s2 = t_reservations s /\
  exists a, t_attempts s2 !! attemptID = Some a /\ at_Request a = requestID /\ live a.
Proof.
  intros requestID attemptID [Hb Hlc Hle] Hex H1 H2. unfold insert_attempt in H2. tx_inv.
  match goal with H : insert_row _ _ _ _ _ = _ |- _ => apply insert_row_Ok in H as [Hnew ->] end.
  set (snap := attempt_snapshot _ _ _ _ _ _ _) in *.
  assert (exists rq, rq_State rq = RqReserved /\ s1 = set_requests (<[requestID := rq]> (t_requests s)) s /\
    forall id b, t_attempts s !! id = Some b -> live b -> at_Request b <> requestID) as (rq & Hrq & -> & Hone).
  { unfold book_request in H1. unfold requestID. destruct (ai_RequestID i =s "") eqn:E.
    - apply insert_row_Ok in H1 as [Hfresh ->]. eexists (mkRequestRow _ _ _ _ _ RqReserved _ _ _). split_and!; [done|done|]. intros id b Hb0 Hlb Hr.
      destruct (lc_request s Hlc id b Hb0) as (r & Hr0 & _). rewrite Hr in Hr0. fold requestID in Hr0. congruence.
    - apply String.eqb_neq in E. destruct (Hex E) as (rq & Hr & Hs). tx_inv.
      match goal with H : update_row _ _ _ _ _ _ = _ |- _ => apply update_row_always with (v := rq) in H; [subst|] end.
      + exists (with_request_state RqReserved None rq). split_and!; [done|done|]. intros id b Hb0 Hlb Hreq.
        destruct (lc_request s Hlc id b Hb0) as (r & Hr0 & Himp). rewrite Hreq, Hr in Hr0. injection Hr0 as <-.
        rewrite (Himp Hlb) in Hs. done.
      + done. }
  cbn in *. split_and!; try done.
  - split; [eapply balanced_frame; [..|exact Hb]; done| |].
    + by apply start_attempt_lifecycle.
    + by apply start_attempt_leases.
  - eexists. rewrite lookup_insert_eq. split_and!; [done|done|by unfold live].
Qed.

(** * Applying the plans *)

(** Every counter that differs is within the limit of its policy. *)
Record within_limits (s s' : db) : Prop := mkWithin {
  wl_policies : t_policies s' = t_policies s;
  wl_periods : forall k q, t_periods s' !! k = Some q -> t_periods s !! k = Some q \/
    exists p, t_policies s !! k.1 = Some p /\ 0 <= q_Consumed q /\ 0 <= q_Reserved q /\ q_Consumed q + q_Reserved q <= p_LimitUnits p;
  wl_buckets : forall id b, t_buckets s' !! id = Some b -> t_buckets s !! id = Some b \/
    exists p, t_policies s !! id = Some p /\ 0 <= b_Remaining b <= p_LimitUnits p;
  wl_leases : forall pid, lease_count s' pid = lease_count s pid \/
    exists p, t_policies s !! pid = Some p /\ lease_count s' pid <= p_LimitUnits p }.

Lemma within_refl s : within_limits s s.
Proof. split; auto. Qed.

Lemma within_trans s1 s2 s3 : within_limits s1 s2 -> within_limits s2 s3 -> within_limits s1 s3.
Proof.
  intros [P1 Q1 B1 L1] [P2 Q2 B2 L2]. split; [congruence|..].
  - intros k q Hq. destruct (Q2 k q Hq) as [H|H]; [eauto|]. right. by rewrite P1 in H.
  - intros id b Hb. destruct (B2 id b Hb) as [H|H]; [eauto|]. right. by rewrite P1 in H.
  - intros pid. destruct (L2 pid) as [->|H]; [eauto|]. right. by rewrite P1 in H.
Qed.

(** The counters of the policies other than [pid] are the same. *)
Definition counters_but (pid : string) (s s' : db) : Prop :=
  (forall pid' start, pid' <> pid -> t_periods s' !! (pid', start) = t_periods s !! (pid', start)) /\
  (forall pid', pid' <> pid -> lease_count s' pid' = lease_count s pid').

Lemma lease_count_insert s pid kind id l pid' :
  t_leases s !! (pid, kind, id) = None ->
  lease_count (set_leases (<[(pid, kind, id) := l]> (t_leases s)) s) pid' =
  lease_count s pid' + (if pid' =s pid then 1 else 0).
Proof.
  intros Hn. unfold lease_count, select_rows. cbn [t_leases set_leases]. rewrite !length_map_to_list.
  destruct (pid' =s pid) eqn:E.
  - rewrite map_filter_insert_True by (cbn; rewrite String.eqb_sym; done).
    rewrite map_size_insert_None; [lia|]. by rewrite map_lookup_filter_None; left.
  - rewrite map_filter_insert_False by (cbn; rewrite String.eqb_sym, E; done).
    rewrite delete_id by done. lia.
Qed.

(** A period row rewritten, and perhaps a reservation of its units. *)
Lemma balanced_period s pid start q' p :
  balanced s -> t_policies s !! pid = Some p -> 0 <= q_Consumed q' <= max_int64 -> 0 <= q_Reserved q' <= max_int64 ->
  q_Reserved q' = period_reserved (t_periods s) pid start ->
  balanced (set_periods (<[(pid, start) := q']> (t_periods s)) s).
Proof.
  intros [H1 H2 H3] Hp Hc Hr He. split; cbn; [|done|].
  - intros pid' start'. rewrite <- H1. unfold period_reserved at 1. destruct (decide ((pid, start) = (pid', start'))) as [[= <- <-]|Hne].
    + by rewrite lookup_insert_eq.
    + by rewrite lookup_insert_ne.
  - intros k q. destruct (decide ((pid, start) = k)) as [<-|Hne]; [rewrite lookup_insert_eq; by intros [= <-]|].
    rewrite lookup_insert_ne by done. apply H3.
Qed.

Lemma balanced_reserve s pid start q' p id row :
  balanced s -> t_policies s !! pid = Some p -> p_Algorithm p <> TokenBucket ->
  0 <= q_Consumed q' <= max_int64 -> 0 <= q_Reserved q' <= max_int64 -> 0 <= rv_Units row <= max_int64 ->
  t_reservations s !! id = None -> rv_Policy row = pid -> rv_Period row = Some start -> rv_State row = RvActive ->
  q_Reserved q' = period_reserved (t_periods s) pid start + rv_Units row ->
  balanced (set_reservations (<[id := row]> (t_reservations s)) (set_periods (<[(pid, start) := q']> (t_periods s)) s)).
Proof.
  intros [H1 H2 H3] Hp Ha Hc Hr Hu Hn Hpol Hper Hst He. split; cbn.
  - intros pid' start'. rewrite msum_insert by done. rewrite <- H1. unfold held, period_reserved at 1. rewrite Hpol, Hper, Hst.
    destruct (decide ((pid, start) = (pid', start'))) as [[= <- <-]|Hne].
    + rewrite lookup_insert_eq, String.eqb_refl, bool_decide_eq_true_2 by done. cbn. lia.
    + rewrite lookup_insert_ne by done.
      replace ((pid =s pid') && bool_decide (Some start = Some start')) with false; [cbn; unfold period_reserved; lia|].
      symmetry. apply andb_false_iff. rewrite String.eqb_neq, bool_decide_eq_false.
      destruct (decide (pid = pid')) as [<-|]; [right; congruence|by left].
  - intros j r. destruct (decide (id = j)) as [<-|Hne].
    + rewrite lookup_insert_eq. intros [= <-]. split; [done|]. exists p. rewrite Hpol, Hper. done.
    + rewrite lookup_insert_ne by done. apply H2.
  - intros k q. destruct (decide ((pid, start) = k)) as [<-|Hne]; [rewrite lookup_insert_eq; by intros [= <-]|].
    rewrite lookup_insert_ne by done. apply H3.
Qed.

(** A reservation of a token bucket holds no period. *)
Lemma balanced_draw s p id row :
  balanced s -> t_policies s !! rv_Policy row = Some p -> p_Algorithm p = TokenBucket ->
  0 <= rv_Units row <= max_int64 -> t_reservations s !! id = None -> rv_Period row = None ->
  balanced (set_reservations (<[id := row]> (t_reservations s)) s).
Proof.
  intros [H1 H2 H3] Hp Ha Hu Hn Hper. split; cbn; [| |done].
  - intros pid start. rewrite msum_insert by done. rewrite H1. unfold held at 2. rewrite Hper.
    rewrite (bool_decide_eq_false_2 (None = Some start)) by done. rewrite andb_false_r. cbn. lia.
  - intros j r. destruct (decide (id = j)) as [<-|Hne].
    + rewrite lookup_insert_eq. intros [= <-]. split; [done|]. exists p. by rewrite Hper.
    + rewrite lookup_insert_ne by done. apply H2.
Qed.

(** A new active reservation of a running attempt. *)
Lemma reserve_lifecycle s id row a :
  lifecycle s -> t_attempts s !! rv_Attempt row = Some a -> live a ->
  lifecycle (set_reservations (<[id := row]> (t_reservations s)) s).
Proof.
  intros [H1 H2 H3 H4] Ha Hl. split; cbn; [|done..]. intros j r.
  destruct (decide (id = j)) as [<-|Hne]; [rewrite lookup_insert_eq; intros [= <-]; eauto|].
  rewrite lookup_insert_ne by done. apply H1.
Qed.

Lemma insert_reservation_Ok id row s u s' :
  insert_reservation id row s = Ok (u, s') ->
  t_reservations s !! id = None /\ s' = set_reservations (<[id := row]> (t_reservations s)) s.
Proof. unfold insert_reservation. intros H. tx_inv. by match goal with H : insert_row _ _ _ _ _ = _ |- _ => apply insert_row_Ok in H end. Qed.

Lemma upsert_period_Ok pid start row s u s' :
  upsert_period pid start row s = Ok (u, s') ->
  exists q', s' = set_periods (<[(pid, start) := q']> (t_periods s)) s /\
    q_Consumed q' = q_Consumed row /\ q_Reserved q' = q_Reserved row.
Proof.
  unfold upsert_period. intros H. tx_inv. eexists. split; [done|]. by destruct (t_periods s !! (pid, start)).
Qed.

Section Apply.
Context (e : env) (requestID attemptID : string) (t : Z).

(** What applying one plan does. *)
Definition applied (plan : counterPlan) (s s' : db) : Prop :=
  invariant s' /\ within_limits s s' /\ counters_but (rp_ID (cp_policy plan)) s s' /\
  t_requests s' = t_requests s /\ t_attempts s' = t_attempts s.

Lemma apply_lease s kind id p pid l u s' a :
  invariant s -> t_attempts s !! attemptID = Some a -> at_Request a = requestID -> live a ->
  (kind = LeaseAttempt /\ id = attemptID \/ kind = LeaseRequest /\ id = requestID) ->
  t_policies s !! pid = Some p -> lease_count s pid < p_LimitUnits p -> le_Request l = requestID ->
  insert_lease pid kind id l s = Ok (u, s') ->
  invariant s' /\ within_limits s s' /\ counters_but pid s s' /\ t_requests s' = t_requests s /\ t_attempts s' = t_attempts s.
Proof.
  intros [Hb Hlc Hle] Ha Hreq Hl Hk Hp Hcount Hlr H. unfold insert_lease in H. apply insert_row_Ok in H as [Hn ->].
  split_and!; [split| |split|done..]; cbn; try done.
  - eapply balanced_frame; [..|exact Hb]; done.
  - eapply lifecycle_frame; [..|exact Hlc]; done.
  - intros pid' kind' id' l'. destruct (decide ((pid, kind, id) = (pid', kind', id'))) as [[= <- <- <-]|Hne].
    + cbn. rewrite lookup_insert_eq. intros [= <-]. destruct Hk as [[-> ->]|[-> ->]]; cbn; [eauto|]. split; [done|].
      destruct (live_reserved s attemptID a Hlc Ha Hl) as (rq & Hr & Hs). rewrite Hreq in Hr. exists rq. split; [done|by left].
    + cbn. rewrite lookup_insert_ne by done. apply Hle.
  - split; cbn; auto. intros pid'. rewrite lease_count_insert by done.
    destruct (pid' =s pid) eqn:E; [|left; lia]. apply String.eqb_eq in E as ->. right. exists p. split; [done|lia].
  - intros pid' Hne. rewrite lease_count_insert by done. apply String.eqb_neq in Hne. rewrite Hne. lia.
Qed.

Lemma apply_bucket s pid p row n plan u s' a :
  invariant s -> t_attempts s !! attemptID = Some a -> live a -> t_policies s !! pid = Some p ->
  p_Algorithm p = TokenBucket -> 0 <= b_Remaining row <= p_LimitUnits p -> 0 <= cp_units plan <= max_int64 ->
  (_ ← upsert_bucket pid row;
   if cp_reserve plan
   then insert_reservation n (mkReservationRow attemptID pid None (cp_units plan) RvActive t None)
   else mret tt : tx db unit) s = Ok (u, s') ->
  invariant s' /\ within_limits s s' /\ counters_but pid s s' /\ t_requests s' = t_requests s /\ t_attempts s' = t_attempts s.
Proof.
  intros [Hb Hlc Hle] Ha Hl Hp Halg Hrow Hu H. unfold upsert_bucket in H. tx_inv.
  set (s1 := set_buckets (<[pid:=row]> (t_buckets s)) s) in *.
  assert (invariant s1) as Hi1 by (eapply (invariant_frame s); [done..|by split]).
  assert (within_limits s s1) as Hw1.
  { split; cbn; auto. intros id b. destruct (decide (pid = id)) as [<-|Hne].
    - rewrite lookup_insert_eq. intros [= <-]. right. by exists p.
    - rewrite lookup_insert_ne by done. auto. }
  match goal with H : (if _ then _ else _) _ = _ |- _ => rename H into Hres end.
  destruct (cp_reserve plan); [|tx_inv; by split_and!].
  apply insert_reservation_Ok in Hres as [Hn ->]. destruct Hi1 as [Hb1 Hlc1 Hle1].
  split_and!; [split| |by split|done..].
  - by eapply balanced_draw.
  - by eapply reserve_lifecycle.
  - eapply leases_frame; [..|exact Hle1]; done.
  - eapply within_trans; [exact Hw1|]. by split; auto.
Qed.

Lemma apply_period s pid p start row n plan u s' a :
  invariant s -> t_attempts s !! attemptID = Some a -> live a -> t_policies s !! pid = Some p ->
  p_Algorithm p <> TokenBucket -> p_LimitUnits p <= max_int64 -> 0 <= cp_units plan <= max_int64 ->
  q_Reserved row = period_reserved (t_periods s) pid start + (if cp_reserve plan then cp_units plan else 0) ->
  0 <= q_Consumed row -> 0 <= q_Reserved row -> q_Consumed row + q_Reserved row <= p_LimitUnits p ->
  (_ ← upsert_period pid start row;
   if cp_reserve plan
   then insert_reservation n (mkReservationRow attemptID pid (Some start) (cp_units plan) RvActive t None)
   else mret tt : tx db unit) s = Ok (u, s') ->
  invariant s' /\ within_limits s s' /\ counters_but pid s s' /\ t_requests s' = t_requests s /\ t_attempts s' = t_attempts s.
Proof.
  intros [Hb Hlc Hle] Ha Hl Hp Halg Hlim Hu He Hc Hr Hsum H. apply tx_bind_Ok in H as (? & s1 & H1 & Hres).
  apply upsert_period_Ok in H1 as (q' & -> & Hqc & Hqr). set (s1 := set_periods _ s) in *.
  assert (within_limits s s1) as Hw1.
  { split; cbn; auto. intros k q. destruct (decide ((pid, start) = k)) as [<-|Hne].
    - rewrite lookup_insert_eq. intros [= <-]. right. exists p. rewrite Hqc, Hqr. cbn. done.
    - rewrite lookup_insert_ne by done. auto. }
  assert (counters_but pid s s1) as Hcb.
  { split; [|done]. intros pid' start' Hne. cbn. rewrite lookup_insert_ne; congruence. }
  destruct (cp_reserve plan).
  - apply insert_reservation_Ok in Hres as [Hn ->]. split_and!; [split| |done..].
    + eapply (balanced_reserve s pid start q' p); try done; cbn; lia.
    + eapply (reserve_lifecycle s1); [eapply lifecycle_frame; [..|exact Hlc]; done|done|done].
    + eapply leases_frame; [..|exact Hle]; done.
    + eapply within_trans; [exact Hw1|]. by split; auto.
  - tx_inv. split_and!; [split| |done..]; [|eapply lifecycle_frame; [..|exact Hlc]; done|eapply leases_frame; [..|exact Hle]; done|done].
    eapply balanced_period; [done|done|lia|lia|lia].
Qed.

Lemma applyPlan_applied s n plan u s' a :
  invariant s -> (forall id p, t_policies s !! id = Some p -> p_LimitUnits p <= max_int64) ->
  t_attempts s !! attemptID = Some a -> at_Request a = requestID -> live a -> plan_fits requestID attemptID s plan ->
  applyPlan e requestID attemptID t (n, plan) s = Ok (u, s') -> applied plan s s'.
Proof.
  intros Hi Hlim Ha Hreq Hl (p & Hp & Hpl & Hfit) H. unfold applyPlan in H. destruct (cp_lease plan) as [[kind id]|].
  - destruct Hfit as [Hk Hc]. by eapply apply_lease in H.
  - destruct Hfit as [Hu Hfit]. assert (rp_Algorithm (cp_policy plan) = p_Algorithm p) as E by (rewrite Hpl; done). rewrite E in H.
    destruct (decide (p_Algorithm p = TokenBucket)) as [Halg|Halg].
    + rewrite (bool_decide_eq_true_2 _ Halg) in H. by eapply (apply_bucket s) in H.
    + rewrite (bool_decide_eq_false_2 _ Halg) in H. destruct Hfit as (Hr & _ & Hc & Hr0 & Hs).
      eapply (apply_period s) in H; [exact H|done|done|done|done|done|by eapply Hlim|done..].
Qed.
End Apply.

Lemma plan_fits_frame requestID attemptID pid s s' plan :
  t_policies s' = t_policies s -> counters_but pid s s' -> rp_ID (cp_policy plan) <> pid ->
  plan_fits requestID attemptID s plan -> plan_fits requestID attemptID s' plan.
Proof.
  intros Hpol [Hq Hlc] Hne (p & Hp & Hpl & Hfit). exists p. rewrite Hpol. split_and!; [done..|].
  destruct (cp_lease plan) as [[kind id]|]; [by rewrite Hlc|]. unfold period_reserved, period_consumed in *. by rewrite Hq.
Qed.

Definition limits_int64 (s : db) : Prop := forall id p, t_policies s !! id = Some p -> p_LimitUnits p <= max_int64.

(** The loop over the plans of one admission that started in [s0]. *)
Definition booking (requestID attemptID : string) (s0 : db) (items : list (nat * counterPlan)) (s : db) : Prop :=
  invariant s /\ limits_int64 s /\ within_limits s0 s /\
  (exists a, t_attempts s !! attemptID = Some a /\ at_Request a = requestID /\ live a) /\
  NoDup (map (fun x => rp_ID (cp_policy x.2)) items) /\ Forall (fun x => plan_fits requestID attemptID s x.2) items.

Lemma booking_loop e requestID attemptID t s0 items s u s' :
  booking requestID attemptID s0 items s -> for_each (applyPlan e requestID attemptID t) items s = Ok (u, s') ->
  booking requestID attemptID s0 [] s'.
Proof.
  apply (for_each_pending (booking requestID attemptID s0)). clear.
  intros [n plan] items s u s' (Hi & Hlim & Hw & (a & Ha & Hreq & Hl) & Hnd & Hfits) H.
  apply Forall_cons in Hfits as [Hfit Hfits]. cbn in Hnd. apply NoDup_cons in Hnd as [Hnotin Hnd].
  destruct (applyPlan_applied e requestID attemptID t s n plan u s' a Hi Hlim Ha Hreq Hl Hfit H) as (Hi' & Hw' & Hcb & Er & Ea).
  pose proof (wl_policies _ _ Hw') as Hpol.
  split_and!; [done| |by eapply within_trans| |done|].
  - intros id p. rewrite Hpol. apply Hlim.
  - exists a. by rewrite Ea.
  - apply Forall_forall. intros [n' plan'] Hin. rewrite Forall_forall in Hfits.
    eapply plan_fits_frame; [done|exact Hcb| |by apply (Hfits _ Hin)]. cbn. intros E. apply Hnotin.
    change (rp_ID (cp_policy plan) ∈ (fun x : nat * counterPlan => rp_ID (cp_policy x.2)) <$> items). apply list_elem_of_fmap. by exists (n', plan').
Qed.

(** * [Admit] *)

Lemma matchingPolicies_map s o k c :
  exists ids, matchingPolicies s o k c = map (fun kv => runtime_of kv.1 kv.2) ids /\ NoDup ids.*1 /\
    Forall (fun kv => t_policies s !! kv.1 = Some kv.2) ids.
Proof.
  unfold matchingPolicies. set (rows := select_rows _ _).
  exists (merge_sort by_id rows). assert (merge_sort by_id rows ≡ₚ rows) as Hp by apply merge_sort_Permutation.
  split_and!; [done| |].
  - eapply NoDup_Permutation_proper; [by apply fmap_Permutation|]. apply NoDup_select_rows.
  - rewrite Hp. apply Forall_forall. intros [id p] Hin. unfold rows in Hin. by apply elem_of_select_rows in Hin as [Hp' _].
Qed.

Lemma attempt_ordinal_request i owner s o s' :
  attempt_ordinal i owner s = Ok (o, s') -> s' = s /\
  (ai_RequestID i <> ""%string -> exists rq, t_requests s !! ai_RequestID i = Some rq /\ rq_State rq = RqInProgress).
Proof.
  unfold attempt_ordinal. destruct (ai_RequestID i =s "") eqn:E; intros H.
  - tx_inv. split; [done|]. intros Hne. by apply String.eqb_eq in E.
  - tx_inv. split; [done|]. intros _. eexists. split; [done|]. rewrite !andb_true_iff in *. 
    match goal with H : _ /\ bool_decide _ = true |- _ => destruct H as [_ H]; by apply bool_decide_eq_true in H end.
Qed.

Lemma effectiveTime_effect e n fl s t s' :
  effectiveTimeTxAtLeast e n fl s = Ok (t, s') -> exists c, s' = set_clock c s.
Proof. unfold effectiveTimeTxAtLeast. intros H. tx_inv. eauto. Qed.

Lemma within_frame s s1 s' :
  t_policies s1 = t_policies s -> t_periods s1 = t_periods s -> t_buckets s1 = t_buckets s -> t_leases s1 = t_leases s ->
  within_limits s1 s' -> within_limits s s'.
Proof.
  intros E1 E2 E3 E4 [P Q B L]. split; rewrite <- ?E1, <- ?E2, <- ?E3; [done..|].
  intros pid. specialize (L pid). unfold lease_count in *. by rewrite <- E4.
Qed.

(** The parts of a successful [Admit]: the key's owner, the instant, the
    estimated cost and the plans of the policies that apply; the database
    [s2] in which request and attempt are booked but no plan is. *)
Record admission_run (e : env) (i : AdmissionInput) (tokens : Z) (s s' : db) (r : AdmissionResult)
    (k : KeyRow) (cost : option Z) (ids : list (string * PolicyRow)) (plans : list counterPlan) (s2 : db) : Prop := mkRun {
  ru_request : ad_RequestID r = if ai_RequestID i =s "" then ("req_" +:+ token e 0)%string else ai_RequestID i;
  ru_new : t_attempts s !! ad_AttemptID r = None;
  ru_key : t_keys s !! ai_KeyID i = Some k;
  ru_policies : map (fun kv => runtime_of kv.1 kv.2) ids = matchingPolicies s (k_Owner k) (ai_KeyID i) (ai_ConnectionID i);
  ru_nodup : NoDup ids.*1;
  ru_ids : Forall (fun kv => t_policies s !! kv.1 = Some kv.2) ids;
  ru_cost : typed_cost cost;
  ru_price : exists priceID, admission_price s i (ad_AdmittedAt r) = Ok (priceID, cost);
  ru_plans : evaluate_all s (ad_AdmittedAt r) (ai_RequestID i =s "") (ad_RequestID r) (ad_AttemptID r) i tokens cost
               (map (fun kv => runtime_of kv.1 kv.2) ids) = Ok plans;
  ru_start : invariant s -> invariant s2;
  ru_frame : t_policies s2 = t_policies s /\ t_periods s2 = t_periods s /\ t_buckets s2 = t_buckets s /\
             t_leases s2 = t_leases s /\ t_reservations s2 = t_reservations s;
  ru_attempt : invariant s -> exists a, t_attempts s2 !! ad_AttemptID r = Some a /\ at_Request a = ad_RequestID r /\ live a;
  ru_loop : exists u s3, for_each (applyPlan e (ad_RequestID r) (ad_AttemptID r) (ad_AdmittedAt r)) (imap pair plans) s2 = Ok (u, s3) /\
              exists o, s' = set_outbox o s3 }.

Lemma active_key_row s id t k u : active_key s id t = Some (k, u) -> t_keys s !! id = Some k.
Proof.
  unfold active_key. destruct (t_keys s !! id) as [k'|]; cbn; [|done]. destruct (t_users s !! k_Owner k') as [u'|]; cbn; [|done].
  intros H. repeat case_match; simplify_eq; done.
Qed.

(** Nothing an admission reads depends on the clock row. *)
Lemma clock_blind_evaluate s c t first rq at_ i tokens cost ps :
  evaluate_all (set_clock c s) t first rq at_ i tokens cost ps = evaluate_all s t first rq at_ i tokens cost ps.
Proof. induction ps as [|p ps IH]; [done|]. cbn [evaluate_all]. rewrite IH. done. Qed.

Lemma admit_runs e i tokens s r s' :
  admit_tx e i tokens s = Ok (r, s') -> exists k cost ids plans s2, admission_run e i tokens s s' r k cost ids plans s2.
Proof.
  intros H. unfold admit_tx in H.
  set (requestID := if ai_RequestID i =s "" then ("req_" +:+ token e 0)%string else ai_RequestID i) in *.
  apply tx_bind_Ok in H as (effective & s1 & Hclock & H). apply effectiveTime_effect in Hclock as [c ->].
  set (s1 := set_clock c s) in *.
  apply tx_bind_Ok in H as ([k u] & s2 & Hg & H). apply get_row_Ok in Hg as [Hk ->]. apply active_key_row in Hk.
  apply tx_bind_Ok in H as (? & s2 & Hg & H). apply require_Ok in Hg as [_ ->].
  apply tx_bind_Ok in H as (s2 & s3 & Hg & H). apply reads_Ok in Hg as [-> ->].
  apply tx_bind_Ok in H as (? & s2 & Hg & H). apply require_Ok in Hg as [_ ->].
  apply tx_bind_Ok in H as (ordinal & s2 & Hg & H). apply attempt_ordinal_request in Hg as [-> Hreq].
  apply tx_bind_Ok in H as (? & s2 & Hg & H). unfold requireOutboxCapacity in Hg. apply tx_bind_Ok in Hg as (? & ? & Hr0 & Hg).
  apply reads_Ok in Hr0 as [-> ->]. apply require_Ok in Hg as [_ ->].
  destruct (matchingPolicies_map s1 (k_Owner k) (ai_KeyID i) (ai_ConnectionID i)) as (ids & Em & Hnd & Hids).
  cbv zeta in H. rewrite Em in H.
  apply tx_bind_Ok in H as (? & s2 & Hg & H). apply lift_Ok in Hg as [_ ->].
  apply tx_bind_Ok in H as ([priceID cost] & s2 & Hg & H). apply lift_Ok in Hg as [Hprice ->]. apply admission_price_typed in Hprice as Hcost.
  apply tx_bind_Ok in H as (? & s2 & Hg & H). apply lift_Ok in Hg as [_ ->].
  apply tx_bind_Ok in H as (plans & s2 & Hg & H). apply lift_Ok in Hg as [Hplans ->].
  unfold s1 in Hplans at 1. rewrite clock_blind_evaluate in Hplans.
  apply tx_bind_Ok in H as (? & s2 & Hbook & H). apply tx_bind_Ok in H as (? & s3 & Hatt & H).
  apply tx_bind_Ok in H as (? & s4 & Hloop & H). apply tx_bind_Ok in H as (? & s5 & Hev & H). apply tx_ret_Ok in H as [<- <-].
  apply appendOutbox_Ok in Hev as [o ->].
  assert (t_policies s3 = t_policies s1 /\ t_periods s3 = t_periods s1 /\ t_buckets s3 = t_buckets s1 /\
          t_leases s3 = t_leases s1 /\ t_reservations s3 = t_reservations s1) as Hframe.
  { pose (obs := fun d => (t_policies d, t_periods d, t_buckets d, t_leases d, t_reservations d)).
    assert (obs s2 = obs s1) as E1.
    { refine ((_ : keeps obs (book_request i requestID (k_Owner k) effective)) _ _ _ Hbook). unfold book_request. keeps_tac. }
    assert (obs s3 = obs s2) as E2.
    { refine ((_ : keeps obs (insert_attempt _ _)) _ _ _ Hatt). unfold insert_attempt. keeps_tac. }
    rewrite E1 in E2. by injection E2. }
  exists k, cost, ids, plans, s3. split; cbn; try done.
  - unfold insert_attempt in Hatt. tx_inv. match goal with H : insert_row _ _ _ _ _ = _ |- _ => apply insert_row_Ok in H as [Hnew _] end.
    assert (t_attempts s2 = t_attempts s1) as E; [|by rewrite E in Hnew].
    refine ((_ : keeps t_attempts (book_request i requestID (k_Owner k) effective)) _ _ _ Hbook). unfold book_request. keeps_tac.
  - by exists priceID.
  - intros Hi. by destruct (start_invariant _ _ _ _ _ _ _ _ _ _ _ _ _ (invariant_frame s s1 eq_refl eq_refl eq_refl eq_refl eq_refl eq_refl Hi) Hreq Hbook Hatt).
  - intros Hi. by destruct (start_invariant _ _ _ _ _ _ _ _ _ _ _ _ _ (invariant_frame s s1 eq_refl eq_refl eq_refl eq_refl eq_refl eq_refl Hi) Hreq Hbook Hatt) as (_ & _ & _ & _ & _ & _ & ?).
  - eauto.
Qed.

(** The state the plans are applied from, with every plan fitting it. *)
Lemma run_booking e i tokens s s' r k cost ids plans s2 :
  admission_run e i tokens s s' r k cost ids plans s2 ->
  invariant s -> limits_int64 s -> typed_input i -> in_int64 tokens ->
  booking (ad_RequestID r) (ad_AttemptID r) s2 (imap pair plans) s2 /\
  map (fun plan => rp_ID (cp_policy plan)) plans `sublist_of` ids.*1.
Proof.
  intros R Hi Hlim Hty Htok. destruct (ru_frame _ _ _ _ _ _ _ _ _ _ _ R) as (E1 & E2 & E3 & E4 & E5).
  pose proof (ru_plans _ _ _ _ _ _ _ _ _ _ _ R) as Hplans.
  apply evaluate_all_fits in Hplans as [Hfits Hsub];
    [|apply (inv_balanced _ Hi)|done|done|done|apply (ru_cost _ _ _ _ _ _ _ _ _ _ _ R)|apply (ru_ids _ _ _ _ _ _ _ _ _ _ _ R)].
  assert (map snd (imap pair plans) = plans) as Esnd by apply map_snd_imap_pair.
  split; [|done]. split_and!; [by apply (ru_start _ _ _ _ _ _ _ _ _ _ _ R)| |apply within_refl|by apply (ru_attempt _ _ _ _ _ _ _ _ _ _ _ R)| |].
  - intros id p. rewrite E1. apply Hlim.
  - replace (map _ (imap pair plans)) with (map (fun plan => rp_ID (cp_policy plan)) (map snd (imap pair plans))) by (by rewrite map_map).
    rewrite Esnd. eapply sublist_NoDup; [apply (ru_nodup _ _ _ _ _ _ _ _ _ _ _ R)|exact Hsub].
  - apply Forall_forall. intros [n plan] Hin.
    assert (plan ∈ plans) as Hin' by (rewrite <- Esnd; apply (list_elem_of_fmap_2 snd) in Hin; exact Hin).
    rewrite Forall_forall in Hfits. destruct (Hfits plan Hin') as (p & Hp & Hpl & Hf). exists p. cbn. rewrite E1.
    split_and!; [done..|]. unfold lease_count, period_consumed in *. by rewrite E4, E2.
Qed.

Lemma admit_booked e i tokens s r s' :
  invariant s -> limits_int64 s -> typed_input i -> in_int64 tokens -> admit_tx e i tokens s = Ok (r, s') ->
  invariant s' /\ within_limits s s' /\
  exists a, t_attempts s' !! ad_AttemptID r = Some a /\ at_Request a = ad_RequestID r /\ live a.
Proof.
  intros Hi Hlim Hty Htok H. apply admit_runs in H as (k & cost & ids & plans & s2 & R).
  destruct (ru_frame _ _ _ _ _ _ _ _ _ _ _ R) as (E1 & E2 & E3 & E4 & E5).
  destruct (run_booking _ _ _ _ _ _ _ _ _ _ _ R Hi Hlim Hty Htok) as [Hbk _].
  destruct (ru_loop _ _ _ _ _ _ _ _ _ _ _ R) as (u & s3 & Hloop & o & ->).
  apply (booking_loop _ _ _ _ s2) in Hloop as (Hi4 & _ & Hw & (a' & Ha' & Hra' & Hla') & _); [|done].
  split_and!; [by eapply (invariant_frame s3)| |by exists a'].
  apply (within_frame s s2); [done..|]. eapply within_trans; [exact Hw|]. by split; auto.
Qed.

(** * Every applicable policy is charged *)

(** The counters of a period plan, once it is applied. *)
Definition charged (s : db) (plan : counterPlan) : Prop :=
  cp_lease plan = None -> rp_Algorithm (cp_policy plan) <> TokenBucket ->
  period_consumed s (rp_ID (cp_policy plan)) (cp_periodStart plan) = cp_consumed plan /\
  period_reserved (t_periods s) (rp_ID (cp_policy plan)) (cp_periodStart plan) = cp_reserved plan.

Lemma applyPlan_charges e requestID attemptID t n plan s u s' :
  applyPlan e requestID attemptID t (n, plan) s = Ok (u, s') -> charged s' plan.
Proof.
  intros H Hlease Halg. unfold applyPlan in H. rewrite Hlease, (bool_decide_eq_false_2 _ Halg) in H.
  apply tx_bind_Ok in H as (? & s1 & H1 & H). apply upsert_period_Ok in H1 as (q' & -> & Hc & Hr).
  assert (t_periods s' = <[(rp_ID (cp_policy plan), cp_periodStart plan) := q']> (t_periods s)) as E.
  { destruct (cp_reserve plan); [apply insert_reservation_Ok in H as [_ ->]|tx_inv]; done. }
  unfold period_consumed, period_reserved. rewrite E, lookup_insert_eq, Hc, Hr. done.
Qed.

Lemma booking_loop_charges e requestID attemptID t s0 items : forall s u s',
  booking requestID attemptID s0 items s -> for_each (applyPlan e requestID attemptID t) items s = Ok (u, s') ->
  (forall x, x ∈ items -> charged s' x.2) /\
  (forall pid start, pid ∉ map (fun x => rp_ID (cp_policy x.2)) items -> t_periods s' !! (pid, start) = t_periods s !! (pid, start)).
Proof.
  induction items as [|[n plan] items IH]; intros s u s' Hbk H; cbn [for_each] in H.
  - tx_inv. split; [intros x Hx; by apply elem_of_nil in Hx|done].
  - apply tx_bind_Ok in H as ([] & s1 & H1 & H).
    destruct Hbk as (Hi & Hlim & Hw & (a & Ha & Hreq & Hl) & Hnd & Hfits).
    apply Forall_cons in Hfits as [Hfit Hfits]. cbn in Hnd. apply NoDup_cons in Hnd as [Hnotin Hnd].
    destruct (applyPlan_applied e requestID attemptID t s n plan tt s1 a Hi Hlim Ha Hreq Hl Hfit H1) as (Hi' & Hw' & Hcb & Er & Ea).
    apply applyPlan_charges in H1 as Hch. pose proof (wl_policies _ _ Hw') as Hpol.
    destruct (IH s1 u s') as [IHc IHo]; [|exact H|].
    { split_and!; [done| |by eapply within_trans|exists a; by rewrite Ea|done|].
      - intros id p. rewrite Hpol. apply Hlim.
      - apply Forall_forall. intros [n' plan'] Hin. rewrite Forall_forall in Hfits.
        eapply plan_fits_frame; [done|exact Hcb| |by apply (Hfits _ Hin)]. cbn. intros E. apply Hnotin.
        change (rp_ID (cp_policy plan) ∈ (fun x : nat * counterPlan => rp_ID (cp_policy x.2)) <$> items).
        apply list_elem_of_fmap. by exists (n', plan'). }
    split.
    + intros x Hx. apply elem_of_cons in Hx as [->|Hx]; [|by apply IHc]. cbn. intros Hle Halg.
      specialize (Hch Hle Halg). unfold period_consumed, period_reserved in *. by rewrite IHo.
    + intros pid start Hn. cbn in Hn. apply not_elem_of_cons in Hn as [Hne Hn]. rewrite IHo by done. by apply Hcb.
Qed.

Lemma evaluate_all_member s t first rq at_ i tokens cost p : forall ps plans,
  p ∈ ps -> evaluate_all s t first rq at_ i tokens cost ps = Ok plans ->
  exists plan, evaluatePolicy s p t first rq at_ i tokens cost = Ok plan /\
    match plan with Some plan => plan ∈ plans | None => True end.
Proof.
  induction ps as [|q ps IH]; intros plans Hin H; [by apply elem_of_nil in Hin|]. cbn in H.
  apply result_bind_Ok in H as (plan & Hplan & H). apply result_bind_Ok in H as (plans' & Hplans & H). injection H as <-.
  apply elem_of_cons in Hin as [->|Hin].
  - exists plan. split; [done|]. destruct plan; [by left|done].
  - destruct (IH plans' Hin Hplans) as (plan' & Hp' & Hm). exists plan'. split; [done|].
    destruct plan' as [plan'|]; [|done]. destruct plan; [by right|done].
Qed.

(** A policy whose counter is a quota period. *)
Definition counts_periods (p : PolicyRow) : Prop :=
  p_Metric p <> MConcurrency /\ p_Algorithm p <> Ceiling /\ p_Algorithm p <> TokenBucket.

Lemma evaluatePolicy_period s id p t first rq at_ i tokens cost u r plan :
  counts_periods p -> plan_units (runtime_of id p) first i tokens cost = Ok (Some (u, r)) -> 0 < u ->
  evaluatePolicy s (runtime_of id p) t first rq at_ i tokens cost = Ok plan ->
  exists plan', plan = Some plan' /\ cp_lease plan' = None /\ cp_policy plan' = runtime_of id p /\
    cp_periodStart plan' = fst (periodBounds (runtime_of id p) t) /\ cp_units plan' = u /\ cp_reserve plan' = r.
Proof.
  intros (Hm & Hc & Hb) Hu Hpos H. unfold evaluatePolicy in H. rewrite Hu in H. cbn [mbind result_bind] in H.
  rewrite (decide_False (P := rp_Metric (runtime_of id p) = MConcurrency)) in H by done.
  rewrite (decide_False (P := rp_Algorithm (runtime_of id p) = Ceiling)) in H by done.
  replace (u <? 0) with false in H by lia. replace (u =? 0) with false in H by lia. cbn [andb] in H.
  rewrite (decide_False (P := rp_Algorithm (runtime_of id p) = TokenBucket)) in H by done.
  unfold evaluate_period, deny in H. destruct (periodBounds _ _) as [start end_].
  match type of H with (let '(_, _) := ?c in _) = _ => destruct c end.
  destruct (checkedAdd _); [|done]. destruct (_ <? _); [done|]. injection H as <-. eexists. split_and!; done.
Qed.

(** What one admission does to the period counters of a policy that applies. *)
Lemma run_charges e i tokens s s' r k cost ids plans s2 id p u b :
  admission_run e i tokens s s' r k cost ids plans s2 ->
  invariant s -> limits_int64 s -> typed_input i -> in_int64 tokens ->
  t_policies s !! id = Some p -> policy_applies (k_Owner k) (ai_KeyID i) (ai_ConnectionID i) p = true ->
  counts_periods p -> plan_units (runtime_of id p) (ai_RequestID i =s "") i tokens cost = Ok (Some (u, b)) -> 0 < u ->
  let start := fst (periodBounds (runtime_of id p) (ad_AdmittedAt r)) in
  period_consumed s' id start = period_consumed s id start + (if b then 0 else u) /\
  period_reserved (t_periods s') id start = period_reserved (t_periods s) id start + (if b then u else 0) /\
  period_consumed s' id start + period_reserved (t_periods s') id start <= p_LimitUnits p.
Proof.
  intros R Hi Hlim Hty Htok Hp Happ Hcp Hu Hpos start.
  destruct (ru_frame _ _ _ _ _ _ _ _ _ _ _ R) as (E1 & E2 & E3 & E4 & E5).
  destruct (run_booking _ _ _ _ _ _ _ _ _ _ _ R Hi Hlim Hty Htok) as [Hbk _].
  destruct (ru_loop _ _ _ _ _ _ _ _ _ _ _ R) as (w & s3 & Hloop & o & ->).
  destruct (booking_loop_charges _ _ _ _ _ _ _ _ _ Hbk Hloop) as [Hch _].
  assert (runtime_of id p ∈ map (fun kv => runtime_of kv.1 kv.2) ids) as Hin.
  { rewrite (ru_policies _ _ _ _ _ _ _ _ _ _ _ R). unfold matchingPolicies.
    change (map _ ?l) with ((fun kv : string * PolicyRow => runtime_of kv.1 kv.2) <$> l).
    apply (list_elem_of_fmap_2' _ _ (id, p)); [|done]. rewrite merge_sort_Permutation. apply elem_of_select_rows. done. }
  destruct (evaluate_all_member _ _ _ _ _ _ _ _ _ _ _ Hin (ru_plans _ _ _ _ _ _ _ _ _ _ _ R)) as (plan & Hev & Hmem).
  apply (evaluatePolicy_period _ _ _ _ _ _ _ _ _ _ u b) in Hev as (plan' & -> & Hle & Hpl & Hst & Hcu & Hcr); [|done..].
  destruct Hbk as (_ & _ & _ & _ & _ & Hfits). rewrite Forall_forall in Hfits.
  assert (exists n, (n, plan') ∈ imap pair plans) as [n Hn].
  { assert (plan' ∈ map snd (imap pair plans)) as Hs by (by rewrite map_snd_imap_pair).
    change (map snd ?l) with (snd <$> l) in Hs. apply list_elem_of_fmap in Hs as ([n x] & -> & Hx). by exists n. }
  destruct (Hfits _ Hn) as (p' & Hp' & _ & Hf). cbn [snd] in Hf, Hp'. rewrite Hle, Hpl in Hf. rewrite Hpl in Hp'. cbn [rp_ID runtime_of] in Hf, Hp'.
  rewrite E1, Hp in Hp'. injection Hp' as <-. destruct Hf as [_ Hf]. rewrite decide_False in Hf by (by destruct Hcp as (_ & _ & ?)).
  destruct Hf as (Hfr & Hfc & _ & _ & Hfl). rewrite Hcr, Hcu, Hst in *.
  destruct (Hch _ Hn Hle) as [Hc1 Hc2]; [cbn [snd]; rewrite Hpl; by destruct Hcp as (_ & _ & ?)|]. cbn [snd] in Hc1, Hc2.
  rewrite Hpl, Hst in Hc1, Hc2. cbn [rp_ID runtime_of] in Hc1, Hc2. fold start in Hc1, Hc2, Hfr, Hfc.
  unfold period_consumed, period_reserved in *. cbn [t_periods set_outbox]. rewrite E2 in Hfr, Hfc. lia.
Qed.

(** C1: An admission charges every policy it must. After a successful [Admit],
    each enabled policy of the instance, of the key's owner, of the key or of
    the connection that counts this attempt in a quota period has exactly the
    attempt's units added to the period of the admission instant (reserved for
    tokens and spend, consumed for the other metrics), and is still within its
    limit. *)
Theorem Admit_charges_policies (e : env) (i : AdmissionInput) (s s' : db) (r : AdmissionResult) :
  invariant s -> limits_int64 s -> typed_input i -> Admit e i s = (Ok r, s') ->
  exists k tokens cost priceID, t_keys s !! ai_KeyID i = Some k /\
    checkedAdd [ai_EstimatedInputTokens i; ai_EstimatedOutputTokens i] = Some tokens /\
    admission_price s i (ad_AdmittedAt r) = Ok (priceID, cost) /\
    forall id p u b, t_policies s !! id = Some p ->
      policy_applies (k_Owner k) (ai_KeyID i) (ai_ConnectionID i) p = true -> counts_periods p ->
      plan_units (runtime_of id p) (ai_RequestID i =s "") i tokens cost = Ok (Some (u, b)) -> 0 < u ->
      let start := fst (periodBounds (runtime_of id p) (ad_AdmittedAt r)) in
      period_consumed s' id start = period_consumed s id start + (if b then 0 else u) /\
      period_reserved (t_periods s') id start = period_reserved (t_periods s) id start + (if b then u else 0) /\
      period_consumed s' id start + period_reserved (t_periods s') id start <= p_LimitUnits p.
Proof.
  intros Hi Hlim Hty H. unfold Admit, commit in H. destruct (invalid_admission i); [done|].
  destruct (checkedAdd _) as [tokens|] eqn:Et; [|done]. destruct (admit_tx e i tokens s) as [[r0 s0]|] eqn:E; [|done].
  injection H as -> ->. apply checkedAdd_range in Et as Htok. apply admit_runs in E as (k & cost & ids & plans & s2 & R).
  destruct (ru_price _ _ _ _ _ _ _ _ _ _ _ R) as [priceID Hprice].
  exists k, tokens, cost, priceID. split_and!; [apply (ru_key _ _ _ _ _ _ _ _ _ _ _ R)|done|done|].
  intros id p u b Hp Happ Hcp Hu Hpos. by eapply run_charges.
Qed.

(** C2: No admission takes a counter past its limit. After any [Admit], every
    quota period, token bucket and concurrency lease count either is what it
    was before, or is within the limit of its policy: consumed plus reserved
    units at most the limit, bucket tokens between zero and the limit, leases
    at most the limit. *)
Theorem Admit_within_limits (e : env) (i : AdmissionInput) (s : db) :
  invariant s -> limits_int64 s -> typed_input i -> within_limits s (snd (Admit e i s)).
Proof.
  intros Hi Hlim Hty. unfold Admit, commit. destruct (invalid_admission i); [apply within_refl|].
  destruct (checkedAdd _) as [tokens|] eqn:Et; [|apply within_refl].
  destruct (admit_tx e i tokens s) as [[r s']|] eqn:E; [|apply within_refl].
  by destruct (admit_booked _ _ _ _ _ _ Hi Hlim Hty (checkedAdd_range _ _ Et) E) as (_ & ? & _).
Qed.
