(* ===== verification/Charges.v ===== *)
(** What a settlement and a cancellation charge: the units a settled attempt
    used move from the reserved to the consumed side of exactly its quota
    periods, and an attempt cancelled before dispatch consumes nothing. *)
From S2P Require Import Prelude GoStd Money Calendar Counters Policy Json Store Pricing PolicyService PathMatch Grants Admission Settlement Reservations Lifecycle Booking.

(** * Known units *)

(** The units a settlement knows of one policy; none while usage is unknown. *)
Definition known_units (unknown : bool) (tokens cost : option Z) (p : PolicyRow) : option Z :=
  if unknown then None else settlementUnits (p_Metric p) tokens cost.

(** What settling [items] adds to one period. *)
Definition charge (unknown : bool) (tokens cost : option Z) (pid : string) (start : Z)
    (items : list (string * (ReservationRow * PolicyRow))) : Z :=
  foldr Z.add 0 (map (fun kv => if (rv_Policy kv.2.1 =s pid) && bool_decide (rv_Period kv.2.1 = Some start)
                                then default 0 (known_units unknown tokens cost kv.2.2) else 0) items).

Definition typed_units (tokens cost : option Z) : Prop :=
  match tokens with Some t => in_int64 t | None => True end /\ typed_cost cost.

Lemma known_units_typed unknown tokens cost p n : typed_units tokens cost -> known_units unknown tokens cost p = Some n -> in_int64 n.
Proof.
  intros [Ht Hc]. unfold known_units, settlementUnits. destruct unknown; [done|]. destruct (p_Metric p); intros E; simplify_eq; done.
Qed.

Lemma nullableInt64Sum_typed l r t : nullableInt64Sum l r = Ok t -> match t with Some t => in_int64 t | None => True end.
Proof.
  unfold nullableInt64Sum. destruct l, r; try (by intros [= <-]). destruct (checkedAdd _) eqn:E; [|done].
  destruct (_ <? _); [done|]. intros [= <-]. by apply checkedAdd_range in E.
Qed.

Lemma calculateCacheAwareCost_typed i o c ri ro rc r : calculateCacheAwareCost i o c ri ro rc = Ok r -> typed_cost r.
Proof.
  assert (forall vs r, match checkedAdd vs with
    | Some total => if total <? 0 then Err (Msg "calculated cost is too large") else Ok (Some total)
    | None => Err (Msg "calculated cost is too large") end = Ok r -> typed_cost r) as Hsum.
  { intros vs x. destruct (checkedAdd vs) eqn:E; [|done]. destruct (_ <? 0); [done|]. intros [= <-]. by apply checkedAdd_range in E. }
  unfold calculateCacheAwareCost. intros H. apply result_bind_Ok in H as (? & _ & H). destruct rc as [rate|].
  - do 3 apply result_bind_Ok in H as (? & _ & H). by eapply Hsum.
  - destruct (0 <? c); [by injection H as <-|]. do 2 apply result_bind_Ok in H as (? & _ & H). by eapply Hsum.
Qed.

Lemma calculated_cost_typed s i a r : typed_cost (si_CostNanos i) -> calculated_cost s i a = Ok r -> typed_cost r.
Proof.
  intros Hc. unfold calculated_cost. destruct (si_CostNanos i) as [c|] eqn:Ec; [by intros [= <-]|].
  destruct (as_Price a); [|by intros [= <-]]. destruct (may_calculate i a); [|by intros [= <-]].
  unfold calculatedPriceCost. destruct (si_InputTokens i), (si_OutputTokens i); try (by intros [= <-]).
  match goal with |- (if ?b then _ else _) = _ -> _ => destruct b end; [by intros [= <-]|].
  destruct (t_prices s !! _); [|done]. intros H. apply result_bind_Ok in H as (x & Hx & H). apply calculateCacheAwareCost_typed in Hx.
  destruct (si_WebSearchCalls i); [by eapply addWebSearchCost_typed|]. by injection H as <-.
Qed.

(** * One reservation *)

Lemma consumed_insert s pid0 start0 q q' d pid start :
  t_periods s !! (pid0, start0) = Some q -> q_Consumed q' = q_Consumed q + d ->
  period_consumed (set_periods (<[(pid0, start0) := q']> (t_periods s)) s) pid start =
  period_consumed s pid start + if (pid0 =s pid) && bool_decide (Some start0 = Some start) then d else 0.
Proof.
  intros Hq Hq'. unfold period_consumed. cbn. destruct (decide ((pid0, start0) = (pid, start))) as [[= <- <-]|Hne].
  - rewrite lookup_insert_eq, Hq, String.eqb_refl, bool_decide_eq_true_2 by done. done.
  - rewrite lookup_insert_ne by done. destruct (pid0 =s pid) eqn:E; cbn; [|lia]. apply String.eqb_eq in E.
    rewrite bool_decide_eq_false_2; [lia|]. congruence.
Qed.

Lemma settle_item_charges t unknown tokens cost id r p s u s' :
  balanced s -> t_reservations s !! id = Some r -> t_policies s !! rv_Policy r = Some p -> typed_units tokens cost ->
  settle_item t unknown tokens cost (id, (r, p)) s = Ok (u, s') ->
  (forall pid st, period_consumed s' pid st = period_consumed s pid st + charge unknown tokens cost pid st [(id, (r, p))]) /\
  t_reservations s' !! id = Some (with_reservation_state (if known_units unknown tokens cost p then RvSettled else RvUncertain) t r).
Proof.
  intros Hb Hr Hp Hty H. unfold charge. cbn [map foldr fst snd]. unfold settle_item in H.
  change (if unknown then None else settlementUnits (p_Metric p) tokens cost) with (known_units unknown tokens cost p) in H.
  destruct (known_units unknown tokens cost p) as [n|] eqn:Ek; cbn [default].
  - destruct (bal_rows s Hb id r Hr) as (Hu & p0 & Hp0 & Hiff). rewrite Hp in Hp0. injection Hp0 as <-.
    unfold settle_reservation in H. destruct (decide (p_Algorithm p = TokenBucket)) as [Ha|Ha].
    + tx_inv. match goal with H : update_row _ _ _ _ _ _ = Ok (?n, ?s1) |- _ =>
        assert (exists x, s1 = set_buckets x s) as [y ->] by
          (apply update_row_Ok in H as [(? & _ & _ & _ & ->)|(_ & -> & _)]; [eauto | exists (t_buckets s); by destruct s]) end.
      match goal with H : set_reservation_state _ _ _ _ = _ |- _ => eapply set_reservation_state_Ok in H; [|exact Hr] end. subst.
      split; [|cbn; by rewrite lookup_insert_eq]. intros pid st. rewrite (proj1 Hiff Ha), bool_decide_eq_false_2, andb_false_r by done.
      unfold period_consumed. cbn. lia.
    + destruct (rv_Period r) as [start|] eqn:Eper; [|tauto]. tx_inv.
      match goal with H : wrap_tx _ _ _ = _ |- _ => apply wrap_tx_Ok, updateQuotaPeriod_Ok in H as (q & n' & m & Hq & Hn & _ & _ & _ & ->) end.
      match goal with H : set_reservation_state _ _ _ _ = _ |- _ => eapply set_reservation_state_Ok in H; [|exact Hr] end. subst.
      split; [|cbn; by rewrite lookup_insert_eq]. intros pid st. pose proof (bal_consumed s Hb _ _ Hq) as [Hqc _].
      apply checkedAdd_exact in Hn as [-> _].
      2: { rewrite !Forall_cons, Forall_nil. split_and!; [unfold_ints; lia|by eapply known_units_typed|done]. }
      cbn [foldr]. rewrite Z.add_0_r, Z.add_0_r.
      exact (consumed_insert s (rv_Policy r) start q (mkPeriodRow (q_End q) (q_Consumed q + n) m (q_LastEffective q)) n pid st Hq eq_refl).
  - eapply set_reservation_state_Ok in H; [|exact Hr]. subst. split; [|cbn; by rewrite lookup_insert_eq].
    intros pid st. unfold period_consumed. cbn. destruct (_ && _); lia.
Qed.

(** * The whole settlement *)

Lemma settle_loop_charges t unknown tokens cost items : forall s u s',
  balanced s -> NoDup items.*1 -> typed_units tokens cost ->
  (forall id r p, (id, (r, p)) ∈ items -> t_reservations s !! id = Some r /\ rv_State r = RvActive /\ t_policies s !! rv_Policy r = Some p) ->
  for_each (settle_item t unknown tokens cost) items s = Ok (u, s') ->
  (forall pid st, period_consumed s' pid st = period_consumed s pid st + charge unknown tokens cost pid st items) /\
  (forall id, id ∉ items.*1 -> t_reservations s' !! id = t_reservations s !! id) /\
  (forall id r p, (id, (r, p)) ∈ items ->
     t_reservations s' !! id = Some (with_reservation_state (if known_units unknown tokens cost p then RvSettled else RvUncertain) t r)).
Proof.
  induction items as [|[id [r p]] items IH]; intros s u s' Hb Hnd Hty Hin H; cbn [for_each] in H.
  - apply tx_ret_Ok in H as [_ <-]. split_and!; [intros; unfold charge; cbn; lia|done|]. intros id r p Hel. by apply elem_of_nil in Hel.
  - apply tx_bind_Ok in H as ([] & s1 & H1 & H). cbn in Hnd. apply NoDup_cons in Hnd as [Hnotin Hnd].
    destruct (Hin id r p ltac:(by left)) as (Hr & Hst & Hp).
    destruct (settle_item_charges t unknown tokens cost id r p s tt s1 Hb Hr Hp Hty H1) as [Hc1 Hr1].
    destruct (settle_item_booked t unknown tokens cost id r p s tt s1 Hb Hr Hst Hp H1) as (Hco & Hb1 & r' & _ & Hres).
    destruct (IH s1 u s' Hb1 Hnd Hty) as (Hc2 & Hoth & Hin2); [|done|].
    { intros id' r0 p' Hel. assert (id <> id') by (intros ->; apply Hnotin, list_elem_of_fmap; by exists (id', (r0, p'))).
      rewrite Hres, lookup_insert_ne, (co_policies _ _ Hco) by done. apply Hin. by right. }
    split_and!.
    + intros pid st. rewrite Hc2, Hc1. unfold charge. cbn [map foldr]. lia.
    + intros id' Hn. cbn in Hn. apply not_elem_of_cons in Hn as [Hne Hn]. rewrite Hoth, Hres, lookup_insert_ne by done. done.
    + intros id' r0 p' Hel. apply elem_of_cons in Hel as [[= -> -> ->]|Hel]; [by rewrite Hoth|by apply Hin2].
Qed.

Lemma book_settlement_charges e id i st us a r cost tokens s u s' :
  balanced s -> t_attempts s !! id = Some a -> t_requests s !! at_Request a = Some r -> typed_units tokens cost ->
  book_settlement e id i st us a r cost tokens s = Ok (u, s') ->
  let unknown := bool_decide (us = UsUnknown) in
  (forall pid start, period_consumed s' pid start = period_consumed s pid start + charge unknown tokens cost pid start (held_by s id RvActive)) /\
  (forall rid rv p, (rid, (rv, p)) ∈ held_by s id RvActive ->
     t_reservations s' !! rid = Some (with_reservation_state (if known_units unknown tokens cost p then RvSettled else RvUncertain) (now e 1) rv)) /\
  t_attempts s' !! id = Some (settle_attempt_row st us (usage_of i cost (si_ToolStatus i)) (si_FirstByteAt i) (now e 1) a).
Proof.
  intros Hb Ha Hr Hty H unknown. unfold book_settlement in H. tx_inv.
  match goal with H : insert_ledger _ _ _ = _ |- _ => apply insert_ledger_Ok in H as [_ ->] end.
  match goal with H : for_each _ _ ?s1 = _ |- _ => assert (balanced s1) as Hb1 by (eapply balanced_frame; [..|exact Hb]; done);
    apply settle_loop_done in H as Hdone; [|done]; apply settle_loop_charges in H as (Hc & _ & Hres); [|done|apply NoDup_held_by|done|] end.
  2: { intros rid rv p Hel. apply elem_of_held_by in Hel. tauto. }
  pose proof Hdone as (Hco & _ & _). effects.
  match goal with H : update_row t_attempts _ _ _ _ _ = _ |- _ => apply update_row_always with (v := a) in H; [subst|by rewrite (co_attempts _ _ Hco)] end.
  match goal with H : record_assessment _ _ _ _ _ _ _ = _ |- _ => apply record_assessment_Ok in H as [? ->] end.
  match goal with H : end_or_continue _ _ _ _ _ = _ |- _ => apply end_or_continue_Ok with (r := r) in H as (rq' & m & -> & _ & _); [|cbn; by rewrite (co_requests _ _ Hco)] end.
  split_and!; [exact Hc|exact Hres|]. cbn. by rewrite lookup_insert_eq.
Qed.

Lemma settle_tx_new e id i st us s u s' a :
  balanced s -> t_attempts s !! id = Some a -> t_ledger s !! si_IdempotencyKey i = None -> settle_tx e id i st us s = Ok (u, s') ->
  exists r tokens cost, t_requests s !! at_Request a = Some r /\ live a /\
    nullableInt64Sum (si_InputTokens i) (si_OutputTokens i) = Ok tokens /\ calculated_cost s i (at_Snapshot a) = Ok cost /\
    book_settlement e id i st us a r cost tokens s = Ok (u, s').
Proof.
  intros Hb Ha Hl H. unfold settle_tx in H.
  apply tx_bind_Ok in H as (a0 & s1 & Hg & H). apply get_row_Ok in Hg as [Ha0 ->]. rewrite Ha in Ha0. injection Ha0 as <-.
  apply tx_bind_Ok in H as (? & s1 & Hg & H). apply require_Ok in Hg as [_ ->].
  apply tx_bind_Ok in H as (s0 & s1 & Hg & H). apply reads_Ok in Hg as [-> ->]. rewrite Hl in H.
  apply tx_bind_Ok in H as ([a0 r] & s1 & Hg & H). apply get_row_Ok in Hg as [Hj ->].
  apply attempt_join_Some in Hj as [Ha0 Hr]. rewrite Ha in Ha0. injection Ha0 as <-.
  apply tx_bind_Ok in H as (? & s1 & Hg & H). apply require_Ok in Hg as [Hlive ->].
  apply tx_bind_Ok in H as (cost & s1 & Hg & H). apply lift_Ok in Hg as [Hcost ->].
  apply tx_bind_Ok in H as (tokens & s1 & Hg & H). apply lift_Ok in Hg as [Htok ->].
  by exists r, tokens, cost.
Qed.

(** C3: A settlement charges what was used. A first successful [Settle] of an
    attempt adds to the consumed side of each quota period exactly the units
    the settlement knows (tokens for token policies, cost for spend policies)
    of the attempt's reservations of that period, settles those reservations,
    leaves the ones of unknown units uncertain, and records the usage and the
    calculated cost on the attempt. *)
Theorem Settle_charges_policies (e : env) (attemptID : string) (i : SettlementInput) (s s' : db) (a : AttemptRow) :
  balanced s -> typed_cost (si_CostNanos i) -> t_attempts s !! attemptID = Some a -> t_ledger s !! si_IdempotencyKey i = None ->
  Settle e attemptID i s = (Ok tt, s') ->
  exists st us tokens cost, nullableInt64Sum (si_InputTokens i) (si_OutputTokens i) = Ok tokens /\
    calculated_cost s (with_tool_status i) (at_Snapshot a) = Ok cost /\
    settled_state_of (si_State i) = Some st /\ usage_status_of (si_UsageStatus i) = Some us /\
    let unknown := bool_decide (us = UsUnknown) in
    (forall pid start, period_consumed s' pid start =
       period_consumed s pid start + charge unknown tokens cost pid start (held_by s attemptID RvActive)) /\
    (forall id r p, (id, (r, p)) ∈ held_by s attemptID RvActive ->
       t_reservations s' !! id = Some (with_reservation_state (if known_units unknown tokens cost p then RvSettled else RvUncertain) (now e 1) r)) /\
    exists a', t_attempts s' !! attemptID = Some a' /\ at_State a' = st /\ at_UsageStatus a' = us /\
      au_Input (at_Usage a') = si_InputTokens i /\ au_Output (at_Usage a') = si_OutputTokens i /\ au_Recorded (at_Usage a') = cost.
Proof.
  intros Hb Hty Ha Hl H. unfold Settle in H. destruct (check_settlement _ _) as [[st us]|] eqn:Ec; [|done]. unfold commit in H.
  destruct (settle_tx _ _ _ _ _ s) as [[[] s0]|] eqn:E; [|done]. injection H as <-.
  destruct (settle_tx_new e attemptID (with_tool_status i) st us s tt s0 a Hb Ha Hl E) as (r & tokens & cost & Hr & _ & Htok & Hcost & Hbook).
  assert (settled_state_of (si_State i) = Some st /\ usage_status_of (si_UsageStatus i) = Some us) as [Hst Hus].
  { unfold check_settlement in Ec. do 4 apply result_bind_Ok in Ec as (? & _ & Ec). cbn [si_State si_UsageStatus with_tool_status] in Ec.
    destruct (settled_state_of _), (usage_status_of _); simplify_eq; done. }
  apply book_settlement_charges in Hbook as (H1 & H2 & H3); [|done|done|done|].
  - exists st, us, tokens, cost. split_and!; [exact Htok|exact Hcost|exact Hst|exact Hus|]. cbv zeta. split_and!; [exact H1|exact H2|]. eexists. split; [exact H3|]. done.
  - split; [by eapply nullableInt64Sum_typed|]. by eapply (calculated_cost_typed s (with_tool_status i)).
Qed.

(** * Cancellation *)

(** What the periods have consumed. *)
Definition consumed (s : db) : gmap (string * Z) Z := q_Consumed <$> t_periods s.

Lemma consumed_period s s' : consumed s' = consumed s -> forall pid start, period_consumed s' pid start = period_consumed s pid start.
Proof.
  intros E pid start. assert (consumed s' !! (pid, start) = consumed s !! (pid, start)) as El by (by rewrite E).
  unfold consumed in El. rewrite !lookup_fmap in El. unfold period_consumed.
  destruct (t_periods s' !! (pid, start)), (t_periods s !! (pid, start)); cbn in El; naive_solver.
Qed.

Lemma keeps_update_period k c f : (forall q, q_Consumed (f q) = q_Consumed q) -> keeps consumed (update_row t_periods set_periods k c f).
Proof.
  intros Hf s n s' H. apply update_row_Ok in H as [(q & Hq & _ & _ & ->)|(_ & -> & _)]; [|done].
  unfold consumed. cbn. rewrite fmap_insert, Hf, insert_id; [done|]. by rewrite lookup_fmap, Hq.
Qed.

Lemma release_keeps_consumed id t : keeps consumed (releaseReservations id t).
Proof.
  unfold releaseReservations, release_item, set_reservation_state. keeps_tac; try (by apply keeps_update_period).
Qed.

Lemma release_loop_released attemptID t s u s' id r :
  balanced s -> releaseReservations attemptID t s = Ok (u, s') ->
  t_reservations s !! id = Some r -> rv_Attempt r = attemptID -> rv_State r = RvActive ->
  exists r', t_reservations s' !! id = Some r' /\ ended RvReleased r r'.
Proof.
  intros Hb H Hr Ha Hst. unfold releaseReservations in H. apply tx_bind_Ok in H as (items & s1 & Hg & H). apply reads_Ok in Hg as [-> ->].
  eapply (loop_looped RvActive (ended RvReleased)) in H as (_ & _ & _ & Hitems); [|intros; by eapply release_item_booked|done|apply NoDup_held_by|].
  - destruct (held_by_complete s attemptID RvActive id r Hb Hr Ha Hst) as [p Hp].
    destruct (Hitems id r p Hp) as (r' & Hout & Hr'). by exists r'.
  - intros id' r' p' Hel. apply elem_of_held_by in Hel. tauto.
Qed.

(** An attempt cancelled before it was dispatched is free: a successful
    [CancelBeforeDispatch] leaves what every quota period has consumed as it
    was, releases every active reservation of the attempt, and closes attempt
    and request as cancelled with no usage. *)
Theorem CancelBeforeDispatch_free (e : env) (attemptID : string) (s s' : db) :
  balanced s -> CancelBeforeDispatch e attemptID s = (Ok tt, s') ->
  (forall pid start, period_consumed s' pid start = period_consumed s pid start) /\
  (forall id r, t_reservations s !! id = Some r -> rv_Attempt r = attemptID -> rv_State r = RvActive ->
     exists r', t_reservations s' !! id = Some r' /\ rv_State r' = RvReleased /\ rv_Units r' = rv_Units r) /\
  exists a r, t_attempts s !! attemptID = Some a /\ at_State a = AtReserved /\ t_requests s !! at_Request a = Some r /\
    t_attempts s' !! attemptID = Some (finish_attempt AtCancelledBeforeDispatch UsEstimated (now e 0) a) /\
    t_requests s' !! at_Request a = Some (with_request_state RqCancelled (Some (now e 0)) r).
Proof.
  intros Hb H. unfold CancelBeforeDispatch, commit in H. destruct (cancel_tx e attemptID s) as [[[] s0]|] eqn:E; [|done].
  injection H as <-. unfold cancel_tx in E.
  apply tx_bind_Ok in E as ([a r] & s1 & Hg & H). apply get_row_Ok in Hg as [Hj ->].
  destruct (attempt_join s attemptID) as [[a0 r0]|] eqn:Ej; cbn in Hj; [|done].
  destruct (decide (at_State a0 = AtReserved)) as [Hst|]; [|done]. injection Hj as -> ->. apply attempt_join_Some in Ej as [Ha Hr]. tx_inv.
  match goal with H : releaseReservations _ _ _ = _ |- _ => apply release_done in H as Hdone; [|done]; pose proof H as Hrel; apply release_keeps_consumed in H as Hcons end.
  pose proof Hdone as (Hco & _ & _). effects.
  match goal with H : update_row t_attempts _ _ _ _ _ = _ |- _ => apply update_row_always with (v := a) in H; [subst|cbn; by rewrite (co_attempts _ _ Hco)] end.
  match goal with H : set_request_state _ _ _ _ = _ |- _ => apply set_request_state_Ok with (rq := r) in H; [subst|cbn; by rewrite (co_requests _ _ Hco)] end.
  split_and!.
  - exact (consumed_period _ _ Hcons).
  - intros id rv Hrv Hatt Hact. destruct (release_loop_released _ _ _ _ _ id rv Hb Hrel Hrv Hatt Hact) as (r' & Hr' & [t ->]). by eexists.
  - exists a, r. cbn. rewrite !lookup_insert_eq. done.
Qed.
