(* ===== verification/Reprice.v ===== *)
(** Corrections of recorded cost ([internal/features/usage/pricing.go]):
    historical repricing of a range of attempts and manual adjustments, with
    the spend periods they are booked to. *)
From S2P Require Import Prelude GoStd Money Calendar Counters Policy Json Store Pricing PolicyService Admission Settlement Reservations Lifecycle Booking.

Record RepriceInput := mkRepriceInput {
  rp_ConnectionID : string; rp_ModelID : string; rp_From : string; rp_To : string; rp_IdempotencyKey : string }.

Record RepricePreview := mkRepricePreview { pv_Affected : Z; pv_Missing : Z; pv_DeltaUSD : string }.

Record repriceItem := mkRepriceItem {
  it_attemptID : string; it_priceID : string; it_who : EventSubject; it_amount : Z; it_delta : Z;
  it_calculationVersion : Z; it_resolveUnknown : bool }.

(** * The attempts of a range *)

(** The WHERE clause of [repriceItems]. *)
Definition repriceable (connectionID modelID : string) (from to : Z) (a : AttemptRow) : bool :=
  let snap := at_Snapshot a in let u := at_Usage a in
  (as_Connection snap =s connectionID) && (as_Model snap =s modelID) && (from <=? as_Started snap) && (as_Started snap <? to)
  && is_some (au_Input u) && is_some (au_Output u)
  && (default 0 (au_CacheCreation u) =? 0) && (default 0 (au_Cache5m u) =? 0) && (default 0 (au_Cache1h u) =? 0)
  && (negb (is_some (as_WebSearchMax snap)) || is_some (au_WebSearches u) && negb (as_WebFetch snap))
  && negb (bool_decide (at_UsageStatus a = UsUnknown)).

Definition attempt_first (a b : string * (AttemptRow * RequestRow)) : Prop :=
  as_Started (at_Snapshot a.2.1) < as_Started (at_Snapshot b.2.1) \/
  (as_Started (at_Snapshot a.2.1) = as_Started (at_Snapshot b.2.1) /\ String.leb a.1 b.1 = true).
#[export] Instance attempt_first_dec : RelDecision attempt_first.
Proof. intros a b. unfold attempt_first. apply _. Defined.

Definition reprice_rows (s : db) (connectionID modelID : string) (from to : Z) : list (string * (AttemptRow * RequestRow)) :=
  take 10001 (merge_sort attempt_first
    (omap (fun kv => r ← t_requests s !! at_Request (snd kv); Some (fst kv, (snd kv, r)))
       (select_rows (fun _ a => repriceable connectionID modelID from to a) (t_attempts s)))).

(** [COALESCE((SELECT SUM(cost_nanos) ... 'adjustment'), 0)]: SQLite refuses a
    sum that leaves the 64-bit integers. *)
Definition adjustments (s : db) (attemptID : string) : result Z :=
  let total := foldr Z.add 0 (map (fun kv => default 0 (ld_Cost (snd kv)))
    (select_rows (fun _ l => (ld_Attempt l =s attemptID) && bool_decide (ld_Type l = EnAdjustment)) (t_ledger s))) in
  if (min_int64 <=? total) && (total <=? max_int64) then Ok total else Err (Msg "integer overflow").

(** One row of the range: [None] when no price covers it. *)
Definition reprice_row (s : db) (connectionID modelID : string) (row : string * (AttemptRow * RequestRow)) :
    result (option repriceItem) :=
  let '(attemptID, (a, r)) := row in
  let snap := at_Snapshot a in let u := at_Usage a in
  adjusted ← adjustments s attemptID;
  match priceAt (t_prices s) connectionID modelID (default (as_Started snap) (as_QuotedAt snap)) with
  | None => Ok None
  | Some (priceID, p) =>
    amount ← calculateCacheAwareCost (default 0 (au_Input u)) (default 0 (au_Output u)) (default 0 (au_CacheRead u))
               (pr_Input p) (pr_Output p) (pr_CacheRead p);
    amount ← (if is_some (as_WebSearchMax snap)
              then addWebSearchCost amount (pr_WebSearch p) (default 0 (au_WebSearches u)) else Ok amount);
    match amount with
    | None => Ok None
    | Some amount =>
      match checkedAdd [amount; adjusted] with
      | Some target =>
        if target <? 0 then Err (Msg "repriced cost is too large")
        else Ok (Some (mkRepriceItem attemptID priceID (subject_of a r) target
                         (wrap64 (target - default 0 (current_cost u)))
                         (priceCalculationVersion (is_some (au_CacheRead u)) (is_some (as_WebSearchMax snap)))
                         (negb (is_some (current_cost u)) && negb (bool_decide (at_UsageStatus a = UsUnknown)))))
      | None => Err (Msg "repriced cost is too large")
      end
    end
  end.

Fixpoint reprice_each (s : db) (connectionID modelID : string) (rows : list (string * (AttemptRow * RequestRow))) :
    result (list repriceItem * Z) :=
  match rows with
  | [] => Ok ([], 0)
  | row :: rows =>
    item ← reprice_row s connectionID modelID row;
    rest ← reprice_each s connectionID modelID rows;
    let (items, missing) := (rest : list repriceItem * Z) in
    Ok (match item with Some item => (item :: items, missing) | None => (items, missing + 1) end)
  end.

Definition repriceItems (s : db) (connectionID modelID : string) (from to : Z) : result (list repriceItem * Z) :=
  let rows := reprice_rows s connectionID modelID from to in
  _ ← ensure (Z.of_nat (length rows) <=? 10000) (Msg "repricing range exceeds 10000 attempts");
  reprice_each s connectionID modelID rows.

(** * Booking a correction to the spend periods *)

(** The rows of [reconcileSpendPeriods]. *)
Definition spend_rows (s : db) (attemptID : string) : list (string * ReservationRow) :=
  select_rows (fun _ r => (rv_Attempt r =s attemptID)
                          && (bool_decide (rv_State r = RvSettled) || bool_decide (rv_State r = RvUncertain))
                          && match t_policies s !! rv_Policy r with Some p => bool_decide (p_Metric p = MSpend) | None => false end
                          && is_some (rv_Period r)) (t_reservations s).

(** [UPDATE reservations SET state = 'settled' ... AND state = 'uncertain']. *)
Definition settle_uncertain (id : string) (at_ : Z) : tx db unit :=
  _ ← update_row t_reservations set_reservations id (fun r => bool_decide (rv_State r = RvUncertain))
        (with_reservation_state RvSettled at_); mret tt.

Definition spend_period_error : error := Msg "repricing would corrupt a spend period".

(** Any failure of a step is reported as [err]. *)
Definition or_fail {A} (err : error) (m : tx db A) : tx db A :=
  fun s => match m s with Ok x => Ok x | Err _ => Err err end.

Definition spend_item (delta actual at_ : Z) (item : string * ReservationRow) : tx db unit :=
  let (id, r) := item in
  let uncertain := bool_decide (rv_State r = RvUncertain) in
  let change := if uncertain then actual else delta in
  let release := if uncertain then rv_Units r else 0 in
  if (change =? 0) && (release =? 0) then mret tt
  else
    _ ← or_fail spend_period_error (updateQuotaPeriod (rv_Policy r) (default 0 (rv_Period r)) change (wrap64 (- release)));
    if uncertain then settle_uncertain id at_ else mret tt.

Definition reconcileSpendPeriods (attemptID : string) (delta actual at_ : Z) : tx db unit :=
  items ← reads (fun s => spend_rows s attemptID);
  for_each (spend_item delta actual at_) items.

(** * [PreviewReprice] and [ApplyReprice] *)

Definition with_restated (amount : Z) (a : AttemptRow) : AttemptRow :=
  let u := at_Usage a in
  mkAttemptRow (at_Snapshot a) (at_State a) (at_UsageStatus a)
    (mkAttemptUsage (au_Input u) (au_Output u) (au_CacheCreation u) (au_CacheRead u) (au_Cache5m u) (au_Cache1h u)
       (au_Recorded u) (Some amount) (au_WebSearches u) (au_ToolCalls u) (au_ToolStatus u)) (at_FirstByte a) (at_Finished a).

Definition restate (attemptID : string) (amount : Z) : tx db unit :=
  _ ← update_row t_attempts set_attempts attemptID (fun _ => true) (with_restated amount); mret tt.

(** [INSERT OR IGNORE INTO cost_assessments]: whether a row was inserted. *)
Definition insert_or_ignore_assessment (key : string * string * Z * AssessmentKind) (row : AssessmentRow) : tx db bool :=
  m ← reads t_assessments;
  if (0 <=? ca_Amount row) && negb (existsb (fun kv => ca_ID (snd kv) =s ca_ID row) (map_to_list m))
     && bool_decide (m !! key = None)
  then _ ← insert_row t_assessments set_assessments key row; mret true
  else mret false.

Definition reprice_key (i : repriceItem) : string :=
  "reprice:" +:+ it_attemptID i +:+ ":" +:+ it_priceID i +:+ ":" +:+ FormatInt (it_calculationVersion i).

(** The books of one repriced attempt: its delta when it was not yet restated
    by this price version. *)
Definition apply_reprice_item (e : env) (actor : User) (n : nat) (i : repriceItem) : tx db (option Z) :=
  inserted ← insert_or_ignore_assessment (it_attemptID i, it_priceID i, it_calculationVersion i, AsRestated)
               (mkAssessmentRow ("ass_" +:+ token e (3 * n)) (it_amount i) (it_delta i) (now e (4 * n)));
  if inserted : bool then
    _ ← insert_ledger (reprice_key i)
          (mkLedgerRow ("led_" +:+ token e (3 * n + 1)) (it_attemptID i) EnReprice None (Some (it_delta i))
             (Some (us_ID actor)) "historical price version" (now e (4 * n + 1)));
    _ ← restate (it_attemptID i) (it_amount i);
    _ ← reconcileSpendPeriods (it_attemptID i) (it_delta i) (it_amount i) (now e (4 * n + 2));
    _ ← appendOutbox (token e (3 * n + 2)) "" (it_attemptID i)
          (CostAdjusted (it_who i) (it_delta i) (if it_resolveUnknown i then -1 else 0)) (now e (4 * n + 3));
    mret (Some (it_delta i))
  else mret None.

(** The loop, with the running totals [applied] and [delta]. *)
Fixpoint apply_reprice_all (e : env) (actor : User) (n : nat) (applied delta : Z) (items : list repriceItem) : tx db (Z * Z) :=
  match items with
  | [] => mret (applied, delta)
  | i :: items =>
    d ← apply_reprice_item e actor n i;
    match d with
    | None => apply_reprice_all e actor (S n) applied delta items
    | Some d =>
      match checkedAdd [delta; d] with
      | None => fail (Msg "repricing delta is too large")
      | Some delta => apply_reprice_all e actor (S n) (applied + 1) delta items
      end
    end
  end.

Definition insert_job (key : string) (row : JobRow) : tx db unit :=
  m ← reads t_jobs;
  _ ← require (negb (existsb (fun kv => jb_ID (snd kv) =s jb_ID row) (map_to_list m))) constraint_failed;
  insert_row t_jobs set_jobs key row.

(** The total of [PreviewReprice]. *)
Fixpoint total_delta (delta : Z) (items : list repriceItem) : result Z :=
  match items with
  | [] => Ok delta
  | i :: items => match checkedAdd [delta; it_delta i] with
                  | Some delta => total_delta delta items
                  | None => Err (Msg "repricing delta is too large")
                  end
  end.

Section Range.
(** [time.Parse(time.RFC3339, _)], as nanoseconds since the epoch. *)
Variable parse_time : string -> option Z.

Definition max_range : Z := 366 * 24 * 60 * 60 * 1000000000.

Definition repriceRange (input : RepriceInput) : result (Z * Z) :=
  match parse_time (rp_From input) with
  | None => Err (Msg "from must be RFC3339")
  | Some from =>
    match parse_time (rp_To input) with
    | None => Err (Msg "to must be later than from and within 366 days")
    | Some to =>
      _ ← ensure (negb (negb (from <? to) || (max_range <? to - from))) (Msg "to must be later than from and within 366 days");
      _ ← ensure (negb ((rp_ConnectionID input =s "") || (rp_ModelID input =s "") || (200 <? str_len (rp_ConnectionID input))
                        || (200 <? str_len (rp_ModelID input)))) (Msg "connection and model are required");
      Ok (UnixMilli from, UnixMilli to)
    end
  end.

Definition PreviewReprice (actor : User) (input : RepriceInput) (s : db) : result RepricePreview :=
  actor ← refreshUsageActor s actor;
  _ ← ensure (is_manager (us_Role actor)) ErrDenied;
  range ← repriceRange input;
  found ← repriceItems s (rp_ConnectionID input) (rp_ModelID input) (fst range) (snd range);
  let (items, missing) := (found : list repriceItem * Z) in
  delta ← total_delta 0 items;
  Ok (mkRepricePreview (Z.of_nat (length items)) missing (FormatUSD delta)).

Definition apply_reprice_tx (e : env) (actor : User) (input : RepriceInput) (from to : Z) : tx db RepricePreview :=
  s ← reads (fun s => s);
  actor ← lift (refreshUsageActor s actor);
  _ ← require (bool_decide (us_Role actor = Owner)) ErrDenied;
  match t_jobs s !! rp_IdempotencyKey input with
  | Some job =>
    _ ← require (negb (negb (jb_Actor job =s us_ID actor) || negb (jb_Model job =s rp_ModelID input)
                       || negb (jb_Connection job =s rp_ConnectionID input) || negb (jb_From job =? from)
                       || negb (jb_To job =? to))) ErrConflict;
    mret (mkRepricePreview (jb_Affected job) (jb_Missing job) (FormatUSD (jb_Delta job)))
  | None =>
    found ← lift (repriceItems s (rp_ConnectionID input) (rp_ModelID input) from to);
    let (items, missing) := (found : list repriceItem * Z) in
    _ ← requireOutboxCapacity (Z.of_nat (length items));
    totals ← apply_reprice_all e actor 0 0 0 items;
    let (applied, delta) := (totals : Z * Z) in
    let n := length items in
    let job := "job_" +:+ token e (3 * n) in
    _ ← insert_job (rp_IdempotencyKey input)
          (mkJobRow job (us_ID actor) (rp_ModelID input) (rp_ConnectionID input) from to applied missing delta (now e (4 * n)));
    _ ← insertAudit (token e (3 * n + 1)) (us_ID actor) "usage.reprice" "pricing_job" job
          [("affected_attempts", JInt applied); ("delta_nanos", JInt delta); ("missing_prices", JInt missing)]%string
          (now e (4 * n + 1));
    mret (mkRepricePreview applied missing (FormatUSD delta))
  end.

Definition ApplyReprice (e : env) (actor : User) (input : RepriceInput) (s : db) : result RepricePreview * db :=
  if (rp_IdempotencyKey input =s "") || (200 <? str_len (rp_IdempotencyKey input))
  then (Err (Msg "idempotency_key is required"), s)
  else match repriceRange input with
       | Err err => (Err err, s)
       | Ok (from, to) => commit (apply_reprice_tx e actor input from to) s
       end.
End Range.

(** * [AdjustCost] *)

(** The ledger entry already holding the idempotency key: a repeat of this
    adjustment or a conflict. [actor_user_id] is scanned into a string, so an
    entry without actor is an error of the scan. *)
Definition replay_adjustment (entry : LedgerRow) (actor : User) (attemptID reason : string) (delta current : Z) : result string :=
  match ld_Actor entry with
  | None => Err (Msg "sql: Scan error: converting NULL to string is unsupported")
  | Some by_ =>
    _ ← ensure ((ld_Attempt entry =s attemptID) && bool_decide (ld_Type entry = EnAdjustment) && (by_ =s us_ID actor)
                && (ld_Reason entry =s reason) && bool_decide (ld_Cost entry = Some delta)) ErrConflict;
    Ok (FormatUSD current)
  end.

Definition adjust_tx (e : env) (actor : User) (attemptID : string) (delta : Z) (reason idempotencyKey : string) : tx db string :=
  s ← reads (fun s => s);
  actor ← lift (refreshUsageActor s actor);
  _ ← require (is_manager (us_Role actor)) ErrDenied;
  ar ← get_row (fun s => attempt_join s attemptID) ErrNotFound;
  let (a, r) := (ar : AttemptRow * RequestRow) in
  let current := default 0 (current_cost (at_Usage a)) in
  _ ← require (settled (at_State a)) ErrConflict;
  _ ← require (negb (bool_decide (at_UsageStatus a = UsUnknown))) (Msg "reconcile unknown usage before adjusting its cost");
  _ ← lift (admin_may_touch s actor (rq_Owner r));
  match t_ledger s !! idempotencyKey with
  | Some entry => lift (replay_adjustment entry actor attemptID reason delta current)
  | None =>
    let invalid := Msg "adjustment would make cost negative or overflow" in
    match checkedAdd [current; delta] with
    | None => fail invalid
    | Some next =>
      _ ← require (0 <=? next) invalid;
      _ ← requireOutboxCapacity 1;
      _ ← insert_ledger idempotencyKey
            (mkLedgerRow ("led_" +:+ token e 0) attemptID EnAdjustment None (Some delta) (Some (us_ID actor)) reason (now e 0));
      _ ← restate attemptID next;
      _ ← reconcileSpendPeriods attemptID delta next (now e 1);
      _ ← insertAudit (token e 1) (us_ID actor) "usage.adjust" "attempt" attemptID
            [("delta_nanos", JInt delta); ("reason", JString reason)]%string (now e 2);
      _ ← appendOutbox (token e 2) "" attemptID
            (CostAdjusted (subject_of a r) delta (if is_some (current_cost (at_Usage a)) then 0 else -1)) (now e 3);
      mret (FormatUSD next)
    end
  end.

Definition AdjustCost (e : env) (actor : User) (attemptID deltaUSD reason idempotencyKey : string) (s : db) : result string * db :=
  if (str_len reason <? 3) || (500 <? str_len reason) || (idempotencyKey =s "") || (200 <? str_len idempotencyKey)
  then (Err (Msg "reason and idempotency_key are required"), s)
  else match parseSignedUSD deltaUSD with
       | Err _ => (Err (Msg "delta_usd must be a non-zero USD decimal"), s)
       | Ok delta =>
         if delta =? 0 then (Err (Msg "delta_usd must be a non-zero USD decimal"), s)
         else commit (adjust_tx e actor attemptID delta reason idempotencyKey) s
       end.

(** * What a correction books *)

(** The units one correction adds to a period, over the given reservations:
    the whole cost for an uncertain one, the change for a settled one. *)
Definition booked_change (delta actual : Z) (pid : string) (start : Z) (items : list (string * ReservationRow)) : Z :=
  foldr Z.add 0 (map (fun kv => if (rv_Policy kv.2 =s pid) && bool_decide (rv_Period kv.2 = Some start)
                                then (if bool_decide (rv_State kv.2 = RvUncertain) then actual else delta) else 0) items).

Definition correctable (s : db) (kv : string * ReservationRow) : Prop :=
  t_reservations s !! kv.1 = Some kv.2 /\ (rv_State kv.2 = RvSettled \/ rv_State kv.2 = RvUncertain) /\ is_Some (rv_Period kv.2).

Lemma elem_of_spend_rows s attemptID kv :
  kv ∈ spend_rows s attemptID -> correctable s kv /\ rv_Attempt kv.2 = attemptID.
Proof.
  destruct kv as [id r]. unfold spend_rows. rewrite elem_of_select_rows, !andb_true_iff, orb_true_iff, !bool_decide_eq_true, String.eqb_eq.
  intros (Hr & [[[Ha Hs] _] Hp]). split; [|done]. split_and!; [done|done|]. cbn. by destruct (rv_Period r).
Qed.

Lemma Forall_two {A} (P : A -> Prop) a b : P a -> P b -> Forall P [a; b].
Proof. intros. by repeat constructor. Qed.

(** One reservation of a correction. *)
Lemma spend_item_step delta actual t id r start s u s' :
  balanced s -> t_reservations s !! id = Some r -> rv_State r = RvSettled \/ rv_State r = RvUncertain ->
  rv_Period r = Some start -> in_int64 delta -> in_int64 actual ->
  spend_item delta actual t (id, r) s = Ok (u, s') ->
  counters_only s s' /\ balanced s' /\
  (forall j, j <> id -> t_reservations s' !! j = t_reservations s !! j) /\
  (exists r', t_reservations s' !! id = Some r' /\ (r' = r \/ ended RvSettled r r')) /\
  (forall pid st, period_consumed s' pid st = period_consumed s pid st + booked_change delta actual pid st [(id, r)]).
Proof.
  intros Hb Hr Hst Hper Hd Ha H. unfold spend_item in H. unfold booked_change. cbn [map foldr fst snd].
  set (change := if bool_decide (rv_State r = RvUncertain) then actual else delta) in *.
  destruct ((change =? 0) && _) eqn:Hz.
  { tx_inv. split_and!; [apply counters_only_refl|done|done|exists r; auto|]. intros pid st.
    apply andb_true_iff in Hz as [Hz _]. apply Z.eqb_eq in Hz. rewrite Hz. destruct (_ && _); lia. }
  apply tx_bind_Ok in H as (? & s1 & Hu & H). unfold or_fail in Hu.
  destruct (updateQuotaPeriod _ _ _ _ s) as [[? ?]|] eqn:Eu; [|done]. injection Hu as -> ->.
  rewrite Hper in Eu. change (default 0 (Some start)) with start in Eu.
  apply updateQuotaPeriod_Ok in Eu as (q & n & m & Hq & Hn & Hm & Hnb & Hmb & ->).
  destruct (bal_rows s Hb id r Hr) as (Hu & p & Hp & Hiff). pose proof (bal_consumed s Hb _ _ Hq) as [Hqc Hqr].
  apply checkedAdd_exact in Hn as [-> _]; [|apply Forall_two; [unfold_ints; lia|unfold change; case_match; done]].
  apply checkedAdd_exact in Hm as [-> _]; [|apply Forall_two; [unfold_ints; lia|apply wrap64_range]].
  cbn [foldr] in *. rewrite !Z.add_0_r in *.
  assert (forall pid st q', q_Consumed q' = q_Consumed q + change ->
    (match <[(rv_Policy r, start) := q']> (t_periods s) !! (pid, st) with Some q => q_Consumed q | None => 0 end) =
    period_consumed s pid st + ((if (rv_Policy r =s pid) && bool_decide (rv_Period r = Some st) then change else 0) + 0)) as Hcons.
  { intros pid st q' Hq'. unfold period_consumed. rewrite Hper. destruct (decide ((rv_Policy r, start) = (pid, st))) as [[= <- <-]|Hne].
    - rewrite lookup_insert_eq, Hq, String.eqb_refl, bool_decide_eq_true_2 by done. cbn. lia.
    - rewrite lookup_insert_ne by done. replace ((rv_Policy r =s pid) && bool_decide (Some start = Some st)) with false; [lia|].
      symmetry. apply andb_false_iff. rewrite String.eqb_neq, bool_decide_eq_false.
      destruct (decide (rv_Policy r = pid)) as [E|]; [right|by left]. intros [= Est]. apply Hne. by rewrite E, Est. }
  unfold maxSafeInteger in *. destruct Hst as [Hst|Hst].
  - rewrite (bool_decide_eq_false_2 (rv_State r = RvUncertain)) in H, Hmb by (by rewrite Hst). tx_inv.
    change (wrap64 (- 0)) with 0 in *.
    split_and!; [by split| |done|exists r; auto|].
    + eapply balanced_period; [done|exact Hp|cbn; unfold max_int64; lia|cbn; unfold max_int64; lia|]. cbn. unfold period_reserved. rewrite Hq. lia.
    + intros pid st. eapply (Hcons pid st). reflexivity.
  - rewrite (bool_decide_eq_true_2 (rv_State r = RvUncertain)) in H, Hmb by done. unfold settle_uncertain in H. tx_inv.
    match goal with H : update_row _ _ _ _ _ _ = _ |- _ => apply update_row_Ok in H as [(r0 & Hr0 & _ & _ & ->)|(_ & _ & Hc)] end.
    2: { cbn in Hc. specialize (Hc r Hr). by rewrite bool_decide_eq_true_2 in Hc. }
    cbn in Hr0. rewrite Hr in Hr0. injection Hr0 as <-.
    rewrite (neg_units r (t_policies s)) in * by (by apply (bal_rows s Hb id)).
    split_and!; [by split| |..].
    + eapply (balanced_drop s id r); try done; cbn; [by rewrite Hst|unfold max_int64; lia|lia].
    + intros j Hj. cbn. by rewrite lookup_insert_ne.
    + cbn. rewrite lookup_insert_eq. eexists. split; [done|]. right. by exists t.
    + intros pid st. eapply (Hcons pid st). reflexivity.
Qed.

(** The whole correction of one attempt. *)
Lemma reconcileSpendPeriods_Ok attemptID delta actual t s u s' :
  balanced s -> in_int64 delta -> in_int64 actual -> reconcileSpendPeriods attemptID delta actual t s = Ok (u, s') ->
  counters_only s s' /\ balanced s' /\
  (forall id r, t_reservations s' !! id = Some r -> rv_State r = RvActive -> t_reservations s !! id = Some r) /\
  (forall pid st, period_consumed s' pid st = period_consumed s pid st + booked_change delta actual pid st (spend_rows s attemptID)).
Proof.
  intros Hb Hd Ha H. unfold reconcileSpendPeriods in H. apply tx_bind_Ok in H as (items & s1 & Hg & H).
  apply reads_Ok in Hg as [-> ->].
  assert (NoDup (spend_rows s attemptID).*1) as Hnd by apply NoDup_select_rows.
  assert (forall kv, kv ∈ spend_rows s attemptID -> correctable s kv) as Hin by (intros kv Hkv; by apply elem_of_spend_rows in Hkv as [? _]).
  revert Hb Hnd Hin H. generalize (spend_rows s attemptID) as items. intros items. revert s.
  induction items as [|[id r] items IH]; intros s Hb Hnd Hin H; cbn [for_each] in H.
  - tx_inv. split_and!; [apply counters_only_refl|done|done|]. intros. unfold booked_change. cbn. lia.
  - apply tx_bind_Ok in H as ([] & s1 & H1 & H). destruct (Hin (id, r) ltac:(by left)) as (Hr & Hst & [start Hper]). cbn in Hr, Hst, Hper.
    destruct (spend_item_step _ _ _ _ _ start _ _ _ Hb Hr Hst Hper Hd Ha H1) as (Hco & Hb1 & Hoth & (r' & Hr' & Hout) & Hcons).
    cbn in Hnd. apply NoDup_cons in Hnd as [Hnotin Hnd].
    destruct (IH s1 Hb1 Hnd) as (Hco2 & Hb2 & Hact & Hcons2); [|done|].
    { intros [id' r0] Hel. destruct (Hin (id', r0) ltac:(by right)) as (Hr0 & ?). split; [|done]. cbn in *.
      rewrite Hoth; [done|]. intros ->. apply Hnotin, list_elem_of_fmap. by exists (id, r0). }
    split_and!; [by eapply counters_only_trans|done|..].
    + intros id' r0 Hr0 Hs. specialize (Hact id' r0 Hr0 Hs). destruct (decide (id' = id)) as [->|Hne]; [|by rewrite Hoth in Hact].
      rewrite Hr' in Hact. injection Hact as ->. destruct Hout as [->|[? ->]]; [|done]. destruct Hst; congruence.
    + intros pid st. rewrite Hcons2, Hcons. unfold booked_change. cbn [map foldr]. lia.
Qed.

(** * The corrections keep the invariant *)

Lemma usd_of_parts_range w f n : usd_of_parts w f = Ok n -> in_int64 n.
Proof.
  unfold usd_of_parts. intros H. repeat (apply result_bind_Ok in H as (? & _ & H)).
  injection H as <-. apply wrap64_range.
Qed.

Lemma parseSignedUSD_range v n : parseSignedUSD v = Ok n -> in_int64 n.
Proof.
  unfold parseSignedUSD. intros H. apply result_bind_Ok in H as (m & Hm & H).
  assert (in_int64 m) as Hr.
  { unfold ParseUSD in Hm. cbv zeta in Hm. apply result_bind_Ok in Hm as (? & _ & Hm).
    destruct (Split _ _) as [|p [|q [|]]]; try done; apply result_bind_Ok in Hm as (? & _ & Hm); by eapply usd_of_parts_range. }
  destruct (HasPrefix _ _); injection H as <-; [apply wrap64_range|done].
Qed.

Lemma restate_Ok id amount s u s' a :
  t_attempts s !! id = Some a -> restate id amount s = Ok (u, s') -> s' = set_attempts (<[id := with_restated amount a]> (t_attempts s)) s.
Proof. unfold restate. intros Ha H. tx_inv. by eapply (update_row_always t_attempts). Qed.

(** An attempt restated and its spend periods corrected. *)
Lemma restate_invariant id amount delta t s s1 s' u u' a :
  invariant s -> t_attempts s !! id = Some a -> in_int64 delta -> in_int64 amount ->
  restate id amount s = Ok (u, s1) -> reconcileSpendPeriods id delta amount t s1 = Ok (u', s') -> invariant s'.
Proof.
  intros [Hb Hlc Hle] Ha Hd Hm H1 H2. eapply restate_Ok in H1; [|done]. subst s1.
  apply reconcileSpendPeriods_Ok in H2 as (Hco & Hb' & Hact & _); [|eapply balanced_frame; [..|exact Hb]; done|done..].
  cbn in Hact. assert (relabels s s') as R.
  { split; [|rewrite (co_requests _ _ Hco); by apply map_Forall2_same|done].
    rewrite (co_attempts _ _ Hco). cbn. eapply map_Forall2_change; [apply _|done|]. by split. }
  split; [done|by eapply relabels_lifecycle|].
  eapply relabels_leases; [done|done|]. apply leases_kept; [apply (co_leases _ _ Hco)|apply (co_requests _ _ Hco)].
Qed.

Lemma adjust_invariant e actor attemptID delta reason key s r s' :
  invariant s -> in_int64 delta -> adjust_tx e actor attemptID delta reason key s = Ok (r, s') -> invariant s'.
Proof.
  intros Hi Hd H. unfold adjust_tx in H.
  apply tx_bind_Ok in H as (s0 & s1 & Hg & H). apply reads_Ok in Hg as [-> ->].
  apply tx_bind_Ok in H as (actor' & s1 & Hg & H). apply lift_Ok in Hg as [_ ->].
  apply tx_bind_Ok in H as (? & s1 & Hg & H). apply require_Ok in Hg as [_ ->].
  apply tx_bind_Ok in H as ([a rq] & s1 & Hg & H). apply get_row_Ok in Hg as [Hj ->]. apply attempt_join_Some in Hj as [Ha Hr].
  apply tx_bind_Ok in H as (? & s1 & Hg & H). apply require_Ok in Hg as [_ ->].
  apply tx_bind_Ok in H as (? & s1 & Hg & H). apply require_Ok in Hg as [_ ->].
  apply tx_bind_Ok in H as (? & s1 & Hg & H). apply lift_Ok in Hg as [_ ->].
  destruct (t_ledger s !! key); [by apply lift_Ok in H as [_ ->]|].
  destruct (checkedAdd _) as [next|] eqn:En; [|by apply fail_Ok in H]. apply checkedAdd_range in En.
  unfold requireOutboxCapacity in H. tx_inv. effects.
  match goal with H : reconcileSpendPeriods _ _ _ _ _ = Ok (_, ?s3) |- _ => apply (invariant_frame s3); [done..|] end.
  match goal with H2 : restate _ _ _ = _, H3 : reconcileSpendPeriods _ _ _ _ _ = _ |- _ => refine (restate_invariant _ _ _ _ _ _ _ _ _ a _ _ Hd En H2 H3); [|exact Ha] end.
  by apply (invariant_frame s).
Qed.

Lemma insert_or_ignore_Ok key row s b s' :
  insert_or_ignore_assessment key row s = Ok (b, s') -> exists m, s' = set_assessments m s.
Proof.
  unfold insert_or_ignore_assessment. intros H. apply tx_bind_Ok in H as (m & s1 & Hg & H). apply reads_Ok in Hg as [-> ->].
  destruct (_ && _); tx_inv; [|exists (t_assessments s'); by destruct s'].
  match goal with H : insert_row _ _ _ _ _ = _ |- _ => apply insert_row_Ok in H as [_ ->] end. eauto.
Qed.

(** What an item of a range must satisfy to be booked. *)
Definition item_ok (s : db) (i : repriceItem) : Prop :=
  (exists a, t_attempts s !! it_attemptID i = Some a) /\ in_int64 (it_delta i) /\ in_int64 (it_amount i).

Lemma apply_reprice_item_invariant e actor n i s d s' :
  invariant s -> item_ok s i -> apply_reprice_item e actor n i s = Ok (d, s') -> 
  invariant s' /\ (forall j, item_ok s j -> item_ok s' j).
Proof.
  intros Hi ((a & Ha) & Hd & Hm) H. unfold apply_reprice_item in H.
  apply tx_bind_Ok in H as (b & s1 & Hins & H). apply insert_or_ignore_Ok in Hins as [m ->].
  set (s1 := set_assessments m s) in *. assert (invariant s1) as Hi1 by (by eapply (invariant_frame s)).
  destruct b; [|tx_inv; by split].
  apply tx_bind_Ok in H as (? & s2 & Hl & H). apply insert_ledger_Ok in Hl as [_ ->]. set (s2 := set_ledger _ s1) in *.
  assert (invariant s2) as Hi2 by (by eapply (invariant_frame s1)).
  apply tx_bind_Ok in H as (? & s3 & Hr & H). apply tx_bind_Ok in H as (? & s4 & Hp & H).
  pose proof (restate_invariant _ _ _ _ _ _ _ _ _ a Hi2 Ha Hd Hm Hr Hp) as Hi4.
  apply tx_bind_Ok in H as (? & s5 & Ho & H). apply appendOutbox_Ok in Ho as [o ->]. apply tx_ret_Ok in H as [_ <-].
  split; [by eapply (invariant_frame s4)|]. intros j ((b & Hb) & ?). split; [|done].
  eapply restate_Ok in Hr; [|exact Ha]. subst s3.
  apply reconcileSpendPeriods_Ok in Hp as (Hco & _); [|eapply balanced_frame; [..|apply (inv_balanced _ Hi2)]; done|done..].
  cbn. rewrite (co_attempts _ _ Hco). cbn.
  destruct (decide (it_attemptID i = it_attemptID j)) as [->|Hne]; [rewrite lookup_insert_eq|rewrite lookup_insert_ne by done]; eauto.
Qed.

Lemma apply_reprice_all_invariant e actor items : forall n applied delta s r s',
  invariant s -> Forall (item_ok s) items -> apply_reprice_all e actor n applied delta items s = Ok (r, s') -> invariant s'.
Proof.
  induction items as [|i items IH]; intros n applied delta s r s' Hi Hok H; cbn [apply_reprice_all] in H; [by tx_inv|].
  apply Forall_cons in Hok as [Hi0 Hok]. apply tx_bind_Ok in H as (d & s1 & H1 & H).
  destruct (apply_reprice_item_invariant _ _ _ _ _ _ _ Hi Hi0 H1) as [Hi1 Hmono].
  assert (Forall (item_ok s1) items) as Hok1 by (eapply Forall_impl; [exact Hok|]; cbn; auto).
  destruct d as [d|]; [|by eapply IH]. destruct (checkedAdd _); [|by apply fail_Ok in H]. by eapply IH.
Qed.

Lemma reprice_row_ok s c m row i :
  t_attempts s !! row.1 = Some row.2.1 -> reprice_row s c m row = Ok (Some i) -> item_ok s i.
Proof.
  destruct row as [id [a r]]. cbn [fst snd]. intros Ha. unfold reprice_row. intros H.
  apply result_bind_Ok in H as (adj & _ & H). destruct (priceAt _ _ _ _) as [[pid p]|]; [|done].
  apply result_bind_Ok in H as (am & _ & H). apply result_bind_Ok in H as ([am'|] & _ & H); [|done].
  destruct (checkedAdd _) as [target|] eqn:E; [|done]. destruct (target <? 0); [done|]. injection H as <-.
  split; [by exists a|]; split; cbn; [apply wrap64_range|by apply checkedAdd_range in E].
Qed.

Lemma reprice_each_ok s c m rows : forall items missing,
  Forall (fun row => t_attempts s !! row.1 = Some row.2.1) rows ->
  reprice_each s c m rows = Ok (items, missing) -> Forall (item_ok s) items.
Proof.
  induction rows as [|row rows IH]; intros items missing Hrows H; cbn in H; [injection H as <- <-; constructor|].
  apply Forall_cons in Hrows as [Hrow Hrows]. apply result_bind_Ok in H as (i & Hi & H).
  apply result_bind_Ok in H as ([items' missing'] & Hrest & H). destruct i as [i|]; injection H as <- <-; [|by eapply IH].
  constructor; [by eapply reprice_row_ok|by eapply IH].
Qed.

Lemma repriceItems_ok s c m from to items missing :
  repriceItems s c m from to = Ok (items, missing) -> Forall (item_ok s) items.
Proof.
  unfold repriceItems. intros H. apply result_bind_Ok in H as (? & _ & H). eapply reprice_each_ok; [|exact H].
  unfold reprice_rows. apply Forall_take. rewrite merge_sort_Permutation. apply Forall_forall. intros [id [a r]] Hin.
  apply list_elem_of_omap in Hin as ([id' a'] & Hin & E). apply elem_of_select_rows in Hin as [Ha _]. cbn in *.
  destruct (t_requests s !! at_Request a'); [|done]. by injection E as -> -> _.
Qed.

Lemma apply_reprice_invariant e actor input from to s r s' :
  invariant s -> apply_reprice_tx e actor input from to s = Ok (r, s') -> invariant s'.
Proof.
  intros Hi H. unfold apply_reprice_tx in H.
  apply tx_bind_Ok in H as (s0 & s1 & Hg & H). apply reads_Ok in Hg as [-> ->].
  apply tx_bind_Ok in H as (actor' & s1 & Hg & H). apply lift_Ok in Hg as [_ ->].
  apply tx_bind_Ok in H as (? & s1 & Hg & H). apply require_Ok in Hg as [_ ->].
  destruct (t_jobs s !! _); [by tx_inv|].
  apply tx_bind_Ok in H as ([items missing] & s1 & Hg & H). apply lift_Ok in Hg as [Hitems ->].
  apply repriceItems_ok in Hitems. unfold requireOutboxCapacity in H.
  apply tx_bind_Ok in H as (? & s1 & Hg & H). apply tx_bind_Ok in Hg as (? & ? & Hr & Hg). apply reads_Ok in Hr as [_ ->]. apply require_Ok in Hg as [_ ->].
  apply tx_bind_Ok in H as ([applied delta] & s1 & Hloop & H). apply apply_reprice_all_invariant in Hloop; [|done..].
  unfold insert_job in H. tx_inv. effects.
  match goal with H : insert_row _ _ _ _ _ = _ |- _ => apply insert_row_Ok in H as [_ ->] end.
  by eapply (invariant_frame s1).
Qed.

(** * [AdjustCost] *)

Lemma adjust_tx_new e actor attemptID delta reason key s r s' a :
  balanced s -> t_attempts s !! attemptID = Some a -> in_int64 (default 0 (current_cost (at_Usage a))) -> in_int64 delta ->
  t_ledger s !! key = None -> adjust_tx e actor attemptID delta reason key s = Ok (r, s') ->
  let next := default 0 (current_cost (at_Usage a)) + delta in
  0 <= next /\ r = FormatUSD next /\ t_attempts s' !! attemptID = Some (with_restated next a) /\
  (exists row, t_ledger s' = <[key := row]> (t_ledger s) /\ ld_Attempt row = attemptID /\ ld_Type row = EnAdjustment /\
     ld_Cost row = Some delta /\ ld_Reason row = reason /\ ld_Actor row = Some (us_ID actor)) /\
  (forall pid st, period_consumed s' pid st = period_consumed s pid st + booked_change delta next pid st (spend_rows s attemptID)).
Proof.
  intros Hb Ha Hc Hd Hl H next. unfold adjust_tx in H.
  apply tx_bind_Ok in H as (s0 & s1 & Hg & H). apply reads_Ok in Hg as [-> ->].
  apply tx_bind_Ok in H as (actor' & s1 & Hg & H). apply lift_Ok in Hg as [Hact ->]. apply refreshUsageActor_Ok in Hact as [Hid _].
  apply tx_bind_Ok in H as (? & s1 & Hg & H). apply require_Ok in Hg as [_ ->].
  apply tx_bind_Ok in H as ([a' rq] & s1 & Hg & H). apply get_row_Ok in Hg as [Hj ->]. apply attempt_join_Some in Hj as [Ha' Hr].
  rewrite Ha in Ha'. injection Ha' as <-.
  apply tx_bind_Ok in H as (? & s1 & Hg & H). apply require_Ok in Hg as [_ ->].
  apply tx_bind_Ok in H as (? & s1 & Hg & H). apply require_Ok in Hg as [_ ->].
  apply tx_bind_Ok in H as (? & s1 & Hg & H). apply lift_Ok in Hg as [_ ->]. rewrite Hl in H.
  destruct (checkedAdd _) as [n|] eqn:En; [|by apply fail_Ok in H].
  apply checkedAdd_exact in En as [En Hn]; [|by apply Forall_two]. cbn [foldr] in En. rewrite Z.add_0_r in En. subst n. fold next in H, Hn.
  apply tx_bind_Ok in H as (? & s1 & Hg & H). apply require_Ok in Hg as [Hpos ->].
  unfold requireOutboxCapacity in H. apply tx_bind_Ok in H as (? & s1 & Hg & H). apply tx_bind_Ok in Hg as (? & ? & Hr0 & Hg). apply reads_Ok in Hr0 as [_ ->]. apply require_Ok in Hg as [_ ->].
  apply tx_bind_Ok in H as (? & s1 & Hled & H). apply insert_ledger_Ok in Hled as [_ ->].
  apply tx_bind_Ok in H as (? & s1 & Hres & H). eapply restate_Ok in Hres; [|exact Ha]. subst s1.
  apply tx_bind_Ok in H as (? & s1 & Hp & H).
  apply reconcileSpendPeriods_Ok in Hp as (Hco & _ & _ & Hcons); [|eapply balanced_frame; [..|exact Hb]; done|done|done].
  apply tx_bind_Ok in H as (? & s2 & Hau & H). apply insertAudit_Ok in Hau as [au ->].
  apply tx_bind_Ok in H as (? & s2 & Hob & H). apply appendOutbox_Ok in Hob as [ob ->]. apply tx_ret_Ok in H as [<- <-].
  cbn in *. rewrite (co_attempts _ _ Hco), (co_ledger _ _ Hco). cbn. rewrite lookup_insert_eq. split_and!; [lia|done|done| |exact Hcons].
  eexists. split; [done|]. cbn. by rewrite Hid.
Qed.

(** A new [AdjustCost] moves the attempt's cost by exactly the signed
    amount it was given, never below zero, records the amount in the ledger
    under its idempotency key, and books it to the attempt's spend periods:
    the change for a settled reservation, the whole new cost for one that was
    still uncertain. *)
Theorem AdjustCost_books (e : env) (actor : User) (attemptID usd reason key : string) (s s' : db) (r : string) (a : AttemptRow) :
  balanced s -> t_attempts s !! attemptID = Some a -> in_int64 (default 0 (current_cost (at_Usage a))) ->
  t_ledger s !! key = None -> AdjustCost e actor attemptID usd reason key s = (Ok r, s') ->
  exists delta, parseSignedUSD usd = Ok delta /\ delta <> 0 /\
    let next := default 0 (current_cost (at_Usage a)) + delta in
    0 <= next /\ r = FormatUSD next /\ t_attempts s' !! attemptID = Some (with_restated next a) /\
    (exists row, t_ledger s' = <[key := row]> (t_ledger s) /\ ld_Attempt row = attemptID /\ ld_Type row = EnAdjustment /\
       ld_Cost row = Some delta /\ ld_Reason row = reason /\ ld_Actor row = Some (us_ID actor)) /\
    (forall pid st, period_consumed s' pid st = period_consumed s pid st + booked_change delta next pid st (spend_rows s attemptID)).
Proof.
  intros Hb Ha Hc Hl H. unfold AdjustCost, commit in H. destruct (_ || _); [done|].
  destruct (parseSignedUSD usd) as [delta|] eqn:Eu; [|done]. destruct (delta =? 0) eqn:Ez; [done|].
  destruct (adjust_tx _ _ _ _ _ _ s) as [[r0 s0]|] eqn:E; [|done]. injection H as -> ->.
  exists delta. split; [done|]. split; [lia|]. eapply adjust_tx_new; [done|done|done|by eapply parseSignedUSD_range|done|exact E].
Qed.
