(* ===== verification/Operations.v ===== *)
(** The owner's operations that write the tables of the usage services
    ([internal/features/operations]): the limit policies and the prices of a
    configuration import, and the retention of request details. *)
From S2P Require Import Prelude GoStd Money Counters Policy Json Store Pricing PolicyService Admission.
Open Scope string_scope.
Open Scope Z_scope.

(** [requireOwner]; without an actor it is the process itself. *)
Definition requireOwner (s : db) (actor : string) : result unit :=
  if actor =s "" then Ok tt
  else match t_users s !! actor with
       | Some u => ensure (bool_decide (u_Status u = UActive) && bool_decide (u_Role u = Owner)) ErrDenied
       | None => Err ErrDenied
       end.

(** * The limits of a configuration bundle *)

Record ConfigPolicy := mkConfigPolicy {
  cp_ID : string; cp_ScopeKind : string; cp_ScopeID : string; cp_Metric : string; cp_Algorithm : string; cp_Period : string;
  cp_WindowSeconds : Z; cp_LimitUnits : Z; cp_RefillUnits : Z; cp_RefillIntervalMS : Z; cp_Enabled : bool }.

Record ConfigPrice := mkConfigPrice {
  cr_ID : string; cr_ConnectionID : string; cr_ModelID : string; cr_Input : Z; cr_Output : Z; cr_CacheRead : option Z;
  cr_Source : string; cr_From : Z; cr_To : option Z; cr_WeeklyStart : option Z; cr_WeeklyEnd : option Z }.

Definition validPolicy (item : ConfigPolicy) : bool :=
  let no_refill := (cp_RefillUnits item =? 0) && (cp_RefillIntervalMS item =? 0) in
  let no_period := cp_Period item =s "" in
  let no_window := cp_WindowSeconds item =? 0 in
  let counted := (cp_Metric item =s "requests") || (cp_Metric item =s "tokens") in
  let instance := cp_ScopeKind item =s "instance" in
  if (cp_LimitUnits item <=? 0) || (cp_WindowSeconds item <? 0) || (cp_RefillUnits item <? 0) || (cp_RefillIntervalMS item <? 0) then false
  else if instance && negb (cp_ScopeID item =s "") || negb instance && (cp_ScopeID item =s "") then false
  else if negb instance && negb (cp_ScopeKind item =s "user") && negb (cp_ScopeKind item =s "key") && negb (cp_ScopeKind item =s "connection") then false
  else if cp_Algorithm item =s "token_bucket" then
    no_period && no_window && (0 <? cp_RefillUnits item) && (0 <? cp_RefillIntervalMS item) && counted
  else if cp_Algorithm item =s "fixed_window" then no_period && (0 <? cp_WindowSeconds item) && no_refill && counted
  else if cp_Algorithm item =s "quota" then
    contains ["hour"; "day"; "week"; "month"; "lifetime"] (cp_Period item) && no_window && no_refill && contains ["requests"; "tokens"; "spend"] (cp_Metric item)
  else if cp_Algorithm item =s "concurrency" then no_period && no_window && no_refill && (cp_Metric item =s "concurrency")
  else if cp_Algorithm item =s "ceiling" then
    no_period && no_window && no_refill && contains ["body_bytes"; "output_tokens"; "batch_items"] (cp_Metric item)
  else false.

(** A price of the bundle, whose connections and models are [connections] and
    [models] and whose format is [format]. *)
Definition validPrice (format : Z) (connections models : string -> bool) (item : ConfigPrice) : bool :=
  let legacyWithV2Fields := (format =? 1) && (is_some (cr_CacheRead item) || is_some (cr_WeeklyStart item) || is_some (cr_WeeklyEnd item)) in
  let validWindow :=
    match cr_WeeklyStart item, cr_WeeklyEnd item with
    | None, None => true
    | Some a, Some b => (0 <=? a) && (a <? b) && (b <=? 7 * 24 * 60)
    | _, _ => false
    end in
  negb (legacyWithV2Fields || negb validWindow || negb (connections (cr_ConnectionID item)) || negb (models (cr_ModelID item))
        || (cr_Input item <? 0) || (cr_Output item <? 0) || match cr_CacheRead item with Some n => n <? 0 | None => false end
        || (TrimSpace (cr_Source item) =s "") || (cr_From item <=? 0)
        || match cr_To item with Some t => t <=? cr_From item | None => false end).

(** ** The upsert of a policy *)

Definition input_of_config (item : ConfigPolicy) : PolicyInput :=
  mkPolicyInput (cp_ScopeKind item) (cp_ScopeID item) (cp_Metric item) (cp_Algorithm item) (cp_Period item) (cp_WindowSeconds item)
    (cp_LimitUnits item) "" (cp_RefillUnits item) (cp_RefillIntervalMS item) (Some (cp_Enabled item)).

(** The row after the upsert: a policy that is there keeps its creation and
    counts a revision. *)
Definition merged_policy (old : option PolicyRow) (row : PolicyRow) : PolicyRow :=
  match old with
  | Some p => mkPolicyRow (p_ScopeKind row) (p_ScopeID row) (p_Metric row) (p_Algorithm row) (p_Period row) (p_WindowSeconds row)
                (p_LimitUnits row) (p_RefillUnits row) (p_RefillIntervalMS row) (p_Enabled row) (p_Revision p + 1) (p_CreatedAt p) (p_UpdatedAt row)
  | None => row
  end.

Definition import_policy (now_ : Z) (item : ConfigPolicy) : tx db unit :=
  match row_of_input (input_of_config item) now_ with
  | None => fail constraint_failed
  | Some row =>
    policies ← reads t_policies;
    _ ← require (negb (existsb (fun kv => negb (fst kv =s cp_ID item) && same_policy (snd kv) row) (map_to_list policies))) constraint_failed;
    modify (fun s => set_policies (<[cp_ID item := merged_policy (t_policies s !! cp_ID item) row]> (t_policies s)) s)
  end.

(** ** The insertion of a price *)

(** A row the bundle does not repeat as it is. *)
Definition price_differs (item : ConfigPrice) (p : PriceRow) : bool :=
  negb ((pr_Connection p =s cr_ConnectionID item) && (pr_Model p =s cr_ModelID item) && (pr_Input p =? cr_Input item)
        && (pr_Output p =? cr_Output item) && bool_decide (pr_CacheRead p = cr_CacheRead item) && (pr_Source p =s cr_Source item)
        && (pr_From p =? cr_From item) && bool_decide (pr_To p = cr_To item)
        && bool_decide (pr_Weekly p = weekly_of (cr_WeeklyStart item) (cr_WeeklyEnd item))).

Definition import_price (now_ : Z) (item : ConfigPrice) : tx db unit :=
  prices ← reads t_prices;
  _ ← require (match prices !! cr_ID item with Some p => negb (price_differs item p) | None => true end) ErrConflict;
  let weekly := weekly_of (cr_WeeklyStart item) (cr_WeeklyEnd item) in
  _ ← require (negb (existsb (fun kv => negb (fst kv =s cr_ID item)
                  && overlaps_interval (cr_ConnectionID item) (cr_ModelID item) (cr_From item) (default max_int64 (cr_To item)) weekly (snd kv))
                (map_to_list prices))) ErrConflict;
  modify (fun s =>
    match t_prices s !! cr_ID item with
    | Some _ => s
    | None => set_prices (<[cr_ID item :=
        mkPriceRow (cr_ConnectionID item) (cr_ModelID item) (cr_Input item) (cr_Output item) (cr_CacheRead item) None (cr_Source item)
          (cr_From item) (cr_To item) weekly "" now_]> (t_prices s)) s
    end).

(** The two loops of [ImportConfig] that write the limits, and what comes
    before them: the checks of [PreviewConfig] on both lists, and the owner. *)
Definition import_limits_tx (now_ : Z) (actor : string) (policies : list ConfigPolicy) (prices : list ConfigPrice) : tx db unit :=
  s ← reads (fun s => s);
  _ ← lift (requireOwner s actor);
  _ ← for_each (import_policy now_) policies;
  for_each (import_price now_) prices.

Definition ErrInvalidSettings : error := Msg "settings are invalid".

Definition ImportLimits (now_ : Z) (actor : string) (format : Z) (connections models : string -> bool) (policies : list ConfigPolicy)
    (prices : list ConfigPrice) (s : db) : result unit * db :=
  if forallb validPolicy policies && forallb (validPrice format connections models) prices
  then commit (import_limits_tx now_ actor policies prices) s else (Err ErrInvalidSettings, s).

(** * Retention *)

Definition finished_state (st : RequestState) : bool :=
  match st with RqSucceeded | RqFailed | RqCancelled => true | _ => false end.

(** A request whose details are over. The rows retained before are cleared
    already, so clearing them again changes nothing. *)
Definition details_over (cutoff : Z) (rq : RequestRow) : bool :=
  match rq_Finished rq with Some t => (t <? cutoff) && finished_state (rq_State rq) | None => false end.

Definition clear_attempt (a : AttemptRow) : AttemptRow :=
  let n := at_Snapshot a in let u := at_Usage a in
  mkAttemptRow
    (mkAttemptSnapshot (as_Request n) (as_Ordinal n) (as_Connection n) (as_Model n) "" "" (as_ConnectionRevision n) "" "" false 0
       (as_WebSearchMax n) (as_WebFetch n) "" "[]" (as_Price n) (as_QuotedAt n) (as_EstimatedTokens n) (as_EstimatedCost n) (as_Started n))
    (at_State a) (at_UsageStatus a)
    (mkAttemptUsage (au_Input u) (au_Output u) (au_CacheCreation u) (au_CacheRead u) (au_Cache5m u) (au_Cache1h u) (au_Recorded u)
       (au_Restated u) (au_WebSearches u) 0 "none")
    (at_FirstByte a) (at_Finished a).
Definition clear_request (rq : RequestRow) : RequestRow :=
  mkRequestRow (rq_Owner rq) (rq_Key rq) "" "" (rq_Model rq) (rq_State rq) (rq_Started rq) (rq_Finished rq) (rq_Streaming rq).

Definition retained_attempt (requests : gmap string RequestRow) (cutoff : Z) (a : AttemptRow) : AttemptRow :=
  match requests !! at_Request a with
  | Some rq => if details_over cutoff rq then clear_attempt a else a
  | None => a
  end.
Definition retained_request (cutoff : Z) (rq : RequestRow) : RequestRow := if details_over cutoff rq then clear_request rq else rq.

(** The transaction of [RunRetention] on the system database, as far as it
    concerns the tables of the model; the audit names a user. *)
Definition retention_tx (e : env) (actor : string) (requestCutoff auditCutoff : Z) : tx db unit :=
  s ← reads (fun s => s);
  _ ← lift (requireOwner s actor);
  _ ← modify (fun s => set_attempts (retained_attempt (t_requests s) requestCutoff <$> t_attempts s) s);
  _ ← modify (fun s => set_requests (retained_request requestCutoff <$> t_requests s) s);
  _ ← modify (fun s => set_audit (List.filter (fun r => negb (ad_Created r <? auditCutoff)) (t_audit s)) s);
  _ ← require (is_some (t_users s !! actor)) constraint_failed;
  insertAudit (token e 0) actor "retention.run" "operations" "retention" [] (now e 0).

Definition RunRetention (e : env) (actor : string) (requestCutoff auditCutoff : Z) (s : db) : result unit * db :=
  commit (retention_tx e actor requestCutoff auditCutoff) s.

(** * Lemmas *)

(** The numbers of a policy are the int64 of the bundle, and its window is one
    the periods of the code can multiply out in milliseconds. *)
Definition typed_policy (item : ConfigPolicy) : Prop :=
  cp_WindowSeconds item <= Z.quot max_int64 1000 /\ cp_LimitUnits item <= max_int64 /\ cp_RefillUnits item <= max_int64 /\ cp_RefillIntervalMS item <= max_int64.

Lemma validPolicy_checks item :
  validPolicy item = true -> cp_WindowSeconds item <= Z.quot max_int64 1000 ->
  0 < cp_LimitUnits item /\ (cp_ScopeKind item = "instance" <-> cp_ScopeID item = "")
  /\ In (cp_ScopeKind item) ["instance"; "user"; "key"; "connection"] /\ validAlgorithm (input_of_config item) = Ok tt.
Proof.
  intros H W. unfold validPolicy in H.
  destruct (_ || (cp_RefillIntervalMS item <? 0)) eqn:E1 in H; [done|]. destruct (_ || negb _ && _) eqn:E2 in H; [done|].
  destruct (negb _ && negb _ && negb _ && negb _) eqn:E3 in H; [done|]. split_and!.
  - rewrite !orb_false_iff in E1. lia.
  - destruct (String.eqb_spec (cp_ScopeKind item) "instance"), (String.eqb_spec (cp_ScopeID item) ""); done.
  - destruct (String.eqb_spec (cp_ScopeKind item) "instance"), (String.eqb_spec (cp_ScopeKind item) "user"), (String.eqb_spec (cp_ScopeKind item) "key"),
      (String.eqb_spec (cp_ScopeKind item) "connection"); cbn in E3; try discriminate E3; cbn; intuition congruence.
  - unfold validAlgorithm, input_of_config. cbn [pi_RefillUnits pi_RefillIntervalMS pi_Period pi_WindowSeconds pi_Metric pi_Algorithm]. cbv zeta in *.
    destruct (cp_Algorithm item =s "token_bucket"); [rewrite H; done|]. destruct (cp_Algorithm item =s "fixed_window").
    { rewrite !andb_true_iff in H. destruct H as [[[-> ->] [-> ->]] ->]. replace (Z.quot max_int64 1000 <? cp_WindowSeconds item) with false by lia. done. }
    destruct (cp_Algorithm item =s "quota").
    { rewrite !andb_true_iff in H. destruct H as [[[-> ->] [-> ->]] Hm]. by rewrite Hm. }
    destruct (cp_Algorithm item =s "concurrency").
    { rewrite !andb_true_iff in H. destruct H as [[[-> ->] [-> ->]] ->]. done. }
    destruct (cp_Algorithm item =s "ceiling"); [|done].
    rewrite !andb_true_iff in H. destruct H as [[[-> ->] [-> ->]] Hm]. by rewrite Hm.
Qed.

(** A valid policy is a row the schema accepts. *)
Lemma validPolicy_row item now_ :
  validPolicy item = true -> typed_policy item ->
  exists row, row_of_input (input_of_config item) now_ = Some row /\ schema_ok row /\ p_LimitUnits row <= max_int64 /\ p_WindowSeconds row <= max_int64
    /\ p_RefillUnits row <= max_int64 /\ p_RefillIntervalMS row <= max_int64 /\ algorithm_of (cp_Algorithm item) = Some (p_Algorithm row).
Proof.
  intros H (Hw & Hl & Hr & Hi). destruct (validPolicy_checks item H Hw) as (H0 & Hs & Hk & Ha).
  destruct (scope_kind_of_In _ Hk) as (k & Ek & Hki). destruct (validAlgorithm_Ok _ Ha) as (a & m & p & Ea & Em & Ep & Hok).
  specialize (Hok k (cp_ScopeID item) true 0 H0 ltac:(by rewrite Hki)). unfold row_of_input, input_of_config in *.
  cbn [pi_ScopeKind pi_ScopeID pi_Metric pi_Algorithm pi_Period pi_WindowSeconds pi_LimitUnits pi_RefillUnits pi_RefillIntervalMS pi_Enabled] in *.
  rewrite Ek, Ea, Em, Ep. eexists. split; [reflexivity|]. split; [exact Hok|]. cbn [p_LimitUnits p_WindowSeconds p_RefillUnits p_RefillIntervalMS p_Algorithm]. split_and!; try done. change (Z.quot max_int64 1000) with 9223372036854775 in Hw. unfold max_int64. lia.
Qed.

Lemma import_policy_Ok now_ item s u s' : import_policy now_ item s = Ok (u, s') ->
  exists row, row_of_input (input_of_config item) now_ = Some row /\
    s' = set_policies (<[cp_ID item := merged_policy (t_policies s !! cp_ID item) row]> (t_policies s)) s.
Proof. unfold import_policy. destruct (row_of_input _ _) as [row|]; [|done]. intros H. tx_inv. by exists row. Qed.

Lemma merged_schema old row : schema_ok row -> schema_ok (merged_policy old row).
Proof. by destruct old. Qed.
Lemma merged_algorithm old row : p_Algorithm (merged_policy old row) = p_Algorithm row.
Proof. by destruct old. Qed.

Lemma import_policy_within now_ item s u s' : validPolicy item = true -> typed_policy item ->
  import_policy now_ item s = Ok (u, s') -> policies_within max_int64 s -> policies_within max_int64 s'.
Proof.
  intros Hv Ht H Hs. apply import_policy_Ok in H as (row & E & ->). destruct (validPolicy_row item now_ Hv Ht) as (row' & E' & Hok & Hb).
  rewrite E in E'. injection E' as <-. unfold policies_within. cbn. apply map_Forall_insert_2; [|done].
  split; [by apply merged_schema|]. destruct (t_policies s !! cp_ID item); cbn; tauto.
Qed.

(** ** A token bucket stays one *)

(** No policy of the import that has reservations turns into a token bucket,
    or from one: the period of a reservation tells how it is released. *)
Definition buckets_kept (policies : list ConfigPolicy) (s : db) : Prop :=
  forall item p, item ∈ policies -> t_policies s !! cp_ID item = Some p ->
    (exists id r, t_reservations s !! id = Some r /\ rv_Policy r = cp_ID item) ->
    (p_Algorithm p = TokenBucket <-> cp_Algorithm item = "token_bucket").

(** The policies with reservations are still there, buckets or not as before. *)
Definition reserved_kept (s s' : db) : Prop :=
  forall pid p, t_policies s !! pid = Some p -> (exists id r, t_reservations s !! id = Some r /\ rv_Policy r = pid) ->
    exists p', t_policies s' !! pid = Some p' /\ (p_Algorithm p' = TokenBucket <-> p_Algorithm p = TokenBucket).

Lemma bucket_text a x : algorithm_of a = Some x -> (x = TokenBucket <-> a = "token_bucket").
Proof.
  unfold algorithm_of. destruct (String.eqb_spec a "token_bucket") as [->|Hne]; [by intros [= <-]|]. intros H. split; [|done]. intros ->.
  repeat (destruct (_ =s _) in H; [discriminate H|]). discriminate H.
Qed.

Lemma import_policies_keep now_ policies s u s' :
  Forall (fun item => validPolicy item = true) policies -> Forall typed_policy policies -> buckets_kept policies s ->
  for_each (import_policy now_) policies s = Ok (u, s') -> reserved_kept s s'.
Proof.
  intros Hv Ht Hk H. apply (for_each_inv (fun s1 => reserved_kept s s1)) in H; [exact H| |].
  - clear H s' u. intros item s1 u s2 Hin IH H. apply import_policy_Ok in H as (row & E & ->). rewrite Forall_forall in Hv, Ht.
    destruct (validPolicy_row item now_ (Hv _ Hin) (Ht _ Hin)) as (row' & E' & _ & _ & _ & _ & _ & Ha). rewrite E in E'. injection E' as <-.
    intros pid p Hp Hr. destruct (IH pid p Hp Hr) as (p1 & Hp1 & Hb). cbn. destruct (decide (cp_ID item = pid)) as [<-|Hne].
    + rewrite lookup_insert_eq. eexists. split; [done|]. rewrite merged_algorithm. rewrite (bucket_text _ _ Ha). symmetry. by apply Hk.
    + rewrite lookup_insert_ne by done. eauto.
  - intros pid p Hp _. by exists p.
Qed.

(** ** Prices *)

Lemma import_price_ok now_ item s u s' : cr_From item < max_int64 ->
  import_price now_ item s = Ok (u, s') -> prices_ok (t_prices s) -> prices_ok (t_prices s').
Proof.
  intros Hf H Hok. unfold import_price in H. tx_inv. destruct (t_prices s !! cr_ID item) eqn:E; cbn; [done|].
  apply prices_ok_insert; [done|done|done|]. cbn. intros j q Hq.
  match goal with H : negb (existsb _ _) = true |- _ => apply negb_true_iff in H; rename H into Hov end.
  destruct (overlaps_interval _ _ _ _ _ _) eqn:Ho; [|done]. rewrite <- Hov. symmetry. apply existsb_exists. exists (j, q).
  split; [apply list_elem_of_In; by apply elem_of_map_to_list|]. cbn. rewrite Ho, andb_true_r. apply negb_true_iff, String.eqb_neq. intros ->. congruence.
Qed.

Lemma import_policy_frame {X} (obs : db -> X) now_ item : (forall x s, obs (set_policies x s) = obs s) -> keeps obs (import_policy now_ item).
Proof. intros Ho. unfold import_policy. destruct (row_of_input _ _); [|apply keeps_fail]. repeat (apply keeps_bind; [auto with keeps|intros ?]). apply keeps_modify. auto. Qed.
Lemma import_price_frame {X} (obs : db -> X) now_ item : (forall x s, obs (set_prices x s) = obs s) -> keeps obs (import_price now_ item).
Proof.
  intros Ho. unfold import_price. repeat (apply keeps_bind; [auto with keeps|intros ?]). apply keeps_modify. intros s. by destruct (t_prices s !! _).
Qed.
#[export] Hint Resolve keeps_reads keeps_require keeps_lift keeps_ret keeps_fail : keeps.

(** ** Retention *)

Lemma retained_attempt_same requests cutoff a :
  let a' := retained_attempt requests cutoff a in
  at_State a' = at_State a /\ at_Request a' = at_Request a /\ at_UsageStatus a' = at_UsageStatus a.
Proof. unfold retained_attempt. destruct (requests !! at_Request a) as [rq|]; [destruct (details_over cutoff rq)|]; done. Qed.
Lemma retained_request_same cutoff rq : rq_State (retained_request cutoff rq) = rq_State rq /\ rq_Owner (retained_request cutoff rq) = rq_Owner rq
  /\ rq_Key (retained_request cutoff rq) = rq_Key rq.
Proof. unfold retained_request. by destruct (details_over cutoff rq). Qed.

(** What retention leaves of a system database. *)
Lemma RunRetention_Ok e actor cutoff audits s : exists log,
  snd (RunRetention e actor cutoff audits s) = s
  \/ snd (RunRetention e actor cutoff audits s) =
       set_audit log (set_requests (retained_request cutoff <$> t_requests s) (set_attempts (retained_attempt (t_requests s) cutoff <$> t_attempts s) s)).
Proof.
  unfold RunRetention, commit. destruct (retention_tx e actor cutoff audits s) as [[u s']|] eqn:H; [|exists []; by left].
  unfold retention_tx in H. tx_inv. match goal with H : insertAudit _ _ _ _ _ _ _ _ = _ |- _ => apply insertAudit_Ok in H as [log ->] end.
  exists log. right. reflexivity.
Qed.
