(* ===== verification/Reachable.v ===== *)
(** The services as one state machine: a step is any call of an operation on
    the usage tables, by any actor with any input and any outcome, an import
    of limits and prices, a run of the retention, or a write of the other
    services to the other tables. Every database the gateway can reach keeps
    the invariants of the usage tables, the policies and the prices. *)
From S2P Require Import Prelude GoStd Money Calendar Counters Policy Json Store Pricing PolicyService PathMatch Grants Admission Settlement Reservations Lifecycle Booking Reprice Operations.

(** * Frames of the operations *)

(** The tables only their own services write. *)
Definition catalogue (s : db) : gmap string PolicyRow * gmap string PriceRow := (t_policies s, t_prices s).
(** The tables of the usage accounting. *)
Definition usage_tables (s : db) := (t_periods s, t_reservations s, t_requests s, t_attempts s, t_leases s).

Lemma admit_keeps e i n : keeps catalogue (admit_tx e i n).
Proof.
  unfold admit_tx, effectiveTimeTxAtLeast, attempt_ordinal, requireOutboxCapacity, book_request, insert_attempt, applyPlan,
    insert_lease, upsert_bucket, upsert_period, insert_reservation. keeps_tac.
Qed.

Lemma mark_keeps from to id : keeps catalogue (mark_attempt from to id).
Proof. unfold mark_attempt. keeps_tac. Qed.

Lemma updateQuotaPeriod_keeps p t c r : keeps catalogue (updateQuotaPeriod p t c r).
Proof. unfold updateQuotaPeriod. keeps_tac. Qed.
#[export] Hint Resolve updateQuotaPeriod_keeps : keeps.

Lemma wrap_tx_keeps {A} prefix (m : tx db A) : keeps catalogue m -> keeps catalogue (wrap_tx prefix m).
Proof. intros Hm s a s' H%wrap_tx_Ok. by eapply Hm. Qed.

Lemma or_fail_keeps {A} err (m : tx db A) : keeps catalogue m -> keeps catalogue (or_fail err m).
Proof. intros Hm s a s'. unfold or_fail. destruct (m s) as [[b s1]|] eqn:E; [|done]. intros [= -> ->]. by eapply Hm. Qed.
#[export] Hint Resolve wrap_tx_keeps or_fail_keeps : keeps.

Lemma settle_reservation_keeps o n p t a item : keeps catalogue (settle_reservation o n p t a item).
Proof. unfold settle_reservation, set_reservation_state. destruct item as [? [? ?]]. keeps_tac. Qed.
#[export] Hint Resolve settle_reservation_keeps : keeps.

Lemma settle_keeps e id i st us : keeps catalogue (settle_tx e id i st us).
Proof.
  unfold settle_tx, book_settlement, insert_ledger, settle_item, set_reservation_state, record_assessment, insert_assessment,
    delete_leases, end_or_continue, set_request_state. keeps_tac.
Qed.

Lemma release_keeps id t : keeps catalogue (releaseReservations id t).
Proof. unfold releaseReservations, release_item, set_reservation_state. keeps_tac. Qed.
#[export] Hint Resolve release_keeps : keeps.

Lemma cancel_keeps e id : keeps catalogue (cancel_tx e id).
Proof. unfold cancel_tx, delete_leases, set_request_state. keeps_tac. Qed.

Lemma close_failed_keeps e id : keeps catalogue (close_failed_tx e id).
Proof. unfold close_failed_tx, delete_leases. keeps_tac. Qed.

Lemma finalize_keeps e id st : keeps catalogue (finalize_request_tx e id st).
Proof. unfold finalize_request_tx, delete_request_leases. keeps_tac. Qed.

Lemma reconcile_keeps e actor id i input output us tokens : keeps catalogue (reconcile_tx e actor id i input output us tokens).
Proof. unfold reconcile_tx, requireOutboxCapacity, book_reconciliation, reconcile_item, insert_ledger. keeps_tac. Qed.

Lemma recover_keeps e : keeps catalogue (recover_tx e).
Proof. unfold recover_tx, recover_item, set_request_state. keeps_tac. Qed.

Lemma repair_keeps e : keeps catalogue (repair_tx e).
Proof.
  unfold repair_tx. apply keeps_bind; [auto with keeps|]. intros ids. induction ids as [|id ids IH]; cbn [repair_all]; [keeps_tac|].
  apply keeps_bind; [|intros ?; apply keeps_bind; [done|keeps_tac]]. unfold repair_request, delete_request_leases. keeps_tac.
Qed.

Lemma correct_keeps id d a t : keeps catalogue (reconcileSpendPeriods id d a t).
Proof. unfold reconcileSpendPeriods, spend_item, settle_uncertain. keeps_tac. Qed.
#[export] Hint Resolve correct_keeps : keeps.

Lemma adjust_keeps e actor id d r k : keeps catalogue (adjust_tx e actor id d r k).
Proof. unfold adjust_tx, requireOutboxCapacity, insert_ledger, restate. keeps_tac. Qed.

Lemma reprice_item_keeps e actor n i : keeps catalogue (apply_reprice_item e actor n i).
Proof. unfold apply_reprice_item, insert_or_ignore_assessment, insert_ledger, restate. keeps_tac. Qed.
#[export] Hint Resolve reprice_item_keeps : keeps.

Lemma reprice_all_keeps e actor items : forall n a d, keeps catalogue (apply_reprice_all e actor n a d items).
Proof. induction items as [|i items IH]; intros; cbn [apply_reprice_all]; keeps_tac; apply IH. Qed.
#[export] Hint Resolve reprice_all_keeps : keeps.

Lemma reprice_keeps e actor input from to : keeps catalogue (apply_reprice_tx e actor input from to).
Proof. unfold apply_reprice_tx, requireOutboxCapacity, insert_job. keeps_tac. Qed.

Lemma create_policy_keeps e actor i : keeps usage_tables (create_policy_tx e actor i).
Proof. unfold create_policy_tx. keeps_tac. Qed.
Lemma create_policy_keeps_prices e actor i : keeps t_prices (create_policy_tx e actor i).
Proof. unfold create_policy_tx. keeps_tac. Qed.

Lemma update_policy_keeps e actor id r l u en : keeps usage_tables (update_policy_tx e actor id r l u en).
Proof. unfold update_policy_tx. keeps_tac. Qed.
Lemma update_policy_keeps_prices e actor id r l u en : keeps t_prices (update_policy_tx e actor id r l u en).
Proof. unfold update_policy_tx. keeps_tac. Qed.

Lemma create_price_keeps e actor i a b c d f t : keeps usage_tables (create_price_tx e actor i a b c d f t).
Proof. unfold create_price_tx, close_price. keeps_tac. Qed.
Lemma create_price_keeps_policies e actor i a b c d f t : keeps t_policies (create_price_tx e actor i a b c d f t).
Proof. unfold create_price_tx, close_price. keeps_tac. Qed.

(** * Operations *)

Inductive operation :=
| OpAdmit (i : AdmissionInput)
| OpMarkDispatching (attemptID : string)
| OpMarkStreaming (attemptID : string)
| OpSettle (attemptID : string) (i : SettlementInput)
| OpCancelBeforeDispatch (attemptID : string)
| OpCloseFailedRequest (requestID : string)
| OpFinalizeRequest (requestID state : string)
| OpReconcileUnknown (actor : User) (attemptID : string) (i : ReconciliationInput)
| OpRecover
| OpRepairStaleRequests
| OpApplyReprice (actor : User) (i : RepriceInput)
| OpAdjustCost (actor : User) (attemptID usd reason key : string)
| OpCreatePolicy (actor : User) (i : PolicyInput)
| OpUpdatePolicy (actor : User) (id : string) (revision limit : Z) (usd : string) (enabled : bool)
| OpCreatePrice (actor : User) (i : PriceInput)
| OpEffectiveTime.

(** The inputs are the Go types'; only [Admit] counts without a bound of its own. *)
Definition typed_operation (op : operation) : Prop :=
  match op with OpAdmit i => typed_input i | _ => True end.

Section System.
Context (parse_time : string -> option Z).
Hypothesis parse_time_bound : forall text t, parse_time text = Some t -> UnixMilli t <= max_millis.

(** The database after a call, whatever the call returned. *)
Definition perform (e : env) (op : operation) (s : db) : db :=
  match op with
  | OpAdmit i => snd (Admit e i s)
  | OpMarkDispatching id => snd (MarkDispatching id s)
  | OpMarkStreaming id => snd (MarkStreaming id s)
  | OpSettle id i => snd (Settle e id i s)
  | OpCancelBeforeDispatch id => snd (CancelBeforeDispatch e id s)
  | OpCloseFailedRequest id => snd (CloseFailedRequest e id s)
  | OpFinalizeRequest id st => snd (FinalizeRequest e id st s)
  | OpReconcileUnknown actor id i => snd (ReconcileUnknown e actor id i s)
  | OpRecover => snd (Recover e s)
  | OpRepairStaleRequests => snd (RepairStaleRequests e s)
  | OpApplyReprice actor i => snd (ApplyReprice parse_time e actor i s)
  | OpAdjustCost actor id usd reason key => snd (AdjustCost e actor id usd reason key s)
  | OpCreatePolicy actor i => snd (CreatePolicy e actor i s)
  | OpUpdatePolicy actor id r l u en => snd (UpdatePolicy e actor id r l u en s)
  | OpCreatePrice actor i => snd (CreatePrice parse_time e actor i s)
  | OpEffectiveTime => snd (effectiveTime e s)
  end.

(** One step of the gateway. An import turns no policy with reservations into
    a token bucket or out of one; its windows and instants are in range. *)
Inductive step (s : db) : db -> Prop :=
| step_operation e op : typed_operation op -> step s (perform e op s)
| step_import now_ actor format connections models policies prices :
    Forall typed_policy policies -> Forall (fun item => cr_From item < max_int64) prices -> buckets_kept policies s ->
    step s (snd (ImportLimits now_ actor format connections models policies prices s))
| step_retention e actor requestCutoff auditCutoff : step s (snd (RunRetention e actor requestCutoff auditCutoff s))
| step_elsewhere s' : usage_tables s' = usage_tables s -> catalogue s' = catalogue s -> step s s'.

(** The databases reached from one without usage. *)
Definition fresh (s : db) : Prop :=
  t_periods s = ∅ /\ t_reservations s = ∅ /\ t_requests s = ∅ /\ t_attempts s = ∅ /\ t_leases s = ∅ /\
  t_policies s = ∅ /\ t_prices s = ∅.

Inductive reachable : db -> Prop :=
| reachable_fresh s : fresh s -> reachable s
| reachable_step s s' : reachable s -> step s s' -> reachable s'.

(** * The invariant of reachable databases *)

Record sound (s : db) : Prop := mkSound {
  so_usage : invariant s; so_policies : policies_within max_int64 s; so_prices : prices_ok (t_prices s) }.

Lemma fresh_sound s : fresh s -> sound s.
Proof.
  intros (Eq & Er & Erq & Ea & El & Ep & Epr). split; [split|..].
  - split; rewrite ?Eq, ?Er; [|done|done]. intros pid start. unfold period_reserved. by rewrite lookup_empty, msum_empty.
  - split; rewrite ?Er, ?Ea, ?Erq; done.
  - intros pid k id l. by rewrite El.
  - unfold policies_within. rewrite Ep. apply map_Forall_empty.
  - rewrite Epr. split; [by intros i p H|by intros i j p q _ H].
Qed.

Lemma sound_limits s : policies_within max_int64 s -> limits_int64 s.
Proof. intros H id p Hp. by destruct (map_Forall_lookup_1 _ _ _ _ H Hp) as (_ & Hl & _). Qed.

(** An operation that keeps the catalogue needs only the usage invariant. *)
Lemma commit_sound {A} (m : tx db A) s :
  keeps catalogue m -> (forall a s', invariant s -> m s = Ok (a, s') -> invariant s') -> sound s -> sound (snd (commit m s)).
Proof.
  intros Hk Hm [Hi Hpo Hpr]. pose proof (keeps_commit catalogue m s Hk) as E. injection E as Ep Epr.
  split; [|unfold policies_within; by rewrite Ep|by rewrite Epr].
  unfold commit. destruct (m s) as [[a s']|] eqn:Em; [|done]. by eapply Hm.
Qed.

(** A write to the policies or prices leaves the usage tables alone. *)
Lemma kept_invariant s s' :
  usage_tables s' = usage_tables s ->
  (forall id p, t_policies s !! id = Some p -> exists p', t_policies s' !! id = Some p' /\ p_Algorithm p' = p_Algorithm p) ->
  invariant s -> invariant s'.
Proof.
  intros E Hp [Hb Hl Hle]. injection E as E1 E2 E3 E4 E5.
  split; [by eapply policies_kept_balanced|by eapply lifecycle_frame|by eapply leases_frame].
Qed.

Lemma policies_kept_algorithm s s' : policies_kept s s' ->
  forall id p, t_policies s !! id = Some p -> exists p', t_policies s' !! id = Some p' /\ p_Algorithm p' = p_Algorithm p.
Proof. intros Hk id p Hp. destruct (Hk id p Hp) as (p' & Hp' & E). exists p'. split; [done|]. by injection E as _ _ _ ? _ _ _ _. Qed.

Lemma same_policies s s' : t_policies s' = t_policies s ->
  forall id p, t_policies s !! id = Some p -> exists p', t_policies s' !! id = Some p' /\ p_Algorithm p' = p_Algorithm p.
Proof. intros -> id p Hp. eauto. Qed.

(** The services that commit and then read back what they wrote. *)
Lemma read_back {A B} (r : result A * db) (f : A -> db -> result B) :
  snd (match r with (Ok a, s') => (f a s', s') | (Err err, s') => (Err err, s') end) = snd r.
Proof. by destruct r as [[a|err] s']. Qed.

Lemma create_policy_sound e actor i s : sound s -> sound (snd (CreatePolicy e actor i s)).
Proof.
  intros [Hi Hpo Hpr]. destruct (CreatePolicy_write e actor i s) as (Hk & Hok & _).
  assert (usage_tables (snd (CreatePolicy e actor i s)) = usage_tables s /\ t_prices (snd (CreatePolicy e actor i s)) = t_prices s) as [E1 E2].
  { unfold CreatePolicy. destruct (validatePolicyInput i) as [j|]; [|done].
    pose proof (keeps_commit usage_tables _ s (create_policy_keeps e actor j)) as E1.
    pose proof (keeps_commit t_prices _ s (create_policy_keeps_prices e actor j)) as E2.
    destruct (commit _ s) as [[[? ?]|] s']; done. }
  split; [eapply kept_invariant; [exact E1|by apply policies_kept_algorithm|done]|by apply Hok|by rewrite E2].
Qed.

Lemma update_policy_sound e actor id r l u en s : sound s -> sound (snd (UpdatePolicy e actor id r l u en s)).
Proof.
  intros [Hi Hpo Hpr]. destruct (UpdatePolicy_write e actor id r l u en s) as (Hk & Hok & _).
  assert (usage_tables (snd (UpdatePolicy e actor id r l u en s)) = usage_tables s /\ t_prices (snd (UpdatePolicy e actor id r l u en s)) = t_prices s) as [E1 E2].
  { unfold UpdatePolicy.
    pose proof (keeps_commit usage_tables _ s (update_policy_keeps e actor id r l u en)) as E1.
    pose proof (keeps_commit t_prices _ s (update_policy_keeps_prices e actor id r l u en)) as E2.
    destruct (commit _ s) as [[?|] s']; done. }
  split; [eapply kept_invariant; [exact E1|by apply policies_kept_algorithm|done]|by apply Hok|by rewrite E2].
Qed.

Lemma create_price_sound e actor i s : sound s -> sound (snd (CreatePrice parse_time e actor i s)).
Proof.
  intros [Hi Hpo Hpr]. pose proof (CreatePrice_prices_ok parse_time e actor i s parse_time_bound Hpr) as Hpr'.
  assert (usage_tables (snd (CreatePrice parse_time e actor i s)) = usage_tables s /\
          t_policies (snd (CreatePrice parse_time e actor i s)) = t_policies s) as [E1 E2].
  { unfold CreatePrice. match goal with |- context [match ?c with Ok _ => _ | Err _ => _ end] => destruct c as [[[[[a b] c0] d] [f t]]|] end; [|done].
    pose proof (keeps_commit usage_tables _ s (create_price_keeps e actor i a b c0 d f t)) as E1.
    pose proof (keeps_commit t_policies _ s (create_price_keeps_policies e actor i a b c0 d f t)) as E2.
    destruct (commit _ s) as [[[? ?]|] s']; done. }
  split; [eapply kept_invariant; [exact E1|by apply same_policies|done]|unfold policies_within; by rewrite E2|done].
Qed.

Lemma perform_sound e op s : typed_operation op -> sound s -> sound (perform e op s).
Proof.
  intros Ht Hs. destruct op; cbn.
  - unfold Admit. destruct (invalid_admission i); [done|]. destruct (checkedAdd _) as [n|] eqn:E; [|done].
    apply commit_sound; [apply admit_keeps| |done]. intros r s' Hi H.
    by destruct (admit_booked e i n s r s' Hi (sound_limits s (so_policies s Hs)) Ht (checkedAdd_range _ _ E) H).
  - apply commit_sound; [apply mark_keeps| |done]. intros u s' Hi H. by eapply mark_invariant in H.
  - apply commit_sound; [apply mark_keeps| |done]. intros u s' Hi H. by eapply mark_invariant in H.
  - unfold Settle. destruct (check_settlement _ _) as [[st us]|] eqn:E; [|done]. apply check_settlement_dead in E.
    apply commit_sound; [apply settle_keeps| |done]. intros u s' Hi H. by eapply settle_invariant.
  - apply commit_sound; [apply cancel_keeps| |done]. intros u s' Hi H. by eapply cancel_invariant.
  - apply commit_sound; [apply close_failed_keeps| |done]. intros u s' Hi H. by eapply close_failed_invariant.
  - apply commit_sound; [apply finalize_keeps| |done]. intros u s' Hi H. by eapply finalize_invariant.
  - unfold ReconcileUnknown. destruct (_ ≫= _) as [[[[input output] us] tokens]|]; [|done].
    apply commit_sound; [apply reconcile_keeps| |done]. intros u s' Hi H. by eapply reconcile_invariant.
  - apply commit_sound; [apply recover_keeps| |done]. intros u s' Hi H. by destruct (recover_tx_Ok e s u s' Hi H).
  - apply commit_sound; [apply repair_keeps| |done]. intros u s' Hi H. by eapply repair_invariant.
  - unfold ApplyReprice. destruct (_ || _); [done|]. destruct (repriceRange _ _) as [[from to]|]; [|done].
    apply commit_sound; [apply reprice_keeps| |done]. intros u s' Hi H. by eapply apply_reprice_invariant.
  - unfold AdjustCost. destruct (_ || _); [done|]. destruct (parseSignedUSD usd) as [d|] eqn:E; [|done]. apply parseSignedUSD_range in E.
    destruct (d =? 0); [done|]. apply commit_sound; [apply adjust_keeps| |done]. intros u s' Hi H. by eapply adjust_invariant.
  - by apply create_policy_sound.
  - by apply update_policy_sound.
  - by apply create_price_sound.
  - apply commit_sound; [unfold effectiveTimeTx, effectiveTimeTxAtLeast; keeps_tac| |done].
    intros t s' Hi H. apply effectiveTime_effect in H as [c ->]. by eapply (invariant_frame s).
Qed.

Lemma import_sound now_ actor format connections models policies prices s :
  Forall typed_policy policies -> Forall (fun item => cr_From item < max_int64) prices -> buckets_kept policies s ->
  sound s -> sound (snd (ImportLimits now_ actor format connections models policies prices s)).
Proof.
  intros Ht Hf Hk [[Hb Hl Hle] Hpo Hpr]. unfold ImportLimits. destruct (forallb validPolicy policies && _) eqn:V; [|done].
  apply andb_true_iff in V as [Hv _]. pose proof (proj1 (forallb_forall _ _) Hv) as Hv0. assert (Hv' : Forall (fun item => validPolicy item = true) policies) by (apply Forall_forall; intros x Hx; by apply Hv0, list_elem_of_In).
  unfold commit. destruct (import_limits_tx _ _ _ _ s) as [[u s2]|] eqn:H; [|done]. cbn. unfold import_limits_tx in H. tx_inv.
  match goal with H1 : for_each (import_policy _) _ _ = Ok (_, ?s0), H2 : for_each (import_price _) _ ?s0 = _ |- _ => rename H1 into Hp; rename H2 into Hr; rename s0 into s1 end.
  assert (E1 : usage_tables s1 = usage_tables s /\ t_prices s1 = t_prices s).
  { split; (eapply keeps_for_each; [|exact Hp]); intros x; by apply import_policy_frame. }
  assert (E2 : usage_tables s2 = usage_tables s1 /\ t_policies s2 = t_policies s1).
  { split; (eapply keeps_for_each; [|exact Hr]); intros x; by apply import_price_frame. }
  destruct E1 as [U1 P1], E2 as [U2 P2]. pose proof (import_policies_keep _ _ _ _ _ Hv' Ht Hk Hp) as K. rewrite U1 in U2. injection U2 as Q1 Q2 Q3 Q4 Q5. split.
  - split; [|by eapply lifecycle_frame|by eapply leases_frame]. destruct Hb as [B1 B2 B3]. split; rewrite ?Q1, ?Q2; [done| |done].
    intros id r Hr'. destruct (B2 id r Hr') as (Hu & p & Hpp & Hiff). split; [done|].
    destruct (K _ _ Hpp (ex_intro _ id (ex_intro _ r (conj Hr' eq_refl)))) as (p' & Hp' & Hb'). exists p'. rewrite P2. by rewrite Hb'.
  - unfold policies_within. rewrite P2. apply (for_each_inv (policies_within max_int64)) in Hp; [exact Hp| |done].
    intros item sa ua sb Hin Hs Hi. rewrite Forall_forall in Hv', Ht. eapply import_policy_within; eauto.
  - apply (for_each_inv (fun s => prices_ok (t_prices s))) in Hr; [exact Hr| |by rewrite P1].
    intros item sa ua sb Hin Hs Hi. rewrite Forall_forall in Hf. eapply import_price_ok; eauto.
Qed.

(** Requests and attempts whose details go keep what the invariant is about. *)
Lemma retention_sound e actor cutoff audits s : sound s -> sound (snd (RunRetention e actor cutoff audits s)).
Proof.
  intros Hs. destruct (RunRetention_Ok e actor cutoff audits s) as [log [-> | ->]]; [done|]. destruct Hs as [[Hb [L1 L2 L3 L4] Hle] Hpo Hpr].
  set (f := retained_attempt (t_requests s) cutoff). set (g := retained_request cutoff).
  assert (Hf : forall a, at_State (f a) = at_State a /\ at_Request (f a) = at_Request a) by (intros a; destruct (retained_attempt_same (t_requests s) cutoff a) as (E1 & E2 & _); by split).
  assert (Hg : forall rq, rq_State (g rq) = rq_State rq) by (intros rq; apply retained_request_same).
  assert (Hlive : forall a, live (f a) <-> live a) by (intros a; unfold live; by rewrite (proj1 (Hf a))).
  split; [split|done|done].
  - by eapply (balanced_frame s).
  - split; cbn.
    + intros id r Hr Hst. destruct (L1 id r Hr Hst) as (a & Ha & Hla). exists (f a). rewrite lookup_fmap, Ha. split; [done|]. by apply Hlive.
    + intros id a' Ha'. rewrite lookup_fmap in Ha'. apply fmap_Some in Ha' as (a & Ha & ->). rewrite (proj2 (Hf a)), lookup_fmap. destruct (L2 id a Ha) as (rq & Hrq & Hr).
      exists (g rq). rewrite Hrq, Hg, Hlive. done.
    + intros i j a b. rewrite !lookup_fmap. intros (a0 & Ha & ->)%fmap_Some (b0 & Hb0 & ->)%fmap_Some. rewrite !Hlive, (proj2 (Hf a0)), (proj2 (Hf b0)). by eapply L3.
    + intros id rq'. rewrite lookup_fmap. intros (rq & Hrq & ->)%fmap_Some. rewrite Hg. intros Hst. destruct (L4 id rq Hrq Hst) as (i & a & Ha & Er & Hla).
      exists i, (f a). rewrite lookup_fmap, Ha, (proj2 (Hf a)), Hlive. done.
  - intros pid [] id l Hlk; specialize (Hle _ _ _ _ Hlk); cbn in Hle |- *.
    + destruct Hle as (E & rq & Hrq & Ho). split; [done|]. exists (g rq). rewrite lookup_fmap, Hrq, Hg. done.
    + destruct Hle as (a & Ha & Hla). exists (f a). rewrite lookup_fmap, Ha, Hlive. done.
Qed.

Lemma reachable_is_sound s : reachable s -> sound s.
Proof.
  induction 1 as [s Hf|s s' _ IH Hs]; [by apply fresh_sound|]. 
  destruct Hs as [e op Ht|now_ actor format connections models policies prices Ht Hf Hk|e actor cutoff audits|s' Eu Ec];
    [by apply perform_sound|by apply import_sound|by apply retention_sound|].
  injection Ec as Ep Epr. destruct IH as [Hi Hpo Hpr]. split; [|unfold policies_within; by rewrite Ep|by rewrite Epr].
  eapply kept_invariant; [exact Eu|by apply same_policies|done].
Qed.

(** C4: Reserved units are conserved: in every reachable database the reserved
    units of each quota period are exactly the sum of the units that active
    and uncertain reservations hold of it, and every counter stays within its
    int64 bounds and above zero. Reachable are the databases of any calls of
    the usage services, retention runs, and imports of limits and prices that
    turn no policy with reservations into a token bucket or out of one; the
    units of such a policy may be stranded. *)
Theorem reserved_units_conserved (s : db) :
  reachable s ->
  (forall pid start, period_reserved (t_periods s) pid start = msum (held pid start) (t_reservations s)) /\
  (forall k q, t_periods s !! k = Some q -> 0 <= q_Consumed q <= max_int64 /\ 0 <= q_Reserved q <= max_int64).
Proof. intros H%reachable_is_sound. destruct (so_usage s H) as [Hb _ _]. by destruct Hb. Qed.

(** C5: The life cycle of requests: in every reachable database a request is
    reserved exactly while one attempt of it is live, that attempt is the only
    one, units are actively reserved only for live attempts, and a concurrency
    lease is held only by a live attempt or an open request. *)
Theorem reserved_iff_running (s : db) :
  reachable s ->
  (forall id rq, t_requests s !! id = Some rq ->
     (rq_State rq = RqReserved <-> exists i a, t_attempts s !! i = Some a /\ at_Request a = id /\ live a)) /\
  (forall i j a b, t_attempts s !! i = Some a -> t_attempts s !! j = Some b -> live a -> live b ->
     at_Request a = at_Request b -> i = j) /\
  (forall id r, t_reservations s !! id = Some r -> rv_State r = RvActive ->
     exists a, t_attempts s !! rv_Attempt r = Some a /\ live a) /\
  (forall pid kind id l, t_leases s !! (pid, kind, id) = Some l -> lease_ok s kind id l).
Proof.
  intros H%reachable_is_sound. destruct (so_usage s H) as [_ Hl Hle]. split_and!; [|apply (lc_one s Hl)|apply (lc_active s Hl)|exact Hle].
  intros id rq Hrq. split; [by apply (lc_reserved s Hl)|]. intros (i & a & Ha & Hid & Hlive).
  destruct (lc_request s Hl i a Ha) as (rq' & Hrq' & Hst). rewrite Hid, Hrq in Hrq'. injection Hrq' as <-. auto.
Qed.

(** What the catalogue keeps: in every reachable database each policy
    satisfies the constraints of its table and the bounds of the integers, and the price versions of a model never overlap. *)
Theorem catalogue_well_formed (s : db) : reachable s -> policies_within max_int64 s /\ prices_ok (t_prices s).
Proof. intros H%reachable_is_sound. by destruct H. Qed.

(** Recovery leaves nothing running: after a successful [Recover] of any
    reachable database no attempt is live, no reservation is active, no
    request is open and no lease is held. *)
Theorem Recover_idle (e : env) (s s' : db) : reachable s -> Recover e s = (Ok tt, s') -> idle s'.
Proof.
  intros H%reachable_is_sound HR. unfold Recover, commit in HR. destruct (recover_tx e s) as [[u s0]|] eqn:E; [|done].
  injection HR as _ <-. by apply (recover_tx_Ok e s u s0 (so_usage s H)).
Qed.
End System.
