(* ===== verification/Replays.v ===== *)
(** Idempotency keys: a settlement, a reconciliation or a cost adjustment
    that succeeded is recognised when it is repeated, whoever repeats it and
    whatever happened to the answer, and is not booked a second time. *)
From S2P Require Import Prelude GoStd Money Calendar Counters Policy Json Store Pricing PolicyService PathMatch Grants Admission Settlement Reservations Lifecycle Booking Reprice Reachable.

(** * What the transactions leave in the ledger *)

(** The tables the checks of a replay read besides the ledger. *)
Definition context (s : db) := (t_prices s, t_users s).

Lemma updateQuotaPeriod_keeps_books p t c r : keeps (fun s => (t_ledger s, t_attempts s, t_requests s, context s)) (updateQuotaPeriod p t c r).
Proof. unfold updateQuotaPeriod. keeps_tac. Qed.
#[export] Hint Resolve updateQuotaPeriod_keeps_books : keeps.

Notation books := (fun s => (t_ledger s, t_attempts s, t_requests s, context s)) (only parsing).

Lemma wrap_tx_keeps_books {A} prefix (m : tx db A) : keeps books m -> keeps books (wrap_tx prefix m).
Proof. intros Hm s a s' H%wrap_tx_Ok. by eapply Hm. Qed.

Lemma or_fail_keeps_books {A} err (m : tx db A) : keeps books m -> keeps books (or_fail err m).
Proof. intros Hm s a s'. unfold or_fail. destruct (m s) as [[b s1]|] eqn:E; [|done]. intros [= -> ->]. by eapply Hm. Qed.
#[export] Hint Resolve wrap_tx_keeps_books or_fail_keeps_books : keeps.

Lemma settle_item_keeps_books t unk tok cost item : keeps books (settle_item t unk tok cost item).
Proof. unfold settle_item, settle_reservation, set_reservation_state. destruct item as [? [? ?]]. keeps_tac. Qed.
Lemma reconcile_item_keeps_books t tok cost item : keeps books (reconcile_item t tok cost item).
Proof. unfold reconcile_item, settle_reservation, set_reservation_state. destruct item as [? [? ?]]. keeps_tac. Qed.
Lemma correct_keeps_books id d a t : keeps books (reconcileSpendPeriods id d a t).
Proof. unfold reconcileSpendPeriods, spend_item, settle_uncertain. keeps_tac. Qed.
#[export] Hint Resolve settle_item_keeps_books reconcile_item_keeps_books correct_keeps_books : keeps.

Lemma book_settlement_effect e id i st us a r cost tokens s u s' :
  t_attempts s !! id = Some a ->
  book_settlement e id i st us a r cost tokens s = Ok (u, s') ->
  t_ledger s !! si_IdempotencyKey i = None /\ context s' = context s /\
  t_ledger s' = <[si_IdempotencyKey i := mkLedgerRow ("led_" +:+ token e 0) id EnSettlement tokens cost None (settlementSignature i cost) (now e 0)]> (t_ledger s) /\
  exists a', t_attempts s' !! id = Some a' /\ at_Snapshot a' = at_Snapshot a.
Proof.
  intros Ha H. unfold book_settlement in H.
  apply tx_bind_Ok in H as (? & s1 & Hl & H). apply insert_ledger_Ok in Hl as [Hn ->].
  apply tx_bind_Ok in H as (items & s1 & Hr & H). apply reads_Ok in Hr as [_ ->].
  apply tx_bind_Ok in H as (? & s1 & Hloop & H).
  assert (keeps books (for_each (settle_item (now e 1) (bool_decide (us = UsUnknown)) tokens cost) items)) as Hk by keeps_tac.
  apply Hk in Hloop. injection Hloop as E1 E2 E3 E4 E5.
  apply tx_bind_Ok in H as (? & s2 & Hr & H). apply require_Ok in Hr as [_ ->].
  apply tx_bind_Ok in H as (? & s2 & Hu & H). eapply update_row_always in Hu; [|by rewrite E2]. subst s2.
  assert (forall t, keeps books (record_assessment (token e 1) id (at_Snapshot a) i cost t)) as Hk1.
  { intros. unfold record_assessment, insert_assessment. keeps_tac. }
  apply tx_bind_Ok in H as (? & s2 & Hx & H). apply Hk1 in Hx. injection Hx as F1 F2 F3 F4 F5.
  apply tx_bind_Ok in H as (? & s3 & Hx & H). apply delete_leases_Ok in Hx as (m & -> & _).
  assert (forall t, keeps (fun s => (t_ledger s, t_attempts s, context s)) (end_or_continue (si_FinalRequest i) (at_Request a) st t)) as Hk2.
  { intros. unfold end_or_continue, set_request_state, delete_leases. keeps_tac. }
  apply tx_bind_Ok in H as (? & s3 & Hx & H). apply Hk2 in Hx. injection Hx as G1 G2 G3 G4.
  apply appendOutbox_Ok in H as [o ->]. cbn in *. unfold context. cbn. split_and!; [done|congruence|congruence|].
  rewrite G2, F2, E2, lookup_insert_eq. eauto.
Qed.

Lemma calculated_cost_context s s' i snap : context s' = context s -> calculated_cost s' i snap = calculated_cost s i snap.
Proof. intros [= Ep _]. unfold calculated_cost, calculatedPriceCost. by rewrite Ep. Qed.

Lemma settle_tx_replay s id i st us e :
  (exists a entry, t_attempts s !! id = Some a /\ t_ledger s !! si_IdempotencyKey i = Some entry /\
     web_search_ok (as_WebSearchMax (at_Snapshot a)) (si_WebSearchCalls i)
       (bool_decide (st = AtSucceeded) && negb (bool_decide (us = UsUnknown))) = true /\
     replay_settlement s id (at_Snapshot a) i entry = Ok tt) ->
  settle_tx e id i st us s = Ok (tt, s).
Proof.
  intros (a & entry & Ha & Hl & Hw & Hr). unfold settle_tx, mbind, tx_bind, get_row, require, reads, lift.
  by rewrite Ha, Hw, Hl, Hr.
Qed.

Lemma settle_tx_once e id i st us s u s' :
  settle_tx e id i st us s = Ok (u, s') -> forall e2, settle_tx e2 id i st us s' = Ok (tt, s').
Proof.
  intros H e2. apply settle_tx_replay. unfold settle_tx in H.
  apply tx_bind_Ok in H as (a & s1 & Hg & H). apply get_row_Ok in Hg as [Ha ->].
  apply tx_bind_Ok in H as (? & s1 & Hg & H). apply require_Ok in Hg as [Hw ->].
  apply tx_bind_Ok in H as (s0 & s1 & Hg & H). apply reads_Ok in Hg as [-> ->].
  destruct (t_ledger s !! si_IdempotencyKey i) as [entry|] eqn:El.
  - apply lift_Ok in H as [Hr ->]. destruct u. eauto 8.
  - apply tx_bind_Ok in H as ([a0 r] & s1 & Hg & H). apply get_row_Ok in Hg as [_ ->].
    apply tx_bind_Ok in H as (? & s1 & Hg & H). apply require_Ok in Hg as [_ ->].
    apply tx_bind_Ok in H as (cost & s1 & Hg & H). apply lift_Ok in Hg as [Hcost ->].
    apply tx_bind_Ok in H as (tokens & s1 & Hg & H). apply lift_Ok in Hg as [Htok ->].
    destruct (book_settlement_effect _ _ _ _ _ _ _ _ _ _ _ _ Ha H) as (_ & Hc & Hled & a' & Ha' & Hsnap).
    exists a'. eexists. split_and!; [done|by rewrite Hled, lookup_insert_eq|by rewrite Hsnap|].
    unfold replay_settlement. rewrite Hsnap, (calculated_cost_context _ _ _ _ Hc), Hcost, Htok. cbn [mbind result_bind].
    apply ensure_Ok. cbn. rewrite String.eqb_refl. unfold nullableEqual. rewrite !bool_decide_eq_true_2 by done.
    cbn. apply String.eqb_refl.
Qed.

(** A key already in the ledger is never booked again. *)
Lemma settle_tx_known_key e id i st us s entry u s' :
  t_ledger s !! si_IdempotencyKey i = Some entry -> settle_tx e id i st us s = Ok (u, s') -> s' = s.
Proof.
  intros Hl H. unfold settle_tx in H.
  apply tx_bind_Ok in H as (a & s1 & Hg & H). apply get_row_Ok in Hg as [_ ->].
  apply tx_bind_Ok in H as (? & s1 & Hg & H). apply require_Ok in Hg as [_ ->].
  apply tx_bind_Ok in H as (s0 & s1 & Hg & H). apply reads_Ok in Hg as [-> ->].
  rewrite Hl in H. by apply lift_Ok in H as [_ ->].
Qed.

Lemma settle_tx_records_key e id i st us s u s' :
  settle_tx e id i st us s = Ok (u, s') -> exists entry, t_ledger s' !! si_IdempotencyKey i = Some entry.
Proof.
  intros H. unfold settle_tx in H.
  apply tx_bind_Ok in H as (a & s1 & Hg & H). apply get_row_Ok in Hg as [Ha ->].
  apply tx_bind_Ok in H as (? & s1 & Hg & H). apply require_Ok in Hg as [Hw ->].
  apply tx_bind_Ok in H as (s0 & s1 & Hg & H). apply reads_Ok in Hg as [-> ->].
  destruct (t_ledger s !! si_IdempotencyKey i) as [entry|] eqn:El.
  - apply lift_Ok in H as [_ ->]. eauto.
  - apply tx_bind_Ok in H as ([a0 r] & s1 & Hg & H). apply get_row_Ok in Hg as [_ ->].
    apply tx_bind_Ok in H as (? & s1 & Hg & H). apply require_Ok in Hg as [_ ->].
    apply tx_bind_Ok in H as (cost & s1 & Hg & H). apply lift_Ok in Hg as [_ ->].
    apply tx_bind_Ok in H as (tokens & s1 & Hg & H). apply lift_Ok in Hg as [_ ->].
    destruct (book_settlement_effect _ _ _ _ _ _ _ _ _ _ _ _ Ha H) as (_ & _ & -> & _). rewrite lookup_insert_eq. eauto.
Qed.

(** A settlement that went through is one that can be repeated. *)
Lemma Settle_repeats (e : env) (attemptID : string) (i : SettlementInput) (s s' : db) :
  Settle e attemptID i s = (Ok tt, s') ->
  (forall e2, Settle e2 attemptID i s' = (Ok tt, s')) /\
  (forall e2 attemptID2 i2, si_IdempotencyKey i2 = si_IdempotencyKey i -> snd (Settle e2 attemptID2 i2 s') = s').
Proof.
  unfold Settle. destruct (check_settlement _ _) as [[st us]|]; [|done]. unfold commit at 1.
  destruct (settle_tx e attemptID (with_tool_status i) st us s) as [[[] s0]|] eqn:E; [|done]. intros [= ->]. split.
  - intros e2. unfold commit. by rewrite (settle_tx_once _ _ _ _ _ _ _ _ E e2).
  - intros e2 id2 i2 Hkey. destruct (check_settlement (with_tool_status i2) _) as [[st2 us2]|]; [|done].
    destruct (settle_tx_records_key _ _ _ _ _ _ _ _ E) as [entry Hentry]. unfold commit.
    destruct (settle_tx e2 id2 (with_tool_status i2) st2 us2 s') as [[[] s2]|] eqn:E2; [|done]. cbn.
    eapply settle_tx_known_key; [|exact E2]. cbn in *. by rewrite Hkey.
Qed.

(** A settlement only adds to the ledger, its own key if it goes through; a
    key that is there already leaves the database as it is. *)
Lemma settle_tx_ledger e id i st us s u s' : settle_tx e id i st us s = Ok (u, s') -> t_ledger s ⊆ t_ledger s'.
Proof.
  intros H. unfold settle_tx in H.
  apply tx_bind_Ok in H as (a & s1 & Hg & H). apply get_row_Ok in Hg as [Ha ->].
  apply tx_bind_Ok in H as (? & s1 & Hg & H). apply require_Ok in Hg as [_ ->].
  apply tx_bind_Ok in H as (s0 & s1 & Hg & H). apply reads_Ok in Hg as [-> ->].
  destruct (t_ledger s !! si_IdempotencyKey i) as [entry|] eqn:El; [apply lift_Ok in H as [_ ->]; reflexivity|].
  apply tx_bind_Ok in H as ([a0 r] & s1 & Hg & H). apply get_row_Ok in Hg as [_ ->].
  apply tx_bind_Ok in H as (? & s1 & Hg & H). apply require_Ok in Hg as [_ ->].
  apply tx_bind_Ok in H as (cost & s1 & Hg & H). apply lift_Ok in Hg as [_ ->].
  apply tx_bind_Ok in H as (tokens & s1 & Hg & H). apply lift_Ok in Hg as [_ ->].
  destruct (book_settlement_effect _ _ _ _ _ _ _ _ _ _ _ _ Ha H) as (Hn & _ & -> & _). by apply insert_subseteq.
Qed.
Lemma Settle_ledger e id i s : t_ledger s ⊆ t_ledger (snd (Settle e id i s)).
Proof.
  unfold Settle. destruct (check_settlement _ _) as [[st us]|]; [|reflexivity]. unfold commit.
  destruct (settle_tx e id (with_tool_status i) st us s) as [[u s']|] eqn:E; [|reflexivity]. by eapply settle_tx_ledger.
Qed.
Lemma Settle_records e id i s s' : Settle e id i s = (Ok tt, s') -> is_Some (t_ledger s' !! si_IdempotencyKey i).
Proof.
  unfold Settle. destruct (check_settlement _ _) as [[st us]|]; [|done]. unfold commit.
  destruct (settle_tx e id (with_tool_status i) st us s) as [[[] s0]|] eqn:E; [|done]. intros [= ->].
  apply settle_tx_records_key in E as [entry E]. by exists entry.
Qed.
Lemma Settle_known e id i s : is_Some (t_ledger s !! si_IdempotencyKey i) -> snd (Settle e id i s) = s.
Proof.
  intros [entry H]. unfold Settle. destruct (check_settlement _ _) as [[st us]|]; [|done]. unfold commit.
  destruct (settle_tx e id (with_tool_status i) st us s) as [[[] s0]|] eqn:E; [|done]. cbn. eapply settle_tx_known_key; [|exact E]. exact H.
Qed.

(** C27: A settlement is booked exactly once. Once [Settle] has succeeded, the
    same call repeated (after a crash, a timeout, a lost answer) succeeds
    again and changes nothing, and no call with the same idempotency key, for
    whatever attempt or usage, changes the database. *)
Theorem Settle_exactly_once (e : env) (attemptID : string) (i : SettlementInput) (s s' : db) :
  Settle e attemptID i s = (Ok tt, s') ->
  (forall e2, Settle e2 attemptID i s' = (Ok tt, s')) /\
  (forall e2 attemptID2 i2, si_IdempotencyKey i2 = si_IdempotencyKey i -> snd (Settle e2 attemptID2 i2 s') = s').
Proof. apply Settle_repeats. Qed.

(** * Adjustments *)

Lemma refreshUsageActor_context s s' actor : context s' = context s -> refreshUsageActor s' actor = refreshUsageActor s actor.
Proof. intros [= _ Eu]. unfold refreshUsageActor. by rewrite Eu. Qed.

Lemma admin_may_touch_context s s' actor owner : context s' = context s -> admin_may_touch s' actor owner = admin_may_touch s actor owner.
Proof. intros [= _ Eu]. unfold admin_may_touch. by rewrite Eu. Qed.

Lemma adjust_tx_once e actor id delta reason key s r s' e2 :
  adjust_tx e actor id delta reason key s = Ok (r, s') ->
  is_Some (t_ledger s' !! key) /\ adjust_tx e2 actor id delta reason key s' = Ok (r, s').
Proof.
  intros H. unfold adjust_tx in H.
  apply tx_bind_Ok in H as (s0 & s1 & Hg & H). apply reads_Ok in Hg as [-> ->].
  apply tx_bind_Ok in H as (actor' & s1 & Hg & H). apply lift_Ok in Hg as [Hact ->].
  apply tx_bind_Ok in H as (? & s1 & Hg & H). apply require_Ok in Hg as [Hman ->].
  apply tx_bind_Ok in H as ([a rq] & s1 & Hg & H). apply get_row_Ok in Hg as [Hj ->].
  apply tx_bind_Ok in H as (? & s1 & Hg & H). apply require_Ok in Hg as [Hst ->].
  apply tx_bind_Ok in H as (? & s1 & Hg & H). apply require_Ok in Hg as [Hus ->].
  apply tx_bind_Ok in H as ([] & s1 & Hg & H). apply lift_Ok in Hg as [Hadm ->].
  destruct (t_ledger s !! key) as [entry|] eqn:El.
  - apply lift_Ok in H as [Hr ->]. split; [by rewrite El|]. unfold adjust_tx, mbind, tx_bind, get_row, require, reads, lift.
    by rewrite Hact, Hman, Hj, Hst, Hus, Hadm, El, Hr.
  - destruct (checkedAdd _) as [next|] eqn:En; [|by apply fail_Ok in H].
    apply tx_bind_Ok in H as (? & s1 & Hg & H). apply require_Ok in Hg as [Hpos ->].
    unfold requireOutboxCapacity in H. apply tx_bind_Ok in H as (? & s1 & Hg & H). apply tx_bind_Ok in Hg as (? & ? & Hr0 & Hg). apply reads_Ok in Hr0 as [_ ->]. apply require_Ok in Hg as [_ ->].
    apply tx_bind_Ok in H as (? & s1 & Hled & H). apply insert_ledger_Ok in Hled as [_ ->].
    apply attempt_join_Some in Hj as [Ha Hrq].
    apply tx_bind_Ok in H as (? & s1 & Hres & H). eapply restate_Ok in Hres; [|exact Ha]. subst s1.
    apply tx_bind_Ok in H as (? & s1 & Hp & H). apply (correct_keeps_books id) in Hp. injection Hp as E1 E2 E3 E4 E5.
    apply tx_bind_Ok in H as (? & s2 & Hau & H). apply insertAudit_Ok in Hau as [au ->].
    apply tx_bind_Ok in H as (? & s2 & Hob & H). apply appendOutbox_Ok in Hob as [ob ->]. apply tx_ret_Ok in H as [<- <-].
    set (s' := set_outbox ob (set_audit au s1)).
    assert (context s' = context s) as Hc by (unfold context; cbn in *; congruence).
    assert (attempt_join s' id = Some (with_restated next a, rq)) as Hj'.
    { apply attempt_join_Some. cbn in *. rewrite E2, E3, lookup_insert_eq. done. }
    assert (t_ledger s' !! key = Some (mkLedgerRow ("led_" +:+ token e 0) id EnAdjustment None (Some delta) (Some (us_ID actor')) reason (now e 0))) as Hl'.
    { cbn in *. by rewrite E1, lookup_insert_eq. }
    split; [by rewrite Hl'|]. unfold adjust_tx, mbind, tx_bind, get_row, require, reads, lift.
    rewrite (refreshUsageActor_context _ _ _ Hc), Hact, Hman, Hj'. cbn [at_State at_UsageStatus with_restated].
    rewrite Hst, Hus, (admin_may_touch_context _ _ _ _ Hc), Hadm, Hl'. unfold replay_adjustment. cbn [ld_Actor].
    cbn [ld_Attempt ld_Type ld_Reason ld_Cost]. rewrite !String.eqb_refl, !bool_decide_eq_true_2 by done. done.
Qed.

Lemma adjust_tx_known_key e actor id delta reason key s entry r s' :
  t_ledger s !! key = Some entry -> adjust_tx e actor id delta reason key s = Ok (r, s') -> s' = s.
Proof.
  intros Hl H. unfold adjust_tx in H. tx_inv.
  match goal with H : (let (_, _) := ?x in _) _ = _ |- _ => destruct x end. tx_inv.
  match goal with H : match t_ledger ?s0 !! key with Some _ => _ | None => _ end ?s1 = _ |- _ => rewrite Hl in H; by apply lift_Ok in H as [_ ->] end.
Qed.

(** A cost adjustment is booked exactly once: repeated with the same
    idempotency key, attempt, amount, reason and actor it answers with the
    same cost and changes nothing, and no adjustment with a key already in the
    ledger changes the database. *)
Theorem AdjustCost_exactly_once (e : env) (actor : User) (attemptID usd reason key : string) (s s' : db) (r : string) :
  AdjustCost e actor attemptID usd reason key s = (Ok r, s') ->
  (forall e2, AdjustCost e2 actor attemptID usd reason key s' = (Ok r, s')) /\
  (forall e2 actor2 attemptID2 usd2 reason2, snd (AdjustCost e2 actor2 attemptID2 usd2 reason2 key s') = s').
Proof.
  intros H. unfold AdjustCost in H. match type of H with (if ?b then _ else _) = _ => destruct b eqn:Eb end; [done|].
  destruct (parseSignedUSD usd) as [delta|] eqn:Eu; [|done]. destruct (delta =? 0) eqn:Ez; [done|].
  unfold commit in H. destruct (adjust_tx _ _ _ _ _ _ s) as [[r0 s0]|] eqn:E; [|done]. injection H as -> ->. split.
  - intros e2. unfold AdjustCost. rewrite Eb, Eu, Ez. unfold commit.
    by destruct (adjust_tx_once _ _ _ _ _ _ _ _ _ e2 E) as [_ ->].
  - intros e2 actor2 id2 usd2 reason2. unfold AdjustCost. match goal with |- context [if ?b then _ else _] => destruct b end; [done|].
    destruct (parseSignedUSD usd2) as [d2|]; [|done]. destruct (d2 =? 0); [done|]. unfold commit.
    destruct (adjust_tx e2 actor2 id2 d2 reason2 key s') as [[r2 s2]|] eqn:E2; [|done].
    destruct (adjust_tx_once _ _ _ _ _ _ _ _ _ e E) as [[entry El] _]. by eapply adjust_tx_known_key in E2.
Qed.
