(* ===== verification/Decode.v ===== *)
(** [json.Unmarshal] of a text into a [map[string]any] ([encoding/json]):
    numbers rounded to [float64] ([strconv.ParseFloat]), strings unquoted and
    repaired to UTF-8, nested arrays and objects. The text has passed the
    scanner of [Json], as in the library, so the decoder trusts its shape. *)
From S2P Require Import Prelude GoStd Money Counters Policy Json.
Open Scope string_scope.
Open Scope Z_scope.

(** * [float64] *)

(** The finite float [mantissa * 2^exponent]. *)
Record float := mkFloat { fl_mantissa : Z; fl_exponent : Z }.

(** [p / q] rounded to the nearest integer, ties to even. *)
Definition round_even (p q : Z) : Z :=
  let n := p / q in let r := p mod q in
  if (q <? 2 * r) || (2 * r =? q) && Z.odd n then n + 1 else n.

(** The float nearest to the positive rational [p / q]; [None] above the range. *)
Definition nearest_float (p q : Z) : option float :=
  let l := Z.log2 p - Z.log2 q in
  let below := if 0 <=? l then p <? q * 2 ^ l else p * 2 ^ (- l) <? q in
  let e := Z.max (-1074) ((if below then l - 1 else l) - 52) in
  let m := if 0 <=? e then round_even p (q * 2 ^ e) else round_even (p * 2 ^ (- e)) q in
  if (e =? 971) && (m =? 2 ^ 53) || (971 <? e) then None else Some (mkFloat m e).

Record decimal := mkDecimal { dc_neg : bool; dc_digits : Z; dc_scale : Z; dc_rest : string }.

(** Digits of the integer part, then of the fraction. *)
Fixpoint read_digits (acc scale : Z) (step : Z) (s : string) : Z * Z * string :=
  match s with
  | String c s' => if is_digit c then read_digits (acc * 10 + digit_val c) (scale - step) step s' else (acc, scale, s)
  | EmptyString => (acc, scale, s)
  end.
(** The exponent, which [strconv] stops accumulating at 10000. *)
Fixpoint read_exponent (acc : Z) (s : string) : Z * string :=
  match s with
  | String c s' => if is_digit c then read_exponent (if acc <? 10000 then acc * 10 + digit_val c else acc) s' else (acc, s)
  | EmptyString => (acc, s)
  end.

Definition eat (c : ascii) (s : string) : bool * string :=
  match s with String d s' => if Ascii.eqb c d then (true, s') else (false, s) | EmptyString => (false, s) end.

Definition read_decimal (s : string) : decimal :=
  let '(neg, s) := eat "-"%char s in
  let '(digits, _, s) := read_digits 0 0 0 s in
  let '(dot, s) := eat "."%char s in
  let '(digits, scale, s) := if dot then read_digits digits 0 1 s else (digits, 0, s) in
  match s with
  | String c s' =>
    if Ascii.eqb c "e"%char || Ascii.eqb c "E"%char then
      let '(minus, s') := eat "-"%char s' in
      let '(_, s') := eat "+"%char s' in
      let '(e, s') := read_exponent 0 s' in
      mkDecimal neg digits (scale + (if minus then - e else e)) s'
    else mkDecimal neg digits scale s
  | EmptyString => mkDecimal neg digits scale s
  end.

(** A zero keeps its sign in the exponent: [0 * 2^-1] is [-0]. *)
Definition signed_zero (neg : bool) : float := mkFloat 0 (if neg then -1 else 0).
Definition with_sign (neg : bool) (f : float) : float :=
  if fl_mantissa f =? 0 then signed_zero neg else if neg then mkFloat (- fl_mantissa f) (fl_exponent f) else f.

(** [strconv.ParseFloat(text, 64)]; [None] is its range error. *)
Definition float_of (d : decimal) : option float :=
  if dc_digits d =? 0 then Some (signed_zero (dc_neg d))
  else with_sign (dc_neg d) <$> (if 0 <=? dc_scale d then nearest_float (dc_digits d * 10 ^ dc_scale d) 1
                                 else nearest_float (dc_digits d) (10 ^ (- dc_scale d))).

(** The float's value when it is an integer. *)
Definition exact_integer (f : float) : option Z :=
  if 0 <=? fl_exponent f then Some (fl_mantissa f * 2 ^ fl_exponent f)
  else let d := 2 ^ (- fl_exponent f) in if fl_mantissa f mod d =? 0 then Some (fl_mantissa f / d) else None.
(** [int64(f)] on amd64: a value outside [int64] becomes its least one. *)
Definition to_int64 (f : float) : Z :=
  let n := if 0 <=? fl_exponent f then fl_mantissa f * 2 ^ fl_exponent f
           else Z.quot (fl_mantissa f) (2 ^ (- fl_exponent f)) in
  if (min_int64 <=? n) && (n <=? max_int64) then n else min_int64.

(** * Strings *)

(** [utf8.AppendRune]. *)
Definition encode_rune (r : Z) : string :=
  let b n := String (ascii_of_nat (Z.to_nat n)) "" in
  if r <? 128 then b r
  else if r <? 2048 then b (192 + r / 64) +:+ b (128 + r mod 64)
  else if r <? 65536 then b (224 + r / 4096) +:+ b (128 + r / 64 mod 64) +:+ b (128 + r mod 64)
  else b (240 + r / 262144) +:+ b (128 + r / 4096 mod 64) +:+ b (128 + r / 64 mod 64) +:+ b (128 + r mod 64).

Definition hex_val (c : ascii) : Z :=
  let b := byte_of c in if b <? 58 then b - 48 else if b <? 71 then b - 55 else b - 87.

(** [getu4]: the escape [\uXXXX] a text begins with. *)
Definition getu4 (s : string) : option (Z * string) :=
  match s with
  | String x (String u (String a (String b (String c (String d rest))))) =>
    if Ascii.eqb x backslash && Ascii.eqb u "u"%char && forallb (fun h => is_hex (byte_of h)) [a; b; c; d]
    then Some (((hex_val a * 16 + hex_val b) * 16 + hex_val c) * 16 + hex_val d, rest) else None
  | _ => None
  end.
Definition surrogate (r : Z) : bool := in_range r 55296 57343.

(** An escape: what it stands for and the text after it. A high surrogate
    takes the low one after it; a lone one is [RuneError]. *)
Definition unescape (s : string) : string * string :=
  match getu4 s with
  | Some (r, rest) =>
    if surrogate r then
      match getu4 rest with
      | Some (low, after) =>
          if in_range r 55296 56319 && in_range low 56320 57343
          then (encode_rune ((r - 55296) * 1024 + (low - 56320) + 65536), after) else (encode_rune RuneError, rest)
      | None => (encode_rune RuneError, rest)
      end
    else (encode_rune r, rest)
  | None =>
    match s with
    | String _ (String c rest) =>
      let b := byte_of c in
      (String (if b =? 98 then chr 8 else if b =? 102 then chr 12 else if b =? 110 then chr 10
               else if b =? 114 then chr 13 else if b =? 116 then chr 9 else c) "", rest)
    | _ => ("", "")
    end
  end.

(** The contents of a string literal after its opening quote, and the rest. *)
Fixpoint unquote (fuel : nat) (s : string) : string * string :=
  match fuel, s with
  | O, _ | _, EmptyString => ("", s)
  | S fuel, String c s' =>
    if Ascii.eqb c quote_char then ("", s')
    else let '(piece, rest) :=
           if Ascii.eqb c backslash then unescape s
           else let '(r, w) := DecodeRuneInString s in
                (if (r =? RuneError) && (w =? 1)%nat then encode_rune RuneError else take_bytes w s, drop_bytes w s) in
         let '(tail, rest) := unquote fuel rest in (piece +:+ tail, rest)
  end.

(** * Values *)

(** [any] as the decoder fills it. *)
Inductive value :=
| VNull | VBool (b : bool) | VNumber (f : float) | VString (s : string)
| VArray (l : list value) | VObject (m : list (string * value)).

(** A decoded [map[string]any]; of repeated names the last counts. *)
Definition object : Type := list (string * value).

Fixpoint skip_space (s : string) : string :=
  match s with String c s' => if is_space (byte_of c) then skip_space s' else s | EmptyString => s end.

(** The values of a valid text. A number out of range is left [nil] and makes
    the whole decoding fail, which the flag records. *)
Fixpoint decode_value (fuel : nat) (ok : bool) (s : string) : value * bool * string :=
  match fuel with
  | O => (VNull, ok, s)
  | S fuel =>
    match skip_space s with
    | EmptyString => (VNull, ok, s)
    | String c s' as text =>
      let b := byte_of c in
      if b =? 123 then let '(m, ok, rest) := decode_members fuel ok s' in (VObject m, ok, rest)
      else if b =? 91 then let '(l, ok, rest) := decode_items fuel ok s' in (VArray l, ok, rest)
      else if b =? 34 then let '(str, rest) := unquote fuel s' in (VString str, ok, rest)
      else if b =? 116 then (VBool true, ok, drop_bytes 3 s')
      else if b =? 102 then (VBool false, ok, drop_bytes 4 s')
      else if b =? 110 then (VNull, ok, drop_bytes 3 s')
      else let d := read_decimal text in
           match float_of d with Some f => (VNumber f, ok, dc_rest d) | None => (VNull, false, dc_rest d) end
    end
  end
with decode_items (fuel : nat) (ok : bool) (s : string) : list value * bool * string :=
  match fuel with
  | O => ([], ok, s)
  | S fuel =>
    match skip_space s with
    | EmptyString => ([], ok, s)
    | String c s' as text =>
      if byte_of c =? 93 then ([], ok, s')
      else let '(v, ok, rest) := decode_value fuel ok (if byte_of c =? 44 then s' else text) in
           let '(l, ok, rest) := decode_items fuel ok rest in (v :: l, ok, rest)
    end
  end
with decode_members (fuel : nat) (ok : bool) (s : string) : object * bool * string :=
  match fuel with
  | O => ([], ok, s)
  | S fuel =>
    match skip_space s with
    | EmptyString => ([], ok, s)
    | String c s' =>
      if byte_of c =? 125 then ([], ok, s')
      else if byte_of c =? 44 then decode_members fuel ok s'
      else let '(name, rest) := unquote fuel s' in
           let '(v, ok, rest) := decode_value fuel ok (drop_bytes 1 (skip_space rest)) in
           let '(m, ok, rest) := decode_members fuel ok rest in ((name, v) :: m, ok, rest)
    end
  end.

(** [json.Unmarshal(text, &m)]: the map it leaves and whether it succeeded.
    [null] leaves the map [nil]; any other value that is no object is an error. *)
Definition Unmarshal (text : string) : object * bool :=
  if json_valid text then
    match decode_value (S (String.length text)) true text with
    | (VObject m, ok, _) => (m, ok)
    | (VNull, ok, _) => ([], ok)
    | _ => ([], false)
    end
  else ([], false).

(** * Reading a map *)

Fixpoint lookup_field (m : object) (k : string) : option value :=
  match m with
  | [] => None
  | (name, v) :: m => match lookup_field m k with Some v => Some v | None => if name =s k then Some v else None end
  end.
(** [m[k]]: [nil] when the name is missing. *)
Definition field (m : object) (k : string) : value := default VNull (lookup_field m k).

(** JSON written with single quotes, for the examples. *)
Definition json_text (s : string) : string := of_bytes (map (fun b => if b =? 39 then 34 else b) (bytes s)).
