(* ===== verification/Tokens.v ===== *)
(** Usage accounting ([internal/gateway/accounting.go], [json_helpers.go]): what
    a provider's response says about tokens and tool calls. A response is one
    JSON object or a stream of server-sent events; every object in it is
    decoded and read in turn. *)
From S2P Require Import Prelude GoStd Money Counters Policy Json Decode Store Pricing PolicyService Admission Settlement.
Open Scope string_scope.
Open Scope Z_scope.

(** * Reading JSON values *)

(** The assertion [value.(map[string]any)]: [None] is its [nil]. *)
Definition as_object (v : value) : option object := match v with VObject m => Some m | _ => None end.
Definition objectMap (v : value) : object := default [] (as_object v).
Definition array (v : value) : list value := match v with VArray l => l | _ => [] end.
Definition stringValue (v : value) : string := match v with VString s => s | _ => "" end.
Definition number (v : value) : Z := match v with VNumber f => to_int64 f | _ => 0 end.

Fixpoint firstString (m : object) (names : list string) : string :=
  match names with
  | [] => ""
  | name :: names => let value := stringValue (field m name) in if negb (value =s "") then value else firstString m names
  end.

Definition integer (v : value) : option Z :=
  match v with
  | VNumber f => n ← exact_integer f; if (n <? 0) || (maxSafeInteger <? n) then None else Some n
  | _ => None
  end.

(** * Server-sent events *)

Definition maxConversationStreamFrames : Z := 131072.
Definition newline : ascii := ascii_of_nat 10.

(** [bufio.ScanLines] with the scanner's buffer of [maxInferenceBody+1] bytes:
    a line that fills it ends the scan. *)
Definition maxInferenceBody : Z := 16777216.
Definition drop_cr (s : string) : string := TrimSuffix s (String (ascii_of_nat 13) "").
Fixpoint fitting (lines : list string) : list string :=
  match lines with
  | [] => []
  | line :: lines => if str_len line <=? maxInferenceBody then line :: fitting lines else []
  end.
Definition scan_lines (raw : string) : list string :=
  let parts := Split raw newline in
  map drop_cr (fitting (match last parts with Some "" => removelast parts | _ => parts end)).

Record sse := mkSse { sse_data : string; sse_objects : list string; sse_full : bool }.

Definition flush (st : sse) : sse :=
  let value := TrimSpace (sse_data st) in
  if negb (value =s "") && negb (value =s "[DONE]") then
    if maxConversationStreamFrames <=? Z.of_nat (length (sse_objects st)) then mkSse (sse_data st) (sse_objects st) true
    else mkSse "" (sse_objects st ++ [value]) (sse_full st)
  else mkSse "" (sse_objects st) (sse_full st).

Definition scan_line (st : sse) (line : string) : sse :=
  if sse_full st then st
  else if line =s "" then flush st
  else if HasPrefix line "data:" then
    mkSse (sse_data st +:+ (if negb (sse_data st =s "") then String newline "" else "") +:+ TrimSpace (TrimPrefix line "data:"))
      (sse_objects st) false
  else st.

Definition starts_object (s : string) : bool := HasPrefix s "{".

Definition responseObjects (raw : string) : list string :=
  let trimmed := TrimSpace raw in
  if starts_object trimmed then [trimmed]
  else sse_objects (flush (fold_left scan_line (scan_lines raw) (mkSse "" [] false))).

(** * Token usage *)

Record parsedUsage := mkParsedUsage {
  pu_Input : option Z; pu_Output : option Z; pu_CacheCreation : option Z; pu_CacheRead : option Z;
  pu_Cache5m : option Z; pu_Cache1h : option Z }.
Definition no_parsed_usage : parsedUsage := mkParsedUsage None None None None None None.

(** The variables of [parseUsageDetails] with their [found] flags. *)
Record counts := mkCounts {
  ct_input : option Z; ct_output : option Z; ct_creation : option Z; ct_read : option Z; ct_5m : option Z; ct_1h : option Z;
  ct_invalidCache : bool; ct_invalidUsage : bool }.
Definition no_counts : counts := mkCounts None None None None None None false false.

Definition set_tokens (input output : option Z) (c : counts) : counts :=
  mkCounts input output (ct_creation c) (ct_read c) (ct_5m c) (ct_1h c) (ct_invalidCache c) (ct_invalidUsage c).
Definition set_read (read : option Z) (invalid : bool) (c : counts) : counts :=
  mkCounts (ct_input c) (ct_output c) (ct_creation c) read (ct_5m c) (ct_1h c) invalid (ct_invalidUsage c).
Definition set_cache (creation read c5m c1h : option Z) (c : counts) : counts :=
  mkCounts (ct_input c) (ct_output c) creation read c5m c1h (ct_invalidCache c) (ct_invalidUsage c).
Definition set_invalid_usage (c : counts) : counts :=
  mkCounts (ct_input c) (ct_output c) (ct_creation c) (ct_read c) (ct_5m c) (ct_1h c) (ct_invalidCache c) true.

(** [if number, ok := integer(v); ok { x, foundX = number, true }]. *)
Definition found (v : value) (old : option Z) : option Z := match integer v with Some n => Some n | None => old end.

(** The usage object of a response object, and whether it is a Gemini interaction's. *)
Definition usage_object (dialect : string) (v : object) : option object * bool :=
  if dialect =s "gemini" then
    match as_object (field v "usageMetadata") with
    | Some m => (Some m, false)
    | None => let m := as_object (field v "usage") in (m, is_some m)
    end
  else
    let m := match as_object (field v "usage") with
             | Some m => Some m
             | None => as_object (field (objectMap (field v "response")) "usage")
             end in
    let m := match m with
             | None => if dialect =s "anthropic" then message ← as_object (field v "message"); as_object (field message "usage") else None
             | Some m => Some m
             end in
    (m, false).

(** A response that counts tokens and has no usage object. *)
Definition count_only (dialect : string) (v : object) (c : counts) : counts :=
  let counted name := match integer (field v name) with Some n => set_tokens (Some n) (Some 0) c | None => c end in
  if dialect =s "anthropic" then counted "input_tokens" else if dialect =s "gemini" then counted "totalTokens" else c.

Definition usage_names (dialect : string) (interaction : bool) (m : object) : string * string :=
  if dialect =s "gemini" then
    if interaction then ("total_input_tokens", "total_output_tokens") else ("promptTokenCount", "candidatesTokenCount")
  else if dialect =s "anthropic" then ("input_tokens", "output_tokens")
  else ((if is_some (lookup_field m "prompt_tokens") then "prompt_tokens" else "input_tokens"),
        (if is_some (lookup_field m "completion_tokens") then "completion_tokens" else "output_tokens")).

Definition anthropic_cache (m : object) (c : counts) : counts :=
  let c := set_cache (found (field m "cache_creation_input_tokens") (ct_creation c)) (found (field m "cache_read_input_tokens") (ct_read c))
             (ct_5m c) (ct_1h c) c in
  match as_object (field m "cache_creation") with
  | Some details => set_cache (ct_creation c) (ct_read c) (found (field details "ephemeral_5m_input_tokens") (ct_5m c))
                      (found (field details "ephemeral_1h_input_tokens") (ct_1h c)) c
  | None => c
  end.

Definition gemini_cache (interaction : bool) (m : object) (c : counts) : counts :=
  let c := match lookup_field m (if interaction then "total_cached_tokens" else "cachedContentTokenCount") with
           | Some raw => match integer raw with
                         | Some n => set_read (Some n) (ct_invalidCache c) c
                         | None => set_read (ct_read c) true c
                         end
           | None => c
           end in
  if interaction then
    match integer (field m "total_tokens"), ct_input c, ct_output c with
    | Some total, Some input, Some output =>
        if (total <? input) || (total - input <? output) then set_invalid_usage c else set_tokens (Some input) (Some (total - input)) c
    | _, _, _ => set_invalid_usage c
    end
  else c.

(** [setCacheRead] on (objectCacheRead, invalidCache). *)
Definition setCacheRead (raw : value) (st : option Z * bool) : option Z * bool :=
  match integer raw, st with
  | Some n, (Some old, invalid) => if negb (old =? n) then (Some old, true) else (Some n, invalid)
  | Some n, (None, invalid) => (Some n, invalid)
  | None, (old, _) => (old, true)
  end.

Definition cached_details (m : object) (st : option Z * bool) (name : string) : option Z * bool :=
  match lookup_field m name with
  | None | Some VNull => st
  | Some (VObject details) => match lookup_field details "cached_tokens" with Some raw => setCacheRead raw st | None => st end
  | Some _ => (fst st, true)
  end.

Definition openai_cache (inputName : string) (m : object) (c : counts) : counts :=
  let st := fold_left (cached_details m) ["prompt_tokens_details"; "input_tokens_details"] (None, ct_invalidCache c) in
  let st := match lookup_field m "prompt_cache_hit_tokens" with Some raw => setCacheRead raw st | None => st end in
  let '(read, invalid) :=
    match lookup_field m "prompt_cache_miss_tokens" with
    | None => st
    | Some rawMiss =>
      match integer rawMiss, integer (field m inputName), st with
      | Some miss, Some current, (read, invalid) =>
          if current <? miss then (read, true)
          else match read with
               | Some read => (Some read, invalid || (current - miss <? read) || negb (read + miss =? current))
               | None => (Some (current - miss), invalid)
               end
      | _, _, (read, _) => (read, true)
      end
    end in
  set_read (match read with Some n => Some n | None => ct_read c end) invalid c.

(** One response object. *)
Definition count_object (dialect : string) (c : counts) (v : object) : counts :=
  match usage_object dialect v with
  | (None, _) => count_only dialect v c
  | (Some m, interaction) =>
    let '(inputName, outputName) := usage_names dialect interaction m in
    let c := set_tokens (found (field m inputName) (ct_input c)) (found (field m outputName) (ct_output c)) c in
    if dialect =s "anthropic" then anthropic_cache m c
    else if dialect =s "gemini" then gemini_cache interaction m c
    else openai_cache inputName m c
  end.

(** An OpenAI response with a total and no output. *)
Definition output_of_total (dialect : string) (objects : list object) (c : counts) : counts :=
  match ct_input c, ct_output c with
  | Some input, None =>
    if dialect =s "openai" then
      fold_left (fun c v => match integer (field (objectMap (field v "usage")) "total_tokens") with
                            | Some total => if input <=? total then set_tokens (ct_input c) (Some (total - input)) c else c
                            | None => c
                            end) objects c
    else c
  | _, _ => c
  end.

(** Cache tokens are added to Anthropic's input, which leaves them out. *)
Definition anthropic_input (c : counts) (input : Z) : option Z :=
  let creation := default 0 (ct_creation c) in
  let details := default 0 (ct_5m c) + default 0 (ct_1h c) in
  if (is_some (ct_5m c) || is_some (ct_1h c))
     && ((maxSafeInteger <? details) || match ct_creation c with Some n => negb (details =? n) | None => true end) then None
  else if is_some (ct_creation c) && (maxSafeInteger - creation <? input) then None
  else let input := input + creation in
       let read := default 0 (ct_read c) in
       if is_some (ct_read c) && (maxSafeInteger - read <? input) then None else Some (input + read).

Definition usage_result (dialect : string) (c : counts) : parsedUsage :=
  match ct_input c, ct_output c with
  | Some input, Some output =>
    if ct_invalidCache c || ct_invalidUsage c
       || negb (dialect =s "anthropic") && match ct_read c with Some read => input <? read | None => false end
    then no_parsed_usage
    else match (if dialect =s "anthropic" then anthropic_input c input else Some input) with
         | Some input => mkParsedUsage (Some input) (Some output) (ct_creation c) (ct_read c) (ct_5m c) (ct_1h c)
         | None => no_parsed_usage
         end
  | _, _ => no_parsed_usage
  end.

(** * Tool calls *)

(** A content part that is a call of a tool the client runs. *)
Definition tool_use (part : object) : bool :=
  let kind := stringValue (field part "type") in let name := stringValue (field part "name") in
  (kind =s "tool_use") || (kind =s "server_tool_use") && negb (name =s "web_search") && negb (name =s "web_fetch").

Definition indexed {A} (l : list A) : list (Z * A) := imap (fun i x => (Z.of_nat i, x)) l.

(** The keys and the completion of one response object. *)
Definition openai_calls (v : object) : list string :=
  flat_map (fun ic =>
    let choice := objectMap (snd ic) in
    map (fun jc => firstString (objectMap (snd jc)) ["id"] +:+ ":" +:+ FormatInt (fst ic) +:+ ":" +:+ FormatInt (fst jc))
      (indexed (array (field (objectMap (field choice "message")) "tool_calls")))
    ++ map (fun call => FormatInt (fst ic) +:+ ":" +:+ FormatInt (number (field (objectMap call) "index")))
         (array (field (objectMap (field choice "delta")) "tool_calls")))%list
    (indexed (array (field v "choices"))).

Definition anthropic_calls (v : object) : list string :=
  (flat_map (fun ip => let part := objectMap (snd ip) in
      if tool_use part then [firstString part ["id"] +:+ ":" +:+ FormatInt (fst ip)] else []) (indexed (array (field v "content")))
   ++ (if (stringValue (field v "type") =s "content_block_start") && tool_use (objectMap (field v "content_block"))
       then [FormatInt (number (field v "index"))] else []))%list.

Definition gemini_calls (v : object) : list string :=
  flat_map (fun ic => flat_map (fun jp =>
      match objectMap (field (objectMap (snd jp)) "functionCall") with
      | [] => [] | _ :: _ => [FormatInt (fst ic) +:+ ":" +:+ FormatInt (fst jp)]
      end) (indexed (array (field (objectMap (field (objectMap (snd ic)) "content")) "parts"))))
    (indexed (array (field v "candidates"))).

Definition response_calls (v : object) : list string :=
  let items := match array (field v "output") with [] => array (field (objectMap (field v "response")) "output") | items => items end in
  let items := match objectMap (field v "item") with [] => items | item => (items ++ [VObject item])%list end in
  flat_map (fun ip =>
    let item := objectMap (snd ip) in let kind := stringValue (field item "type") in
    if (kind =s "function_call") || (kind =s "file_search_call") then
      let key := firstString item ["id"; "call_id"] in
      [if negb (key =s "") then key
       else match integer (field v "output_index") with
            | Some n => "index:" +:+ FormatInt n
            | None => "item:" +:+ FormatInt (fst ip)
            end]
    else []) (indexed items).

Fixpoint ContainsSub (s sub : string) : bool :=
  HasPrefix s sub || match s with EmptyString => false | String _ s => ContainsSub s sub end.

Definition dialect_calls (dialect raw : string) (v : object) : list string * bool :=
  if (dialect =s "openai") || (dialect =s "openai_compatible") then (openai_calls v, ContainsSub raw "data: [DONE]")
  else if dialect =s "anthropic" then (anthropic_calls v, stringValue (field v "type") =s "message_stop")
  else if dialect =s "gemini" then
    (gemini_calls v, existsb (fun c => negb (stringValue (field (objectMap c) "finishReason") =s "")) (array (field v "candidates")))
  else if dialect =s "responses" then
    (response_calls v, (stringValue (field v "type") =s "response.completed")
                       || (stringValue (field (objectMap (field v "response")) "status") =s "completed"))
  else ([], false).

(** The loop over the objects: an object the gateway wrote itself ends it. *)
Fixpoint tool_loop (dialect raw : string) (objects : list object) (keys : list string) (completed : bool) : Z * string :=
  match objects with
  | [] =>
    let calls := Z.of_nat (length (remove_dups keys)) in
    if calls =? 0 then (0, "none") else if completed then (calls, "completed") else (calls, "incomplete")
  | v :: objects =>
    match integer (field v "_gateway_tool_call_count") with
    | Some count => (count, stringValue (field v "_gateway_tool_call_status"))
    | None => let '(more, done) := dialect_calls dialect raw v in tool_loop dialect raw objects (keys ++ more) (completed || done)
    end
  end.

(** The objects of a response, each with whether it decoded. *)
Definition decoded (raw : string) : list (object * bool) := map Unmarshal (responseObjects raw).
Definition well_decoded (raw : string) : list object :=
  omap (fun d : object * bool => if snd d then Some (fst d) else None) (decoded raw).

Definition parseUsageDetails (dialect raw : string) : parsedUsage :=
  usage_result dialect
    (output_of_total dialect (map fst (decoded raw)) (fold_left (count_object dialect) (well_decoded raw) no_counts)).

Definition countRequestTools (dialect raw : string) : Z :=
  match Unmarshal raw with
  | (_, false) => 0
  | (v, true) =>
    if negb (dialect =s "gemini") then Z.of_nat (length (array (field v "tools")))
    else fold_left (fun count group => count + Z.of_nat (length (array (field (objectMap group) "functionDeclarations"))))
           (array (field v "tools")) 0
  end.

(** [None] is the run-time panic of indexing an empty slice. *)
Definition parseToolMetadata (dialect raw : string) : option (Z * string) :=
  if negb (raw =s "") && (TrimSpace raw =s "") then None
  else Some (tool_loop dialect raw (well_decoded raw) [] (starts_object (TrimSpace raw))).

(** * Reported usage can be settled *)

Definition count_ok (v : option Z) : Prop := match v with Some n => 0 <= n <= maxSafeInteger | None => True end.

(** What every object leaves in the counters: safe integers, and cache writes
    only where the dialect has them. *)
Definition counts_ok (dialect : string) (c : counts) : Prop :=
  count_ok (ct_input c) /\ count_ok (ct_output c) /\ count_ok (ct_creation c) /\ count_ok (ct_read c)
  /\ count_ok (ct_5m c) /\ count_ok (ct_1h c)
  /\ (dialect <> "anthropic" -> ct_creation c = None /\ ct_5m c = None /\ ct_1h c = None).

Lemma integer_ok (v : value) : count_ok (integer v).
Proof.
  unfold integer. destruct v; simpl; try done. destruct (exact_integer f) as [n|]; simpl; [|done].
  destruct ((n <? 0) || (maxSafeInteger <? n)) eqn:E; simpl; [done|]. lia.
Qed.
Lemma found_ok (v : value) (old : option Z) : count_ok old -> count_ok (found v old).
Proof. unfold found. pose proof (integer_ok v). by destruct (integer v). Qed.

Lemma set_tokens_ok d i o c : counts_ok d c -> count_ok i -> count_ok o -> counts_ok d (set_tokens i o c).
Proof. unfold counts_ok. simpl. tauto. Qed.
Lemma set_read_ok d r b c : counts_ok d c -> count_ok r -> counts_ok d (set_read r b c).
Proof. unfold counts_ok. simpl. tauto. Qed.
Lemma set_invalid_ok d c : counts_ok d c -> counts_ok d (set_invalid_usage c).
Proof. unfold counts_ok. simpl. tauto. Qed.

Create HintDb counts.
#[local] Hint Resolve integer_ok found_ok set_tokens_ok set_read_ok set_invalid_ok : counts.

Lemma counts_fields d c : counts_ok d c -> count_ok (ct_input c) /\ count_ok (ct_output c) /\ count_ok (ct_read c).
Proof. unfold counts_ok. tauto. Qed.

Lemma anthropic_cache_ok m c : counts_ok "anthropic" c -> counts_ok "anthropic" (anthropic_cache m c).
Proof.
  intros (?&?&?&?&?&?&_). unfold anthropic_cache. destruct (as_object _); repeat split; simpl; auto with counts; done.
Qed.

Lemma gemini_cache_ok i m c : counts_ok "gemini" c -> counts_ok "gemini" (gemini_cache i m c).
Proof.
  intros H. unfold gemini_cache.
  set (c' := match lookup_field m _ with Some _ => _ | None => c end).
  assert (H' : counts_ok "gemini" c').
  { unfold c'. destruct (lookup_field m _) as [raw|]; [|done]. pose proof (integer_ok raw).
    destruct (integer raw); apply set_read_ok; auto. by destruct (counts_fields _ _ H) as (_&_&?). }
  clearbody c'. destruct i; [|done]. pose proof (integer_ok (field m "total_tokens")) as T.
  destruct (integer (field m "total_tokens")) as [total|]; [|by apply set_invalid_ok].
  destruct (counts_fields _ _ H') as (I&O&_).
  destruct (ct_input c') as [input|]; [|by apply set_invalid_ok]. destruct (ct_output c') as [output|]; [|by apply set_invalid_ok].
  destruct ((total <? input) || (total - input <? output)) eqn:E; [by apply set_invalid_ok|].
  apply set_tokens_ok; simpl in *; [done|lia|lia].
Qed.

Lemma setCacheRead_ok raw st : count_ok (fst st) -> count_ok (fst (setCacheRead raw st)).
Proof.
  unfold setCacheRead. pose proof (integer_ok raw). destruct (integer raw), st as [[old|] b]; simpl; try done.
  by destruct (old =? z).
Qed.

Lemma cached_details_ok m st name : count_ok (fst st) -> count_ok (fst (cached_details m st name)).
Proof.
  intros H. unfold cached_details. destruct (lookup_field m name) as [[]|]; simpl; auto.
  destruct (lookup_field _ "cached_tokens"); auto. by apply setCacheRead_ok.
Qed.

Lemma openai_cache_ok d name m c : counts_ok d c -> counts_ok d (openai_cache name m c).
Proof.
  intros H. unfold openai_cache.
  set (st := match lookup_field m "prompt_cache_hit_tokens" with Some _ => _ | None => _ end).
  assert (Hst : count_ok (fst st)).
  { unfold st. cbn [fold_left]. destruct (lookup_field m "prompt_cache_hit_tokens"); [apply setCacheRead_ok|];
      by do 2 apply cached_details_ok. }
  clearbody st. destruct st as [read inv]. simpl in Hst. destruct (counts_fields _ _ H) as (_&_&R).
  assert (F : forall read' b, count_ok read' -> counts_ok d (set_read (match read' with Some n => Some n | None => ct_read c end) b c)).
  { intros [r|] b Hr; apply set_read_ok; done. }
  destruct (lookup_field m "prompt_cache_miss_tokens") as [miss|]; [|by apply F].
  pose proof (integer_ok miss) as M. destruct (integer miss) as [miss'|]; [|by apply F].
  pose proof (integer_ok (field m name)) as N. destruct (integer (field m name)) as [current|]; [|by apply F].
  destruct (current <? miss') eqn:E; [by apply F|]. destruct read as [read|]; [by apply (F (Some read))|].
  apply (F (Some _)). simpl in *. lia.
Qed.

Lemma count_only_ok d v c : counts_ok d c -> counts_ok d (count_only d v c).
Proof.
  intros H. unfold count_only.
  assert (F : forall name, counts_ok d (match integer (field v name) with Some n => set_tokens (Some n) (Some 0) c | None => c end)).
  { intros name. pose proof (integer_ok (field v name)). destruct (integer _); [|done]. by apply set_tokens_ok. }
  destruct (d =s "anthropic"), (d =s "gemini"); auto.
Qed.

Lemma count_object_ok d c v : counts_ok d c -> counts_ok d (count_object d c v).
Proof.
  intros H. unfold count_object. destruct (usage_object d v) as [[m|] inter]; [|by apply count_only_ok].
  destruct (usage_names d inter m) as [i o]. destruct (counts_fields _ _ H) as (I&O&_).
  set (c' := set_tokens _ _ c). assert (H' : counts_ok d c') by (apply set_tokens_ok; auto with counts). clearbody c'.
  destruct (String.eqb_spec d "anthropic") as [->|]; [by apply anthropic_cache_ok|].
  destruct (String.eqb_spec d "gemini") as [->|]; [by apply gemini_cache_ok|]. by apply openai_cache_ok.
Qed.

Lemma fold_left_ok {A B} (P : A -> Prop) (f : A -> B -> A) l a : P a -> (forall a b, P a -> P (f a b)) -> P (fold_left f l a).
Proof. intros H F. revert a H. induction l; simpl; auto. Qed.

Lemma output_of_total_ok d l c : counts_ok d c -> counts_ok d (output_of_total d l c).
Proof.
  intros H. unfold output_of_total. destruct (ct_input c) as [input|] eqn:Ei; [|done]. destruct (ct_output c); [done|].
  destruct (d =s "openai"); [|done].
  assert (0 <= input) by (destruct (counts_fields _ _ H) as (I&_); rewrite Ei in I; simpl in I; lia).
  apply fold_left_ok; [done|]. intros c' v H'. pose proof (integer_ok (field (objectMap (field v "usage")) "total_tokens")) as T.
  destruct (integer _) as [total|]; [|done]. destruct (input <=? total) eqn:E; [|done].
  apply set_tokens_ok; [done| |simpl in *; lia]. by destruct (counts_fields _ _ H').
Qed.

(** What [Settle] asks of a usage report. *)
Record reportable (u : parsedUsage) : Prop := {
  rp_both : pu_Input u = None <-> pu_Output u = None;
  rp_safe : Forall count_ok [pu_Input u; pu_Output u; pu_CacheCreation u; pu_CacheRead u; pu_Cache5m u; pu_Cache1h u];
  rp_cache : match pu_Input u with
             | Some input => default 0 (pu_CacheCreation u) + default 0 (pu_CacheRead u) <= input
             | None => pu_CacheCreation u = None /\ pu_CacheRead u = None
             end;
  rp_details : pu_Cache5m u = None /\ pu_Cache1h u = None
               \/ pu_CacheCreation u = Some (default 0 (pu_Cache5m u) + default 0 (pu_Cache1h u)) }.

Lemma no_usage_reportable : reportable no_parsed_usage.
Proof. split; simpl; try done; [repeat constructor|by left]. Qed.

Lemma anthropic_input_ok c input input' :
  counts_ok "anthropic" c -> 0 <= input <= maxSafeInteger -> anthropic_input c input = Some input' ->
  input' = input + default 0 (ct_creation c) + default 0 (ct_read c) /\ input' <= maxSafeInteger
  /\ (ct_5m c = None /\ ct_1h c = None \/ ct_creation c = Some (default 0 (ct_5m c) + default 0 (ct_1h c))).
Proof.
  intros (_&_&C&R&F&O&_) Hi. unfold anthropic_input.
  destruct (ct_creation c), (ct_read c), (ct_5m c), (ct_1h c); simpl in *;
    repeat (case_match; [discriminate|]); intros [= <-]; repeat split; try lia; auto; right; f_equal; lia.
Qed.

Lemma parseUsageDetails_reportable (dialect raw : string) : reportable (parseUsageDetails dialect raw).
Proof.
  unfold parseUsageDetails. set (c := output_of_total _ _ _).
  assert (H : counts_ok dialect c).
  { apply output_of_total_ok, fold_left_ok; [by repeat split|]. intros. by apply count_object_ok. }
  clearbody c. unfold usage_result. pose proof H as (I&O&C&R&F&E&N).
  destruct (ct_input c) as [input|]; [|apply no_usage_reportable]. destruct (ct_output c) as [output|]; [|apply no_usage_reportable].
  destruct (ct_invalidCache c || ct_invalidUsage c || _) eqn:G; [apply no_usage_reportable|].
  destruct (String.eqb_spec dialect "anthropic") as [->|Hd].
  - destruct (anthropic_input c input) as [input'|] eqn:A; [|apply no_usage_reportable].
    destruct (anthropic_input_ok _ _ _ H I A) as (E1&E2&E3). simpl in I, O.
    split; simpl; [done| |lia|done].
    repeat constructor; simpl; auto; try lia.
    destruct (ct_creation c), (ct_read c); simpl in *; lia.
  - destruct (N Hd) as (Nc&N5&N1). split; simpl; rewrite ?Nc, ?N5, ?N1; [done| | |by left].
    + simpl in I, O. repeat constructor; simpl; auto; lia.
    + simpl in G. destruct (ct_read c); simpl in *; lia.
Qed.

(** * Tool metadata *)

(** A count and a status [Settle] takes together. *)
Definition tools_agree (calls : Z) (status : string) : Prop :=
  0 <= calls /\ (calls = 0 /\ status = "none" \/ 0 < calls /\ (status = "completed" \/ status = "incomplete")).

(** A response object carries the gateway's own tool count only with the
    status that belongs to it. *)
Definition honest_metadata (v : object) : Prop :=
  forall n, integer (field v "_gateway_tool_call_count") = Some n ->
    tools_agree n (stringValue (field v "_gateway_tool_call_status")).

Lemma tool_loop_agrees dialect raw objects keys completed :
  Forall honest_metadata objects ->
  tools_agree (tool_loop dialect raw objects keys completed).1 (tool_loop dialect raw objects keys completed).2.
Proof.
  intros H. revert keys completed. induction H as [|v objects Hv _ IH]; intros keys completed; simpl.
  - unfold tools_agree. destruct (Z.of_nat (length (remove_dups keys)) =? 0) eqn:E; simpl; [auto with lia|].
    destruct completed; simpl; (split; [lia|right]); auto with lia.
  - destruct (integer _) as [n|] eqn:E; [by apply Hv|]. destruct (dialect_calls dialect raw v). apply IH.
Qed.

Lemma parseToolMetadata_agrees dialect raw calls status :
  Forall honest_metadata (well_decoded raw) -> parseToolMetadata dialect raw = Some (calls, status) -> tools_agree calls status.
Proof.
  intros H. unfold parseToolMetadata. case_match; [done|]. intros [= E].
  pose proof (tool_loop_agrees dialect raw _ [] (starts_object (TrimSpace raw)) H) as T. by rewrite E in T.
Qed.

(** A body of white space only makes [parseToolMetadata] index an empty slice. *)
Lemma blank_body_panics dialect : parseToolMetadata dialect (String newline "") = None.
Proof. reflexivity. Qed.

(** * Streams *)

(** The frame of one event, as providers send it. *)
Definition crlf_free (c : ascii) : bool := negb (Ascii.eqb c newline) && negb (Ascii.eqb c (ascii_of_nat 13)).
Definition sse_frame (payload : string) : string :=
  "data: " +:+ payload +:+ String newline (String newline "").
Definition sse_stream (payloads : list string) : string := fold_right (fun p s => sse_frame p +:+ s) "" payloads.

(** A payload a provider can put into a frame: an object on one line, within
    the scanner's buffer. *)
Definition sse_payload (p : string) : Prop :=
  (exists body, p = "{" +:+ body +:+ "}") /\ str_forall crlf_free p = true /\ str_len p + 6 <= maxInferenceBody.

Lemma trim_with_skipn f fuel l : exists k, trim_with f fuel l = skipn k l.
Proof.
  revert l. induction fuel as [|fuel IH]; intros l; simpl; [by exists 0%nat|]. destruct (f l) as [n|]; [|by exists 0%nat].
  destruct (IH (skipn n l)) as [k E]. exists (n + k)%nat. by rewrite E, skipn_skipn, Nat.add_comm.
Qed.

Lemma bytes_app (a b : string) : bytes (a +:+ b) = (bytes a ++ bytes b)%list.
Proof. unfold bytes. induction a as [|c a IH]; [done|]. simpl. by f_equal. Qed.

(** A text that starts with a printable byte keeps it, or is trimmed away. *)
Lemma TrimSpace_head (c : ascii) (s : string) :
  plain_byte c = true -> TrimSpace (String c s) = "" \/ exists t, TrimSpace (String c s) = String c t.
Proof.
  intros Hc. unfold TrimSpace. unfold plain_byte in Hc.
  rewrite (trim_with_none leading_space) by (apply leading_space_plain; lia).
  destruct (trim_with_skipn trailing_space (String.length (String c s)) (rev (bytes (String c s)))) as [k ->].
  rewrite skipn_rev, rev_involutive. destruct (length (bytes (String c s)) - k)%nat as [|m]; [by left|right].
  cbn. unfold byte_of at 1. rewrite Nat2Z.id, ascii_nat_embedding. by eexists.
Qed.

(** Spaces around a text with printable ends are all that is trimmed. *)
Lemma TrimSpace_ends (a b : ascii) (s : string) :
  plain_byte a = true -> plain_byte b = true ->
  TrimSpace (String a (s +:+ String b "")) = String a (s +:+ String b "")
  /\ TrimSpace (" " +:+ String a (s +:+ String b "")) = String a (s +:+ String b "").
Proof.
  intros Ha Hb. unfold plain_byte in Ha, Hb.
  assert (E : bytes (String a (s +:+ String b "")) = byte_of a :: bytes s ++ [byte_of b]).
  { unfold bytes. simpl. f_equal. by apply (bytes_app s (String b "")). }
  assert (T : forall fuel, of_bytes (rev (trim_with trailing_space fuel (rev (bytes (String a (s +:+ String b "")))))) = String a (s +:+ String b "")).
  { intros fuel. rewrite trim_with_none; [by rewrite rev_involutive, of_bytes_bytes|].
    rewrite E. simpl. rewrite rev_app_distr. apply trailing_space_plain. lia. }
  split; unfold TrimSpace.
  - rewrite (trim_with_none leading_space); [apply T|]. rewrite E. apply leading_space_plain. lia.
  - set (t := String a _) in *. change (bytes (" " +:+ t)) with (32 :: bytes t). change (String.length (" " +:+ t)) with (S (String.length t)).
    cbn [trim_with]. change (leading_space (32 :: bytes t)) with (Some 1%nat). cbn [skipn].
    rewrite (trim_with_none leading_space); [apply (T (S (String.length t)))|]. rewrite E. apply leading_space_plain. lia.
Qed.

Lemma take_bytes_all s : take_bytes (String.length s) s = s.
Proof. induction s; simpl; congruence. Qed.

Lemma drop_bytes_forall p n s : str_forall p s = true -> str_forall p (drop_bytes n s) = true.
Proof. revert s. induction n; intros [|c s] H; simpl in *; auto. apply IHn. by apply andb_true_iff in H as [_ ?]. Qed.

Lemma drop_cr_free s : str_forall crlf_free s = true -> drop_cr s = s.
Proof.
  intros H. unfold drop_cr, TrimSuffix. destruct (HasSuffix s _) eqn:E; [|done]. exfalso.
  unfold HasSuffix in E. apply andb_true_iff in E as [_ E%String.eqb_eq].
  apply (drop_bytes_forall _ (String.length s - String.length (String (ascii_of_nat 13) ""))) in H. by rewrite E in H.
Qed.

(** The frames of a stream are its lines two by two. *)
Definition frame_lines (p : string) : list string := ["data: " +:+ p; ""].

Lemma sse_payload_line p : sse_payload p ->
  str_forall (fun c => negb (Ascii.eqb c newline)) ("data: " +:+ p) = true /\ drop_cr ("data: " +:+ p) = "data: " +:+ p
  /\ str_len ("data: " +:+ p) <= maxInferenceBody.
Proof.
  intros (_ & F & L). assert (F' : str_forall crlf_free ("data: " +:+ p) = true) by done. repeat split.
  - clear -F'. revert F'. generalize ("data: " +:+ p). induction s as [|c s IH]; simpl; [done|].
    intros [[H _]%andb_true_iff Hs]%andb_true_iff. rewrite H. by apply IH.
  - by apply drop_cr_free.
  - unfold str_len in *. rewrite str_length_app. change (String.length "data: ") with 6%nat. lia.
Qed.

Lemma Split_stream ps : Forall sse_payload ps -> Split (sse_stream ps) newline = (flat_map frame_lines ps ++ [""])%list.
Proof.
  induction 1 as [|p ps Hp _ IH]; [done|]. destruct (sse_payload_line p Hp) as (Hn & _ & _).
  cbn [sse_stream fold_right flat_map]. unfold sse_frame at 1. rewrite !str_app_assoc, <- (str_app_assoc "data: ").
  change (String newline (String newline "") +:+ ?t) with (String newline (String newline t)).
  rewrite (Split_cut ("data: " +:+ p)) by done. cbn [Split]. rewrite Ascii.eqb_refl. change (foldr _ "" ps) with (sse_stream ps).
  by rewrite IH.
Qed.

Lemma scan_lines_stream ps : Forall sse_payload ps -> scan_lines (sse_stream ps) = flat_map frame_lines ps.
Proof.
  intros H. unfold scan_lines. rewrite (Split_stream ps H), last_snoc, removelast_last.
  induction H as [|p ps Hp _ IH]; [done|]. destruct (sse_payload_line p Hp) as (_ & Hc & Hl).
  cbn [flat_map frame_lines app fitting]. apply Z.leb_le in Hl. rewrite Hl. simpl. by rewrite Hc, IH.
Qed.

Lemma scan_frame st p : sse_payload p -> sse_data st = "" -> sse_full st = false ->
  Z.of_nat (length (sse_objects st)) < maxConversationStreamFrames ->
  fold_left scan_line (frame_lines p) st = mkSse "" (sse_objects st ++ [p]) false.
Proof.
  intros ((body & E) & _ & _) Hd Hf Hl. destruct st as [d objs full]. simpl in Hd, Hf, Hl. subst d full.
  assert (T : TrimSpace (" " +:+ p) = p /\ TrimSpace p = p /\ (p =s "") = false /\ (p =s "[DONE]") = false).
  { rewrite E. repeat split; by apply (TrimSpace_ends "{"%char "}"%char body). }
  clear E. destruct T as (T1 & T2 & N1 & N2). cbn [fold_left frame_lines].
  replace (scan_line (mkSse "" objs false) ("data: " +:+ p)) with (mkSse p objs false).
  - unfold scan_line, flush. cbn [sse_full sse_data sse_objects]. rewrite T2, N1, N2. cbn. by replace (_ <=? _) with false by lia.
  - unfold scan_line. cbn [sse_full sse_data sse_objects].
    change (HasPrefix ("data: " +:+ p) "data:") with true. change (TrimPrefix ("data: " +:+ p) "data:") with (" " +:+ p).
    rewrite T1. by autorewrite with gw.
Qed.

(** C13: reading a stream gives back the objects the provider sent in it, in
    order, as long as there are at most [maxConversationStreamFrames] of them. *)
Theorem responseObjects_stream (payloads : list string) :
  Forall sse_payload payloads -> Z.of_nat (length payloads) <= maxConversationStreamFrames ->
  responseObjects (sse_stream payloads) = payloads.
Proof.
  intros H Hn. unfold responseObjects.
  assert (starts_object (TrimSpace (sse_stream payloads)) = false) as ->.
  { destruct payloads as [|p ps]; [done|].
    set (rest := ("ata: " +:+ p +:+ String newline (String newline "")) +:+ sse_stream ps).
    change (sse_stream (p :: ps)) with (String "d" rest). by destruct (TrimSpace_head "d"%char rest eq_refl) as [E|[t E]]; rewrite E. }
  rewrite scan_lines_stream by done.
  assert (L : forall ps st, Forall sse_payload ps -> sse_data st = "" -> sse_full st = false ->
    Z.of_nat (length (sse_objects st) + length ps) <= maxConversationStreamFrames ->
    fold_left scan_line (flat_map frame_lines ps) st = mkSse "" (sse_objects st ++ ps) false).
  { intros ps st Hps. revert st. induction Hps as [|p ps Hp _ IH]; intros st Hd Hf Hl.
    - destruct st; simpl in *. by rewrite app_nil_r, Hd, Hf.
    - cbn [flat_map]. rewrite fold_left_app, scan_frame by (done || (simpl in Hl; lia)).
      rewrite IH; simpl; rewrite ?length_app; simpl in *; try done; [by rewrite <- app_assoc|lia]. }
  rewrite L by done. done.
Qed.
