(* ===== verification/Marshal.v ===== *)
(** [json.Marshal] of the values the code builds ([encoding/json]): maps in
    the order of their names, arrays, texts, integers and [float64], which is
    written with the fewest digits that read back as the same float. *)
From S2P Require Import Prelude GoStd Money Counters Policy Json Decode.
Open Scope string_scope.
Open Scope Z_scope.

(** * Values *)

(** [any] as the code builds it: beside the decoder's values, integers. *)
Inductive any :=
| ANull | ABool (b : bool) | AFloat (f : float) | AInt (z : Z) | AString (s : string)
| AArray (l : list any) | AObject (m : list (string * any)).

(** A value of the decoder inside a value to encode. *)
Fixpoint any_of (v : value) : any :=
  match v with
  | VNull => ANull | VBool b => ABool b | VNumber f => AFloat f | VString s => AString s
  | VArray l => AArray (map any_of l)
  | VObject m => AObject (map (fun kv => (fst kv, any_of (snd kv))) m)
  end.

(** * Floats

    [strconv.AppendFloat(f, format, -1, 64)]. *)

(** The absolute value as a fraction. *)
Definition fraction (f : float) : Z * Z :=
  let m := Z.abs (fl_mantissa f) in
  if 0 <=? fl_exponent f then (m * 2 ^ fl_exponent f, 1) else (m, 2 ^ (- fl_exponent f)).
(** The float [1e-6]. *)
Definition millionth : float := default (mkFloat 0 0) (nearest_float 1 1000000).
Definition abs_below (f : float) (p q : Z) : bool := let (a, b) := fraction f in a * q <? p * b.

(** The number of digits before the decimal point of a positive fraction,
    negative for the zeros after it. *)
Definition decimal_point (p q : Z) : Z :=
  let k := (Z.log2 p - Z.log2 q) * 30103 / 100000 in
  default k (head (List.filter (fun k => if 0 <=? k then p <? q * 10 ^ k else p * 10 ^ (- k) <? q) (map (fun i => k - 2 + i) [0; 1; 2; 3; 4; 5]))).

Fixpoint strip_zeros (fuel : nat) (digits scale : Z) : Z * Z :=
  match fuel with
  | O => (digits, scale)
  | S fuel => if digits mod 10 =? 0 then strip_zeros fuel (digits / 10) (scale + 1) else (digits, scale)
  end.

Definition reads_back (f : float) (d : Z * Z) : bool :=
  match float_of (mkDecimal false (fst d) (snd d) "") with
  | Some g => (fl_mantissa g =? Z.abs (fl_mantissa f)) && (fl_exponent g =? fl_exponent f)
  | None => false
  end.

(** The decimals of [n] digits next to the float: the nearer one that reads
    back as the float, if any does. *)
Definition try_digits (f : float) (n : Z) : option (Z * Z) :=
  let (p, q) := fraction f in let k := decimal_point p q in
  let p' := if 0 <=? n - k then p * 10 ^ (n - k) else p in
  let q' := if 0 <=? n - k then q else q * 10 ^ (k - n) in
  let low := p' / q' in let r := p' mod q' in
  let down := strip_zeros 20 low (k - n) in let up := strip_zeros 20 (low + 1) (k - n) in
  let near := if (2 * r <? q') || (2 * r =? q') && Z.even low then [down; up] else [up; down] in
  head (List.filter (fun d => (0 <? fst d) && reads_back f d) near).

(** The fewest digits that read back, and their scale. *)
Definition shortest (f : float) : option (Z * Z) := head (omap (try_digits f) (map Z.of_nat (seq 1 17))).

Definition digits_of (n : Z) : string := FormatUint n.
Definition zeros (n : Z) : string := repeat_byte "0"%char (Z.to_nat n).

(** [%f] with all digits, and [%e] with at least two exponent digits, of which
    [json.Marshal] drops a leading zero after a minus sign. *)
Definition plain_decimal (digits scale : Z) : string :=
  let ds := digits_of digits in let dp := str_len ds + scale in
  if 0 <=? scale then ds +:+ zeros scale
  else if 0 <? dp then take_bytes (Z.to_nat dp) ds +:+ "." +:+ drop_bytes (Z.to_nat dp) ds
  else "0." +:+ zeros (- dp) +:+ ds.
Definition scientific (digits scale : Z) : string :=
  let ds := digits_of digits in let e := str_len ds + scale - 1 in
  take_bytes 1 ds +:+ (if str_len ds =? 1 then "" else "." +:+ drop_bytes 1 ds)
  +:+ (if e <? 0 then "e-" else "e+") +:+ FormatInt (Z.abs e).

Definition json_float (f : float) : string :=
  let neg := (fl_mantissa f <? 0) || (fl_mantissa f =? 0) && (fl_exponent f <? 0) in
  (if neg then "-" else "") +:+
  (if fl_mantissa f =? 0 then "0"
   else match shortest f with
        | None => ""
        | Some (digits, scale) =>
          if abs_below f (fst (fraction millionth)) (snd (fraction millionth)) || negb (abs_below f (10 ^ 21) 1)
          then scientific digits scale else plain_decimal digits scale
        end).

(** * Text *)

(** The members of a map in the order of their names, the last of repeated
    ones. *)
Definition name_before {A} (x y : string * A) : bool := String.ltb (fst x) (fst y).
Definition sorted_members {A} (m : list (string * A)) : list (string * A) := SliceStable name_before m.
Fixpoint last_of_each {A} (m : list (string * A)) : list (string * A) :=
  match m with
  | [] => []
  | kv :: m => if existsb (fun kv' => fst kv' =s fst kv) m then last_of_each m else kv :: last_of_each m
  end.

Fixpoint joined_by (sep : string) (l : list string) : string :=
  match l with [] => "" | [x] => x | x :: l => x +:+ sep +:+ joined_by sep l end.

(** [json.Marshal]: none of the values makes it fail. *)
Fixpoint marshal (v : any) : string :=
  match v with
  | ANull => "null"
  | ABool b => if b then "true" else "false"
  | AFloat f => json_float f
  | AInt z => FormatInt z
  | AString s => json_string s
  | AArray l => "[" +:+ joined_by "," (map marshal l) +:+ "]"
  | AObject m =>
    "{" +:+ joined_by "," (map (fun kv => json_string (fst kv) +:+ ":" +:+ snd kv) (sorted_members (last_of_each (map (fun kv => (fst kv, marshal (snd kv))) m)))) +:+ "}"
  end.

(** [json.Unmarshal(text, &v)] into an [any]: [None] is its error. *)
Definition UnmarshalAny (text : string) : option value :=
  if json_valid text then
    let '(v, ok, _) := decode_value (S (String.length text)) true text in if ok then Some v else None
  else None.
