(* ===== verification/Printing.v ===== *)
(** What [json.Marshal] prints, [json.Unmarshal] reads back: strings, numbers,
    arrays and maps, through the scanner of [json.Valid] and the decoder. *)
From S2P Require Import Prelude GoStd Money Counters Policy Json Decode Marshal.
Open Scope string_scope.
Open Scope Z_scope.
Open Scope list_scope.

(** * Runes *)

(** A UTF-8 sequence: the bytes of one rune. *)
Definition rune (piece : string) : Prop :=
  exists r, DecodeRuneInString piece = (r, String.length piece) /\ piece <> "" /\ negb ((r =? RuneError) && (String.length piece =? 1)%nat) = true.

(** Text in UTF-8. *)
Inductive utf8 : string -> Prop :=
| utf8_nil : utf8 ""
| utf8_rune piece s : rune piece -> utf8 s -> utf8 (piece +:+ s).

Definition follows_ok (b lo hi : Z) : Prop := lo <= b <= hi.

(** The four shapes of a rune. *)
Inductive rune_shape : string -> Z -> Prop :=
| rune_ascii c : byte_of c < 128 -> rune_shape (String c "") (byte_of c)
| rune_two c d : 194 <= byte_of c <= 223 -> 128 <= byte_of d <= 191 ->
    rune_shape (String c (String d "")) (byte_of c mod 32 * 64 + byte_of d mod 64)
| rune_three c d e : 224 <= byte_of c <= 239 ->
    (if byte_of c =? 224 then 160 else 128) <= byte_of d <= (if byte_of c =? 237 then 159 else 191) -> 128 <= byte_of e <= 191 ->
    rune_shape (String c (String d (String e ""))) (byte_of c mod 16 * 4096 + byte_of d mod 64 * 64 + byte_of e mod 64)
| rune_four c d e f : 240 <= byte_of c <= 244 ->
    (if byte_of c =? 240 then 144 else 128) <= byte_of d <= (if byte_of c =? 244 then 143 else 191) -> 128 <= byte_of e <= 191 -> 128 <= byte_of f <= 191 ->
    rune_shape (String c (String d (String e (String f ""))))
      (byte_of c mod 8 * 262144 + byte_of d mod 64 * 4096 + byte_of e mod 64 * 64 + byte_of f mod 64).

Lemma byte_range c : 0 <= byte_of c <= 255.
Proof. unfold byte_of. pose proof (nat_ascii_bounded c). lia. Qed.

Lemma in_range_spec b lo hi : in_range b lo hi = true <-> lo <= b <= hi.
Proof. unfold in_range. lia. Qed.

(** Decoding a text that begins with a rune. *)
Lemma shape_decodes piece r t : rune_shape piece r -> DecodeRuneInString (piece +:+ t) = (r, String.length piece).
Proof.
  intros H. destruct H as [c Hc|c d Hc Hd|c d e Hc Hd He|c d e f Hc Hd He Hf]; autorewrite with gw; unfold DecodeRuneInString, byte_at; cbn [String.get String.length].
  - by rewrite (proj2 (Z.ltb_lt _ _) Hc).
  - rewrite (proj2 (Z.ltb_ge (byte_of c) 128)), (proj2 (in_range_spec (byte_of c) 194 223)), (proj2 (in_range_spec (byte_of d) 128 191)) by lia. done.
  - rewrite (proj2 (Z.ltb_ge (byte_of c) 128)) by lia. replace (in_range (byte_of c) 194 223) with false by (unfold in_range; lia).
    rewrite (proj2 (in_range_spec (byte_of c) 224 239)), (proj2 (in_range_spec (byte_of e) 128 191)), (proj2 (in_range_spec (byte_of d) _ _)) by lia. done.
  - rewrite (proj2 (Z.ltb_ge (byte_of c) 128)) by lia. replace (in_range (byte_of c) 194 223) with false by (unfold in_range; lia).
    replace (in_range (byte_of c) 224 239) with false by (unfold in_range; lia).
    rewrite (proj2 (in_range_spec (byte_of c) 240 244)), (proj2 (in_range_spec (byte_of e) 128 191)), (proj2 (in_range_spec (byte_of f) 128 191)), (proj2 (in_range_spec (byte_of d) _ _)) by lia. done.
Qed.

Lemma shape_is_rune piece r : rune_shape piece r -> rune piece.
Proof.
  intros H. exists r. pose proof (shape_decodes piece r "" H) as E. rewrite str_app_nil_r in E. split; [done|].
  destruct H as [c Hc|c d|c d e|c d e f]; (split; [done|]); apply negb_true_iff, andb_false_iff; first [by right|left; unfold RuneError; lia].
Qed.

Lemma rune_has_shape piece : rune piece -> exists r, rune_shape piece r.
Proof.
  intros (r & E & Hne & Hr). destruct piece as [|c s]; [done|]. cbn [String.length] in E, Hr. unfold DecodeRuneInString in E.
  destruct (byte_of c <? 128) eqn:E1; [injection E as _ E; destruct s; [|done]; exists (byte_of c); constructor; lia|].
  assert (Hbad : (RuneError, 1%nat) = (r, S (String.length s)) -> False) by (intros [= <- Es]; rewrite <- Es in Hr; done).
  destruct (in_range (byte_of c) 194 223) eqn:E2; [|destruct (in_range (byte_of c) 224 239) eqn:E3; [|destruct (in_range (byte_of c) 240 244) eqn:E4; [|by apply Hbad in E]]].
  - destruct (in_range (byte_at 1 _) 128 191) eqn:F; [|by apply Hbad in E]. injection E as _ E. destruct s as [|d [|]]; try done.
    apply in_range_spec in E2, F. eexists. by constructor.
  - match type of E with (if ?b then _ else _) = _ => destruct b eqn:F end; [|by apply Hbad in E]. injection E as _ E.
    destruct s as [|d [|e [|]]]; try done. apply andb_true_iff in F as [F1 F2]. apply in_range_spec in E3, F1, F2. eexists. by constructor.
  - match type of E with (if ?b then _ else _) = _ => destruct b eqn:F end; [|by apply Hbad in E]. injection E as _ E.
    destruct s as [|d [|e [|f [|]]]]; try done. rewrite !andb_true_iff in F. destruct F as [[F1 F2] F3]. apply in_range_spec in E4, F1, F2, F3. eexists. by constructor.
Qed.

(** ** Strings *)

(** One piece of a literal: an escape or a rune. *)
Definition next_piece (s : string) : string * string :=
  if HasPrefix s (String backslash "") then unescape s
  else let '(r, w) := DecodeRuneInString s in
       (if (r =? RuneError) && (w =? 1)%nat then encode_rune RuneError else take_bytes w s, drop_bytes w s).

Lemma unquote_step fuel c s : Ascii.eqb c quote_char = false ->
  unquote (S fuel) (String c s) = let '(piece, rest) := next_piece (String c s) in let '(tail, rest) := unquote fuel rest in (piece +:+ tail, rest).
Proof. intros H. cbn [unquote]. rewrite H. unfold next_piece. rewrite HasPrefix_byte. by destruct (Ascii.eqb c backslash). Qed.

Definition simple_escape (c : ascii) : ascii :=
  let b := byte_of c in
  if b =? 98 then chr 8 else if b =? 102 then chr 12 else if b =? 110 then chr 10 else if b =? 114 then chr 13 else if b =? 116 then chr 9 else c.

Lemma unescape_simple x t : Ascii.eqb x "u"%char = false -> unescape (String backslash (String x t)) = (String (simple_escape x) "", t).
Proof.
  intros H. unfold unescape. assert (getu4 (String backslash (String x t)) = None) as ->; [|done].
  unfold getu4. do 4 (destruct t as [|? t]; [done|]). by rewrite H, andb_false_r.
Qed.

Lemma unescape_unicode a b c d t : forallb (fun h => is_hex (byte_of h)) [a; b; c; d] = true ->
  surrogate (((hex_val a * 16 + hex_val b) * 16 + hex_val c) * 16 + hex_val d) = false ->
  unescape (String backslash (String "u"%char (String a (String b (String c (String d t)))))) =
  (encode_rune (((hex_val a * 16 + hex_val b) * 16 + hex_val c) * 16 + hex_val d), t).
Proof. intros H Hs. unfold unescape, getu4. rewrite H, !Ascii.eqb_refl. cbn [andb]. by rewrite Hs. Qed.

(** How a byte below 128 is written. *)
Inductive written (c : ascii) : string -> Prop :=
| written_plain : Ascii.eqb c quote_char = false -> Ascii.eqb c backslash = false -> (byte_of c <? 32) = false -> written c (String c "")
| written_escape x : Ascii.eqb x "u"%char = false -> simple_escape x = c -> contains ["b"; "f"; "n"; "r"; "t"; String backslash ""; "/"; String quote_char ""] (String x "") = true ->
    written c (String backslash (String x ""))
| written_unicode a b : forallb (fun h => is_hex (byte_of h)) [a; b] = true -> encode_rune (hex_val a * 16 + hex_val b) = String c "" ->
    surrogate (hex_val a * 16 + hex_val b) = false ->
    written c (String backslash (String "u"%char (String "0"%char (String "0"%char (String a (String b "")))))).

Lemma json_ascii_written c : byte_of c < 128 -> written c (json_ascii c).
Proof.
  intros H. destruct c as [[] [] [] [] [] [] [] []]; try (vm_compute in H; discriminate H);
    match goal with |- written _ ?x => let v := eval vm_compute in x in change x with v end;
    first [apply written_plain; reflexivity|apply written_escape; reflexivity|apply written_unicode; reflexivity].
Qed.

Lemma json_ascii_piece c t : byte_of c < 128 -> next_piece (json_ascii c +:+ t) = (String c "", t).
Proof.
  intros H. destruct (json_ascii_written c H) as [_ Hb _|x Hx Hs _|a b Hh He Hs]; autorewrite with gw; unfold next_piece; rewrite HasPrefix_byte.
  - rewrite Hb. pose proof (shape_decodes _ _ t (rune_ascii c H)) as E. autorewrite with gw in E. rewrite E.
    replace (byte_of c =? RuneError) with false by (symmetry; apply Z.eqb_neq; unfold RuneError; lia). done.
  - rewrite Ascii.eqb_refl, unescape_simple by done. by rewrite Hs.
  - rewrite Ascii.eqb_refl, unescape_unicode; [|done|done]. f_equal. exact He.
Qed.

Lemma json_ascii_first c : byte_of c < 128 -> exists d s, json_ascii c = String d s /\ Ascii.eqb d quote_char = false.
Proof. intros H. destruct (json_ascii_written c H); eauto. Qed.

(** Inside a literal the scanner stays there. *)
Definition stays_in_string (lit : string) : Prop :=
  forall stack t, scan_string (mkScanner InString stack false) (lit +:+ t) = scan_string (mkScanner InString stack false) t.

Lemma stays_app a b : stays_in_string a -> stays_in_string b -> stays_in_string (a +:+ b).
Proof. intros Ha Hb stack t. by rewrite str_app_assoc, Ha, Hb. Qed.

Lemma byte_of_eqb c d : byte_of c = byte_of d <-> c = d.
Proof.
  split; [|by intros ->]. unfold byte_of. intros H. apply Nat2Z.inj in H. rewrite <- (ascii_nat_embedding c), <- (ascii_nat_embedding d). by rewrite H.
Qed.

Lemma stays_plain c : Ascii.eqb c quote_char = false -> Ascii.eqb c backslash = false -> (byte_of c <? 32) = false -> stays_in_string (String c "").
Proof.
  intros Hq Hb Hc stack t. autorewrite with gw. cbn [scan_string]. f_equal. unfold scan_byte. cbn [sn_step sn_stack].
  assert (byte_of c =? 34 = false) as -> by (apply Z.eqb_neq; intros E; change 34 with (byte_of quote_char) in E; by apply byte_of_eqb in E as ->).
  assert (byte_of c =? 92 = false) as -> by (apply Z.eqb_neq; intros E; change 92 with (byte_of backslash) in E; by apply byte_of_eqb in E as ->).
  by rewrite Hc.
Qed.

Lemma stays_high c : 128 <= byte_of c -> stays_in_string (String c "").
Proof.
  intros H. apply stays_plain; [apply Ascii.eqb_neq; intros ->; by vm_compute in H..|lia].
Qed.

Lemma scan_escape stack : scan_byte (mkScanner InString stack false) backslash = mkScanner InStringEsc stack false.
Proof. reflexivity. Qed.
Lemma scan_escaped stack x : contains ["b"; "f"; "n"; "r"; "t"; String backslash ""; "/"; String quote_char ""] (String x "") = true ->
  scan_byte (mkScanner InStringEsc stack false) x = mkScanner InString stack false.
Proof.
  intros Hx. unfold contains in Hx. apply existsb_exists in Hx as (y & Hy & E). apply String.eqb_eq in E. subst y.
  cbn [In] in Hy. destruct Hy as [E|[E|[E|[E|[E|[E|[E|[E|[]]]]]]]]]; injection E as <-; reflexivity.
Qed.
Lemma scan_unicode stack : scan_byte (mkScanner InStringEsc stack false) "u"%char = mkScanner (InStringEscU 4) stack false.
Proof. reflexivity. Qed.
Lemma scan_hex stack n c : is_hex (byte_of c) = true ->
  scan_byte (mkScanner (InStringEscU (S n)) stack false) c = mkScanner (match n with O => InString | _ => InStringEscU n end) stack false.
Proof. intros H. unfold scan_byte. cbn [sn_step sn_stack]. rewrite H. by destruct n. Qed.

Lemma stays_unicode a b c d : forallb (fun h => is_hex (byte_of h)) [a; b; c; d] = true ->
  stays_in_string (String backslash (String "u"%char (String a (String b (String c (String d "")))))).
Proof.
  intros H stack t. cbn [forallb] in H. rewrite !andb_true_iff in H. destruct H as (Ha & Hb & Hc & Hd & _). autorewrite with gw. cbn [scan_string].
  by rewrite scan_escape, scan_unicode, !scan_hex.
Qed.

Lemma stays_written c lit : written c lit -> stays_in_string lit.
Proof.
  destruct 1 as [Hq Hb Hc|x _ _ Hx|a b Hh _ _]; [by apply stays_plain| |].
  - intros stack t. autorewrite with gw. cbn [scan_string]. by rewrite scan_escape, scan_escaped.
  - apply stays_unicode. by cbn [forallb] in *.
Qed.

(** One rune of a text and how it is written. *)
Record spelled (piece lit : string) : Prop := mkSpelled {
  sp_body : forall t, json_body 0 (piece +:+ t) = lit +:+ json_body 0 t;
  sp_piece : forall t, next_piece (lit +:+ t) = (piece, t);
  sp_first : exists d s, lit = String d s /\ Ascii.eqb d quote_char = false;
  sp_stays : stays_in_string lit }.

Lemma stays_bytes s : str_forall (fun c => 128 <=? byte_of c) s = true -> stays_in_string s.
Proof.
  induction s as [|c s IH]; intros H; [done|]. cbn in H. apply andb_true_iff in H as [Hc Hs]. apply (stays_app (String c "") s); [apply stays_high; lia|auto].
Qed.

Lemma high_first c s : 128 <= byte_of c -> exists d t, String c s = String d t /\ Ascii.eqb d quote_char = false.
Proof. intros H. exists c, s. split; [done|]. apply Ascii.eqb_neq. intros ->. by vm_compute in H. Qed.

(** A rune of several bytes is read as it is. *)
Lemma high_piece piece r t : rune_shape piece r -> (1 < String.length piece)%nat -> next_piece (piece +:+ t) = (piece, t).
Proof.
  intros Hs Hl. pose proof (shape_decodes _ _ t Hs) as E. unfold next_piece. rewrite E.
  assert (HasPrefix (piece +:+ t) (String backslash "") = false) as ->.
  { destruct Hs as [c Hc|c d Hc|c d e Hc|c d e f Hc]; [cbn in Hl; lia|..]; autorewrite with gw; rewrite HasPrefix_byte; apply Ascii.eqb_neq; intros ->; vm_compute in Hc; destruct Hc as [Hc _]; by apply Hc. }
  destruct Hs as [c Hc|c d Hc|c d e Hc|c d e f Hc]; [cbn in Hl; lia|..]; cbn [String.length]; rewrite ?andb_false_r; autorewrite with gw; done.
Qed.

Lemma body_high c s : 128 <= byte_of c ->
  json_body 0 (String c s) =
    let (r, w) := DecodeRuneInString (String c s) in
    match w, s with
    | 1%nat, _ => String backslash ("ufffd" +:+ json_body 0 s)
    | 3%nat, String _ (String _ rest) =>
      if (r =? 8232) || (r =? 8233) then String backslash ("u202" +:+ String (hex_digit (r mod 16)) (json_body 0 rest)) else String c (json_body 2 s)
    | _, _ => String c (json_body (Nat.pred w) s)
    end.
Proof. intros H. cbn [json_body]. by rewrite (proj2 (Z.ltb_ge _ _) H). Qed.

(** The two separators JSON text escapes. *)
Lemma separator_bytes c d e : 224 <= byte_of c <= 239 -> 128 <= byte_of d <= 191 -> 128 <= byte_of e <= 191 ->
  let r := byte_of c mod 16 * 4096 + byte_of d mod 64 * 64 + byte_of e mod 64 in
  (r =? 8232) || (r =? 8233) = true -> c = chr 226 /\ d = chr 128 /\ (e = chr 168 /\ r = 8232 \/ e = chr 169 /\ r = 8233).
Proof.
  intros Hc Hd He r H. rewrite <- !byte_of_eqb. change (byte_of (chr 226)) with 226. change (byte_of (chr 128)) with 128.
  change (byte_of (chr 168)) with 168. change (byte_of (chr 169)) with 169. subst r.
  assert (byte_of c mod 16 = byte_of c - 224) as E1 by (Z.div_mod_to_equations; lia).
  assert (byte_of d mod 64 = byte_of d - 128) as E2 by (Z.div_mod_to_equations; lia).
  assert (byte_of e mod 64 = byte_of e - 128) as E3 by (Z.div_mod_to_equations; lia).
  rewrite E1, E2, E3 in *. apply orb_true_iff in H as [H%Z.eqb_eq|H%Z.eqb_eq]; lia.
Qed.

Lemma separator_spelled e h : (e = chr 168 /\ h = "8"%char) \/ (e = chr 169 /\ h = "9"%char) ->
  spelled (String (chr 226) (String (chr 128) (String e ""))) (String backslash ("u202" +:+ String h "")).
Proof.
  intros H. split.
  - intros t. destruct H as [[-> ->]|[-> ->]]; reflexivity.
  - intros t. unfold next_piece. autorewrite with gw. rewrite HasPrefix_byte, Ascii.eqb_refl, unescape_unicode; destruct H as [[-> ->]|[-> ->]]; reflexivity.
  - eexists _, _. split; [reflexivity|reflexivity].
  - apply (stays_unicode "2" "0" "2" h). by destruct H as [[-> ->]|[-> ->]].
Qed.

Lemma shape_spelled piece r : rune_shape piece r -> exists lit, spelled piece lit.
Proof.
  intros Hs. assert (Hp := fun t => high_piece piece r t Hs). assert (Hd := fun t => shape_decodes piece r t Hs).
  destruct Hs as [c Hc|c d Hc Hd'|c d e Hc Hd' He|c d e f Hc Hd' He Hf].
  - exists (json_ascii c). split; [|intros t; by apply json_ascii_piece|by apply json_ascii_first|eapply stays_written; by apply json_ascii_written].
    intros t. autorewrite with gw. cbn [json_body]. by rewrite (proj2 (Z.ltb_lt _ _) Hc).
  - exists (String c (String d "")). split; [|intros t; apply Hp; cbn; lia|apply high_first; lia|apply stays_bytes; cbn [str_forall]; repeat case_match; lia].
    intros t. specialize (Hd t). autorewrite with gw in *. rewrite body_high, Hd by lia. done.
  - destruct ((byte_of c mod 16 * 4096 + byte_of d mod 64 * 64 + byte_of e mod 64 =? 8232) || (byte_of c mod 16 * 4096 + byte_of d mod 64 * 64 + byte_of e mod 64 =? 8233)) eqn:E.
    + destruct (separator_bytes c d e) as (-> & -> & [[-> _]|[-> _]]); [lia|repeat case_match; lia|lia|done|..]; eexists; apply separator_spelled; [left|right]; done.
    + exists (String c (String d (String e ""))). split; [|intros t; apply Hp; cbn; lia|apply high_first; lia|apply stays_bytes; cbn [str_forall]; repeat case_match; lia].
      intros t. specialize (Hd t). autorewrite with gw in *. rewrite body_high, Hd by lia. cbn [String.length]. rewrite E. done.
  - exists (String c (String d (String e (String f "")))). split; [|intros t; apply Hp; cbn; lia|apply high_first; lia|apply stays_bytes; cbn [str_forall]; repeat case_match; lia].
    intros t. specialize (Hd t). autorewrite with gw in *. rewrite body_high, Hd by lia. done.
Qed.

Lemma utf8_spelled piece : rune piece -> exists lit, spelled piece lit.
Proof. intros [r H]%rune_has_shape. by eapply shape_spelled. Qed.

(** The literal of a text reads back as the text. *)
Lemma unquote_literal s : utf8 s -> forall fuel t, (String.length (json_body 0 s) < fuel)%nat -> unquote fuel (json_body 0 s +:+ String quote_char t) = (s, t).
Proof.
  induction 1 as [|piece s Hp Hs IH]; intros fuel t Hf.
  - destruct fuel; [cbn in Hf; lia|]. reflexivity.
  - destruct (utf8_spelled piece Hp) as [lit [B P (d & l & E & Hd) _]]. rewrite B in Hf |- *. rewrite str_app_assoc. rewrite str_length_app in Hf.
    destruct fuel as [|fuel]; [lia|]. specialize (P (json_body 0 s +:+ String quote_char t)). rewrite E in Hf, P |- *. autorewrite with gw in P |- *. cbn [String.length] in Hf.
    rewrite unquote_step, P by done. rewrite IH by lia. done.
Qed.

Lemma scan_literal s : utf8 s -> forall stack t, scan_string (mkScanner InString stack false) (json_body 0 s +:+ String quote_char t) = scan_string (mkScanner EndValue stack false) t.
Proof.
  induction 1 as [|piece s Hp Hs IH]; intros stack t; [reflexivity|].
  destruct (utf8_spelled piece Hp) as [lit [B _ _ St]]. by rewrite B, str_app_assoc, St, IH.
Qed.

Lemma json_string_app s t : json_string s +:+ t = String quote_char (json_body 0 s +:+ String quote_char t).
Proof. unfold json_string. autorewrite with gw. by rewrite str_app_assoc. Qed.

(** * Numbers *)

(** The steps inside a number; the last four may end it. *)
Definition number_step (st : scan_step) : bool :=
  match st with Neg | Int1 | Int0 | Dot | Dot0 | Exp | ExpSign | Exp0 => true | _ => false end.
Definition number_done (st : scan_step) : bool := match st with Int1 | Int0 | Dot0 | Exp0 => true | _ => false end.
Definition number_text (t : string) : bool :=
  match t with
  | String c t => let s := scan_string (begin_value [] (byte_of c)) t in number_step (sn_step (begin_value [] (byte_of c))) && number_done (sn_step s)
  | EmptyString => false
  end.

Lemma number_scan_byte st stack c :
  number_step st = true -> number_step (sn_step (scan_byte (mkScanner st [] false) c)) = true ->
  scan_byte (mkScanner st [] false) c = mkScanner (sn_step (scan_byte (mkScanner st [] false) c)) [] false /\
  scan_byte (mkScanner st stack false) c = mkScanner (sn_step (scan_byte (mkScanner st [] false) c)) stack false.
Proof.
  intros Hst H. assert (Hend : number_step (sn_step (end_value [] (byte_of c))) = false) by (unfold end_value; by destruct (is_space _)).
  destruct st; try done; unfold scan_byte in *; cbn [sn_step sn_stack] in *;
    repeat match goal with |- context [if ?b then _ else _] => destruct b end; cbn [sn_step] in *; try done; by rewrite Hend in H.
Qed.

Definition left_number (s : scanner) : Prop := sn_step s = EndTop \/ sn_step s = ScanError.

Lemma number_leaves st c : number_step st = true -> number_step (sn_step (scan_byte (mkScanner st [] false) c)) = true \/ left_number (scan_byte (mkScanner st [] false) c).
Proof.
  intros Hst. unfold left_number. assert (Hend : sn_step (end_value [] (byte_of c)) = EndTop \/ sn_step (end_value [] (byte_of c)) = ScanError) by (unfold end_value; destruct (is_space _); auto).
  destruct st; try done; unfold scan_byte in *; cbn [sn_step sn_stack] in *;
    repeat match goal with |- context [if ?b then _ else _] => destruct b end; cbn [sn_step]; auto.
Qed.

Lemma left_stays t : forall s, left_number s -> number_done (sn_step (scan_string s t)) = false.
Proof.
  induction t as [|c t IH]; intros s H; cbn [scan_string]; [destruct H as [-> | ->]; done|]. apply IH.
  destruct s as [st stack e]. unfold left_number, scan_byte in *. cbn [sn_step sn_stack] in *. destruct H as [-> | ->]; [destruct (is_space _)|]; auto.
Qed.

(** A number is scanned alike inside arrays and maps. *)
Lemma number_scan t : forall st stack, number_step st = true -> number_done (sn_step (scan_string (mkScanner st [] false) t)) = true ->
  exists st', number_done st' = true /\ forall t', scan_string (mkScanner st stack false) (t +:+ t') = scan_string (mkScanner st' stack false) t'.
Proof.
  induction t as [|c t IH]; intros st stack Hst H; cbn [scan_string] in H; [by exists st|].
  destruct (number_leaves st c Hst) as [Hn|Hl]; [|by rewrite left_stays in H].
  destruct (number_scan_byte st stack c Hst Hn) as [E1 E2]. rewrite E1 in H. destruct (IH _ stack Hn H) as (st' & Hd & Hscan).
  exists st'. split; [done|]. intros t'. autorewrite with gw. cbn [scan_string]. rewrite E2. apply Hscan.
Qed.

Lemma begin_number stack b : number_step (sn_step (begin_value [] b)) = true -> begin_value stack b = mkScanner (sn_step (begin_value [] b)) stack false /\ begin_value [] b = mkScanner (sn_step (begin_value [] b)) [] false.
Proof.
  unfold begin_value, push_state. repeat match goal with |- context [if ?b then _ else _] => destruct b end; cbn [sn_step]; done.
Qed.

(** A value ends at a comma or a closing bracket. *)
Definition closer (c : ascii) : Prop := c = ","%char \/ c = "]"%char \/ c = "}"%char.

(** A scanner at the end of a value. *)
Definition finished (s : scanner) : bool := sn_endTop s || sn_endTop (scan_byte s " "%char).
Definition ends_value (s : scanner) (stack : list parse_state) : Prop :=
  (forall c, closer c -> scan_byte s c = end_value stack (byte_of c)) /\ (stack = [] -> finished s = true).

Lemma number_ends st stack : number_done st = true -> ends_value (mkScanner st stack false) stack.
Proof. intros H. split; [intros c [-> | [-> | ->]]; destruct st; try done; reflexivity|intros ->; by destruct st]. Qed.

Lemma scan_number t stack : number_text t = true ->
  exists s, ends_value s stack /\ forall t', scan_string (mkScanner BeginValue stack false) (t +:+ t') = scan_string s t'.
Proof.
  intros H. destruct t as [|c t]; [done|]. cbn [number_text] in H. apply andb_true_iff in H as [Hn Hd].
  destruct (begin_number stack (byte_of c) Hn) as [E1 E2]. rewrite E2 in Hd. destruct (number_scan t _ stack Hn Hd) as (st & Hst & Hscan).
  exists (mkScanner st stack false). split; [by apply number_ends|]. intros t'. autorewrite with gw. cbn [scan_string].
  change (scan_byte (mkScanner BeginValue stack false) c) with (begin_value stack (byte_of c)). by rewrite E1.
Qed.

(** ** Reading a number before other text *)

(** No byte of a number begins the text. *)
Definition delimited (t : string) : Prop :=
  match t with
  | EmptyString => True
  | String c _ => is_digit c = false /\ Ascii.eqb c "."%char = false /\ Ascii.eqb c "e"%char = false /\ Ascii.eqb c "E"%char = false /\
                  Ascii.eqb c "+"%char = false /\ Ascii.eqb c "-"%char = false
  end.

Lemma closer_delimited c t : closer c -> delimited (String c t).
Proof. intros [-> | [-> | ->]]; by vm_compute. Qed.

Lemma eat_app x t t' : (forall d r, t = "" -> t' = String d r -> Ascii.eqb x d = false) -> eat x (t +:+ t') = (fst (eat x t), snd (eat x t) +:+ t').
Proof.
  intros H. destruct t as [|c t]; autorewrite with gw; cbn [eat].
  - destruct t' as [|d r]; [done|]. cbn [eat]. by rewrite (H d r).
  - by destruct (Ascii.eqb x c).
Qed.

Lemma read_digits_app t' t : delimited t' -> forall a s st, read_digits a s st (t +:+ t') =
  let '(a', s', u) := read_digits a s st t in (a', s', u +:+ t').
Proof.
  intros H. induction t as [|c t IH]; intros a s st; autorewrite with gw; cbn [read_digits].
  - destruct t' as [|d r]; [done|]. destruct H as [H _]. cbn [read_digits]. by rewrite H.
  - destruct (is_digit c); [apply IH|done].
Qed.
Lemma read_exponent_app t' t : delimited t' -> forall a, read_exponent a (t +:+ t') = let '(a', u) := read_exponent a t in (a', u +:+ t').
Proof.
  intros H. induction t as [|c t IH]; intros a; autorewrite with gw; cbn [read_exponent].
  - destruct t' as [|d r]; [done|]. destruct H as [H _]. cbn [read_exponent]. by rewrite H.
  - destruct (is_digit c); [apply IH|done].
Qed.

Lemma delimited_eat x t' : delimited t' -> x = "."%char \/ x = "-"%char \/ x = "+"%char -> forall t d r, t = "" -> t' = String d r -> Ascii.eqb x d = false.
Proof.
  intros H Hx t d r _ ->. destruct H as (_ & H1 & _ & _ & H2 & H3). rewrite Ascii.eqb_sym. by destruct Hx as [-> | [-> | ->]].
Qed.

Definition followed_by (t : string) (d : decimal) : decimal := mkDecimal (dc_neg d) (dc_digits d) (dc_scale d) (dc_rest d +:+ t).

Lemma read_decimal_app t t' : delimited t' -> read_decimal (t +:+ t') = followed_by t' (read_decimal t).
Proof.
  intros H. unfold read_decimal. rewrite (eat_app "-"%char) by (apply (delimited_eat "-"%char); auto). destruct (eat "-"%char t) as [neg s1]. cbn [fst snd].
  rewrite (read_digits_app t' s1 H). destruct (read_digits 0 0 0 s1) as [[digits z] s2].
  rewrite (eat_app "."%char) by (apply (delimited_eat "."%char); auto). destruct (eat "."%char s2) as [dot s3]. cbn [fst snd].
  rewrite (read_digits_app t' s3 H). set (fr := read_digits digits 0 1 s3).
  assert (E : (if dot then let '(a', s', u) := fr in (a', s', u +:+ t') else (digits, 0, s3 +:+ t')) =
    let '(a', s', u) := (if dot then fr else (digits, 0, s3)) in (a', s', u +:+ t')) by (by destruct dot).
  rewrite E. destruct (if dot then fr else (digits, 0, s3)) as [[d sc] s4]. destruct s4 as [|c s5]; autorewrite with gw.
  - destruct t' as [|c r]; [done|]. destruct H as (_ & _ & -> & -> & _). done.
  - destruct (_ || _); [|done]. rewrite (eat_app "-"%char) by (apply (delimited_eat "-"%char); auto). destruct (eat "-"%char s5) as [minus s6]. cbn [fst snd].
    rewrite (eat_app "+"%char) by (apply (delimited_eat "+"%char); auto). destruct (eat "+"%char s6) as [plus s7]. cbn [fst snd].
    rewrite (read_exponent_app t' s7 H). by destruct (read_exponent 0 s7) as [e s8].
Qed.

(** ** Integers *)

Lemma digits_onto_nonzero fuel : forall n acc, 0 < n < 10 ^ Z.of_nat fuel -> exists d s, digits_onto fuel n acc = String (digit_char d) s /\ 1 <= d <= 9.
Proof.
  induction fuel as [|fuel IH]; intros n acc Hn; [cbn in Hn; lia|]. cbn [digits_onto]. destruct (n <? 10) eqn:E.
  - exists n, acc. rewrite Z.mod_small by lia. split; [done|lia].
  - apply IH. rewrite Nat2Z.inj_succ, Z.pow_succ_r in Hn by lia. split; [apply Z.div_str_pos; lia|apply Z.div_lt_upper_bound; lia].
Qed.

Lemma scan_digits t : forall stack, str_forall is_digit t = true -> scan_string (mkScanner Int1 stack false) t = mkScanner Int1 stack false.
Proof.
  induction t as [|c t IH]; intros stack H; [done|]. cbn in H. apply andb_true_iff in H as [Hc Ht]. cbn [scan_string]. rewrite <- (IH stack Ht) at 2. f_equal.
  unfold scan_byte. cbn [sn_step sn_stack]. unfold is_digit in Hc. by replace (in_range (byte_of c) 48 57) with true by (unfold in_range; lia).
Qed.

Lemma begin_digit d : 1 <= d <= 9 -> begin_value [] (byte_of (digit_char d)) = mkScanner Int1 [] false.
Proof. intros H. rewrite byte_of_digit_char by lia. enumerate d 10%nat; try lia; reflexivity. Qed.
Lemma neg_digit d : 1 <= d <= 9 -> scan_byte (mkScanner Neg [] false) (digit_char d) = mkScanner Int1 [] false.
Proof. intros H. enumerate d 10%nat; try lia; reflexivity. Qed.

Lemma read_digits_parse t : forall a n, parse_digits t a = Some n -> read_digits a 0 0 t = (n, 0, "").
Proof. induction t as [|c t IH]; intros a n H; cbn in *; [by injection H as ->|]. destruct (is_digit c); [|done]. change (0 - 0) with 0. by rewrite (IH _ _ H). Qed.

Lemma FormatUint_all_digits n : 0 <= n < 10 ^ 20 -> parse_digits (FormatUint n) 0 = Some n /\ str_forall is_digit (FormatUint n) = true.
Proof.
  intros H. split; [pose proof (parse_digits_onto 20 n "" ltac:(cbn; lia) ltac:(done)) as E; exact E|].
  apply str_forall_digits_onto; [done|lia|done].
Qed.

Lemma first_digit c t : str_forall is_digit (String c t) = true -> Ascii.eqb "-"%char c = false /\ Ascii.eqb "."%char c = false.
Proof. cbn [str_forall]. intros [Hc _]%andb_true_iff. split; apply Ascii.eqb_neq; intros <-; by vm_compute in Hc. Qed.

Lemma FormatInt_number z : in_int64 z -> number_text (FormatInt z) = true /\ read_decimal (FormatInt z) = mkDecimal (z <? 0) (Z.abs z) 0 "".
Proof.
  intros Hz. unfold FormatInt. destruct (z <? 0) eqn:E.
  - assert (Hn : 0 < - z < 10 ^ Z.of_nat 20) by (unfold_ints; cbn; lia). destruct (FormatUint_all_digits (- z)) as [Hp Hd]; [cbn in Hn; lia|].
    destruct (digits_onto_nonzero 20 (- z) "" Hn) as (d & t & Et & Hd1). change (FormatUint (- z) = String (digit_char d) t) in Et. split.
    + rewrite Et in Hd |- *. cbn in Hd. apply andb_true_iff in Hd as [_ Hd]. unfold number_text. change (begin_value [] (byte_of "-"%char)) with (mkScanner Neg [] false).
      cbn [sn_step number_step andb scan_string]. rewrite neg_digit by done. by rewrite scan_digits.
    + unfold read_decimal. cbn [eat]. rewrite Ascii.eqb_refl, (read_digits_parse _ _ _ Hp). cbn. f_equal. lia.
  - destruct (FormatUint_all_digits z) as [Hp Hd]; [unfold_ints; lia|]. destruct (Z.eq_dec z 0) as [->|Hz0]; [by vm_compute|].
    destruct (digits_onto_nonzero 20 z "") as (d & t & Et & Hd1); [unfold_ints; cbn; lia|]. change (FormatUint z = String (digit_char d) t) in Et. split.
    + rewrite Et in Hd |- *. cbn in Hd. apply andb_true_iff in Hd as [_ Hd]. unfold number_text. rewrite begin_digit by done. cbn [sn_step number_step andb]. by rewrite scan_digits.
    + unfold read_decimal. rewrite Et in Hd, Hp |- *. destruct (first_digit _ _ Hd) as [F1 F2]. cbn [eat]. rewrite F1, (read_digits_parse _ _ _ Hp). cbn. f_equal. lia.
Qed.

(** The float an integer is read as. *)
Definition int_float (z : Z) : float := default (mkFloat 0 0) (float_of (mkDecimal (z <? 0) (Z.abs z) 0 "")).

Lemma float_of_int z rest : in_int64 z -> float_of (mkDecimal (z <? 0) (Z.abs z) 0 rest) = Some (int_float z).
Proof.
  intros Hz. unfold int_float, float_of. cbn [dc_digits dc_neg dc_scale]. destruct (Z.abs z =? 0) eqn:E0; [done|]. cbn [Z.leb]. rewrite Z.pow_0_r, Z.mul_1_r.
  destruct (nearest_float (Z.abs z) 1) as [f|] eqn:E; [done|exfalso]. unfold nearest_float in E. cbv zeta in E.
  match type of E with (if ?b then _ else _) = _ => destruct b eqn:Eb end; [|done]. clear E.
  assert (Hl : Z.log2 (Z.abs z) <= 63) by (apply (Z.log2_le_mono _ (2 ^ 63)); unfold_ints; lia). pose proof (Z.log2_nonneg (Z.abs z)).
  rewrite Z.sub_0_r in Eb. apply orb_true_iff in Eb. destruct Eb as [Eb|Eb]; [apply andb_true_iff in Eb as [Eb _]|];
    match type of Eb with context [if ?c then _ else _] => destruct c end; lia.
Qed.

(** * Values *)

Section AnyInd.
Context (P : any -> Prop).
Hypothesis (Hnull : P ANull) (Hbool : forall b, P (ABool b)) (Hfloat : forall f, P (AFloat f)) (Hint : forall z, P (AInt z)) (Hstring : forall s, P (AString s))
  (Harray : forall l, Forall P l -> P (AArray l)) (Hobject : forall m, Forall (fun kv => P (snd kv)) m -> P (AObject m)).
Fixpoint any_ind' (v : any) : P v :=
  match v with
  | ANull => Hnull | ABool b => Hbool b | AFloat f => Hfloat f | AInt z => Hint z | AString s => Hstring s
  | AArray l => Harray l ((fix go l : Forall P l := match l with [] => Forall_nil_2 _ | x :: l => Forall_cons_2 _ _ _ (any_ind' x) (go l) end) l)
  | AObject m => Hobject m ((fix go m : Forall (fun kv => P (snd kv)) m :=
      match m with [] => Forall_nil_2 _ | x :: m => Forall_cons_2 _ _ _ (any_ind' (snd x)) (go m) end) m)
  end.
End AnyInd.

(** What is read back: integers as floats, maps in the order of their names. *)
Fixpoint reread (v : any) : value :=
  match v with
  | ANull => VNull | ABool b => VBool b | AFloat f => VNumber f | AInt z => VNumber (int_float z) | AString s => VString s
  | AArray l => VArray (map reread l)
  | AObject m => VObject (sorted_members (last_of_each (map (fun kv => (fst kv, reread (snd kv))) m)))
  end.
Definition reread_members (m : list (string * any)) : object := map (fun kv => (fst kv, reread (snd kv))) (sorted_members (last_of_each m)).

Section Names.
Context {A B : Type} (g : A -> B).
Definition renamed (kv : string * A) : string * B := (fst kv, g (snd kv)).

Lemma existsb_renamed n m : existsb (fun kv => fst kv =s n) (map renamed m) = existsb (fun kv => fst kv =s n) m.
Proof. induction m as [|x m IH]; [done|]. cbn. by rewrite IH. Qed.
Lemma last_of_each_map m : last_of_each (map renamed m) = map renamed (last_of_each m).
Proof.
  induction m as [|kv m IH]; [done|]. cbn [map last_of_each]. rewrite existsb_renamed.
  by destruct (existsb _ m); [|cbn [map]; rewrite IH].
Qed.
Lemma insert_member_map kv m : insert_stable name_before (renamed kv) (map renamed m) = map renamed (insert_stable name_before kv m).
Proof.
  induction m as [|x m IH]; [done|]. cbn [map insert_stable].
  assert (name_before (renamed x) (renamed kv) = name_before x kv) as -> by done. destruct (name_before x kv); [by rewrite IH|done].
Qed.
Lemma sorted_members_map m : sorted_members (map renamed m) = map renamed (sorted_members m).
Proof. unfold sorted_members. induction m as [|x m IH]; [done|]. cbn [map SliceStable]. by rewrite IH, insert_member_map. Qed.
End Names.

Lemma last_of_each_incl {A} (m : list (string * A)) kv : In kv (last_of_each m) -> In kv m.
Proof. induction m as [|x m IH]; [done|]. cbn. destruct (existsb _ m); cbn; naive_solver. Qed.
Lemma sorted_members_incl {A} (m : list (string * A)) kv : In kv (sorted_members m) <-> In kv m.
Proof. unfold sorted_members. split; apply Permutation_in; [|symmetry]; apply SliceStable_perm. Qed.

Lemma reread_object m : reread (AObject m) = VObject (reread_members m).
Proof.
  cbn [reread]. unfold reread_members. f_equal. change (sorted_members (last_of_each (map (renamed reread) m)) = map (renamed reread) (sorted_members (last_of_each m))).
  by rewrite last_of_each_map, sorted_members_map.
Qed.

Definition member_text (kv : string * any) : string := json_string (fst kv) +:+ ":" +:+ marshal (snd kv).
Lemma marshal_object m : marshal (AObject m) = ("{" +:+ joined_by "," (map member_text (sorted_members (last_of_each m))) +:+ "}")%string.
Proof.
  cbn [marshal]. change (map (fun kv => (fst kv, marshal (snd kv))) m) with (map (renamed marshal) m).
  rewrite last_of_each_map, sorted_members_map, map_map. reflexivity.
Qed.

(** Text that is a value: its first byte, how it is scanned and read. *)
Definition plain_first (t : string) : Prop :=
  exists c s, t = String c s /\ is_space (byte_of c) = false /\ (byte_of c =? 93) = false /\ (byte_of c =? 44) = false /\ (byte_of c =? 125) = false.
Definition scans (t : string) (stack : list parse_state) : Prop :=
  exists s, ends_value s stack /\ forall t', scan_string (mkScanner BeginValue stack false) (t +:+ t') = scan_string s t'.
Definition reads (t : string) (v : value) : Prop :=
  forall fuel ok t', (String.length t <= fuel)%nat -> delimited t' -> decode_value fuel ok (t +:+ t') = (v, ok, t').

(** Floats that are written so that they read back; the test decides it. *)
Definition float_eqb (f g : float) : bool := (fl_mantissa f =? fl_mantissa g) && (fl_exponent f =? fl_exponent g).
Definition prints (f : float) : bool :=
  let d := read_decimal (json_float f) in
  number_text (json_float f) && (dc_rest d =s "") && match float_of d with Some g => float_eqb g f | None => false end.

Lemma number_byte c t : number_text (String c t) = true -> byte_of c = 45 \/ 48 <= byte_of c <= 57.
Proof.
  intros [H _]%andb_true_iff. unfold begin_value, push_state in H.
  repeat match type of H with context [if ?b then _ else _] => let E := fresh in destruct b eqn:E; try (cbn in H; discriminate H) end;
    unfold in_range in *; lia.
Qed.

Lemma number_first t : number_text t = true -> plain_first t.
Proof.
  destruct t as [|c t]; [done|]. intros H%number_byte. exists c, t. split; [done|]. unfold is_space. split_and!; lia.
Qed.

Lemma number_reads t f : number_text t = true -> dc_rest (read_decimal t) = "" -> float_of (read_decimal t) = Some f -> reads t (VNumber f).
Proof.
  intros Hn Hr Hf fuel ok t' Hl Ht. pose proof (read_decimal_app t t' Ht) as E. destruct t as [|c t]; [done|]. apply number_byte in Hn.
  destruct fuel as [|fuel]; [cbn in Hl; lia|]. autorewrite with gw in E |- *. cbn [decode_value skip_space].
  replace (is_space (byte_of c)) with false by (unfold is_space; lia). cbv zeta.
  replace (byte_of c =? 123) with false by lia. replace (byte_of c =? 91) with false by lia. replace (byte_of c =? 34) with false by lia.
  replace (byte_of c =? 116) with false by lia. replace (byte_of c =? 102) with false by lia. replace (byte_of c =? 110) with false by lia.
  rewrite E. assert (float_of (followed_by t' (read_decimal (String c t))) = Some f) as ->; [by rewrite <- Hf|]. cbn [followed_by dc_rest]. by rewrite Hr.
Qed.

(** ** Scanning arrays and maps *)

Lemma pop_ends p stack : ends_value (pop_state (p :: stack)) stack.
Proof.
  split; [|by intros ->]. intros c Hc. destruct stack as [|q stack]; cbn [pop_state]; [|done]. destruct Hc as [-> | [-> | ->]]; reflexivity.
Qed.
Lemma end_value_ends stack : ends_value (mkScanner EndValue stack false) stack.
Proof. split; [reflexivity|by intros ->]. Qed.

Lemma joined_cons2 sep x y l : joined_by sep (x :: y :: l) = x +:+ sep +:+ joined_by sep (y :: l).
Proof. reflexivity. Qed.

Lemma scan_items xs stack t : xs <> [] -> Forall (fun x => scans x (ArrayValue :: stack)) xs ->
  scan_string (mkScanner BeginValue (ArrayValue :: stack) false) (joined_by "," xs +:+ "]" +:+ t) = scan_string (pop_state (ArrayValue :: stack)) t.
Proof.
  induction xs as [|x xs IH]; intros Hne H; [done|]. apply Forall_cons in H as [(s & [He _] & Hs) Hxs]. destruct xs as [|y xs].
  - cbn [joined_by]. rewrite Hs. autorewrite with gw. cbn [scan_string]. rewrite (He "]"%char) by (right; by left). reflexivity.
  - rewrite joined_cons2, !str_app_assoc, Hs. autorewrite with gw. cbn [scan_string]. rewrite (He ","%char) by by left.
    change (end_value (ArrayValue :: stack) (byte_of ","%char)) with (mkScanner BeginValue (ArrayValue :: stack) false). by apply IH.
Qed.

(** The state after an opening bracket takes a value like the one inside. *)
Lemma scan_first_item x stack t : plain_first x ->
  scan_string (mkScanner BeginValueOrEmpty stack false) (x +:+ t) = scan_string (mkScanner BeginValue stack false) (x +:+ t).
Proof.
  intros (c & s & -> & Hs & H93 & _). autorewrite with gw. cbn [scan_string]. f_equal. unfold scan_byte. cbn [sn_step sn_stack]. by rewrite Hs, H93.
Qed.
Lemma plain_first_joined sep x xs : plain_first x -> plain_first (joined_by sep (x :: xs)).
Proof. intros (c & s & -> & H). destruct xs; [by exists c, s|]. exists c. eexists. split; [rewrite joined_cons2; autorewrite with gw; done|done]. Qed.

Lemma push_ok step p stack : Z.of_nat (length stack) < 10000 -> push_state step p stack = mkScanner step (p :: stack) false.
Proof. intros H. unfold push_state. by replace (Z.of_nat (length stack) + 1 <=? 10000) with true by lia. Qed.

Lemma scan_array xs stack : Z.of_nat (length stack) < 10000 -> Forall plain_first xs -> Forall (fun x => scans x (ArrayValue :: stack)) xs ->
  scans ("[" +:+ joined_by "," xs +:+ "]") stack.
Proof.
  intros Hl Hp Hs. exists (pop_state (ArrayValue :: stack)). split; [apply pop_ends|]. intros t. rewrite !str_app_assoc. autorewrite with gw. cbn [scan_string].
  change (scan_byte (mkScanner BeginValue stack false) "["%char) with (push_state BeginValueOrEmpty ArrayValue stack). rewrite push_ok by done.
  destruct xs as [|x xs]; [reflexivity|]. pose proof (scan_first_item (joined_by "," (x :: xs)) (ArrayValue :: stack) ("]" +:+ t)) as E. autorewrite with gw in E.
  rewrite E by (apply Forall_cons in Hp as [Hp _]; by apply plain_first_joined).
  pose proof (scan_items (x :: xs) stack t ltac:(done) Hs) as E2. autorewrite with gw in E2. exact E2.
Qed.

(** A member: its name, a colon and its value. *)
Definition named (name text : string) : string := json_string name +:+ ":" +:+ text.

Lemma scan_member name text stack s : utf8 name -> (forall t', scan_string (mkScanner BeginValue (ObjectValue :: stack) false) (text +:+ t') = scan_string s t') ->
  forall t', scan_string (mkScanner BeginString (ObjectKey :: stack) false) (named name text +:+ t') = scan_string s t'.
Proof.
  intros Hn Hs t'. unfold named. rewrite !str_app_assoc, json_string_app. cbn [scan_string].
  change (scan_byte (mkScanner BeginString (ObjectKey :: stack) false) quote_char) with (mkScanner InString (ObjectKey :: stack) false).
  rewrite scan_literal by done. autorewrite with gw. cbn [scan_string].
  change (scan_byte (mkScanner EndValue (ObjectKey :: stack) false) ":"%char) with (mkScanner BeginValue (ObjectValue :: stack) false). apply Hs.
Qed.

Definition member_scans (stack : list parse_state) (kv : string * string) : Prop := utf8 (fst kv) /\ scans (snd kv) (ObjectValue :: stack).
Definition named_text (kv : string * string) : string := named (fst kv) (snd kv).

Lemma scan_members ms stack t : ms <> [] -> Forall (member_scans stack) ms ->
  scan_string (mkScanner BeginString (ObjectKey :: stack) false) (joined_by "," (map named_text ms) +:+ "}" +:+ t) = scan_string (pop_state (ObjectValue :: stack)) t.
Proof.
  induction ms as [|m ms IH]; intros Hne H; [done|]. apply Forall_cons in H as [(Hn & s & [He _] & Hs) Hms]. pose proof (scan_member _ _ _ _ Hn Hs) as E. destruct ms as [|m2 ms].
  - cbn [map joined_by]. change (named_text m) with (named (fst m) (snd m)). rewrite E. autorewrite with gw. cbn [scan_string]. rewrite (He "}"%char) by (right; by right). reflexivity.
  - cbn [map]. rewrite joined_cons2, !str_app_assoc. change (named_text m) with (named (fst m) (snd m)). rewrite E. autorewrite with gw. cbn [scan_string].
    rewrite (He ","%char) by by left. change (end_value (ObjectValue :: stack) (byte_of ","%char)) with (mkScanner BeginString (ObjectKey :: stack) false). by apply IH.
Qed.

Lemma named_first kv : exists s, named_text kv = String quote_char s.
Proof. unfold named_text, named. rewrite json_string_app. by eexists. Qed.

Lemma joined_named m ms : exists s, joined_by "," (map named_text (m :: ms)) = String quote_char s.
Proof.
  destruct (named_first m) as [s E]. destruct ms as [|m2 ms]; [exists s; exact E|]. eexists. cbn [map]. rewrite joined_cons2, E. autorewrite with gw. done.
Qed.

Lemma scan_object ms stack t : Z.of_nat (length stack) < 10000 -> Forall (member_scans stack) ms ->
  scan_string (mkScanner BeginValue stack false) (("{" +:+ joined_by "," (map named_text ms) +:+ "}") +:+ t) = scan_string (pop_state (ObjectValue :: stack)) t.
Proof.
  intros Hl H. rewrite !str_app_assoc. autorewrite with gw. cbn [scan_string].
  change (scan_byte (mkScanner BeginValue stack false) "{"%char) with (push_state BeginStringOrEmpty ObjectKey stack). rewrite push_ok by done.
  destruct ms as [|m ms]; [reflexivity|]. pose proof (scan_members (m :: ms) stack t ltac:(done) H) as E. autorewrite with gw in E. rewrite <- E.
  destruct (joined_named m ms) as [s Ej]. rewrite Ej. autorewrite with gw. reflexivity.
Qed.

(** ** Reading arrays and maps *)

Lemma skip_plain x t : plain_first x -> skip_space (x +:+ t) = x +:+ t.
Proof. intros (c & s & -> & Hs & _). autorewrite with gw. cbn [skip_space]. by rewrite Hs. Qed.

Lemma items_step fuel ok x t : plain_first x -> decode_items (S fuel) ok (x +:+ t) =
  let '(v, ok, rest) := decode_value fuel ok (x +:+ t) in let '(l, ok, rest) := decode_items fuel ok rest in (v :: l, ok, rest).
Proof.
  intros Hx. cbn [decode_items]. rewrite skip_plain by done. destruct Hx as (c & s & -> & _ & H93 & H44 & _). autorewrite with gw. by rewrite H93, H44.
Qed.
Lemma items_comma fuel ok x t : plain_first x -> decode_items (S fuel) ok ("," +:+ x +:+ t) =
  let '(v, ok, rest) := decode_value fuel ok (x +:+ t) in let '(l, ok, rest) := decode_items fuel ok rest in (v :: l, ok, rest).
Proof. intros _. reflexivity. Qed.

Lemma bracket_delimited t : delimited ("]" +:+ t).
Proof. autorewrite with gw. apply closer_delimited. right. by left. Qed.
Lemma comma_delimited t : delimited ("," +:+ t).
Proof. autorewrite with gw. apply closer_delimited. by left. Qed.
Lemma brace_delimited t : delimited ("}" +:+ t).
Proof. autorewrite with gw. apply closer_delimited. right. by right. Qed.

Lemma read_items xs vs t : Forall plain_first xs -> Forall2 reads xs vs -> xs <> [] ->
  forall fuel ok, (String.length (joined_by "," xs) < fuel)%nat ->
    decode_items fuel ok (joined_by "," xs +:+ "]" +:+ t) = (vs, ok, t) /\ decode_items fuel ok ("," +:+ joined_by "," xs +:+ "]" +:+ t) = (vs, ok, t).
Proof.
  intros Hp H. induction H as [|x v xs vs Hx H IH]; intros Hne fuel ok Hf; [done|]. apply Forall_cons in Hp as [Hpx Hp]. destruct fuel as [|fuel]; [lia|].
  assert (Both : forall rest, (String.length x <= fuel)%nat -> delimited rest -> decode_items fuel ok rest = (vs, ok, t) ->
    decode_items (S fuel) ok (x +:+ rest) = (v :: vs, ok, t) /\ decode_items (S fuel) ok ("," +:+ x +:+ rest) = (v :: vs, ok, t)).
  { intros rest Hl Hd Hr. rewrite items_step, items_comma by done. by rewrite (Hx fuel ok rest Hl Hd), Hr. }
  destruct H as [|y w ys ws Hy H].
  - cbn [joined_by] in Hf |- *. apply Both; [lia|apply bracket_delimited|]. destruct fuel; [|reflexivity].
    destruct Hpx as (c & s & -> & _). cbn in Hf. lia.
  - rewrite joined_cons2 in Hf |- *. rewrite !str_length_app in Hf. rewrite !str_app_assoc. change (String.length ",") with 1%nat in Hf.
    apply Both; [lia|apply comma_delimited|]. apply IH; [done|done|]. lia.
Qed.

Lemma reads_array xs vs : Forall plain_first xs -> Forall2 reads xs vs -> reads ("[" +:+ joined_by "," xs +:+ "]") (VArray vs).
Proof.
  intros Hp H fuel ok t Hf Hd. rewrite !str_length_app in Hf. cbn [String.length] in Hf. destruct fuel as [|fuel]; [lia|]. rewrite !str_app_assoc.
  change (decode_value (S fuel) ok ("[" +:+ joined_by "," xs +:+ "]" +:+ t)) with
    (let '(l, ok, rest) := decode_items fuel ok (joined_by "," xs +:+ "]" +:+ t) in (VArray l, ok, rest)).
  destruct H as [|x v xs vs Hx H].
  - destruct fuel; [cbn in Hf; lia|]. reflexivity.
  - destruct (read_items (x :: xs) (v :: vs) t Hp (List.Forall2_cons _ _ Hx H) ltac:(done) fuel ok) as [-> _]; [cbn in Hf |- *; lia|done].
Qed.

Definition member_reads (kt : string * string) (kv : string * value) : Prop := utf8 (fst kt) /\ fst kv = fst kt /\ plain_first (snd kt) /\ reads (snd kt) (snd kv).

Lemma members_step fuel ok name text rest : utf8 name -> plain_first text -> (String.length (named name text) <= fuel)%nat ->
  decode_members (S fuel) ok (named name text +:+ rest) =
  let '(v, ok, rest) := decode_value fuel ok (text +:+ rest) in let '(m, ok, rest) := decode_members fuel ok rest in ((name, v) :: m, ok, rest).
Proof.
  intros Hn Ht Hf. unfold named in *. rewrite !str_app_assoc, json_string_app. rewrite json_string_app in Hf. cbn [String.length] in Hf. rewrite str_length_app in Hf.
  assert (Q : forall s, decode_members (S fuel) ok (String quote_char s) =
    let '(name, rest) := unquote fuel s in let '(v, ok, rest) := decode_value fuel ok (drop_bytes 1 (skip_space rest)) in
    let '(m, ok, rest) := decode_members fuel ok rest in ((name, v) :: m, ok, rest)) by reflexivity.
  rewrite Q, unquote_literal; [reflexivity|done|lia].
Qed.
Lemma members_comma fuel ok t : decode_members (S fuel) ok ("," +:+ t) = decode_members fuel ok t.
Proof. reflexivity. Qed.

Lemma read_members ts m t : Forall2 member_reads ts m -> forall fuel ok, (String.length (joined_by "," (map named_text ts)) < fuel)%nat ->
  decode_members fuel ok (joined_by "," (map named_text ts) +:+ "}" +:+ t) = (m, ok, t).
Proof.
  induction 1 as [|kt kv ts m (Hn & Ek & Hp & Hr) H IH]; intros fuel ok Hf; (destruct fuel as [|fuel]; [lia|]).
  - reflexivity.
  - destruct kv as [k v]. cbn [fst snd] in *. subst k.
    assert (Step : forall rest, (String.length (named_text kt) <= fuel)%nat -> delimited rest -> decode_members fuel ok rest = (m, ok, t) ->
      decode_members (S fuel) ok (named_text kt +:+ rest) = ((fst kt, v) :: m, ok, t)).
    { intros rest Hl Hd Hm. unfold named_text in *. rewrite members_step by done.
      rewrite Hr; [by rewrite Hm| |done]. unfold named in Hl. rewrite !str_length_app in Hl. lia. }
    destruct H as [|kt2 kv2 ts m H2 H].
    + cbn [map joined_by] in Hf |- *. apply Step; [lia|apply brace_delimited|]. destruct (named_first kt) as [s E]. rewrite E in Hf. cbn in Hf. destruct fuel; [lia|reflexivity].
    + cbn [map] in Hf |- *. rewrite joined_cons2 in Hf |- *. rewrite !str_length_app in Hf. rewrite !str_app_assoc. apply Step; [lia|apply comma_delimited|].
      destruct (named_first kt) as [l E]. rewrite E in Hf. change (String.length ",") with 1%nat in Hf. cbn [String.length] in Hf.
      destruct fuel; [lia|]. rewrite members_comma. apply IH. cbn [map]. lia.
Qed.

Lemma reads_object ts m : Forall2 member_reads ts m -> reads ("{" +:+ joined_by "," (map named_text ts) +:+ "}") (VObject m).
Proof.
  intros H fuel ok t Hf Hd. rewrite !str_length_app in Hf. cbn [String.length] in Hf. destruct fuel as [|fuel]; [lia|]. rewrite !str_app_assoc.
  change (decode_value (S fuel) ok ("{" +:+ joined_by "," (map named_text ts) +:+ "}" +:+ t)) with
    (let '(l, ok, rest) := decode_members fuel ok (joined_by "," (map named_text ts) +:+ "}" +:+ t) in (VObject l, ok, rest)).
  rewrite (read_members ts m t H); [done|]. lia.
Qed.

(** ** The round trip *)

(** Whether a text is UTF-8. *)
Fixpoint utf8_from (skip : nat) (s : string) : bool :=
  match s with
  | EmptyString => match skip with O => true | _ => false end
  | String c s' =>
    match skip with
    | S k => utf8_from k s'
    | O => let '(r, w) := DecodeRuneInString s in negb ((r =? RuneError) && (w =? 1)%nat) && utf8_from (Nat.pred w) s'
    end
  end.
Definition is_utf8 (s : string) : bool := utf8_from 0 s.

Lemma utf8_from_skip piece s : utf8_from (String.length piece) (piece +:+ s) = utf8_from 0 s.
Proof. induction piece as [|c piece IH]; [done|]. autorewrite with gw. exact IH. Qed.

(** A text that decodes begins with a rune. *)
Lemma decode_splits c s r w : DecodeRuneInString (String c s) = (r, w) -> negb ((r =? RuneError) && (w =? 1)%nat) = true ->
  exists piece rest, String c s = piece +:+ rest /\ rune_shape piece r /\ w = String.length piece.
Proof.
  intros E Hr. assert (Hbad : (RuneError, 1%nat) = (r, w) -> False) by (intros [= <- <-]; done). unfold DecodeRuneInString, byte_at in E.
  destruct (byte_of c <? 128) eqn:E1; [injection E as <- <-; exists (String c ""), s; split_and!; [done|constructor; lia|done]|].
  destruct (in_range (byte_of c) 194 223) eqn:E2; [|destruct (in_range (byte_of c) 224 239) eqn:E3; [|destruct (in_range (byte_of c) 240 244) eqn:E4; [|by apply Hbad in E]]];
    apply in_range_spec in E2 || apply in_range_spec in E3 || apply in_range_spec in E4;
    match type of E with (if ?b then _ else _) = _ => destruct b eqn:F end; try (by apply Hbad in E); injection E as <- <-.
  - destruct s as [|d s]; [done|]. cbn [String.get] in *. apply in_range_spec in F. exists (String c (String d "")), s. split_and!; [done|by constructor|done].
  - apply andb_true_iff in F as [F1 F2]. destruct s as [|d [|e s]]; cbn [String.get] in *; [by vm_compute in F2..|]. apply in_range_spec in F1, F2.
    exists (String c (String d (String e ""))), s. split_and!; [done|by constructor|done].
  - rewrite !andb_true_iff in F. destruct F as [[F1 F2] F3]. destruct s as [|d [|e [|f s]]]; cbn [String.get] in *; [by vm_compute in F3..|]. apply in_range_spec in F1, F2, F3.
    exists (String c (String d (String e (String f "")))), s. split_and!; [done|by constructor|done].
Qed.

Lemma is_utf8_spec s : is_utf8 s = true -> utf8 s.
Proof.
  unfold is_utf8. remember (String.length s) as n eqn:En. revert s En. induction n as [n IH] using lt_wf_ind; intros s -> H. destruct s as [|c s]; [constructor|].
  cbn [utf8_from] in H. destruct (DecodeRuneInString (String c s)) as [r w] eqn:E. apply andb_true_iff in H as [Hr H].
  destruct (decode_splits _ _ _ _ E Hr) as (piece & rest & Es & Hp & Ew). rewrite Es. constructor; [by eapply shape_is_rune|].
  apply (IH (String.length rest)); [|done|].
  - assert (String.length (String c s) = (String.length piece + String.length rest)%nat) by (rewrite Es; apply str_length_app). destruct Hp; cbn in *; lia.
  - subst w. destruct piece as [|d piece]; [by inversion Hp|]. autorewrite with gw in Es. injection Es as <- ->. cbn [String.length Nat.pred] in H. by rewrite utf8_from_skip in H.
Qed.

Fixpoint printable (v : any) : bool :=
  match v with
  | ANull | ABool _ => true
  | AFloat f => prints f
  | AInt z => (min_int64 <=? z) && (z <=? max_int64)
  | AString s => is_utf8 s
  | AArray l => forallb printable l
  | AObject m => forallb (fun kv => is_utf8 (fst kv) && printable (snd kv)) m
  end.
Fixpoint depth (v : any) : nat :=
  match v with
  | AArray l => S (list_max (map depth l))
  | AObject m => S (list_max (map (fun kv => depth (snd kv)) m))
  | _ => O
  end.

Lemma list_max_In n l : In n l -> (n <= list_max l)%nat.
Proof. intros H. pose proof (proj1 (list_max_le l (list_max l)) (Nat.le_refl _)) as F. rewrite List.Forall_forall in F. by apply F. Qed.

(** A value as written: read back, and scanned inside anything. *)
Record printed (v : any) : Prop := mkPrinted {
  pt_first : plain_first (marshal v);
  pt_reads : reads (marshal v) (reread v);
  pt_scans : forall stack, Z.of_nat (length stack + depth v) <= 10000 -> scans (marshal v) stack }.

Lemma float_eqb_eq f g : float_eqb f g = true -> f = g.
Proof. destruct f, g. unfold float_eqb. cbn. intros H. f_equal; lia. Qed.

Lemma printed_number v f : number_text (marshal v) = true -> reads (marshal v) (VNumber f) -> reread v = VNumber f -> printed v.
Proof. intros Hn Hr E. split; [by apply number_first|by rewrite E|]. intros stack _. by apply scan_number. Qed.

Lemma printed_string s : is_utf8 s = true -> printed (AString s).
Proof.
  intros H%is_utf8_spec. cbn [marshal reread]. split.
  - cbn [marshal]. unfold json_string. by eexists _, _.
  - intros fuel ok t Hf _. cbn [marshal reread] in *. rewrite json_string_app. destruct fuel as [|fuel]; [cbn in Hf; lia|].
    change (decode_value (S fuel) ok (String quote_char (json_body 0 s +:+ String quote_char t))) with
      (let '(str, rest) := unquote fuel (json_body 0 s +:+ String quote_char t) in (VString str, ok, rest)).
    rewrite unquote_literal; [done|done|]. unfold json_string in Hf. cbn [String.length] in Hf. rewrite str_length_app in Hf. cbn [String.length] in Hf. lia.
  - intros stack _. exists (mkScanner EndValue stack false). split; [apply end_value_ends|]. intros t. cbn [marshal]. rewrite json_string_app. cbn [scan_string].
    change (scan_byte (mkScanner BeginValue stack false) quote_char) with (mkScanner InString stack false). by apply scan_literal.
Qed.

Lemma printed_word v w : marshal v = w -> (w = "null" \/ w = "true" \/ w = "false") -> (forall fuel ok t', decode_value (S fuel) ok (w +:+ t') = (reread v, ok, t')) -> printed v.
Proof.
  intros E Hw Hd. split; rewrite ?E.
  - destruct Hw as [-> | [-> | ->]]; by eexists _, _.
  - intros fuel ok t' Hf _. destruct fuel; [|apply Hd]. destruct Hw as [-> | [-> | ->]]; cbn in Hf; lia.
  - intros stack _. rewrite ?E. exists (mkScanner EndValue stack false). split; [apply end_value_ends|]. intros t'. destruct Hw as [-> | [-> | ->]]; reflexivity.
Qed.

Lemma printed_array l : Forall printed l -> printed (AArray l).
Proof.
  intros H. assert (Hp : Forall plain_first (map marshal l)) by (apply Forall_fmap; eapply Forall_impl; [exact H|]; intros v Hv; apply Hv).
  split; [by eexists _, _|..]; cbn [marshal reread].
  - apply reads_array; [done|]. clear Hp. induction H as [|v l [_ Hv _] _ IH]; cbn; by constructor.
  - intros stack Hs. cbn [depth] in Hs. apply scan_array; [lia|done|]. apply Forall_fmap. rewrite List.Forall_forall in H. apply Forall_forall. intros v Hv%list_elem_of_In.
    apply (pt_scans v); [by apply H|]. pose proof (list_max_In (depth v) (map depth l) (in_map _ _ _ Hv)). cbn [length]. lia.
Qed.

Lemma printed_members m : Forall (fun kv => is_utf8 (fst kv) = true /\ printed (snd kv)) m ->
  Forall (fun kv => is_utf8 (fst kv) = true /\ printed (snd kv)) (sorted_members (last_of_each m)).
Proof. rewrite !List.Forall_forall. intros H kv Hkv%sorted_members_incl%last_of_each_incl. by apply H. Qed.

Definition text_of (kv : string * any) : string * string := (fst kv, marshal (snd kv)).
Lemma marshal_members m : marshal (AObject m) = "{" +:+ joined_by "," (map named_text (map text_of (sorted_members (last_of_each m)))) +:+ "}".
Proof. rewrite marshal_object, map_map. reflexivity. Qed.

Lemma object_scan m stack : Forall (fun kv => is_utf8 (fst kv) = true /\ printed (snd kv)) m -> Z.of_nat (length stack + depth (AObject m)) <= 10000 ->
  forall t, scan_string (mkScanner BeginValue stack false) (marshal (AObject m) +:+ t) = scan_string (pop_state (ObjectValue :: stack)) t.
Proof.
  intros H Hs t. rewrite marshal_members. cbn [depth] in Hs. apply scan_object; [lia|]. apply Forall_fmap. rewrite List.Forall_forall in H.
  apply Forall_forall. intros kv Hkv%list_elem_of_In%sorted_members_incl%last_of_each_incl. destruct (H kv Hkv) as [Hk Hv]. split; [by apply is_utf8_spec|].
  apply (pt_scans _ Hv). pose proof (list_max_In (depth (snd kv)) (map (fun kv => depth (snd kv)) m) (in_map (fun kv => depth (snd kv)) _ _ Hkv)). cbn [length text_of snd]. lia.
Qed.

Lemma printed_object m : Forall (fun kv => is_utf8 (fst kv) = true /\ printed (snd kv)) m -> printed (AObject m).
Proof.
  intros H. split.
  - rewrite marshal_members. by eexists _, _.
  - rewrite marshal_members, reread_object. apply reads_object. apply printed_members in H. unfold reread_members.
    induction H as [|kv l [Hk [Hf Hr _]] _ IH]; cbn [map]; constructor; [|done]. by split; [apply is_utf8_spec|].
  - intros stack Hs. exists (pop_state (ObjectValue :: stack)). split; [apply pop_ends|]. by apply object_scan.
Qed.

Lemma all_printed v : printable v = true -> printed v.
Proof.
  induction v as [|b|f|z|s|l IH|m IH] using any_ind'; cbn [printable]; intros H.
  - apply (printed_word ANull "null"); auto.
  - destruct b; [apply (printed_word (ABool true) "true")|apply (printed_word (ABool false) "false")]; auto.
  - unfold prints in H. rewrite !andb_true_iff in H. destruct H as [[Hn Hr] Hf]. apply String.eqb_eq in Hr. destruct (float_of _) as [g|] eqn:E; [|done].
    apply float_eqb_eq in Hf as ->. apply (printed_number _ f); [done|by apply number_reads|done].
  - assert (Hz : in_int64 z) by (unfold in_int64; lia). destruct (FormatInt_number z Hz) as [Hn Hr].
    apply (printed_number _ (int_float z)); [done| |done]. apply number_reads; [done|cbn [marshal]; by rewrite Hr|cbn [marshal]; rewrite Hr; by apply float_of_int].
  - by apply printed_string.
  - apply printed_array. rewrite forallb_forall in H. rewrite List.Forall_forall in IH |- *. auto.
  - apply printed_object. rewrite forallb_forall in H. rewrite List.Forall_forall in IH |- *. intros kv Hkv. specialize (H kv Hkv). apply andb_true_iff in H as [Hk Hv]. auto.
Qed.

(** What is marshalled is valid JSON and reads back. *)
Lemma UnmarshalAny_marshal v : printable v = true -> Z.of_nat (depth v) <= 10000 -> UnmarshalAny (marshal v) = Some (reread v).
Proof.
  intros Hp Hd. destruct (all_printed v Hp) as [_ Hr Hs]. destruct (Hs [] Hd) as (s & [_ He] & Hscan). specialize (Hscan "").
  specialize (Hr (S (String.length (marshal v))) true ""). rewrite str_app_nil_r in Hscan, Hr.
  unfold UnmarshalAny, json_valid. rewrite Hscan. cbn [scan_string]. rewrite (He eq_refl : _ || _ = true), Hr; [done|lia|done].
Qed.

Lemma Unmarshal_marshal m : printable (AObject m) = true -> Z.of_nat (depth (AObject m)) <= 10000 -> Unmarshal (marshal (AObject m)) = (reread_members m, true).
Proof.
  intros Hp Hd. pose proof (UnmarshalAny_marshal _ Hp Hd) as H. unfold UnmarshalAny in H. unfold Unmarshal.
  destruct (json_valid _); [|done]. destruct (decode_value _ _ _) as [[v ok] rest]. destruct ok; [|done].
  assert (v = reread (AObject m)) as -> by congruence. by rewrite reread_object.
Qed.
