(* ===== verification/Canonical.v ===== *)
(** Requests and results independent of a provider's dialect
    ([protocol/translate.go], [helpers.go], [validation.go], [decode.go]):
    what the four client dialects and the three provider dialects are read
    into before they are written in another one. *)
From S2P Require Import Prelude GoStd Money Counters Policy Json Decode Store Pricing PolicyService Admission Settlement Tokens Marshal.
Open Scope string_scope.
Open Scope Z_scope.
Open Scope list_scope.

(** * Data *)

Record canonicalPart := mkCanonicalPart {
  p_Kind : string; p_Text : string; p_ID : string; p_Name : string; p_MediaType : string; p_Data : string; p_URL : string; p_Detail : string;
  p_Value : value }.
Record canonicalMessage := mkCanonicalMessage { m_Role : string; m_Parts : list canonicalPart }.
Record canonicalTool := mkCanonicalTool { tl_Name : string; tl_Description : string; tl_Schema : value; tl_Strict : bool }.

(** The output schema with its name and strictness. *)
Definition output_format : Type := value * string * bool.
(** [ToolChoice], [ToolName], [ParallelTools]. *)
Definition tool_choice : Type := string * string * option bool.

Record canonicalRequest := mkCanonicalRequest {
  cr_System : string; cr_Messages : list canonicalMessage; cr_Tools : list canonicalTool; cr_MaxTokens : Z; cr_Stream : bool;
  cr_Stops : list string; cr_Output : output_format; cr_Choice : tool_choice;
  cr_Temperature : option float; cr_TopP : option float; cr_TopK : option Z }.

Record canonicalResult := mkCanonicalResult {
  cs_ID : string; cs_Parts : list canonicalPart; cs_Stop : string; cs_InputTokens : Z; cs_OutputTokens : Z; cs_Refusal : string }.

Definition text_part (text : string) : canonicalPart := mkCanonicalPart "text" text "" "" "" "" "" "" VNull.
Definition tool_use_part (id name : string) (v : value) : canonicalPart := mkCanonicalPart "tool_use" "" id name "" "" "" "" v.
Definition tool_result_part (id name text : string) : canonicalPart := mkCanonicalPart "tool_result" text id name "" "" "" "" VNull.
Definition image_part (media data url detail : string) : canonicalPart := mkCanonicalPart "image" "" "" "" media data url detail VNull.

(** * Library functions *)

(** The error of the JSON decoder; its text is not modelled. *)
Definition json_error : error := Msg "json".

(** [strconv.Quote], with the runes above ASCII taken as printable. *)
Definition quoted_ascii (c : ascii) : string :=
  let b := byte_of c in
  let esc (x : ascii) := String backslash (String x "") in
  if b =? 34 then esc quote_char else if b =? 92 then esc backslash
  else if b =? 7 then esc "a"%char else if b =? 8 then esc "b"%char else if b =? 12 then esc "f"%char else if b =? 10 then esc "n"%char
  else if b =? 13 then esc "r"%char else if b =? 9 then esc "t"%char else if b =? 11 then esc "v"%char
  else if (b <? 32) || (127 <=? b) then String backslash (String "x"%char (String (hex_digit (b / 16)) (String (hex_digit (b mod 16)) "")))
  else String c "".
Fixpoint quoted_body (skip : nat) (s : string) : string :=
  match s with
  | EmptyString => ""
  | String c s' =>
    match skip with
    | S k => String c (quoted_body k s')
    | O => let '(_, w) := DecodeRuneInString s in
           if (w <=? 1)%nat then quoted_ascii c +:+ quoted_body 0 s' else String c (quoted_body (Nat.pred w) s')
    end
  end.
Definition Quote (s : string) : string := String quote_char (quoted_body 0 s +:+ String quote_char "").

(** [strings.ToUpper] of a word compared with ASCII words: beside ASCII only
    the dotless i and the long s turn into ASCII letters. *)
Fixpoint ToUpper (s : string) : string :=
  match s with
  | String c s' =>
    let b := byte_of c in
    match s' with
    | String d rest =>
      if (b =? 196) && (byte_of d =? 177) then String "I"%char (ToUpper rest)
      else if (b =? 197) && (byte_of d =? 191) then String "S"%char (ToUpper rest)
      else String (if in_range b 97 122 then ascii_of_nat (Z.to_nat (b - 32)) else c) (ToUpper s')
    | EmptyString => String (if in_range b 97 122 then ascii_of_nat (Z.to_nat (b - 32)) else c) ""
    end
  | EmptyString => ""
  end.

(** Whether [base64.StdEncoding.DecodeString] succeeds: line ends are ignored,
    and the padding is required. *)
Definition base64_letter (c : ascii) : bool :=
  let b := byte_of c in in_range b 65 90 || in_range b 97 122 || in_range b 48 57 || (b =? 43) || (b =? 47).
Fixpoint without_line_ends (s : string) : list ascii :=
  match s with
  | EmptyString => []
  | String c s => if (byte_of c =? 10) || (byte_of c =? 13) then without_line_ends s else c :: without_line_ends s
  end.
Fixpoint base64_quads (l : list ascii) : bool :=
  match l with
  | [] => true
  | [a; b; c; d] =>
      base64_letter a && base64_letter b
      && (base64_letter c && base64_letter d || base64_letter c && (byte_of d =? 61) || (byte_of c =? 61) && (byte_of d =? 61))
  | a :: b :: c :: d :: l => base64_letter a && base64_letter b && base64_letter c && base64_letter d && base64_quads l
  | _ => false
  end.
Definition base64_decodes (s : string) : bool := base64_quads (without_line_ends s).

(** [strings.Cut]. *)
Fixpoint Cut (s : string) (sep : ascii) : option (string * string) :=
  match s with
  | EmptyString => None
  | String c s => if Ascii.eqb c sep then Some ("", s)
                  else match Cut s sep with Some (a, b) => Some (String c a, b) | None => None end
  end.

(** * [helpers.go] *)

Definition is_null (v : value) : bool := match v with VNull => true | _ => false end.
Definition is_text (v : value) : option string := match v with VString s => Some s | _ => None end.
(** [value, _ := v.(bool)]. *)
Definition boolean (v : value) : bool := match v with VBool b => b | _ => false end.
Definition empty_object (m : object) : bool := match m with [] => true | _ => false end.

Definition textValue (v : value) : string :=
  match v with
  | VString s => s
  | _ => fold_left (fun acc item =>
           let part := objectMap item in let kind := stringValue (field part "type") in
           if (kind =s "text") || (kind =s "input_text") then acc +:+ stringValue (field part "text") else acc) (array v) ""
  end.

Fixpoint firstMap (m : object) (names : list string) : object :=
  match names with
  | [] => []
  | name :: names => let result := objectMap (field m name) in if empty_object result then firstMap m names else result
  end.

Fixpoint rejectPresent (m : object) (fields : list string) : result unit :=
  match fields with
  | [] => Ok tt
  | name :: fields =>
    if is_null (field m name) then rejectPresent m fields
    else Err (Msg (name +:+ " requires provider affinity and cannot be translated"))
  end.

Definition no_format : output_format := (VNull, "", false).

Definition openAIOutputSchema (v : value) : result output_format :=
  let format := objectMap v in
  if empty_object format then Ok no_format
  else
    _ ← ensure (stringValue (field format "type") =s "json_schema") (Msg "only json_schema structured output can be translated");
    let details := objectMap (field format "json_schema") in
    let details := if empty_object details then format else details in
    let schema := field details "schema" in
    _ ← ensure (negb (is_null schema)) (Msg "json_schema output requires schema");
    let name := stringValue (field details "name") in
    Ok (schema, if name =s "" then "response" else name, boolean (field details "strict")).

Definition openAIToolChoice (m : object) : result tool_choice :=
  parallel ← match lookup_field m "parallel_tool_calls" with
             | None => Ok None
             | Some (VBool allowed) => Ok (Some allowed)
             | Some _ => Err (Msg "parallel_tool_calls must be boolean")
             end;
  match field m "tool_choice" with
  | VNull => Ok ("", "", parallel)
  | VString choice =>
    _ ← ensure ((choice =s "auto") || (choice =s "none") || (choice =s "required")) (Msg "unsupported tool_choice");
    Ok (choice, "", parallel)
  | v =>
    let choice := objectMap v in
    _ ← ensure (stringValue (field choice "type") =s "function") (Msg "only function tool_choice can be translated");
    let name := stringValue (field (objectMap (field choice "function")) "name") in
    _ ← ensure (negb (name =s "")) (Msg "function tool_choice requires name");
    Ok ("required", name, parallel)
  end.

Definition anthropicToolChoice (v : value) : result tool_choice :=
  if is_null v then Ok ("", "", None)
  else
    let choice := objectMap v in let typeName := stringValue (field choice "type") in
    _ ← ensure ((typeName =s "auto") || (typeName =s "none") || (typeName =s "any") || (typeName =s "tool")) (Msg "unsupported Anthropic tool_choice");
    parallel ← match lookup_field choice "disable_parallel_tool_use" with
               | None => Ok None
               | Some (VBool disabled) => Ok (Some (negb disabled))
               | Some _ => Err (Msg "disable_parallel_tool_use must be boolean")
               end;
    if typeName =s "tool" then
      let name := stringValue (field choice "name") in
      _ ← ensure (negb (name =s "")) (Msg "anthropic tool choice requires name");
      Ok ("required", name, parallel)
    else Ok (if typeName =s "any" then "required" else typeName, "", parallel).

Definition gemini_mode (mode : string) : string :=
  if mode =s "AUTO" then "auto" else if mode =s "NONE" then "none" else if mode =s "ANY" then "required" else "".

Definition geminiToolChoice (v : value) : result (string * string) :=
  if is_null v then Ok ("", "")
  else
    let config := firstMap (objectMap v) ["functionCallingConfig"; "function_calling_config"] in
    let choice := gemini_mode (ToUpper (firstString config ["mode"])) in
    _ ← ensure (negb (choice =s "")) (Msg "unsupported Gemini function calling mode");
    let allowed := array (field config "allowedFunctionNames") in
    let allowed := match allowed with [] => array (field config "allowed_function_names") | _ => allowed end in
    match allowed with
    | [] => Ok (choice, "")
    | [v] =>
      let name := stringValue v in
      _ ← ensure (negb (name =s "")) (Msg "allowed Gemini function name must be a string");
      Ok (choice, name)
    | _ => Err (Msg "multiple allowed Gemini functions cannot be preserved by translation")
    end.

(** * [validation.go] *)

Definition validate_part (p : canonicalPart) : result unit :=
  if p_Kind p =s "tool_use" then ensure (negb ((p_ID p =s "") || (p_Name p =s ""))) (Msg "tool calls require id and name")
  else if p_Kind p =s "tool_result" then ensure (negb (p_ID p =s "")) (Msg "tool results require a matching tool call id")
  else Ok tt.
Fixpoint check_all {A} (f : A -> result unit) (l : list A) : result unit :=
  match l with [] => Ok tt | x :: l => _ ← f x; check_all f l end.
Definition validate_message (m : canonicalMessage) : result unit :=
  _ ← ensure ((m_Role m =s "user") || (m_Role m =s "assistant") || (m_Role m =s "tool"))
        (Msg ("role " +:+ Quote (m_Role m) +:+ " is not supported for translation"));
  _ ← ensure (match m_Parts m with [] => false | _ => true end) (Msg "message content must not be empty");
  check_all validate_part (m_Parts m).
Definition validateCanonicalRequest (r : canonicalRequest) : result unit :=
  _ ← check_all validate_message (cr_Messages r);
  check_all (fun t => ensure (negb ((tl_Name t =s "") || is_null (tl_Schema t))) (Msg "function tools require name and parameters")) (cr_Tools r).

(** The names of the tool calls seen so far, the latest first. *)
Fixpoint known_name (names : list (string * string)) (id : string) : string :=
  match names with [] => "" | (k, name) :: names => if k =s id then name else known_name names id end.
Definition with_name (name : string) (p : canonicalPart) : canonicalPart :=
  mkCanonicalPart (p_Kind p) (p_Text p) (p_ID p) name (p_MediaType p) (p_Data p) (p_URL p) (p_Detail p) (p_Value p).
Fixpoint resolve_parts (names : list (string * string)) (parts : list canonicalPart) : list (string * string) * list canonicalPart :=
  match parts with
  | [] => (names, [])
  | p :: parts =>
    let '(names, p) := if p_Kind p =s "tool_use" then ((p_ID p, p_Name p) :: names, p)
                       else if (p_Kind p =s "tool_result") && (p_Name p =s "") then (names, with_name (known_name names (p_ID p)) p)
                       else (names, p) in
    let '(names, parts) := resolve_parts names parts in (names, p :: parts)
  end.
Fixpoint resolve_messages (names : list (string * string)) (l : list canonicalMessage) : list canonicalMessage :=
  match l with
  | [] => []
  | m :: l => let '(names, parts) := resolve_parts names (m_Parts m) in mkCanonicalMessage (m_Role m) parts :: resolve_messages names l
  end.
Definition resolveToolResultNames (l : list canonicalMessage) : list canonicalMessage := resolve_messages [] l.

(** [math.MaxInt64] as a [float64] is [2^63]. *)
Definition optionalInteger (m : object) (name : string) : result Z :=
  let bad := Err (Msg (name +:+ " must be a non-negative integer")) in
  match field m name with
  | VNull => Ok 0
  | VNumber f =>
    if fl_mantissa f <? 0 then bad
    else match exact_integer f with
         | Some n => if 2 ^ 63 <? n then bad else Ok (to_int64 f)
         | None => bad
         end
  | _ => bad
  end.

Definition optionalPositiveInteger (m : object) (name : string) : result (option Z) :=
  if is_null (field m name) then Ok None
  else match optionalInteger m name with
       | Ok n => if n =? 0 then Err (Msg (name +:+ " must be a positive integer")) else Ok (Some n)
       | Err _ => Err (Msg (name +:+ " must be a positive integer"))
       end.

(** A decoded number is finite. *)
Definition optionalNumber (m : object) (name : string) : result (option float) :=
  match field m name with
  | VNull => Ok None
  | VNumber f => if fl_mantissa f <? 0 then Err (Msg (name +:+ " must be a non-negative number")) else Ok (Some f)
  | _ => Err (Msg (name +:+ " must be a non-negative number"))
  end.

Definition requireSingleCandidate (m : object) (name : string) : result unit :=
  if is_null (field m name) then Ok tt
  else match optionalInteger m name with
       | Ok n => ensure (n =? 1) (Msg (name +:+ " must be 1 for translated requests"))
       | Err _ => Err (Msg (name +:+ " must be 1 for translated requests"))
       end.

Definition stop_value (v : value) : result string :=
  match v with
  | VString s => if s =s "" then Err (Msg "stop sequences must be non-empty strings") else Ok s
  | _ => Err (Msg "stop sequences must be non-empty strings")
  end.
Definition stopValues (v : value) : result (list string) :=
  match v with
  | VNull => Ok []
  | VString s => if s =s "" then Err (Msg "stop sequence must not be empty") else Ok [s]
  | VArray l => mapM stop_value l
  | _ => Err (Msg "stop must be a string or array of strings")
  end.

Definition geminiSafetyStop (s : string) : bool :=
  contains ["SAFETY"; "BLOCKLIST"; "PROHIBITED_CONTENT"; "SPII"; "RECITATION"] (ToUpper s).
Definition openAIStop (s : string) : string :=
  if (s =s "refusal") || geminiSafetyStop s then "content_filter"
  else if (s =s "tool_use") || (s =s "TOOL_CALL") then "tool_calls"
  else if (s =s "max_tokens") || (s =s "MAX_TOKENS") then "length" else "stop".
Definition anthropicStop (s : string) : string :=
  if (s =s "content_filter") || (s =s "refusal") || geminiSafetyStop s then "refusal"
  else if (s =s "tool_calls") || (s =s "TOOL_CALL") then "tool_use"
  else if (s =s "length") || (s =s "MAX_TOKENS") then "max_tokens" else "end_turn".
Definition geminiStop (s : string) : string :=
  if (s =s "content_filter") || (s =s "refusal") || geminiSafetyStop s then "SAFETY"
  else if (s =s "length") || (s =s "max_tokens") then "MAX_TOKENS" else "STOP".
