(* ===== verification/Dialects.v ===== *)
(** Reading requests and results of the provider dialects
    ([protocol/decode.go]) into their canonical form. *)
From S2P Require Import Prelude GoStd Money Counters Policy Json Decode Store Pricing PolicyService Admission Settlement Tokens Marshal Canonical.
Open Scope string_scope.
Open Scope Z_scope.
Open Scope list_scope.

(** * Content *)

Definition hasPartKind (parts : list canonicalPart) (kind : string) : bool := existsb (fun p => p_Kind p =s kind) parts.
Definition hasNonText (parts : list canonicalPart) : bool := existsb (fun p => negb (p_Kind p =s "text")) parts.
Definition canonicalText (parts : list canonicalPart) : string :=
  fold_left (fun acc p => if p_Kind p =s "text" then acc +:+ p_Text p else acc) parts "".
Definition appendSystem (existing next : string) : string :=
  if existing =s "" then next else if next =s "" then existing else existing +:+ String newline next.

Definition canonicalImage (v mediaType detail : string) : result canonicalPart :=
  _ ← ensure (negb (v =s "")) (Msg "image url is required");
  if HasPrefix v "data:" then
    match Cut (TrimPrefix v "data:") ","%char with
    | Some (header, data) =>
      _ ← ensure (HasSuffix header ";base64" && negb (data =s "")) (Msg "image data URL must contain base64 data");
      let mediaType := TrimSuffix header ";base64" in
      _ ← ensure (HasPrefix mediaType "image/") (Msg "image data URL must use an image media type");
      _ ← ensure (base64_decodes data) (Msg "image data URL contains invalid base64");
      Ok (image_part mediaType data "" detail)
    | None => Err (Msg "image data URL must contain base64 data")
    end
  else Ok (image_part mediaType "" v detail).

Definition openai_part (item : value) : result canonicalPart :=
  let part := objectMap item in let type := stringValue (field part "type") in
  if (type =s "text") || (type =s "input_text") || (type =s "output_text") then Ok (text_part (stringValue (field part "text")))
  else if type =s "image_url" then
    let image := objectMap (field part "image_url") in
    canonicalImage (stringValue (field image "url")) "" (stringValue (field image "detail"))
  else if type =s "input_image" then
    _ ← ensure (stringValue (field part "file_id") =s "") (Msg "file_id images require provider affinity and cannot be translated");
    canonicalImage (stringValue (field part "image_url")) "" (stringValue (field part "detail"))
  else Err (Msg ("content type " +:+ Quote type +:+ " is not supported for translation")).

Definition decodeOpenAIContent (v : value) : result (list canonicalPart) :=
  match v with
  | VNull => Ok []
  | VString text => Ok [text_part text]
  | _ => out ← mapM openai_part (array v);
         match out with [] => Err (Msg "content must be text or supported image input") | _ => Ok out end
  end.
Definition decodeResponsesContent (v : value) : result (list canonicalPart) := decodeOpenAIContent v.

Definition anthropic_source (source : object) : result unit :=
  let type := stringValue (field source "type") in
  if type =s "base64" then
    let mediaType := stringValue (field source "media_type") in let data := stringValue (field source "data") in
    _ ← ensure (HasPrefix mediaType "image/" && negb (data =s "")) (Msg "base64 image requires media_type and data");
    ensure (base64_decodes data) (Msg "image contains invalid base64")
  else if type =s "url" then ensure (negb (stringValue (field source "url") =s "")) (Msg "url image requires url")
  else Err (Msg "unsupported anthropic image source").
Definition anthropic_part_ok (item : value) : result unit :=
  let part := objectMap item in let type := stringValue (field part "type") in
  if type =s "text" then Ok tt
  else if type =s "tool_use" then
    ensure (negb ((stringValue (field part "id") =s "") || (stringValue (field part "name") =s ""))) (Msg "tool_use requires id and name")
  else if type =s "tool_result" then ensure (negb (stringValue (field part "tool_use_id") =s "")) (Msg "tool_result requires tool_use_id")
  else if type =s "image" then anthropic_source (objectMap (field part "source"))
  else Err (Msg ("anthropic content type " +:+ Quote type +:+ " requires provider affinity")).
Definition validateAnthropicParts (v : value) : result unit :=
  match v with VString _ => Ok tt | _ => check_all anthropic_part_ok (array v) end.

Definition anthropic_part (item : value) : list canonicalPart :=
  let part := objectMap item in let type := stringValue (field part "type") in
  if type =s "text" then [text_part (stringValue (field part "text"))]
  else if type =s "tool_use" then [tool_use_part (stringValue (field part "id")) (stringValue (field part "name")) (field part "input")]
  else if type =s "tool_result" then [tool_result_part (stringValue (field part "tool_use_id")) "" (textValue (field part "content"))]
  else if type =s "image" then
    let source := objectMap (field part "source") in
    [if stringValue (field source "type") =s "base64"
     then image_part (stringValue (field source "media_type")) (stringValue (field source "data")) "" ""
     else image_part (stringValue (field source "media_type")) "" (stringValue (field source "url")) ""]
  else [].
Definition decodeAnthropicParts (v : value) : list canonicalPart :=
  match v with VString text => [text_part text] | _ => flat_map anthropic_part (array v) end.

Definition inline_image (part : object) : object := firstMap part ["inlineData"; "inline_data"].
Definition file_image (part : object) : object := firstMap part ["fileData"; "file_data"].
Definition image_type (image : object) : string := firstString image ["mimeType"; "mime_type"].
Definition gemini_part_ok (item : value) : result unit :=
  let part := objectMap item in
  _ ← ensure (is_null (field part "thought") && is_null (field part "thoughtSignature") && is_null (field part "thought_signature"))
        (Msg "gemini thought signatures require provider affinity");
  _ ← ensure (negb (is_null (field part "text")) || negb (empty_object (objectMap (field part "functionCall")))
              || negb (empty_object (objectMap (field part "functionResponse"))) || negb (empty_object (inline_image part)) || negb (empty_object (file_image part)))
        (Msg "gemini content part is not supported for translation");
  let image := inline_image part in
  if empty_object image then Ok tt
  else
    let data := stringValue (field image "data") in
    _ ← ensure (HasPrefix (image_type image) "image/" && negb (data =s "")) (Msg "gemini inline image requires an image MIME type and data");
    ensure (base64_decodes data) (Msg "gemini inline image contains invalid base64").
Definition validateGeminiParts (v : value) : result unit := check_all gemini_part_ok (array v).

Definition gemini_id (call : object) : string :=
  let id := stringValue (field call "id") in if id =s "" then "call_gemini_" +:+ stringValue (field call "name") else id.
Definition gemini_part (item : value) : list canonicalPart :=
  let part := objectMap item in
  let text := stringValue (field part "text") in
  let call := objectMap (field part "functionCall") in
  let response := objectMap (field part "functionResponse") in
  let inline := inline_image part in let file := file_image part in
  (if text =s "" then [] else [text_part text])
  ++ (if empty_object call then [] else [tool_use_part (gemini_id call) (stringValue (field call "name")) (field call "args")])
  ++ (if empty_object response then []
      else [tool_result_part (gemini_id response) (stringValue (field response "name")) (marshal (any_of (field response "response")))])
  ++ (if empty_object inline then [] else [image_part (image_type inline) (stringValue (field inline "data")) "" ""])
  ++ (if empty_object file then [] else [image_part (image_type file) "" (firstString file ["fileUri"; "file_uri"]) ""]).
Definition decodeGeminiParts (v : value) : list canonicalPart := flat_map gemini_part (array v).

(** * Requests *)

(** The system text and the messages read so far. *)
Definition conversation : Type := string * list canonicalMessage.

Definition openai_call (call : value) : result canonicalPart :=
  let c := objectMap call in let function := objectMap (field c "function") in
  let arguments := stringValue (field function "arguments") in
  args ← (if arguments =s "" then Ok VNull
          else match UnmarshalAny arguments with Some v => Ok v | None => Err (Msg "tool arguments must be valid JSON") end);
  Ok (tool_use_part (stringValue (field c "id")) (stringValue (field function "name")) args).

Definition openai_message (c : conversation) (item : value) : result conversation :=
  let (system, messages) := c in
  let message := objectMap item in let role := stringValue (field message "role") in
  parts ← decodeOpenAIContent (field message "content");
  if (role =s "system") || (role =s "developer") then
    _ ← ensure (negb (hasNonText parts)) (Msg "system and developer messages must contain text when translated");
    Ok (appendSystem system (canonicalText parts), messages)
  else
    parts ← (if role =s "tool" then
               _ ← ensure (negb (hasNonText parts)) (Msg "tool results must contain text when translated");
               Ok [tool_result_part (stringValue (field message "tool_call_id")) "" (canonicalText parts)]
             else Ok parts);
    calls ← mapM openai_call (array (field message "tool_calls"));
    Ok (system, messages ++ [mkCanonicalMessage role (parts ++ calls)]).

Fixpoint fold_items {A} (f : A -> value -> result A) (acc : A) (l : list value) : result A :=
  match l with [] => Ok acc | v :: l => acc ← f acc v; fold_items f acc l end.

Definition openai_tool (item : value) : result canonicalTool :=
  let tool := objectMap item in
  _ ← ensure (stringValue (field tool "type") =s "function") (Msg "only function tools can be translated");
  let function := objectMap (field tool "function") in
  Ok (mkCanonicalTool (stringValue (field function "name")) (stringValue (field function "description")) (field function "parameters") (boolean (field function "strict"))).

Definition decode_openai (m : object) : result canonicalRequest :=
  _ ← rejectPresent m ["reasoning_effort"; "modalities"; "audio"; "prediction"; "web_search_options"; "frequency_penalty"; "presence_penalty";
        "logit_bias"; "logprobs"; "top_logprobs"; "seed"; "service_tier"; "user"];
  _ ← requireSingleCandidate m "n";
  temperature ← optionalNumber m "temperature";
  topP ← optionalNumber m "top_p";
  maxTokens ← optionalInteger m "max_tokens";
  maxTokens ← (if maxTokens =? 0 then optionalInteger m "max_completion_tokens" else Ok maxTokens);
  stops ← stopValues (field m "stop");
  output ← openAIOutputSchema (field m "response_format");
  choice ← openAIToolChoice m;
  c ← fold_items openai_message ("", []) (array (field m "messages"));
  tools ← mapM openai_tool (array (field m "tools"));
  Ok (mkCanonicalRequest (fst c) (snd c) tools maxTokens (boolean (field m "stream")) stops output choice temperature topP None).

Definition anthropic_message (item : value) : result canonicalMessage :=
  let message := objectMap item in
  _ ← validateAnthropicParts (field message "content");
  Ok (mkCanonicalMessage (stringValue (field message "role")) (decodeAnthropicParts (field message "content"))).
Definition anthropic_tool (item : value) : canonicalTool :=
  let tool := objectMap item in
  mkCanonicalTool (stringValue (field tool "name")) (stringValue (field tool "description")) (field tool "input_schema") (boolean (field tool "strict")).
Definition anthropic_format (format : object) : result output_format :=
  if empty_object format then Ok no_format
  else
    _ ← ensure ((stringValue (field format "type") =s "json_schema") && negb (is_null (field format "schema"))) (Msg "unsupported Anthropic output format");
    Ok (field format "schema", "response", true).

Definition decode_anthropic (m : object) : result canonicalRequest :=
  _ ← rejectPresent m ["thinking"; "mcp_servers"; "container"; "metadata"; "service_tier"];
  temperature ← optionalNumber m "temperature";
  topP ← optionalNumber m "top_p";
  topK ← optionalPositiveInteger m "top_k";
  _ ← match validateAnthropicParts (field m "system") with Ok _ => Ok tt | Err _ => Err (Msg "anthropic system content must be translatable text") end;
  let system := decodeAnthropicParts (field m "system") in
  _ ← ensure (negb (hasNonText system)) (Msg "anthropic system content must contain text");
  maxTokens ← optionalInteger m "max_tokens";
  stops ← stopValues (field m "stop_sequences");
  output ← anthropic_format (objectMap (field (objectMap (field m "output_config")) "format"));
  choice ← anthropicToolChoice (field m "tool_choice");
  messages ← mapM anthropic_message (array (field m "messages"));
  Ok (mkCanonicalRequest (canonicalText system) messages (map anthropic_tool (array (field m "tools"))) maxTokens (boolean (field m "stream"))
        stops output choice temperature topP topK).

Definition blank_value (v : value) : bool :=
  match v with VNull => true | VString s => s =s "" | VBool b => negb b | _ => false end.
Fixpoint reject_stateful (m : object) (fields : list string) : result unit :=
  match fields with
  | [] => Ok tt
  | name :: fields =>
    if blank_value (field m name) then reject_stateful m fields
    else Err (Msg (name +:+ " is not supported for translated Responses requests"))
  end.

Definition responses_item (c : conversation) (item : value) : result conversation :=
  let (system, messages) := c in
  let v := objectMap item in let type := stringValue (field v "type") in
  if (type =s "message") || (type =s "") then
    let role := stringValue (field v "role") in
    parts ← decodeResponsesContent (field v "content");
    if (role =s "developer") || (role =s "system") then
      _ ← ensure (negb (hasNonText parts)) (Msg "instructions must contain text when translated");
      Ok (appendSystem system (canonicalText parts), messages)
    else Ok (system, messages ++ [mkCanonicalMessage role parts])
  else if type =s "function_call_output" then
    Ok (system, messages ++ [mkCanonicalMessage "tool" [tool_result_part (stringValue (field v "call_id")) "" (textValue (field v "output"))]])
  else if type =s "function_call" then
    match UnmarshalAny (stringValue (field v "arguments")) with
    | Some arguments =>
        Ok (system, messages ++ [mkCanonicalMessage "assistant" [tool_use_part (stringValue (field v "call_id")) (stringValue (field v "name")) arguments]])
    | None => Err (Msg "function call arguments must be valid JSON")
    end
  else Err (Msg ("responses input type " +:+ Quote type +:+ " is not supported for translation")).

Definition responses_tool (item : value) : result canonicalTool :=
  let tool := objectMap item in
  _ ← ensure (stringValue (field tool "type") =s "function") (Msg "only function tools can be translated");
  Ok (mkCanonicalTool (stringValue (field tool "name")) (stringValue (field tool "description")) (field tool "parameters") (boolean (field tool "strict"))).

Definition decode_responses (m : object) : result canonicalRequest :=
  _ ← ensure (match field m "store" with VBool stored => negb stored | _ => false end) (Msg "store:false is required");
  _ ← reject_stateful m ["background"; "conversation"; "previous_response_id"];
  _ ← rejectPresent m ["reasoning"; "include"; "prompt"];
  temperature ← optionalNumber m "temperature";
  topP ← optionalNumber m "top_p";
  maxTokens ← optionalInteger m "max_output_tokens";
  output ← openAIOutputSchema (VObject (objectMap (field (objectMap (field m "text")) "format")));
  choice ← openAIToolChoice m;
  c ← match field m "input" with
      | VString input => Ok (stringValue (field m "instructions"), [mkCanonicalMessage "user" [text_part input]])
      | v => fold_items responses_item (stringValue (field m "instructions"), []) (array v)
      end;
  tools ← mapM responses_tool (array (field m "tools"));
  Ok (mkCanonicalRequest (fst c) (snd c) tools maxTokens (boolean (field m "stream")) [] output choice temperature topP None).

Definition gemini_message (item : value) : result canonicalMessage :=
  let content := objectMap item in let role := stringValue (field content "role") in
  let role := if role =s "model" then "assistant" else if role =s "" then "user" else role in
  _ ← validateGeminiParts (field content "parts");
  Ok (mkCanonicalMessage role (decodeGeminiParts (field content "parts"))).
Definition gemini_tool (item : value) : canonicalTool :=
  let tool := objectMap item in
  mkCanonicalTool (stringValue (field tool "name")) (stringValue (field tool "description")) (field tool "parameters") false.
Definition gemini_format (config : object) : result output_format :=
  if negb (is_null (field config "responseJsonSchema")) then Ok (field config "responseJsonSchema", "response", true)
  else if negb (is_null (field config "responseSchema")) then Ok (field config "responseSchema", "response", true)
  else
    let mime := stringValue (field config "responseMimeType") in
    _ ← ensure ((mime =s "") || (mime =s "text/plain")) (Msg "responseMimeType requires a JSON schema for translated requests");
    Ok no_format.

Definition decode_gemini (m : object) : result canonicalRequest :=
  _ ← rejectPresent m ["cachedContent"; "safetySettings"];
  let instruction := field (objectMap (field m "systemInstruction")) "parts" in
  _ ← match validateGeminiParts instruction with Ok _ => Ok tt | Err _ => Err (Msg "gemini systemInstruction must be translatable text") end;
  let system := decodeGeminiParts instruction in
  _ ← ensure (negb (hasNonText system)) (Msg "gemini systemInstruction must contain text");
  let config := objectMap (field m "generationConfig") in
  _ ← rejectPresent config ["thinkingConfig"; "responseModalities"];
  _ ← requireSingleCandidate config "candidateCount";
  temperature ← optionalNumber config "temperature";
  topP ← optionalNumber config "topP";
  topK ← optionalPositiveInteger config "topK";
  maxTokens ← optionalInteger config "maxOutputTokens";
  stops ← stopValues (field config "stopSequences");
  output ← gemini_format config;
  choice ← geminiToolChoice (field m "toolConfig");
  messages ← mapM gemini_message (array (field m "contents"));
  Ok (mkCanonicalRequest (canonicalText system) messages
        (map gemini_tool (flat_map (fun group => array (field (objectMap group) "functionDeclarations")) (array (field m "tools"))))
        maxTokens (boolean (field m "stream")) stops output (fst choice, snd choice, None) temperature topP topK).

Definition with_messages (messages : list canonicalMessage) (r : canonicalRequest) : canonicalRequest :=
  mkCanonicalRequest (cr_System r) messages (cr_Tools r) (cr_MaxTokens r) (cr_Stream r) (cr_Stops r) (cr_Output r) (cr_Choice r)
    (cr_Temperature r) (cr_TopP r) (cr_TopK r).

(** [decodeCanonicalRequest] after the body is parsed. *)
Definition decode_request (protocol : string) (m : object) : result canonicalRequest :=
  r ← (if protocol =s "openai" then decode_openai m
       else if protocol =s "anthropic" then decode_anthropic m
       else if protocol =s "responses" then decode_responses m
       else if protocol =s "gemini" then decode_gemini m
       else Err (Msg "unsupported client protocol"));
  _ ← ensure (match cr_Messages r with [] => false | _ => true end) (Msg "messages or contents are required");
  let r := with_messages (resolveToolResultNames (cr_Messages r)) r in
  _ ← validateCanonicalRequest r;
  Ok r.

Definition decodeCanonicalRequest (protocol raw : string) : result canonicalRequest :=
  let (m, ok) := Unmarshal raw in if ok then decode_request protocol m else Err json_error.

(** * Results *)

Definition result_call (call : value) : result canonicalPart :=
  let c := objectMap call in let f := objectMap (field c "function") in
  match UnmarshalAny (stringValue (field f "arguments")) with
  | Some args => Ok (tool_use_part (stringValue (field c "id")) (stringValue (field f "name")) args)
  | None => Err (Msg "upstream tool arguments are invalid")
  end.

Definition openai_result (m : object) : result canonicalResult :=
  match array (field m "choices") with
  | [] => Err (Msg "upstream response has no choice")
  | choice :: _ =>
    let choice := objectMap choice in let message := objectMap (field choice "message") in
    parts ← decodeOpenAIContent (field message "content");
    _ ← ensure (is_null (field message "reasoning") && is_null (field message "reasoning_content") && is_null (field message "reasoning_details"))
          (Msg "upstream returned provider-affine content that cannot be translated");
    calls ← mapM result_call (array (field message "tool_calls"));
    let usage := objectMap (field m "usage") in
    Ok (mkCanonicalResult (stringValue (field m "id")) (parts ++ calls) (stringValue (field choice "finish_reason"))
          (number (field usage "prompt_tokens")) (number (field usage "completion_tokens")) (stringValue (field message "refusal")))
  end.

Definition anthropic_result (m : object) : result canonicalResult :=
  _ ← validateAnthropicParts (field m "content");
  let parts := decodeAnthropicParts (field m "content") in let stop := stringValue (field m "stop_reason") in
  let text := canonicalText parts in
  let refusal := if stop =s "refusal" then (if text =s "" then "Request refused by the provider" else text) else "" in
  let usage := objectMap (field m "usage") in
  Ok (mkCanonicalResult (stringValue (field m "id")) parts stop (number (field usage "input_tokens")) (number (field usage "output_tokens")) refusal).

Definition blocked (reason : string) : string := "Request blocked by provider safety policy: " +:+ reason.

Definition gemini_result (m : object) : result canonicalResult :=
  match array (field m "candidates") with
  | [] =>
    let reason := stringValue (field (objectMap (field m "promptFeedback")) "blockReason") in
    if reason =s "" then Err (Msg "upstream response has no candidate") else Ok (mkCanonicalResult "" [] reason 0 0 (blocked reason))
  | candidate :: _ =>
    let candidate := objectMap candidate in let parts := field (objectMap (field candidate "content")) "parts" in
    _ ← validateGeminiParts parts;
    let stop := stringValue (field candidate "finishReason") in let usage := objectMap (field m "usageMetadata") in
    Ok (mkCanonicalResult (stringValue (field m "responseId")) (decodeGeminiParts parts) stop
          (number (field usage "promptTokenCount")) (number (field usage "candidatesTokenCount"))
          (if geminiSafetyStop stop then blocked stop else ""))
  end.

(** [decodeCanonicalResult] after the body is parsed. *)
Definition decode_result (protocol : string) (m : object) : result canonicalResult :=
  r ← (if (protocol =s "openai") || (protocol =s "openai_compatible") then openai_result m
       else if protocol =s "anthropic" then anthropic_result m
       else if protocol =s "gemini" then gemini_result m
       else Err (Msg "unsupported target protocol"));
  _ ← ensure (match cs_Parts r with [] => negb (cs_Refusal r =s "") | _ => true end) (Msg "upstream response has no supported content");
  Ok (mkCanonicalResult (if cs_ID r =s "" then "pag_translated" else cs_ID r) (cs_Parts r) (cs_Stop r) (cs_InputTokens r) (cs_OutputTokens r) (cs_Refusal r)).

Definition decodeCanonicalResult (protocol raw : string) : result canonicalResult :=
  let (m, ok) := Unmarshal raw in if ok then decode_result protocol m else Err json_error.
