(* ===== verification/Encode.v ===== *)
(** Writing canonical requests and results in a provider's dialect
    ([protocol/encode.go], [translate.go], [openAIContent]), and the two
    translations. *)
From S2P Require Import Prelude GoStd Money Counters Policy Json Decode Store Pricing PolicyService Admission Settlement Tokens Marshal Canonical Dialects.
Open Scope string_scope.
Open Scope Z_scope.
Open Scope list_scope.

(** A map under construction: [value[name] = v]. *)
Definition set_field (name : string) (v : any) (m : list (string * any)) : list (string * any) := m ++ [(name, v)].
Definition set_when (c : bool) (name : string) (v : any) (m : list (string * any)) : list (string * any) :=
  if c then set_field name v m else m.
Definition some_items {A} (l : list A) : bool := match l with [] => false | _ => true end.

(** * Content *)

Definition image_url (p : canonicalPart) : string :=
  if p_Data p =s "" then p_URL p else "data:" +:+ p_MediaType p +:+ ";base64," +:+ p_Data p.
Definition openai_content_part (p : canonicalPart) : list any :=
  if p_Kind p =s "text" then [AObject [("type", AString "text"); ("text", AString (p_Text p))]]
  else if p_Kind p =s "image" then
    [AObject [("type", AString "image_url");
              ("image_url", AObject (set_when (negb (p_Detail p =s "")) "detail" (AString (p_Detail p)) [("url", AString (image_url p))]))]]
  else [].
Definition openAIContent (parts : list canonicalPart) : any :=
  if hasNonText parts then AArray (flat_map openai_content_part parts) else AString (canonicalText parts).

Definition openai_tool_call (p : canonicalPart) : list any :=
  if p_Kind p =s "tool_use" then
    [AObject [("id", AString (p_ID p)); ("type", AString "function");
              ("function", AObject [("name", AString (p_Name p)); ("arguments", AString (marshal (any_of (p_Value p))))])]]
  else [].
Definition openAIToolCalls (parts : list canonicalPart) : list any := flat_map openai_tool_call parts.

Definition anthropic_encoded (p : canonicalPart) : list any :=
  if p_Kind p =s "text" then [AObject [("type", AString "text"); ("text", AString (p_Text p))]]
  else if p_Kind p =s "tool_use" then
    [AObject [("type", AString "tool_use"); ("id", AString (p_ID p)); ("name", AString (p_Name p)); ("input", any_of (p_Value p))]]
  else if p_Kind p =s "tool_result" then
    [AObject [("type", AString "tool_result"); ("tool_use_id", AString (p_ID p)); ("content", AString (p_Text p))]]
  else if p_Kind p =s "image" then
    [AObject [("type", AString "image");
              ("source", AObject (if p_Data p =s "" then [("type", AString "url"); ("url", AString (p_URL p))]
                                  else [("type", AString "base64"); ("media_type", AString (p_MediaType p)); ("data", AString (p_Data p))]))]]
  else [].
Definition anthropicParts (parts : list canonicalPart) : list any := flat_map anthropic_encoded parts.

Definition gemini_encoded (p : canonicalPart) : list any :=
  if p_Kind p =s "text" then [AObject [("text", AString (p_Text p))]]
  else if p_Kind p =s "tool_use" then
    [AObject [("functionCall", AObject [("name", AString (p_Name p)); ("args", any_of (p_Value p)); ("id", AString (p_ID p))])]]
  else if p_Kind p =s "tool_result" then
    [AObject [("functionResponse", AObject [("name", AString (p_Name p)); ("response", AObject [("result", AString (p_Text p))]); ("id", AString (p_ID p))])]]
  else if p_Kind p =s "image" then
    [if p_Data p =s "" then AObject [("fileData", AObject (set_when (negb (p_MediaType p =s "")) "mimeType" (AString (p_MediaType p)) [("fileUri", AString (p_URL p))]))]
     else AObject [("inlineData", AObject [("mimeType", AString (p_MediaType p)); ("data", AString (p_Data p))])]]
  else [].
Definition geminiParts (parts : list canonicalPart) : list any := flat_map gemini_encoded parts.

(** * Messages, tools and settings *)

Definition openai_tool_result (p : canonicalPart) : list any :=
  if p_Kind p =s "tool_result" then [AObject [("role", AString "tool"); ("tool_call_id", AString (p_ID p)); ("content", AString (p_Text p))]] else [].
Definition openai_encoded (m : canonicalMessage) : list any :=
  let calls := openAIToolCalls (m_Parts m) in
  flat_map openai_tool_result (m_Parts m)
  ++ (if m_Role m =s "tool" then []
      else [AObject (set_when (some_items calls) "tool_calls" (AArray calls) [("role", AString (m_Role m)); ("content", openAIContent (m_Parts m))])]).
Definition encodeOpenAIMessages (r : canonicalRequest) : list any :=
  (if cr_System r =s "" then [] else [AObject [("role", AString "system"); ("content", AString (cr_System r))]])
  ++ flat_map openai_encoded (cr_Messages r).
Definition encodeAnthropicMessages (r : canonicalRequest) : list any :=
  map (fun m => AObject [("role", AString (if m_Role m =s "tool" then "user" else m_Role m)); ("content", AArray (anthropicParts (m_Parts m)))]) (cr_Messages r).
Definition gemini_role (role : string) : string := if role =s "assistant" then "model" else if role =s "tool" then "user" else role.
Definition encodeGeminiContents (r : canonicalRequest) : list any :=
  map (fun m => AObject [("role", AString (gemini_role (m_Role m))); ("parts", AArray (geminiParts (m_Parts m)))]) (cr_Messages r).

Definition set_option {A} (v : option A) (name : string) (f : A -> any) (m : list (string * any)) : list (string * any) :=
  match v with Some x => set_field name (f x) m | None => m end.
Definition encodeSampling (m : list (string * any)) (r : canonicalRequest) (temperature topP topK : string) : list (string * any) :=
  let m := set_option (cr_Temperature r) temperature AFloat m in
  let m := set_option (cr_TopP r) topP AFloat m in
  if topK =s "" then m else set_option (cr_TopK r) topK AInt m.

Definition encodeOpenAITools (tools : list canonicalTool) : list any :=
  map (fun t => AObject [("type", AString "function");
                         ("function", AObject (set_when (tl_Strict t) "strict" (ABool true)
                            [("name", AString (tl_Name t)); ("description", AString (tl_Description t)); ("parameters", any_of (tl_Schema t))]))]) tools.
Definition encodeAnthropicTools (tools : list canonicalTool) : list any :=
  map (fun t => AObject (set_when (tl_Strict t) "strict" (ABool true)
                  [("name", AString (tl_Name t)); ("description", AString (tl_Description t)); ("input_schema", any_of (tl_Schema t))])) tools.
Definition encodeGeminiTools (tools : list canonicalTool) : list any :=
  map (fun t => AObject [("name", AString (tl_Name t)); ("description", AString (tl_Description t)); ("parameters", any_of (tl_Schema t))]) tools.

Definition encodeOpenAIToolChoice (m : list (string * any)) (r : canonicalRequest) : list (string * any) :=
  let '(choice, name, parallel) := cr_Choice r in
  let m := if negb (name =s "") then set_field "tool_choice" (AObject [("type", AString "function"); ("function", AObject [("name", AString name)])]) m
           else set_when (negb (choice =s "")) "tool_choice" (AString choice) m in
  set_option parallel "parallel_tool_calls" ABool m.

Definition encodeAnthropicToolChoice (m : list (string * any)) (r : canonicalRequest) : list (string * any) :=
  let '(choice, name, parallel) := cr_Choice r in
  let type := if negb (name =s "") then "tool" else if choice =s "required" then "any" else choice in
  let c := if negb (name =s "") then [("type", AString "tool"); ("name", AString name)] else [("type", AString type)] in
  let c := set_option parallel "disable_parallel_tool_use" (fun allowed => ABool (negb allowed)) c in
  set_when (negb (type =s "")) "tool_choice" (AObject c) m.

Definition gemini_calling_mode (choice : string) : string :=
  if choice =s "auto" then "AUTO" else if choice =s "none" then "NONE" else if choice =s "required" then "ANY" else "".
Definition encodeGeminiToolChoice (m : list (string * any)) (r : canonicalRequest) : list (string * any) :=
  let '(choice, name, _) := cr_Choice r in
  if (choice =s "") && (name =s "") then m
  else
    let config := if name =s "" then [("mode", AString (gemini_calling_mode choice))]
                  else [("mode", AString "ANY"); ("allowedFunctionNames", AArray [AString name])] in
    set_field "toolConfig" (AObject [("functionCallingConfig", AObject config)]) m.

(** * [TranslateRequest] *)

(** [url.PathEscape]. *)
Definition upper_hex (n : Z) : ascii := if n <? 10 then chr (48 + Z.to_nat n) else chr (55 + Z.to_nat n).
Definition path_safe (b : Z) : bool :=
  in_range b 97 122 || in_range b 65 90 || in_range b 48 57
  || existsb (Z.eqb b) [45; 95; 46; 126; 36; 38; 43; 58; 61; 64].
Fixpoint PathEscape (s : string) : string :=
  match s with
  | EmptyString => ""
  | String c s =>
    let b := byte_of c in
    if path_safe b then String c (PathEscape s)
    else String "%"%char (String (upper_hex (b / 16)) (String (upper_hex (b mod 16)) (PathEscape s)))
  end.

Definition schema_of (r : canonicalRequest) : value := fst (fst (cr_Output r)).

Definition openai_body (r : canonicalRequest) (model : string) : list (string * any) :=
  let '(schema, schemaName, strict) := cr_Output r in
  let m := [("model", AString model); ("messages", AArray (encodeOpenAIMessages r)); ("stream", ABool (cr_Stream r))] in
  let m := set_when (0 <? cr_MaxTokens r) "max_tokens" (AInt (cr_MaxTokens r)) m in
  let m := encodeSampling m r "temperature" "top_p" "" in
  let m := set_when (cr_Stream r) "stream_options" (AObject [("include_usage", ABool true)]) m in
  let m := set_when (some_items (cr_Tools r)) "tools" (AArray (encodeOpenAITools (cr_Tools r))) m in
  let m := encodeOpenAIToolChoice m r in
  let m := match cr_Stops r with
           | [] => m
           | [stop] => set_field "stop" (AString stop) m
           | stops => set_field "stop" (AArray (map AString stops)) m
           end in
  set_when (negb (is_null schema)) "response_format"
    (AObject [("type", AString "json_schema");
              ("json_schema", AObject [("name", AString schemaName); ("schema", any_of schema); ("strict", ABool strict)])]) m.

Definition anthropic_body (r : canonicalRequest) (model : string) : list (string * any) :=
  let maxTokens := if cr_MaxTokens r =? 0 then 4096 else cr_MaxTokens r in
  let m := [("model", AString model); ("messages", AArray (encodeAnthropicMessages r)); ("max_tokens", AInt maxTokens); ("stream", ABool (cr_Stream r))] in
  let m := encodeSampling m r "temperature" "top_p" "top_k" in
  let m := set_when (negb (cr_System r =s "")) "system" (AString (cr_System r)) m in
  let m := set_when (some_items (cr_Tools r)) "tools" (AArray (encodeAnthropicTools (cr_Tools r))) m in
  let m := encodeAnthropicToolChoice m r in
  let m := set_when (some_items (cr_Stops r)) "stop_sequences" (AArray (map AString (cr_Stops r))) m in
  set_when (negb (is_null (schema_of r))) "output_config"
    (AObject [("format", AObject [("type", AString "json_schema"); ("schema", any_of (schema_of r))])]) m.

Definition gemini_config (r : canonicalRequest) : list (string * any) :=
  let c := encodeSampling [] r "temperature" "topP" "topK" in
  let c := set_when (0 <? cr_MaxTokens r) "maxOutputTokens" (AInt (cr_MaxTokens r)) c in
  let c := set_when (some_items (cr_Stops r)) "stopSequences" (AArray (map AString (cr_Stops r))) c in
  if is_null (schema_of r) then c
  else set_field "responseJsonSchema" (any_of (schema_of r)) (set_field "responseMimeType" (AString "application/json") c).
Definition gemini_body (r : canonicalRequest) : list (string * any) :=
  let m := [("contents", AArray (encodeGeminiContents r))] in
  let m := set_when (negb (cr_System r =s "")) "systemInstruction" (AObject [("parts", AArray [AObject [("text", AString (cr_System r))]])]) m in
  let m := set_when (some_items (gemini_config r)) "generationConfig" (AObject (gemini_config r)) m in
  let m := set_when (some_items (cr_Tools r)) "tools" (AArray [AObject [("functionDeclarations", AArray (encodeGeminiTools (cr_Tools r)))]]) m in
  encodeGeminiToolChoice m r.

(** What the target's dialect cannot say. *)
Definition unnamed_result (r : canonicalRequest) : bool :=
  existsb (fun m => existsb (fun p => (p_Kind p =s "tool_result") && (p_Name p =s "")) (m_Parts m)) (cr_Messages r).
Definition is_openai (target : string) : bool := (target =s "openai") || (target =s "openai_compatible").
Definition preservable (target : string) (r : canonicalRequest) : result unit :=
  let gemini := target =s "gemini" in
  _ ← ensure (negb (gemini && match snd (cr_Choice r) with Some false => true | _ => false end))
        (Msg "parallel tool disabling cannot be preserved by Gemini translation");
  _ ← ensure (negb (is_openai target && is_some (cr_TopK r))) (Msg "top_k cannot be preserved by OpenAI translation");
  _ ← ensure (negb (gemini && unnamed_result r)) (Msg "tool result requires a matching named tool call for Gemini translation");
  ensure (negb (gemini && existsb tl_Strict (cr_Tools r))) (Msg "strict function tools cannot be preserved by Gemini translation").

(** The path and the body of a canonical request for a target. *)
Definition encode_request (target : string) (r : canonicalRequest) (upstreamModel : string) : result (string * list (string * any)) :=
  _ ← preservable target r;
  if is_openai target then Ok ("chat/completions", openai_body r upstreamModel)
  else if target =s "anthropic" then Ok ("messages", anthropic_body r upstreamModel)
  else if target =s "gemini" then
    Ok ("models/" +:+ PathEscape upstreamModel +:+ ":" +:+ (if cr_Stream r then "streamGenerateContent?alt=sse" else "generateContent"), gemini_body r)
  else Err (Msg "unsupported target protocol").

Definition TranslateRequest (client target body upstreamModel : string) : result (string * string) :=
  r ← decodeCanonicalRequest client body;
  out ← encode_request target r upstreamModel;
  Ok (fst out, marshal (AObject (snd out))).

(** * [TranslateResponse] *)

Definition usage_members (input output : string) (total : option string) (r : canonicalResult) : any :=
  AObject (set_option total (default "" total) (fun _ => AInt (wrap64 (cs_InputTokens r + cs_OutputTokens r)))
    [(input, AInt (cs_InputTokens r)); (output, AInt (cs_OutputTokens r))]).

Definition openai_response (r : canonicalResult) (publicModel : string) : list (string * any) :=
  let calls := openAIToolCalls (cs_Parts r) in
  let message := if cs_Refusal r =s "" then [("role", AString "assistant"); ("content", AString (canonicalText (cs_Parts r)))]
                 else [("role", AString "assistant"); ("content", ANull); ("refusal", AString (cs_Refusal r))] in
  [("id", AString (cs_ID r)); ("object", AString "chat.completion"); ("model", AString publicModel);
   ("choices", AArray [AObject [("index", AInt 0); ("message", AObject (set_when (some_items calls) "tool_calls" (AArray calls) message));
                                ("finish_reason", AString (openAIStop (cs_Stop r)))]]);
   ("usage", usage_members "prompt_tokens" "completion_tokens" (Some "total_tokens") r)].

Definition anthropic_response (r : canonicalResult) (publicModel : string) : list (string * any) :=
  let content := anthropicParts (cs_Parts r) in
  let content := if negb (cs_Refusal r =s "") && negb (some_items content) then [AObject [("type", AString "text"); ("text", AString (cs_Refusal r))]] else content in
  [("id", AString (cs_ID r)); ("type", AString "message"); ("role", AString "assistant"); ("model", AString publicModel); ("content", AArray content);
   ("stop_reason", AString (anthropicStop (cs_Stop r))); ("stop_sequence", ANull); ("usage", usage_members "input_tokens" "output_tokens" None r)].

Definition gemini_response (r : canonicalResult) (publicModel : string) : list (string * any) :=
  set_when (negb (cs_Refusal r =s "")) "promptFeedback" (AObject [("blockReason", AString "SAFETY")])
    [("candidates", AArray [AObject [("index", AInt 0); ("content", AObject [("role", AString "model"); ("parts", AArray (geminiParts (cs_Parts r)))]);
                                     ("finishReason", AString (geminiStop (cs_Stop r)))]]);
     ("usageMetadata", usage_members "promptTokenCount" "candidatesTokenCount" (Some "totalTokenCount") r);
     ("modelVersion", AString publicModel)].

Definition responses_call (p : canonicalPart) : list any :=
  if p_Kind p =s "tool_use" then
    [AObject [("id", AString ("fc_" +:+ p_ID p)); ("type", AString "function_call"); ("call_id", AString (p_ID p)); ("name", AString (p_Name p));
              ("arguments", AString (marshal (any_of (p_Value p)))); ("status", AString "completed")]]
  else [].
Definition output_text (text : string) : any := AObject [("type", AString "output_text"); ("text", AString text); ("annotations", AArray [])].
Definition responses_response (r : canonicalResult) (publicModel : string) : list (string * any) :=
  let text := canonicalText (cs_Parts r) in
  let content := (if text =s "" then [] else [output_text text])
                 ++ (if cs_Refusal r =s "" then [] else [AObject [("type", AString "refusal"); ("refusal", AString (cs_Refusal r))]]) in
  let output := (if some_items content then
                   [AObject [("id", AString "msg_translated"); ("type", AString "message"); ("role", AString "assistant"); ("status", AString "completed");
                             ("content", AArray content)]] else [])
                ++ flat_map responses_call (cs_Parts r) in
  [("id", AString (cs_ID r)); ("object", AString "response"); ("status", AString "completed"); ("model", AString publicModel); ("output", AArray output);
   ("usage", usage_members "input_tokens" "output_tokens" (Some "total_tokens") r)].

Definition encode_response (client : string) (r : canonicalResult) (publicModel : string) : result (list (string * any)) :=
  _ ← ensure (negb (((client =s "openai") || (client =s "responses")) && hasPartKind (cs_Parts r) "image"))
        (Msg "upstream image output cannot be represented by this client protocol");
  if client =s "openai" then Ok (openai_response r publicModel)
  else if client =s "anthropic" then Ok (anthropic_response r publicModel)
  else if client =s "gemini" then Ok (gemini_response r publicModel)
  else if client =s "responses" then Ok (responses_response r publicModel)
  else Err (Msg "unsupported client protocol").

Definition TranslateResponse (client target publicModel raw : string) : result string :=
  r ← decodeCanonicalResult target raw;
  m ← encode_response client r publicModel;
  Ok (marshal (AObject m)).
