(* ===== verification/Decoded.v ===== *)
(** What a decoded request is: the parts the four decoders make, the
    settings they accept, and the fields of a map that was written and read
    back. *)
From S2P Require Import Prelude GoStd Money Counters Policy Json Decode Store Pricing PolicyService Admission Settlement Tokens Marshal Printing Canonical Dialects Encode.
Open Scope string_scope.
Open Scope Z_scope.
Open Scope list_scope.

(** * Reading a map that was written *)

(** The value of a name in a map under construction: the last one set. *)
Fixpoint find_last {A} (m : list (string * A)) (k : string) : option A :=
  match m with
  | [] => None
  | (name, v) :: m => match find_last m k with Some v => Some v | None => if name =s k then Some v else None end
  end.

Lemma find_last_app {A} (m1 m2 : list (string * A)) k : find_last (m1 ++ m2) k = match find_last m2 k with Some v => Some v | None => find_last m1 k end.
Proof. induction m1 as [|[n v] m1 IH]; cbn; [by destruct (find_last m2 k)|]. rewrite IH. by destruct (find_last m2 k). Qed.

Lemma find_set n v m k : find_last (set_field n v m) k = if n =s k then Some v else find_last m k.
Proof. unfold set_field. rewrite find_last_app. cbn. by destruct (n =s k). Qed.
Lemma find_set_when c n v m k : find_last (set_when c n v m) k = if c then (if n =s k then Some v else find_last m k) else find_last m k.
Proof. unfold set_when. destruct c; [apply find_set|done]. Qed.
Lemma find_set_option {A} (o : option A) n (f : A -> any) m k :
  find_last (set_option o n f m) k = match o with Some x => if n =s k then Some (f x) else find_last m k | None => find_last m k end.
Proof. unfold set_option. destruct o; [apply find_set|done]. Qed.

Lemma find_last_In {A} (m : list (string * A)) k v : find_last m k = Some v -> In (k, v) m.
Proof.
  induction m as [|[n w] m IH]; [done|]. cbn. destruct (find_last m k) as [u|]; [intros [= ->]; auto|].
  destruct (String.eqb_spec n k) as [->|]; [intros [= ->]; auto|done].
Qed.
Lemma find_last_names {A} (m : list (string * A)) k : find_last m k = None <-> ~ In k (map fst m).
Proof.
  induction m as [|[n w] m IH]; cbn; [tauto|]. destruct (find_last m k) as [u|] eqn:E.
  - split; [done|]. intros H. exfalso. apply H. right. apply find_last_In in E. by apply (in_map fst) in E.
  - destruct (String.eqb_spec n k) as [->|Hne]; [|tauto]. split; [done|]. intros H. exfalso. tauto.
Qed.
Lemma find_last_unique {A} (m : list (string * A)) k v : List.NoDup (map fst m) -> In (k, v) m -> find_last m k = Some v.
Proof.
  induction m as [|[n w] m IH]; [done|]. cbn. intros Hn Hin. inversion Hn as [|? ? Hni Hn']; subst. destruct Hin as [[= -> ->]|Hin].
  - destruct (find_last m k) as [u|] eqn:E; [exfalso; apply Hni; apply find_last_In in E; by apply (in_map fst) in E|]. by rewrite String.eqb_refl.
  - by rewrite (IH Hn' Hin).
Qed.

Lemma last_of_each_names {A} (m : list (string * A)) : List.NoDup (map fst (last_of_each m)).
Proof.
  induction m as [|[n v] m IH]; cbn; [constructor|]. destruct (existsb _ m) eqn:E; [done|]. cbn. constructor; [|done].
  intros Hin. apply in_map_iff in Hin as ([n' v'] & En & Hin). cbn in En. subst n'. apply last_of_each_incl in Hin.
  enough (existsb (fun kv' => fst kv' =s n) m = true) by (cbn in E; congruence). apply existsb_exists. exists (n, v'). split; [done|apply String.eqb_refl].
Qed.
Lemma find_last_each {A} (m : list (string * A)) k : find_last (last_of_each m) k = find_last m k.
Proof.
  induction m as [|[n v] m IH]; [done|]. cbn. destruct (existsb _ m) eqn:E; cbn; rewrite IH; [|done].
  destruct (find_last m k) as [u|] eqn:F; [done|]. destruct (String.eqb_spec n k) as [->|]; [|done]. exfalso.
  apply find_last_names in F. apply F. apply existsb_exists in E as ([n' v'] & Hin & En). apply String.eqb_eq in En. cbn in En. subst n'. by apply (in_map fst) in Hin.
Qed.

Lemma lookup_field_find m k : lookup_field m k = find_last m k.
Proof. induction m as [|[n v] m IH]; [done|]. cbn. by rewrite IH. Qed.

Lemma find_last_perm {A} (m1 m2 : list (string * A)) k : m1 ≡ₚ m2 -> List.NoDup (map fst m1) -> find_last m1 k = find_last m2 k.
Proof.
  intros Hp Hn. destruct (find_last m1 k) as [v|] eqn:E.
  - symmetry. apply find_last_unique; [eapply Permutation_NoDup; [apply Permutation_map, Hp|done]|]. eapply Permutation_in; [exact Hp|by apply find_last_In].
  - symmetry. apply find_last_names. apply find_last_names in E. intros Hin. apply E. eapply Permutation_in; [symmetry; apply Permutation_map, Hp|done].
Qed.

(** The members of a map that was written and read back. *)
Lemma lookup_reread m k : lookup_field (reread_members m) k = reread <$> find_last m k.
Proof.
  rewrite lookup_field_find. unfold reread_members.
  assert (R : forall l, find_last (map (fun kv => (fst kv, reread (snd kv))) l) k = reread <$> find_last l k).
  { induction l as [|[n v] l IH]; [done|]. cbn. rewrite IH. destruct (find_last l k); [done|]. by destruct (n =s k). }
  rewrite R. f_equal. rewrite <- (find_last_each m k). apply find_last_perm; [apply SliceStable_perm|].
  eapply Permutation_NoDup; [apply Permutation_map; symmetry; apply SliceStable_perm|apply last_of_each_names].
Qed.
Lemma field_reread m k : field (reread_members m) k = default VNull (reread <$> find_last m k).
Proof. unfold field. by rewrite lookup_reread. Qed.

Lemma objectMap_reread m : objectMap (reread (AObject m)) = reread_members m.
Proof. by rewrite reread_object. Qed.
Lemma array_reread l : array (reread (AArray l)) = map reread l.
Proof. reflexivity. Qed.

(** * What decoding guarantees *)

(** The parts a decoder makes. *)
Inductive part_wf : canonicalPart -> Prop :=
| wf_text t : part_wf (text_part t)
| wf_use id name v : part_wf (tool_use_part id name v)
| wf_result id name t : part_wf (tool_result_part id name t)
| wf_data media data detail : HasPrefix media "image/" = true -> data <> "" -> base64_decodes data = true -> part_wf (image_part media data "" detail)
| wf_url media url detail : part_wf (image_part media "" url detail).

(** The four tool choices. *)
Definition choice_known (c : tool_choice) : Prop := In (fst (fst c)) [""; "auto"; "none"; "required"].
Definition count_set (v : option float) : Prop := forall f, v = Some f -> 0 <= fl_mantissa f.

Record request_wf (r : canonicalRequest) : Prop := mkRequestWf {
  rw_messages : cr_Messages r <> [];
  rw_parts : Forall (fun m => Forall part_wf (m_Parts m)) (cr_Messages r);
  rw_valid : validateCanonicalRequest r = Ok tt;
  rw_stops : Forall (fun s => s <> "") (cr_Stops r);
  rw_choice : choice_known (cr_Choice r);
  rw_temperature : count_set (cr_Temperature r);
  rw_topP : count_set (cr_TopP r);
  rw_topK : cr_TopK r <> Some 0 }.

Lemma mapM_Forall {A B} (f : A -> result B) (P : B -> Prop) l : (forall x y, f x = Ok y -> P y) -> forall l', mapM f l = Ok l' -> Forall P l'.
Proof.
  intros H. induction l as [|x l IH]; intros l' E; cbn in E; [by injection E as <-|].
  apply result_bind_Ok in E as (y & Hy & E). apply result_bind_Ok in E as (ys & Hys & E). injection E as <-. constructor; [by eapply H|auto].
Qed.
Lemma check_all_Forall {A} (f : A -> result unit) l : check_all f l = Ok tt <-> Forall (fun x => f x = Ok tt) l.
Proof.
  induction l as [|x l IH]; cbn; [by split|]. rewrite Forall_cons, <- IH. split.
  - intros ([] & H)%result_bind_Ok. tauto.
  - intros [-> H]. exact H.
Qed.
Lemma flat_map_Forall {A B} (f : A -> list B) (P : B -> Prop) l : (forall x, In x l -> Forall P (f x)) -> Forall P (flat_map f l).
Proof. induction l as [|x l IH]; intros H; cbn; [constructor|]. apply Forall_app. split; [apply H; by left|apply IH; intros y Hy; apply H; by right]. Qed.

Lemma canonicalImage_wf v detail p : canonicalImage v "" detail = Ok p -> part_wf p.
Proof.
  unfold canonicalImage. intros ([] & _ & H)%result_bind_Ok. destruct (HasPrefix v "data:"); [|injection H as <-; constructor].
  destruct (Cut _ _) as [[header data]|]; [|done]. apply result_bind_Ok in H as ([] & H1 & H). apply result_bind_Ok in H as ([] & H2 & H).
  apply result_bind_Ok in H as ([] & H3 & H). injection H as <-. apply ensure_Ok, andb_true_iff in H1 as [_ H1]. apply ensure_Ok in H2, H3.
  constructor; [done| |done]. intros ->. done.
Qed.

Lemma decodeOpenAIContent_wf v parts : decodeOpenAIContent v = Ok parts -> Forall part_wf parts.
Proof.
  intros H.
  assert (M : forall l out, mapM openai_part l = Ok out -> Forall part_wf out).
  { intros l. apply mapM_Forall. intros x y Hy. unfold openai_part in Hy. destruct (_ || _); [injection Hy as <-; constructor|].
    destruct (_ =s _); [by eapply canonicalImage_wf|]. destruct (_ =s _); [|done]. apply result_bind_Ok in Hy as ([] & _ & Hy). by eapply canonicalImage_wf. }
  unfold decodeOpenAIContent in H. destruct v; try (injection H as <-; repeat constructor);
    (apply result_bind_Ok in H as (out & Ho & H); apply M in Ho; destruct out; [done|by injection H as <-]).
Qed.

Lemma decodeAnthropicParts_wf v : validateAnthropicParts v = Ok tt -> Forall part_wf (decodeAnthropicParts v).
Proof.
  unfold validateAnthropicParts, decodeAnthropicParts. intros H.
  assert (M : forall l, check_all anthropic_part_ok l = Ok tt -> Forall part_wf (flat_map anthropic_part l)).
  { intros l Hl. apply flat_map_Forall. intros x Hx. apply check_all_Forall in Hl. rewrite List.Forall_forall in Hl. specialize (Hl x Hx).
    unfold anthropic_part_ok in Hl. unfold anthropic_part. cbv zeta in *. destruct (_ =s "text"); [repeat constructor|]. destruct (_ =s "tool_use"); [repeat constructor|].
    destruct (_ =s "tool_result"); [repeat constructor|]. destruct (_ =s "image"); [|constructor]. unfold anthropic_source in Hl. cbv zeta in Hl.
    destruct (_ =s "base64"); [|repeat constructor]. apply result_bind_Ok in Hl as ([] & H1 & H2). apply ensure_Ok, andb_true_iff in H1 as [H1 Hd]. apply ensure_Ok in H2.
    repeat constructor; [done| |done]. intros E. by rewrite E in Hd. }
  destruct v; try (by apply M). repeat constructor.
Qed.

Lemma decodeGeminiParts_wf v : validateGeminiParts v = Ok tt -> Forall part_wf (decodeGeminiParts v).
Proof.
  unfold validateGeminiParts, decodeGeminiParts. intros Hl. apply flat_map_Forall. intros x Hx. apply check_all_Forall in Hl. rewrite List.Forall_forall in Hl.
  specialize (Hl x Hx). unfold gemini_part_ok in Hl. apply result_bind_Ok in Hl as ([] & _ & Hl). apply result_bind_Ok in Hl as ([] & _ & Hl).
  unfold gemini_part. cbv zeta. rewrite !Forall_app. split_and!; match goal with |- Forall _ (if ?b then _ else _) => destruct b eqn:Eb end; try (repeat constructor).
  - apply result_bind_Ok in Hl as ([] & H1 & _). apply ensure_Ok, andb_true_iff in H1 as [H1 _]. done.
  - apply result_bind_Ok in Hl as ([] & H1 & _). apply ensure_Ok, andb_true_iff in H1 as [_ H1]. intros E. by rewrite E in H1.
  - apply result_bind_Ok in Hl as ([] & _ & H2). by apply ensure_Ok in H2.
Qed.

(** What the four decoders give before the names are resolved. *)
Record decoded_wf (r : canonicalRequest) : Prop := mkDecodedWf {
  dw_parts : Forall (fun m => Forall part_wf (m_Parts m)) (cr_Messages r);
  dw_stops : Forall (fun s => s <> "") (cr_Stops r);
  dw_choice : choice_known (cr_Choice r);
  dw_temperature : count_set (cr_Temperature r);
  dw_topP : count_set (cr_TopP r);
  dw_topK : cr_TopK r <> Some 0 }.

Lemma stopValues_nonempty v l : stopValues v = Ok l -> Forall (fun s => s <> "") l.
Proof.
  unfold stopValues. destruct v; try done; [by intros [= <-]|destruct (String.eqb_spec s ""); [done|intros [= <-]; by repeat constructor]|].
  apply mapM_Forall. intros x y Hy. destruct x; try done. cbn in Hy. destruct (String.eqb_spec s ""); [done|]. by injection Hy as <-.
Qed.
Lemma optionalNumber_set m name o : optionalNumber m name = Ok o -> count_set o.
Proof.
  unfold optionalNumber, count_set. destruct (field m name); try done; [by intros [= <-]|].
  destruct (fl_mantissa f <? 0) eqn:E; [done|]. intros [= <-] g [= <-]. lia.
Qed.
Lemma optionalPositive_nonzero m name o : optionalPositiveInteger m name = Ok o -> o <> Some 0.
Proof.
  unfold optionalPositiveInteger. destruct (is_null _); [by intros [= <-]|]. destruct (optionalInteger m name) as [n|]; [|done].
  destruct (n =? 0) eqn:E; [done|]. intros [= <-] [= ->]. done.
Qed.

Lemma openAIToolChoice_known m c : openAIToolChoice m = Ok c -> choice_known c.
Proof.
  unfold openAIToolChoice. intros (parallel & _ & H)%result_bind_Ok. cbv zeta in H. unfold choice_known.
  destruct (field m "tool_choice");
    try (apply result_bind_Ok in H as ([] & _ & H); apply result_bind_Ok in H as ([] & _ & H); injection H as <-; cbn; tauto).
  - injection H as <-. cbn. tauto.
  - apply result_bind_Ok in H as ([] & Hc & H). injection H as <-. apply ensure_Ok in Hc. rewrite !orb_true_iff, !String.eqb_eq in Hc. cbn. intuition congruence.
Qed.
Lemma anthropicToolChoice_known v c : anthropicToolChoice v = Ok c -> choice_known c.
Proof.
  unfold anthropicToolChoice, choice_known. destruct (is_null v); [intros [= <-]; cbn; tauto|]. cbv zeta. intros H.
  apply result_bind_Ok in H as ([] & Hc & H). apply result_bind_Ok in H as (parallel & _ & H). apply ensure_Ok in Hc. rewrite !orb_true_iff, !String.eqb_eq in Hc.
  destruct (String.eqb_spec (stringValue (field (objectMap v) "type")) "tool").
  - apply result_bind_Ok in H as ([] & _ & H). injection H as <-. cbn. tauto.
  - injection H as <-. destruct (_ =s "any") eqn:E; cbn; [tauto|]. apply String.eqb_neq in E. intuition congruence.
Qed.
Lemma geminiToolChoice_known v c : geminiToolChoice v = Ok c -> choice_known (c, None).
Proof.
  unfold geminiToolChoice, choice_known. destruct (is_null v); [intros [= <-]; cbn; tauto|]. cbv zeta. intros H.
  apply result_bind_Ok in H as ([] & _ & H). cbn [fst].
  assert (K : forall s, In (gemini_mode s) [""; "auto"; "none"; "required"]) by (intros s; unfold gemini_mode; repeat (destruct (_ =s _); [cbn; tauto|]); cbn; tauto).
  destruct (match array _ with [] => _ | _ => _ end) as [|w [|]]; [by injection H as <-; apply K| |done].
  apply result_bind_Ok in H as ([] & _ & H). injection H as <-. apply K.
Qed.

Lemma fold_items_inv {A} (P : A -> Prop) f (l : list value) : (forall a v b, P a -> f a v = Ok b -> P b) -> forall a b, P a -> fold_items f a l = Ok b -> P b.
Proof.
  intros Hf. induction l as [|v l IH]; intros a b Ha H; cbn in H; [by injection H as <-|]. apply result_bind_Ok in H as (c & Hc & H). eauto.
Qed.

Definition messages_wf (l : list canonicalMessage) : Prop := Forall (fun m => Forall part_wf (m_Parts m)) l.
Lemma messages_wf_snoc l role parts : messages_wf l -> Forall part_wf parts -> messages_wf (l ++ [mkCanonicalMessage role parts]).
Proof. intros Hl Hp. apply Forall_app. split; [done|by repeat constructor]. Qed.

Lemma openai_message_wf c v c' : messages_wf (snd c) -> openai_message c v = Ok c' -> messages_wf (snd c').
Proof.
  destruct c as [system messages]. unfold openai_message. cbn [snd]. intros Hm H. apply result_bind_Ok in H as (parts & Hp & H).
  apply decodeOpenAIContent_wf in Hp. cbv zeta in H. destruct (_ || _); [apply result_bind_Ok in H as ([] & _ & H); by injection H as <-|].
  apply result_bind_Ok in H as (parts' & Hp' & H). apply result_bind_Ok in H as (calls & Hc & H). injection H as <-. cbn [snd]. apply messages_wf_snoc; [done|].
  apply Forall_app. split.
  - destruct (_ =s "tool"); [|by injection Hp' as <-]. apply result_bind_Ok in Hp' as ([] & _ & Hp'). injection Hp' as <-. repeat constructor.
  - eapply mapM_Forall; [|exact Hc]. intros x y Hy. unfold openai_call in Hy. apply result_bind_Ok in Hy as (args & _ & Hy). injection Hy as <-. constructor.
Qed.

Lemma responses_item_wf c v c' : messages_wf (snd c) -> responses_item c v = Ok c' -> messages_wf (snd c').
Proof.
  destruct c as [system messages]. unfold responses_item. cbn [snd]. intros Hm H. cbv zeta in H. destruct (_ || _).
  - apply result_bind_Ok in H as (parts & Hp & H). apply decodeOpenAIContent_wf in Hp. destruct (_ || _); [apply result_bind_Ok in H as ([] & _ & H); by injection H as <-|].
    injection H as <-. by apply messages_wf_snoc.
  - destruct (_ =s "function_call_output"); [injection H as <-; apply messages_wf_snoc; [done|repeat constructor]|].
    destruct (_ =s "function_call"); [|done]. destruct (UnmarshalAny _); [|done]. injection H as <-. apply messages_wf_snoc; [done|repeat constructor].
Qed.

Ltac bind_in H x K := apply result_bind_Ok in H as (x & K & H).

Lemma decode_openai_wf m r : decode_openai m = Ok r -> decoded_wf r.
Proof.
  unfold decode_openai. intros H. bind_in H u1 K1. bind_in H u2 K2. bind_in H t K3. bind_in H p K4. bind_in H n K5. bind_in H n2 K6. bind_in H st K7.
  bind_in H o K8. bind_in H ch K9. bind_in H c K10. bind_in H tools K11. injection H as <-. split; cbn.
  - refine (fold_items_inv (fun c => messages_wf (snd c)) openai_message _ openai_message_wf _ c _ K10). constructor.
  - by eapply stopValues_nonempty.
  - by eapply openAIToolChoice_known.
  - by eapply optionalNumber_set.
  - by eapply optionalNumber_set.
  - done.
Qed.

Lemma decode_anthropic_wf m r : decode_anthropic m = Ok r -> decoded_wf r.
Proof.
  unfold decode_anthropic. intros H. bind_in H u1 K1. bind_in H t K2. bind_in H p K3. bind_in H k K4. bind_in H u2 K5. cbv zeta in H. bind_in H u3 K6. bind_in H n K7.
  bind_in H st K8. bind_in H o K9. bind_in H ch K10. bind_in H ms K11. injection H as <-. split; cbn.
  - eapply mapM_Forall; [|exact K11]. intros x y Hy. unfold anthropic_message in Hy. cbv zeta in Hy. apply result_bind_Ok in Hy as ([] & Hv & Hy). injection Hy as <-. by apply decodeAnthropicParts_wf.
  - by eapply stopValues_nonempty.
  - by eapply anthropicToolChoice_known.
  - by eapply optionalNumber_set.
  - by eapply optionalNumber_set.
  - by eapply optionalPositive_nonzero.
Qed.

Lemma decode_responses_wf m r : decode_responses m = Ok r -> decoded_wf r.
Proof.
  unfold decode_responses. intros H. bind_in H u1 K1. bind_in H u2 K2. bind_in H u3 K3. bind_in H t K4. bind_in H p K5. bind_in H n K6. bind_in H o K7.
  bind_in H ch K8. bind_in H c K9. bind_in H tools K10. injection H as <-. split; cbn; [|constructor|by eapply openAIToolChoice_known|by eapply optionalNumber_set|by eapply optionalNumber_set|done].
  assert (F : forall l, fold_items responses_item (stringValue (field m "instructions"), []) l = Ok c -> messages_wf (snd c)).
  { intros l H. refine (fold_items_inv (fun c => messages_wf (snd c)) responses_item _ responses_item_wf _ c _ H). constructor. }
  destruct (field m "input"); try (by eapply F). injection K9 as <-. repeat constructor.
Qed.

Lemma decode_gemini_wf m r : decode_gemini m = Ok r -> decoded_wf r.
Proof.
  unfold decode_gemini. intros H. bind_in H u1 K1. cbv zeta in H. bind_in H u2 K2. bind_in H u3 K3. bind_in H u4 K4. bind_in H u5 K5. bind_in H t K6. bind_in H p K7.
  bind_in H k K8. bind_in H n K9. bind_in H st K10. bind_in H o K11. bind_in H ch K12. bind_in H ms K13. injection H as <-. split; cbn.
  - eapply mapM_Forall; [|exact K13]. intros x y Hy. unfold gemini_message in Hy. cbv zeta in Hy. apply result_bind_Ok in Hy as ([] & Hv & Hy). injection Hy as <-. by apply decodeGeminiParts_wf.
  - by eapply stopValues_nonempty.
  - destruct ch. by eapply geminiToolChoice_known.
  - by eapply optionalNumber_set.
  - by eapply optionalNumber_set.
  - by eapply optionalPositive_nonzero.
Qed.

(** Resolving names changes nothing else. *)
Lemma with_name_wf p name : part_wf p -> p_Kind p = "tool_result" -> part_wf (with_name name p).
Proof. destruct 1; intros [=]. constructor. Qed.

Lemma resolve_parts_wf parts : forall names, Forall part_wf parts -> Forall part_wf (snd (resolve_parts names parts)).
Proof.
  induction parts as [|p parts IH]; intros names H; [constructor|]. apply Forall_cons in H as [Hp H]. cbn [resolve_parts].
  destruct (p_Kind p =s "tool_use") eqn:E1; [|destruct ((p_Kind p =s "tool_result") && (p_Name p =s "")) eqn:E2].
  - specialize (IH ((p_ID p, p_Name p) :: names) H). destruct (resolve_parts _ parts) as [n l]. by constructor.
  - specialize (IH names H). destruct (resolve_parts _ parts) as [n l]. constructor; [|done]. apply andb_true_iff in E2 as [E2%String.eqb_eq _]. by apply with_name_wf.
  - specialize (IH names H). destruct (resolve_parts _ parts) as [n l]. by constructor.
Qed.
Lemma resolve_messages_wf l : forall names, messages_wf l -> messages_wf (resolve_messages names l).
Proof.
  induction l as [|m l IH]; intros names H; [constructor|]. apply Forall_cons in H as [Hm H]. cbn [resolve_messages].
  pose proof (resolve_parts_wf (m_Parts m) names Hm) as Hp. destruct (resolve_parts names (m_Parts m)) as [n parts]. constructor; [done|by apply IH].
Qed.

Lemma decode_request_wf client m r : decode_request client m = Ok r -> request_wf r.
Proof.
  unfold decode_request. intros H. bind_in H r0 K. assert (W : decoded_wf r0).
  { destruct (_ =s _); [by eapply decode_openai_wf|]. destruct (_ =s _); [by eapply decode_anthropic_wf|]. destruct (_ =s _); [by eapply decode_responses_wf|].
    destruct (_ =s _); [by eapply decode_gemini_wf|done]. }
  bind_in H u1 K1. cbv zeta in H. bind_in H u2 K2. injection H as <-. destruct u2. destruct W as [P S C T1 T2 T3]. apply ensure_Ok in K1. split; try done.
  - cbn. unfold resolveToolResultNames. destruct (cr_Messages r0); [done|]. cbn. by destruct (resolve_parts _ _).
  - by apply resolve_messages_wf.
Qed.
