(* ===== verification/Translated.v ===== *)
(** Translations say what was said: the body written for an Anthropic
    provider, read back in its dialect, is the client's request, and the
    answer written for an OpenAI client is the provider's answer. *)
From S2P Require Import Prelude GoStd Money Counters Policy Json Decode Store Pricing PolicyService Admission Settlement Tokens Marshal Printing Canonical Dialects Encode Decoded.
Open Scope string_scope.
Open Scope Z_scope.
Open Scope list_scope.

(** * Reading back a body written for Anthropic *)

(** A value once more through text: as a map, it is the same. *)
Definition norm (v : value) : value := reread (any_of v).

Definition view_part (p : canonicalPart) : canonicalPart :=
  if p_Kind p =s "tool_use" then tool_use_part (p_ID p) (p_Name p) (norm (p_Value p))
  else if p_Kind p =s "tool_result" then tool_result_part (p_ID p) "" (p_Text p)
  else if p_Kind p =s "image" then (if p_Data p =s "" then image_part "" "" (p_URL p) "" else image_part (p_MediaType p) (p_Data p) "" "")
  else p.
Definition user_role (role : string) : string := if role =s "tool" then "user" else role.
Definition view_message (m : canonicalMessage) : canonicalMessage := mkCanonicalMessage (user_role (m_Role m)) (map view_part (m_Parts m)).
Definition view_tool (t : canonicalTool) : canonicalTool := mkCanonicalTool (tl_Name t) (tl_Description t) (norm (tl_Schema t)) (tl_Strict t).
Definition view_output (o : output_format) : output_format := if is_null (fst (fst o)) then no_format else (norm (fst (fst o)), "response", true).
(** A named tool is a required one; the parallel setting travels with a choice. *)
Definition view_choice (c : tool_choice) : tool_choice :=
  let '(choice, name, parallel) := c in
  if negb (name =s "") then ("required", name, parallel) else if choice =s "" then ("", "", None) else (choice, "", parallel).

(** What an Anthropic provider is told of a request. *)
Definition anthropic_view (r : canonicalRequest) : canonicalRequest :=
  mkCanonicalRequest (cr_System r) (resolveToolResultNames (map view_message (cr_Messages r))) (map view_tool (cr_Tools r))
    (if cr_MaxTokens r =? 0 then 4096 else cr_MaxTokens r) (cr_Stream r) (cr_Stops r) (view_output (cr_Output r)) (view_choice (cr_Choice r))
    (cr_Temperature r) (cr_TopP r) (cr_TopK r).

Lemma norm_null v : is_null (norm v) = is_null v.
Proof. destruct v; done. Qed.

(** Every image says where it is. *)
Definition part_addressed (p : canonicalPart) : bool := negb ((p_Kind p =s "image") && (p_Data p =s "") && (p_URL p =s "")).
Definition addressed (r : canonicalRequest) : bool := forallb (fun m => forallb part_addressed (m_Parts m)) (cr_Messages r).
(** The token limits are exact as JSON numbers. *)
Definition exact_limits (r : canonicalRequest) : bool :=
  (0 <=? cr_MaxTokens r) && (cr_MaxTokens r <=? maxSafeInteger) && match cr_TopK r with Some k => (0 <=? k) && (k <=? maxSafeInteger) | None => true end.

(** ** Numbers *)

Lemma exact_power m k : 0 <= k -> exact_integer (mkFloat (m * 2 ^ k) (- k)) = Some m.
Proof.
  intros Hk. unfold exact_integer. cbn [fl_exponent fl_mantissa]. rewrite Z.opp_involutive. destruct (Z.leb_spec 0 (- k)).
  - assert (k = 0) as -> by lia. cbn. f_equal. lia.
  - assert (0 < 2 ^ k) by (apply Z.pow_pos_nonneg; lia). by rewrite Z.mod_mul, Z.div_mul by lia.
Qed.

Lemma round_even_exact p : round_even p 1 = p.
Proof. unfold round_even. by rewrite Z.div_1_r, Z.mod_1_r. Qed.

(** An integer up to [2^53] is its float. *)
Lemma nearest_float_safe p : 0 < p <= maxSafeInteger -> exists f, nearest_float p 1 = Some f /\ exact_integer f = Some p /\ 0 < fl_mantissa f.
Proof.
  intros Hp. unfold maxSafeInteger in Hp. unfold nearest_float. cbv zeta. change (Z.log2 1) with 0. rewrite Z.sub_0_r, !Z.mul_1_l.
  pose proof (Z.log2_nonneg p). assert (Hl : Z.log2 p < 53) by (apply Z.log2_lt_pow2; lia). pose proof (Z.log2_spec p ltac:(lia)) as [Hlow _].
  rewrite (proj2 (Z.leb_le 0 (Z.log2 p))) by done. rewrite (proj2 (Z.ltb_ge p (2 ^ Z.log2 p))) by done.
  rewrite (Z.max_r (-1074)) by lia. destruct (0 <=? Z.log2 p - 52) eqn:E.
  - assert (Z.log2 p = 52) as -> by lia. change (52 - 52) with 0. change (2 ^ 0) with 1. rewrite round_even_exact. cbn [orb andb Z.eqb Z.ltb Z.compare].
    exists (mkFloat p 0). split; [done|]. split; [|cbn; lia]. unfold exact_integer. cbn. f_equal. lia.
  - rewrite round_even_exact. replace (- (Z.log2 p - 52)) with (52 - Z.log2 p) by lia. rewrite (proj2 (Z.eqb_neq (Z.log2 p - 52) 971)), (proj2 (Z.ltb_ge 971 (Z.log2 p - 52))) by lia.
    cbn [andb orb]. eexists. split; [done|]. split; [|cbn; pose proof (Z.pow_pos_nonneg 2 (52 - Z.log2 p)); nia].
    replace (Z.log2 p - 52) with (- (52 - Z.log2 p)) by lia. apply exact_power. lia.
Qed.

Lemma int_float_safe n : 0 <= n <= maxSafeInteger -> exact_integer (int_float n) = Some n /\ 0 <= fl_mantissa (int_float n).
Proof.
  intros Hn. destruct (Z.eq_dec n 0) as [->|Hne]; [by vm_compute|]. unfold int_float, float_of. cbn [dc_digits dc_neg dc_scale].
  rewrite (proj2 (Z.ltb_ge n 0)), Z.abs_eq, (proj2 (Z.eqb_neq n 0)) by lia. cbn [Z.leb Z.compare]. rewrite Z.pow_0_r, Z.mul_1_r.
  destruct (nearest_float_safe n ltac:(lia)) as (f & -> & He & Hm). cbn [fmap option_fmap option_map default with_sign]. unfold with_sign, id.
  rewrite (proj2 (Z.eqb_neq (fl_mantissa f) 0)) by lia. split; [done|lia].
Qed.

Lemma to_int64_exact f n : exact_integer f = Some n -> 0 <= fl_mantissa f -> n <= max_int64 -> to_int64 f = n.
Proof.
  unfold exact_integer, to_int64. intros H Hm Hn. destruct (0 <=? fl_exponent f) eqn:E.
  - injection H as H. rewrite H. assert (0 <= n) by (rewrite <- H; apply Z.mul_nonneg_nonneg; [lia|apply Z.pow_nonneg; lia]).
    by rewrite (proj2 (Z.leb_le min_int64 n)), (proj2 (Z.leb_le n max_int64)) by (unfold_ints; lia).
  - destruct (_ =? 0) eqn:E2; [|done]. injection H as H. assert (0 < 2 ^ - fl_exponent f) by (apply Z.pow_pos_nonneg; lia).
    rewrite Z.quot_div_nonneg, H by lia. assert (0 <= n) by (rewrite <- H; apply Z.div_pos; lia).
    by rewrite (proj2 (Z.leb_le min_int64 n)), (proj2 (Z.leb_le n max_int64)) by (unfold_ints; lia).
Qed.

Lemma optionalInteger_int m name n : field m name = VNumber (int_float n) -> 0 <= n <= maxSafeInteger -> optionalInteger m name = Ok n.
Proof.
  intros E Hn. unfold optionalInteger. rewrite E. destruct (int_float_safe n Hn) as [He Hm]. rewrite (proj2 (Z.ltb_ge _ 0)) by done. rewrite He.
  unfold maxSafeInteger in Hn. rewrite (proj2 (Z.ltb_ge (2 ^ 63) n)) by lia. by rewrite (to_int64_exact _ _ He) by (unfold max_int64; lia).
Qed.

(** ** Fields of a body *)

Lemma find_when_other c n v m k : (n =s k) = false -> find_last (set_when c n v m) k = find_last m k.
Proof. intros E. rewrite find_set_when, E. by destruct c. Qed.
Lemma find_when_here c n v m : find_last (set_when c n v m) n = if c then Some v else find_last m n.
Proof. by rewrite find_set_when, String.eqb_refl. Qed.
Lemma find_option_other {A} (o : option A) n (f : A -> any) m k : (n =s k) = false -> find_last (set_option o n f m) k = find_last m k.
Proof. intros E. rewrite find_set_option, E. by destruct o. Qed.
Lemma find_option_here {A} (o : option A) n (f : A -> any) m : find_last (set_option o n f m) n = match o with Some x => Some (f x) | None => find_last m n end.
Proof. by rewrite find_set_option, String.eqb_refl. Qed.

(** Walks a body to the field asked for. *)
Ltac walk_body :=
  repeat first [ rewrite find_when_here | rewrite find_option_here
               | rewrite find_when_other by reflexivity | rewrite find_option_other by reflexivity ].

Definition anthropic_choice (r : canonicalRequest) : option any := find_last (encodeAnthropicToolChoice [] r) "tool_choice".

Lemma find_choice_other m r k : ("tool_choice" =s k) = false -> find_last (encodeAnthropicToolChoice m r) k = find_last m k.
Proof. intros E. unfold encodeAnthropicToolChoice. destruct (cr_Choice r) as [[choice name] parallel]. cbv zeta. by apply find_when_other. Qed.
Lemma find_choice_here m r : find_last m "tool_choice" = None -> find_last (encodeAnthropicToolChoice m r) "tool_choice" = anthropic_choice r.
Proof.
  intros E. unfold anthropic_choice, encodeAnthropicToolChoice. destruct (cr_Choice r) as [[choice name] parallel]. cbv zeta.
  rewrite !find_when_here. by destruct (negb _).
Qed.

Section Body.
Context (r : canonicalRequest) (model : string).
Let body := reread_members (anthropic_body r model).

Ltac body_field :=
  unfold body; rewrite field_reread; unfold anthropic_body, encodeSampling; cbv zeta; change ("top_k" =s "") with false; cbv iota;
  walk_body; rewrite ?find_choice_other by reflexivity; walk_body.

Lemma body_messages : field body "messages" = VArray (map reread (encodeAnthropicMessages r)).
Proof. body_field. reflexivity. Qed.
Lemma body_stream : field body "stream" = VBool (cr_Stream r).
Proof. body_field. reflexivity. Qed.
Lemma body_max_tokens : field body "max_tokens" = VNumber (int_float (if cr_MaxTokens r =? 0 then 4096 else cr_MaxTokens r)).
Proof. body_field. reflexivity. Qed.
Lemma body_temperature : field body "temperature" = match cr_Temperature r with Some f => VNumber f | None => VNull end.
Proof. body_field. by destruct (cr_Temperature r). Qed.
Lemma body_topP : field body "top_p" = match cr_TopP r with Some f => VNumber f | None => VNull end.
Proof. body_field. by destruct (cr_TopP r). Qed.
Lemma body_topK : field body "top_k" = match cr_TopK r with Some k => VNumber (int_float k) | None => VNull end.
Proof. body_field. by destruct (cr_TopK r). Qed.
Lemma body_system : field body "system" = if cr_System r =s "" then VNull else VString (cr_System r).
Proof. body_field. by destruct (cr_System r =s ""). Qed.
Lemma body_tools : field body "tools" = if some_items (cr_Tools r) then VArray (map reread (encodeAnthropicTools (cr_Tools r))) else VNull.
Proof. body_field. by destruct (some_items _). Qed.
Lemma body_stops : field body "stop_sequences" = if some_items (cr_Stops r) then VArray (map reread (map AString (cr_Stops r))) else VNull.
Proof. body_field. by destruct (some_items _). Qed.
Lemma body_output : field body "output_config" =
  if is_null (schema_of r) then VNull
  else VObject [("format", VObject [("schema", norm (schema_of r)); ("type", VString "json_schema")])].
Proof. body_field. by destruct (is_null _). Qed.
Lemma body_choice : field body "tool_choice" = default VNull (reread <$> anthropic_choice r).
Proof.
  unfold body; rewrite field_reread; unfold anthropic_body, encodeSampling; cbv zeta; change ("top_k" =s "") with false; cbv iota. walk_body.
  rewrite find_choice_here; [done|]. by walk_body.
Qed.
Lemma body_rejects : rejectPresent body ["thinking"; "mcp_servers"; "container"; "metadata"; "service_tier"] = Ok tt.
Proof.
  assert (N : forall k, In k ["thinking"; "mcp_servers"; "container"; "metadata"; "service_tier"] -> is_null (field body k) = true).
  { cbn. intros k Hk. repeat destruct Hk as [<-|Hk]; [body_field; reflexivity..|done]. }
  cbn [rejectPresent]. by rewrite !N by (cbn; tauto).
Qed.
End Body.

(** ** Parts, messages, tools and settings *)

(** Comparisons of names known in the code. *)
Ltac closed_eqb :=
  repeat match goal with
  | |- context [String.eqb ?a ?b] =>
      let c := eval vm_compute in (String.eqb a b) in
      match c with true => change (String.eqb a b) with true | false => change (String.eqb a b) with false end
  end; cbv iota beta.

Lemma anthropic_part_back p : part_wf p -> validate_part p = Ok tt -> part_addressed p = true ->
  exists e, anthropic_encoded p = [e] /\ anthropic_part_ok (reread e) = Ok tt /\ anthropic_part (reread e) = [view_part p].
Proof.
  intros W V A. destruct W as [t|id name v|id name t|media data detail Hm Hd Hb|media url detail].
  - eexists. by split_and!.
  - eexists. split_and!; [done| |done]. cbn in V. apply ensure_Ok in V. change (ensure (negb ((id =s "") || (name =s ""))) (Msg "tool_use requires id and name") = Ok tt). by rewrite V.
  - eexists. split_and!; [done| |done]. cbn in V. apply ensure_Ok in V. change (ensure (negb (id =s "")) (Msg "tool_result requires tool_use_id") = Ok tt). by rewrite V.
  - apply String.eqb_neq in Hd. unfold anthropic_encoded, view_part. cbn [p_Kind p_Data p_MediaType p_URL image_part]. closed_eqb. rewrite Hd.
    eexists. split_and!; [done| |done].
    change ((_ ← ensure (HasPrefix media "image/" && negb (data =s "")) (Msg "base64 image requires media_type and data");
             ensure (base64_decodes data) (Msg "image contains invalid base64")) = Ok tt). by rewrite Hm, Hd, Hb.
  - unfold part_addressed in A. cbn [p_Kind p_Data p_URL image_part] in A. destruct (url =s "") eqn:E; [done|]. eexists. split_and!; [done| |done].
    change (ensure (negb (url =s "")) (Msg "url image requires url") = Ok tt). by rewrite E.
Qed.

Lemma anthropic_parts_back parts :
  Forall part_wf parts -> check_all validate_part parts = Ok tt -> forallb part_addressed parts = true ->
  check_all anthropic_part_ok (map reread (anthropicParts parts)) = Ok tt
  /\ flat_map anthropic_part (map reread (anthropicParts parts)) = map view_part parts.
Proof.
  induction 1 as [|p parts Hp _ IH]; intros V A; [done|]. cbn in V, A. apply result_bind_Ok in V as ([] & V1 & V2). apply andb_true_iff in A as [A1 A2].
  destruct (anthropic_part_back p Hp V1 A1) as (e & E & Hok & Hb). destruct (IH V2 A2) as [IH1 IH2]. unfold anthropicParts in *. cbn [flat_map map]. rewrite E.
  cbn [app map check_all flat_map]. rewrite Hok, Hb. by cbn; rewrite IH1, IH2.
Qed.

Lemma anthropic_message_back m :
  Forall part_wf (m_Parts m) -> check_all validate_part (m_Parts m) = Ok tt -> forallb part_addressed (m_Parts m) = true ->
  anthropic_message (reread (AObject [("role", AString (user_role (m_Role m))); ("content", AArray (anthropicParts (m_Parts m)))])) = Ok (view_message m).
Proof.
  intros W V A. destruct (anthropic_parts_back _ W V A) as [H1 H2]. unfold anthropic_message. cbv zeta. rewrite objectMap_reread.
  change (field (reread_members _) "content") with (VArray (map reread (anthropicParts (m_Parts m)))).
  change (stringValue (field (reread_members _) "role")) with (user_role (m_Role m)).
  unfold validateAnthropicParts, decodeAnthropicParts. cbn [array]. rewrite H1, H2. reflexivity.
Qed.

Lemma anthropic_tool_back t : anthropic_tool (reread (AObject (set_when (tl_Strict t) "strict" (ABool true)
    [("name", AString (tl_Name t)); ("description", AString (tl_Description t)); ("input_schema", any_of (tl_Schema t))]))) = view_tool t.
Proof. unfold view_tool. by destruct (tl_Strict t) eqn:E. Qed.

Lemma stops_back stops : Forall (fun s => s <> "") stops ->
  stopValues (if some_items stops then VArray (map reread (map AString stops)) else VNull) = Ok stops.
Proof.
  intros H. destruct stops as [|s l]; [done|]. cbn [some_items stopValues]. induction H as [|s' l' Hs _ IH]; [done|]. cbn [map reread mapM stop_value].
  apply String.eqb_neq in Hs. rewrite Hs. cbn. cbn in IH. by rewrite IH.
Qed.

Lemma output_back r model : anthropic_format (objectMap (field (objectMap (field (reread_members (anthropic_body r model)) "output_config")) "format")) = Ok (view_output (cr_Output r)).
Proof.
  rewrite body_output. unfold view_output, schema_of. destruct (is_null _) eqn:E; [done|]. cbn -[is_null norm]. by rewrite norm_null, E.
Qed.

Lemma choice_back r : choice_known (cr_Choice r) -> anthropicToolChoice (default VNull (reread <$> anthropic_choice r)) = Ok (view_choice (cr_Choice r)).
Proof.
  unfold anthropic_choice, encodeAnthropicToolChoice, choice_known. destruct (cr_Choice r) as [[choice name] parallel]. cbn [fst]. intros Hc. cbv zeta. rewrite find_when_here.
  unfold view_choice. destruct (name =s "") eqn:En; cbn [negb].
  - apply String.eqb_eq in En. subst name. cbn in Hc. repeat destruct Hc as [<-|Hc]; [..|done]; destruct parallel as [[]|]; reflexivity.
  - destruct parallel as [b|].
    + change ((_ ← ensure (negb (name =s "")) (Msg "anthropic tool choice requires name"); Ok ("required", name, Some (negb (negb b)))) = Ok ("required", name, Some b)).
      by rewrite En, negb_involutive.
    + change ((_ ← ensure (negb (name =s "")) (Msg "anthropic tool choice requires name"); Ok ("required", name, None)) = Ok ("required", name, None : option bool)).
      by rewrite En.
Qed.

(** ** Validation after the translation *)

Lemma resolve_parts_valid parts : forall names, check_all validate_part parts = Ok tt -> check_all validate_part (snd (resolve_parts names parts)) = Ok tt.
Proof.
  induction parts as [|p parts IH]; intros names H; [done|]. cbn in H. apply result_bind_Ok in H as ([] & Hp & H). cbn [resolve_parts].
  destruct (p_Kind p =s "tool_use") eqn:E1; [|destruct ((p_Kind p =s "tool_result") && (p_Name p =s "")) eqn:E2].
  - specialize (IH ((p_ID p, p_Name p) :: names) H). destruct (resolve_parts _ parts) as [n l]. cbn in *. by rewrite Hp.
  - specialize (IH names H). destruct (resolve_parts _ parts) as [n l]. cbn in *. apply andb_true_iff in E2 as [E2 _].
    assert (validate_part (with_name (known_name names (p_ID p)) p) = Ok tt) as ->; [|done]. unfold validate_part in *. cbn [with_name p_Kind p_ID] in *. rewrite E1, E2 in *. exact Hp.
  - specialize (IH names H). destruct (resolve_parts _ parts) as [n l]. cbn in *. by rewrite Hp.
Qed.
Lemma resolve_parts_some parts names : match snd (resolve_parts names parts) with [] => false | _ => true end = match parts with [] => false | _ => true end.
Proof.
  destruct parts as [|p parts]; [done|]. cbn [resolve_parts]. match goal with |- context [if ?b then ?x else ?y] => destruct (if b then x else y) as [n' p'] end.
  by destruct (resolve_parts n' parts).
Qed.
Lemma resolve_messages_valid l : forall names, check_all validate_message l = Ok tt -> check_all validate_message (resolve_messages names l) = Ok tt.
Proof.
  induction l as [|m l IH]; intros names H; [done|]. cbn [check_all] in H. apply result_bind_Ok in H as ([] & Hm & H). cbn [resolve_messages].
  unfold validate_message in Hm. apply result_bind_Ok in Hm as ([] & H1 & Hm). apply result_bind_Ok in Hm as ([] & H2 & H3).
  pose proof (resolve_parts_valid _ names H3) as H3'. pose proof (resolve_parts_some (m_Parts m) names) as H2'.
  destruct (resolve_parts names (m_Parts m)) as [n parts]. cbn [check_all snd] in *. rewrite (IH n H).
  unfold validate_message. cbn [m_Role m_Parts]. apply ensure_Ok in H1, H2. by rewrite H1, H2', H2, H3'.
Qed.

Lemma view_part_valid p : part_wf p -> validate_part p = Ok tt -> validate_part (view_part p) = Ok tt.
Proof. destruct 1; try done; intros _; unfold view_part; cbn; by case_match. Qed.
Lemma view_message_valid m : Forall part_wf (m_Parts m) -> validate_message m = Ok tt -> validate_message (view_message m) = Ok tt.
Proof.
  unfold validate_message. intros W H. apply result_bind_Ok in H as ([] & H1 & H). apply result_bind_Ok in H as ([] & H2 & H3). apply ensure_Ok in H1, H2. cbn [view_message m_Role m_Parts].
  assert ((user_role (m_Role m) =s "user") || (user_role (m_Role m) =s "assistant") || (user_role (m_Role m) =s "tool") = true) as ->.
  { unfold user_role. destruct (m_Role m =s "tool") eqn:E; [done|]. by rewrite orb_false_r in H1; rewrite H1. }
  assert (match map view_part (m_Parts m) with [] => false | _ => true end = true) as -> by (by destruct (m_Parts m)). cbn.
  clear H1 H2. induction W as [|p parts Hp _ IH]; [done|]. cbn in H3 |- *. apply result_bind_Ok in H3 as ([] & Hv & H3). rewrite (view_part_valid p Hp Hv). by apply IH.
Qed.

Lemma messages_back r : request_wf r -> addressed r = true ->
  mapM anthropic_message (map reread (encodeAnthropicMessages r)) = Ok (map view_message (cr_Messages r))
  /\ check_all validate_message (map view_message (cr_Messages r)) = Ok tt.
Proof.
  intros W A. pose proof (rw_parts _ W) as P. pose proof (rw_valid _ W) as V. unfold validateCanonicalRequest in V. apply result_bind_Ok in V as ([] & V & _).
  unfold addressed in A. unfold encodeAnthropicMessages. clear W. induction P as [|m l Hm _ IH]; [done|]. cbn [map mapM check_all forallb] in *. apply andb_true_iff in A as [A1 A2].
  apply result_bind_Ok in V as ([] & V1 & V2). destruct (IH A2 V2) as [IH1 IH2].
  rewrite (view_message_valid m Hm V1), IH2. split; [|done]. pose proof V1 as V1'. unfold validate_message in V1'.
  apply result_bind_Ok in V1' as ([] & _ & V1'). apply result_bind_Ok in V1' as ([] & _ & V3).
  pose proof (anthropic_message_back m Hm V3 A1) as B. unfold user_role in B. rewrite B. cbn. cbn in IH1. by rewrite IH1.
Qed.

Lemma view_tools_valid tools :
  check_all (fun t => ensure (negb ((tl_Name t =s "") || is_null (tl_Schema t))) (Msg "function tools require name and parameters")) tools = Ok tt ->
  check_all (fun t => ensure (negb ((tl_Name t =s "") || is_null (tl_Schema t))) (Msg "function tools require name and parameters")) (map view_tool tools) = Ok tt.
Proof.
  induction tools as [|t tools IH]; [done|]. cbn [check_all map]. intros ([] & H1 & H2)%result_bind_Ok. cbn [view_tool tl_Name tl_Schema]. rewrite norm_null, H1. by apply IH.
Qed.
Lemma tools_back tools : map anthropic_tool (array (if some_items tools then VArray (map reread (encodeAnthropicTools tools)) else VNull)) = map view_tool tools.
Proof.
  destruct tools as [|t0 l]; [done|]. cbn [some_items array]. generalize (t0 :: l). clear. unfold encodeAnthropicTools. induction l as [|t l IH]; [done|]. cbn [map]. by rewrite anthropic_tool_back, IH.
Qed.

Lemma optionalNumber_back m name o : field m name = match o with Some f => VNumber f | None => VNull end -> count_set o -> optionalNumber m name = Ok o.
Proof. unfold optionalNumber. intros -> H. destruct o as [f|]; [|done]. specialize (H f eq_refl). by rewrite (proj2 (Z.ltb_ge _ 0)) by done. Qed.
Lemma optionalPositive_back m name o :
  field m name = match o with Some k => VNumber (int_float k) | None => VNull end -> o <> Some 0 ->
  match o with Some k => (0 <=? k) && (k <=? maxSafeInteger) | None => true end = true -> optionalPositiveInteger m name = Ok o.
Proof.
  intros E Hz Hk. unfold optionalPositiveInteger. destruct o as [k|]; [|by rewrite E]. rewrite (optionalInteger_int m name k E) by lia. rewrite E. cbn.
  destruct (k =? 0) eqn:Ek; [|done]. apply Z.eqb_eq in Ek. by subst.
Qed.

Lemma decode_anthropic_body r model : request_wf r -> addressed r = true -> exact_limits r = true ->
  decode_request "anthropic" (reread_members (anthropic_body r model)) = Ok (anthropic_view r).
Proof.
  intros W A L. unfold exact_limits in L. rewrite !andb_true_iff in L. destruct L as [[L1 L2] L3]. destruct (messages_back r W A) as [M1 M2].
  unfold decode_request. change ("anthropic" =s "openai") with false. change ("anthropic" =s "anthropic") with true. cbv iota. unfold decode_anthropic. cbv zeta.
  rewrite body_rejects. cbn [result_bind].
  rewrite (optionalNumber_back _ _ _ (body_temperature r model) (rw_temperature _ W)), (optionalNumber_back _ _ _ (body_topP r model) (rw_topP _ W)).
  rewrite (optionalPositive_back _ _ _ (body_topK r model) (rw_topK _ W) L3).
  assert (S : forall v, v = (if cr_System r =s "" then VNull else VString (cr_System r)) ->
      validateAnthropicParts v = Ok tt /\ hasNonText (decodeAnthropicParts v) = false /\ canonicalText (decodeAnthropicParts v) = cr_System r).
  { intros v ->. destruct (String.eqb_spec (cr_System r) "") as [->|]; [done|]. by split_and!. }
  destruct (S _ (body_system r model)) as (S1 & S2 & S3). rewrite S1, S2, S3.
  rewrite (optionalInteger_int _ _ _ (body_max_tokens r model)) by (destruct (_ =? 0); unfold maxSafeInteger in *; lia).
  rewrite body_stops, (stops_back _ (rw_stops _ W)), output_back, body_choice, (choice_back _ (rw_choice _ W)), body_messages. cbn [array].
  rewrite M1. cbn [mbind result_bind ensure negb]. cbn [cr_Messages]. rewrite body_tools, tools_back, body_stream. cbn [boolean].
  assert (match map view_message (cr_Messages r) with [] => false | _ => true end = true) as ->.
  { pose proof (rw_messages _ W). by destruct (cr_Messages r). }
  cbn [mbind result_bind ensure]. unfold validateCanonicalRequest, with_messages. cbn [cr_Messages cr_Tools].
  unfold resolveToolResultNames. rewrite (resolve_messages_valid _ [] M2). pose proof (rw_valid _ W) as V. unfold validateCanonicalRequest in V.
  apply result_bind_Ok in V as ([] & _ & V). cbn [mbind result_bind]. by rewrite (view_tools_valid _ V).
Qed.

(** * The translation as text *)

(** A body the encoder can write: its texts are valid UTF-8, its numbers read
    back, and it nests no deeper than the decoder follows. *)
Definition writable (m : list (string * any)) : bool := printable (AObject m) && (Z.of_nat (depth (AObject m)) <=? 10000).

Lemma written_reads m : writable m = true -> Unmarshal (marshal (AObject m)) = (reread_members m, true).
Proof. intros [H1 H2]%andb_true_iff. apply Unmarshal_marshal; [done|lia]. Qed.

(** ** Saying the same *)

Lemma norm_object m : norm (VObject m) = VObject (reread_members (map (fun kv => (fst kv, any_of (snd kv))) m)).
Proof. unfold norm. cbn [any_of]. apply reread_object. Qed.
Lemma find_any m k : find_last (map (fun kv => (fst kv, any_of (snd kv))) m) k = any_of <$> find_last m k.
Proof. induction m as [|[n v] m IH]; [done|]. cbn. rewrite IH. destruct (find_last m k); [done|]. by destruct (n =s k). Qed.
Lemma lookup_norm m k : lookup_field (reread_members (map (fun kv => (fst kv, any_of (snd kv))) m)) k = norm <$> lookup_field m k.
Proof. rewrite lookup_reread, find_any, lookup_field_find. by destruct (find_last m k). Qed.

Section ValueInd.
Context (P : value -> Prop).
Hypothesis (Hnull : P VNull) (Hbool : forall b, P (VBool b)) (Hnumber : forall f, P (VNumber f)) (Hstring : forall s, P (VString s))
  (Harray : forall l, Forall P l -> P (VArray l)) (Hobject : forall m, Forall (fun kv => P (snd kv)) m -> P (VObject m)).
Fixpoint value_ind' (v : value) : P v :=
  match v with
  | VNull => Hnull | VBool b => Hbool b | VNumber f => Hnumber f | VString s => Hstring s
  | VArray l => Harray l ((fix go l : Forall P l := match l with [] => Forall_nil_2 _ | x :: l => Forall_cons_2 _ _ _ (value_ind' x) (go l) end) l)
  | VObject m => Hobject m ((fix go m : Forall (fun kv => P (snd kv)) m :=
      match m with [] => Forall_nil_2 _ | x :: m => Forall_cons_2 _ _ _ (value_ind' (snd x)) (go m) end) m)
  end.
End ValueInd.

(** The same JSON value: objects hold the same values under the same names,
    in whatever order. *)
Inductive same_value : value -> value -> Prop :=
| same_null : same_value VNull VNull
| same_bool b : same_value (VBool b) (VBool b)
| same_number f : same_value (VNumber f) (VNumber f)
| same_string s : same_value (VString s) (VString s)
| same_array l l' : Forall2 same_value l l' -> same_value (VArray l) (VArray l')
| same_object m m' :
    (forall k v, lookup_field m k = Some v -> exists v', lookup_field m' k = Some v' /\ same_value v v') ->
    (forall k, lookup_field m k = None -> lookup_field m' k = None) -> same_value (VObject m) (VObject m').

Lemma same_norm v : same_value v (norm v).
Proof.
  induction v as [|b|f|t|l IH|m IH] using value_ind'; [constructor..| |].
  - unfold norm. cbn [any_of reread]. rewrite map_map. constructor. induction IH; cbn; by constructor.
  - rewrite norm_object. constructor; intros k.
    + intros v E. exists (norm v). rewrite lookup_norm, E. split; [done|]. rewrite lookup_field_find in E. apply find_last_In in E.
      exact (proj1 (List.Forall_forall _ _) IH _ E).
    + intros E. by rewrite lookup_norm, E.
Qed.

(** Two parts say the same. The detail level of an image is not said to
    Anthropic, and the result of a call names it by its id. *)
Inductive same_part : canonicalPart -> canonicalPart -> Prop :=
| same_text t : same_part (text_part t) (text_part t)
| same_use id name v v' : same_value v v' -> same_part (tool_use_part id name v) (tool_use_part id name v')
| same_result id name name' t : same_part (tool_result_part id name t) (tool_result_part id name' t)
| same_image media data url detail detail' : same_part (image_part media data url detail) (image_part media data url detail')
| same_url media media' url detail detail' : same_part (image_part media "" url detail) (image_part media' "" url detail').

(** A tool result is said by the user. *)
Record same_message (m m' : canonicalMessage) : Prop := mkSameMessage {
  sm_role : m_Role m' = if m_Role m =s "tool" then "user" else m_Role m;
  sm_parts : Forall2 same_part (m_Parts m) (m_Parts m') }.
Record same_tool (t t' : canonicalTool) : Prop := mkSameTool {
  st_name : tl_Name t' = tl_Name t;
  st_description : tl_Description t' = tl_Description t;
  st_strict : tl_Strict t' = tl_Strict t;
  st_schema : same_value (tl_Schema t) (tl_Schema t') }.

(** The choice of a tool: a named tool is a required one, and whether calls
    may be made in parallel is said only along with a choice. *)
Definition same_choice (c c' : tool_choice) : Prop :=
  let '(choice, name, parallel) := c in let '(choice', name', parallel') := c' in
  name' = name /\ choice' = (if name =s "" then choice else "required") /\ (choice <> "" \/ name <> "" -> parallel' = parallel).

(** Two requests say the same. Of the output format only the schema is said;
    a request without a limit gets the default one. *)
Record same_request (r r' : canonicalRequest) : Prop := mkSameRequest {
  sr_system : cr_System r' = cr_System r;
  sr_messages : Forall2 same_message (cr_Messages r) (cr_Messages r');
  sr_tools : Forall2 same_tool (cr_Tools r) (cr_Tools r');
  sr_limit : cr_MaxTokens r' = if cr_MaxTokens r =? 0 then 4096 else cr_MaxTokens r;
  sr_stream : cr_Stream r' = cr_Stream r;
  sr_stops : cr_Stops r' = cr_Stops r;
  sr_schema : same_value (fst (fst (cr_Output r))) (fst (fst (cr_Output r')));
  sr_choice : same_choice (cr_Choice r) (cr_Choice r');
  sr_temperature : cr_Temperature r' = cr_Temperature r;
  sr_topP : cr_TopP r' = cr_TopP r;
  sr_topK : cr_TopK r' = cr_TopK r }.

(** *** The view says the same *)

Lemma view_part_same p : part_wf p -> same_part p (view_part p).
Proof.
  destruct 1 as [t|id name v|id name t|media data detail _ Hd _|media url detail]; unfold view_part; cbn; try constructor; [apply same_norm|].
  apply String.eqb_neq in Hd. rewrite Hd. constructor.
Qed.
Lemma same_renamed p q name : same_part p q -> p_Kind q = "tool_result" -> same_part p (with_name name q).
Proof. destruct 1; cbn; intros E; try discriminate. constructor. Qed.
Lemma resolve_parts_same parts parts' names : Forall2 same_part parts parts' -> Forall2 same_part parts (snd (resolve_parts names parts')).
Proof.
  intros H. revert names. induction H as [|p q parts parts' Hp _ IH]; intros names; [constructor|]. cbn [resolve_parts].
  destruct (p_Kind q =s "tool_use"); [|destruct ((p_Kind q =s "tool_result") && _) eqn:E].
  - specialize (IH ((p_ID q, p_Name q) :: names)). destruct (resolve_parts _ parts'). by constructor.
  - specialize (IH names). destruct (resolve_parts _ parts'). constructor; [|done]. apply andb_true_iff in E as [E%String.eqb_eq _]. by apply same_renamed.
  - specialize (IH names). destruct (resolve_parts _ parts'). by constructor.
Qed.
Lemma resolve_messages_same l l' : Forall2 same_message l l' -> forall names, Forall2 same_message l (resolve_messages names l').
Proof.
  induction 1 as [|m m' l l' [Hr Hp] _ IH]; intros names; [constructor|]. cbn [resolve_messages]. pose proof (resolve_parts_same _ _ names Hp) as Hp'.
  destruct (resolve_parts names (m_Parts m')) as [n parts]. constructor; [by split|apply IH].
Qed.
Lemma view_same r : request_wf r -> same_request r (anthropic_view r).
Proof.
  intros W. constructor; try done; cbn [anthropic_view cr_Messages cr_Tools cr_Output cr_Choice].
  - apply resolve_messages_same. pose proof (rw_parts _ W) as P. induction P as [|m l Hm _ IH]; [constructor|]. constructor; [|done]. split; [done|].
    cbn. clear -Hm. induction Hm as [|p parts Hp _ IHp]; [constructor|]. constructor; [by apply view_part_same|done].
  - induction (cr_Tools r) as [|t l IH]; [constructor|]. constructor; [|done]. split; [done..|apply same_norm].
  - unfold view_output. destruct (is_null _) eqn:E; [|apply same_norm]. destruct (fst (fst (cr_Output r))); try done. constructor.
  - unfold same_choice, view_choice. destruct (cr_Choice r) as [[choice name] parallel]. destruct (String.eqb_spec name "") as [->|]; cbn [negb]; [|done].
    destruct (String.eqb_spec choice "") as [->|]; [|done]. split_and!; [done..|]. by intros [].
Qed.

(** C14: the request an Anthropic provider receives says what the client said.
    Whatever dialect the client speaks, a request that decodes to [r] is
    translated (the translation does not fail), and the body written for the
    provider, read by the Anthropic decoder, says the same: the same system
    text, messages with their texts, tool calls, tool results and images,
    tools with their schemas, stop sequences, output schema, streaming and
    sampling settings, the limit (4096 if there is none) and the choice of a
    tool. Not said are the detail level of an image, the media type of an
    image given by address, the name beside the identifier of a tool result,
    the name and strictness of an output schema, and, when no tool is chosen,
    whether calls may be parallel. Asked of the request: it can be written as JSON, every image is
    addressed, and its limits are exact as JSON numbers. *)
Theorem translated_request_reads client body model r :
  decodeCanonicalRequest client body = Ok r -> writable (anthropic_body r model) = true -> addressed r = true -> exact_limits r = true ->
  exists text r', TranslateRequest client "anthropic" body model = Ok ("messages", text)
    /\ decodeCanonicalRequest "anthropic" text = Ok r' /\ same_request r r'.
Proof.
  intros D W A L. exists (marshal (AObject (anthropic_body r model))), (anthropic_view r).
  assert (F : request_wf r) by (unfold decodeCanonicalRequest in D; destruct (Unmarshal body) as [m []]; [|done]; by eapply decode_request_wf).
  split_and!; [unfold TranslateRequest; by rewrite D| |by apply view_same].
  unfold decodeCanonicalRequest. rewrite (written_reads _ W). by apply decode_anthropic_body.
Qed.

(** An OpenAI conversation with a tool call, its result, and every setting
    the two dialects share. *)
Definition tool_conversation : string :=
  json_text ("{'model':'public','messages':[{'role':'system','content':'Be brief'},{'role':'user','content':'Weather?'},"
  +:+ "{'role':'assistant','content':null,'tool_calls':[{'id':'call_1','type':'function','function':{'name':'weather','arguments':'{\'city\':\'Oslo\',\'days\':2}'}}]},"
  +:+ "{'role':'tool','tool_call_id':'call_1','content':'rain'}],"
  +:+ "'tools':[{'type':'function','function':{'name':'weather','description':'d','parameters':{'type':'object'}}}],"
  +:+ "'tool_choice':{'type':'function','function':{'name':'weather'}},'parallel_tool_calls':false,'max_tokens':300,'temperature':0.5,'stop':'END'}").
Definition decoded_or_empty (client body : string) : canonicalRequest :=
  match decodeCanonicalRequest client body with Ok r => r | Err _ => mkCanonicalRequest "" [] [] 0 false [] no_format ("", "", None) None None None end.

Lemma translated_request_reads_witness :
  let r := decoded_or_empty "openai" tool_conversation in
  decodeCanonicalRequest "openai" tool_conversation = Ok r
  /\ map m_Parts (cr_Messages r)
     = [[text_part "Weather?"];
        [tool_use_part "call_1" "weather" (VObject [("city", VString "Oslo"); ("days", VNumber (int_float 2))])];
        [tool_result_part "call_1" "weather" "rain"]]
  /\ exists text r', TranslateRequest "openai" "anthropic" tool_conversation "claude" = Ok ("messages", text)
       /\ decodeCanonicalRequest "anthropic" text = Ok r' /\ same_request r r'.
Proof.
  intros r. assert (D : decodeCanonicalRequest "openai" tool_conversation = Ok r) by (vm_compute; reflexivity). split; [exact D|]. split; [vm_compute; reflexivity|].
  apply (translated_request_reads "openai" tool_conversation "claude" r D); vm_compute; reflexivity.
Defined.

(** * Answers read back by an OpenAI client *)

Definition tool_uses (parts : list canonicalPart) : list canonicalPart := filter (fun p => p_Kind p = "tool_use") parts.
Definition openai_result_view (r : canonicalResult) : canonicalResult :=
  mkCanonicalResult (cs_ID r)
    ((if cs_Refusal r =s "" then [text_part (canonicalText (cs_Parts r))] else [])
     ++ map (fun p => tool_use_part (p_ID p) (p_Name p) (norm (p_Value p))) (tool_uses (cs_Parts r)))
    (openAIStop (cs_Stop r)) (cs_InputTokens r) (cs_OutputTokens r) (cs_Refusal r).

(** The arguments of the tool calls can be written. *)
Definition arguments_writable (parts : list canonicalPart) : bool :=
  forallb (fun p => negb (p_Kind p =s "tool_use") || printable (any_of (p_Value p)) && (Z.of_nat (depth (any_of (p_Value p))) <=? 10000)) parts.
Definition counted (r : canonicalResult) : bool :=
  (0 <=? cs_InputTokens r) && (cs_InputTokens r <=? maxSafeInteger) && (0 <=? cs_OutputTokens r) && (cs_OutputTokens r <=? maxSafeInteger).

Lemma number_int n : 0 <= n <= maxSafeInteger -> number (VNumber (int_float n)) = n.
Proof. intros Hn. destruct (int_float_safe n Hn) as [He Hm]. cbn [number]. apply to_int64_exact; [done..|]. unfold maxSafeInteger, max_int64 in *. lia. Qed.

Lemma calls_back parts : arguments_writable parts = true ->
  mapM result_call (map reread (openAIToolCalls parts)) = Ok (map (fun p => tool_use_part (p_ID p) (p_Name p) (norm (p_Value p))) (tool_uses parts)).
Proof.
  unfold openAIToolCalls, arguments_writable, tool_uses. induction parts as [|p parts IH]; [done|]. cbn [forallb flat_map]. intros [Hp H]%andb_true_iff. rewrite map_app.
  specialize (IH H). unfold openai_tool_call at 1. rewrite filter_cons. destruct (String.eqb_spec (p_Kind p) "tool_use") as [E|E].
  - rewrite decide_True by done. apply andb_true_iff in Hp as [H1 H2]. apply Z.leb_le in H2. cbn [map app mapM].
    assert (result_call (reread (AObject [("id", AString (p_ID p)); ("type", AString "function");
        ("function", AObject [("name", AString (p_Name p)); ("arguments", AString (marshal (any_of (p_Value p))))])]))
      = match UnmarshalAny (marshal (any_of (p_Value p))) with
        | Some args => Ok (tool_use_part (p_ID p) (p_Name p) args) | None => Err (Msg "upstream tool arguments are invalid") end) as -> by reflexivity.
    rewrite (UnmarshalAny_marshal _ H1 H2). cbn. cbn in IH. by rewrite IH.
  - rewrite decide_False by done. exact IH.
Qed.

Lemma some_calls parts : some_items (openAIToolCalls parts) = false -> tool_uses parts = [].
Proof.
  unfold openAIToolCalls, tool_uses. induction parts as [|p parts IH]; [done|]. cbn [flat_map]. unfold openai_tool_call at 1. rewrite filter_cons.
  destruct (String.eqb_spec (p_Kind p) "tool_use") as [E|E]; [done|]. rewrite decide_False by done. exact IH.
Qed.

Lemma decode_openai_response r model : cs_ID r <> "" -> arguments_writable (cs_Parts r) = true -> counted r = true ->
  decode_result "openai" (reread_members (openai_response r model)) = Ok (openai_result_view r).
Proof.
  intros Hid Ha Hc. unfold counted in Hc. rewrite !andb_true_iff in Hc. destruct Hc as [[[C1 C2] C3] C4].
  unfold decode_result. change (("openai" =s "openai") || ("openai" =s "openai_compatible")) with true. cbv iota.
  set (calls := if some_items (openAIToolCalls (cs_Parts r)) then VArray (map reread (openAIToolCalls (cs_Parts r))) else VNull).
  assert (Hcalls : mapM result_call (array calls) = Ok (map (fun p => tool_use_part (p_ID p) (p_Name p) (norm (p_Value p))) (tool_uses (cs_Parts r)))).
  { unfold calls. destruct (some_items _) eqn:E; [by apply calls_back|]. by rewrite (some_calls _ E). }
  assert (openai_result (reread_members (openai_response r model)) =
    (_ ← Ok tt; calls ← mapM result_call (array calls);
     Ok (mkCanonicalResult (cs_ID r) ((if cs_Refusal r =s "" then [text_part (canonicalText (cs_Parts r))] else []) ++ calls) (openAIStop (cs_Stop r))
           (number (VNumber (int_float (cs_InputTokens r)))) (number (VNumber (int_float (cs_OutputTokens r)))) (cs_Refusal r)))) as ->.
  { unfold openai_response, calls. destruct (String.eqb_spec (cs_Refusal r) "") as [E|E]; [rewrite E|]; destruct (some_items _); reflexivity. }
  cbn [mbind result_bind]. rewrite Hcalls, !number_int by lia. cbn [mbind result_bind cs_Parts cs_Refusal cs_ID cs_Stop cs_InputTokens cs_OutputTokens].
  apply String.eqb_neq in Hid. unfold openai_result_view. rewrite Hid. by destruct (cs_Refusal r =s ""), (tool_uses (cs_Parts r)).
Qed.

Lemma decodeCanonicalResult_id target raw r : decodeCanonicalResult target raw = Ok r -> cs_ID r <> "".
Proof.
  unfold decodeCanonicalResult. destruct (Unmarshal raw) as [m []]; [|done]. unfold decode_result. intros (r0 & _ & H)%result_bind_Ok.
  apply result_bind_Ok in H as ([] & _ & H). injection H as <-. cbn. by destruct (String.eqb_spec (cs_ID r0) "").
Qed.

(** Two answers say the same to an OpenAI client: the text, which goes unsaid
    when there is a refusal, the calls in order, the refusal, the counts, and
    the stop reason in the word of that dialect. *)
Record same_call (p p' : canonicalPart) : Prop := mkSameCall {
  sc_id : p_ID p' = p_ID p;
  sc_name : p_Name p' = p_Name p;
  sc_arguments : same_value (p_Value p) (p_Value p') }.
Record same_answer (r r' : canonicalResult) : Prop := mkSameAnswer {
  sa_id : cs_ID r' = cs_ID r;
  sa_text : canonicalText (cs_Parts r') = if cs_Refusal r =s "" then canonicalText (cs_Parts r) else "";
  sa_calls : Forall2 same_call (tool_uses (cs_Parts r)) (tool_uses (cs_Parts r'));
  sa_refusal : cs_Refusal r' = cs_Refusal r;
  sa_input : cs_InputTokens r' = cs_InputTokens r;
  sa_output : cs_OutputTokens r' = cs_OutputTokens r;
  sa_stop : cs_Stop r' = openAIStop (cs_Stop r) }.

Lemma view_answer r : same_answer r (openai_result_view r).
Proof.
  set (calls := map (fun p => tool_use_part (p_ID p) (p_Name p) (norm (p_Value p))) (tool_uses (cs_Parts r))).
  assert (T : forall acc, fold_left (fun acc p => if p_Kind p =s "text" then acc +:+ p_Text p else acc) calls acc = acc).
  { unfold calls. generalize (tool_uses (cs_Parts r)). induction l as [|p l IH]; [done|]. exact IH. }
  assert (C : tool_uses calls = calls).
  { unfold calls. generalize (tool_uses (cs_Parts r)). induction l as [|p l IH]; [done|]. cbn [map]. unfold tool_uses at 1. rewrite filter_cons, decide_True by done. f_equal. exact IH. }
  constructor; try done; unfold openai_result_view; fold calls; cbn [cs_Parts].
  - destruct (cs_Refusal r =s ""); [|exact (T _)]. exact (T _).
  - assert (tool_uses ((if cs_Refusal r =s "" then [text_part (canonicalText (cs_Parts r))] else []) ++ calls) = calls) as ->.
    { destruct (cs_Refusal r =s ""); [|exact C]. unfold tool_uses. cbn [app]. rewrite filter_cons, decide_False by done. exact C. }
    apply Forall2_fmap_r, Forall2_same_length_lookup; split; [done|]. intros i x y E1 E2. rewrite E1 in E2. injection E2 as <-. split; [done..|apply same_norm].
Qed.

(** C15: the answer an OpenAI client receives is the answer the provider gave.
    Whatever dialect the provider speaks, an answer that decodes to [r] and
    shows no image is translated, and the body the client receives, read by
    the OpenAI decoder, says the same: every tool call with its arguments in
    order, the refusal, both token counts, the stop reason in that dialect's
    word, and the whole text if there is no refusal. A refusal is delivered
    alone: what text comes with it is left out. Asked of the answer: it can be
    written as JSON, and its counts are safe integers. *)
Theorem translated_response_reads target model raw r :
  decodeCanonicalResult target raw = Ok r -> hasPartKind (cs_Parts r) "image" = false -> writable (openai_response r model) = true ->
  arguments_writable (cs_Parts r) = true -> counted r = true ->
  exists text r', TranslateResponse "openai" target model raw = Ok text /\ decodeCanonicalResult "openai" text = Ok r' /\ same_answer r r'.
Proof.
  intros D I W A C. exists (marshal (AObject (openai_response r model))), (openai_result_view r). split_and!; [| |apply view_answer].
  - unfold TranslateResponse. rewrite D. unfold encode_response. cbn -[marshal openai_response hasPartKind]. by rewrite I.
  - unfold decodeCanonicalResult. rewrite (written_reads _ W). apply decode_openai_response; [by eapply decodeCanonicalResult_id|done..].
Qed.

(** An answer of a Gemini provider: a text, a call, and the counts. *)
Definition gemini_answer : string :=
  json_text ("{'responseId':'r1','candidates':[{'content':{'role':'model','parts':[{'text':'Looking'},{'functionCall':{'name':'weather','args':{'city':'Oslo'}}}]},"
  +:+ "'finishReason':'MAX_TOKENS'}],'usageMetadata':{'promptTokenCount':11,'candidatesTokenCount':7}}").
Definition gemini_answer_result : canonicalResult :=
  mkCanonicalResult "r1" [text_part "Looking"; tool_use_part "call_gemini_weather" "weather" (VObject [("city", VString "Oslo")])] "MAX_TOKENS" 11 7 "".

Lemma translated_response_reads_witness :
  decodeCanonicalResult "gemini" gemini_answer = Ok gemini_answer_result
  /\ exists text r', TranslateResponse "openai" "gemini" "public" gemini_answer = Ok text
       /\ decodeCanonicalResult "openai" text = Ok r' /\ same_answer gemini_answer_result r'.
Proof.
  assert (D : decodeCanonicalResult "gemini" gemini_answer = Ok gemini_answer_result) by (vm_compute; reflexivity).
  split; [exact D|].
  apply (translated_response_reads "gemini" "public" gemini_answer gemini_answer_result D); vm_compute; reflexivity.
Defined.

(** * What the translations lose *)

(** A limit of [2^63], read as a float, passes the check and leaves as the
    least [int64]. *)
Definition huge_limit : string := json_text "{'messages':[{'role':'user','content':'hi'}],'max_tokens':9223372036854775808}".
Example huge_limit_is_negative : cr_MaxTokens (decoded_or_empty "openai" huge_limit) = min_int64.
Proof. vm_compute. reflexivity. Qed.

(** A tool loop of an Anthropic client, whose messages hold nothing but a call
    or its result: for an OpenAI provider each leaves a message whose content
    is an empty array, which the OpenAI decoder refuses. *)
Definition anthropic_loop : string :=
  json_text ("{'max_tokens':10,'messages':[{'role':'user','content':'hi'},{'role':'assistant','content':[{'type':'tool_use','id':'c1','name':'f','input':{}}]},"
  +:+ "{'role':'user','content':[{'type':'tool_result','tool_use_id':'c1','content':'ok'}]}]}").
Example tool_loop_is_refused :
  encodeOpenAIMessages (decoded_or_empty "anthropic" anthropic_loop)
  = [AObject [("role", AString "user"); ("content", AString "hi")];
     AObject [("role", AString "assistant"); ("content", AArray []);
              ("tool_calls", AArray [AObject [("id", AString "c1"); ("type", AString "function"); ("function", AObject [("name", AString "f"); ("arguments", AString "{}")])]])];
     AObject [("role", AString "tool"); ("tool_call_id", AString "c1"); ("content", AString "ok")];
     AObject [("role", AString "user"); ("content", AArray [])]]
  /\ match TranslateRequest "anthropic" "openai" anthropic_loop "m" with
     | Ok (_, text) => decodeCanonicalRequest "openai" text = Err (Msg "content must be text or supported image input")
     | Err _ => False
     end.
Proof. split; vm_compute; reflexivity. Qed.

(** Forbidding parallel calls without choosing a tool leaves no trace. *)
Definition serial_calls : string :=
  json_text ("{'messages':[{'role':'user','content':'hi'}],'tools':[{'type':'function','function':{'name':'f','description':'','parameters':{}}}],"
  +:+ "'parallel_tool_calls':false}").
Example serial_calls_dropped :
  snd (cr_Choice (decoded_or_empty "openai" serial_calls)) = Some false
  /\ snd (cr_Choice (anthropic_view (decoded_or_empty "openai" serial_calls))) = None.
Proof. split; vm_compute; reflexivity. Qed.
