(* ===== verification/Streaming.v ===== *)
(** Event streams translated while they arrive ([protocol/stream.go]): what an
    upstream event says, and the frames the client is sent. *)
From S2P Require Import Prelude GoStd Money Counters Policy Json Decode Store Pricing PolicyService Admission Settlement Tokens Marshal Canonical Dialects Encode.
Open Scope string_scope.
Open Scope Z_scope.
Open Scope list_scope.

(** * What an event says *)

Record streamToolDelta := mkToolDelta { td_Index : Z; td_ID : string; td_Name : string; td_Arguments : string }.
Record streamDelta := mkDelta {
  sd_Text : string; sd_Refusal : string; sd_Tools : list streamToolDelta; sd_Stop : string; sd_Done : bool;
  sd_Input : option Z; sd_Output : option Z; sd_Usage : object; sd_Invalid : bool }.

(** A count of the usage object: what it is, and whether it is refused. *)
Definition usage_count (usage : object) (name : string) : option Z * bool :=
  match lookup_field usage name with
  | Some raw => match integer raw with Some n => (Some n, false) | None => (None, true) end
  | None => (None, false)
  end.
Definition streamUsage (target : string) (m : object) : option Z * option Z * object * bool :=
  let '(raw, inputName, outputName) :=
    if target =s "anthropic" then
      (if is_null (field m "usage") then field (objectMap (field m "message")) "usage" else field m "usage", "input_tokens", "output_tokens")
    else if target =s "gemini" then (field m "usageMetadata", "promptTokenCount", "candidatesTokenCount")
    else (field m "usage", "prompt_tokens", "completion_tokens") in
  let usage := objectMap raw in
  let '(input, bad1) := usage_count usage inputName in
  let '(output, bad2) := usage_count usage outputName in
  (input, output, usage, negb (is_null raw) && negb (is_some (as_object raw)) || bad1 || bad2).

(** An event with nothing but its usage. *)
Definition usage_delta (target : string) (m : object) : streamDelta :=
  let '(input, output, usage, invalid) := streamUsage target m in mkDelta "" "" [] "" false input output usage invalid.
Definition with_content (text refusal : string) (tools : list streamToolDelta) (stop : string) (done : bool) (d : streamDelta) : streamDelta :=
  mkDelta text refusal tools stop done (sd_Input d) (sd_Output d) (sd_Usage d) (sd_Invalid d).

Definition openai_tool_delta (item : value) : streamToolDelta :=
  let call := objectMap item in let function := objectMap (field call "function") in
  mkToolDelta (number (field call "index")) (stringValue (field call "id")) (stringValue (field function "name")) (stringValue (field function "arguments")).
Definition openai_delta (m : object) (d : streamDelta) : result streamDelta :=
  match array (field m "choices") with
  | [] => Ok d
  | choice :: _ =>
    let choice := objectMap choice in let delta := objectMap (field choice "delta") in
    _ ← ensure (is_null (field delta "reasoning") && is_null (field delta "reasoning_content") && is_null (field delta "reasoning_details"))
          (Msg "upstream stream contains provider-affine content");
    Ok (with_content (stringValue (field delta "content")) (stringValue (field delta "refusal")) (map openai_tool_delta (array (field delta "tool_calls")))
          (stringValue (field choice "finish_reason")) false d)
  end.

Definition anthropic_delta (m : object) (d : streamDelta) : result streamDelta :=
  let type := stringValue (field m "type") in let index := number (field m "index") in
  if type =s "content_block_start" then
    let block := objectMap (field m "content_block") in let kind := stringValue (field block "type") in
    if kind =s "text" then Ok d
    else if kind =s "tool_use" then
      Ok (with_content "" "" [mkToolDelta index (stringValue (field block "id")) (stringValue (field block "name")) ""] "" false d)
    else Err (Msg "upstream stream contains provider-affine content")
  else if type =s "content_block_delta" then
    let delta := objectMap (field m "delta") in let kind := stringValue (field delta "type") in
    if kind =s "text_delta" then Ok (with_content (stringValue (field delta "text")) "" [] "" false d)
    else if kind =s "input_json_delta" then Ok (with_content "" "" [mkToolDelta index "" "" (stringValue (field delta "partial_json"))] "" false d)
    else Err (Msg "upstream stream contains unsupported content")
  else if type =s "message_delta" then
    let stop := stringValue (field (objectMap (field m "delta")) "stop_reason") in
    Ok (with_content "" (if stop =s "refusal" then "Request refused by the provider" else "") [] stop false d)
  else if type =s "message_stop" then Ok (with_content "" "" [] "" true d)
  else Ok d.

Definition gemini_tool_delta (ip : Z * value) : list streamToolDelta :=
  let call := objectMap (field (objectMap (snd ip)) "functionCall") in
  if empty_object call then []
  else [mkToolDelta (fst ip) (stringValue (field call "id")) (stringValue (field call "name")) (marshal (any_of (field call "args")))].
Definition part_text (part : value) : string := stringValue (field (objectMap part) "text").
Definition gemini_delta (m : object) (d : streamDelta) : result streamDelta :=
  match array (field m "candidates") with
  | [] => Ok d
  | candidate :: _ =>
    let candidate := objectMap candidate in let parts := field (objectMap (field candidate "content")) "parts" in
    _ ← validateGeminiParts parts;
    let stop := TrimSpace (stringValue (field candidate "finishReason")) in
    Ok (with_content (fold_right (fun part s => part_text part +:+ s) "" (array parts)) (if geminiSafetyStop stop then blocked stop else "")
          (flat_map gemini_tool_delta (indexed (array parts))) stop (negb (stop =s "")) d)
  end.

(** [decodeStreamDelta] after the payload is parsed. *)
Definition stream_delta (target : string) (m : object) : result streamDelta :=
  let d := usage_delta target m in
  if is_openai target then openai_delta m d
  else if target =s "anthropic" then anthropic_delta m d
  else if target =s "gemini" then gemini_delta m d
  else Err (Msg "unsupported target protocol").
Definition decodeStreamDelta (target payload : string) : result streamDelta :=
  let (m, ok) := Unmarshal payload in if ok then stream_delta target m else Err (Msg "upstream stream contains invalid JSON").

(** * What the events say together *)

Record facts := mkFacts {
  fa_Input : option Z; fa_Output : option Z; fa_Usage : object; fa_Invalid : bool; fa_TerminalSeen : bool; fa_TerminalUsage : bool;
  fa_Completed : bool; fa_Stop : string; fa_Refusal : string }.
Definition no_facts : facts := mkFacts None None [] false false false false "" "".
Definition or_else {A} (a b : option A) : option A := match a with Some x => Some x | None => b end.

(** The usage fields of a later event replace those of an earlier one. *)
Definition note (target : string) (f : facts) (d : streamDelta) : facts :=
  let seen := fa_TerminalSeen f || negb (sd_Stop d =s "") in
  let input := or_else (sd_Input d) (fa_Input f) in
  let terminal :=
    if is_openai target then seen && is_some (sd_Input d) && is_some (sd_Output d)
    else if target =s "anthropic" then negb (sd_Stop d =s "") && is_some (sd_Output d) && is_some input
    else if target =s "gemini" then sd_Done d && is_some (sd_Output d) && is_some input
    else false in
  mkFacts input (or_else (sd_Output d) (fa_Output f)) (fa_Usage f ++ sd_Usage d) (fa_Invalid f || sd_Invalid d) seen (fa_TerminalUsage f || terminal)
    (fa_Completed f || sd_Done d) (if sd_Stop d =s "" then fa_Stop f else sd_Stop d) (fa_Refusal f +:+ sd_Refusal d).
Definition note_done (f : facts) : facts :=
  mkFacts (fa_Input f) (fa_Output f) (fa_Usage f) (fa_Invalid f) (fa_TerminalSeen f) (fa_TerminalUsage f) true (fa_Stop f) (fa_Refusal f).

(** * What the client is sent *)

Inductive frame : Type :=
| Event (name : string) (value : list (string * any))
| DoneMark.
Definition frame_text (f : frame) : string :=
  match f with
  | Event name value =>
    (if name =s "" then "" else "event: " +:+ name +:+ String newline "")
    +:+ "data: " +:+ marshal (AObject value) +:+ String newline (String newline "")
  | DoneMark => "data: [DONE]" +:+ String newline (String newline "")
  end.

Record streamTool := mkTool { to_ID : string; to_Name : string; to_Arguments : string; to_Index : Z }.

(** The frames written, whether a write failed, the text and the tools so far
    by the provider's index, and the items opened. *)
Record output := mkOutput {
  o_sent : list frame; o_broken : bool; o_text : string; o_tools : list (Z * streamTool); o_started : bool; o_textStarted : bool; o_textIndex : Z; o_next : Z }.
Definition no_output : output := mkOutput [] false "" [] false false (-1) 0.

Definition maxStreamBytes : Z := 16777216.

Fixpoint find_tool (tools : list (Z * streamTool)) (index : Z) : option streamTool :=
  match tools with [] => None | (i, t) :: tools => if i =? index then Some t else find_tool tools index end.
Fixpoint put_tool (index : Z) (t : streamTool) (tools : list (Z * streamTool)) : list (Z * streamTool) :=
  match tools with [] => [(index, t)] | (i, u) :: tools => if i =? index then (i, t) :: tools else (i, u) :: put_tool index t tools end.
Definition orderedStreamTools (tools : list (Z * streamTool)) : list streamTool := map snd (SliceStable (fun a b => fst a <? fst b) tools).

Section Client.
(** Whether the connection takes a frame after those it took. *)
Context (accepts : list frame -> frame -> bool).
Context (client model : string).

Definition send (f : frame) (o : output) : output :=
  let ok := accepts (o_sent o) f in
  mkOutput (if ok then o_sent o ++ [f] else o_sent o) (o_broken o || negb ok) (o_text o) (o_tools o) (o_started o) (o_textStarted o) (o_textIndex o) (o_next o).
Definition emit (event : string) (value : list (string * any)) (o : output) : output :=
  if o_broken o then o else send (Event event value) o.

Definition with_text (text : string) (o : output) : output :=
  mkOutput (o_sent o) (o_broken o) text (o_tools o) (o_started o) (o_textStarted o) (o_textIndex o) (o_next o).
Definition with_tools (tools : list (Z * streamTool)) (o : output) : output :=
  mkOutput (o_sent o) (o_broken o) (o_text o) tools (o_started o) (o_textStarted o) (o_textIndex o) (o_next o).
Definition with_started (o : output) : output :=
  mkOutput (o_sent o) (o_broken o) (o_text o) (o_tools o) true (o_textStarted o) (o_textIndex o) (o_next o).
Definition with_item (o : output) : output :=
  mkOutput (o_sent o) (o_broken o) (o_text o) (o_tools o) (o_started o) (o_textStarted o) (o_textIndex o) (o_next o + 1).
Definition with_text_item (o : output) : output :=
  mkOutput (o_sent o) (o_broken o) (o_text o) (o_tools o) (o_started o) true (o_next o) (o_next o + 1).

(** A chunk of a chat completion. *)
Definition chunk (delta : list (string * any)) (finish : any) : list (string * any) :=
  [("id", AString "chatcmpl_translated"); ("object", AString "chat.completion.chunk"); ("model", AString model);
   ("choices", AArray [AObject [("index", AInt 0); ("delta", AObject delta); ("finish_reason", finish)]])].
(** An event of the Responses and Messages streams. *)
Definition typed (type : string) (members : list (string * any)) (o : output) : output := emit type (("type", AString type) :: members) o.

Definition ensureStarted (o : output) : output :=
  if o_started o then o
  else with_started
    (if client =s "openai" then emit "" (chunk [("role", AString "assistant")] ANull) o
     else if client =s "anthropic" then
       typed "message_start" [("message", AObject [("id", AString "msg_translated"); ("type", AString "message"); ("role", AString "assistant"); ("model", AString model);
         ("content", AArray []); ("stop_reason", ANull); ("usage", AObject [("input_tokens", AInt 0); ("output_tokens", AInt 0)])])] o
     else if client =s "responses" then
       typed "response.created" [("response", AObject [("id", AString "resp_translated"); ("object", AString "response"); ("status", AString "in_progress");
         ("model", AString model); ("output", AArray [])])] o
     else o).

Definition message_item (status : string) (content : list any) : any :=
  AObject [("id", AString "msg_translated"); ("type", AString "message"); ("role", AString "assistant"); ("status", AString status); ("content", AArray content)].
Definition text_content (text : string) : any := AObject [("type", AString "output_text"); ("text", AString text); ("annotations", AArray [])].
Definition on_message (index : Z) (content_index : Z) (members : list (string * any)) : list (string * any) :=
  [("item_id", AString "msg_translated"); ("output_index", AInt index); ("content_index", AInt content_index)] ++ members.

Definition startText (o : output) : output :=
  if o_textStarted o then o
  else
    let o := ensureStarted o in
    with_text_item
      (if client =s "anthropic" then
         typed "content_block_start" [("index", AInt (o_next o)); ("content_block", AObject [("type", AString "text"); ("text", AString "")])] o
       else if client =s "responses" then
         typed "response.content_part.added" (on_message (o_next o) 0 [("part", text_content "")])
           (typed "response.output_item.added" [("output_index", AInt (o_next o)); ("item", message_item "in_progress" [])] o)
       else o).

Definition gemini_text (text : string) : list (string * any) :=
  [("candidates", AArray [AObject [("index", AInt 0); ("content", AObject [("role", AString "model"); ("parts", AArray [AObject [("text", AString text)]])])]])].
Definition text_event (text : string) (o : output) : output :=
  if client =s "openai" then emit "" (chunk [("content", AString text)] ANull) o
  else if client =s "anthropic" then
    typed "content_block_delta" [("index", AInt (o_textIndex o)); ("delta", AObject [("type", AString "text_delta"); ("text", AString text)])] o
  else if client =s "gemini" then emit "" (gemini_text text) o
  else if client =s "responses" then typed "response.output_text.delta" (on_message (o_textIndex o) 0 [("delta", AString text)]) o
  else o.

(** An error leaves the frames sent before it. *)
Definition send_step : Type := output * option error.
Definition send_text (text : string) (o : output) : send_step :=
  if text =s "" then (o, None)
  else
    let o := startText o in
    if maxStreamBytes <? str_len (o_text o) + str_len text then (o, Some (Msg "translated stream output exceeds 16 MiB"))
    else (text_event text (with_text (o_text o +:+ text) o), None).

Definition call_item (t : streamTool) (status : string) (arguments : string) : any :=
  AObject [("id", AString ("fc_" +:+ to_ID t)); ("type", AString "function_call"); ("call_id", AString (to_ID t)); ("name", AString (to_Name t));
           ("arguments", AString arguments); ("status", AString status)].
Definition open_tool (item : streamToolDelta) (o : output) : output :=
  let o := ensureStarted o in
  let t := mkTool (if td_ID item =s "" then "call_translated_" +:+ FormatInt (td_Index item) else td_ID item) (td_Name item) "" (o_next o) in
  let o := with_item (with_tools (put_tool (td_Index item) t (o_tools o)) o) in
  if client =s "anthropic" then
    typed "content_block_start" [("index", AInt (to_Index t)); ("content_block", AObject [("type", AString "tool_use"); ("id", AString (to_ID t));
      ("name", AString (to_Name t)); ("input", AObject [])])] o
  else if client =s "responses" then
    typed "response.output_item.added" [("output_index", AInt (to_Index t)); ("item", call_item t "in_progress" "")] o
  else o.

Definition call_chunk (item : streamToolDelta) : any :=
  AObject (set_when (negb (td_ID item =s "")) "type" (AString "function") (set_when (negb (td_ID item =s "")) "id" (AString (td_ID item))
    [("index", AInt (td_Index item));
     ("function", AObject (set_when (negb (td_Arguments item =s "")) "arguments" (AString (td_Arguments item))
        (set_when (negb (td_Name item =s "")) "name" (AString (td_Name item)) [])))])).
Definition tool_event (item : streamToolDelta) (t : streamTool) (o : output) : output :=
  if client =s "openai" then emit "" (chunk [("tool_calls", AArray [call_chunk item])] ANull) o
  else if td_Arguments item =s "" then o
  else if client =s "anthropic" then
    typed "content_block_delta" [("index", AInt (to_Index t)); ("delta", AObject [("type", AString "input_json_delta"); ("partial_json", AString (td_Arguments item))])] o
  else if client =s "responses" then
    typed "response.function_call_arguments.delta" [("item_id", AString ("fc_" +:+ to_ID t)); ("output_index", AInt (to_Index t)); ("delta", AString (td_Arguments item))] o
  else o.

Definition send_tool (item : streamToolDelta) (o : output) : send_step :=
  let o := if is_some (find_tool (o_tools o) (td_Index item)) then o else open_tool item o in
  match find_tool (o_tools o) (td_Index item) with
  | None => (o, None)
  | Some t =>
    let t := mkTool (if td_ID item =s "" then to_ID t else td_ID item) (if td_Name item =s "" then to_Name t else td_Name item) (to_Arguments t) (to_Index t) in
    let o := with_tools (put_tool (td_Index item) t (o_tools o)) o in
    if maxStreamBytes <? str_len (to_Arguments t) + str_len (td_Arguments item) then (o, Some (Msg "translated stream tool arguments exceed 16 MiB"))
    else
      let t := mkTool (to_ID t) (to_Name t) (to_Arguments t +:+ td_Arguments item) (to_Index t) in
      (tool_event item t (with_tools (put_tool (td_Index item) t (o_tools o)) o), None)
  end.
Fixpoint send_tools (items : list streamToolDelta) (o : output) : send_step :=
  match items with
  | [] => (o, None)
  | item :: items => match send_tool item o with (o, None) => send_tools items o | r => r end
  end.

(** ** The end of a stream *)

Definition usage_totals (input output total : string) (inputTokens outputTokens : Z) : any :=
  AObject [(input, AInt inputTokens); (output, AInt outputTokens); (total, AInt (wrap64 (inputTokens + outputTokens)))].

Definition finish_openai (stop refusal : string) (inputTokens outputTokens : Z) (o : output) : output :=
  let o := if refusal =s "" then o else emit "" (chunk [("refusal", AString refusal)] ANull) o in
  let o := emit "" (set_field "usage" (usage_totals "prompt_tokens" "completion_tokens" "total_tokens" inputTokens outputTokens) (chunk [] (AString (openAIStop stop)))) o in
  mkOutput (if accepts (o_sent o) DoneMark then o_sent o ++ [DoneMark] else o_sent o) (o_broken o) (o_text o) (o_tools o) (o_started o) (o_textStarted o) (o_textIndex o) (o_next o).

Definition block_stop (index : Z) (o : output) : output := typed "content_block_stop" [("index", AInt index)] o.
Definition finish_anthropic (stop refusal : string) (outputTokens : Z) (o : output) : output :=
  let alone := negb (refusal =s "") && (o_textIndex o <? 0) in
  let index := if alone then 0 else o_textIndex o in
  let o := if alone then
             typed "content_block_delta" [("index", AInt index); ("delta", AObject [("type", AString "text_delta"); ("text", AString refusal)])]
               (typed "content_block_start" [("index", AInt index); ("content_block", AObject [("type", AString "text"); ("text", AString "")])] o)
           else o in
  let o := if 0 <=? index then block_stop index o else o in
  let o := fold_left (fun o t => block_stop (to_Index t) o) (orderedStreamTools (o_tools o)) o in
  let o := typed "message_delta" [("delta", AObject [("stop_reason", AString (anthropicStop stop)); ("stop_sequence", ANull)]);
                                  ("usage", AObject [("output_tokens", AInt outputTokens)])] o in
  typed "message_stop" [] o.

Definition gemini_call (t : streamTool) : list any :=
  match UnmarshalAny (to_Arguments t) with
  | Some arguments => [AObject [("functionCall", AObject [("id", AString (to_ID t)); ("name", AString (to_Name t)); ("args", any_of arguments)])]]
  | None => []
  end.
Definition finish_gemini (stop : string) (inputTokens outputTokens : Z) (o : output) : output :=
  emit "" [("candidates", AArray [AObject [("index", AInt 0);
              ("content", AObject [("role", AString "model"); ("parts", AArray (flat_map gemini_call (orderedStreamTools (o_tools o))))]);
              ("finishReason", AString (geminiStop stop))]]);
           ("usageMetadata", usage_totals "promptTokenCount" "candidatesTokenCount" "totalTokenCount" inputTokens outputTokens)] o.

Definition refusal_part (refusal : string) : any := AObject [("type", AString "refusal"); ("refusal", AString refusal)].
(** A message that holds only a refusal comes after the tools. *)
Definition message_index (refusal : string) (o : output) : Z :=
  if negb (refusal =s "") && (o_textIndex o <? 0) then
    fold_left (fun index t => if index <=? to_Index t then to_Index t + 1 else index) (orderedStreamTools (o_tools o)) 0
  else o_textIndex o.
Definition item_done (index : Z) (item : any) (o : output) : output :=
  typed "response.output_item.done" [("output_index", AInt index); ("item", item)] o.
Definition refuse_message (index content_index : Z) (refusal : string) (o : output) : output :=
  typed "response.refusal.done" (on_message index content_index [("refusal", AString refusal)])
    (typed "response.refusal.delta" (on_message index content_index [("delta", AString refusal)])
      (typed "response.content_part.added" (on_message index content_index [("part", refusal_part "")]) o)).
Definition tool_done (t : streamTool) (o : output) : output :=
  item_done (to_Index t) (call_item t "completed" (to_Arguments t))
    (typed "response.function_call_arguments.done" [("item_id", AString ("fc_" +:+ to_ID t)); ("output_index", AInt (to_Index t)); ("arguments", AString (to_Arguments t))] o).
(** [outputByIndex]: the entry set last for an index, and the items in the
    order of their indexes, none of which is beyond the items opened. *)
Fixpoint item_at (entries : list (Z * any)) (index : Z) : list any :=
  match entries with
  | [] => []
  | (i, item) :: entries => match item_at entries index with [] => if i =? index then [item] else [] | found => found end
  end.
Definition items_in_order (last : Z) (entries : list (Z * any)) : list any := flat_map (item_at entries) (seqZ 0 (last + 1)).

Definition finish_responses (stop refusal : string) (inputTokens outputTokens : Z) (o : output) : output :=
  let index := message_index refusal o in
  let tools := orderedStreamTools (o_tools o) in
  let o1 := if negb (refusal =s "") && (o_textIndex o <? 0) then typed "response.output_item.added" [("output_index", AInt index); ("item", message_item "in_progress" [])] o else o in
  let texts := if 0 <=? o_textIndex o then [text_content (o_text o)] else [] in
  let o2 := if 0 <=? o_textIndex o then typed "response.output_text.done" (on_message (o_textIndex o) 0 [("text", AString (o_text o))]) o1 else o1 in
  let content := texts ++ (if refusal =s "" then [] else [refusal_part refusal]) in
  let o3 := if refusal =s "" then o2 else refuse_message index (Z.of_nat (length texts)) refusal o2 in
  let item := message_item "completed" content in
  let o4 := if some_items content then item_done index item o3 else o3 in
  let o5 := fold_left (fun o t => tool_done t o) tools o4 in
  let entries := (if some_items content then [(index, item)] else []) ++ map (fun t => (to_Index t, call_item t "completed" (to_Arguments t))) tools in
  typed "response.completed" [("response", AObject [("id", AString "resp_translated"); ("object", AString "response"); ("status", AString "completed"); ("model", AString model);
    ("output", AArray (items_in_order (Z.max index (o_next o)) entries)); ("usage", usage_totals "input_tokens" "output_tokens" "total_tokens" inputTokens outputTokens)])] o5.

Definition finishTranslatedStream (stop refusal : string) (inputTokens outputTokens : Z) (o : output) : output :=
  if client =s "openai" then finish_openai stop refusal inputTokens outputTokens o
  else if client =s "anthropic" then finish_anthropic stop refusal outputTokens o
  else if client =s "gemini" then finish_gemini stop inputTokens outputTokens o
  else if client =s "responses" then finish_responses stop refusal inputTokens outputTokens o
  else o.

(** * The whole stream *)

Context (target : string).

Record stream := mkStream { st_output : output; st_facts : facts }.
Definition write_error : error := Msg "write".
Definition broken_error (o : output) : option error := if o_broken o then Some write_error else None.

Definition consume_delta (d : streamDelta) (st : stream) : stream * option error :=
  match send_text (sd_Text d) (st_output st) with
  | (o, Some e) => (mkStream o (st_facts st), Some e)
  | (o, None) =>
    match send_tools (sd_Tools d) o with
    | (o, Some e) => (mkStream o (st_facts st), Some e)
    | (o, None) => (mkStream o (note target (st_facts st) d), broken_error o)
    end
  end.
Definition consume (payload : string) (st : stream) : stream * option error :=
  match decodeStreamDelta target payload with
  | Err e => (st, Some e)
  | Ok d => consume_delta d st
  end.

(** ** Reading the source *)

(** [bufio.ScanLines] over at most one byte more than the limit. *)
Definition stream_lines (text : string) : list string :=
  let parts := Split text newline in
  map drop_cr (match last parts with Some "" => removelast parts | _ => parts end).
Definition limited (text : string) : string := if str_len text <=? maxStreamBytes + 1 then text else take_bytes (Z.to_nat (maxStreamBytes + 1)) text.

Definition add_data (data line : string) : string :=
  (if data =s "" then "" else data +:+ String newline "") +:+ TrimSpace (TrimPrefix line "data:").

(** The data read since the last empty line, and the bytes counted. *)
Fixpoint scan_stream (lines : list string) (data : string) (count : Z) (st : stream) : stream * string * option error :=
  match lines with
  | [] => (st, data, None)
  | line :: lines =>
    let line := drop_cr line in
    let count := count + str_len line + 1 in
    if maxStreamBytes <? count then (st, data, Some (Msg "upstream stream exceeds 16 MiB"))
    else if line =s "" then
      let payload := TrimSpace data in
      if payload =s "" then scan_stream lines "" count st
      else if payload =s "[DONE]" then scan_stream lines "" count (mkStream (st_output st) (note_done (st_facts st)))
      else match consume payload st with
           | (st, Some e) => (st, "", Some e)
           | (st, None) => scan_stream lines "" count st
           end
    else scan_stream lines (if HasPrefix line "data:" then add_data data line else data) count st
  end.

Definition closed_tool (t : streamTool) : streamTool := mkTool (to_ID t) (to_Name t) (if to_Arguments t =s "" then "{}" else to_Arguments t) (to_Index t).
Definition closed_tools (o : output) : output := with_tools (map (fun it => (fst it, closed_tool (snd it))) (o_tools o)) o.
Definition tools_valid (o : output) : bool := forallb (fun it => json_valid (to_Arguments (closed_tool (snd it)))) (o_tools o).

Definition interrupted (why : string) : error := Msg ("upstream response interrupted: " +:+ why).

(** The usage and the tool calls, for the accounting. *)
Definition usageDocument (input output : option Z) (fields : object) (toolCalls : Z) (toolStatus : string) : string :=
  let doc := [("_gateway_tool_call_count", AInt toolCalls); ("_gateway_tool_call_status", AString toolStatus)] in
  match input, output with
  | Some input, Some output =>
    let usage := map (fun kv => (fst kv, any_of (snd kv))) fields in
    let doc :=
      if target =s "anthropic" then set_field "usage" (AObject (usage ++ [("input_tokens", AInt input); ("output_tokens", AInt output)])) doc
      else if target =s "gemini" then set_field "usageMetadata" (AObject (usage ++ [("promptTokenCount", AInt input); ("candidatesTokenCount", AInt output)])) doc
      else set_field "usage" (AObject (usage ++ [("prompt_tokens", AInt input); ("completion_tokens", AInt output)])) doc in
    marshal (AObject doc)
  | _, _ => marshal (AObject doc)
  end.
Definition metadata (invalid : bool) (status : string) (st : stream) : string :=
  let f := st_facts st in let tools := o_tools (st_output st) in
  usageDocument (if invalid then None else fa_Input f) (if invalid then None else fa_Output f) (fa_Usage f) (Z.of_nat (length tools))
    (match tools with [] => "none" | _ => status end).

(** The status, the metadata, the error and the frames sent. *)
Record translated := mkTranslated { tr_status : Z; tr_metadata : option string; tr_error : option error; tr_sent : list frame }.
Definition stopped_early (invalid : bool) (st : stream) (e : error) : translated :=
  mkTranslated 200 (Some (metadata invalid "incomplete" st)) (Some e) (o_sent (st_output st)).

Definition finish_stream (st : stream) : translated :=
  let f := st_facts st in let o := st_output st in
  if negb (fa_Completed f) then stopped_early (fa_Invalid f) st (interrupted "terminal event missing")
  else if fa_Invalid f then stopped_early true st (Msg "upstream stream contains invalid token usage")
  else if negb (fa_TerminalUsage f) then stopped_early true st (Msg "upstream stream omitted terminal token usage")
  else if negb (tools_valid o) then stopped_early false st (Msg "upstream tool arguments are invalid")
  else
    match fa_Input f, fa_Output f with
    | Some input, Some output =>
      let o := finishTranslatedStream (fa_Stop f) (fa_Refusal f) input output (ensureStarted (closed_tools o)) in
      mkTranslated 200 (Some (metadata false "completed" (mkStream o f))) (broken_error o) (o_sent o)
    | _, _ => mkTranslated 200 (Some (metadata false "completed" st)) (Some (Msg "upstream stream omitted required token usage")) (o_sent o)
    end.

(** [TranslateStream] of a source that gives a text and then ends, or fails. *)
Definition TranslateStream (flushes : bool) (text : string) (failure : option string) : translated :=
  if (client =s "anthropic") && negb (target =s "anthropic") then
    mkTranslated 400 None (Some (Msg "anthropic streaming requires an Anthropic-compatible target")) []
  else if negb flushes then mkTranslated 200 None (Some (Msg "unexpected EOF")) []
  else
    match scan_stream (stream_lines (limited text)) "" 0 (mkStream no_output no_facts) with
    | (st, _, Some e) => stopped_early (fa_Invalid (st_facts st)) st e
    | (st, data, None) =>
      match (if str_len text <=? maxStreamBytes then failure else None) with
      | Some why => stopped_early (fa_Invalid (st_facts st)) st (interrupted why)
      | None =>
        if data =s "" then finish_stream st
        else match consume (TrimSpace data) st with
             | (st, Some e) => stopped_early (fa_Invalid (st_facts st)) st e
             | (st, None) => finish_stream st
             end
      end
    end.
End Client.
