(* ===== verification/Streamed.v ===== *)
(** What a translated stream tells the client: the text, the tool calls, the
    refusal, the stop reason and the counts the provider sent, each item
    opened and closed once, and an end only after the provider's end. *)
From S2P Require Import Prelude GoStd Money Counters Policy Json Decode Store Pricing PolicyService Admission Settlement Tokens Marshal Printing Canonical Dialects Encode Decoded Translated Streaming.
Open Scope string_scope.
Open Scope Z_scope.
Open Scope list_scope.

(** * The events of a source *)

(** The payloads of a stream, and the data left without an empty line. *)
Fixpoint payloads (lines : list string) (data : string) : list string * string :=
  match lines with
  | [] => ([], data)
  | line :: lines =>
    let line := drop_cr line in
    if line =s "" then
      let rest := payloads lines "" in
      (if TrimSpace data =s "" then fst rest else TrimSpace data :: fst rest, snd rest)
    else payloads lines (if HasPrefix line "data:" then add_data data line else data)
  end.
Definition payloads_of (text : string) : list string :=
  let p := payloads (stream_lines (limited text)) "" in fst p ++ (if snd p =s "" then [] else [TrimSpace (snd p)]).
(** What the provider said: its events but the closing marks. *)
Definition is_done (p : string) : bool := p =s "[DONE]".
Definition events_of (target : string) (ps : list string) : result (list streamDelta) :=
  mapM (decodeStreamDelta target) (filter (fun p => is_done p = false) ps).
Definition provider_events (target text : string) : result (list streamDelta) := events_of target (payloads_of text).

Lemma mapM_app {A B} (f : A -> result B) l1 l2 o1 o2 : mapM f l1 = Ok o1 -> mapM f l2 = Ok o2 -> mapM f (l1 ++ l2) = Ok (o1 ++ o2).
Proof.
  revert o1. induction l1 as [|x l1 IH]; intros o1 H1 H2; cbn in H1; [by injection H1 as <-|]. apply result_bind_Ok in H1 as (y & Hy & H1).
  apply result_bind_Ok in H1 as (ys & Hys & H1). injection H1 as <-. cbn. rewrite Hy. cbn. rewrite (IH ys Hys H2). done.
Qed.
Lemma events_app target ps1 ps2 d1 d2 : events_of target ps1 = Ok d1 -> events_of target ps2 = Ok d2 -> events_of target (ps1 ++ ps2) = Ok (d1 ++ d2).
Proof. unfold events_of. rewrite filter_app. apply mapM_app. Qed.

Section Reading.
Context (accepts : list frame -> frame -> bool) (client model target : string).

(** A property kept by every event and every closing mark: [P ups seen st]
    after the events [ups], where [seen] says whether a mark was read. *)
Context (P : list streamDelta -> bool -> stream -> Prop).
Context (P_delta : forall ups seen st p d st', P ups seen st -> decodeStreamDelta target p = Ok d ->
  consume_delta accepts client model target d st = (st', None) -> P (ups ++ [d]) seen st').
Context (P_done : forall ups seen st, P ups seen st -> P ups true (mkStream (st_output st) (note_done (st_facts st)))).

Lemma consumed_is_event ups seen st p st' : consume accepts client model target p st = (st', None) -> P ups seen st ->
  exists d, events_of target [p] = Ok [d] /\ is_done p = false /\ P (ups ++ [d]) seen st'.
Proof.
  unfold consume. intros H HP. destruct (decodeStreamDelta target p) as [d|e] eqn:Hd; [|done]. exists d.
  assert (is_done p = false) as E. { unfold is_done. destruct (String.eqb_spec p "[DONE]") as [->|]; [|done]. by vm_compute in Hd. }
  split_and!; [|done|by eapply P_delta]. unfold events_of. rewrite filter_cons, decide_True by done. cbn. by rewrite Hd.
Qed.

Lemma scan_kept lines : forall data count ups seen st st' rest,
  P ups seen st -> scan_stream accepts client model target lines data count st = (st', rest, None) ->
  snd (payloads lines data) = rest
  /\ exists ds, events_of target (fst (payloads lines data)) = Ok ds /\ P (ups ++ ds) (seen || existsb is_done (fst (payloads lines data))) st'.
Proof.
  induction lines as [|line lines IH]; intros data count ups seen st st' rest HP H; cbn [scan_stream payloads] in *.
  - injection H as <- <-. split; [done|]. exists []. by rewrite app_nil_r, orb_false_r.
  - destruct (_ <? _); [done|]. destruct (drop_cr line =s ""); [|by eapply IH]. destruct (TrimSpace data =s "") eqn:E1; cbn [fst snd]; [by eapply IH|].
    destruct (TrimSpace data =s "[DONE]") eqn:E2.
    + destruct (IH _ _ _ _ _ _ _ (P_done _ _ _ HP) H) as (Hr & ds & Hd & HP'). split; [done|]. exists ds. cbn [existsb]. change (is_done (TrimSpace data)) with (TrimSpace data =s "[DONE]").
      rewrite E2, orb_true_r. split; [|done]. unfold events_of in *. rewrite filter_cons, decide_False by (unfold is_done; congruence). done.
    + destruct (consume _ _ _ _ _ st) as [st1 [e|]] eqn:C; [done|]. destruct (consumed_is_event ups seen _ _ _ C HP) as (d & Hd & Hn & HP1).
      destruct (IH _ _ _ _ _ _ _ HP1 H) as (Hr & ds & Hds & HP'). split; [done|]. exists (d :: ds). cbn [existsb]. rewrite Hn. split; [|by rewrite <- app_assoc in HP'].
      apply (events_app target [TrimSpace data] _ [d] ds Hd Hds).
Qed.

(** What reading a source gives: an early stop, or the end of the source. *)
Definition read_to_end (text : string) (failure : option string) (t : translated) : Prop :=
  exists ds st, provider_events target text = Ok ds /\ P ds (existsb is_done (payloads_of text)) st
    /\ (str_len text <= maxStreamBytes -> failure = None) /\ finish_stream accepts client model target st = t.

(** A property of the frames kept by every event, failed ones included. *)
Context (Q : list frame -> Prop).
Context (Q_delta : forall d st, Q (o_sent (st_output st)) -> Q (o_sent (st_output (fst (consume_delta accepts client model target d st))))).

Lemma consume_frames p st : Q (o_sent (st_output st)) -> Q (o_sent (st_output (fst (consume accepts client model target p st)))).
Proof. unfold consume. intros H. destruct (decodeStreamDelta target p); [by apply Q_delta|done]. Qed.
Lemma scan_frames lines : forall data count st,
  Q (o_sent (st_output st)) -> Q (o_sent (st_output (fst (fst (scan_stream accepts client model target lines data count st))))).
Proof.
  induction lines as [|line lines IH]; intros data count st H; cbn [scan_stream]; [done|]. cbv zeta. destruct (_ <? _); [done|]. destruct (drop_cr line =s ""); [|by apply IH].
  destruct (TrimSpace data =s ""); [by apply IH|]. destruct (_ =s "[DONE]"); [by apply IH|]. pose proof (consume_frames (TrimSpace data) st H) as H'.
  destruct (consume _ _ _ _ _ st) as [st1 [e|]]; [done|by apply IH].
Qed.

(** Every translation stops early, with an error and only frames of events,
    or has read the source to its end. *)
Lemma TranslateStream_cases flushes text failure t :
  P [] false (mkStream no_output no_facts) -> Q [] -> TranslateStream accepts client model target flushes text failure = t ->
  (is_some (tr_error t) = true /\ Q (tr_sent t)) \/ read_to_end text failure t.
Proof.
  intros H0 HQ <-. unfold TranslateStream. destruct (_ && _); [by left|]. destruct (negb flushes); [by left|].
  pose proof (scan_frames (stream_lines (limited text)) "" 0 (mkStream no_output no_facts) HQ) as F.
  destruct (scan_stream _ _ _ _ _ _ _ _) as [[st rest] [e|]] eqn:S; cbn [fst] in F; [by left|]. destruct (scan_kept _ _ _ _ _ _ _ _ H0 S) as (Hr & ds & Hd & HP).
  destruct (if _ <=? _ then failure else None) eqn:L; [by left|].
  assert (N : str_len text <= maxStreamBytes -> failure = None) by (intros Hl%Z.leb_le; by rewrite Hl in L).
  unfold read_to_end, provider_events, payloads_of. rewrite Hr. destruct (rest =s "").
  - right. exists ds, st. rewrite app_nil_r. by split_and!.
  - pose proof (consume_frames (TrimSpace rest) st F) as F'. destruct (consume _ _ _ _ _ st) as [st1 [e|]] eqn:C; [by left|].
    destruct (consumed_is_event ds _ _ _ _ C HP) as (d & Hd1 & Hn & HP1). right. exists (ds ++ [d]), st1. rewrite existsb_app. cbn [existsb]. rewrite Hn, orb_false_r.
    split_and!; [by apply events_app|done..].
Qed.
End Reading.

(** * What a list of events says *)

Record summary := mkSummary { su_text : string; su_refusal : string; su_tools : list streamToolDelta; su_stop : string; su_input : option Z; su_output : option Z }.
Definition silence : summary := mkSummary "" "" [] "" None None.
(** Texts, refusals and tool calls add up; the last stop and counts stand. *)
Definition say (s : summary) (d : streamDelta) : summary :=
  mkSummary (su_text s +:+ sd_Text d) (su_refusal s +:+ sd_Refusal d) (su_tools s ++ sd_Tools d) (if sd_Stop d =s "" then su_stop s else sd_Stop d)
    (or_else (sd_Input d) (su_input s)) (or_else (sd_Output d) (su_output s)).
Definition summarise (ds : list streamDelta) : summary := fold_left say ds silence.
Lemma summarise_snoc ds d : summarise (ds ++ [d]) = say (summarise ds) d.
Proof. unfold summarise. by rewrite fold_left_app. Qed.

(** The facts the translation keeps are those of the summary. *)
Definition facts_of (s : summary) (f : facts) : Prop :=
  fa_Stop f = su_stop s /\ fa_Refusal f = su_refusal s /\ fa_Input f = su_input s /\ fa_Output f = su_output s.
Lemma note_facts target s f d : facts_of s f -> facts_of (say s d) (note target f d).
Proof. intros (H1 & H2 & H3 & H4). unfold facts_of, note, say. cbn. by rewrite H1, H2, H3, H4. Qed.

(** Counts that were decoded are exact. *)
Definition counts_exact (s : summary) : Prop := count_ok (su_input s) /\ count_ok (su_output s).
Lemma usage_count_ok m name : count_ok (fst (usage_count m name)).
Proof. unfold usage_count. destruct (lookup_field m name); [|done]. pose proof (integer_ok v). by destruct (integer v). Qed.
Lemma usage_delta_ok target m : count_ok (sd_Input (usage_delta target m)) /\ count_ok (sd_Output (usage_delta target m)).
Proof.
  unfold usage_delta, streamUsage. destruct (if _ =s "anthropic" then _ else _) as [[raw i] o].
  pose proof (usage_count_ok (objectMap raw) i). pose proof (usage_count_ok (objectMap raw) o).
  destruct (usage_count _ i), (usage_count _ o). done.
Qed.
Lemma decoded_counts_ok target p d : decodeStreamDelta target p = Ok d -> count_ok (sd_Input d) /\ count_ok (sd_Output d).
Proof.
  unfold decodeStreamDelta. destruct (Unmarshal p) as [m []]; [|done]. pose proof (usage_delta_ok target m) as U. unfold stream_delta. cbv zeta.
  destruct (is_openai target); [|destruct (_ =s _); [|destruct (_ =s _); [|done]]]; intros H.
  - unfold openai_delta in H. destruct (array _); [by injection H as <-|]. cbv zeta in H. apply result_bind_Ok in H as ([] & _ & H). by injection H as <-.
  - unfold anthropic_delta in H. cbv zeta in H. repeat match type of H with context [if ?b then _ else _] => destruct b end; try done; by injection H as <-.
  - unfold gemini_delta in H. destruct (array _); [by injection H as <-|]. cbv zeta in H. apply result_bind_Ok in H as ([] & _ & H). by injection H as <-.
Qed.
Lemma say_exact s d : counts_exact s -> count_ok (sd_Input d) -> count_ok (sd_Output d) -> counts_exact (say s d).
Proof. intros [H1 H2] H3 H4. split; cbn; unfold or_else; by case_match. Qed.

(** * An OpenAI client *)

(** A frame as an OpenAI client reads it. *)
Definition frame_read (f : frame) : option streamDelta :=
  match f with
  | Event _ m => match stream_delta "openai" (reread_members m) with Ok d => Some d | Err _ => None end
  | DoneMark => None
  end.

Lemma integer_int n : 0 <= n <= maxSafeInteger -> integer (VNumber (int_float n)) = Some n.
Proof.
  intros Hn. destruct (int_float_safe n Hn) as [E _]. cbn [integer]. rewrite E. cbn.
  by rewrite (proj2 (Z.ltb_ge n 0)), (proj2 (Z.ltb_ge maxSafeInteger n)) by lia.
Qed.

(** ** Fields a frame leaves alone *)

Lemma find_put tools i t : find_tool (put_tool i t tools) i = Some t.
Proof. induction tools as [|[j u] tools IH]; cbn; [by rewrite Z.eqb_refl|]. destruct (j =? i) eqn:E; cbn; by rewrite E. Qed.
Lemma emit_tools accepts name v o : o_tools (emit accepts name v o) = o_tools o.
Proof. unfold emit. by destruct (o_broken o). Qed.
Lemma open_tool_found accepts client model item o :
  find_tool (o_tools (open_tool accepts client model item o)) (td_Index item)
  = Some (mkTool (if td_ID item =s "" then "call_translated_" +:+ FormatInt (td_Index item) else td_ID item) (td_Name item) "" (o_next (ensureStarted accepts client model o))).
Proof. unfold open_tool. cbv zeta. destruct (_ =s _); [|destruct (_ =s _)]; unfold typed; rewrite ?emit_tools; apply find_put. Qed.

Section Openai.
Context (accepts : list frame -> frame -> bool) (model : string).

(** Between two states the frames sent say [k], unless a write failed. *)
Definition tells (k : summary -> summary) (o o' : output) : Prop :=
  o_broken o' = false -> o_broken o = false /\ exists fs ds, o_sent o' = o_sent o ++ fs /\ map frame_read fs = map Some ds /\ forall s, fold_left say ds s = k s.

Lemma tells_nothing o o' : o_broken o' = o_broken o -> o_sent o' = o_sent o -> tells (fun s => s) o o'.
Proof. intros Hb Hs H. split; [congruence|]. exists [], []. rewrite Hs, app_nil_r. by split_and!. Qed.
Lemma tells_trans k1 k2 o1 o2 o3 : tells k1 o1 o2 -> tells k2 o2 o3 -> tells (fun s => k2 (k1 s)) o1 o3.
Proof.
  intros H1 H2 Hb. destruct (H2 Hb) as (Hb2 & fs2 & ds2 & E2 & R2 & S2). destruct (H1 Hb2) as (Hb1 & fs1 & ds1 & E1 & R1 & S1).
  split; [done|]. exists (fs1 ++ fs2), (ds1 ++ ds2). rewrite E2, E1, !map_app, R1, R2, app_assoc. split_and!; [done..|]. intros s. by rewrite fold_left_app, S1, S2.
Qed.
Lemma tells_ext k1 k2 o o' : (forall s, k1 s = k2 s) -> tells k1 o o' -> tells k2 o o'.
Proof. intros E H Hb. destruct (H Hb) as (Hb1 & fs & ds & Hs & R & S). split; [done|]. exists fs, ds. split_and!; [done..|]. intros s. by rewrite S. Qed.
Lemma emit_tells name v o d : frame_read (Event name v) = Some d -> tells (fun s => say s d) o (emit accepts name v o).
Proof.
  intros R Hb. unfold emit in *. destruct (o_broken o) eqn:E; [congruence|]. split; [done|]. unfold send in *. cbn in Hb |- *. rewrite E in Hb. cbn in Hb.
  destruct (accepts _ _); [|done]. exists [Event name v], [d]. cbn [map]. rewrite R. by split_and!.
Qed.

Definition quiet : streamDelta := mkDelta "" "" [] "" false None None [] false.
Lemma say_quiet s : say s quiet = s.
Proof. destruct s. unfold say. cbn. by rewrite str_app_nil_r, str_app_nil_r, app_nil_r. Qed.

Lemma chunk_text text : frame_read (Event "" (chunk model [("content", AString text)] ANull)) = Some (mkDelta text "" [] "" false None None [] false).
Proof. reflexivity. Qed.
Lemma chunk_role : frame_read (Event "" (chunk model [("role", AString "assistant")] ANull)) = Some quiet.
Proof. reflexivity. Qed.
Lemma chunk_refusal refusal : frame_read (Event "" (chunk model [("refusal", AString refusal)] ANull)) = Some (mkDelta "" refusal [] "" false None None [] false).
Proof. reflexivity. Qed.
Definition call_exact (item : streamToolDelta) : bool := (0 <=? td_Index item) && (td_Index item <=? maxSafeInteger).
Lemma chunk_call item : call_exact item = true ->
  frame_read (Event "" (chunk model [("tool_calls", AArray [call_chunk item])] ANull)) = Some (mkDelta "" "" [item] "" false None None [] false).
Proof.
  unfold call_exact. intros H. assert (N : number (VNumber (int_float (td_Index item))) = td_Index item) by (apply number_int; lia). destruct item as [index id name arguments].
  cbn [td_Index] in *.
  transitivity (Some (mkDelta "" "" [mkToolDelta (number (VNumber (int_float index))) id name arguments] "" false None None [] false)); [|by rewrite N].
  unfold call_chunk. cbn [td_Index td_ID td_Name td_Arguments].
  destruct (String.eqb_spec id "") as [->|], (String.eqb_spec name "") as [->|], (String.eqb_spec arguments "") as [->|]; reflexivity.
Qed.
Lemma chunk_finish stop input output : 0 <= input <= maxSafeInteger -> 0 <= output <= maxSafeInteger ->
  exists usage, frame_read (Event "" (set_field "usage" (usage_totals "prompt_tokens" "completion_tokens" "total_tokens" input output) (chunk model [] (AString (openAIStop stop)))))
  = Some (mkDelta "" "" [] (openAIStop stop) false (Some input) (Some output) usage false).
Proof.
  intros H1 H2. set (m := reread_members (set_field "usage" (usage_totals "prompt_tokens" "completion_tokens" "total_tokens" input output) (chunk model [] (AString (openAIStop stop))))).
  set (usage := reread_members [("prompt_tokens", AInt input); ("completion_tokens", AInt output); ("total_tokens", AInt (wrap64 (input + output)))]).
  assert (streamUsage "openai" m = (Some input, Some output, usage, false)) as E.
  { assert (field m "usage" = VObject usage) as F by reflexivity. unfold streamUsage. change ("openai" =s "anthropic") with false. change ("openai" =s "gemini") with false.
    cbv iota. rewrite F. change (objectMap (VObject usage)) with usage. unfold usage_count.
    assert (lookup_field usage "prompt_tokens" = Some (VNumber (int_float input))) as -> by reflexivity.
    assert (lookup_field usage "completion_tokens" = Some (VNumber (int_float output))) as -> by reflexivity. by rewrite (integer_int input H1), (integer_int output H2). }
  exists usage. change (frame_read _) with (match stream_delta "openai" m with Ok d => Some d | Err _ => None end). unfold stream_delta, usage_delta. cbv zeta. rewrite E. reflexivity.
Qed.

(** Text and tool calls are passed on as they come. *)
Definition hear (text : string) (items : list streamToolDelta) (s : summary) : summary :=
  mkSummary (su_text s +:+ text) (su_refusal s) (su_tools s ++ items) (su_stop s) (su_input s) (su_output s).
Lemma hear_nothing s : hear "" [] s = s.
Proof. destruct s. unfold hear. cbn. by rewrite str_app_nil_r, app_nil_r. Qed.
Lemma hear_hear t1 i1 t2 i2 s : hear t2 i2 (hear t1 i1 s) = hear (t1 +:+ t2) (i1 ++ i2) s.
Proof. unfold hear. cbn. by rewrite str_app_assoc, app_assoc. Qed.
Lemma hears_nothing o o' : o_broken o' = o_broken o -> o_sent o' = o_sent o -> tells (hear "" []) o o'.
Proof. intros Hb Hs. apply (tells_ext (fun s => s)); [intros; by rewrite hear_nothing|by apply tells_nothing]. Qed.
Lemma hears_trans t1 i1 t2 i2 o1 o2 o3 : tells (hear t1 i1) o1 o2 -> tells (hear t2 i2) o2 o3 -> tells (hear (t1 +:+ t2) (i1 ++ i2)) o1 o3.
Proof. intros H1 H2. eapply tells_ext; [|exact (tells_trans _ _ _ _ _ H1 H2)]. intros s. apply hear_hear. Qed.
Lemma emit_hears name v o text items : frame_read (Event name v) = Some (mkDelta text "" items "" false None None [] false) -> tells (hear text items) o (emit accepts name v o).
Proof. intros R. eapply tells_ext; [|by apply emit_tells]. intros s. unfold say, hear. cbn. by rewrite str_app_nil_r. Qed.

Lemma ensureStarted_hears o : tells (hear "" []) o (ensureStarted accepts "openai" model o).
Proof. unfold ensureStarted. destruct (o_started o); [by apply hears_nothing|]. exact (emit_hears "" _ o "" [] chunk_role). Qed.

Lemma send_text_hears text o o' : send_text accepts "openai" model text o = (o', None) -> tells (hear text []) o o'.
Proof.
  unfold send_text. destruct (String.eqb_spec text "") as [->|]; [intros [= <-]; by apply hears_nothing|]. cbv zeta. destruct (_ <? _); [done|]. intros [= <-].
  assert (B : tells (hear "" []) o (startText accepts "openai" model o)).
  { unfold startText. destruct (o_textStarted o); [by apply hears_nothing|]. exact (ensureStarted_hears o). }
  refine (hears_trans "" [] text [] _ _ _ B _).
  exact (emit_hears "" _ (with_text (o_text (startText accepts "openai" model o) +:+ text) (startText accepts "openai" model o)) text [] (chunk_text text)).
Qed.

Lemma send_tool_hears item o o' : call_exact item = true -> send_tool accepts "openai" model item o = (o', None) -> tells (hear "" [item]) o o'.
Proof.
  intros Hx. unfold send_tool. cbv zeta.
  set (o1 := if is_some (find_tool (o_tools o) (td_Index item)) then o else open_tool accepts "openai" model item o).
  assert (B : tells (hear "" []) o o1).
  { unfold o1. destruct (is_some _); [by apply hears_nothing|]. exact (ensureStarted_hears o). }
  assert (exists t, find_tool (o_tools o1) (td_Index item) = Some t) as [t F].
  { unfold o1. destruct (find_tool (o_tools o) (td_Index item)) as [t|] eqn:E; [by exists t|]. eexists. apply open_tool_found. }
  rewrite F. destruct (_ <? _); [done|]. intros [= <-]. refine (hears_trans "" [] "" [item] _ _ _ B _).
  exact (emit_hears "" _ (with_tools _ o1) "" [item] (chunk_call item Hx)).
Qed.
Lemma send_tools_hears items : forall o o', forallb call_exact items = true -> send_tools accepts "openai" model items o = (o', None) -> tells (hear "" items) o o'.
Proof.
  induction items as [|item items IH]; intros o o' Hx H; cbn [send_tools forallb] in *; [injection H as <-; by apply hears_nothing|].
  apply andb_true_iff in Hx as [H1 H2]. destruct (send_tool _ _ _ item o) as [o1 [e|]] eqn:E; [done|].
  exact (hears_trans "" [item] "" items _ _ _ (send_tool_hears item o o1 H1 E) (IH o1 o' H2 H)).
Qed.

(** ** The whole stream *)

Context (target : string).

Definition heard (ups : list streamDelta) (seen : bool) (st : stream) : Prop :=
  let u := summarise ups in
  facts_of u (st_facts st) /\ counts_exact u /\ o_broken (st_output st) = false
  /\ (forallb call_exact (su_tools u) = true -> tells (hear (su_text u) (su_tools u)) no_output (st_output st)).

Lemma heard_start : heard [] false (mkStream no_output no_facts).
Proof. split_and!; [by split_and!|done|done|]. intros _. by apply hears_nothing. Qed.
Lemma heard_done ups seen st : heard ups seen st -> heard ups true (mkStream (st_output st) (note_done (st_facts st))).
Proof. done. Qed.
Lemma heard_delta ups seen st p d st' :
  heard ups seen st -> decodeStreamDelta target p = Ok d -> consume_delta accepts "openai" model target d st = (st', None) -> heard (ups ++ [d]) seen st'.
Proof.
  intros (F & C & B & T) D H. unfold heard. cbv zeta. rewrite summarise_snoc. unfold consume_delta in H.
  destruct (send_text _ _ _ _ _) as [o1 [e|]] eqn:E1; [done|]. destruct (send_tools _ _ _ _ _) as [o2 [e|]] eqn:E2; [done|]. injection H as <- Hb. cbn [st_output st_facts].
  destruct (decoded_counts_ok _ _ _ D) as [C1 C2]. split_and!; [by apply note_facts|by apply say_exact|unfold broken_error in Hb; by destruct (o_broken o2)|].
  cbn [su_tools su_text say]. rewrite forallb_app. intros [X1 X2]%andb_true_iff. refine (hears_trans _ _ _ _ _ _ _ (T X1) _).
  refine (tells_ext _ _ _ _ _ (hears_trans _ _ _ _ _ _ _ (send_text_hears _ _ _ E1) (send_tools_hears _ _ _ X2 E2))). intros s. by rewrite str_app_nil_r.
Qed.

(** What the client hears in the end. *)
Definition openai_summary (u : summary) : summary :=
  mkSummary (su_text u) (su_refusal u) (su_tools u) (openAIStop (su_stop u)) (su_input u) (su_output u).
Lemma openAIStop_some stop : (openAIStop stop =s "") = false.
Proof. unfold openAIStop. by repeat case_match. Qed.

Lemma finish_tells stop refusal input output o : 0 <= input <= maxSafeInteger -> 0 <= output <= maxSafeInteger ->
  exists o', tells (fun s => mkSummary (su_text s) (su_refusal s +:+ refusal) (su_tools s) (openAIStop stop) (Some input) (Some output)) o o'
    /\ o_broken (finish_openai accepts model stop refusal input output o) = o_broken o'
    /\ (o_sent (finish_openai accepts model stop refusal input output o) = o_sent o'
        \/ o_sent (finish_openai accepts model stop refusal input output o) = o_sent o' ++ [DoneMark]).
Proof.
  intros Hi Ho. destruct (chunk_finish stop input output Hi Ho) as [usage R].
  set (o1 := if refusal =s "" then o else emit accepts "" (chunk model [("refusal", AString refusal)] ANull) o).
  assert (T1 : tells (fun s => mkSummary (su_text s) (su_refusal s +:+ refusal) (su_tools s) (su_stop s) (su_input s) (su_output s)) o o1).
  { unfold o1. destruct (String.eqb_spec refusal "") as [->|].
    - apply (tells_ext (fun s => s)); [|by apply tells_nothing]. intros []. cbn. by rewrite str_app_nil_r.
    - eapply tells_ext; [|exact (emit_tells "" _ o _ (chunk_refusal refusal))]. intros s. unfold say. cbn. by rewrite str_app_nil_r, app_nil_r. }
  exists (emit accepts "" (set_field "usage" (usage_totals "prompt_tokens" "completion_tokens" "total_tokens" input output) (chunk model [] (AString (openAIStop stop)))) o1).
  split; [|split; [reflexivity|]].
  - eapply tells_ext; [|exact (tells_trans _ _ _ _ _ T1 (emit_tells "" _ o1 _ R))]. intros s. unfold say. cbn. by rewrite !str_app_nil_r, app_nil_r, openAIStop_some.
  - unfold finish_openai. cbv zeta. fold o1. cbn [o_sent]. destruct (accepts _ DoneMark); auto.
Qed.

(** What a successful end has checked, whatever the client. *)
Lemma finish_stream_ok client st t : finish_stream accepts client model target st = t -> tr_error t = None ->
  exists input output, fa_Completed (st_facts st) = true /\ fa_Invalid (st_facts st) = false /\ fa_TerminalUsage (st_facts st) = true
    /\ tools_valid (st_output st) = true /\ fa_Input (st_facts st) = Some input /\ fa_Output (st_facts st) = Some output
    /\ let o := finishTranslatedStream accepts client model (fa_Stop (st_facts st)) (fa_Refusal (st_facts st)) input output
                  (ensureStarted accepts client model (closed_tools (st_output st))) in
       o_broken o = false /\ tr_sent t = o_sent o /\ tr_metadata t = Some (metadata target false "completed" (mkStream o (st_facts st))).
Proof.
  intros <- E. unfold finish_stream in *. cbv zeta in *. destruct (fa_Completed _); [|done]. destruct (fa_Invalid _); [done|]. destruct (fa_TerminalUsage _); [|done].
  destruct (tools_valid _); [|done]. cbn [negb] in *. destruct (fa_Input _) as [i|]; [|done]. destruct (fa_Output _) as [ou|]; [|done].
  exists i, ou. cbn [tr_error tr_sent tr_metadata] in *. unfold broken_error in E. split_and!; try done. by destruct (o_broken _).
Qed.

Lemma heard_finish ups seen st t : heard ups seen st -> finish_stream accepts "openai" model target st = t -> tr_error t = None ->
  forallb call_exact (su_tools (summarise ups)) = true ->
  exists frames downs, (tr_sent t = frames \/ tr_sent t = frames ++ [DoneMark]) /\ map frame_read frames = map Some downs /\ summarise downs = openai_summary (summarise ups).
Proof.
  intros ((F1 & F2 & F3 & F4) & [C1 C2] & B & T) H E X. destruct (finish_stream_ok "openai" st t H E) as (input & output & _ & _ & _ & _ & Ei & Eo & Hb & Hs & _).
  rewrite Ei in F3. rewrite Eo in F4. rewrite <- F3 in C1. rewrite <- F4 in C2. cbn in C1, C2. specialize (T X).
  destruct (finish_tells (fa_Stop (st_facts st)) (fa_Refusal (st_facts st)) input output (ensureStarted accepts "openai" model (closed_tools (st_output st))) C1 C2) as (o' & T' & Hb' & Hs').
  change (finishTranslatedStream accepts "openai") with (finish_openai accepts) in Hb, Hs. cbv beta in *. rewrite Hb' in Hb.
  assert (T2 : tells (hear "" []) (st_output st) (ensureStarted accepts "openai" model (closed_tools (st_output st)))) by exact (ensureStarted_hears (closed_tools (st_output st))).
  destruct (tells_trans _ _ _ _ _ (hears_trans _ _ _ _ _ _ _ T T2) T' Hb) as (_ & fs & ds & Hfs & Hr & Hsay). exists fs, ds. cbn [o_sent no_output app] in Hfs.
  split_and!; [rewrite Hs, <- Hfs; exact Hs'|done|]. unfold summarise at 1. rewrite Hsay. unfold openai_summary, hear, silence. cbn. by rewrite str_app_nil_r, app_nil_r, F1, F2, F3, F4.
Qed.
End Openai.

(** The event of a frame, read from its text. *)
Definition frame_event (f : frame) : result streamDelta :=
  match f with Event _ m => decodeStreamDelta "openai" (marshal (AObject m)) | DoneMark => Err json_error end.
Definition frame_writable (f : frame) : bool := match f with Event _ m => writable m | DoneMark => true end.

Lemma frames_event frames downs : forallb frame_writable frames = true -> map frame_read frames = map Some downs -> map frame_event frames = map Ok downs.
Proof.
  revert downs. induction frames as [|f frames IH]; intros [|d downs]; [done..|]. cbn [forallb map]. intros [W H]%andb_true_iff [= R Rs]. f_equal; [|by apply IH].
  destruct f as [name m|]; [|done]. unfold frame_event, decodeStreamDelta. cbn in W. rewrite (written_reads m W). unfold frame_read in R. destruct (stream_delta "openai" (reread_members m)); congruence.
Qed.

(** C16: a stream translated for an OpenAI client says what the provider's
    stream says. When the translation ends without an error, every event the
    provider sent was understood, and the frames the client received, each
    read from its text by the OpenAI decoder, give the same text, the same
    refusal and the same tool call fragments in the same order, the provider's
    last token counts, and its stop reason in that dialect's word. *)
Theorem openai_stream_reads accepts model target flushes text failure t :
  TranslateStream accepts "openai" model target flushes text failure = t -> tr_error t = None -> forallb frame_writable (tr_sent t) = true ->
  exists ups, provider_events target text = Ok ups
    /\ (forallb call_exact (su_tools (summarise ups)) = true ->
        exists frames downs, (tr_sent t = frames \/ tr_sent t = frames ++ [DoneMark]) /\ map frame_event frames = map Ok downs
          /\ summarise downs = openai_summary (summarise ups)).
Proof.
  intros H E W.
  destruct (TranslateStream_cases accepts "openai" model target heard (heard_delta accepts model target) heard_done (fun _ => True) (fun _ _ _ => I)
    flushes text failure t heard_start I H) as [[E' _]|(ups & st & Hu & Hh & _ & Hf)]; [by rewrite E in E'|].
  exists ups. split; [done|]. intros X. destruct (heard_finish accepts model target ups _ st t Hh Hf E X) as (frames & downs & Hs & Hr & Hd). exists frames, downs. split_and!; [done| |done].
  apply frames_event; [|done]. destruct Hs as [<-|Hs]; [done|]. rewrite Hs, forallb_app in W. by apply andb_true_iff in W as [W _].
Qed.
