(* ===== verification/Endings.v ===== *)
(** The end of a translated stream: sent only when the provider's stream was
    complete, its counts were valid, and its tool calls were whole. *)
From S2P Require Import Prelude GoStd Money Counters Policy Json Decode Store Pricing PolicyService Admission Settlement Tokens Marshal Printing Canonical Dialects Encode Decoded Translated Streaming Streamed.
Open Scope string_scope.
Open Scope Z_scope.
Open Scope list_scope.

(** A frame by which a client knows that the answer is complete, in any of the
    four dialects. *)
Definition first_of (v : value) : object := objectMap (match array v with x :: _ => x | [] => VNull end).
Definition finish_reason (m : object) : string :=
  stringValue (field (first_of (field m "choices")) "finish_reason") +:+ stringValue (field (first_of (field m "candidates")) "finishReason").
Definition ends_answer (f : frame) : bool :=
  match f with
  | DoneMark => true
  | Event name m => (name =s "message_stop") || (name =s "response.completed") || negb (finish_reason (reread_members m) =s "")
  end.
Definition open_ended (fs : list frame) : Prop := existsb ends_answer fs = false.

Lemma open_snoc fs f : open_ended fs -> ends_answer f = false -> open_ended (fs ++ [f]).
Proof. unfold open_ended. intros H E. rewrite existsb_app. cbn. by rewrite H, E. Qed.

(** The arguments of a call, put together from their fragments. *)
Fixpoint fragments (index : Z) (items : list streamToolDelta) : string :=
  match items with
  | [] => ""
  | item :: items => (if td_Index item =? index then td_Arguments item else "") +:+ fragments index items
  end.
Definition call_arguments (index : Z) (items : list streamToolDelta) : string := let a := fragments index items in if a =s "" then "{}" else a.
Lemma fragments_snoc index items item : fragments index (items ++ [item]) = fragments index items +:+ (if td_Index item =? index then td_Arguments item else "").
Proof. induction items as [|x items IH]; cbn; [by rewrite str_app_nil_r|]. by rewrite IH, str_app_assoc. Qed.

Lemma find_put_ne tools i j t : i <> j -> find_tool (put_tool i t tools) j = find_tool tools j.
Proof.
  intros Hn. induction tools as [|[k u] tools IH]; cbn; [by rewrite (proj2 (Z.eqb_neq i j))|]. destruct (Z.eqb_spec k i) as [->|]; cbn; [by rewrite (proj2 (Z.eqb_neq i j))|].
  by rewrite IH.
Qed.
Lemma find_tool_In tools i t : find_tool tools i = Some t -> In (i, t) tools.
Proof. induction tools as [|[k u] tools IH]; cbn; [done|]. destruct (Z.eqb_spec k i) as [->|]; [intros [= ->]; by left|auto]. Qed.

Section Ending.
Context (accepts : list frame -> frame -> bool) (client model target : string).

Lemma emit_open name v o : ends_answer (Event name v) = false -> open_ended (o_sent o) -> open_ended (o_sent (emit accepts name v o)).
Proof. intros E H. unfold emit. destruct (o_broken o); [done|]. cbn. destruct (accepts _ _); [by apply open_snoc|done]. Qed.

Lemma ensureStarted_open o : open_ended (o_sent o) -> open_ended (o_sent (ensureStarted accepts client model o)).
Proof.
  intros H. unfold ensureStarted. destruct (o_started o); [done|]. cbn [o_sent with_started]. unfold typed.
  destruct (_ =s _); [by apply emit_open|]. destruct (_ =s _); [by apply emit_open|]. destruct (_ =s _); [by apply emit_open|done].
Qed.
Lemma startText_open o : open_ended (o_sent o) -> open_ended (o_sent (startText accepts client model o)).
Proof.
  intros H. unfold startText. destruct (o_textStarted o); [done|]. cbv zeta. cbn [o_sent with_text_item]. apply ensureStarted_open in H. unfold typed.
  destruct (_ =s _); [by apply emit_open|]. destruct (_ =s _); [by apply emit_open; [|apply emit_open]|done].
Qed.
Lemma text_event_open text o : open_ended (o_sent o) -> open_ended (o_sent (text_event accepts client model text o)).
Proof. intros H. unfold text_event, typed. repeat (destruct (_ =s _); [by apply emit_open|]). done. Qed.
Lemma send_text_open text o : open_ended (o_sent o) -> open_ended (o_sent (fst (send_text accepts client model text o))).
Proof.
  intros H. unfold send_text. destruct (text =s ""); [done|]. cbv zeta. apply startText_open in H. destruct (_ <? _); [done|]. cbn [fst]. by apply text_event_open.
Qed.
Lemma open_tool_open item o : open_ended (o_sent o) -> open_ended (o_sent (open_tool accepts client model item o)).
Proof.
  intros H. unfold open_tool. cbv zeta. apply ensureStarted_open in H. unfold typed. destruct (_ =s _); [by apply emit_open|]. destruct (_ =s _); [by apply emit_open|done].
Qed.
Lemma tool_event_open item t o : open_ended (o_sent o) -> open_ended (o_sent (tool_event accepts client model item t o)).
Proof.
  intros H. unfold tool_event, typed. destruct (_ =s _); [by apply emit_open|]. destruct (_ =s ""); [done|]. repeat (destruct (_ =s _); [by apply emit_open|]). done.
Qed.
Lemma send_tool_open item o : open_ended (o_sent o) -> open_ended (o_sent (fst (send_tool accepts client model item o))).
Proof.
  intros H. unfold send_tool. cbv zeta. set (o1 := if is_some _ then o else _). assert (H1 : open_ended (o_sent o1)) by (unfold o1; destruct (is_some _); [done|by apply open_tool_open]).
  clearbody o1. destruct (find_tool _ _); [|exact H1]. destruct (_ <? _); [exact H1|]. cbn [fst]. apply tool_event_open. exact H1.
Qed.
Lemma send_tools_open items : forall o, open_ended (o_sent o) -> open_ended (o_sent (fst (send_tools accepts client model items o))).
Proof.
  induction items as [|item items IH]; intros o H; cbn [send_tools]; [done|]. pose proof (send_tool_open item o H). destruct (send_tool _ _ _ _ _) as [o1 [e|]]; [done|by apply IH].
Qed.
Lemma consume_delta_open d st : open_ended (o_sent (st_output st)) -> open_ended (o_sent (st_output (fst (consume_delta accepts client model target d st)))).
Proof.
  intros H. unfold consume_delta. pose proof (send_text_open (sd_Text d) _ H) as H1. destruct (send_text _ _ _ _ _) as [o1 [e|]]; [done|].
  pose proof (send_tools_open (sd_Tools d) _ H1) as H2. by destruct (send_tools _ _ _ _ _) as [o2 [e|]].
Qed.
End Ending.

(** ** What has been read when the end is sent *)

Section Complete.
Context (accepts : list frame -> frame -> bool) (client model target : string).

(** The tools are the calls of the events, with their arguments so far. *)
Definition calls_kept (items : list streamToolDelta) (tools : list (Z * streamTool)) : Prop :=
  forall index, match find_tool tools index with
                | Some t => to_Arguments t = fragments index items
                | None => ~ In index (map td_Index items)
                end.

Lemma calls_unseen index items : ~ In index (map td_Index items) -> fragments index items = "".
Proof.
  induction items as [|x items IH]; [done|]. cbn. intros H. rewrite (proj2 (Z.eqb_neq (td_Index x) index)) by tauto. rewrite IH by tauto. done.
Qed.

Lemma typed_tools type v o : o_tools (typed accepts type v o) = o_tools o.
Proof. apply emit_tools. Qed.
Lemma ensureStarted_tools o : o_tools (ensureStarted accepts client model o) = o_tools o.
Proof. unfold ensureStarted. destruct (o_started o); [done|]. cbn [o_tools with_started]. repeat (destruct (_ =s _); [by rewrite ?typed_tools, ?emit_tools|]). done. Qed.
Lemma startText_tools o : o_tools (startText accepts client model o) = o_tools o.
Proof.
  unfold startText. destruct (o_textStarted o); [done|]. cbv zeta. cbn [o_tools with_text_item].
  repeat (destruct (_ =s _); [by rewrite ?typed_tools, ensureStarted_tools|]). apply ensureStarted_tools.
Qed.
Lemma send_text_tools text o : o_tools (fst (send_text accepts client model text o)) = o_tools o.
Proof.
  unfold send_text. destruct (text =s ""); [done|]. cbv zeta. destruct (_ <? _); cbn [fst]; [apply startText_tools|]. unfold text_event.
  repeat (destruct (_ =s _); [by rewrite ?typed_tools, ?emit_tools; cbn [o_tools with_text]; rewrite startText_tools|]). cbn [o_tools with_text]. apply startText_tools.
Qed.
Lemma tool_event_tools item t o : o_tools (tool_event accepts client model item t o) = o_tools o.
Proof. unfold tool_event. destruct (_ =s _); [apply emit_tools|]. destruct (_ =s ""); [done|]. repeat (destruct (_ =s _); [apply typed_tools|]). done. Qed.
Lemma open_tool_tools item o : exists t,
  (to_ID t = (if td_ID item =s "" then "call_translated_" +:+ FormatInt (td_Index item) else td_ID item) /\ to_Name t = td_Name item /\ to_Arguments t = "") /\ o_tools (open_tool accepts client model item o) = put_tool (td_Index item) t (o_tools o).
Proof.
  exists (mkTool (if td_ID item =s "" then "call_translated_" +:+ FormatInt (td_Index item) else td_ID item) (td_Name item) "" (o_next (ensureStarted accepts client model o))).
  split; [done|]. rewrite <- (ensureStarted_tools o). unfold open_tool. cbv zeta.
  destruct (client =s "anthropic"); [by rewrite typed_tools|]. destruct (client =s "responses"); [by rewrite typed_tools|done].
Qed.

Lemma send_tool_calls items item o o' : calls_kept items (o_tools o) -> send_tool accepts client model item o = (o', None) -> calls_kept (items ++ [item]) (o_tools o').
Proof.
  intros K. unfold send_tool. cbv zeta. set (o1 := if is_some _ then o else _).
  assert (H1 : exists t, find_tool (o_tools o1) (td_Index item) = Some t /\ to_Arguments t = fragments (td_Index item) items
    /\ forall index, index <> td_Index item -> find_tool (o_tools o1) index = find_tool (o_tools o) index).
  { unfold o1. pose proof (K (td_Index item)) as Ki. destruct (find_tool (o_tools o) (td_Index item)) as [t|] eqn:F; cbn [is_some].
    - exists t. by split_and!.
    - destruct (open_tool_tools item o) as (t & (_ & _ & Ht) & ->). exists t. split_and!; [apply find_put|by rewrite Ht, (calls_unseen _ _ Ki)|]. intros index Hn. by apply find_put_ne. }
  clearbody o1. destruct H1 as (t & F & Ha & Hn). rewrite F. destruct (_ <? _); [done|]. intros [= <-]. rewrite tool_event_tools. cbn [o_tools with_tools]. intros index.
  rewrite fragments_snoc, map_app. destruct (Z.eqb_spec (td_Index item) index) as [<-|Hne].
  - rewrite find_put. cbn [to_Arguments]. by rewrite Ha.
  - rewrite !find_put_ne, Hn by congruence. specialize (K index). destruct (find_tool (o_tools o) index); [by rewrite K, str_app_nil_r|].
    cbn [map]. rewrite in_app_iff. cbn. tauto.
Qed.
Lemma send_tools_calls news : forall items o o', calls_kept items (o_tools o) -> send_tools accepts client model news o = (o', None) -> calls_kept (items ++ news) (o_tools o').
Proof.
  induction news as [|item news IH]; intros items o o' K H; cbn [send_tools] in H; [injection H as <-; by rewrite app_nil_r|].
  destruct (send_tool _ _ _ item o) as [o1 [e|]] eqn:E; [done|]. pose proof (IH _ _ _ (send_tool_calls _ _ _ _ K E) H) as R. by rewrite <- app_assoc in R.
Qed.

(** ** The end *)

Definition understood (ups : list streamDelta) (seen : bool) (st : stream) : Prop :=
  let u := summarise ups in let f := st_facts st in
  facts_of u f /\ fa_Completed f = seen || existsb sd_Done ups /\ fa_Invalid f = existsb sd_Invalid ups
  /\ calls_kept (su_tools u) (o_tools (st_output st)) /\ open_ended (o_sent (st_output st)).

Lemma understood_done ups seen st : understood ups seen st -> understood ups true (mkStream (st_output st) (note_done (st_facts st))).
Proof. intros (F & C & I & K & O). split_and!; done. Qed.
Lemma understood_delta ups seen st p d st' :
  understood ups seen st -> decodeStreamDelta target p = Ok d -> consume_delta accepts client model target d st = (st', None) -> understood (ups ++ [d]) seen st'.
Proof.
  intros (F & C & I & K & O) _ H. pose proof (consume_delta_open accepts client model target d st O) as O'. rewrite H in O'. unfold understood. cbv zeta.
  rewrite summarise_snoc, !existsb_app. unfold consume_delta in H. pose proof (send_text_tools (sd_Text d) (st_output st)) as T.
  destruct (send_text _ _ _ _ _) as [o1 [e|]]; [done|]. destruct (send_tools _ _ _ _ _) as [o2 [e|]] eqn:E2; [done|]. injection H as <- Hb. cbn [st_facts st_output fst] in *.
  split_and!; [by apply note_facts| | | |done].
  - cbn [fa_Completed note]. rewrite C. cbn. by rewrite orb_false_r, orb_assoc.
  - cbn [fa_Invalid note]. rewrite I. cbn. by rewrite orb_false_r.
  - cbn [su_tools say]. rewrite <- T in K. exact (send_tools_calls _ _ _ _ K E2).
Qed.

Lemma tools_valid_call o items index : tools_valid o = true -> calls_kept items (o_tools o) -> In index (map td_Index items) -> json_valid (call_arguments index items) = true.
Proof.
  intros V K Hin. specialize (K index). destruct (find_tool (o_tools o) index) as [t|] eqn:F; [|done]. apply find_tool_In in F.
  unfold tools_valid in V. rewrite forallb_forall in V. specialize (V _ F). cbn [snd closed_tool to_Arguments] in V. unfold call_arguments. cbv zeta. by rewrite <- K.
Qed.

(** A stream that does not finish sends nothing more. *)
Lemma finish_stream_cases st t : finish_stream accepts client model target st = t ->
  tr_sent t = o_sent (st_output st)
  \/ (fa_Completed (st_facts st) = true /\ fa_Invalid (st_facts st) = false /\ tools_valid (st_output st) = true
      /\ is_some (fa_Input (st_facts st)) = true /\ is_some (fa_Output (st_facts st)) = true).
Proof.
  intros <-. unfold finish_stream. cbv zeta. destruct (fa_Completed _); [|by left]. destruct (fa_Invalid _); [by left|]. destruct (fa_TerminalUsage _); [|by left].
  destruct (tools_valid _); [|by left]. cbn [negb]. destruct (fa_Input _); [|by left]. destruct (fa_Output _); [|by left]. right. by split_and!.
Qed.
End Complete.

(** C17: a client sees the end of an answer only when the provider's answer is
    complete. If any frame that ends the answer was sent, in any dialect, then
    the source did not break off, every event was understood, the provider
    said it was done, it reported both token counts and no invalid ones, and
    every tool call, put together from its fragments, is valid JSON. *)
Theorem stream_end_is_earned accepts client model target flushes text failure t :
  TranslateStream accepts client model target flushes text failure = t -> existsb ends_answer (tr_sent t) = true ->
  exists ups, provider_events target text = Ok ups /\ (str_len text <= maxStreamBytes -> failure = None)
    /\ existsb is_done (payloads_of text) || existsb sd_Done ups = true /\ existsb sd_Invalid ups = false
    /\ is_some (su_input (summarise ups)) = true /\ is_some (su_output (summarise ups)) = true
    /\ forall index, In index (map td_Index (su_tools (summarise ups))) -> json_valid (call_arguments index (su_tools (summarise ups))) = true.
Proof.
  intros H E.
  assert (S : understood [] false (mkStream no_output no_facts)) by (split_and!; [by split_and!|done|done|intros index; cbn; tauto|done]).
  destruct (TranslateStream_cases accepts client model target understood (understood_delta accepts client model target) understood_done
    open_ended (consume_delta_open accepts client model target) flushes text failure t S eq_refl H) as [[_ O]|(ups & st & Hu & (F & C & I & K & O) & Hl & Hf)];
    [unfold open_ended in O; congruence|].
  destruct (finish_stream_cases accepts client model target st t Hf) as [Hs|(Hc & Hi & Hv & Hin & Hou)]; [rewrite Hs in E; unfold open_ended in O; congruence|].
  destruct F as (_ & _ & F3 & F4). exists ups. rewrite <- F3, <- F4, <- C, <- I. split_and!; try done. intros index Hx. exact (tools_valid_call _ _ _ Hv K Hx).
Qed.
