(* ===== verification/Spoken.v ===== *)
(** What a translation keeps of the events of a stream, for any client: the
    text so far, and a tool for every call, with the id and the name given
    last and the arguments put together. *)
From S2P Require Import Prelude GoStd Money Counters Policy Json Decode Store Pricing PolicyService Admission Settlement Tokens Marshal Printing Canonical Dialects Encode Decoded Translated Streaming Streamed Endings.
Open Scope string_scope.
Open Scope Z_scope.
Open Scope list_scope.

(** The id and the name of a call: the last ones given. *)
Definition later (old new : string) : string := if new =s "" then old else new.
Definition call_id (index : Z) (items : list streamToolDelta) : string :=
  fold_left (fun id item => if td_Index item =? index then later id (td_ID item) else id) items ("call_translated_" +:+ FormatInt index).
Definition call_name (index : Z) (items : list streamToolDelta) : string :=
  fold_left (fun name item => if td_Index item =? index then later name (td_Name item) else name) items "".

Lemma call_id_snoc index items item : call_id index (items ++ [item]) = if td_Index item =? index then later (call_id index items) (td_ID item) else call_id index items.
Proof. unfold call_id. by rewrite fold_left_app. Qed.
Lemma call_name_snoc index items item : call_name index (items ++ [item]) = if td_Index item =? index then later (call_name index items) (td_Name item) else call_name index items.
Proof. unfold call_name. by rewrite fold_left_app. Qed.
Lemma unseen_fold {A} (f : A -> streamToolDelta -> A) index items : ~ In index (map td_Index items) ->
  forall a, fold_left (fun a item => if td_Index item =? index then f a item else a) items a = a.
Proof. induction items as [|x items IH]; intros H a; cbn in *; [done|]. rewrite (proj2 (Z.eqb_neq (td_Index x) index)) by tauto. apply IH. tauto. Qed.

Section Spoken.
Context (accepts : list frame -> frame -> bool) (client model target : string).

(** The tools are kept once per index of the calls seen. *)
Definition keyed (items : list streamToolDelta) (tools : list (Z * streamTool)) : Prop :=
  List.NoDup (map fst tools) /\ forall i, In i (map fst tools) <-> In i (map td_Index items).
Definition call_count (items : list streamToolDelta) : Z := Z.of_nat (length (remove_dups (map td_Index items))).

Lemma find_tool_none tools i : find_tool tools i = None <-> ~ In i (map fst tools).
Proof. induction tools as [|[k u] tools IH]; cbn; [tauto|]. destruct (Z.eqb_spec k i) as [->|Hn]; [|tauto]. split; [done|]. intros H. exfalso. tauto. Qed.
Lemma put_keys tools i t : map fst (put_tool i t tools) = if is_some (find_tool tools i) then map fst tools else map fst tools ++ [i].
Proof. induction tools as [|[k u] tools IH]; cbn; [done|]. destruct (Z.eqb_spec k i) as [->|Hn]; cbn; [done|]. rewrite IH. by destruct (is_some _). Qed.

Lemma keyed_count items tools : keyed items tools -> Z.of_nat (length tools) = call_count items.
Proof.
  intros [N H]. unfold call_count. f_equal. rewrite <- (length_map fst). apply Permutation_length, NoDup_Permutation; [by apply NoDup_ListNoDup|apply NoDup_remove_dups|].
  intros i. rewrite elem_of_remove_dups, !list_elem_of_In. apply H.
Qed.

Lemma send_tool_keys items item o o' : keyed items (o_tools o) -> send_tool accepts client model item o = (o', None) -> keyed (items ++ [item]) (o_tools o').
Proof.
  intros [N H]. unfold send_tool. cbv zeta. set (o1 := if is_some _ then o else _).
  assert (H1 : map fst (o_tools o1) = if is_some (find_tool (o_tools o) (td_Index item)) then map fst (o_tools o) else map fst (o_tools o) ++ [td_Index item]).
  { unfold o1. destruct (find_tool (o_tools o) (td_Index item)) as [t|] eqn:F; cbn [is_some]; [done|]. destruct (open_tool_tools accepts client model item o) as (t & _ & ->). by rewrite put_keys, F. }
  assert (F1 : is_some (find_tool (o_tools o1) (td_Index item)) = true).
  { destruct (find_tool (o_tools o1) (td_Index item)) eqn:F; [done|]. apply find_tool_none in F. rewrite H1 in F. exfalso.
    destruct (find_tool (o_tools o) (td_Index item)) as [t|] eqn:F0; cbn [is_some] in F; [|apply F, in_app_iff; right; by left].
    apply F. apply find_tool_In in F0. by apply (in_map fst) in F0. }
  clearbody o1. destruct (find_tool (o_tools o1) (td_Index item)) as [t|] eqn:F; [|done]. destruct (_ <? _); [done|]. intros [= <-]. rewrite tool_event_tools. cbn [o_tools with_tools].
  unfold keyed. rewrite !put_keys, find_put, F. cbn [is_some]. rewrite H1, map_app. destruct (find_tool (o_tools o) (td_Index item)) as [u|] eqn:F0; cbn [is_some map].
  - split; [done|]. intros i. rewrite H, in_app_iff. cbn. split; [tauto|]. intros [Hi|[<-|[]]]; [done|]. apply H. apply find_tool_In in F0. by apply (in_map fst) in F0.
  - apply find_tool_none in F0. split; [|intros i; by rewrite !in_app_iff, H]. apply NoDup_ListNoDup, NoDup_app. split_and!; [by apply NoDup_ListNoDup| |apply NoDup_singleton].
    intros x Hx%list_elem_of_In [= ->]%list_elem_of_singleton. done.
Qed.
Lemma send_tools_keys news : forall items o o', keyed items (o_tools o) -> send_tools accepts client model news o = (o', None) -> keyed (items ++ news) (o_tools o').
Proof.
  induction news as [|item news IH]; intros items o o' K H; cbn [send_tools] in H; [injection H as <-; by rewrite app_nil_r|].
  destruct (send_tool _ _ _ item o) as [o1 [e|]] eqn:E; [done|]. pose proof (IH _ _ _ (send_tool_keys _ _ _ _ K E) H) as R. by rewrite <- app_assoc in R.
Qed.

(** ** The tools *)

Definition tool_says (items : list streamToolDelta) (index : Z) (t : streamTool) : Prop :=
  to_ID t = call_id index items /\ to_Name t = call_name index items /\ to_Arguments t = fragments index items.
Definition tools_say (items : list streamToolDelta) (tools : list (Z * streamTool)) : Prop :=
  keyed items tools /\ forall index t, find_tool tools index = Some t -> tool_says items index t.

Lemma tool_says_other items item index t : td_Index item <> index -> tool_says items index t -> tool_says (items ++ [item]) index t.
Proof.
  intros H%Z.eqb_neq (E1 & E2 & E3). unfold tool_says. rewrite call_id_snoc, call_name_snoc, fragments_snoc, H, str_app_nil_r. by split_and!.
Qed.
Lemma send_tool_says items item o o' : tools_say items (o_tools o) -> send_tool accepts client model item o = (o', None) -> tools_say (items ++ [item]) (o_tools o').
Proof.
  intros [K S] H. split; [by eapply send_tool_keys|]. revert H. unfold send_tool. cbv zeta. set (o1 := if is_some _ then o else _). set (i := td_Index item) in *.
  assert (H1 : exists t, find_tool (o_tools o1) i = Some t /\ later (to_ID t) (td_ID item) = later (call_id i items) (td_ID item)
    /\ later (to_Name t) (td_Name item) = later (call_name i items) (td_Name item) /\ to_Arguments t = fragments i items
    /\ forall index, index <> i -> find_tool (o_tools o1) index = find_tool (o_tools o) index).
  { unfold o1. destruct (find_tool (o_tools o) i) as [t|] eqn:F; cbn [is_some].
    - destruct (S i t F) as (E1 & E2 & E3). exists t. rewrite E1, E2. by split_and!.
    - assert (~ In i (map td_Index items)) as U by (rewrite <- (proj2 K i); by apply find_tool_none).
      destruct (open_tool_tools accepts client model item o) as (t & (E1 & E2 & E3) & ->). exists t. rewrite E1, E2, E3, (calls_unseen _ _ U).
      unfold call_id, call_name. rewrite !(unseen_fold _ _ _ U). unfold later. fold i.
      split_and!; [apply find_put|by destruct (td_ID item =s "")|destruct (String.eqb_spec (td_Name item) ""); congruence|done|]. intros index Hn. by apply find_put_ne. }
  clearbody o1. destruct H1 as (t & F & E1 & E2 & E3 & Hn). rewrite F. destruct (_ <? _); [done|]. intros [= <-]. rewrite tool_event_tools. cbn [o_tools with_tools].
  intros index u. destruct (decide (index = i)) as [->|Hne].
  - rewrite find_put. intros [= <-]. unfold tool_says. cbn [to_ID to_Name to_Arguments]. rewrite call_id_snoc, call_name_snoc, fragments_snoc. fold i.
    rewrite Z.eqb_refl, <- E1, <- E2, E3. done.
  - rewrite !find_put_ne, Hn by congruence. intros Hu. apply tool_says_other; [subst i; congruence|by apply S].
Qed.
Lemma send_tools_say news : forall items o o', tools_say items (o_tools o) -> send_tools accepts client model news o = (o', None) -> tools_say (items ++ news) (o_tools o').
Proof.
  induction news as [|item news IH]; intros items o o' K H; cbn [send_tools] in H; [injection H as <-; by rewrite app_nil_r|].
  destruct (send_tool _ _ _ item o) as [o1 [e|]] eqn:E; [done|]. pose proof (IH _ _ _ (send_tool_says _ _ _ _ K E) H) as R. by rewrite <- app_assoc in R.
Qed.

(** ** The text *)

Definition text_says (text : string) (o : output) : Prop := o_text o = text /\ o_textStarted o = negb (text =s "").
Definition same_text (o o' : output) : Prop := o_text o' = o_text o /\ o_textStarted o' = o_textStarted o.
Lemma same_says text o o' : same_text o o' -> text_says text o -> text_says text o'.
Proof. intros [E1 E2] [H1 H2]. split; congruence. Qed.
Lemma emit_text name v o : same_text o (emit accepts name v o).
Proof. unfold same_text, emit. by destruct (o_broken o). Qed.
Lemma typed_text type v o : same_text o (typed accepts type v o).
Proof. apply emit_text. Qed.
Lemma ensureStarted_text o : same_text o (ensureStarted accepts client model o).
Proof. unfold ensureStarted. destruct (o_started o); [done|]. repeat (destruct (_ =s _); [apply emit_text|]). done. Qed.
Lemma startText_text o : o_text (startText accepts client model o) = o_text o /\ o_textStarted (startText accepts client model o) = true.
Proof.
  unfold startText. destruct (o_textStarted o) eqn:E; [done|]. cbv zeta. split; [|done]. cbn [o_text with_text_item].
  repeat (destruct (_ =s _); [rewrite ?(proj1 (typed_text _ _ _)); apply ensureStarted_text|]). apply ensureStarted_text.
Qed.
Lemma str_app_empty a b : ((a +:+ b) =s "") = (a =s "") && (b =s "").
Proof. by destruct a, b. Qed.
Lemma text_event_text text o : same_text o (text_event accepts client model text o).
Proof. unfold text_event. repeat (destruct (_ =s _); [apply emit_text|]). done. Qed.
Lemma send_text_says text news o o' : text_says text o -> send_text accepts client model news o = (o', None) -> text_says (text +:+ news) o'.
Proof.
  intros [H1 H2]. unfold send_text. destruct (news =s "") eqn:E; [apply String.eqb_eq in E; subst; intros [= <-]; by rewrite str_app_nil_r|].
  cbv zeta. destruct (startText_text o) as [T1 T2]. destruct (_ <? _); [done|]. intros [= <-]. apply (same_says _ (with_text (o_text (startText accepts client model o) +:+ news) (startText accepts client model o))).
  - apply text_event_text.
  - split; cbn [o_text o_textStarted with_text]; [by rewrite T1, H1|]. by rewrite T2, str_app_empty, E, andb_false_r.
Qed.
Lemma open_tool_text item o : same_text o (open_tool accepts client model item o).
Proof.
  unfold open_tool. cbv zeta. destruct (ensureStarted_text o) as [E1 E2]. repeat (destruct (_ =s _); [split; [rewrite (proj1 (typed_text _ _ _))|rewrite (proj2 (typed_text _ _ _))]; by cbn|]). by split.
Qed.
Lemma tool_event_text item t o : same_text o (tool_event accepts client model item t o).
Proof. unfold tool_event. destruct (_ =s _); [apply emit_text|]. destruct (_ =s ""); [done|]. repeat (destruct (_ =s _); [apply emit_text|]). done. Qed.
Lemma send_tool_text item o o' : send_tool accepts client model item o = (o', None) -> same_text o o'.
Proof.
  unfold send_tool. cbv zeta. set (o1 := if is_some _ then o else _). assert (same_text o o1) as [E1 E2] by (unfold o1; destruct (is_some _); [done|apply open_tool_text]).
  destruct (find_tool (o_tools o1) _); [|intros [= <-]; done]. destruct (_ <? _); [done|]. intros [= <-].
  match goal with |- same_text _ (tool_event _ _ _ ?i ?t ?o) => destruct (tool_event_text i t o) as [E3 E4] end. split; [by rewrite E3|by rewrite E4].
Qed.
Lemma send_tools_text items : forall o o', send_tools accepts client model items o = (o', None) -> same_text o o'.
Proof.
  induction items as [|item items IH]; intros o o' H; cbn [send_tools] in H; [injection H as <-; done|].
  destruct (send_tool _ _ _ item o) as [o1 [e|]] eqn:E; [done|]. destruct (send_tool_text _ _ _ E), (IH _ _ H). split; congruence.
Qed.

(** ** The whole *)

Definition spoken (ups : list streamDelta) (seen : bool) (st : stream) : Prop :=
  let u := summarise ups in
  facts_of u (st_facts st) /\ tools_say (su_tools u) (o_tools (st_output st)) /\ text_says (su_text u) (st_output st).
Lemma spoken_start : spoken [] false (mkStream no_output no_facts).
Proof. split_and!; [by split_and!| |done]. split; [|done]. split; [constructor|done]. Qed.
Lemma spoken_done ups seen st : spoken ups seen st -> spoken ups true (mkStream (st_output st) (note_done (st_facts st))).
Proof. done. Qed.
Lemma spoken_delta ups seen st p d st' :
  spoken ups seen st -> decodeStreamDelta target p = Ok d -> consume_delta accepts client model target d st = (st', None) -> spoken (ups ++ [d]) seen st'.
Proof.
  intros (F & K & T) D H. unfold spoken. cbv zeta. rewrite summarise_snoc. unfold consume_delta in H. pose proof (send_text_tools accepts client model (sd_Text d) (st_output st)) as Ht.
  destruct (send_text _ _ _ _ _) as [o1 [e|]] eqn:E1; [done|]. destruct (send_tools _ _ _ _ _) as [o2 [e|]] eqn:E2; [done|]. injection H as <- Hb. cbn [st_facts st_output fst] in *.
  cbn [su_tools su_text say]. split_and!; [by apply note_facts| |].
  - rewrite <- Ht in K. exact (send_tools_say _ _ _ _ K E2).
  - exact (same_says _ _ _ (send_tools_text _ _ _ E2) (send_text_says _ _ _ _ T E1)).
Qed.
End Spoken.
