(* ===== verification/Items.v ===== *)
(** The output items of a translated Responses stream: each is opened with the
    next index, closed once, and listed in the final response. *)
From S2P Require Import Prelude GoStd Money Counters Policy Json Decode Store Pricing PolicyService Admission Settlement Tokens Marshal Printing Canonical Dialects Encode Decoded Translated Streaming Streamed Endings Spoken.
Open Scope string_scope.
Open Scope Z_scope.
Open Scope list_scope.

(** The indexes of the items opened, and the items closed at their indexes. *)
Definition item_index (m : list (string * any)) : list Z := match find_last m "output_index" with Some (AInt i) => [i] | _ => [] end.
Definition item_opened (f : frame) : list Z :=
  match f with Event name m => if name =s "response.output_item.added" then item_index m else [] | DoneMark => [] end.
Definition item_closed (f : frame) : list (Z * any) :=
  match f with
  | Event name m => if name =s "response.output_item.done" then match find_last m "item" with Some x => map (fun i => (i, x)) (item_index m) | None => [] end else []
  | DoneMark => []
  end.
Definition opened_items (fs : list frame) : list Z := flat_map item_opened fs.
Definition closed_items (fs : list frame) : list (Z * any) := flat_map item_closed fs.

(** The items of an answer: a message with the text and the refusal, if there
    is either, and a call for every index of the calls. *)
Definition said_message (u : summary) : list any :=
  let content := (if su_text u =s "" then [] else [text_content (su_text u)]) ++ (if su_refusal u =s "" then [] else [refusal_part (su_refusal u)]) in
  if some_items content then [message_item "completed" content] else [].
Definition said_call (items : list streamToolDelta) (index : Z) : any :=
  call_item (mkTool (call_id index items) (call_name index items) "" 0) "completed" (call_arguments index items).
Definition said_items (u : summary) : list any := said_message u ++ map (said_call (su_tools u)) (remove_dups (map td_Index (su_tools u))).

Section Items.
Context (accepts : list frame -> frame -> bool) (model target : string).

(** Between two states the items [os] are opened and [cs] closed. *)
Definition moves (os : list Z) (cs : list (Z * any)) (o o' : output) : Prop :=
  o_broken o' = false -> o_broken o = false /\ opened_items (o_sent o') = opened_items (o_sent o) ++ os /\ closed_items (o_sent o') = closed_items (o_sent o) ++ cs.

Lemma moves_none o o' : o_broken o' = o_broken o -> o_sent o' = o_sent o -> moves [] [] o o'.
Proof. intros Hb Hs H. rewrite Hs, !app_nil_r. split_and!; congruence. Qed.
Lemma moves_trans os1 cs1 os2 cs2 o1 o2 o3 : moves os1 cs1 o1 o2 -> moves os2 cs2 o2 o3 -> moves (os1 ++ os2) (cs1 ++ cs2) o1 o3.
Proof.
  intros H1 H2 Hb. destruct (H2 Hb) as (Hb2 & O2 & C2). destruct (H1 Hb2) as (Hb1 & O1 & C1). rewrite O2, C2, O1, C1, !app_assoc. done.
Qed.
Lemma emit_moves name v o os cs :
  item_opened (Event name v) = os -> item_closed (Event name v) = cs -> moves os cs o (emit accepts name v o).
Proof.
  intros <- <- Hb. unfold emit in *. destruct (o_broken o) eqn:E; [congruence|]. split; [done|]. unfold send in *. cbn [o_broken o_sent] in *. rewrite E in Hb. cbn in Hb.
  destruct (accepts _ _); [|done]. unfold opened_items, closed_items. rewrite !flat_map_app. cbn [flat_map]. by rewrite !app_nil_r.
Qed.

(** Frames of other types move nothing; those that open or close name one item. *)
Notation start := (ensureStarted accepts "responses" model).
Lemma start_moves o : moves [] [] o (start o).
Proof. unfold ensureStarted. destruct (o_started o); [by apply moves_none|]. exact (emit_moves "response.created" _ o [] [] eq_refl eq_refl). Qed.
Lemma start_next o : o_next (start o) = o_next o /\ o_textStarted (start o) = o_textStarted o /\ o_textIndex (start o) = o_textIndex o.
Proof. unfold ensureStarted. destruct (o_started o); [done|]. cbn. unfold typed, emit. by destruct (o_broken o). Qed.

(** What the stream has open. *)
Definition open_items (o : output) : list Z := (if o_textStarted o then [o_textIndex o] else []) ++ map (fun it => to_Index (snd it)) (o_tools o).
Definition in_order (o : output) : Prop := 0 <= o_next o /\ open_items o ≡ₚ seqZ 0 (o_next o) /\ (o_textStarted o = false -> o_textIndex o = -1).

Lemma emit_items name v o : open_items (emit accepts name v o) = open_items o /\ o_next (emit accepts name v o) = o_next o
  /\ o_textStarted (emit accepts name v o) = o_textStarted o /\ o_textIndex (emit accepts name v o) = o_textIndex o.
Proof. unfold emit. by destruct (o_broken o). Qed.
Lemma emit_order name v o : in_order (emit accepts name v o) <-> in_order o.
Proof. unfold in_order. destruct (emit_items name v o) as (-> & -> & -> & ->). done. Qed.
Lemma start_order o : in_order o -> in_order (start o).
Proof.
  unfold in_order, open_items. destruct (start_next o) as (-> & -> & ->). by rewrite ensureStarted_tools.
Qed.

Lemma seqZ_next n : 0 <= n -> seqZ 0 (n + 1) = seqZ 0 n ++ [n].
Proof. intros H. rewrite seqZ_app by lia. done. Qed.

(** One item more: opened at the next index. *)
Definition steps (o o' : output) : Prop :=
  in_order o -> in_order o' /\ exists k, 0 <= k /\ o_next o' = o_next o + k /\ moves (seqZ (o_next o) k) [] o o'.
Lemma steps_refl o : steps o o.
Proof. intros H. split; [done|]. exists 0. split_and!; [lia|lia|]. by apply moves_none. Qed.
Lemma steps_trans o1 o2 o3 : steps o1 o2 -> steps o2 o3 -> steps o1 o3.
Proof.
  intros S1 S2 H. destruct (S1 H) as (H2 & k1 & Hk1 & N1 & M1). destruct (S2 H2) as (H3 & k2 & Hk2 & N2 & M2). split; [done|]. exists (k1 + k2).
  split_and!; [lia|lia|]. rewrite seqZ_app by lia. rewrite N1 in M2. exact (moves_trans _ _ _ _ _ _ _ M1 M2).
Qed.
Lemma steps_still o o' : moves [] [] o o' -> o_next o' = o_next o -> (in_order o -> in_order o') -> steps o o'.
Proof. intros M N I H. split; [by apply I|]. exists 0. split_and!; [lia|lia|done]. Qed.
Lemma emit_steps name v o : item_opened (Event name v) = [] -> item_closed (Event name v) = [] ->
  steps o (emit accepts name v o).
Proof. intros H1 H2. apply steps_still; [by apply emit_moves|by destruct (emit_items name v o) as (_ & -> & _)|by rewrite emit_order]. Qed.
Lemma steps_one o o' : in_order o' -> o_next o' = o_next o + 1 -> moves [o_next o] [] o o' -> steps o o'.
Proof. intros H N M _. split; [done|]. exists 1. split_and!; [lia|done|]. by replace (seqZ (o_next o) 1) with [o_next o]. Qed.

Lemma put_tool_new tools i t : find_tool tools i = None -> put_tool i t tools = tools ++ [(i, t)].
Proof. induction tools as [|[k u] tools IH]; cbn; [done|]. destruct (k =? i); [done|]. intros H. by rewrite IH. Qed.
Lemma put_tool_index tools i t u : find_tool tools i = Some u -> to_Index t = to_Index u ->
  map (fun it => to_Index (snd it)) (put_tool i t tools) = map (fun it => to_Index (snd it)) tools.
Proof. intros H E. induction tools as [|[k v] tools IH]; cbn in *; [done|]. destruct (k =? i); cbn; [injection H as ->; by rewrite E|by rewrite IH]. Qed.

Lemma startText_steps o : steps o (startText accepts "responses" model o) /\ o_textStarted (startText accepts "responses" model o) = true.
Proof.
  unfold startText. destruct (o_textStarted o) eqn:E; [split; [apply steps_refl|done]|]. cbv zeta. split; [|done].
  set (o1 := start o). change ("responses" =s "anthropic") with false. change ("responses" =s "responses") with true. cbv iota. unfold typed.
  set (o2 := emit accepts "response.output_item.added" _ o1). set (o3 := emit accepts "response.content_part.added" _ o2). destruct (start_next o) as (N & T & X).
  destruct (emit_items "response.output_item.added" (("type", AString "response.output_item.added") :: [("output_index", AInt (o_next o1)); ("item", message_item "in_progress" [])]) o1) as (I2 & N2 & T2 & X2).
  destruct (emit_items "response.content_part.added" (("type", AString "response.content_part.added") :: on_message (o_next o1) 0 [("part", text_content "")]) o2) as (I3 & N3 & T3 & X3).
  fold o2 in I2, N2, T2, X2. fold o3 in I3, N3, T3, X3. fold o1 in N, T, X.
  intros H. pose proof (start_order o H) as (Hn & Hp & Ht). fold o1 in Hn, Hp, Ht.
  assert (Hp3 : map (fun it => to_Index (snd it)) (o_tools o3) ≡ₚ seqZ 0 (o_next o1)).
  { rewrite <- Hp, <- I2, <- I3. unfold open_items. by rewrite T3, T2, T, E. }
  refine (steps_one o (with_text_item o3) _ _ _ H); cbn [o_next with_text_item]; [|lia|].
  - split_and!; cbn [o_next with_text_item]; [lia| |done]. unfold open_items. cbn [o_textStarted o_textIndex o_tools with_text_item]. rewrite N3, N2, seqZ_next by lia. rewrite Hp3. cbn [app]. by rewrite Permutation_app_comm.
  - refine (moves_trans [] [] [o_next o] [] _ o1 _ (start_moves o) _). refine (moves_trans [o_next o] [] [] [] _ o2 _ _ _); [|by apply emit_moves].
    rewrite <- N. by apply emit_moves.
Qed.

Lemma send_text_steps text o o' : send_text accepts "responses" model text o = (o', None) -> steps o o'.
Proof.
  unfold send_text. destruct (text =s ""); [intros [= <-]; apply steps_refl|]. cbv zeta. destruct (startText_steps o) as [S _]. destruct (_ <? _); [done|]. intros [= <-].
  refine (steps_trans _ _ _ S _). unfold text_event, typed. change ("responses" =s "openai") with false. change ("responses" =s "anthropic") with false.
  change ("responses" =s "gemini") with false. change ("responses" =s "responses") with true. cbv iota.
  refine (steps_trans _ (with_text _ (startText accepts "responses" model o)) _ _ (emit_steps _ _ _ _ _)); [|done..].
  apply steps_still; [by apply moves_none|done..].
Qed.

Lemma open_tool_steps item o : find_tool (o_tools o) (td_Index item) = None -> steps o (open_tool accepts "responses" model item o).
Proof.
  intros F H. unfold open_tool. cbv zeta. set (o1 := start o). set (t := mkTool _ _ _ _). change ("responses" =s "anthropic") with false. change ("responses" =s "responses") with true.
  cbv iota. unfold typed. set (o2 := with_item (with_tools _ o1)). pose proof (start_order o H) as (Hn & Hp & Ht). fold o1 in Hn, Hp, Ht. destruct (start_next o) as (N & T & X). fold o1 in N, T, X.
  assert (H2 : in_order o2).
  { split_and!; cbn [o_next o_textStarted o_textIndex o2 with_item with_tools]; [lia| |done]. unfold open_items. cbn [o_textStarted o_textIndex o_tools o2 with_item with_tools].
    rewrite seqZ_next by lia. rewrite <- Hp. unfold open_items. rewrite put_tool_new by (unfold o1; by rewrite ensureStarted_tools). by rewrite map_app, app_assoc. }
  refine (steps_one o _ _ _ _ H).
  - by rewrite emit_order.
  - match goal with |- o_next (emit _ ?n ?v _) = _ => destruct (emit_items n v o2) as (_ & -> & _) end. cbn [o_next o2 with_item with_tools]. lia.
  - refine (moves_trans [] [] [o_next o] [] _ o1 _ (start_moves o) _). rewrite <- N. refine (moves_trans [] [] [o_next o1] [] _ o2 _ _ _); [by apply moves_none|by apply emit_moves].
Qed.

Lemma put_steps item t u o : find_tool (o_tools o) (td_Index item) = Some u -> to_Index t = to_Index u -> steps o (with_tools (put_tool (td_Index item) t (o_tools o)) o).
Proof.
  intros F E. apply steps_still; [by apply moves_none|done|]. intros (Hn & Hp & Ht). split_and!; [done| |done]. unfold open_items. cbn [o_textStarted o_textIndex o_tools with_tools].
  by rewrite (put_tool_index _ _ _ u).
Qed.

Lemma send_tool_steps item o o' : send_tool accepts "responses" model item o = (o', None) -> steps o o'.
Proof.
  unfold send_tool. cbv zeta. set (o1 := if is_some _ then o else _).
  assert (H1 : steps o o1 /\ exists t, find_tool (o_tools o1) (td_Index item) = Some t).
  { unfold o1. destruct (find_tool (o_tools o) (td_Index item)) as [t|] eqn:F; cbn [is_some]; [split; [apply steps_refl|by exists t]|].
    split; [by apply open_tool_steps|]. eexists. apply open_tool_found. }
  clearbody o1. destruct H1 as (S & t & F). rewrite F. destruct (_ <? _); [done|]. intros [= <-]. refine (steps_trans _ _ _ S _).
  cbn [o_tools with_tools to_ID to_Name to_Arguments to_Index].
  set (t1 := mkTool _ _ (to_Arguments t) _). set (o2 := with_tools (put_tool (td_Index item) t1 (o_tools o1)) o1).
  set (t2 := mkTool _ _ (to_Arguments t +:+ td_Arguments item) _).
  refine (steps_trans _ o2 _ (put_steps item t1 t o1 F eq_refl) _).
  refine (steps_trans _ (with_tools (put_tool (td_Index item) t2 (put_tool (td_Index item) t1 (o_tools o1))) o2) _ _ _).
  - refine (put_steps item t2 t1 o2 _ eq_refl). apply find_put.
  - unfold tool_event. change ("responses" =s "openai") with false. change ("responses" =s "anthropic") with false. change ("responses" =s "responses") with true. cbv iota.
    destruct (td_Arguments item =s ""); [apply steps_refl|]. by apply emit_steps.
Qed.
Lemma send_tools_steps items : forall o o', send_tools accepts "responses" model items o = (o', None) -> steps o o'.
Proof.
  induction items as [|item items IH]; intros o o' H; cbn [send_tools] in H; [injection H as <-; apply steps_refl|].
  destruct (send_tool _ _ _ item o) as [o1 [e|]] eqn:E; [done|]. exact (steps_trans _ _ _ (send_tool_steps _ _ _ E) (IH _ _ H)).
Qed.

(** ** Closing the items *)

Lemma stream_tools_perm tools : orderedStreamTools tools ≡ₚ map snd tools.
Proof. unfold orderedStreamTools. apply Permutation_map, SliceStable_perm. Qed.
Definition tool_entry (t : streamTool) : Z * any := (to_Index t, call_item t "completed" (to_Arguments t)).
Lemma tool_done_moves t o : moves [] [tool_entry t] o (tool_done accepts t o).
Proof. unfold tool_done, item_done, typed. refine (moves_trans [] [] [] [tool_entry t] _ _ _ _ _); by apply emit_moves. Qed.
Lemma tools_done_moves tools : forall o, moves [] (map tool_entry tools) o (fold_left (fun o t => tool_done accepts t o) tools o).
Proof. induction tools as [|t tools IH]; intros o; cbn [fold_left map]; [by apply moves_none|]. exact (moves_trans [] [tool_entry t] [] _ _ _ _ (tool_done_moves t o) (IH _)). Qed.

(** A message that comes after all the tools. *)
Lemma next_index_max l : forall a, fold_left (fun index t => if index <=? to_Index t then to_Index t + 1 else index) l a
  = fold_left Z.max (map (fun t => to_Index t + 1) l) a.
Proof. induction l as [|t l IH]; intros a; cbn; [done|]. rewrite IH. f_equal. destruct (a <=? to_Index t) eqn:E; lia. Qed.
Lemma fold_max_perm l1 l2 : l1 ≡ₚ l2 -> forall a, fold_left Z.max l1 a = fold_left Z.max l2 a.
Proof. induction 1 as [|x l1 l2 _ IH|x y l|l1 l2 l3 _ IH1 _ IH2]; intros a; cbn; [done|apply IH|f_equal; lia|by rewrite IH1, IH2]. Qed.
Lemma fold_max_seq n : 0 <= n -> fold_left Z.max (map (fun i => i + 1) (seqZ 0 n)) 0 = n.
Proof.
  intros H. pattern n. apply natlike_ind; [done| |done]. intros x Hx IH. unfold Z.succ. rewrite (seqZ_next x Hx), map_app, fold_left_app, IH. cbn. lia.
Qed.
Lemma message_index_next refusal o : in_order o -> o_textStarted o = false -> refusal <> "" -> message_index refusal o = o_next o.
Proof.
  intros (Hn & Hp & Ht) E R%String.eqb_neq. unfold message_index. rewrite R, (Ht E). cbn [negb andb Z.ltb Z.compare]. rewrite next_index_max.
  unfold open_items in Hp. rewrite E in Hp. cbn [app] in Hp. rewrite <- (fold_max_seq (o_next o) Hn). apply fold_max_perm. rewrite <- Hp, stream_tools_perm, !map_map. done.
Qed.
Lemma text_index_nonneg o : in_order o -> o_textStarted o = true -> 0 <= o_textIndex o.
Proof.
  intros (Hn & Hp & _) E. assert (In (o_textIndex o) (seqZ 0 (o_next o))) as Hin; [|apply list_elem_of_In, elem_of_seqZ in Hin; lia].
  apply (Permutation_in _ Hp). unfold open_items. rewrite E. by left.
Qed.

(** The final response lists every entry once, in the order of the indexes. *)
Lemma item_at_none entries i : ~ In i (map fst entries) -> item_at entries i = [].
Proof.
  induction entries as [|[k v] entries IH]; cbn; [done|]. intros H. rewrite IH by tauto. by rewrite (proj2 (Z.eqb_neq k i)) by tauto.
Qed.
Lemma item_at_one entries i x : List.NoDup (map fst entries) -> In (i, x) entries -> item_at entries i = [x].
Proof.
  induction entries as [|[k v] entries IH]; cbn; [done|]. intros [Hn Hd]%NoDup_cons_iff [[= -> ->]|H].
  - by rewrite item_at_none, Z.eqb_refl.
  - by rewrite (IH Hd H).
Qed.
Definition entry_at (entries : list (Z * any)) (i : Z) : list (Z * any) := map (pair i) (item_at entries i).
Lemma entries_at entries : List.NoDup (map fst entries) -> flat_map (entry_at entries) (map fst entries) = entries.
Proof.
  intros H. assert (forall l, (forall e, In e l -> In e entries) -> flat_map (entry_at entries) (map fst l) = l) as A; [|by apply A].
  induction l as [|[i x] l IH]; intros Hl; [done|]. cbn. unfold entry_at at 1. rewrite (item_at_one entries i x H) by (apply Hl; by left). cbn. f_equal. apply IH. intros e He. apply Hl. by right.
Qed.
Lemma zip_items entries l : List.NoDup (map fst entries) -> (forall i, In i l -> In i (map fst entries)) ->
  zip l (flat_map (item_at entries) l) = flat_map (entry_at entries) l /\ length (flat_map (item_at entries) l) = length l.
Proof.
  intros H. induction l as [|i l IH]; intros Hl; [done|]. destruct IH as [IH1 IH2]; [intros j Hj; apply Hl; by right|].
  destruct (proj1 (in_map_iff _ _ _) (Hl i (or_introl eq_refl))) as ([k x] & <- & Hx). cbn. unfold entry_at at 1. rewrite (item_at_one entries k x H Hx). cbn. by rewrite IH1, IH2.
Qed.
Lemma items_listed last entries n : 0 <= n -> n <= last + 1 -> map fst entries ≡ₚ seqZ 0 n ->
  entries ≡ₚ zip (seqZ 0 n) (items_in_order last entries) /\ Z.of_nat (length (items_in_order last entries)) = n.
Proof.
  intros Hn Hl Hp. assert (List.NoDup (map fst entries)) as Hd by (apply NoDup_ListNoDup; rewrite Hp; apply NoDup_seqZ).
  assert (Hin : forall i, In i (map fst entries) <-> 0 <= i < n) by (intros i; rewrite <- list_elem_of_In, Hp, elem_of_seqZ; lia).
  unfold items_in_order. replace (last + 1) with (n + (last + 1 - n)) by lia. rewrite seqZ_app, flat_map_app by lia.
  assert (B : forall l, (forall i, In i l -> n <= i) -> flat_map (item_at entries) l = []).
  { induction l as [|i l IH]; intros H; cbn; [done|]. rewrite item_at_none, IH; [done|intros j Hj; apply H; by right|]. intros E%Hin. specialize (H i (or_introl eq_refl)). lia. }
  rewrite (B (seqZ (0 + n) _)), app_nil_r by (intros i Hi; apply list_elem_of_In, elem_of_seqZ in Hi; lia).
  destruct (zip_items entries (seqZ 0 n) Hd) as [Hz Hlen]; [intros i Hi; apply Hin; apply list_elem_of_In, elem_of_seqZ in Hi; lia|].
  rewrite Hz, Hlen, length_seqZ. split; [|lia]. rewrite <- (entries_at entries Hd) at 1. by rewrite Hp.
Qed.

(** ** The end of the stream *)

Lemma emit_sent name v o : o_broken (emit accepts name v o) = false -> o_broken o = false /\ o_sent (emit accepts name v o) = o_sent o ++ [Event name v].
Proof.
  unfold emit. destruct (o_broken o) eqn:E; [congruence|]. unfold send. cbn [o_broken o_sent]. rewrite E. cbn. by destruct (accepts _ _).
Qed.

(** The frames that close a message and the tools, before the last one. *)
Lemma closing_moves refusal o index (text : bool) at_index said texts content item tools :
  let o2 := if text then typed accepts "response.output_text.done" (on_message at_index 0 [("text", AString said)]) o else o in
  let o3 := if refusal =s "" then o2 else refuse_message accepts index (Z.of_nat (length (texts : list any))) refusal o2 in
  let o4 := if some_items (content : list any) then item_done accepts index item o3 else o3 in
  moves [] ((if some_items content then [(index, item)] else []) ++ map tool_entry tools) o (fold_left (fun o t => tool_done accepts t o) tools o4).
Proof.
  cbv zeta. set (o2 := if text then _ else _). set (o3 := if refusal =s "" then _ else _).
  assert (M2 : moves [] [] o o2) by (unfold o2, typed; destruct text; [by apply emit_moves|by apply moves_none]).
  assert (M3 : moves [] [] o2 o3).
  { unfold o3, refuse_message, typed. destruct (refusal =s ""); [by apply moves_none|].
    eapply (moves_trans [] [] [] []); [eapply (moves_trans [] [] [] [])|]; by apply emit_moves. }
  clearbody o2 o3. pose proof (moves_trans _ _ _ _ _ _ _ M2 M3) as M. cbn [app] in M.
  destruct (some_items content); [|exact (moves_trans [] [] [] _ _ _ _ M (tools_done_moves tools o3))].
  refine (moves_trans [] [] [] _ _ o3 _ M _). refine (moves_trans [] [(index, item)] [] _ _ _ _ _ (tools_done_moves tools _)). unfold item_done, typed. by apply emit_moves.
Qed.

(** The number of items: a refusal alone adds a message after the tools. *)
Definition item_count (refusal : string) (o : output) : Z := if negb (o_textStarted o) && negb (refusal =s "") then o_next o + 1 else o_next o.

(** The message at the end. *)
Definition last_content (refusal : string) (o : output) : list any :=
  (if o_textStarted o then [text_content (o_text o)] else []) ++ (if refusal =s "" then [] else [refusal_part refusal]).
Definition last_message (refusal : string) (o : output) : list any :=
  if some_items (last_content refusal o) then [message_item "completed" (last_content refusal o)] else [].

Lemma finish_responses_items stop refusal input ou o : in_order o -> exists closed o' resp items,
  finish_responses accepts model stop refusal input ou o = typed accepts "response.completed" [("response", AObject resp)] o'
  /\ moves (seqZ (o_next o) (item_count refusal o - o_next o)) closed o o' /\ map snd closed = last_message refusal o ++ map (fun t => snd (tool_entry t)) (orderedStreamTools (o_tools o))
  /\ find_last resp "output" = Some (AArray items) /\ closed ≡ₚ zip (seqZ 0 (item_count refusal o)) items /\ Z.of_nat (length items) = item_count refusal o.
Proof.
  intros H. pose proof H as (Hn & Hp & Ht). unfold finish_responses. cbv zeta. set (tools := orderedStreamTools (o_tools o)).
  assert (Hperm : map to_Index tools ≡ₚ map (fun it => to_Index (snd it)) (o_tools o)) by (unfold tools; rewrite stream_tools_perm, map_map; done).
  unfold open_items in Hp. unfold item_count, last_message, last_content. destruct (o_textStarted o) eqn:T; cbn [app negb andb] in *.
  - pose proof (text_index_nonneg o H T) as Hx. rewrite (proj2 (Z.leb_le 0 (o_textIndex o))), (proj2 (Z.ltb_ge (o_textIndex o) 0)), andb_false_r by done.
    assert (message_index refusal o = o_textIndex o) as -> by (unfold message_index; by rewrite (proj2 (Z.ltb_ge (o_textIndex o) 0)), andb_false_r).
    set (content := [text_content (o_text o)] ++ _). set (item := message_item "completed" content).
    assert (Hc : map fst ((o_textIndex o, item) :: map tool_entry tools) ≡ₚ seqZ 0 (o_next o)) by (cbn [map fst]; rewrite map_map; cbn [fst tool_entry]; by rewrite Hperm).
    destruct (items_listed (Z.max (o_textIndex o) (o_next o)) _ _ Hn ltac:(lia) Hc) as [Hz Hlen].
    do 4 eexists. split; [reflexivity|]. rewrite Z.sub_diag. split; [exact (closing_moves refusal o (o_textIndex o) true (o_textIndex o) (o_text o) _ content item tools)|].
    split; [cbn; by rewrite map_map|]. split; [reflexivity|]. by split.
  - rewrite (Ht eq_refl). cbn [Z.leb Z.ltb Z.compare]. rewrite andb_true_r. destruct (String.eqb_spec refusal "") as [->|R].
    + assert (Hc : map fst (map tool_entry tools) ≡ₚ seqZ 0 (o_next o)) by (rewrite map_map; cbn [fst tool_entry]; by rewrite Hperm).
      destruct (items_listed (Z.max (message_index "" o) (o_next o)) _ _ Hn ltac:(lia) Hc) as [Hz Hlen].
      do 4 eexists. split; [reflexivity|]. rewrite Z.sub_diag. split; [exact (closing_moves "" o (message_index "" o) false 0 "" [] [] ANull tools)|].
      split; [cbn [some_items app]; by rewrite map_map|]. split; [reflexivity|]. by split.
    + rewrite (message_index_next refusal o H T R). cbn [negb app some_items]. apply String.eqb_neq in R.
      set (o1 := typed accepts "response.output_item.added" _ o). set (item := message_item "completed" [refusal_part refusal]).
      assert (Hc : map fst ((o_next o, item) :: map tool_entry tools) ≡ₚ seqZ 0 (o_next o + 1)).
      { cbn [map fst]. rewrite map_map. cbn [fst tool_entry]. by rewrite Hperm, Hp, seqZ_next, Permutation_app_comm by done. }
      destruct (items_listed (Z.max (o_next o) (o_next o)) _ (o_next o + 1) ltac:(lia) ltac:(lia) Hc) as [Hz Hlen].
      do 4 eexists. split; [reflexivity|]. replace (o_next o + 1 - o_next o) with 1 by lia. split; [|split; [|split; [reflexivity|by split]]].
      * refine (moves_trans [o_next o] [] [] _ _ o1 _ _ _); [unfold o1, typed; by apply emit_moves|].
        pose proof (closing_moves refusal o1 (o_next o) false 0 "" [] [refusal_part refusal] item tools) as C. cbv zeta in C. rewrite R in C. exact C.
      * cbn. by rewrite map_map.
Qed.

Lemma closed_tools_steps o : steps o (closed_tools o).
Proof.
  apply steps_still; [by apply moves_none|done|]. intros (Hn & Hp & Ht). split_and!; [done| |done]. unfold open_items, closed_tools in *. cbn [o_textStarted o_textIndex o_tools with_tools].
  by rewrite map_map.
Qed.
Lemma start_steps o : steps o (start o).
Proof. apply steps_still; [apply start_moves|by destruct (start_next o)|apply start_order]. Qed.

Definition items_ordered (ups : list streamDelta) (seen : bool) (st : stream) : Prop :=
  steps no_output (st_output st) /\ o_broken (st_output st) = false /\ spoken ups seen st.
Lemma items_ordered_done ups seen st : items_ordered ups seen st -> items_ordered ups true (mkStream (st_output st) (note_done (st_facts st))).
Proof. done. Qed.
Lemma items_ordered_delta ups seen st p d st' :
  items_ordered ups seen st -> decodeStreamDelta target p = Ok d -> consume_delta accepts "responses" model target d st = (st', None) -> items_ordered (ups ++ [d]) seen st'.
Proof.
  intros (S & _ & K) D H. pose proof (spoken_delta _ _ _ _ _ _ _ _ _ _ K D H) as K'. unfold consume_delta in H. destruct (send_text _ _ _ _ _) as [o1 [e|]] eqn:E1; [done|].
  destruct (send_tools _ _ _ _ _) as [o2 [e|]] eqn:E2; [done|]. injection H as <- Hb. split_and!; [cbn [st_output]|unfold broken_error in Hb; cbn [st_output]; by destruct (o_broken o2)|done].
  exact (steps_trans _ _ _ S (steps_trans _ _ _ (send_text_steps _ _ _ E1) (send_tools_steps _ _ _ E2))).
Qed.
Lemma start_in_order : in_order no_output.
Proof. repeat split; cbn; (done || lia). Qed.

Lemma find_tool_one tools i t : List.NoDup (map fst tools) -> In (i, t) tools -> find_tool tools i = Some t.
Proof.
  induction tools as [|[k u] tools IH]; cbn; [done|]. intros [Hn Hd]%NoDup_cons_iff [[= -> ->]|H]; [by rewrite Z.eqb_refl|].
  rewrite (proj2 (Z.eqb_neq k i)); [by apply IH|]. intros ->. apply Hn. by apply (in_map fst) in H.
Qed.
(** The items closed are those the stream said. *)
Lemma closed_entry items index t : tool_says items index t -> snd (tool_entry (closed_tool t)) = said_call items index.
Proof. intros (E1 & E2 & E3). unfold tool_entry, said_call, closed_tool, call_item, call_arguments. cbn. by rewrite E1, E2, E3. Qed.
Lemma spoken_items ups seen st : spoken ups seen st ->
  let o := start (closed_tools (st_output st)) in
  last_message (fa_Refusal (st_facts st)) o ++ map (fun t => snd (tool_entry t)) (orderedStreamTools (o_tools o)) ≡ₚ said_items (summarise ups).
Proof.
  intros ((_ & R & _) & [[N K] T] & X). cbv zeta. unfold said_items. apply Permutation_app.
  - destruct (same_says _ _ _ (ensureStarted_text accepts "responses" model (closed_tools (st_output st))) X) as [X1 X2].
    unfold last_message, last_content, said_message. rewrite R, X1, X2. by destruct (su_text (summarise ups) =s "").
  - rewrite stream_tools_perm, ensureStarted_tools. cbn [closed_tools o_tools with_tools]. rewrite !map_map. cbn [snd].
    assert (map (fun x => snd (tool_entry (closed_tool (snd x)))) (o_tools (st_output st)) = map (said_call (su_tools (summarise ups))) (map fst (o_tools (st_output st)))) as ->.
    { rewrite map_map. apply map_ext_in. intros [i t] Hin. cbn. apply closed_entry, T, find_tool_one; [done|done]. }
    apply Permutation_map, NoDup_Permutation; [by apply NoDup_ListNoDup|apply NoDup_remove_dups|]. intros i. by rewrite elem_of_remove_dups, !list_elem_of_In.
Qed.
End Items.

(** C18: a Responses client can follow every item of a translated answer. When
    the translation ends without an error, the items are opened with the
    indexes 0, 1, 2 and so on without a gap, each of them is closed exactly
    once, and the frame that completes the response comes last and lists the
    very items that were closed, each at its index. They are what the provider
    said: the message with its text and refusal, if any, and one call for each
    call of the stream, with its id, its name and its whole arguments. *)
Theorem responses_items_complete accepts model target flushes text failure t :
  TranslateStream accepts "responses" model target flushes text failure = t -> tr_error t = None ->
  exists ups n frames resp items,
    provider_events target text = Ok ups
    /\ tr_sent t = frames ++ [Event "response.completed" [("type", AString "response.completed"); ("response", AObject resp)]]
    /\ opened_items frames = seqZ 0 n /\ find_last resp "output" = Some (AArray items) /\ Z.of_nat (length items) = n
    /\ closed_items frames ≡ₚ zip (seqZ 0 n) items /\ items ≡ₚ said_items (summarise ups).
Proof.
  intros H E.
  destruct (TranslateStream_cases accepts "responses" model target items_ordered (items_ordered_delta accepts model target) items_ordered_done
    (fun _ => True) (fun _ _ _ => I) flushes text failure t (conj (steps_refl no_output) (conj eq_refl spoken_start)) I H) as [[E' _]|(ups & st & Hu & (S & _ & W) & _ & Hf)]; [by rewrite E in E'|].
  destruct (finish_stream_ok accepts model target "responses" st t Hf E) as (input & output & _ & _ & _ & _ & _ & _ & Hb & Hs & _).
  pose proof (spoken_items accepts model _ _ _ W) as Hsaid. cbv zeta in Hsaid. set (o := ensureStarted accepts "responses" model (closed_tools (st_output st))) in *.
  assert (S' : steps no_output o) by exact (steps_trans _ _ _ S (steps_trans _ _ _ (closed_tools_steps (st_output st)) (start_steps accepts model _))).
  destruct (S' start_in_order) as (Hord & k & Hk & Nk & Mk).
  destruct (finish_responses_items accepts model (fa_Stop (st_facts st)) (fa_Refusal (st_facts st)) input output o Hord) as (closed & o' & resp & items & Ef & Mf & Hcs & Hl & Hz & Hlen).
  change (finishTranslatedStream accepts "responses") with (finish_responses accepts) in Hb, Hs. cbv beta in *. rewrite Ef in Hb, Hs. unfold typed in Hb, Hs.
  destruct (emit_sent accepts _ _ _ Hb) as [Hb' Hs']. rewrite Hs' in Hs. destruct (Mf Hb') as (Hb2 & Ho & Hcl). destruct (Mk Hb2) as (_ & Ho0 & Hcl0).
  exists ups, (item_count (fa_Refusal (st_facts st)) o), (o_sent o'), resp, items. split_and!; [done|done| |done|done| |].
  - change (o_next no_output) with 0 in *. rewrite Z.add_0_l in Nk. rewrite Ho, Ho0, Nk. cbn [opened_items o_sent no_output flat_map app].
    unfold item_count. rewrite Nk. destruct (_ && _); [|by rewrite Z.sub_diag, app_nil_r]. replace (k + 1 - k) with 1 by lia. by rewrite seqZ_next.
  - rewrite Hcl, Hcl0. exact Hz.
  - rewrite <- Hsaid, <- Hcs, Hz, <- (snd_zip (seqZ 0 (item_count (fa_Refusal (st_facts st)) o)) items) at 1; [done|]. rewrite length_seqZ. lia.
Qed.
