(* ===== verification/Metered.v ===== *)
(** What a translated stream is charged: the document the translation leaves
    for the accounting holds the counts and the calls of the stream. *)
From S2P Require Import Prelude GoStd Money Counters Policy Json Decode Store Pricing PolicyService Admission Settlement Tokens Marshal Printing Canonical Dialects Encode Decoded Translated Streaming Streamed Endings Spoken.
Open Scope string_scope.
Open Scope Z_scope.
Open Scope list_scope.

(** * Reading an object the gateway wrote *)

Lemma marshal_braces m : exists body, marshal (AObject m) = ("{" +:+ body +:+ "}")%string.
Proof. rewrite marshal_object. by eexists. Qed.
Lemma written_object m : TrimSpace (marshal (AObject m)) = marshal (AObject m) /\ starts_object (marshal (AObject m)) = true /\ marshal (AObject m) <> "".
Proof.
  destruct (marshal_braces m) as [body ->]. change ("{" +:+ body +:+ "}")%string with (String "{"%char (body +:+ String "}"%char "")).
  split_and!; [by apply (TrimSpace_ends "{"%char "}"%char body)|by destruct (body +:+ String "}"%char "")%string|done].
Qed.
Lemma decoded_written m : writable m = true -> decoded (marshal (AObject m)) = [(reread_members m, true)].
Proof.
  intros W. unfold decoded, responseObjects. destruct (written_object m) as (-> & S & _). cbv zeta. rewrite S. cbn [map]. by rewrite (written_reads m W).
Qed.
Lemma well_decoded_written m : writable m = true -> well_decoded (marshal (AObject m)) = [reread_members m].
Proof. intros W. unfold well_decoded. by rewrite (decoded_written m W). Qed.

(** * The document *)

Definition document (target : string) (input output : Z) (fields : object) (calls : Z) (status : string) : list (string * any) :=
  let usage := map (fun kv => (fst kv, any_of (snd kv))) fields in
  let doc := [("_gateway_tool_call_count", AInt calls); ("_gateway_tool_call_status", AString status)] in
  if target =s "anthropic" then set_field "usage" (AObject (usage ++ [("input_tokens", AInt input); ("output_tokens", AInt output)])) doc
  else if target =s "gemini" then set_field "usageMetadata" (AObject (usage ++ [("promptTokenCount", AInt input); ("candidatesTokenCount", AInt output)])) doc
  else set_field "usage" (AObject (usage ++ [("prompt_tokens", AInt input); ("completion_tokens", AInt output)])) doc.
Lemma usageDocument_document target input output fields calls status :
  usageDocument target (Some input) (Some output) fields calls status = marshal (AObject (document target input output fields calls status)).
Proof. unfold usageDocument, document. cbv zeta. by repeat case_match. Qed.

(** ** What a provider reports

    Of repeated reports the last one stands. The counts of cached tokens of
    the OpenAI dialect may be given in four places, [None] where one is given
    that is no count; a number of misses stands for the rest of the input. *)
Definition reported (fields : object) (name : string) : option Z := integer (field fields name).
Definition details_said (fields : object) (name : string) : list (option Z) :=
  match lookup_field fields name with
  | None | Some VNull => []
  | Some (VObject details) => match lookup_field details "cached_tokens" with Some raw => [integer raw] | None => [] end
  | Some _ => [None]
  end.
Definition count_said (fields : object) (name : string) : list (option Z) :=
  match lookup_field fields name with Some raw => [integer raw] | None => [] end.
Definition hits (input : Z) (misses : option Z) : option Z := match misses with Some n => if n <=? input then Some (input - n) else None | None => None end.
Definition cached_said (fields : object) (input : Z) : list (option Z) :=
  (details_said fields "prompt_tokens_details" ++ details_said fields "input_tokens_details" ++ count_said fields "prompt_cache_hit_tokens")
  ++ map (hits input) (count_said fields "prompt_cache_miss_tokens").

(** Reports agree when they all are the same count, which is not more than
    the input; [None] when they contradict each other. *)
Definition agreed (input : Z) (said : list (option Z)) : option (option Z) :=
  match said with
  | [] => Some None
  | Some n :: said => if forallb (fun x => bool_decide (x = Some n)) said && (n <=? input) then Some (Some n) else None
  | None :: _ => None
  end.
Definition read_usage (input output : Z) (read : option (option Z)) : parsedUsage :=
  match read with Some read => mkParsedUsage (Some input) (Some output) None read None None | None => no_parsed_usage end.

(** What is to be charged for a stream: the counts shown, and the cached
    tokens the provider reported, on top of the input for Anthropic and as a
    part of it otherwise; no counts when the reports contradict each other. *)
Definition billed (target : string) (input output : Z) (fields : object) : parsedUsage :=
  if target =s "anthropic" then
    let creation := reported fields "cache_creation_input_tokens" in let read := reported fields "cache_read_input_tokens" in
    let details := objectMap (field fields "cache_creation") in
    let short := reported details "ephemeral_5m_input_tokens" in let long := reported details "ephemeral_1h_input_tokens" in
    let total := input + default 0 creation + default 0 read in
    if (if is_some short || is_some long then bool_decide (creation = Some (default 0 short + default 0 long)) else true) && (total <=? maxSafeInteger)
    then mkParsedUsage (Some total) (Some output) creation read short long else no_parsed_usage
  else if target =s "gemini" then read_usage input output (agreed input (count_said fields "cachedContentTokenCount"))
  else read_usage input output (agreed input (cached_said fields input)).

Definition exact_count (n : Z) : Prop := 0 <= n <= maxSafeInteger.

Section Document.
Context (target : string) (input output : Z) (fields : object) (calls : Z) (status : string).
Context (Hin : exact_count input) (Hout : exact_count output) (Hcalls : exact_count calls).
Let doc := document target input output fields calls status.

Lemma document_calls : integer (field (reread_members doc) "_gateway_tool_call_count") = Some calls /\ stringValue (field (reread_members doc) "_gateway_tool_call_status") = status.
Proof.
  unfold doc, document. cbv zeta. rewrite <- (integer_int calls Hcalls). rewrite !field_reread.
  destruct (target =s "anthropic"); [|destruct (target =s "gemini")]; rewrite !find_set; split; reflexivity.
Qed.

(** The counts come after the fields of the provider, and stand. *)
Lemma written_counts members name1 name2 : (name2 =s name1) = false ->
  field (reread_members (members ++ [(name1, AInt input); (name2, AInt output)])) name1 = VNumber (int_float input)
  /\ field (reread_members (members ++ [(name1, AInt input); (name2, AInt output)])) name2 = VNumber (int_float output).
Proof. intros Hne. rewrite !field_reread, !find_last_app. cbn [find_last]. by rewrite !String.eqb_refl, Hne. Qed.
Lemma written_count_set members name1 name2 : (name2 =s name1) = false ->
  is_some (lookup_field (reread_members (members ++ [(name1, AInt input); (name2, AInt output)])) name1) = true
  /\ is_some (lookup_field (reread_members (members ++ [(name1, AInt input); (name2, AInt output)])) name2) = true.
Proof. intros Hne. rewrite !lookup_reread, !find_last_app. cbn [find_last]. by rewrite !String.eqb_refl, Hne. Qed.

(** Fields other than the counts are read back as the provider gave them. *)
Lemma integer_norm v : integer (norm v) = integer v.
Proof. by destruct v. Qed.
Section Fields.
Context (name1 name2 : string).
Let m := reread_members (map (fun kv => (fst kv, any_of (snd kv))) fields ++ [(name1, AInt input); (name2, AInt output)]).
Definition other_name (k : string) : Prop := (name1 =s k) = false /\ (name2 =s k) = false.
Lemma lookup_written k : other_name k -> lookup_field m k = norm <$> lookup_field fields k.
Proof.
  intros [N1 N2]. unfold m. rewrite lookup_reread, find_last_app. cbn [find_last]. rewrite N1, N2, find_any, lookup_field_find. by destruct (find_last fields k).
Qed.
Lemma reported_written k : other_name k -> reported m k = reported fields k.
Proof. intros N. unfold reported, field. rewrite (lookup_written k N). destruct (lookup_field fields k); [apply integer_norm|done]. Qed.
Lemma count_written k : other_name k -> count_said m k = count_said fields k.
Proof. intros N. unfold count_said. rewrite (lookup_written k N). destruct (lookup_field fields k); cbn; [by rewrite integer_norm|done]. Qed.
Lemma details_written k : other_name k -> details_said m k = details_said fields k.
Proof.
  intros N. unfold details_said. rewrite (lookup_written k N). destruct (lookup_field fields k) as [v|]; [|done]. destruct v as [| | | | |d]; try done.
  change (fmap norm (Some (VObject d))) with (Some (norm (VObject d))). rewrite norm_object, lookup_norm. destruct (lookup_field d _); cbn; [by rewrite integer_norm|done].
Qed.
Lemma reported_details k name : other_name k -> reported (objectMap (field m k)) name = reported (objectMap (field fields k)) name.
Proof.
  intros N. unfold field at 1. rewrite (lookup_written k N). unfold field. destruct (lookup_field fields k) as [v|]; [|done]. cbn [fmap option_fmap option_map default].
  destruct v as [| | | | |d]; try done. rewrite norm_object. unfold reported, field, objectMap, id, default, as_object. rewrite lookup_norm. destruct (lookup_field d name); cbn; [by rewrite integer_norm|done].
Qed.
End Fields.

(** ** Cached tokens *)

(** What the reader keeps of the reports so far. *)
Definition same_report (said : list (option Z)) (read : option Z) : Prop :=
  match read with None => said = [] | Some n => said <> [] /\ Forall (eq (Some n)) said end.
Definition kept_reports (said : list (option Z)) (st : option Z * bool) : Prop :=
  if snd st then forall read, ~ same_report said read else same_report said (fst st).

Lemma same_report_head said1 said2 read : said1 <> [] -> same_report (said1 ++ said2) read -> exists read1, same_report said1 read1.
Proof. intros N H. exists read. destruct read as [n|]; [|by apply app_nil in H as [-> _]]. destruct H as [_ H]. apply Forall_app in H as [H _]. by split. Qed.
Lemma contradicted said1 said2 read : (forall read, ~ same_report said1 read) -> ~ same_report (said1 ++ said2) read.
Proof.
  intros H C. destruct said1 as [|x said1]; [exact (H None eq_refl)|]. destruct (same_report_head (x :: said1) said2 read ltac:(done) C) as [read1 H1]. exact (H _ H1).
Qed.
Definition keep_report (x : option Z) (st : option Z * bool) : option Z * bool :=
  match x, st with
  | Some n, (Some old, invalid) => if negb (old =? n) then (Some old, true) else (Some n, invalid)
  | Some n, (None, invalid) => (Some n, invalid)
  | None, (old, _) => (old, true)
  end.
Lemma keep_report_kept said x st : kept_reports said st -> kept_reports (said ++ [x]) (keep_report x st).
Proof.
  destruct st as [read invalid]. unfold keep_report. intros K. assert (K1 : invalid = true -> forall r, ~ same_report (said ++ [x]) r) by (intros -> r; by apply contradicted).
  destruct x as [n|].
  - destruct read as [old|].
    + destruct (Z.eqb_spec old n) as [<-|Hn]; cbn [negb].
      * destruct invalid; [intros r; by apply K1|]. destruct K as [N F]. split; [by destruct said|]. apply Forall_app. by split; [|constructor].
      * intros r. destruct invalid; [by apply K1|]. destruct K as [N F]. cbn in F. destruct said as [|x said]; [done|]. apply Forall_cons in F as [<- _].
        destruct r as [r|]; [|done]. intros [_ [[= ->] F]%Forall_cons]. apply Forall_app in F as [_ [[= ->] _]%Forall_cons]. done.
    + destruct invalid; [intros r; by apply K1|]. cbn in K. subst said. split; [done|]. by constructor.
  - intros r. destruct invalid; [by apply K1|]. destruct r as [r|]; [|by destruct said]. intros [_ F]. apply Forall_app in F as [_ [? _]%Forall_cons]. done.
Qed.
Lemma cached_details_kept said m st name : kept_reports said st -> kept_reports (said ++ details_said m name) (cached_details m st name).
Proof.
  intros K. unfold cached_details, details_said. assert (B : kept_reports (said ++ [None]) (fst st, true)).
  { intros r. destruct r as [r|]; [|by destruct said]. intros [_ F]. apply Forall_app in F as [_ [? _]%Forall_cons]. done. }
  destruct (lookup_field m name) as [[| | | | |d]|]; rewrite ?app_nil_r; try done. destruct (lookup_field d "cached_tokens"); [by apply (keep_report_kept _ (integer _))|by rewrite app_nil_r].
Qed.
Lemma agreed_kept said st i : kept_reports said st ->
  agreed i said = if snd st || match fst st with Some n => i <? n | None => false end then None else Some (fst st).
Proof.
  destruct st as [read invalid]. unfold kept_reports. cbn [fst snd]. destruct invalid; cbn [orb].
  - intros H. destruct said as [|[n|] said]; cbn; [by destruct (H None)| |done]. destruct (forallb _ said) eqn:F; [|done]. exfalso. apply (H (Some n)). split; [done|]. constructor; [done|].
    rewrite forallb_forall in F. apply List.Forall_forall. intros x Hx. specialize (F x Hx). by apply bool_decide_eq_true in F.
  - destruct read as [n|]; cbn; [|by intros ->]. intros [N F]. destruct said as [|x said]; [done|]. apply Forall_cons in F as [<- F]. cbn.
    assert (forallb (fun x => bool_decide (x = Some n)) said = true) as ->; [|destruct (Z.leb_spec n i), (Z.ltb_spec i n); (done || lia)].
    apply forallb_forall. intros x Hx. apply bool_decide_eq_true. symmetry. exact (proj1 (List.Forall_forall _ _) F x Hx).
Qed.
Lemma field_set_object name x m : field (reread_members (set_field name (AObject x) m)) name = VObject (reread_members x).
Proof. rewrite field_reread, find_set, String.eqb_refl. change (reread (AObject x) = VObject (reread_members x)). apply reread_object. Qed.
Lemma usage_object_usage x m : target <> "gemini" -> usage_object target (reread_members (set_field "usage" (AObject x) m)) = (Some (reread_members x), false).
Proof. intros Hg%String.eqb_neq. unfold usage_object. rewrite Hg, field_set_object. reflexivity. Qed.
Lemma usage_object_gemini x m : usage_object "gemini" (reread_members (set_field "usageMetadata" (AObject x) m)) = (Some (reread_members x), false).
Proof. unfold usage_object. change ("gemini" =s "gemini") with true. cbv iota. rewrite field_set_object. reflexivity. Qed.

(** ** The counts of the document *)

Let counted : counts := set_tokens (Some input) (Some output) no_counts.

Lemma integer_bounds v n : integer v = Some n -> exact_count n.
Proof.
  destruct v; try done. unfold integer, exact_count. intros (x & _ & H)%bind_Some. destruct (_ || _) eqn:E; [done|]. injection H as <-. apply orb_false_iff in E as [? ?]. lia.
Qed.
Lemma found_none v : found v None = integer v.
Proof. unfold found. by destruct (integer v). Qed.
Lemma output_known objects c : ct_output c = Some output -> output_of_total target objects c = c.
Proof. intros H. unfold output_of_total. rewrite H. by destruct (ct_input c). Qed.

Lemma anthropic_counts m : anthropic_cache m counted = mkCounts (Some input) (Some output) (reported m "cache_creation_input_tokens") (reported m "cache_read_input_tokens")
  (reported (objectMap (field m "cache_creation")) "ephemeral_5m_input_tokens") (reported (objectMap (field m "cache_creation")) "ephemeral_1h_input_tokens") false false.
Proof.
  unfold anthropic_cache, reported. cbn [counted set_tokens set_cache no_counts ct_creation ct_read ct_5m ct_1h ct_input ct_output ct_invalidCache ct_invalidUsage].
  rewrite !found_none. unfold objectMap. destruct (as_object (field m "cache_creation")); cbn; [by rewrite !found_none|done].
Qed.
Lemma anthropic_usage creation read short long :
  (forall n, creation = Some n -> exact_count n) -> (forall n, read = Some n -> exact_count n) ->
  usage_result "anthropic" (mkCounts (Some input) (Some output) creation read short long false false) =
  let total := input + default 0 creation + default 0 read in
  if (if is_some short || is_some long then bool_decide (creation = Some (default 0 short + default 0 long)) else true) && (total <=? maxSafeInteger)
  then mkParsedUsage (Some total) (Some output) creation read short long else no_parsed_usage.
Proof.
  intros Hc Hr. unfold usage_result. cbn [ct_input ct_output ct_invalidCache ct_invalidUsage ct_read orb String.eqb Ascii.eqb Bool.eqb negb andb]. unfold anthropic_input. cbv zeta.
  cbn [ct_creation ct_read ct_5m ct_1h]. set (details := default 0 short + default 0 long). unfold exact_count in *.
  destruct (is_some short || is_some long); cbn [andb].
  - destruct creation as [n|]; [|by rewrite orb_true_r, bool_decide_eq_false_2]. specialize (Hc n eq_refl). destruct (Z.eqb_spec details n) as [->|Hn]; cbn [negb].
    + rewrite bool_decide_eq_true_2, orb_false_r, (proj2 (Z.ltb_ge maxSafeInteger n)) by (done || lia). cbn [is_some andb default id]. unfold id.
      destruct (Z.ltb_spec (maxSafeInteger - n) input); [rewrite (proj2 (Z.leb_gt _ _)); [done|destruct read as [r|]; cbn; unfold id; [specialize (Hr r eq_refl)|]; lia]|].
      destruct read as [r|]; cbn; unfold id.
      * destruct (Z.ltb_spec (maxSafeInteger - r) (input + n)), (Z.leb_spec (input + n + r) maxSafeInteger); (done || lia).
      * rewrite (proj2 (Z.leb_le _ _)) by lia. done.
    + rewrite orb_true_r, bool_decide_eq_false_2; [done|congruence].
  - destruct creation as [n|]; cbn [is_some andb default]; unfold id.
    + specialize (Hc n eq_refl). destruct (Z.ltb_spec (maxSafeInteger - n) input); [rewrite (proj2 (Z.leb_gt _ _)); [done|destruct read as [r|]; cbn; unfold id; [specialize (Hr r eq_refl)|]; lia]|].
      destruct read as [r|]; cbn; unfold id.
      * destruct (Z.ltb_spec (maxSafeInteger - r) (input + n)), (Z.leb_spec (input + n + r) maxSafeInteger); (done || lia).
      * rewrite (proj2 (Z.leb_le _ _)) by lia. done.
    + destruct read as [r|]; cbn; unfold id.
      * destruct (Z.ltb_spec (maxSafeInteger - r) (input + 0)), (Z.leb_spec (input + 0 + r) maxSafeInteger); (done || lia).
      * rewrite (proj2 (Z.leb_le _ _)) by (unfold exact_count in *; lia). done.
Qed.

(** The dialects in which the cached tokens are a part of the input. *)
Lemma part_usage read invalid : (target =s "anthropic") = false ->
  usage_result target (set_read read invalid counted) = read_usage input output (if invalid || match read with Some n => input <? n | None => false end then None else Some read).
Proof. intros A. unfold usage_result. cbn. rewrite A, orb_false_r. cbn [negb andb]. by destruct (_ || _). Qed.
Lemma gemini_counts m : exists st, gemini_cache false m counted = set_read (fst st) (snd st) counted /\ kept_reports (count_said m "cachedContentTokenCount") st.
Proof.
  unfold gemini_cache, count_said. destruct (lookup_field m _) as [raw|]; [|by exists (None, false)]. destruct (integer raw) as [n|].
  - exists (Some n, false). split; [done|]. split; [done|]. by constructor.
  - exists (None, true). split; [done|]. intros [r|]; [|done]. by intros [_ [? _]%Forall_cons].
Qed.
Lemma openai_counts name m : integer (field m name) = Some input ->
  exists st, openai_cache name m counted = set_read (fst st) (snd st) counted
    /\ agreed input (cached_said m input) = if snd st || match fst st with Some n => input <? n | None => false end then None else Some (fst st).
Proof.
  intros Hi. unfold openai_cache, cached_said. cbv zeta. cbn [fold_left ct_invalidCache counted set_tokens no_counts ct_read].
  pose proof (cached_details_kept _ m _ "input_tokens_details" (cached_details_kept [] m (None, false) "prompt_tokens_details" eq_refl)) as K. cbn [app] in K.
  set (st1 := cached_details m (cached_details m _ _) _) in *. set (st2 := match lookup_field m "prompt_cache_hit_tokens" with Some raw => setCacheRead raw st1 | None => st1 end).
  assert (K2 : kept_reports (details_said m "prompt_tokens_details" ++ details_said m "input_tokens_details" ++ count_said m "prompt_cache_hit_tokens") st2).
  { unfold count_said, st2. rewrite app_assoc. destruct (lookup_field m "prompt_cache_hit_tokens"); [by apply (keep_report_kept _ (integer _))|by rewrite app_nil_r]. }
  set (said := details_said m _ ++ _) in *. clearbody st2 said. clear K st1.
  unfold count_said. destruct (lookup_field m "prompt_cache_miss_tokens") as [raw|].
  - exists (keep_report (hits input (integer raw)) st2). split; [|by apply agreed_kept, keep_report_kept]. rewrite Hi. destruct st2 as [read invalid]. unfold hits.
    destruct (integer raw) as [n|]; [|by destruct read]. destruct (Z.ltb_spec input n), (Z.leb_spec n input); try lia; [by destruct read|]. cbn [keep_report].
    destruct read as [r|]; [|done]. destruct (Z.eqb_spec r (input - n)) as [->|Hr]; cbn [negb].
    + rewrite Z.ltb_irrefl, (proj2 (Z.eqb_eq (input - n + n) input)) by lia. by rewrite !orb_false_r.
    + rewrite (proj2 (Z.eqb_neq (r + n) input)) by lia. by rewrite orb_true_r.
  - exists st2. rewrite app_nil_r. split; [by destruct st2 as [[r|] invalid]|by apply agreed_kept].
Qed.

Lemma document_counts : count_object target no_counts (reread_members doc) =
  let m n1 n2 := reread_members (map (fun kv => (fst kv, any_of (snd kv))) fields ++ [(n1, AInt input); (n2, AInt output)]) in
  if target =s "anthropic" then anthropic_cache (m "input_tokens" "output_tokens") counted
  else if target =s "gemini" then gemini_cache false (m "promptTokenCount" "candidatesTokenCount") counted
  else openai_cache "prompt_tokens" (m "prompt_tokens" "completion_tokens") counted.
Proof.
  unfold count_object, doc, document, counted. cbv zeta. set (members := map _ fields).
  destruct (String.eqb_spec target "anthropic") as [Ea|Ea]; [|destruct (String.eqb_spec target "gemini") as [Eg|Eg]].
  - rewrite usage_object_usage by (by rewrite Ea). set (m := reread_members _). destruct (written_counts members "input_tokens" "output_tokens" eq_refl) as [F1 F2]. fold m in F1, F2.
    rewrite Ea. change (usage_names "anthropic" false m) with ("input_tokens", "output_tokens"). cbv iota beta. unfold found. by rewrite F1, F2, !integer_int.
  - rewrite Eg, usage_object_gemini. set (m := reread_members _). destruct (written_counts members "promptTokenCount" "candidatesTokenCount" eq_refl) as [F1 F2]. fold m in F1, F2.
    change (usage_names "gemini" false m) with ("promptTokenCount", "candidatesTokenCount"). cbv iota beta. unfold found. by rewrite F1, F2, !integer_int.
  - rewrite usage_object_usage by done. set (m := reread_members _). destruct (written_counts members "prompt_tokens" "completion_tokens" eq_refl) as [F1 F2]. fold m in F1, F2.
    destruct (written_count_set members "prompt_tokens" "completion_tokens" eq_refl) as [S1 S2]. fold m in S1, S2.
    assert (usage_names target false m = ("prompt_tokens", "completion_tokens")) as ->.
    { apply String.eqb_neq in Ea, Eg. unfold usage_names. by rewrite Eg, Ea, S1, S2. }
    cbv iota beta. unfold found. by rewrite F1, F2, !integer_int.
Qed.

(** What the accounting reads in the document. *)
Lemma document_usage : writable doc = true -> parseUsageDetails target (marshal (AObject doc)) = billed target input output fields.
Proof.
  intros W. unfold parseUsageDetails. rewrite (well_decoded_written doc W), (decoded_written doc W). cbn [map fst fold_left]. rewrite document_counts. cbv zeta. unfold billed.
  destruct (String.eqb_spec target "anthropic") as [Ea|Ea]; [|destruct (String.eqb_spec target "gemini") as [Eg|Eg]].
  - rewrite anthropic_counts, output_known by done. rewrite Ea, anthropic_usage by (intros n; apply integer_bounds). cbv zeta. by rewrite !reported_details, !reported_written.
  - destruct (gemini_counts (reread_members (map (fun kv => (fst kv, any_of (snd kv))) fields ++ [("promptTokenCount", AInt input); ("candidatesTokenCount", AInt output)]))) as (st & -> & K).
    rewrite count_written in K by done. rewrite output_known, part_usage by (done || by rewrite Eg). by rewrite (agreed_kept _ _ input K).
  - set (m := reread_members (map (fun kv => (fst kv, any_of (snd kv))) fields ++ [("prompt_tokens", AInt input); ("completion_tokens", AInt output)])). destruct (openai_counts "prompt_tokens" m) as (st & -> & K).
    { unfold m. rewrite (proj1 (written_counts _ "prompt_tokens" "completion_tokens" eq_refl)). by apply integer_int. }
    rewrite output_known, part_usage by (done || by apply String.eqb_neq). rewrite <- K. unfold cached_said, m. by rewrite !details_written, !count_written.
Qed.
Lemma document_tools : writable doc = true -> parseToolMetadata target (marshal (AObject doc)) = Some (calls, status).
Proof.
  intros W. unfold parseToolMetadata. destruct (written_object doc) as (T & S & N). rewrite T. apply String.eqb_neq in N. rewrite N. cbn [negb andb].
  rewrite (well_decoded_written doc W). cbn [tool_loop]. destruct document_calls as [-> ->]. done.
Qed.
End Document.

(** * What the stream leaves *)

Section Metering.
Context (accepts : list frame -> frame -> bool) (client model target : string).

Lemma fold_tools {A} (f : output -> A -> output) l : (forall o x, o_tools (f o x) = o_tools o) -> forall o, o_tools (fold_left f l o) = o_tools o.
Proof. intros H. induction l as [|x l IH]; intros o; cbn; [done|]. by rewrite IH. Qed.
Lemma finish_tools stop refusal input output o : o_tools (finishTranslatedStream accepts client model stop refusal input output o) = o_tools o.
Proof.
  unfold finishTranslatedStream. destruct (client =s "openai"); [|destruct (client =s "anthropic"); [|destruct (client =s "gemini"); [|destruct (client =s "responses"); [|done]]]].
  - unfold finish_openai. cbv zeta. cbn [o_tools]. rewrite emit_tools. destruct (refusal =s ""); [done|apply emit_tools].
  - unfold finish_anthropic. cbv zeta. rewrite !typed_tools, fold_tools by (intros; apply typed_tools). destruct (0 <=? _); unfold block_stop; rewrite ?typed_tools; destruct (_ && _); by rewrite ?typed_tools.
  - unfold finish_gemini. apply emit_tools.
  - unfold finish_responses. cbv zeta. rewrite typed_tools, fold_tools by (intros; unfold tool_done, item_done; by rewrite !typed_tools).
    destruct (some_items _); unfold item_done, refuse_message; rewrite ?typed_tools; destruct (refusal =s ""); rewrite ?typed_tools; destruct (0 <=? _); rewrite ?typed_tools; destruct (_ && _); by rewrite ?typed_tools.
Qed.

Definition metered (ups : list streamDelta) (seen : bool) (st : stream) : Prop :=
  let u := summarise ups in
  facts_of u (st_facts st) /\ counts_exact u /\ fa_Usage (st_facts st) = flat_map sd_Usage ups /\ keyed (su_tools u) (o_tools (st_output st)).
Lemma metered_done ups seen st : metered ups seen st -> metered ups true (mkStream (st_output st) (note_done (st_facts st))).
Proof. done. Qed.
Lemma metered_delta ups seen st p d st' :
  metered ups seen st -> decodeStreamDelta target p = Ok d -> consume_delta accepts client model target d st = (st', None) -> metered (ups ++ [d]) seen st'.
Proof.
  intros (F & C & U & K) D H. unfold metered. cbv zeta. rewrite summarise_snoc. unfold consume_delta in H. pose proof (send_text_tools accepts client model (sd_Text d) (st_output st)) as T.
  destruct (send_text _ _ _ _ _) as [o1 [e|]]; [done|]. destruct (send_tools _ _ _ _ _) as [o2 [e|]] eqn:E2; [done|]. injection H as <- Hb. cbn [st_facts st_output fst] in *.
  destruct (decoded_counts_ok _ _ _ D) as [C1 C2]. split_and!; [by apply note_facts|by apply say_exact| |].
  - cbn [fa_Usage note]. rewrite U, flat_map_app. cbn. by rewrite app_nil_r.
  - cbn [su_tools say]. rewrite <- T in K. exact (send_tools_keys accepts client model _ _ _ _ K E2).
Qed.
Lemma metered_start : metered [] false (mkStream no_output no_facts).
Proof. split_and!; [by split_and!|done|done|]. split; [constructor|done]. Qed.
End Metering.

Definition calls_status (calls : Z) : string := if calls =? 0 then "none" else "completed".

(** C19: what a translated stream is charged is what it said. When the
    translation ends without an error, the accounting that parses the document
    it leaves finds as many tool calls as there were distinct calls in the
    stream, and exactly the usage to be charged: the token counts the provider
    reported last, which the client was shown, and the cached tokens of the
    last reports, which Anthropic counts on top of the input. No counts are
    found precisely when the reports of cached tokens contradict each other or
    the counts, or add up to more than a safe integer. *)
Theorem stream_is_metered accepts client model target flushes text failure t :
  TranslateStream accepts client model target flushes text failure = t -> tr_error t = None ->
  exists ups input output, provider_events target text = Ok ups /\ su_input (summarise ups) = Some input /\ su_output (summarise ups) = Some output
    /\ let calls := call_count (su_tools (summarise ups)) in
       let doc := document target input output (flat_map sd_Usage ups) calls (calls_status calls) in
       tr_metadata t = Some (marshal (AObject doc))
       /\ (writable doc = true -> calls <= maxSafeInteger ->
           parseToolMetadata target (marshal (AObject doc)) = Some (calls, calls_status calls)
           /\ parseUsageDetails target (marshal (AObject doc)) = billed target input output (flat_map sd_Usage ups)).
Proof.
  intros H E.
  destruct (TranslateStream_cases accepts client model target metered (metered_delta accepts client model target) metered_done
    (fun _ => True) (fun _ _ _ => I) flushes text failure t metered_start I H) as [[E' _]|(ups & st & Hu & (F & [C1 C2] & U & K) & _ & Hf)]; [by rewrite E in E'|].
  destruct (finish_stream_ok accepts model target client st t Hf E) as (input & output & _ & _ & _ & _ & Hi & Ho & _ & _ & Hm).
  destruct F as (_ & _ & F3 & F4). exists ups, input, output. rewrite <- F3, <- F4 in *. rewrite Hi, Ho in *. cbn in C1, C2. cbv zeta. split_and!; [done..| |].
  - rewrite Hm. f_equal. unfold metadata. cbv zeta. cbn [st_facts st_output]. rewrite finish_tools, ensureStarted_tools, Hi, Ho, U. cbn [o_tools closed_tools with_tools].
    rewrite length_map, (keyed_count _ _ K), usageDocument_document. do 2 f_equal. rewrite <- (keyed_count _ _ K). unfold calls_status. by destruct (o_tools (st_output st)).
  - intros W L. assert (exact_count (call_count (su_tools (summarise ups)))) as X by (unfold exact_count, call_count in *; lia).
    split; [by apply document_tools|by apply document_usage].
Qed.
