(* ===== verification/Streams.v ===== *)
(** Streams of providers, the frames their clients receive, and the properties
    of translated streams applied to them. *)
From S2P Require Import Prelude GoStd Money Counters Policy Json Decode Store Pricing PolicyService Admission Settlement Tokens Marshal Printing Canonical Dialects Encode Decoded Translated Streaming Streamed Endings Spoken Items Metered.
Open Scope string_scope.
Open Scope Z_scope.
Open Scope list_scope.

Definition every_frame (_ : list frame) (_ : frame) : bool := true.
Definition translated_to (client target text : string) : translated := TranslateStream every_frame client "public" target true text None.

(** A text and a tool call, as Anthropic streams them. *)
Definition anthropic_stream : string := sse_stream (map json_text [
  "{'type':'message_start','message':{'usage':{'input_tokens':9,'output_tokens':1}}}";
  "{'type':'content_block_start','index':0,'content_block':{'type':'text','text':''}}";
  "{'type':'content_block_delta','index':0,'delta':{'type':'text_delta','text':'Hel'}}";
  "{'type':'content_block_delta','index':0,'delta':{'type':'text_delta','text':'lo'}}";
  "{'type':'content_block_start','index':1,'content_block':{'type':'tool_use','id':'t1','name':'weather','input':{}}}";
  "{'type':'content_block_delta','index':1,'delta':{'type':'input_json_delta','partial_json':'{\'city\':'}}";
  "{'type':'content_block_delta','index':1,'delta':{'type':'input_json_delta','partial_json':'\'Oslo\'}'}}";
  "{'type':'message_delta','delta':{'stop_reason':'tool_use'},'usage':{'output_tokens':12}}";
  "{'type':'message_stop'}"]).

Example anthropic_stream_summary :
  (summarise <$> match provider_events "anthropic" anthropic_stream with Ok ds => Some ds | Err _ => None end)
  = Some (mkSummary "Hello" "" [mkToolDelta 1 "t1" "weather" ""; mkToolDelta 1 "" "" (json_text "{'city':"); mkToolDelta 1 "" "" (json_text "'Oslo'}")] "tool_use" (Some 9) (Some 12)).
Proof. vm_compute. reflexivity. Qed.

Lemma openai_stream_reads_witness :
  let t := translated_to "openai" "anthropic" anthropic_stream in
  tr_error t = None /\ exists ups, provider_events "anthropic" anthropic_stream = Ok ups
    /\ (forallb call_exact (su_tools (summarise ups)) = true ->
        exists frames downs, (tr_sent t = frames \/ tr_sent t = frames ++ [DoneMark]) /\ map frame_event frames = map Ok downs
          /\ summarise downs = openai_summary (summarise ups)).
Proof.
  intros t. assert (E : tr_error t = None) by (vm_compute; reflexivity). split; [exact E|].
  apply (openai_stream_reads every_frame "public" "anthropic" true anthropic_stream None t eq_refl E). vm_compute. reflexivity.
Defined.

Lemma stream_end_is_earned_witness :
  let t := translated_to "gemini" "anthropic" anthropic_stream in
  existsb ends_answer (tr_sent t) = true /\ exists ups, provider_events "anthropic" anthropic_stream = Ok ups /\ (str_len anthropic_stream <= maxStreamBytes -> (None : option string) = None)
    /\ existsb is_done (payloads_of anthropic_stream) || existsb sd_Done ups = true /\ existsb sd_Invalid ups = false
    /\ is_some (su_input (summarise ups)) = true /\ is_some (su_output (summarise ups)) = true
    /\ forall index, In index (map td_Index (su_tools (summarise ups))) -> json_valid (call_arguments index (su_tools (summarise ups))) = true.
Proof.
  intros t. assert (E : existsb ends_answer (tr_sent t) = true) by (vm_compute; reflexivity). split; [exact E|].
  exact (stream_end_is_earned every_frame "gemini" "public" "anthropic" true anthropic_stream None t eq_refl E).
Defined.

Lemma responses_items_complete_witness :
  let t := translated_to "responses" "anthropic" anthropic_stream in
  opened_items (tr_sent t) = [0; 1] /\ exists ups n frames resp items,
    provider_events "anthropic" anthropic_stream = Ok ups
    /\ tr_sent t = frames ++ [Event "response.completed" [("type", AString "response.completed"); ("response", AObject resp)]]
    /\ opened_items frames = seqZ 0 n /\ find_last resp "output" = Some (AArray items) /\ Z.of_nat (length items) = n
    /\ closed_items frames ≡ₚ zip (seqZ 0 n) items /\ items ≡ₚ said_items (summarise ups).
Proof.
  intros t. split; [vm_compute; reflexivity|]. apply (responses_items_complete every_frame "public" "anthropic" true anthropic_stream None t eq_refl). vm_compute. reflexivity.
Defined.

(** A text in two chunks, as Gemini streams it. *)
Definition gemini_stream : string := sse_stream (map json_text [
  "{'candidates':[{'content':{'parts':[{'text':'Hel'}]}}]}";
  "{'candidates':[{'content':{'parts':[{'text':'lo'}]},'finishReason':'STOP'}],'usageMetadata':{'promptTokenCount':3,'candidatesTokenCount':4,'cachedContentTokenCount':1}}"]).

Lemma stream_is_metered_witness :
  let t := translated_to "openai" "gemini" gemini_stream in
  tr_error t = None /\ exists ups input output, provider_events "gemini" gemini_stream = Ok ups /\ su_input (summarise ups) = Some input /\ su_output (summarise ups) = Some output
    /\ let calls := call_count (su_tools (summarise ups)) in
       let doc := document "gemini" input output (flat_map sd_Usage ups) calls (calls_status calls) in
       tr_metadata t = Some (marshal (AObject doc))
       /\ (writable doc = true -> calls <= maxSafeInteger ->
           parseToolMetadata "gemini" (marshal (AObject doc)) = Some (calls, calls_status calls)
           /\ parseUsageDetails "gemini" (marshal (AObject doc)) = billed "gemini" input output (flat_map sd_Usage ups)).
Proof.
  intros t. assert (E : tr_error t = None) by (vm_compute; reflexivity). split; [exact E|].
  exact (stream_is_metered every_frame "openai" "public" "gemini" true gemini_stream None t eq_refl E).
Defined.

(** What is billed for that stream, and what for contradictory reports. *)
Example billed_examples :
  match tr_metadata (translated_to "openai" "gemini" gemini_stream) with
  | Some doc => parseUsageDetails "gemini" doc = mkParsedUsage (Some 3) (Some 4) None (Some 1) None None
  | None => False
  end /\ billed "openai" 10 2 [("prompt_cache_hit_tokens", VNumber (int_float 4)); ("prompt_cache_miss_tokens", VNumber (int_float 5))] = no_parsed_usage.
Proof. vm_compute. by split. Qed.

(** The document of that stream, as the accounting reads it. *)
Example metered_counts :
  match tr_metadata (translated_to "responses" "anthropic" anthropic_stream) with
  | Some doc => parseToolMetadata "anthropic" doc = Some (1, "completed") /\ pu_Input (parseUsageDetails "anthropic" doc) = Some 9 /\ pu_Output (parseUsageDetails "anthropic" doc) = Some 12
  | None => False
  end.
Proof. vm_compute. by split_and!. Qed.

(** * What goes wrong *)

(** Gemini numbers the parts of each chunk from zero: two calls in two chunks
    are taken for one, and their arguments do not parse together. *)
Definition two_gemini_calls : string := sse_stream (map json_text [
  "{'candidates':[{'content':{'parts':[{'functionCall':{'name':'a','args':{'x':1}}}]}}]}";
  "{'candidates':[{'content':{'parts':[{'functionCall':{'name':'b','args':{'y':2}}}]},'finishReason':'STOP'}],'usageMetadata':{'promptTokenCount':3,'candidatesTokenCount':4}}"]).
Example two_gemini_calls_fail : tr_error (translated_to "openai" "gemini" two_gemini_calls) = Some (Msg "upstream tool arguments are invalid").
Proof. vm_compute. reflexivity. Qed.

(** A Gemini answer that calls a tool stops with [STOP]: an OpenAI client is
    told that the answer is over, not that a tool is to be called. *)
Definition gemini_tool_answer : string := json_text
  "{'candidates':[{'content':{'parts':[{'functionCall':{'name':'a','args':{}}}]},'finishReason':'STOP'}],'usageMetadata':{'promptTokenCount':3,'candidatesTokenCount':4}}".
Example gemini_call_stops :
  match decodeCanonicalResult "gemini" gemini_tool_answer with
  | Ok r => hasPartKind (cs_Parts r) "tool_use" = true /\ openAIStop (cs_Stop r) = "stop" /\ anthropicStop (cs_Stop r) = "end_turn"
  | Err _ => False
  end.
Proof. vm_compute. by split_and!. Qed.

(** A closing mark that no empty line follows is read as JSON. *)
Definition unterminated : string := sse_stream (map json_text [
  "{'choices':[{'delta':{'content':'Hi'}}]}";
  "{'choices':[{'delta':{},'finish_reason':'stop'}],'usage':{'prompt_tokens':1,'completion_tokens':1}}"]) +:+ "data: [DONE]".
Example unterminated_fails : tr_error (translated_to "responses" "openai" unterminated) = Some (Msg "upstream stream contains invalid JSON").
Proof. vm_compute. reflexivity. Qed.
