(* ===== verification/Capture.v ===== *)
(** Bounded captures of a provider's stream ([internal/gateway/dispatch.go]):
    the first bytes ([limitedCapture]), the last bytes in a ring
    ([tailCapture]), and both cut at event boundaries ([headTailCapture]).
    Each is proved to hold what its writes, however they were chunked, say it
    should. *)
From S2P Require Import Prelude GoStd Tokens.

(** [copy(dst[at:], src)]: the slice after it and the bytes written. *)
Definition copy_at {A} (at_ : nat) (src dst : list A) : list A * nat :=
  let n := Nat.min (length dst - at_) (length src) in
  ((firstn at_ dst ++ firstn n src ++ skipn (at_ + n) dst)%list, n).

(** The last [n] elements. *)
Definition lastn {A} (n : nat) (l : list A) : list A := skipn (length l - n) l.

(** * [limitedCapture] *)

Record limitedCapture := mkLimited { lc_Buffer : list ascii; lc_limit : nat; lc_overflow : bool }.

Definition limited_Write (value : list ascii) (c : limitedCapture) : limitedCapture :=
  let remaining := (lc_limit c - length (lc_Buffer c))%nat in
  if (lc_limit c <=? length (lc_Buffer c))%nat then mkLimited (lc_Buffer c) (lc_limit c) true
  else if (remaining <? length value)%nat then mkLimited (lc_Buffer c ++ firstn remaining value) (lc_limit c) true
  else mkLimited (lc_Buffer c ++ value) (lc_limit c) (lc_overflow c).

(** * [tailCapture] *)

Record tailCapture := mkTail { tc_data : list ascii; tc_limit : nat; tc_size : nat; tc_next : nat }.
Definition newTail (limit : nat) : tailCapture := mkTail [] limit 0 0.

(** The loop that writes over the oldest bytes; every round writes some. *)
Fixpoint overwrite (fuel : nat) (value : list ascii) (c : tailCapture) : tailCapture :=
  match fuel, value with
  | O, _ | _, [] => c
  | S fuel, _ =>
    let '(data, written) := copy_at (tc_next c) value (tc_data c) in
    overwrite fuel (skipn written value)
      (mkTail data (tc_limit c) (Nat.min (tc_limit c) (tc_size c + written)) ((tc_next c + written) mod tc_limit c))
  end.

Definition tail_Write (value : list ascii) (c : tailCapture) : tailCapture :=
  let count := length value in
  if (tc_limit c =? 0)%nat then c
  else if (tc_limit c <=? count)%nat then mkTail (skipn (count - tc_limit c) value) (tc_limit c) (tc_limit c) 0
  else if (tc_size c <? tc_limit c)%nat then
    let growth := Nat.min count (tc_limit c - tc_size c) in
    let rest := skipn growth value in
    overwrite (length rest) rest
      (mkTail (tc_data c ++ firstn growth value) (tc_limit c) (tc_size c + growth) ((tc_size c + growth) mod tc_limit c))
  else overwrite count value c.

Definition tail_Bytes (c : tailCapture) : list ascii :=
  if (tc_size c <? tc_limit c)%nat then firstn (tc_size c) (tc_data c)
  else (skipn (tc_next c) (tc_data c) ++ firstn (tc_next c) (tc_data c))%list.

(** * [headTailCapture] *)

Record headTailCapture := mkHeadTail { ht_head : limitedCapture; ht_tail : tailCapture; ht_total : Z }.

Definition head_tail_Write (value : list ascii) (c : headTailCapture) : headTailCapture :=
  mkHeadTail (limited_Write value (ht_head c)) (tail_Write value (ht_tail c)) (ht_total c + Z.of_nat (length value)).

(** [bytes.Index] and [bytes.LastIndex]; [-1] when there is none. *)
Fixpoint starts (sub l : list ascii) : bool :=
  match sub, l with
  | [], _ => true
  | x :: sub, y :: l => Ascii.eqb x y && starts sub l
  | _ :: _, [] => false
  end.
Fixpoint Index (l sub : list ascii) : Z :=
  if starts sub l then 0
  else match l with [] => -1 | _ :: l => let i := Index l sub in if i <? 0 then -1 else i + 1 end.
Fixpoint LastIndex (l sub : list ascii) : Z :=
  match l with
  | [] => if starts sub [] then 0 else -1
  | _ :: l' => let i := LastIndex l' sub in if 0 <=? i then i + 1 else if starts sub l then 0 else -1
  end.

Definition lf : ascii := ascii_of_nat 10.
Definition cr : ascii := ascii_of_nat 13.
Definition blank_lf : list ascii := [lf; lf].
Definition blank_crlf : list ascii := [cr; lf; cr; lf].

Definition completeSSEPrefix (value : list ascii) : list ascii :=
  let i := LastIndex value blank_lf in let j := LastIndex value blank_crlf in
  if i <? j then firstn (Z.to_nat (j + 4)) value else if 0 <=? i then firstn (Z.to_nat (i + 2)) value else [].
Definition completeSSETail (value : list ascii) : list ascii :=
  let i := Index value blank_lf in let j := Index value blank_crlf in
  if (0 <=? j) && ((i <? 0) || (j <? i)) then skipn (Z.to_nat (j + 4)) value
  else if 0 <=? i then skipn (Z.to_nat (i + 2)) value else value.

Definition head_tail_Bytes (c : headTailCapture) : list ascii :=
  let tail := tail_Bytes (ht_tail c) in
  if ht_total c <=? Z.of_nat (tc_limit (ht_tail c)) then tail
  else (completeSSEPrefix (lc_Buffer (ht_head c)) ++ completeSSETail tail)%list.

(** * What the captures hold *)

Lemma lastn_short {A} n (l : list A) : (length l <= n)%nat -> lastn n l = l.
Proof. intros H. unfold lastn. by replace (length l - n)%nat with 0%nat by lia. Qed.
Lemma length_lastn {A} n (l : list A) : length (lastn n l) = Nat.min n (length l).
Proof. unfold lastn. rewrite length_skipn. lia. Qed.
Lemma lastn_lastn_app {A} n (l r : list A) : lastn n (lastn n l ++ r) = lastn n (l ++ r).
Proof.
  unfold lastn. assert (E : (skipn (length l - n) l ++ r)%list = skipn (length l - n) (l ++ r)).
  { rewrite skipn_app. by replace (length l - n - length l)%nat with 0%nat by lia. }
  rewrite E, skipn_skipn, length_skipn, !length_app. f_equal. lia.
Qed.
Lemma lastn_push {A} n (w v : list A) : length w = n -> (length v <= n)%nat -> lastn n (w ++ v) = (skipn (length v) w ++ v)%list.
Proof.
  intros Hw Hv. unfold lastn. rewrite length_app, skipn_app.
  replace (length w + length v - n)%nat with (length v) by lia. by replace (length v - length w)%nat with 0%nat by lia.
Qed.

(** The bytes a full ring holds, oldest first. *)
Definition window (c : tailCapture) : list ascii := (skipn (tc_next c) (tc_data c) ++ firstn (tc_next c) (tc_data c))%list.
Definition full_ring (c : tailCapture) : Prop :=
  (0 < tc_limit c)%nat /\ length (tc_data c) = tc_limit c /\ tc_size c = tc_limit c /\ (tc_next c < tc_limit c)%nat.

Lemma length_window c : length (window c) = length (tc_data c).
Proof. unfold window. rewrite length_app, Nat.add_comm, <- length_app, firstn_skipn. done. Qed.

(** One round of the loop pushes [n] bytes and drops the [n] oldest. *)
Lemma copy_window (data value : list ascii) (next n limit : nat) :
  length data = limit -> (next < limit)%nat -> n = Nat.min (limit - next) (length value) ->
  let data' := (firstn next data ++ firstn n value ++ skipn (next + n) data)%list in
  let next' := ((next + n) mod limit)%nat in
  length data' = limit /\ (next' < limit)%nat
  /\ (skipn next' data' ++ firstn next' data' = skipn n (skipn next data ++ firstn next data) ++ firstn n value)%list.
Proof.
  intros Hl Hn En data' next'.
  assert (Hv : length (firstn n value) = n) by (rewrite length_firstn; lia).
  assert (Hf : length (firstn next data) = next) by (rewrite length_firstn; lia).
  assert (Hd : length data' = limit) by (unfold data'; rewrite !length_app, length_skipn; lia).
  repeat split; [done|apply Nat.mod_upper_bound; lia|].
  rewrite skipn_app, length_skipn, skipn_skipn.
  destruct (decide (next + n = limit)%nat) as [E|E].
  - unfold next'. rewrite E, Nat.Div0.mod_same. cbn [skipn firstn]. rewrite app_nil_r. unfold data'.
    rewrite E, (skipn_all2 data), app_nil_r by lia. rewrite (skipn_all2 data) by lia.
    by replace (n - (length data - next))%nat with 0%nat by lia.
  - unfold next'. rewrite Nat.mod_small by lia. unfold data'. rewrite (app_assoc (firstn next data)).
    assert (Hp : length (firstn next data ++ firstn n value) = (next + n)%nat) by (rewrite length_app; lia).
    rewrite skipn_app, firstn_app, Hp, Nat.sub_diag, skipn_all2, firstn_all2 by lia. cbn [skipn firstn].
    rewrite app_nil_r. replace (n - (length data - next))%nat with 0%nat by lia. cbn [skipn app].
    rewrite (Nat.add_comm n next), <- app_assoc. done.
Qed.

Lemma overwrite_window fuel value c :
  full_ring c -> (length value <= fuel)%nat ->
  full_ring (overwrite fuel value c) /\ tc_limit (overwrite fuel value c) = tc_limit c
  /\ window (overwrite fuel value c) = lastn (tc_limit c) (window c ++ value).
Proof.
  revert value c. induction fuel as [|fuel IH]; intros value c Hc Hf; pose proof Hc as (H0 & Hl & Hs & Hn).
  { destruct value; [|simpl in Hf; lia]. simpl. rewrite app_nil_r, lastn_short by (rewrite length_window; lia). done. }
  destruct value as [|x value]; [simpl; rewrite app_nil_r, lastn_short by (rewrite length_window; lia); done|].
  set (v := x :: value) in *. assert (Hv : (0 < length v)%nat) by (simpl; lia). cbn [overwrite]. unfold copy_at. rewrite Hl.
  set (n := Nat.min (tc_limit c - tc_next c) (length v)). assert (Hle : (n <= tc_limit c /\ n <= length v /\ 0 < n)%nat) by (unfold n; lia).
  destruct (copy_window (tc_data c) v (tc_next c) n (tc_limit c) Hl Hn eq_refl) as (Hd & Hn' & Hw).
  cbn [overwrite]. change (match v with [] => c | _ :: _ => ?r end) with r.
  match goal with |- context [overwrite fuel (skipn n v) ?c0] => set (c' := c0) end.
  assert (Hc' : full_ring c') by (unfold full_ring, c'; simpl; repeat split; auto; lia).
  destruct (IH (skipn n v) c' Hc') as (Hr & Hlim & Hwin); [rewrite length_skipn; lia|].
  split; [done|]. split; [done|]. rewrite Hwin. change (tc_limit c') with (tc_limit c).
  change (window c') with (skipn (tc_next c') (tc_data c') ++ firstn (tc_next c') (tc_data c'))%list. unfold c' at 1 2 3 4. simpl (tc_next _). simpl (tc_data _).
  rewrite Hw. fold (window c).
  rewrite <- (firstn_skipn n v) at 3. rewrite (app_assoc (window c)), <- (lastn_lastn_app _ (window c ++ _)).
  rewrite (lastn_push _ (window c) (firstn n v)) by (rewrite ?length_window, ?length_firstn; lia).
  by rewrite length_firstn, Nat.min_l by lia.
Qed.

(** The capture after the stream [s], written in whatever pieces. *)
Definition holds_tail (c : tailCapture) (s : list ascii) : Prop :=
  (tc_limit c = 0 /\ c = newTail 0
   \/ tc_size c < tc_limit c /\ tc_size c = length s /\ tc_data c = s /\ tc_next c = length s
   \/ full_ring c /\ tc_limit c <= length s /\ window c = lastn (tc_limit c) s)%nat.

Lemma holds_tail_Bytes c s : holds_tail c s -> tail_Bytes c = lastn (tc_limit c) s.
Proof.
  unfold tail_Bytes. intros [[E ->]|[(Hs & Hl & Hd & _)|((_ & _ & Hs & _) & _ & Hw)]].
  - unfold lastn. simpl. rewrite skipn_all2 by lia. done.
  - rewrite (proj2 (Nat.ltb_lt _ _)) by lia. rewrite lastn_short by lia. rewrite Hd. apply firstn_all2. lia.
  - rewrite (proj2 (Nat.ltb_ge _ _)) by lia. done.
Qed.

Lemma holds_tail_Write c s value : holds_tail c s -> holds_tail (tail_Write value c) (s ++ value) /\ tc_limit (tail_Write value c) = tc_limit c.
Proof.
  intros H. unfold tail_Write. destruct (Nat.eqb_spec (tc_limit c) 0) as [E|E].
  { split; [|done]. left. destruct H as [[? ->]|[H|[H _]]]; [done|lia|destruct H; lia]. }
  destruct (Nat.leb_spec (tc_limit c) (length value)) as [L|L].
  { split; [|done]. right. right. unfold full_ring, window. simpl. rewrite length_skipn, length_app, app_nil_r.
    split; [lia|]. split; [lia|]. unfold lastn. rewrite length_app, skipn_app, (skipn_all2 s) by lia. rewrite drop_0. cbn [app]. f_equal. lia. }
  destruct H as [[? _]|[(Hs & Hl & Hd & Hn)|(Hf & Hl & Hw)]]; [done| |].
  - rewrite (proj2 (Nat.ltb_lt _ _)) by lia. set (g := Nat.min _ _). set (c' := mkTail _ _ _ _).
    destruct (Nat.leb_spec (length value) (tc_limit c - tc_size c)) as [G|G].
    + assert (Eg : g = length value) by (unfold g; lia). rewrite skipn_all2 by lia. simpl. split; [|done].
      unfold c'. rewrite Eg, firstn_all, Hd. destruct (Nat.eq_dec (tc_size c + length value)%nat (tc_limit c)) as [F|F].
      * right. right. rewrite F, Nat.Div0.mod_same. unfold full_ring, window. simpl. rewrite length_app, app_nil_r.
        rewrite lastn_short by (rewrite length_app; lia). repeat split; lia.
      * right. left. simpl. rewrite Nat.mod_small, length_app by lia. repeat split; lia.
    + assert (Eg : g = (tc_limit c - tc_size c)%nat) by (unfold g; lia).
      assert (Hc' : full_ring c').
      { unfold full_ring, c'. simpl. rewrite Eg, Hd, length_app, length_firstn. replace (tc_size c + _)%nat with (tc_limit c) by lia.
        rewrite Nat.Div0.mod_same. lia. }
      destruct (overwrite_window (length (skipn g value)) (skipn g value) c' Hc' (le_n _)) as (Hr & Hlim & Hwin).
      split; [|done]. right. right. split; [done|]. rewrite Hlim, Hwin. simpl. rewrite length_app. split; [lia|].
      assert (Ew : window c' = (s ++ firstn g value)%list).
      { unfold window, c'. simpl. rewrite Hd. replace (tc_size c + g)%nat with (tc_limit c) by lia.
        rewrite Nat.Div0.mod_same. simpl. by rewrite app_nil_r. }
      by rewrite Ew, <- app_assoc, firstn_skipn.
  - pose proof Hf as (_ & _ & Hsz & _). rewrite (proj2 (Nat.ltb_ge _ _)) by lia.
    destruct (overwrite_window (length value) value c Hf (le_n _)) as (Hr & Hlim & Hwin).
    split; [|done]. right. right. split; [done|]. rewrite Hlim, Hwin, Hw, lastn_lastn_app, length_app. split; [lia|done].
Qed.

Definition limited_writes (chunks : list (list ascii)) (c : limitedCapture) : limitedCapture := fold_left (fun c v => limited_Write v c) chunks c.
Definition tail_writes (chunks : list (list ascii)) (c : tailCapture) : tailCapture := fold_left (fun c v => tail_Write v c) chunks c.
Definition head_tail_writes (chunks : list (list ascii)) (c : headTailCapture) : headTailCapture := fold_left (fun c v => head_tail_Write v c) chunks c.

Lemma tail_writes_hold chunks c s :
  holds_tail c s -> holds_tail (tail_writes chunks c) (s ++ concat chunks) /\ tc_limit (tail_writes chunks c) = tc_limit c.
Proof.
  revert c s. induction chunks as [|v chunks IH]; intros c s H; simpl; [by rewrite app_nil_r|].
  destruct (holds_tail_Write c s v H) as [H' E]. destruct (IH _ _ H') as [H'' E']. rewrite app_assoc, E'. done.
Qed.

Lemma newTail_holds limit : holds_tail (newTail limit) [].
Proof. destruct limit; [by left|]. right. left. repeat split. simpl. lia. Qed.

(** The ring buffer holds exactly the last [limit] bytes of the stream, in
    order, however the stream was cut into writes and however often the ring
    wrapped around. *)
Lemma tailCapture_holds_tail (limit : nat) (chunks : list (list ascii)) :
  tail_Bytes (tail_writes chunks (newTail limit)) = lastn limit (concat chunks).
Proof.
  destruct (tail_writes_hold chunks _ _ (newTail_holds limit)) as [H E]. by rewrite (holds_tail_Bytes _ _ H), E.
Qed.

(** What a bounded buffer holds, and what its overflow flag says: nothing was
    lost while it is unset. *)
Lemma limited_writes_hold chunks limit :
  let c := limited_writes chunks (mkLimited [] limit false) in
  lc_Buffer c = firstn limit (concat chunks) /\ (lc_overflow c = false -> lc_Buffer c = concat chunks).
Proof.
  assert (H : forall s c, lc_limit c = limit -> lc_Buffer c = firstn limit s -> (lc_overflow c = false -> lc_Buffer c = s) ->
    let c' := limited_writes chunks c in
    lc_Buffer c' = firstn limit (s ++ concat chunks) /\ (lc_overflow c' = false -> lc_Buffer c' = (s ++ concat chunks)%list)).
  { induction chunks as [|v chunks IH]; intros s c El Eb Eo; [simpl; rewrite app_nil_r; auto|].
    simpl. rewrite app_assoc. assert (Hlen : length (lc_Buffer c) = Nat.min limit (length s)) by (by rewrite Eb, length_firstn).
    unfold limited_Write. rewrite El. destruct (Nat.leb_spec limit (length (lc_Buffer c))) as [L|L]; [|destruct (Nat.ltb_spec (limit - length (lc_Buffer c)) (length v)) as [M|M]];
      apply IH; simpl; auto; try discriminate.
    - rewrite Eb, firstn_app. replace (limit - length s)%nat with 0%nat by lia. simpl. by rewrite app_nil_r.
    - rewrite firstn_app, Eb. f_equal. f_equal. rewrite length_firstn. lia.
    - rewrite firstn_app, Eb, (firstn_all2 v) by lia. done.
    - intros F. by rewrite (Eo F). }
  intros c. apply (H []); simpl; auto. by rewrite firstn_nil.
Qed.

(** * Event boundaries *)

(** Text that ends with the blank line after an event. *)
Definition ends_event (l : list ascii) : Prop := exists a, l = (a ++ blank_lf)%list \/ l = (a ++ blank_crlf)%list.

Lemma starts_app sub l : starts sub l = true -> exists b, l = (sub ++ b)%list.
Proof.
  revert l. induction sub as [|x sub IH]; intros [|y l]; simpl; try done; try (by eexists).
  intros [->%Ascii.eqb_eq H]%andb_true_iff. destruct (IH l H) as [b ->]. by exists b.
Qed.

Definition found_at (i : Z) (l sub : list ascii) : Prop :=
  0 <= i -> exists a b, l = (a ++ sub ++ b)%list /\ Z.of_nat (length a) = i.

Lemma found_here l sub : starts sub l = true -> found_at 0 l sub.
Proof. intros H _. destruct (starts_app _ _ H) as [b ->]. by exists [], b. Qed.
Lemma found_later i x l sub : found_at i l sub -> 0 <= i -> found_at (i + 1) (x :: l) sub.
Proof. intros H Hi _. destruct (H Hi) as (a & b & -> & <-). exists (x :: a), b. split; [done|]. simpl length. lia. Qed.
Lemma found_nowhere l sub : found_at (-1) l sub.
Proof. intros H. lia. Qed.

Lemma Index_found l sub : found_at (Index l sub) l sub.
Proof.
  induction l as [|x l IH]; simpl; (destruct (starts sub _) eqn:E; [by apply found_here|]); [apply found_nowhere|].
  destruct (Index l sub <? 0) eqn:F; [apply found_nowhere|]. apply found_later; [done|lia].
Qed.
Lemma LastIndex_found l sub : found_at (LastIndex l sub) l sub.
Proof.
  induction l as [|x l IH]; simpl.
  - destruct (starts sub []) eqn:E; [by apply found_here|apply found_nowhere].
  - destruct (0 <=? LastIndex l sub) eqn:F; [apply found_later; [done|lia]|].
    destruct (starts sub (x :: l)) eqn:E; [by apply found_here|apply found_nowhere].
Qed.

(** Cutting just behind an occurrence. *)
Lemma cut_after i l sub : found_at i l sub -> 0 <= i ->
  exists a, firstn (Z.to_nat (i + Z.of_nat (length sub))) l = (a ++ sub)%list.
Proof.
  intros H Hi. destruct (H Hi) as (a & b & -> & Ha). exists a. rewrite app_assoc, firstn_app.
  rewrite firstn_all2 by (rewrite length_app; lia). rewrite length_app. replace (_ - _)%nat with 0%nat by lia. by rewrite app_nil_r.
Qed.

Lemma completeSSEPrefix_event v :
  completeSSEPrefix v = [] \/ ends_event (completeSSEPrefix v) /\ completeSSEPrefix v `prefix_of` v.
Proof.
  unfold completeSSEPrefix. destruct (LastIndex v blank_lf <? LastIndex v blank_crlf) eqn:C;
    [destruct (0 <=? LastIndex v blank_crlf) eqn:P|destruct (0 <=? LastIndex v blank_lf) eqn:P]; [right|exfalso|right|by left].
  - destruct (cut_after _ _ _ (LastIndex_found v blank_crlf) ltac:(lia)) as [a E]. simpl in E. rewrite E at 1.
    split; [by exists a; right|apply prefix_take].
  - assert (H : forall l, -1 <= LastIndex l blank_lf).
    { induction l as [|x l IH]; [by vm_compute|]. cbn [LastIndex]. destruct (0 <=? LastIndex l blank_lf); [lia|]. destruct (starts _ _); lia. }
    specialize (H v). lia.
  - destruct (cut_after _ _ _ (LastIndex_found v blank_lf) ltac:(lia)) as [a E]. simpl in E. rewrite E at 1.
    split; [by exists a; left|apply prefix_take].
Qed.

Lemma completeSSETail_event v :
  completeSSETail v = v \/ exists a, ends_event a /\ v = (a ++ completeSSETail v)%list.
Proof.
  unfold completeSSETail. destruct (0 <=? Index v blank_crlf) eqn:P; simpl.
  - destruct ((Index v blank_lf <? 0) || (Index v blank_crlf <? Index v blank_lf)) eqn:C.
    + right. destruct (cut_after _ _ _ (Index_found v blank_crlf) ltac:(lia)) as [a E]. simpl in E.
      exists (a ++ blank_crlf)%list. split; [by exists a; right|]. by rewrite <- E, firstn_skipn.
    + replace (0 <=? Index v blank_lf) with true by lia. right.
      destruct (cut_after _ _ _ (Index_found v blank_lf) ltac:(lia)) as [a E]. simpl in E.
      exists (a ++ blank_lf)%list. split; [by exists a; left|]. by rewrite <- E, firstn_skipn.
  - destruct (0 <=? Index v blank_lf) eqn:Q; [right|by left].
    destruct (cut_after _ _ _ (Index_found v blank_lf) ltac:(lia)) as [a E]. simpl in E.
    exists (a ++ blank_lf)%list. split; [by exists a; left|]. by rewrite <- E, firstn_skipn.
Qed.

Lemma head_tail_writes_parts chunks c :
  head_tail_writes chunks c
  = mkHeadTail (limited_writes chunks (ht_head c)) (tail_writes chunks (ht_tail c)) (ht_total c + Z.of_nat (length (concat chunks))).
Proof.
  revert c. induction chunks as [|v chunks IH]; intros c; simpl; [destruct c; simpl; by rewrite Z.add_0_r|].
  rewrite IH. simpl. f_equal. rewrite length_app. lia.
Qed.

(** A stream that fits the window is captured whole; of a longer one the
    capture keeps a beginning that ends with a finished event and an end that
    starts at the beginning of one, so no event is read in part. *)
Theorem headTailCapture_whole_events (headLimit tailLimit : nat) (chunks : list (list ascii)) :
  let stream := concat chunks in
  let c := head_tail_writes chunks (mkHeadTail (mkLimited [] headLimit false) (newTail tailLimit) 0) in
  ((length stream <= tailLimit)%nat -> head_tail_Bytes c = stream)
  /\ ((tailLimit < length stream)%nat -> exists head tail,
       head_tail_Bytes c = (head ++ tail)%list
       /\ (head = [] \/ ends_event head) /\ head `prefix_of` stream
       /\ tail `suffix_of` stream
       /\ (tail = lastn tailLimit stream \/ exists a, ends_event a /\ lastn tailLimit stream = (a ++ tail)%list)).
Proof.
  intros stream c. unfold head_tail_Bytes, c. rewrite head_tail_writes_parts. cbn [ht_tail ht_head ht_total].
  destruct (tail_writes_hold chunks _ _ (newTail_holds tailLimit)) as [_ El]. simpl in El. rewrite El.
  rewrite tailCapture_holds_tail. fold stream. split; intros H.
  - replace (_ <=? _) with true by lia. by apply lastn_short.
  - replace (_ <=? _) with false by lia. exists (completeSSEPrefix (firstn headLimit stream)), (completeSSETail (lastn tailLimit stream)).
    destruct (limited_writes_hold chunks headLimit) as [Eb _]. simpl in Eb. rewrite Eb. fold stream. split; [done|].
    assert (S : lastn tailLimit stream `suffix_of` stream) by (eexists; symmetry; apply firstn_skipn).
    destruct (completeSSEPrefix_event (firstn headLimit stream)) as [E|[E P]]; destruct (completeSSETail_event (lastn tailLimit stream)) as [F|(a & Ha & F)].
    all: split; [auto|]; split; [rewrite ?E; try apply prefix_nil; try (etrans; [apply P|apply prefix_take])|].
    all: split; [|eauto].
    all: try (by rewrite F). all: etrans; [|apply S]; rewrite F at 2; by eexists.
Qed.

Lemma headTailCapture_whole_events_witness :
  let text := String.list_ascii_of_string in
  let lines := [text "id: 1"; [lf; lf]; text "id: 22"; [lf]; [lf]; text "id: 3"; [lf; lf]; text "end"] in
  let c := head_tail_writes lines (mkHeadTail (mkLimited [] 12 false) (newTail 16) 0) in
  head_tail_Bytes c = (text "id: 1" ++ [lf; lf] ++ text "id: 3" ++ [lf; lf] ++ text "end")%list
  /\ exists head tail, head_tail_Bytes c = (head ++ tail)%list /\ tail `suffix_of` concat lines.
Proof.
  intros text lines c. split; [by vm_compute|].
  destruct (headTailCapture_whole_events 12 16 lines) as [_ H].
  destruct (H ltac:(vm_compute; lia)) as (head & tail & E & _ & _ & S & _). exists head, tail. split; [exact E|exact S].
Defined.
