(* ===== verification/Dispatch.v ===== *)
(** Dispatch ([internal/gateway/forward.go], [dispatch.go]): what the gateway
    settles after a provider answered. From the outcome of one attempt comes
    the settlement it reports, whether the next target is tried, and what is
    published afterwards; settlements that fail for a passing reason are
    repeated and then deferred. The provider's answer and the checks of single
    endpoints enter as the fields of [attempt_outcome]. *)
From S2P Require Import Prelude GoStd Money Counters Policy Json Decode Store Pricing PolicyService Admission Settlement Replays Tokens.
Open Scope string_scope.
Open Scope Z_scope.

(** * The request and the outcome of an attempt *)

(** What [forwardAuthorized] knows of the request when an attempt returns. *)
Record forwarded := mkForwarded {
  fw_upstreamPath : string; fw_scope : string; fw_recordDialect : string; fw_stream : bool; fw_inputEstimate : Z;
  fw_webSearch : bool; fw_anthropicWebSearch : bool; fw_anthropicWebFetch : bool; fw_fileSearch : bool; fw_promptCache : bool;
  fw_openAIBatch : bool; fw_opaqueMedia : bool; fw_storeResponse : bool; fw_storedChat : bool;
  fw_attached : option bool (* its deferStore *) }.

Definition hostedWebSearch (f : forwarded) : bool := fw_webSearch f || fw_anthropicWebSearch f.
Definition hostedWebTool (f : forwarded) : bool := hostedWebSearch f || fw_anthropicWebFetch f.

(** The errors an attempt ends with, as far as they are told apart. *)
Inductive copy_error := UpstreamInterrupted | FileSearchAccounted | OtherError.

Record attempt_outcome := mkOutcome {
  oc_native : bool; oc_adapter : string; oc_preset : string; oc_targetPath : string; oc_more : bool (* targets left *);
  oc_result : Z; oc_copyErr : option copy_error; oc_semantic : bool; oc_committed : bool;
  oc_raw : string; oc_body : string; oc_countedInput : option Z;
  oc_searchCalls : option Z; oc_searchKnown : bool; oc_fetchCalls : option Z; oc_fetchKnown : bool; oc_terminalFailure : bool;
  oc_attachFailed : bool; oc_attachTerminal : bool; oc_prepareFailed : bool; oc_chatFailed : bool; oc_turnFailed : bool;
  oc_cancelled : bool; oc_cancelledLate : bool; oc_firstWrite : option Z }.

Definition is_2xx (status : Z) : bool := (200 <=? status) && (status <? 300).

Definition retryableResult (status : Z) (err : bool) : bool :=
  if is_2xx status then false
  else err || (status =? 0) || (status =? 408) || (status =? 425) || (status =? 429) || (500 <=? status).

(** * Whether the attempt succeeded

    The checks after the response is in, each of which may end the success. *)

Record standing := mkStanding { sd_success : bool; sd_copyErr : option copy_error; sd_terminal : bool }.

Definition first_standing (o : attempt_outcome) : standing :=
  mkStanding (negb (is_some (oc_copyErr o)) && is_2xx (oc_result o) && negb (oc_terminalFailure o)) (oc_copyErr o) false.

(** The conversation turn of an attached response. *)
Definition attach_standing (f : forwarded) (o : attempt_outcome) (s : standing) : standing :=
  if sd_success s && is_some (fw_attached f) then
    if oc_attachFailed o then mkStanding false (Some OtherError) false
    else let terminal := fw_stream f && negb (oc_attachTerminal o) in mkStanding (negb terminal) None terminal
  else s.

Definition store_standing (f : forwarded) (o : attempt_outcome) (s : standing) : standing :=
  if (sd_success s || oc_terminalFailure o) && fw_storeResponse f then
    if oc_prepareFailed o then mkStanding false (Some OtherError) (sd_terminal s) else mkStanding (sd_success s) None (sd_terminal s)
  else s.

Definition chat_standing (f : forwarded) (o : attempt_outcome) (s : standing) : standing :=
  if sd_success s && fw_storedChat f then
    if oc_chatFailed o then mkStanding false (Some OtherError) (sd_terminal s) else mkStanding true None (sd_terminal s)
  else s.

Definition final_standing (f : forwarded) (o : attempt_outcome) : standing :=
  chat_standing f o (store_standing f o (attach_standing f o (first_standing o))).

(** * What the attempt used *)

Definition accountDialect (f : forwarded) (o : attempt_outcome) : string :=
  if oc_native o then fw_recordDialect f else if oc_adapter o =s "openai_compatible" then "openai" else oc_adapter o.
Definition accountRaw (f : forwarded) (o : attempt_outcome) : string :=
  if oc_native o && (fw_stream f && is_some (fw_attached f)) then oc_body o else oc_raw o.

Definition with_tokens (input output : option Z) (u : parsedUsage) : parsedUsage :=
  mkParsedUsage input output (pu_CacheCreation u) (pu_CacheRead u) (pu_Cache5m u) (pu_Cache1h u).

(** The variables of the settlement under construction. *)
Record tally := mkTally {
  ty_usage : parsedUsage; ty_cost : option Z; ty_searchCalls : option Z; ty_fetchCalls : option Z;
  ty_tools : Z; ty_toolStatus : string; ty_state : string; ty_status : string }.

Definition reported_usage (f : forwarded) (o : attempt_outcome) : parsedUsage :=
  let u := parseUsageDetails (accountDialect f o) (accountRaw f o) in
  let u := match oc_countedInput o with Some n => with_tokens (Some n) (Some 0) u | None => u end in
  if (oc_preset o =s "mistral") && (oc_targetPath o =s "audio/transcriptions") then with_tokens None None u else u.

Definition add_calls (calls : option Z) (t : Z * string) : Z * string :=
  match calls with
  | Some n => (wrap64 (fst t + n), if (snd t =s "none") && (0 <? n) then "completed" else snd t)
  | None => t
  end.

(** Prompt caching that is not accounted for, and endpoints that report no
    usage. The flag says the usage is an estimate. *)
Definition settled_usage (f : forwarded) (o : attempt_outcome) : parsedUsage * bool :=
  let success := sd_success (first_standing o) in
  let u := reported_usage f o in
  let u := if success && fw_promptCache f && (negb (is_some (pu_CacheCreation u)) || negb (is_some (pu_CacheRead u)))
           then no_parsed_usage else u in
  if success && ((fw_upstreamPath f =s "moderations") || (fw_upstreamPath f =s "systemone"))
     && negb (is_some (pu_Input u)) && negb (is_some (pu_Output u))
  then (with_tokens (Some (fw_inputEstimate f)) (Some 0) u, true) else (u, false).

(** State, status and cost before anything failed. *)
Definition opening_tally (f : forwarded) (o : attempt_outcome) (tools : Z * string) : tally :=
  let '(u, estimated) := settled_usage f o in
  let status := if estimated then "estimated"
                else if negb (is_some (pu_Input u)) || negb (is_some (pu_Output u)) then "unknown" else "provider_reported" in
  let cost := if (fw_scope f =s "tokens:count") && is_some (pu_Input u) then Some 0 else None in
  mkTally u cost (oc_searchCalls o) (oc_fetchCalls o) (fst tools) (snd tools) "succeeded" status.

Definition clear_usage (t : tally) : tally :=
  mkTally no_parsed_usage None (ty_searchCalls t) (ty_fetchCalls t) (ty_tools t) (ty_toolStatus t) (ty_state t) "unknown".
Definition clear_tools (t : tally) : tally :=
  mkTally (ty_usage t) (ty_cost t) (ty_searchCalls t) (ty_fetchCalls t) 0 "none" (ty_state t) (ty_status t).
Definition clear_search (t : tally) : tally :=
  mkTally (ty_usage t) (ty_cost t) None (ty_fetchCalls t) (ty_tools t) (ty_toolStatus t) (ty_state t) (ty_status t).
Definition clear_fetch (t : tally) : tally :=
  mkTally (ty_usage t) (ty_cost t) (ty_searchCalls t) None (ty_tools t) (ty_toolStatus t) (ty_state t) (ty_status t).
Definition set_state (state : string) (t : tally) : tally :=
  mkTally (ty_usage t) (ty_cost t) (ty_searchCalls t) (ty_fetchCalls t) (ty_tools t) (ty_toolStatus t) state (ty_status t).
Definition set_status (status : string) (t : tally) : tally :=
  mkTally (ty_usage t) (ty_cost t) (ty_searchCalls t) (ty_fetchCalls t) (ty_tools t) (ty_toolStatus t) (ty_state t) status.

(** Server tools whose use the provider did not report. *)
Definition search_tally (f : forwarded) (o : attempt_outcome) (t : tally) : tally :=
  if hostedWebSearch f && ((ty_status t =s "unknown") || negb (oc_searchKnown o))
  then clear_tools (clear_search (clear_usage t)) else t.
Definition fetch_tally (f : forwarded) (o : attempt_outcome) (t : tally) : tally :=
  if fw_anthropicWebFetch f && ((ty_status t =s "unknown") || negb (oc_fetchKnown o))
  then clear_tools (clear_fetch (clear_usage t)) else t.

Definition fileSearchUsageKnown (f : forwarded) (o : attempt_outcome) : bool :=
  match oc_copyErr o with Some FileSearchAccounted => true | _ => fw_fileSearch f && sd_success (first_standing o) end.

(** An attempt that failed: its usage is unknown, or nothing when the provider
    refused the request. *)
Definition failed_tally (f : forwarded) (o : attempt_outcome) (s : standing) (t : tally) : tally :=
  if sd_success s then t
  else
    let t := clear_search t in
    let t := if hostedWebTool f then clear_tools t else t in
    let t := set_state "failed" t in
    if negb (sd_terminal s) && negb (fileSearchUsageKnown f o) then
      let t := clear_usage t in
      if negb (hostedWebTool f) && (400 <=? oc_result o) && (oc_result o <? 500) && negb (is_some (sd_copyErr s))
      then mkTally (with_tokens (Some 0) (Some 0) no_parsed_usage) (Some 0) (ty_searchCalls t) (ty_fetchCalls t) (ty_tools t)
             (ty_toolStatus t) (ty_state t) "estimated"
      else t
    else t.

Definition cache_tally (f : forwarded) (s : standing) (t : tally) : tally :=
  if fw_promptCache f && negb (sd_success s) then clear_usage t else t.

Definition tool_tally (s : standing) (t : tally) : tally :=
  if is_some (sd_copyErr s) && (0 <? ty_tools t)
  then mkTally (ty_usage t) (ty_cost t) (ty_searchCalls t) (ty_fetchCalls t) (ty_tools t) "incomplete" (ty_state t) (ty_status t) else t.

(** The client went away. *)
Definition cancelled_tally (f : forwarded) (o : attempt_outcome) (t : tally) : tally :=
  if oc_cancelled o then
    let t := set_status "unknown" (set_state "interrupted_unknown" t) in
    if hostedWebTool f then clear_tools (clear_fetch (clear_search (clear_usage t))) else t
  else t.

Definition tools_of (f : forwarded) (o : attempt_outcome) : option (Z * string) :=
  t ← parseToolMetadata (accountDialect f o) (accountRaw f o); Some (add_calls (oc_fetchCalls o) (add_calls (oc_searchCalls o) t)).

Definition final_tally (f : forwarded) (o : attempt_outcome) (tools : Z * string) : tally :=
  let s := final_standing f o in
  cancelled_tally f o (tool_tally s (cache_tally f s (failed_tally f o s (fetch_tally f o (search_tally f o (opening_tally f o tools)))))).

(** * What follows *)

Definition retryableDispatchError (o : attempt_outcome) : bool :=
  negb (oc_semantic o)
  && match oc_copyErr o with Some UpstreamInterrupted => true | Some _ => oc_native o | None => false end.

(** Whether the next target is tried. *)
Definition retry (f : forwarded) (o : attempt_outcome) : bool :=
  let s := final_standing f o in
  negb (fw_openAIBatch f) && negb (fw_opaqueMedia f) && negb (fw_promptCache f) && negb (hostedWebTool f) && negb (fw_fileSearch f)
  && negb (sd_terminal s) && oc_more o && (retryableDispatchError o || retryableResult (oc_result o) (is_some (sd_copyErr s)))
  && negb (oc_committed o) && negb (oc_cancelled o).

Definition deferredAttachment (f : forwarded) : bool := match fw_attached f with Some defer => defer | None => false end.

(** The conversation turn is stored before the settlement. *)
Definition turn_failed (f : forwarded) (o : attempt_outcome) : bool :=
  sd_success (final_standing f o) && is_some (fw_attached f) && negb (fw_storeResponse f) && negb (deferredAttachment f) && oc_turnFailed o.

Definition publishAfterSettlement (f : forwarded) (o : attempt_outcome) (state : string) : bool :=
  let s := final_standing f o in
  negb (deferredAttachment f)
  && (sd_success s && (state =s "succeeded") && (fw_storeResponse f || fw_storedChat f)
      || oc_terminalFailure o && (state =s "failed") && fw_storeResponse f).

(** The settlement of the attempt; [None] is a run-time panic. *)
Definition settlement_of (f : forwarded) (o : attempt_outcome) (attemptID : string) : option SettlementInput :=
  tools ← tools_of f o;
  let t := final_tally f o tools in
  let u := ty_usage t in
  let final := negb (retry f o) && negb (turn_failed f o) && negb (publishAfterSettlement f o (ty_state t))
               && negb (deferredAttachment f && sd_success (final_standing f o) && negb (oc_cancelledLate o)) in
  Some (mkSettlementInput ("dispatch:" +:+ attemptID) (ty_state t) (ty_status t) (pu_Input u) (pu_Output u) (pu_CacheCreation u)
    (pu_CacheRead u) (pu_Cache5m u) (pu_Cache1h u) (ty_cost t) (ty_searchCalls t) (ty_tools t) (ty_toolStatus t) final (oc_firstWrite o)).

(** * Settlements the ledger accepts *)

(** The states and statuses [Settle] knows, as the tally writes them. *)
Definition known_state (s : string) : Prop := s = "succeeded" \/ s = "failed" \/ s = "interrupted_unknown".
Definition known_status (s : string) : Prop := s = "provider_reported" \/ s = "estimated" \/ s = "unknown".

Record tally_ok (t : tally) : Prop := {
  to_usage : reportable (ty_usage t);
  to_tools : tools_agree (ty_tools t) (ty_toolStatus t);
  to_cost : ty_cost t = None \/ ty_cost t = Some 0;
  to_search : match ty_searchCalls t with Some n => 0 <= n <= 4 | None => True end;
  to_state : known_state (ty_state t);
  to_status : known_status (ty_status t) }.

Lemma tools_agree_none : tools_agree 0 "none".
Proof. unfold tools_agree. auto with lia. Qed.

Lemma clear_usage_ok t : tally_ok t -> tally_ok (clear_usage t).
Proof. intros []. split; simpl; auto using no_usage_reportable. unfold known_status; auto. Qed.
Lemma clear_tools_ok t : tally_ok t -> tally_ok (clear_tools t).
Proof. intros []. split; simpl; auto using tools_agree_none. Qed.
Lemma clear_search_ok t : tally_ok t -> tally_ok (clear_search t).
Proof. intros []. by split. Qed.
Lemma clear_fetch_ok t : tally_ok t -> tally_ok (clear_fetch t).
Proof. intros []. by split. Qed.
Lemma set_state_ok st t : known_state st -> tally_ok t -> tally_ok (set_state st t).
Proof. intros ? []. by split. Qed.
Lemma set_status_ok us t : known_status us -> tally_ok t -> tally_ok (set_status us t).
Proof. intros ? []. by split. Qed.

Create HintDb tally.
#[local] Hint Resolve clear_usage_ok clear_tools_ok clear_search_ok clear_fetch_ok set_state_ok set_status_ok : tally.
#[local] Hint Unfold known_state known_status : tally.

Lemma counted_reportable u n :
  0 <= n <= maxSafeInteger -> pu_CacheCreation u = None -> pu_CacheRead u = None -> pu_Cache5m u = None -> pu_Cache1h u = None ->
  reportable (with_tokens (Some n) (Some 0) u).
Proof. intros Hn C R F O. split; simpl; rewrite ?C, ?R, ?F, ?O; simpl; [done|repeat constructor; simpl; lia|lia|by left]. Qed.

Lemma search_tally_ok f o t : tally_ok t -> tally_ok (search_tally f o t).
Proof. unfold search_tally. destruct (_ && _); auto with tally. Qed.
Lemma fetch_tally_ok f o t : tally_ok t -> tally_ok (fetch_tally f o t).
Proof. unfold fetch_tally. destruct (_ && _); auto with tally. Qed.
Lemma cache_tally_ok f s t : tally_ok t -> tally_ok (cache_tally f s t).
Proof. unfold cache_tally. destruct (_ && _); auto with tally. Qed.
Lemma cancelled_tally_ok f o t : tally_ok t -> tally_ok (cancelled_tally f o t).
Proof. unfold cancelled_tally. destruct (oc_cancelled o), (hostedWebTool f); auto 10 with tally. Qed.
Lemma tool_tally_ok s t : tally_ok t -> tally_ok (tool_tally s t).
Proof.
  unfold tool_tally. intros H. destruct (is_some (sd_copyErr s) && (0 <? ty_tools t)) eqn:E; [|done]. apply andb_true_iff in E as [_ E].
  destruct H as [? (? & _) ? ? ? ?]. split; simpl; auto. unfold tools_agree. auto with lia.
Qed.
Lemma failed_tally_ok f o s t : tally_ok t -> tally_ok (failed_tally f o s t).
Proof.
  intros H. unfold failed_tally. destruct (sd_success s); [done|].
  set (t' := set_state "failed" _). assert (H' : tally_ok t') by (unfold t'; destruct (hostedWebTool f); auto 10 with tally).
  clearbody t'. destruct (_ && negb (fileSearchUsageKnown f o)); [|done]. destruct (_ && _); [|auto with tally].
  destruct H'. split; simpl; auto with tally. by apply counted_reportable.
Qed.
#[local] Hint Resolve search_tally_ok fetch_tally_ok cache_tally_ok cancelled_tally_ok tool_tally_ok failed_tally_ok : tally.

(** ** Responses that settle badly *)

(** A response object with the gateway's own tool count and a status that does
    not belong to it. *)
Definition forged_count (v : object) : bool :=
  match integer (field v "_gateway_tool_call_count") with
  | Some n =>
    let status := stringValue (field v "_gateway_tool_call_status") in
    negb ((n =? 0) && (status =s "none") || (0 <? n) && ((status =s "completed") || (status =s "incomplete")))
  | None => false
  end.
Definition forged_tools (f : forwarded) (o : attempt_outcome) : bool := existsb forged_count (well_decoded (accountRaw f o)).

(** Cache counts that the input tokens of the attempt, counted by the endpoint
    or cleared by it, do not cover. *)
Definition stranded_cache (f : forwarded) (o : attempt_outcome) : bool :=
  let u := reported_usage f o in
  match pu_Input u with
  | Some input => input <? default 0 (pu_CacheCreation u) + default 0 (pu_CacheRead u)
  | None => is_some (pu_CacheCreation u) || is_some (pu_CacheRead u)
  end.

(** A success with both Anthropic web tools that reports its searches and not
    its fetches. *)
Definition unreported_fetch (f : forwarded) (o : attempt_outcome) : bool :=
  hostedWebSearch f && fw_anthropicWebFetch f && sd_success (final_standing f o) && negb (oc_cancelled o) &&
  oc_searchKnown o && negb (oc_fetchKnown o).

Lemma honest_count v : forged_count v = false -> honest_metadata v.
Proof.
  unfold forged_count, honest_metadata, tools_agree. intros H n E. rewrite E in H.
  apply negb_false_iff, orb_true_iff in H as [[H1 H2]%andb_true_iff|[H1 H2]%andb_true_iff].
  - apply String.eqb_eq in H2. split; [lia|left; split; [lia|done]].
  - apply orb_true_iff in H2 as [H2%String.eqb_eq|H2%String.eqb_eq]; (split; [lia|right; split; [lia|auto]]).
Qed.

Section Acceptance.
Variables (f : forwarded) (o : attempt_outcome) (maxCalls : Z).

(** What admission and the readers of the endpoint leave true of every
    outcome: the estimate and the counts are safe integers, the searches are
    within the limit of the request, and a known number of searches is a
    number. *)
Record plausible : Prop := {
  pl_tools : forall n s, parseToolMetadata (accountDialect f o) (accountRaw f o) = Some (n, s) -> n <= maxSafeInteger;
  pl_estimate : 0 <= fw_inputEstimate f <= maxSafeInteger;
  pl_counted : count_ok (oc_countedInput o);
  pl_max : 0 <= maxCalls <= 4;
  pl_search : match oc_searchCalls o with Some n => hostedWebSearch f = true /\ 0 <= n <= maxCalls | None => True end;
  pl_fetch : match oc_fetchCalls o with Some n => 0 <= n <= maxSafeInteger | None => True end;
  pl_known : hostedWebSearch f = true -> sd_success (first_standing o) = true -> oc_searchKnown o = true -> oc_searchCalls o <> None }.
Hypothesis P : plausible.
Hypothesis (Htools : forged_tools f o = false) (Hcache : stranded_cache f o = false).

Lemma reported_usage_reportable : reportable (reported_usage f o).
Proof.
  pose proof Hcache as C. unfold stranded_cache in C. cbv zeta in C. pose proof (parseUsageDetails_reportable (accountDialect f o) (accountRaw f o)) as [_ S _ D].
  pose proof (pl_counted P) as N. unfold reported_usage in C |- *. cbv zeta in C |- *. rewrite !Forall_cons in S. destruct S as (S1 & S2 & S3 & S4 & S5 & S6 & _).
  destruct (_ && _) in C |- *; [|destruct (oc_countedInput o) as [n|]; [|by apply parseUsageDetails_reportable]].
  - assert (K : forall u, pu_Input (with_tokens None None u) = None) by done.
    destruct (oc_countedInput o); cbn in C |- *; apply orb_false_iff in C as [C1 C2];
      (split; cbn; [done|repeat constructor; done|by destruct (pu_CacheCreation _), (pu_CacheRead _)|exact D]).
  - cbn in C, N |- *. split; cbn; [done|repeat constructor; cbn; try done; try lia|lia|exact D].
Qed.

Lemma settled_usage_reportable : reportable (fst (settled_usage f o)).
Proof.
  unfold settled_usage. pose proof reported_usage_reportable as R. pose proof (pl_estimate P).
  set (u := if _ && fw_promptCache f && _ then no_parsed_usage else _).
  assert (Ru : reportable u) by (unfold u; destruct (_ && _); auto using no_usage_reportable). clearbody u.
  destruct (_ && negb (is_some (pu_Input u)) && _) eqn:E; [|done]. apply andb_true_iff in E as [E _]. apply andb_true_iff in E as [_ E].
  destruct Ru as [B S Cc D]. destruct (pu_Input u) as [|]; [done|]. destruct Cc as [C1 C2].
  destruct D as [[D1 D2]|D]; [|rewrite C1 in D; discriminate]. by apply counted_reportable.
Qed.

Lemma add_calls_agree calls t :
  tools_agree (fst t) (snd t) -> match calls with Some n => 0 <= n <= maxSafeInteger | None => True end -> fst t <= 2 * maxSafeInteger ->
  tools_agree (fst (add_calls calls t)) (snd (add_calls calls t)) /\ fst (add_calls calls t) <= fst t + maxSafeInteger.
Proof.
  unfold add_calls. destruct calls as [n|]; [|unfold maxSafeInteger; intros; split; [done|lia]]. unfold tools_agree, maxSafeInteger. simpl. intros (T0 & T) Hn Hb.
  rewrite wrap64_id by (unfold in_int64, min_int64, max_int64; lia). split; [|lia]. split; [lia|].
  destruct T as [[T1 T2]|[T1 T2]].
  - rewrite T1, T2. simpl. destruct (0 <? n) eqn:E; [right|left]; auto with lia.
  - right. destruct T2 as [->| ->]; simpl; auto with lia.
Qed.

Lemma honest_objects : Forall honest_metadata (well_decoded (accountRaw f o)).
Proof.
  apply Forall_forall. intros v Hv. apply honest_count. destruct (forged_count v) eqn:E; [|done].
  enough (forged_tools f o = true) by congruence. apply existsb_exists. exists v. by rewrite <- list_elem_of_In.
Qed.

Lemma tools_of_agree tools : tools_of f o = Some tools -> tools_agree (fst tools) (snd tools).
Proof.
  unfold tools_of. destruct (parseToolMetadata _ _) as [[n s]|] eqn:E; [|done]. simpl. intros [= <-].
  pose proof (parseToolMetadata_agrees _ _ _ _ honest_objects E) as T. pose proof (pl_tools P n s E) as B.
  pose proof (pl_search P) as Sc. pose proof (pl_max P). pose proof (pl_fetch P) as F.
  destruct (add_calls_agree (oc_searchCalls o) (n, s) T) as [T1 B1]; [destruct (oc_searchCalls o); unfold maxSafeInteger; lia|simpl; unfold maxSafeInteger in *; lia|].
  by destruct (add_calls_agree (oc_fetchCalls o) _ T1 F) as [T2 _]; [simpl in B1; lia|].
Qed.

Lemma opening_tally_ok tools : tools_agree (fst tools) (snd tools) -> tally_ok (opening_tally f o tools).
Proof.
  intros T. unfold opening_tally. pose proof settled_usage_reportable as R. destruct (settled_usage f o) as [u estimated]. simpl in R.
  split; simpl; auto with tally.
  - destruct (_ && _); auto.
  - pose proof (pl_search P). pose proof (pl_max P). destruct (oc_searchCalls o); lia.
  - destruct estimated; auto with tally. destruct (_ || _); auto with tally.
Qed.

Lemma final_tally_ok tools : tools_agree (fst tools) (snd tools) -> tally_ok (final_tally f o tools).
Proof. intros T. unfold final_tally. auto 10 using opening_tally_ok with tally. Qed.
End Acceptance.

(** A success that survives the later checks was one to begin with. *)
Lemma final_success f o : sd_success (final_standing f o) = true -> sd_success (first_standing o) = true.
Proof.
  unfold final_standing, chat_standing, store_standing, attach_standing.
  generalize (first_standing o). intros s0. destruct (sd_success s0) eqn:E; [done|].
  cbn [andb orb]. rewrite E. cbn [orb].
  destruct (oc_terminalFailure o && fw_storeResponse f); [destruct (oc_prepareFailed o)|]; cbn; rewrite ?E; cbn; rewrite ?E; done.
Qed.

(** No calls are reported by an attempt without the tool. *)
Definition no_search (t : tally) : Prop := ty_searchCalls t = None.
Lemma no_search_stages f o s t : no_search t ->
  no_search (search_tally f o t) /\ no_search (fetch_tally f o t) /\ no_search (failed_tally f o s t)
  /\ no_search (cache_tally f s t) /\ no_search (tool_tally s t) /\ no_search (cancelled_tally f o t).
Proof.
  intros H. unfold no_search, search_tally, fetch_tally, failed_tally, cache_tally, tool_tally, cancelled_tally in *. cbv zeta.
  repeat split; repeat (match goal with |- context [if ?b then _ else _] => destruct b end; try done).
Qed.

Lemma final_tally_no_search f o tools : oc_searchCalls o = None -> ty_searchCalls (final_tally f o tools) = None.
Proof.
  intros H. apply (no_search_stages f o (final_standing f o)), no_search_stages, no_search_stages, no_search_stages; try done.
  apply (no_search_stages f o (final_standing f o)), (no_search_stages f o (final_standing f o)).
  unfold no_search, opening_tally. by destruct (settled_usage f o).
Qed.

(** A failed attempt reports no web searches. *)
Lemma failed_reports_no_search f o s t : sd_success s = false ->
  ty_searchCalls (failed_tally f o s t) = None /\ ty_state (failed_tally f o s t) = "failed".
Proof.
  intros H. unfold failed_tally. rewrite H. destruct (hostedWebTool f); destruct (_ && negb (fileSearchUsageKnown f o)); simpl; try done;
    destruct (_ && _); done.
Qed.

(** The later stages touch neither calls nor state; cancelling clears a hosted
    tool's calls and marks the usage unknown. *)
Lemma late_search f s t :
  ty_searchCalls (tool_tally s (cache_tally f s t)) = ty_searchCalls t /\ ty_state (tool_tally s (cache_tally f s t)) = ty_state t.
Proof. unfold tool_tally, cache_tally. by repeat case_match. Qed.

Definition search_limit (f : forwarded) (maxCalls : Z) : option Z := if hostedWebSearch f then Some maxCalls else None.

Definition reported (t : tally) : bool := (ty_state t =s "succeeded") && negb (ty_status t =s "unknown").

Lemma final_search_rule f o maxCalls tools :
  plausible f o maxCalls -> unreported_fetch f o = false ->
  web_search_ok (search_limit f maxCalls) (ty_searchCalls (final_tally f o tools)) (reported (final_tally f o tools)) = true.
Proof.
  intros P Hfetch. unfold search_limit. destruct (hostedWebSearch f) eqn:Eh.
  2: { rewrite final_tally_no_search; [done|]. pose proof (pl_search _ _ _ P) as S. destruct (oc_searchCalls o); [|done].
       destruct S as [S _]. by rewrite Eh in S. }
  unfold final_tally. assert (Ht : hostedWebTool f = true) by (unfold hostedWebTool; by rewrite Eh).
  unfold cancelled_tally at 1 2. destruct (oc_cancelled o) eqn:Ec; [rewrite Ht; reflexivity|].
  set (s := final_standing f o). destruct (sd_success s) eqn:Es.
  2: { set (t := failed_tally f o s _). destruct (late_search f s t) as [E1 E2].
       destruct (failed_reports_no_search f o s (fetch_tally f o (search_tally f o (opening_tally f o tools))) Es) as [F1 F2].
       unfold reported. rewrite E1, E2. fold t in F1, F2. by rewrite F1, F2. }
  assert (Ef : sd_success (first_standing o) = true) by (apply (final_success f); done).
  set (t0 := opening_tally f o tools). assert (E0 : ty_searchCalls t0 = oc_searchCalls o /\ ty_state t0 = "succeeded").
  { unfold t0, opening_tally. by destruct (settled_usage f o). }
  destruct E0 as [E01 E02]. pose proof (pl_search _ _ _ P) as S. pose proof (pl_known _ _ _ P Eh Ef) as K.
  unfold failed_tally, cache_tally. rewrite Es, andb_false_r. unfold tool_tally.
  assert (R : forall b t, web_search_ok (Some maxCalls) (ty_searchCalls t) (reported t) = true ->
    web_search_ok (Some maxCalls)
      (ty_searchCalls (if b : bool then mkTally (ty_usage t) (ty_cost t) (ty_searchCalls t) (ty_fetchCalls t) (ty_tools t) "incomplete" (ty_state t) (ty_status t) else t))
      (reported (if b then mkTally (ty_usage t) (ty_cost t) (ty_searchCalls t) (ty_fetchCalls t) (ty_tools t) "incomplete" (ty_state t) (ty_status t) else t)) = true)
    by (by intros []).
  apply R. clear R. unfold search_tally. rewrite Eh. cbn [andb]. destruct ((ty_status t0 =s "unknown") || negb (oc_searchKnown o)) eqn:U.
  - unfold fetch_tally, reported. destruct (fw_anthropicWebFetch f); cbn; by rewrite andb_false_r.
  - apply orb_false_iff in U as [U1 U2]. apply negb_false_iff in U2.
    assert (F : fetch_tally f o t0 = t0).
    { unfold fetch_tally. rewrite U1. unfold unreported_fetch in Hfetch. fold s in Hfetch. rewrite Eh, Es, Ec, U2 in Hfetch. cbn in Hfetch.
      destruct (fw_anthropicWebFetch f); [|done]. cbn in Hfetch. apply negb_false_iff in Hfetch. by rewrite Hfetch. }
    rewrite F. unfold reported. rewrite E02, U1, E01. simpl. specialize (K U2). destruct (oc_searchCalls o) as [n|]; [|done]. simpl. lia.
Qed.

(** ** The checks of [Settle] *)

Lemma count_ok_good v : count_ok v -> bad_count v = false.
Proof. unfold count_ok, bad_count. destruct v; [lia|done]. Qed.

Lemma count_default v : count_ok v -> 0 <= default 0 v <= maxSafeInteger.
Proof. destruct v; simpl; unfold maxSafeInteger; lia. Qed.

Lemma safe_sum a b : 0 <= a <= maxSafeInteger -> 0 <= b <= maxSafeInteger -> checkedAdd [a; b] = Some (a + b).
Proof.
  unfold maxSafeInteger. intros. rewrite checkedAdd2 by (unfold in_int64, min_int64, max_int64; lia).
  apply decide_True. unfold in_int64, min_int64, max_int64. lia.
Qed.

Lemma reportable_values u : reportable u ->
  Forall (fun v => bad_count v = false) [pu_Input u; pu_Output u; pu_CacheCreation u; pu_CacheRead u; pu_Cache5m u; pu_Cache1h u].
Proof. intros [_ S _ _]. eapply Forall_impl; [exact S|]. apply count_ok_good. Qed.

Lemma reportable_cache u : reportable u ->
  let creation := default 0 (pu_CacheCreation u) in
  checkedAdd [creation; default 0 (pu_CacheRead u)] = Some (creation + default 0 (pu_CacheRead u))
  /\ checkedAdd [default 0 (pu_Cache5m u); default 0 (pu_Cache1h u)] = Some (default 0 (pu_Cache5m u) + default 0 (pu_Cache1h u))
  /\ (is_some (pu_CacheCreation u) || is_some (pu_CacheRead u)) && negb (is_some (pu_Input u)) = false
  /\ match pu_Input u with Some input => input <? creation + default 0 (pu_CacheRead u) | None => false end = false
  /\ (is_some (pu_Cache5m u) || is_some (pu_Cache1h u))
     && (negb (is_some (pu_CacheCreation u)) || negb (default 0 (pu_Cache5m u) + default 0 (pu_Cache1h u) =? creation)) = false.
Proof.
  intros [_ S C D]. rewrite !Forall_cons in S. destruct S as (_ & _ & S3 & S4 & S5 & S6 & _). cbn zeta.
  rewrite !safe_sum by (by apply count_default). repeat split.
  - destruct (pu_Input u); [by rewrite andb_false_r|]. destruct C as [-> ->]. done.
  - destruct (pu_Input u); [lia|done].
  - destruct D as [[-> ->]|D]; [done|]. rewrite D. simpl. rewrite Z.eqb_refl. apply andb_false_r.
Qed.

Lemma tally_checked t key final first :
  tally_ok t -> key <> "" ->
  let u := ty_usage t in
  let i := mkSettlementInput key (ty_state t) (ty_status t) (pu_Input u) (pu_Output u) (pu_CacheCreation u) (pu_CacheRead u) (pu_Cache5m u)
             (pu_Cache1h u) (ty_cost t) (ty_searchCalls t) (ty_tools t) (ty_toolStatus t) final first in
  exists st us, check_settlement i (ty_toolStatus t) = Ok (st, us)
    /\ settled_state_of (ty_state t) = Some st /\ usage_status_of (ty_status t) = Some us
    /\ reported t = bool_decide (st = AtSucceeded) && negb (bool_decide (us = UsUnknown)).
Proof.
  intros [R T C S St Us] Hk u i. pose proof (reportable_values _ R) as V. destruct (reportable_cache _ R) as (K1 & K2 & K3 & K4 & K5).
  rewrite !Forall_cons in V. destruct V as (V1 & V2 & V3 & V4 & V5 & V6 & _). fold u in V1, V2, V3, V4, V5, V6, K1, K2, K3, K4, K5.
  assert (E : exists st us, settled_state_of (ty_state t) = Some st /\ usage_status_of (ty_status t) = Some us
     /\ reported t = bool_decide (st = AtSucceeded) && negb (bool_decide (us = UsUnknown))).
  { unfold reported. destruct St as [-> |[-> | ->]], Us as [-> |[-> | ->]]; eexists _, _; split_and!; reflexivity. }
  destruct E as (st & us & E1 & E2 & E3). exists st, us. split; [|done]. unfold check_settlement, i. cbn [si_IdempotencyKey si_State si_UsageStatus
    si_InputTokens si_OutputTokens si_CacheCreation si_CacheRead si_Cache5m si_Cache1h si_CostNanos si_WebSearchCalls si_ToolCalls].
  rewrite E1, E2, V1, V2, V3, V4, V5, V6, K1, K2, K3, K4. apply String.eqb_neq in Hk. rewrite Hk. cbn [is_some negb orb andb].
  rewrite K5. cbn [orb ensure mbind result_bind].
  assert (T' : (ty_tools t <? 0) || negb (contains ["none"; "completed"; "incomplete"] (ty_toolStatus t))
     || (ty_tools t =? 0) && negb (ty_toolStatus t =s "none") || (0 <? ty_tools t) && (ty_toolStatus t =s "none") = false).
  { destruct T as (T0 & [[T1 ->]|[T1 [-> | ->]]]); cbn; lia. }
  rewrite T'. cbn [negb ensure mbind result_bind].
  destruct C as [-> | ->], (ty_searchCalls t); cbn; try done; by replace ((z <? 0) || (4 <? z)) with false by lia.
Qed.


(** * Retries *)

(** The settlement a live attempt's request stays open for. *)
Lemma retry_fails f o : retry f o = true -> sd_success (final_standing f o) = false /\ oc_cancelled o = false /\ oc_committed o = false.
Proof.
  unfold retry. rewrite !andb_true_iff, !negb_true_iff. intros [[[_ R] C] X]. repeat split; [|done..].
  destruct (sd_success (final_standing f o)) eqn:E; [|done]. apply final_success in E. unfold first_standing in E. simpl in E.
  apply andb_true_iff in E as [E _]. apply andb_true_iff in E as [E1 E2].
  unfold retryableDispatchError, retryableResult in R. rewrite E2, orb_false_r in R. destruct (oc_copyErr o); [done|].
  by rewrite andb_false_r in R.
Qed.

(** C12: another target is tried only after an attempt that failed, of which
    the client has seen nothing; its settlement says so and leaves the request
    open for the next attempt. *)
Theorem retry_after_failure (f : forwarded) (o : attempt_outcome) (attemptID : string) (i : SettlementInput) :
  settlement_of f o attemptID = Some i -> retry f o = true ->
  si_State i = "failed" /\ si_FinalRequest i = false /\ si_WebSearchCalls i = None /\ oc_committed o = false /\ oc_more o = true.
Proof.
  intros H R. destruct (retry_fails f o R) as (S & C & X). unfold settlement_of in H.
  destruct (tools_of f o) as [tools|]; [|done]. cbn in H. injection H as <-. cbn [si_State si_FinalRequest si_WebSearchCalls].
  unfold final_tally, cancelled_tally. rewrite C.
  destruct (late_search f (final_standing f o) (failed_tally f o (final_standing f o) (fetch_tally f o (search_tally f o (opening_tally f o tools))))) as [L1 L2].
  destruct (failed_reports_no_search f o (final_standing f o) (fetch_tally f o (search_tally f o (opening_tally f o tools))) S) as [F1 F2].
  rewrite L1, L2, F1, F2. rewrite R. repeat split; try done.
  unfold retry in R. rewrite !andb_true_iff in R. tauto.
Qed.

(** A request with both Anthropic web tools whose response reports its
    searches but not its fetches yields a settlement that [Settle] rejects,
    on every database and at every repetition, with an error the gateway takes
    for a passing one: the attempt keeps its reservations and its lease. *)
Theorem unreported_fetch_never_settles (f : forwarded) (o : attempt_outcome) (attemptID : string) (i : SettlementInput) :
  settlement_of f o attemptID = Some i ->
  hostedWebSearch f = true -> fw_anthropicWebFetch f = true ->
  sd_success (final_standing f o) = true -> oc_cancelled o = false ->
  snd (settled_usage f o) = true \/ is_some (pu_Input (fst (settled_usage f o))) && is_some (pu_Output (fst (settled_usage f o))) = true ->
  oc_searchKnown o = true -> is_some (oc_searchCalls o) = true -> oc_fetchKnown o = false ->
  forall (e : env) (s : db) (a : AttemptRow), t_attempts s !! attemptID = Some a -> is_some (as_WebSearchMax (at_Snapshot a)) = true ->
  exists text, Settle e attemptID i s = (Err (Msg text), s).
Proof.
  intros H Eh Ef Es Ec Eu Ek Ecalls Efk e s a Ha Hmax.
  unfold settlement_of in H. destruct (tools_of f o) as [tools|]; [|done]. cbn in H. injection H as <-.
  set (st0 := opening_tally f o tools). assert (H0 : ty_status st0 <> "unknown" /\ ty_searchCalls st0 = oc_searchCalls o /\ ty_state st0 = "succeeded").
  { unfold st0, opening_tally. destruct (settled_usage f o) as [u est]. cbn in *. split; [|done]. destruct est; [done|].
    destruct Eu as [?|Eu]; [done|]. apply andb_true_iff in Eu as [-> ->]. done. }
  destruct H0 as (S0 & C0 & T0). apply String.eqb_neq in S0.
  assert (E1 : search_tally f o st0 = st0) by (unfold search_tally; by rewrite S0, Ek, andb_false_r).
  assert (E2 : ty_status (fetch_tally f o st0) = "unknown" /\ ty_searchCalls (fetch_tally f o st0) = oc_searchCalls o
               /\ ty_state (fetch_tally f o st0) = "succeeded").
  { unfold fetch_tally. rewrite Ef, Efk, orb_true_r. cbn. by rewrite C0, T0. }
  assert (E3 : ty_status (final_tally f o tools) = "unknown" /\ ty_searchCalls (final_tally f o tools) = oc_searchCalls o
               /\ ty_state (final_tally f o tools) = "succeeded").
  { unfold final_tally, cancelled_tally. rewrite Ec. fold st0. rewrite E1. unfold tool_tally, cache_tally, failed_tally.
    rewrite Es, andb_false_r. destruct (is_some (sd_copyErr _) && _); exact E2. }
  destruct E3 as (F1 & F2 & F3). unfold Settle. destruct (check_settlement _ _) as [[st us]|err] eqn:Ck.
  - exists "invalid web search settlement". cbn in Ck |- *.
    assert (Eus : us = UsUnknown).
    { unfold check_settlement in Ck. cbn in Ck. rewrite F1, F3 in Ck. cbn in Ck.
      repeat (apply result_bind_Ok in Ck as (? & _ & Ck)). by injection Ck as <- <-. }
    unfold commit, settle_tx, mbind, tx_bind, get_row, require. rewrite Ha. cbn. rewrite Eus, F2. cbn.
    destruct (as_WebSearchMax (at_Snapshot a)); [|done]. destruct (oc_searchCalls o); [|done]. cbn. by rewrite andb_false_r.
  - unfold check_settlement, ensure, mbind, result_bind in Ck. rewrite F1, F3 in Ck || idtac.
    repeat (match type of Ck with (match (if ?b then _ else _) with Ok _ => _ | Err _ => _ end) = _ => destruct b; [|injection Ck as <-; by eexists] end).
    cbn in Ck. rewrite ?F1, ?F3 in Ck. cbn in Ck. discriminate Ck.
Qed.
