(* ===== verification/Deferral.v ===== *)
(** Delivering a settlement ([internal/gateway/dispatch.go]): the handler
    repeats a settlement that failed for a passing reason, keeps it in memory
    when it goes on failing, and a background worker repeats the kept ones.
    Each call of [Settle] may reach the database, be refused, or be carried
    out and have its answer lost. *)
From S2P Require Import Prelude GoStd Money Counters Policy Json Store Pricing PolicyService Admission Settlement Replays.
Open Scope string_scope.
Open Scope Z_scope.
Open Scope list_scope.

Inductive delivery := Delivered | Refused | AnswerLost.

(** The error of a call whose two seconds are over. *)
Definition deadline_exceeded : error := Msg "context deadline exceeded".

(** One call of the usage service. *)
Definition call_settle (call : env * delivery) (attemptID : string) (i : SettlementInput) (s : db) : result unit * db :=
  match snd call with
  | Delivered => Settle (fst call) attemptID i s
  | Refused => (Err deadline_exceeded, s)
  | AnswerLost => (Err deadline_exceeded, snd (Settle (fst call) attemptID i s))
  end.

Definition permanentSettlementError (err : error) : bool := bool_decide (err = ErrConflict) || bool_decide (err = ErrNotFound).

(** The handler's memory beside the database. *)
Record handler := mkHandler { hd_db : db; hd_pending : gmap string SettlementInput }.

Definition maxDeferredSettlements : nat := 1024.

Definition deferSettlement (attemptID : string) (i : SettlementInput) (h : handler) : handler :=
  if (size (hd_pending h) <? maxDeferredSettlements)%nat then mkHandler (hd_db h) (<[attemptID := i]> (hd_pending h)) else h.

(** The loop of [settle]: [inl] is what it returns at once, [inr] its last error. *)
Fixpoint settle_loop (calls : list (env * delivery)) (last : error) (attemptID : string) (i : SettlementInput) (s : db)
    : (result unit + error) * db :=
  match calls with
  | [] => (inr last, s)
  | call :: calls =>
    match call_settle call attemptID i s with
    | (Ok u, s') => (inl (Ok u), s')
    | (Err err, s') => if permanentSettlementError err then (inl (Err err), s') else settle_loop calls err attemptID i s'
    end
  end.

(** Five attempts, the calls being those of the environment. *)
Definition settle_attempts : nat := 5.
Definition settle (calls : nat -> env * delivery) (attemptID : string) (i : SettlementInput) (h : handler) : result unit * handler :=
  match settle_loop (map calls (seq 0 settle_attempts)) deadline_exceeded attemptID i (hd_db h) with
  | (inl r, s') => (r, mkHandler s' (hd_pending h))
  | (inr last, s') => (Err last, deferSettlement attemptID i (mkHandler s' (hd_pending h)))
  end.

(** The worker's round over a copy of the map, in the order the runtime picks. *)
Definition finished (r : result unit) : bool := match r with Ok _ => true | Err err => permanentSettlementError err end.
Definition retry_one (entry : string * SettlementInput) (call : env * delivery) (h : handler) : handler :=
  let '(r, s') := call_settle call (fst entry) (snd entry) (hd_db h) in
  mkHandler s' (if finished r then delete (fst entry) (hd_pending h) else hd_pending h).

Fixpoint retry_each (order : list (string * SettlementInput)) (calls : nat -> env * delivery) (h : handler) : handler :=
  match order with
  | [] => h
  | entry :: order => retry_each order (fun k => calls (S k)) (retry_one entry (calls O) h)
  end.

Definition retryDeferredSettlements (order : list (string * SettlementInput)) (calls : nat -> env * delivery) (h : handler) : handler :=
  retry_each order calls h.

(** * Memory is bounded *)

Lemma retry_each_shrinks order calls h : hd_pending (retry_each order calls h) ⊆ hd_pending h.
Proof.
  revert calls h. induction order as [|entry order IH]; intros calls h; [reflexivity|]. cbn [retry_each]. etrans; [apply IH|].
  unfold retry_one. destruct (call_settle _ _ _ _) as [r s']. cbn. destruct (finished r); [apply delete_subseteq|reflexivity].
Qed.

Lemma settle_pending_bound calls attemptID i h :
  (size (hd_pending h) <= maxDeferredSettlements)%nat -> (size (hd_pending (snd (settle calls attemptID i h))) <= maxDeferredSettlements)%nat.
Proof.
  intros H. unfold settle. destruct (settle_loop _ _ _ _ _) as [[r|last] s']; [exact H|]. unfold deferSettlement. cbn [snd hd_pending].
  destruct (Nat.ltb_spec (size (hd_pending h)) maxDeferredSettlements) as [L|L]; [|exact H]. cbn [hd_pending].
  rewrite map_size_insert. destruct (hd_pending h !! attemptID); simpl; lia.
Qed.

(** * A settlement is carried out at most once *)

Lemma Settle_error_keeps e id i s err s' : Settle e id i s = (Err err, s') -> s' = s.
Proof.
  unfold Settle. destruct (check_settlement _ _) as [[st us]|]; [|by intros [= _ <-]]. unfold commit.
  destruct (settle_tx _ _ _ _ _ s) as [[u s1]|]; [done|]. by intros [= _ <-].
Qed.

(** [s'] is [s], or [s] with the settlement booked once. *)
Definition booked_once (calls : list (env * delivery)) (id : string) (i : SettlementInput) (s s' : db) : Prop :=
  exists call, call ∈ calls /\ snd call <> Refused /\ Settle (fst call) id i s = (Ok tt, s').

(** One more call on a database where the settlement is booked or not. *)
Lemma call_after calls call id i s s1 r s2 :
  s1 = s \/ booked_once calls id i s s1 -> call_settle call id i s1 = (r, s2) ->
  (s2 = s1 \/ booked_once [call] id i s1 s2 /\ s1 = s)
  /\ (r = Ok tt -> s1 = s /\ booked_once [call] id i s s2 \/ booked_once calls id i s s2).
Proof.
  intros H E. unfold call_settle in E. destruct (snd call) eqn:D.
  - destruct H as [->|H].
    + destruct r as [[]|err]; [|apply Settle_error_keeps in E; subst; split; [by left|done]].
      assert (B : booked_once [call] id i s s2) by (exists call; rewrite D; split; [by left|done]). auto.
    + destruct H as (c & Hc & Hd & Hs). destruct (Settle_repeats _ _ _ _ _ Hs) as [R _]. rewrite R in E. injection E as <- <-.
      split; [by left|]. intros _. right. by exists c.
  - injection E as <- <-. split; [by left|done].
  - injection E as <- <-. split; [|done]. destruct H as [->|(c & Hc & Hd & Hs)].
    + destruct (Settle (fst call) id i s) as [[[]|err] s3] eqn:F; cbn; [right|left; by apply Settle_error_keeps in F].
      split; [|done]. exists call. rewrite D. split; [by left|done].
    + left. destruct (Settle_repeats _ _ _ _ _ Hs) as [R _]. by rewrite R.
Qed.

Lemma booked_once_mono calls calls' id i s s' : calls ⊆ calls' -> booked_once calls id i s s' -> booked_once calls' id i s s'.
Proof. intros H (c & Hc & ?). exists c. auto. Qed.

Lemma settle_loop_once calls past last id i s s1 r s2 :
  s1 = s \/ booked_once past id i s s1 -> settle_loop calls last id i s1 = (r, s2) ->
  (s2 = s \/ booked_once (past ++ calls) id i s s2) /\ (r = inl (Ok tt) -> booked_once (past ++ calls) id i s s2).
Proof.
  revert past last s1. induction calls as [|call calls IH]; intros past last s1 H E; cbn [settle_loop] in E.
  { injection E as <- <-. rewrite app_nil_r. split; [exact H|discriminate]. }
  destruct (call_settle call id i s1) as [r1 s3] eqn:C. destruct (call_after past call id i s s1 r1 s3 H C) as [A B].
  assert (Sub1 : [call] ⊆ past ++ call :: calls) by (intros x; rewrite list_elem_of_singleton; intros ->; set_solver).
  assert (Sub2 : past ⊆ past ++ call :: calls) by set_solver.
  assert (H3 : s3 = s \/ booked_once (past ++ [call]) id i s s3).
  { destruct A as [->|[A ->]]; [destruct H as [?|H]; [by left|right; revert H; apply booked_once_mono; set_solver]|].
    right. revert A. apply booked_once_mono. set_solver. }
  destruct r1 as [[]|err].
  - injection E as <- <-. split; [|intros _; destruct (B eq_refl) as [[_ B']|B']; eauto using booked_once_mono].
    right. destruct (B eq_refl) as [[_ B']|B']; eauto using booked_once_mono.
  - destruct (permanentSettlementError err).
    + injection E as <- <-. split; [|done]. destruct H3 as [?|H3]; [by left|right]. revert H3. apply booked_once_mono. set_solver.
    + destruct (IH (past ++ [call])%list err s3 H3 E) as [I1 I2]. by rewrite <- app_assoc in I1, I2.
Qed.

(** C10: however calls are refused and answers are lost, [settle] leaves the
    database as it was or books the settlement once; it reports success only
    when it is booked, and otherwise the error is final or the settlement is
    kept for the worker, while there is room for it. *)
Theorem settle_books_once (calls : nat -> env * delivery) (attemptID : string) (i : SettlementInput) (h h' : handler) (r : result unit) :
  settle calls attemptID i h = (r, h') ->
  let issued := map calls (seq 0 settle_attempts) in
  (hd_db h' = hd_db h \/ booked_once issued attemptID i (hd_db h) (hd_db h'))
  /\ match r with
     | Ok _ => booked_once issued attemptID i (hd_db h) (hd_db h') /\ hd_pending h' = hd_pending h
     | Err err => permanentSettlementError err = true /\ hd_pending h' = hd_pending h
                  \/ hd_pending h' = <[attemptID := i]> (hd_pending h) \/ (maxDeferredSettlements <= size (hd_pending h))%nat
     end.
Proof.
  unfold settle. destruct (settle_loop _ _ _ _ _) as [[r0|last] s'] eqn:E; intros [= <- <-]; cbn zeta.
  - destruct (settle_loop_once _ [] _ _ _ _ _ _ _ (or_introl eq_refl) E) as [A B]. cbn [app hd_db hd_pending] in *. split; [done|].
    destruct r0 as [[]|err]; [by split; [apply B|]|]. left. split; [|done].
    clear A B. revert E. generalize deadline_exceeded, (hd_db h). induction (map calls (seq 0 settle_attempts)) as [|c l IH]; intros last s; cbn [settle_loop]; [done|].
    destruct (call_settle c attemptID i s) as [[[]|e1] s1]; [done|]. destruct (permanentSettlementError e1) eqn:P; [by intros [= <- <-]|apply IH].
  - destruct (settle_loop_once _ [] _ _ _ _ _ _ _ (or_introl eq_refl) E) as [A _]. cbn [app] in A. unfold deferSettlement. cbn [hd_db hd_pending].
    destruct (Nat.ltb_spec (size (hd_pending h)) maxDeferredSettlements); cbn; auto.
Qed.

(** * What is accepted is delivered *)

(** A call the usage service would accept as its database stands. *)
Definition acceptable (call : env * delivery) (id : string) (i : SettlementInput) (s : db) : Prop :=
  exists s1, Settle (fst call) id i s = (Ok tt, s1).

(** Where a settlement is acceptable or booked, a delivered call succeeds and
    the others fail in passing. *)
Lemma acceptable_call past call id i s s1 :
  acceptable call id i s -> s1 = s \/ booked_once past id i s s1 ->
  exists s2, (s2 = s \/ booked_once (past ++ [call]) id i s s2)
    /\ ((call_settle call id i s1 = (Ok tt, s2) /\ booked_once (past ++ [call]) id i s s2)
        \/ (call_settle call id i s1 = (Err deadline_exceeded, s2) /\ snd call <> Delivered)).
Proof.
  intros [sA HA] H. destruct (call_settle call id i s1) as [r s2] eqn:C. exists s2.
  destruct (call_after past call id i s s1 r s2 H C) as [A B].
  assert (S1 : [call] ⊆ past ++ [call]) by set_solver. assert (S2 : past ⊆ past ++ [call]) by set_solver. split.
  - destruct A as [->|[A ->]]; [destruct H as [?|H]; [by left|]|]; right; eauto using booked_once_mono.
  - unfold call_settle in C |- *. destruct (snd call) eqn:D; [left|right; split; [by injection C as <- <-|done]..].
    assert (r = Ok tt) as ->.
    { destruct H as [->|(c & _ & _ & Hc)]; [rewrite HA in C; by injection C as <- _|].
      destruct (Settle_repeats _ _ _ _ _ Hc) as [R _]. rewrite R in C. by injection C as <- _. }
    split; [done|]. destruct (B eq_refl) as [[_ B']|B']; eauto using booked_once_mono.
Qed.

Lemma settle_loop_acceptable calls past last id i s s1 r s2 :
  Forall (fun c => acceptable c id i s) calls -> s1 = s \/ booked_once past id i s s1 ->
  settle_loop calls last id i s1 = (r, s2) -> r = inl (Ok tt) \/ exists err, r = inr err.
Proof.
  intros H. revert past last s1. induction H as [|call calls Hc _ IH]; intros past last s1 H1 E; cbn [settle_loop] in E.
  - injection E as <- _. eauto.
  - destruct (acceptable_call past call id i s s1 Hc H1) as (s3 & H3 & [[C _]|[C _]]); rewrite C in E; [injection E as <- _; auto|].
    change (permanentSettlementError deadline_exceeded) with false in E. exact (IH _ _ _ H3 E).
Qed.

(** ** A round over the whole queue *)

Lemma retry_each_app o1 o2 calls h : retry_each (o1 ++ o2) calls h = retry_each o2 (fun k => calls (length o1 + k)%nat) (retry_each o1 calls h).
Proof. revert calls h. induction o1 as [|x o1 IH]; intros calls h; [done|]. cbn [app retry_each length]. apply IH. Qed.

Lemma retry_pending_ne order calls h k : k ∉ order.*1 -> hd_pending (retry_each order calls h) !! k = hd_pending h !! k.
Proof.
  revert calls h. induction order as [|[k1 x] order IH]; intros calls h H; [done|]. cbn [retry_each]. cbn in H. apply not_elem_of_cons in H as [Hne H].
  rewrite IH by done. unfold retry_one. destruct (call_settle _ _ _ _) as [r s']. cbn. destruct (finished r); [by rewrite lookup_delete_ne|done].
Qed.

Lemma call_ledger call id i s : t_ledger s ⊆ t_ledger (snd (call_settle call id i s)).
Proof. unfold call_settle. destruct (snd call); [apply Settle_ledger|reflexivity|apply Settle_ledger]. Qed.
Lemma retry_ledger order calls h : t_ledger (hd_db h) ⊆ t_ledger (hd_db (retry_each order calls h)).
Proof.
  revert calls h. induction order as [|[k x] order IH]; intros calls h; [reflexivity|]. cbn [retry_each]. etrans; [|apply IH]. unfold retry_one.
  pose proof (call_ledger (calls O) k x (hd_db h)) as H. cbn [fst snd]. by destruct (call_settle _ _ _ _) as [r s'].
Qed.
Lemma booked_ledger calls id i s s' : booked_once calls id i s s' -> is_Some (t_ledger s' !! si_IdempotencyKey i).
Proof. intros (c & _ & _ & H). by eapply Settle_records. Qed.

Section Round.
Variables (order : list (string * SettlementInput)) (calls : nat -> env * delivery) (h : handler).
Hypothesis (Horder : order ≡ₚ map_to_list (hd_pending h)).

(** The handler when the round comes to its [n]-th entry. *)
Definition turn (n : nat) : handler := retryDeferredSettlements (take n order) calls h.

Lemma turn_next n k x : order !! n = Some (k, x) -> turn (S n) = retry_one (k, x) (calls n) (turn n).
Proof.
  intros H. unfold turn, retryDeferredSettlements. rewrite (take_S_r _ _ _ H), retry_each_app. cbn [retry_each].
  rewrite length_take_le, Nat.add_0_r; [done|]. apply lookup_lt_Some in H. lia.
Qed.
Lemma round_from n : retryDeferredSettlements order calls h = retry_each (drop n order) (fun k => calls (length (take n order) + k)%nat) (turn n).
Proof. unfold turn, retryDeferredSettlements. rewrite <- retry_each_app. by rewrite take_drop. Qed.
Lemma order_keys : NoDup order.*1.
Proof. rewrite Horder. apply NoDup_fst_map_to_list. Qed.
Lemma order_pending n k x : order !! n = Some (k, x) -> hd_pending h !! k = Some x /\ k ∉ (take n order).*1 /\ k ∉ (drop (S n) order).*1.
Proof.
  intros H. split.
  - apply elem_of_map_to_list. rewrite <- Horder. by eapply list_elem_of_lookup_2.
  - pose proof order_keys as N. rewrite <- (take_drop_middle order n (k, x) H), fmap_app, fmap_cons in N. apply NoDup_app in N as (_ & N1 & N2%NoDup_cons). split; [|apply N2].
    intros Hin. apply (N1 k Hin). by left.
Qed.

(** What becomes of an entry is decided at its turn. *)
Lemma turn_decides n k x : order !! n = Some (k, x) ->
  hd_pending (retryDeferredSettlements order calls h) !! k = if finished (fst (call_settle (calls n) k x (hd_db (turn n)))) then None else Some x.
Proof.
  intros H. destruct (order_pending n k x H) as (Hp & H1 & H2). rewrite (round_from (S n)), retry_pending_ne by done. rewrite (turn_next n k x H). unfold retry_one. cbn [fst snd].
  assert (hd_pending (turn n) !! k = Some x) as E by (unfold turn, retryDeferredSettlements; by rewrite retry_pending_ne). destruct (call_settle _ _ _ _) as [r s']. cbn.
  destruct (finished r); [apply lookup_delete_eq|exact E].
Qed.
Lemma turn_delivers n k x : order !! n = Some (k, x) -> snd (calls n) = Delivered -> acceptable (calls n) k x (hd_db (turn n)) ->
  Settle (fst (calls n)) k x (hd_db (turn n)) = (Ok tt, hd_db (turn (S n)))
  /\ hd_pending (retryDeferredSettlements order calls h) !! k = None /\ is_Some (t_ledger (hd_db (retryDeferredSettlements order calls h)) !! si_IdempotencyKey x).
Proof.
  intros H D [s1 A]. assert (hd_db (turn (S n)) = s1) as E by (rewrite (turn_next n k x H); unfold retry_one; cbn [fst snd]; unfold call_settle; by rewrite D, A).
  split; [by rewrite E|]. rewrite (turn_decides n k x H). unfold call_settle. rewrite D, A. split; [done|].
  destruct (Settle_records _ _ _ _ _ A) as [entry Hl]. exists entry. rewrite (round_from (S n)). eapply lookup_weaken; [|apply retry_ledger]. by rewrite E.
Qed.
End Round.

