(* ===== verification/Forward.v ===== *)
(** One forwarded request ([forwardAuthorized] in
    [internal/gateway/forward.go]): the loop over the targets of its route
    plan. Each target is admitted, dispatched, settled and, when it failed in
    time, followed by the next. What happens at the provider is an
    [attempt_outcome] of [Dispatch]; the calls of the usage service are those
    of [Admission] and [Settlement], delivered as [Deferral] says. *)
From S2P Require Import Prelude GoStd Money Counters Policy Json Decode Store Pricing PolicyService Admission Settlement Reservations Lifecycle Booking Charges Reachable Replays Tokens Dispatch Deferral.
Open Scope string_scope.
Open Scope Z_scope.

(** * The loop *)

(** What the environment decides about one target. *)
Record hop := mkHop {
  hp_translated : bool;                        (* the request fits the target's protocol *)
  hp_admission : AdmissionInput;               (* its [RequestID] is the loop's *)
  hp_admitCall : env; hp_admitRefused : bool;
  hp_current : bool;                           (* [BeginDispatch] found the configuration unchanged *)
  hp_dispatchRefused : bool; hp_cancelCall : env;
  hp_outcome : attempt_outcome; hp_settleCalls : nat -> env * delivery;
  hp_stored : bool; hp_storeCall : env; hp_finalizeCalls : nat -> env;
  hp_waited : bool; hp_closeCall : env }.

Definition with_request (requestID : string) (i : AdmissionInput) : AdmissionInput :=
  mkAdmissionInput requestID (ai_KeyID i) (ai_ConnectionID i) (ai_ModelID i) (ai_UpstreamModelRecordID i) (ai_UpstreamModelID i)
    (ai_ConnectionRevision i) (ai_ModelRevision i) (ai_Operation i) (ai_TargetOperation i) (ai_Scope i) (ai_Dialect i) (ai_TargetDialect i)
    (ai_TranslationApplied i) (ai_RequestToolCount i) (ai_WebSearchMaxCalls i) (ai_WebFetchPresent i) (ai_SelectionReason i)
    (ai_RejectedCandidatesJSON i) (ai_RequiredPriceVersionID i) (ai_PriceQuoteAt i) (ai_QuotedPriceVersionID i) (ai_RequireFreePrice i)
    (ai_PriceUnavailable i) (ai_SnapshotPriceOnly i) (ai_BodyBytes i) (ai_BatchItems i) (ai_Streaming i) (ai_EstimatedInputTokens i)
    (ai_EstimatedOutputTokens i) (ai_EnforceInputBound i) (ai_InputBounded i) (ai_EnforceOutputBound i) (ai_OutputBounded i).

(** The outcome at its place in the plan: whether targets are left. *)
Definition at_place (more : bool) (o : attempt_outcome) : attempt_outcome :=
  mkOutcome (oc_native o) (oc_adapter o) (oc_preset o) (oc_targetPath o) more (oc_result o) (oc_copyErr o) (oc_semantic o) (oc_committed o)
    (oc_raw o) (oc_body o) (oc_countedInput o) (oc_searchCalls o) (oc_searchKnown o) (oc_fetchCalls o) (oc_fetchKnown o) (oc_terminalFailure o)
    (oc_attachFailed o) (oc_attachTerminal o) (oc_prepareFailed o) (oc_chatFailed o) (oc_turnFailed o) (oc_cancelled o) (oc_cancelledLate o)
    (oc_firstWrite o).

(** [FinalizeFailedRequest]: up to three calls, a conflict ends them. *)
Fixpoint finalize_loop (n : nat) (calls : nat -> env) (requestID : string) (s : db) : result unit * db :=
  match n with
  | O => (Ok tt, s)
  | S n =>
    let '(r, s') := FinalizeRequest (calls O) requestID "failed" s in
    match r, n with
    | Ok _, _ => (r, s')
    | Err err, O => (r, s')
    | Err err, S _ => if bool_decide (err = ErrConflict) then (r, s') else finalize_loop n (fun k => calls (S k)) requestID s'
    end
  end.
Definition FinalizeFailedRequest (calls : nat -> env) (requestID : string) (s : db) : result unit * db := finalize_loop 3 calls requestID s.

Inductive ending := Rejected | NotDispatched | Crashed | Unsettled | NotStored | GaveUp | Answered | Exhausted.

(** How a request ended; whether every call made to end it went through. *)
Record report := mkReport { rp_ending : ending; rp_request : string; rp_clean : bool }.

Definition went_through {A} (r : result A) : bool := match r with Ok _ => true | Err _ => false end.

(** A failed request is closed when an attempt of it exists. *)
Definition close_if_started (e : env) (requestID : string) (s : db) : result unit * db :=
  if requestID =s "" then (Ok tt, s) else CloseFailedRequest e requestID s.

(** An attempt's step ends the request ([inl]) or leads to the next target
    ([inr]); the flag says whether its calls went through. *)
Definition step_result : Type := (ending * bool + bool) * handler.

Definition cancel_attempt (p : hop) (attemptID : string) (h : handler) : step_result :=
  let '(r, s) := CancelBeforeDispatch (hp_cancelCall p) attemptID (hd_db h) in
  (inl (NotDispatched, went_through r), mkHandler s (hd_pending h)).

Definition mark (p : hop) (attemptID : string) (s : db) : result unit * db :=
  if hp_dispatchRefused p then (Err deadline_exceeded, s) else MarkDispatching attemptID s.

(** The publication of a settled response. *)
Definition publish_response (f : forwarded) (p : hop) (o : attempt_outcome) (requestID state : string) (s : db) : result unit * db :=
  if publishAfterSettlement f o state then
    if hp_stored p then FinalizeRequest (hp_storeCall p) requestID state s else (Err deadline_exceeded, s)
  else ((if turn_failed f o then Err deadline_exceeded else Ok tt), s).

(** What follows the settlement of an attempt. *)
Definition conclude (f : forwarded) (p : hop) (o : attempt_outcome) (requestID state : string) (clean : bool) (h : handler) : step_result :=
  if publishAfterSettlement f o state && negb clean then (inl (Unsettled, false), h)
  else
    let '(stored, s) := publish_response f p o requestID state (hd_db h) in
    if negb (went_through stored) then
      let '(r, s) := FinalizeFailedRequest (hp_finalizeCalls p) requestID s in
      (inl (NotStored, clean && went_through r), mkHandler s (hd_pending h))
    else if negb (retry f o) then (inl (Answered, clean), mkHandler s (hd_pending h))
    else if hp_waited p then (inr clean, mkHandler s (hd_pending h))
    else
      let '(r, s) := CloseFailedRequest (hp_closeCall p) requestID s in
      (inl (GaveUp, clean && went_through r), mkHandler s (hd_pending h)).

(** The attempt after its admission. *)
Definition run_attempt (f : forwarded) (p : hop) (more : bool) (requestID attemptID : string) (h : handler) : step_result :=
  if negb (hp_current p) then cancel_attempt p attemptID h
  else
    let '(marked, s) := mark p attemptID (hd_db h) in
    let h := mkHandler s (hd_pending h) in
    if negb (went_through marked) then cancel_attempt p attemptID h
    else
      let o := at_place more (hp_outcome p) in
      match settlement_of f o attemptID with
      | None => (inl (Crashed, false), h)
      | Some i => let '(settled, h) := settle (hp_settleCalls p) attemptID i h in conclude f p o requestID (si_State i) (went_through settled) h
      end.

Definition refuse (e : env) (requestID : string) (clean : bool) (h : handler) : report * handler :=
  let '(r, s) := close_if_started e requestID (hd_db h) in
  (mkReport Rejected requestID (clean && went_through r), mkHandler s (hd_pending h)).

Definition admit_target (p : hop) (requestID : string) (s : db) : result AdmissionResult * db :=
  if hp_admitRefused p then (Err deadline_exceeded, s) else Admit (hp_admitCall p) (with_request requestID (hp_admission p)) s.

Fixpoint forward_targets (f : forwarded) (plan : list hop) (requestID : string) (clean : bool) (h : handler) : report * handler :=
  match plan with
  | [] => (mkReport Exhausted requestID clean, h)
  | p :: plan =>
    if negb (hp_translated p) then refuse (hp_closeCall p) requestID clean h
    else
      let '(admitted, s) := admit_target p requestID (hd_db h) in
      let h := mkHandler s (hd_pending h) in
      match admitted with
      | Err _ => refuse (hp_closeCall p) requestID clean h
      | Ok a =>
        match run_attempt f p (match plan with [] => false | _ :: _ => true end) (ad_RequestID a) (ad_AttemptID a) h with
        | (inl (ending, ok), h) => (mkReport ending (ad_RequestID a) (clean && ok), h)
        | (inr ok, h) => forward_targets f plan (ad_RequestID a) (clean && ok) h
        end
      end
  end.

(** * Settlement keys

    The gateway settles attempt [a] under the key [dispatch:a]. Until then no
    ledger entry has that key. *)

Definition dispatch_key (attemptID : string) : string := "dispatch:" +:+ attemptID.
Definition keys_unused (s : db) : Prop := forall id, t_attempts s !! id = None -> t_ledger s !! dispatch_key id = None.

(** Attempts stay, and only the ledger entries under [keys] change. *)
Definition books_under (keys : list string) (s s' : db) : Prop :=
  (forall id, is_Some (t_attempts s !! id) -> is_Some (t_attempts s' !! id))
  /\ forall k, k ∉ keys -> t_ledger s' !! k = t_ledger s !! k.

Lemma books_under_preorder keys : PreOrder (books_under keys).
Proof. split; [done|]. intros s1 s2 s3 [A1 B1] [A2 B2]. split; [auto|]. intros k Hk. by rewrite B2, B1. Qed.

Lemma books_under_same keys s s' : (t_attempts s', t_ledger s') = (t_attempts s, t_ledger s) -> books_under keys s s'.
Proof. intros [= Ea El]. unfold books_under. rewrite Ea, El. done. Qed.

Lemma evolves_insert_attempt keys id v : evolves (books_under keys) (insert_row t_attempts set_attempts id v).
Proof.
  intros s a s' [Hn ->]%insert_row_Ok. split; [|done]. intros k Hk. cbn. destruct (decide (id = k)) as [<-|]; [rewrite lookup_insert_eq; eauto|].
  by rewrite lookup_insert_ne.
Qed.
Lemma evolves_update_attempt keys id c f : evolves (books_under keys) (update_row t_attempts set_attempts id c f).
Proof.
  intros s a s' H. apply update_row_Ok in H as [(v & Hv & _ & _ & ->)|(_ & -> & _)]; [|done]. split; [|done]. intros k Hk. cbn.
  destruct (decide (id = k)) as [<-|]; [rewrite lookup_insert_eq; eauto|]. by rewrite lookup_insert_ne.
Qed.
Lemma evolves_insert_ledger keys k row : k ∈ keys -> evolves (books_under keys) (insert_ledger k row).
Proof.
  intros Hk s a s' [_ ->]%insert_ledger_Ok. split; [done|]. intros k' Hk'. cbn. rewrite lookup_insert_ne; [done|]. intros <-. done.
Qed.
Lemma evolves_others keys {A} (m : tx db A) : keeps (fun s => (t_attempts s, t_ledger s)) m -> evolves (books_under keys) m.
Proof. apply evolves_keeps, books_under_same. Qed.

#[local] Hint Extern 1 (PreOrder _) => apply books_under_preorder : evolves.
#[local] Hint Resolve evolves_insert_attempt evolves_update_attempt : evolves.
#[local] Hint Extern 2 (evolves _ _) => apply evolves_others; solve [auto with keeps] : evolves.
#[local] Hint Extern 3 (evolves _ (for_each _ _)) => apply evolves_others; apply keeps_for_each; intros ?; solve [keeps_tac] : evolves.

Lemma applyPlan_keeps_books e rq at_ t x : keeps (fun s => (t_attempts s, t_ledger s)) (applyPlan e rq at_ t x).
Proof. unfold applyPlan, insert_lease, upsert_bucket, upsert_period, insert_reservation. destruct x as [n plan]. keeps_tac. Qed.
Lemma clock_keeps_books e n fl : keeps (fun s => (t_attempts s, t_ledger s)) (effectiveTimeTxAtLeast e n fl).
Proof. unfold effectiveTimeTxAtLeast. keeps_tac. Qed.
Lemma for_applyPlan_keeps_books e rq at_ t l : keeps (fun s => (t_attempts s, t_ledger s)) (for_each (applyPlan e rq at_ t) l).
Proof. apply keeps_for_each. intros x. apply applyPlan_keeps_books. Qed.
#[local] Hint Resolve applyPlan_keeps_books clock_keeps_books for_applyPlan_keeps_books : keeps.

Lemma admit_books_under keys e i n : evolves (books_under keys) (admit_tx e i n).
Proof. unfold admit_tx, attempt_ordinal, requireOutboxCapacity, book_request, insert_attempt. evolves_tac. Qed.
Lemma cancel_books_under keys e id : evolves (books_under keys) (cancel_tx e id).
Proof. unfold cancel_tx, releaseReservations, release_item, set_reservation_state, delete_leases, set_request_state. evolves_tac. Qed.
Lemma mark_books_under keys from to id : evolves (books_under keys) (mark_attempt from to id).
Proof. unfold mark_attempt. evolves_tac. Qed.
Lemma close_books_under keys e id : evolves (books_under keys) (close_failed_tx e id).
Proof. unfold close_failed_tx, delete_leases. evolves_tac. Qed.
Lemma finalize_books_under keys e id st : evolves (books_under keys) (finalize_request_tx e id st).
Proof. unfold finalize_request_tx, delete_request_leases. evolves_tac. Qed.
Lemma book_settlement_books_under e id i st us a r cost tokens :
  evolves (books_under [si_IdempotencyKey i]) (book_settlement e id i st us a r cost tokens).
Proof.
  unfold book_settlement, record_assessment, insert_assessment, end_or_continue, set_request_state, delete_leases.
  apply evolves_bind; [apply books_under_preorder|by apply evolves_insert_ledger; left|intros ?]. evolves_tac.
  apply evolves_keeps with (obs := books); [intros s s' [= El Ea _ _ _]; by apply books_under_same; rewrite El, Ea|].
  apply keeps_for_each. intros x. apply settle_item_keeps_books.
Qed.

Lemma keys_unused_kept s s' keys :
  keys_unused s -> books_under keys s s' -> (forall id, dispatch_key id ∈ keys -> is_Some (t_attempts s' !! id)) -> keys_unused s'.
Proof.
  intros H [A B] Hk id Hn. destruct (decide (dispatch_key id ∈ keys)) as [Hin|Hin].
  - destruct (Hk id Hin) as [a Ha]. by rewrite Hn in Ha.
  - rewrite B by done. apply H. destruct (t_attempts s !! id) as [a|] eqn:E; [|done]. destruct (A id) as [a' Ha]; [eauto|]. by rewrite Hn in Ha.
Qed.

(** * What each call does to the request *)

Definition request_in (s : db) (requestID : string) (st : RequestState) : Prop :=
  exists rq, t_requests s !! requestID = Some rq /\ rq_State rq = st.

(** An attempt under way: live, its request reserved, its key unused. *)
Definition under_way (s : db) (requestID attemptID : string) : Prop :=
  exists a, t_attempts s !! attemptID = Some a /\ at_Request a = requestID /\ live a /\ t_ledger s !! dispatch_key attemptID = None.

Lemma commit_Ok {A} (m : tx db A) s a s' : commit m s = (Ok a, s') -> m s = Ok (a, s').
Proof. unfold commit. destruct (m s) as [[b s1]|]; [|done]. by intros [= -> ->]. Qed.
Lemma commit_error {A} (m : tx db A) s err s' : commit m s = (Err err, s') -> s' = s.
Proof. unfold commit. destruct (m s) as [[b s1]|]; [done|]. by intros [= _ <-]. Qed.

Lemma Admit_error_keeps e i s err s' : Admit e i s = (Err err, s') -> s' = s.
Proof.
  unfold Admit. destruct (invalid_admission i); [by intros [= _ <-]|]. destruct (checkedAdd _); [|by intros [= _ <-]]. apply commit_error.
Qed.

Lemma Admit_under_way e i s a s' :
  sound s -> keys_unused s -> typed_input i -> Admit e i s = (Ok a, s') ->
  sound s' /\ keys_unused s' /\ under_way s' (ad_RequestID a) (ad_AttemptID a) /\ ad_RequestID a <> "".
Proof.
  intros Hs Hk Ht H. assert (S' : sound s').
  { pose proof (perform_sound (fun _ => None) (fun _ _ H => ltac:(discriminate H)) e (OpAdmit i) s Ht Hs) as S'. cbn in S'. by rewrite H in S'. }
  unfold Admit in H. destruct (invalid_admission i); [done|]. destruct (checkedAdd _) as [n|] eqn:En; [|done]. apply commit_Ok in H.
  pose proof (admit_books_under [] e i n s a s' H) as B.
  destruct (admit_booked e i n s a s' (so_usage _ Hs) (sound_limits s (so_policies s Hs)) Ht (checkedAdd_range _ _ En) H) as (_ & _ & at' & Ha & Hr & Hl).
  apply admit_runs in H as (k & cost & ids & plans & s2 & R). split; [done|]. split; [eapply keys_unused_kept; [done..|]; set_solver|]. split.
  - exists at'. split_and!; [done..|]. rewrite (proj2 B) by set_solver. apply Hk, (ru_new _ _ _ _ _ _ _ _ _ _ _ R).
  - rewrite (ru_request _ _ _ _ _ _ _ _ _ _ _ R). destruct (ai_RequestID i =s "") eqn:E; [done|]. by apply String.eqb_neq.
Qed.

Lemma under_way_reserved s rid id : sound s -> under_way s rid id -> request_in s rid RqReserved.
Proof.
  intros Hs (a & Ha & <- & Hl & _). destruct (live_reserved s id a (inv_lifecycle _ (so_usage _ Hs)) Ha Hl) as (rq & ? & ?). by exists rq.
Qed.

Lemma Cancel_request e s rid id s' :
  under_way s rid id -> CancelBeforeDispatch e id s = (Ok tt, s') -> request_in s' rid RqCancelled.
Proof.
  intros (a & Ha & <- & _) H. apply commit_Ok in H. unfold cancel_tx in H.
  apply tx_bind_Ok in H as ([a0 r] & s1 & Hg & H). apply get_row_Ok in Hg as [Hj ->].
  destruct (attempt_join s id) as [[a1 r1]|] eqn:Ej; cbn in Hj; [|done]. destruct (decide (at_State a1 = AtReserved)); [|done]. injection Hj as -> ->.
  apply attempt_join_Some in Ej as [Ha0 Hr]. rewrite Ha in Ha0. injection Ha0 as <-. tx_inv.
  match goal with H : releaseReservations _ _ ?s = Ok (_, ?s') |- _ => assert (t_requests s' = t_requests s) as E1
    by (refine ((_ : keeps t_requests (releaseReservations _ _)) _ _ _ H); unfold releaseReservations, release_item, set_reservation_state; keeps_tac) end.
  match goal with H : update_row t_attempts _ _ _ _ ?s = Ok (_, ?s') |- _ => assert (t_requests s' = t_requests s) as E2
    by (refine ((_ : keeps t_requests (update_row _ _ _ _ _)) _ _ _ H); auto with keeps) end.
  effects. match goal with H : set_request_state _ _ _ _ = _ |- _ => apply set_request_state_Ok with (rq := r) in H; [subst|by rewrite E2; cbn; rewrite E1] end.
  exists (with_request_state RqCancelled (Some (now e 0)) r). cbn. by rewrite lookup_insert_eq.
Qed.

Lemma Mark_under_way s rid id s' r : under_way s rid id -> MarkDispatching id s = (r, s') -> under_way s' rid id.
Proof.
  intros (a & Ha & Hr & Hl & Hk) H. destruct r as [[]|err]; [|apply commit_error in H; subst; by exists a].
  apply commit_Ok in H. unfold mark_attempt in H. tx_inv.
  match goal with H : update_row _ _ _ _ _ _ = _ |- _ => apply update_row_Ok in H as [(v & Hv & _ & _ & ->)|(-> & _ & _)] end; [|done].
  rewrite Ha in Hv. injection Hv as <-. exists (with_attempt_state AtDispatching a). cbn. by rewrite lookup_insert_eq.
Qed.

Lemma Close_request e s rid s' : CloseFailedRequest e rid s = (Ok tt, s') -> request_in s' rid RqFailed.
Proof.
  intros H%commit_Ok. unfold close_failed_tx in H. tx_inv.
  match goal with H : update_row _ _ _ _ _ _ = _ |- _ => apply update_row_Ok in H as [(rq & Hr & _ & _ & ->)|(-> & _ & _)] end; [|done].
  eexists. cbn. rewrite lookup_insert_eq. by split.
Qed.

Lemma Finalize_request e s rid state s' :
  FinalizeRequest e rid state s = (Ok tt, s') -> exists st, request_in s' rid st /\ ~ open_request st.
Proof.
  intros H%commit_Ok. unfold finalize_request_tx in H. destruct (final_state_of state) as [st|] eqn:Est; [|by apply fail_Ok in H].
  exists st. tx_inv. effects.
  match goal with H : update_row _ _ _ _ _ _ = _ |- _ => apply update_row_Ok in H as [(rq & Hr & _ & _ & ->)|(-> & _ & _)] end; [|done].
  split; [eexists; cbn; rewrite lookup_insert_eq; by split|]. unfold final_state_of in Est. destruct (settled_state_of state) as [st0|]; [|done].
  injection Est as <-. intros [E|E]; by destruct st0.
Qed.

Lemma book_settlement_request e id i st us a r cost tokens s u s' :
  balanced s -> t_attempts s !! id = Some a -> t_requests s !! at_Request a = Some r ->
  book_settlement e id i st us a r cost tokens s = Ok (u, s') ->
  request_in s' (at_Request a) (if si_FinalRequest i then requestState st else RqInProgress).
Proof.
  intros Hb Ha Hr H. unfold book_settlement in H. tx_inv.
  match goal with H : insert_ledger _ _ _ = _ |- _ => apply insert_ledger_Ok in H as [_ ->] end.
  match goal with H : for_each _ _ _ = _ |- _ => apply settle_loop_done in H as Hdone; [|eapply balanced_frame; [..|exact Hb]; done]; clear H end.
  pose proof Hdone as (Hco & _ & _). effects.
  match goal with H : update_row t_attempts _ _ _ _ _ = _ |- _ => apply update_row_always with (v := a) in H; [subst|by rewrite (co_attempts _ _ Hco)] end.
  match goal with H : record_assessment _ _ _ _ _ _ _ = _ |- _ => apply record_assessment_Ok in H as [? ->] end.
  match goal with H : end_or_continue _ _ _ _ _ = _ |- _ => rename H into He end.
  unfold end_or_continue in He. destruct (si_FinalRequest i); tx_inv; effects.
  - match goal with H : set_request_state _ _ _ _ = _ |- _ => apply set_request_state_Ok with (rq := r) in H; [subst|cbn; by rewrite (co_requests _ _ Hco)] end.
    eexists. cbn. rewrite lookup_insert_eq. by split.
  - match goal with H : update_row t_requests _ _ _ _ _ = _ |- _ => apply update_row_always with (v := r) in H; [subst|cbn; by rewrite (co_requests _ _ Hco)] end.
    eexists. cbn. rewrite lookup_insert_eq. by split.
Qed.

(** A settlement under the dispatch key ends the attempt and, when it is the
    request's last word, the request. *)
Lemma Settle_request e id i s s' rid :
  sound s -> keys_unused s -> under_way s rid id -> si_IdempotencyKey i = dispatch_key id -> Settle e id i s = (Ok tt, s') ->
  sound s' /\ keys_unused s' /\ exists st, request_in s' rid st /\
    if si_FinalRequest i then ~ open_request st else st = RqInProgress.
Proof.
  intros Hs Hk (a & Ha & <- & Hl & Hkey) Ei H. assert (S' : sound s').
  { pose proof (perform_sound (fun _ => None) (fun _ _ H => ltac:(discriminate H)) e (OpSettle id i) s I Hs) as S'. cbn in S'. by rewrite H in S'. }
  split; [done|]. unfold Settle in H. destruct (check_settlement _ _) as [[st us]|] eqn:Ck; [|done]. apply commit_Ok in H.
  apply settle_tx_new with (a := a) in H as (r & tokens & cost & Hr & _ & _ & _ & H); [|apply (inv_balanced _ (so_usage _ Hs))|done|by cbn; rewrite Ei].
  pose proof (book_settlement_books_under _ _ _ _ _ _ _ _ _ _ _ _ H) as B. cbn in B. split.
  - eapply keys_unused_kept; [exact Hk|exact B|]. intros id' Hid%list_elem_of_singleton. rewrite Ei in Hid.
    assert (id' = id) as -> by (unfold dispatch_key in Hid; cbn in Hid; by injection Hid). apply B. eauto.
  - apply book_settlement_request in H; [|apply (inv_balanced _ (so_usage _ Hs))|done|done]. eexists. split; [exact H|]. cbn.
    destruct (si_FinalRequest i); [|done]. intros [E|E]; destruct (requestState_ended st); congruence.
Qed.

Lemma settle_request calls id i h rid r h' :
  sound (hd_db h) -> keys_unused (hd_db h) -> under_way (hd_db h) rid id -> si_IdempotencyKey i = dispatch_key id ->
  settle calls id i h = (r, h') -> went_through r = true ->
  sound (hd_db h') /\ keys_unused (hd_db h') /\ exists st, request_in (hd_db h') rid st /\
    if si_FinalRequest i then ~ open_request st else st = RqInProgress.
Proof.
  intros Hs Hk Hu Ei H Hr. unfold settle in H. destruct (settle_loop _ _ _ _ _) as [[r0|last] s'] eqn:E; injection H as <- <-; [|done].
  destruct r0 as [[]|]; [|done]. destruct (settle_loop_once _ [] _ _ _ _ _ _ _ (or_introl eq_refl) E) as [_ B].
  destruct (B eq_refl) as (c & _ & _ & Hc). cbn. by eapply Settle_request.
Qed.

(** * Nothing is left running *)

(** A request that is over: it is closed, none of its attempts runs, nothing
    is reserved for them, and no lease is held by it or them. *)
Record over (s : db) (requestID : string) : Prop := mkOver {
  ov_request : exists rq, t_requests s !! requestID = Some rq /\ ~ open_request (rq_State rq);
  ov_attempts : forall id a, t_attempts s !! id = Some a -> at_Request a = requestID -> ~ live a;
  ov_reservations : forall id r a, t_reservations s !! id = Some r -> t_attempts s !! rv_Attempt r = Some a -> at_Request a = requestID ->
    rv_State r <> RvActive;
  ov_leases : forall pid kind id l, t_leases s !! (pid, kind, id) = Some l ->
    match kind with
    | LeaseRequest => id <> requestID
    | LeaseAttempt => forall a, t_attempts s !! id = Some a -> at_Request a <> requestID
    end }.

Lemma closed_is_over s rid st : sound s -> request_in s rid st -> ~ open_request st -> over s rid.
Proof.
  intros [[Hb Hlc Hle] _ _] (rq & Hrq & <-) Ho.
  assert (Hd : forall id a, t_attempts s !! id = Some a -> at_Request a = rid -> ~ live a).
  { intros id a Ha <- Hl. destruct (live_reserved s id a Hlc Ha Hl) as (rq' & E & Es). rewrite Hrq in E. injection E as <-. apply Ho. by left. }
  split; [eauto|exact Hd|..].
  - intros id r a Hr Ha Hreq Hs. destruct (lc_active s Hlc id r Hr Hs) as (a' & Ha' & Hl). rewrite Ha in Ha'. injection Ha' as <-. by eapply Hd.
  - intros pid kind id l Hl. specialize (Hle _ _ _ _ Hl). destruct kind; cbn in Hle.
    + intros ->. destruct Hle as (_ & rq' & E & Ho'). rewrite Hrq in E. injection E as <-. done.
    + intros a Ha Hreq. destruct Hle as (a' & Ha' & Hl'). rewrite Ha in Ha'. injection Ha' as <-. by eapply Hd.
Qed.

Lemma perform_kept e op s : typed_operation op -> sound s -> sound (perform (fun _ => None) e op s).
Proof. apply perform_sound. intros text t H. discriminate H. Qed.

Lemma close_over e s rid r s' :
  sound s -> CloseFailedRequest e rid s = (r, s') -> went_through r = true -> over s' rid.
Proof.
  intros Hs H Hr. destruct r as [[]|]; [|done]. pose proof (perform_kept e (OpCloseFailedRequest rid) s I Hs) as S'. cbn in S'. rewrite H in S'.
  eapply closed_is_over; [exact S'|by eapply Close_request|]. intros [E|E]; discriminate.
Qed.
Lemma cancel_over e s rid id r s' :
  sound s -> under_way s rid id -> CancelBeforeDispatch e id s = (r, s') -> went_through r = true -> over s' rid.
Proof.
  intros Hs Hu H Hr. destruct r as [[]|]; [|done]. pose proof (perform_kept e (OpCancelBeforeDispatch id) s I Hs) as S'. cbn in S'. rewrite H in S'.
  eapply closed_is_over; [exact S'|by eapply Cancel_request|]. intros [E|E]; discriminate.
Qed.
Lemma finalize_over e s rid st s' :
  sound s -> FinalizeRequest e rid st s = (Ok tt, s') -> over s' rid.
Proof.
  intros Hs H. pose proof (perform_kept e (OpFinalizeRequest rid st) s I Hs) as S'. cbn in S'. rewrite H in S'.
  destruct (Finalize_request _ _ _ _ _ H) as (st' & Hst & Ho). by eapply closed_is_over.
Qed.

Lemma finalize_loop_over n calls s rid r s' :
  sound s -> finalize_loop (S n) calls rid s = (r, s') -> went_through r = true -> over s' rid.
Proof.
  revert calls s. induction n as [|n IH]; intros calls s Hs H Hr; cbn [finalize_loop] in H;
    destruct (FinalizeRequest (calls O) rid "failed" s) as [[[]|err] s1] eqn:E.
  - injection H as <- <-. by eapply finalize_over.
  - injection H as <- <-. done.
  - injection H as <- <-. by eapply finalize_over.
  - destruct (bool_decide (err = ErrConflict)); [by injection H as <- <-|].
    apply commit_error in E as ->. exact (IH (fun k => calls (S k)) s Hs H Hr).
Qed.

(** Between two attempts the request is open and runs none. *)
Definition between (s : db) (requestID : string) : Prop :=
  sound s /\ keys_unused s /\ (requestID = "" \/ request_in s requestID RqInProgress).

Lemma settlement_key f o id i : settlement_of f o id = Some i -> si_IdempotencyKey i = dispatch_key id.
Proof. unfold settlement_of. destruct (tools_of f o); [|done]. cbn. by intros [= <-]. Qed.

Lemma settlement_final f o id i : settlement_of f o id = Some i ->
  si_FinalRequest i = negb (retry f o) && negb (turn_failed f o) && negb (publishAfterSettlement f o (si_State i))
                      && negb (deferredAttachment f && sd_success (final_standing f o) && negb (oc_cancelledLate o)).
Proof. unfold settlement_of. destruct (tools_of f o); [|done]. cbn. by intros [= <-]. Qed.

Section Request.
Variable f : forwarded.
Hypothesis not_deferred : deferredAttachment f = false.

(** What holds after a step whose calls went through. *)
Definition step_ends (r : ending * bool + bool) (s : db) (requestID : string) : Prop :=
  match r with
  | inl (_, ok) => ok = true -> over s requestID
  | inr ok => ok = true -> between s requestID
  end.

Lemma cancel_attempt_ends p rid id h :
  sound (hd_db h) -> under_way (hd_db h) rid id -> step_ends (fst (cancel_attempt p id h)) (hd_db (snd (cancel_attempt p id h))) rid.
Proof.
  intros Hs Hu. unfold cancel_attempt. destruct (CancelBeforeDispatch _ _ _) as [r s] eqn:E. cbn. by eapply cancel_over.
Qed.

Lemma mark_kept p rid id s : sound s -> keys_unused s -> under_way s rid id ->
  let s' := snd (mark p id s) in sound s' /\ keys_unused s' /\ under_way s' rid id.
Proof.
  intros Hs Hk Hu. unfold mark. destruct (hp_dispatchRefused p); [done|]. cbn zeta. destruct (MarkDispatching id s) as [r s1] eqn:E. cbn.
  pose proof (perform_kept (hp_cancelCall p) (OpMarkDispatching id) _ I Hs) as S1. cbn in S1. rewrite E in S1. cbn in S1.
  split; [exact S1|]. split; [|by eapply Mark_under_way]. destruct r as [[]|err]; [|apply commit_error in E; by subst].
  apply commit_Ok in E. eapply keys_unused_kept; [exact Hk|apply (mark_books_under [] _ _ _ _ _ _ E)|]. set_solver.
Qed.

(** A published response is not retried. *)
Definition plausible_hop (p : hop) : Prop :=
  typed_input (hp_admission p) /\ (oc_terminalFailure (hp_outcome p) = true -> hostedWebTool f = true).

Lemma published_no_retry p more state :
  plausible_hop p -> publishAfterSettlement f (at_place more (hp_outcome p)) state = true -> retry f (at_place more (hp_outcome p)) = false.
Proof.
  intros [_ Hp] H. destruct (retry f _) eqn:R; [|done]. destruct (retry_fails _ _ R) as (F & _). unfold publishAfterSettlement in H.
  rewrite F, not_deferred in H. cbn in H. destruct (oc_terminalFailure (hp_outcome p)) eqn:T; [|done].
  unfold retry in R. rewrite (Hp eq_refl) in R. rewrite !andb_true_iff in R. cbn in R. destruct R as [[[[[[[_ R] _] _] _] _] _] _]. done.
Qed.

Lemma conclude_ends p more rid id i h :
  let o := at_place more (hp_outcome p) in
  plausible_hop p -> settlement_of f o id = Some i -> sound (hd_db h) -> keys_unused (hd_db h) ->
  (exists st, request_in (hd_db h) rid st /\ if si_FinalRequest i then ~ open_request st else st = RqInProgress) ->
  let r := conclude f p o rid (si_State i) true h in step_ends (fst r) (hd_db (snd r)) rid.
Proof.
  intros o Hp Ei Hs Hk (st & Hst & Hfin). pose proof (settlement_final f o id i Ei) as Ef.
  rewrite not_deferred, !andb_false_l in Ef. change (negb false) with true in Ef. rewrite andb_true_r in Ef.
  unfold conclude. rewrite andb_false_r. cbn zeta.
  assert (Late : forall c s, sound s -> step_ends (fst (let '(r, s1) := FinalizeFailedRequest (hp_finalizeCalls p) rid s in
      (inl (B := bool) (NotStored, c && went_through r), mkHandler s1 (hd_pending h)))) (hd_db (snd (let '(r, s1) := FinalizeFailedRequest (hp_finalizeCalls p) rid s in
      (inl (B := bool) (NotStored, c && went_through r), mkHandler s1 (hd_pending h))))) rid).
  { intros c s H0. destruct (FinalizeFailedRequest _ _ _) as [rf sf] eqn:E. cbn. intros [_ W]%andb_true_iff. by eapply finalize_loop_over. }
  unfold publish_response. destruct (publishAfterSettlement f o (si_State i)) eqn:Ep.
  - rewrite (published_no_retry p more _ Hp Ep : retry f o = false). destruct (hp_stored p); [|by apply Late].
    destruct (FinalizeRequest _ _ _ _) as [[[]|err] s3] eqn:E3; cbn [went_through negb fst snd].
    + cbn. intros _. by eapply finalize_over.
    + apply commit_error in E3 as ->. by apply Late.
  - destruct (turn_failed f o) eqn:Et; [by apply Late|]. cbn [went_through negb].
    destruct (retry f o) eqn:Er; cbn [negb andb] in Ef |- *.
    + rewrite Ef in Hfin. subst st. destruct (hp_waited p); cbn.
      * intros _. split; [done|]. split; [done|]. by right.
      * destruct (CloseFailedRequest _ _ _) as [rc sc] eqn:E. cbn. by eapply close_over.
    + rewrite Ef in Hfin. cbn. intros _. by eapply closed_is_over.
Qed.

Lemma conclude_unclean p o rid state h :
  match fst (conclude f p o rid state false h) with inl (_, ok) => ok = false | inr ok => ok = false end.
Proof.
  unfold conclude. rewrite andb_true_r. destruct (publishAfterSettlement _ _ _); [done|].
  destruct (publish_response _ _ _ _ _ _) as [stored s]. destruct (negb (went_through stored)); [by destruct (FinalizeFailedRequest _ _ _)|].
  destruct (negb (retry f o)); [done|]. destruct (hp_waited p); [done|]. by destruct (CloseFailedRequest _ _ _).
Qed.

Lemma run_attempt_ends p more rid id h :
  plausible_hop p -> sound (hd_db h) -> keys_unused (hd_db h) -> under_way (hd_db h) rid id ->
  let r := run_attempt f p more rid id h in step_ends (fst r) (hd_db (snd r)) rid.
Proof.
  intros Hp Hs Hk Hu. unfold run_attempt. destruct (negb (hp_current p)); [by apply cancel_attempt_ends|].
  destruct (mark_kept p rid id _ Hs Hk Hu) as (Hs1 & Hk1 & Hu1). destruct (mark p id (hd_db h)) as [marked s1]. cbn [snd] in Hs1, Hk1, Hu1.
  cbn zeta. destruct (negb (went_through marked)); [by apply cancel_attempt_ends|].
  set (o := at_place more (hp_outcome p)). destruct (settlement_of f o id) as [i|] eqn:Ei; [|done].
  destruct (settle _ _ _ _) as [settled h2] eqn:Es. destruct (went_through settled) eqn:Ew.
  - destruct (settle_request _ _ _ (mkHandler s1 (hd_pending h)) rid _ _ Hs1 Hk1 Hu1 (settlement_key _ _ _ _ Ei) Es Ew) as (Hs2 & Hk2 & Hfin).
    by eapply conclude_ends.
  - pose proof (conclude_unclean p o rid (si_State i) h2) as U. unfold step_ends.
    destruct (fst (conclude f p o rid (si_State i) false h2)) as [[e ok]|ok]; by rewrite U.
Qed.

Lemma refuse_ends e rid clean h :
  between (hd_db h) rid -> rp_clean (fst (refuse e rid clean h)) = true -> rid = "" \/ over (hd_db (snd (refuse e rid clean h))) rid.
Proof.
  intros (Hs & _ & Hr) Hc. unfold refuse, close_if_started in *. destruct (String.eqb_spec rid ""); [by left|right].
  destruct (CloseFailedRequest e rid (hd_db h)) as [r s] eqn:E. cbn in *. apply andb_true_iff in Hc as [_ Hc]. by eapply close_over.
Qed.

Lemma forward_clean plan rid clean h : rp_clean (fst (forward_targets f plan rid clean h)) = true -> clean = true.
Proof.
  revert rid clean h. induction plan as [|p plan IH]; intros rid clean h; cbn [forward_targets]; [done|]. unfold refuse.
  destruct (negb (hp_translated p)); [destruct (close_if_started _ _ _); cbn; by intros [? _]%andb_true_iff|].
  destruct (admit_target p rid (hd_db h)) as [[a|err] s]; [|destruct (close_if_started _ _ _); cbn; by intros [? _]%andb_true_iff].
  destruct (run_attempt _ _ _ _ _ _) as [[[e ok]|ok] h2]; cbn; [by intros [? _]%andb_true_iff|]. intros H%IH. by apply andb_true_iff in H as [? _].
Qed.

Lemma last_attempt_ends p rid id h : match fst (run_attempt f p false rid id h) with inr _ => False | inl _ => True end.
Proof.
  unfold run_attempt. destruct (negb (hp_current p)); [unfold cancel_attempt; by destruct (CancelBeforeDispatch _ _ _)|].
  destruct (mark p id (hd_db h)) as [marked s1]. destruct (negb (went_through marked)); [unfold cancel_attempt; by destruct (CancelBeforeDispatch _ _ _)|].
  set (o := at_place false (hp_outcome p)). destruct (settlement_of f o id) as [i|]; [|done]. destruct (settle _ _ _ _) as [settled h2].
  assert (R : retry f o = false).
  { unfold retry. cbn. by rewrite andb_false_r. }
  unfold conclude. destruct (publishAfterSettlement _ _ _ && _); [done|]. destruct (publish_response _ _ _ _ _ _) as [stored s].
  destruct (negb (went_through stored)); [by destruct (FinalizeFailedRequest _ _ _)|]. by rewrite R.
Qed.

Lemma forward_over plan rid clean h :
  Forall plausible_hop plan -> between (hd_db h) rid -> (plan = [] -> rid = "") ->
  rp_clean (fst (forward_targets f plan rid clean h)) = true ->
  rp_request (fst (forward_targets f plan rid clean h)) = "" \/
  over (hd_db (snd (forward_targets f plan rid clean h))) (rp_request (fst (forward_targets f plan rid clean h))).
Proof.
  intros Hplan. revert rid clean h. induction Hplan as [|p plan Hp _ IH]; intros rid clean h Hb Hne Hc; cbn [forward_targets] in *.
  { left. by apply Hne. }
  assert (Refuse : forall c h0, between (hd_db h0) rid -> rp_clean (fst (refuse (hp_closeCall p) rid c h0)) = true ->
    rp_request (fst (refuse (hp_closeCall p) rid c h0)) = "" \/
    over (hd_db (snd (refuse (hp_closeCall p) rid c h0))) (rp_request (fst (refuse (hp_closeCall p) rid c h0)))).
  { intros c h0 B C. assert (E : rp_request (fst (refuse (hp_closeCall p) rid c h0)) = rid) by (unfold refuse; by destruct (close_if_started _ _ _)).
    rewrite E. by apply refuse_ends. }
  destruct (negb (hp_translated p)); [by apply Refuse|]. destruct (admit_target p rid (hd_db h)) as [admitted s] eqn:Ea.
  destruct admitted as [a|err].
  2: { assert (s = hd_db h) as -> by (unfold admit_target in Ea; destruct (hp_admitRefused p); [by injection Ea as _ <-|by apply Admit_error_keeps in Ea]).
       by apply Refuse. }
  unfold admit_target in Ea. destruct (hp_admitRefused p); [done|]. destruct Hb as (Hs & Hk & _).
  destruct (Admit_under_way _ _ _ _ _ Hs Hk (proj1 Hp : typed_input (with_request rid (hp_admission p))) Ea) as (Hs1 & Hk1 & Hu1 & Hn).
  pose proof (run_attempt_ends p (match plan with [] => false | _ :: _ => true end) _ _ (mkHandler s (hd_pending h)) Hp Hs1 Hk1 Hu1) as R.
  pose proof (last_attempt_ends p (ad_RequestID a) (ad_AttemptID a) (mkHandler s (hd_pending h))) as L. cbn zeta in R.
  destruct plan as [|p' plan]; destruct (run_attempt _ _ _ _ _ _) as [[[e ok]|ok] h2]; cbn in R, L, Hc |- *; try done.
  - right. apply R. by apply andb_true_iff in Hc as [_ Hc].
  - right. apply R. by apply andb_true_iff in Hc as [_ Hc].
  - change (rp_clean (fst (forward_targets f (p' :: plan) (ad_RequestID a) (clean && ok) h2)) = true) in Hc.
    apply IH; [|done|exact Hc]. apply R. apply forward_clean in Hc. by apply andb_true_iff in Hc as [_ Hc].
Qed.
End Request.

(** C8: when a forwarded request returns and the calls that end it went
    through, nothing of it is left running, however many targets were tried
    and wherever the loop stopped: the request is closed, no attempt of it is
    live, no reservation of it is active and no lease is held for it. *)
Theorem forward_leaves_nothing_running (f : forwarded) (plan : list hop) (h : handler) :
  deferredAttachment f = false -> Forall (plausible_hop f) plan -> sound (hd_db h) -> keys_unused (hd_db h) ->
  let '(r, h') := forward_targets f plan "" true h in
  rp_clean r = true -> rp_request r = "" \/ over (hd_db h') (rp_request r).
Proof.
  intros Hf Hp Hs Hk. pose proof (forward_over f Hf plan "" true h Hp) as F. destruct (forward_targets _ _ _ _ _) as [r h']. apply F; [|done].
  split; [done|]. split; [done|]. by left.
Qed.
