(* ===== verification/Projection.v ===== *)
(** The projection of usage events ([usage/projection.go]): the worker that
    carries the outbox of the system database over to the analytics database,
    whose daily totals the dashboard shows. The two databases commit apart, so
    a run may stop between them; an event is then offered again. Also
    [OutboxState], and the retention of event details
    ([operations/service.go]). *)
From S2P Require Import Prelude GoStd Money Calendar Counters Policy Json Decode Store Pricing Admission.
Open Scope string_scope.
Open Scope Z_scope.

(** * The analytics database *)

(** [usage_events]; a payload whose details retention removed is [None]. *)
Record EventRow := mkEventRow {
  ue_Type : string; ue_Request : option string; ue_Attempt : option string; ue_Payload : option Payload; ue_Created : Z }.

(** The primary key of [usage_daily]: date, owner, key, model, connection. *)
Definition DailyKey : Type := string * string * string * string * string.
Record DailyRow := mkDailyRow {
  dy_Requests : Z; dy_Input : Z; dy_Output : Z; dy_CacheCreation : Z; dy_CacheRead : Z; dy_Cache5m : Z; dy_Cache1h : Z;
  dy_WebSearches : Z; dy_Cost : Z; dy_Unknown : Z }.

(** The database, with the [event_detail_cutoff] of [projection_metadata]. *)
Record data := mkData { d_events : gmap string EventRow; d_daily : gmap DailyKey DailyRow; d_cutoff : option Z }.
Record stores := mkStores { st_system : db; st_data : data }.

(** * Reading a payload

    The payload is the text [json.Marshal] wrote; decoding it into a struct
    gives back numbers and null, and strings with invalid UTF-8 replaced. A
    member that is missing leaves the zero value. *)

Fixpoint valid_text_skip (skip : nat) (s : string) : string :=
  match s with
  | EmptyString => ""
  | String c s' =>
    match skip with
    | S k => String c (valid_text_skip k s')
    | O => let '(r, w) := DecodeRuneInString s in
           if (r =? RuneError) && (w =? 1)%nat then encode_rune RuneError +:+ valid_text_skip 0 s'
           else String c (valid_text_skip (Nat.pred w) s')
    end
  end.
Definition valid_text (s : string) : string := valid_text_skip 0 s.

Definition member (p : Payload) (name : string) : option json := snd <$> head (List.filter (fun kv => fst kv =s name) (payload_members p)).
Definition text_member (p : Payload) (name : string) : string := match member p name with Some (JString s) => valid_text s | _ => "" end.
Definition int_pointer (p : Payload) (name : string) : option Z := match member p name with Some (JInt z) => Some z | _ => None end.
(** A number that is absent or null reads as zero. *)
Definition int_member (p : Payload) (name : string) : Z := default 0 (int_pointer p name).

Definition subject_member (p : Payload) : EventSubject :=
  mkEventSubject (text_member p "owner_user_id") (text_member p "key_id") (text_member p "model_id") (text_member p "connection_id")
    (int_member p "started_at").

(** [time.UnixMilli(t).UTC().Format("2006-01-02")]. *)
Definition padded (width : nat) (n : Z) : string :=
  let digits := FormatInt (Z.abs n) in
  (if n <? 0 then "-" else "") +:+ String.concat "" (repeat "0" (width - String.length digits)) +:+ digits.
Definition FormatDate (t : Z) : string :=
  let d := date_of_millis t in padded 4 (Year d) +:+ "-" +:+ padded 2 (Month d) +:+ "-" +:+ padded 2 (Day d).

Definition daily_key (w : EventSubject) : DailyKey := (FormatDate (ev_Started w), ev_Owner w, ev_Key w, ev_Model w, ev_Connection w).

(** The check of the settlement, cancellation and adjustment projections. *)
Definition incomplete_subject (w : EventSubject) : bool :=
  (ev_Owner w =s "") || (ev_Key w =s "") || (ev_Model w =s "") || (ev_Connection w =s "") || (ev_Started w =? 0).

(** * The four projections *)

(** The CHECK constraints of [usage_daily]. *)
Definition daily_ok (y : DailyRow) : bool :=
  (0 <=? dy_CacheCreation y) && (0 <=? dy_CacheRead y) && (0 <=? dy_Cache5m y) && (0 <=? dy_Cache1h y) && (0 <=? dy_WebSearches y).

Definition write_daily (k : DailyKey) (y : DailyRow) (daily : gmap DailyKey DailyRow) : result (gmap DailyKey DailyRow) :=
  if daily_ok y then Ok (<[k := y]> daily) else Err constraint_failed.

(** [checkedAdd] of two columns, with the error of the projection. *)
Definition add_or (err : string) (a b : Z) : result Z :=
  match checkedAdd [a; b] with Some n => Ok n | None => Err (Msg err) end.

(** What one settlement adds to its row. *)
Definition settled_row (p : Payload) (requestIncrement : Z) : DailyRow :=
  let unknown := (text_member p "usage_status" =s "unknown") || negb (is_some (int_pointer p "cost_nanos")) in
  mkDailyRow requestIncrement (int_member p "input_tokens") (int_member p "output_tokens") (int_member p "cache_creation_input_tokens")
    (int_member p "cache_read_input_tokens") (int_member p "cache_creation_5m_input_tokens") (int_member p "cache_creation_1h_input_tokens")
    (int_member p "web_search_call_count") (int_member p "cost_nanos") (if unknown then 1 else 0).

Definition add_rows (y z : DailyRow) : result DailyRow :=
  let add := add_or "usage projection overflow" in
  requests ← add (dy_Requests y) (dy_Requests z);
  input ← add (dy_Input y) (dy_Input z);
  output ← add (dy_Output y) (dy_Output z);
  creation ← add (dy_CacheCreation y) (dy_CacheCreation z);
  read ← add (dy_CacheRead y) (dy_CacheRead z);
  fives ← add (dy_Cache5m y) (dy_Cache5m z);
  hours ← add (dy_Cache1h y) (dy_Cache1h z);
  searches ← add (dy_WebSearches y) (dy_WebSearches z);
  cost ← add (dy_Cost y) (dy_Cost z);
  unknown ← add (dy_Unknown y) (dy_Unknown z);
  Ok (mkDailyRow requests input output creation read fives hours searches cost unknown).

Definition projectSettlement (p : Payload) (requestIncrement : Z) (daily : gmap DailyKey DailyRow) : result (gmap DailyKey DailyRow) :=
  let w := subject_member p in
  _ ← ensure (negb (incomplete_subject w)) (Msg "invalid settlement projection");
  match daily !! daily_key w with
  | None => write_daily (daily_key w) (settled_row p requestIncrement) daily
  | Some y => z ← add_rows y (settled_row p requestIncrement); write_daily (daily_key w) z daily
  end.

Definition with_requests (n : Z) (y : DailyRow) : DailyRow :=
  mkDailyRow n (dy_Input y) (dy_Output y) (dy_CacheCreation y) (dy_CacheRead y) (dy_Cache5m y) (dy_Cache1h y) (dy_WebSearches y) (dy_Cost y)
    (dy_Unknown y).

(** SQLite adds the column itself; past [int64] it would turn into a real. *)
Definition projectCancelledRequest (p : Payload) (requestIncrement : Z) (daily : gmap DailyKey DailyRow) : result (gmap DailyKey DailyRow) :=
  let w := subject_member p in
  _ ← ensure (negb (incomplete_subject w)) (Msg "invalid cancelled request projection");
  match daily !! daily_key w with
  | None => write_daily (daily_key w) (mkDailyRow requestIncrement 0 0 0 0 0 0 0 0 0) daily
  | Some y => write_daily (daily_key w) (with_requests (dy_Requests y + requestIncrement) y) daily
  end.

Definition with_totals (input output cost unknown : Z) (y : DailyRow) : DailyRow :=
  mkDailyRow (dy_Requests y) input output (dy_CacheCreation y) (dy_CacheRead y) (dy_Cache5m y) (dy_Cache1h y) (dy_WebSearches y) cost unknown.

Definition projectReconciliation (p : Payload) (daily : gmap DailyKey DailyRow) : result (gmap DailyKey DailyRow) :=
  let w := subject_member p in
  match daily !! daily_key w with
  | None => Err (Msg "reconciliation has no projected interrupted attempt")
  | Some y =>
    let add := add_or "reconciliation projection overflow" in
    input ← add (dy_Input y) (int_member p "input_tokens");
    output ← add (dy_Output y) (int_member p "output_tokens");
    cost ← add (dy_Cost y) (int_member p "cost_nanos");
    unknown ← add (dy_Unknown y) (int_member p "unknown_delta");
    _ ← ensure (0 <=? unknown) (Msg "reconciliation projection overflow");
    write_daily (daily_key w) (with_totals input output cost unknown y) daily
  end.

Definition projectCostAdjustment (p : Payload) (daily : gmap DailyKey DailyRow) : result (gmap DailyKey DailyRow) :=
  let w := subject_member p in
  _ ← ensure (negb (incomplete_subject w)) (Msg "invalid cost adjustment projection");
  match daily !! daily_key w with
  | None => Err (Msg "cost adjustment has no projected settlement")
  | Some y =>
    cost ← add_or "projected cost overflow" (dy_Cost y) (int_member p "delta_nanos");
    _ ← ensure (0 <=? cost) (Msg "projected cost overflow");
    unknown ← add_or "projected unknown count overflow" (dy_Unknown y) (int_member p "unknown_delta");
    _ ← ensure (0 <=? unknown) (Msg "projected unknown count overflow");
    write_daily (daily_key w) (with_totals (dy_Input y) (dy_Output y) cost unknown y) daily
  end.

(** * One event *)

(** [SELECT COUNT( * ) FROM usage_events WHERE request_id = ? AND event_type IN (...)]. *)
Definition count_events (types : list string) (requestID : string) (events : gmap string EventRow) : Z :=
  Z.of_nat (length (select_rows (fun _ e => contains types (ue_Type e) && bool_decide (ue_Request e = Some requestID)) events)).

Definition request_increment (types : list string) (requestID : option string) (events : gmap string EventRow) : Z :=
  match requestID with
  | Some id => if count_events types id events =? 1 then 1 else 0
  | None => 0
  end.

Definition project_daily (row : OutboxRow) (events : gmap string EventRow) (daily : gmap DailyKey DailyRow) : result (gmap DailyKey DailyRow) :=
  let p := ob_Payload row in let type := event_type p in
  if type =s "attempt.settled" then projectSettlement p (request_increment ["attempt.settled"] (ob_Request row) events) daily
  else if type =s "request.cancelled_before_dispatch" then
    projectCancelledRequest p (request_increment ["attempt.settled"; "request.cancelled_before_dispatch"] (ob_Request row) events) daily
  else if type =s "attempt.reconciled" then projectReconciliation p daily
  else if type =s "attempt.cost_adjusted" then projectCostAdjustment p daily
  else Ok daily.

Definition without_details (e : EventRow) : EventRow := mkEventRow (ue_Type e) (ue_Request e) (ue_Attempt e) None (ue_Created e).

(** The transaction on the analytics database: an event already there changes
    nothing. *)
Definition project_event (cutoff : Z) (row : OutboxRow) (d : data) : result data :=
  match d_events d !! ob_ID row with
  | Some _ => Ok d
  | None =>
    let e := mkEventRow (event_type (ob_Payload row)) (ob_Request row) (ob_Attempt row) (Some (ob_Payload row)) (ob_Created row) in
    let events := <[ob_ID row := e]> (d_events d) in
    daily ← project_daily row events (d_daily d);
    let events := if (0 <? cutoff) && (ob_Created row <? cutoff) then <[ob_ID row := without_details e]> events else events in
    Ok (mkData events daily (d_cutoff d))
  end.

(** * [ProjectOutbox] *)

(** Where the delivery of an event may fail: in the analytics database, or in
    one of the two statements on the outbox after it. *)
Inductive fault := DataFails | MarkFails | DeleteFails.
Definition fault_error : error := Msg "interrupted (9)".

Definition mark_delivered (at_ : Z) (id : string) (l : list OutboxRow) : list OutboxRow :=
  map (fun r => if (ob_ID r =s id) && negb (is_some (ob_Delivered r))
                then mkOutboxRow (ob_ID r) (ob_Request r) (ob_Attempt r) (ob_Payload r) (ob_Created r) (Some at_) else r) l.
Definition delete_delivered (id : string) (l : list OutboxRow) : list OutboxRow :=
  List.filter (fun r => negb ((ob_ID r =s id) && is_some (ob_Delivered r))) l.

Definition on_outbox (f : list OutboxRow -> list OutboxRow) (s : db) : db := set_outbox (f (t_outbox s)) s.

Definition deliver_event (cutoff at_ : Z) (flt : option fault) (row : OutboxRow) (st : stores) : option error * stores :=
  let 'mkStores s d := st in
  match flt with
  | Some DataFails => (Some fault_error, st)
  | _ =>
    match project_event cutoff row d with
    | Err err => (Some err, st)
    | Ok d =>
      match flt with
      | Some MarkFails => (Some fault_error, mkStores s d)
      | _ =>
        let s := on_outbox (mark_delivered at_ (ob_ID row)) s in
        match flt with
        | Some DeleteFails => (Some fault_error, mkStores s d)
        | _ => (None, mkStores (on_outbox (delete_delivered (ob_ID row)) s) d)
        end
      end
    end
  end.

(** The loop: it counts the delivered events and stops at the first error. *)
Fixpoint deliver_events (cutoff : Z) (clock : nat -> Z) (faults : nat -> option fault) (n : nat) (rows : list OutboxRow) (st : stores)
    : Z * option error * stores :=
  match rows with
  | [] => (Z.of_nat n, None, st)
  | row :: rows =>
    match deliver_event cutoff (clock n) (faults n) row st with
    | (Some err, st) => (Z.of_nat n, Some err, st)
    | (None, st) => deliver_events cutoff clock faults (S n) rows st
    end
  end.

Definition projection_limit (limit : Z) : nat := Z.to_nat (if (limit <? 1) || (500 <? limit) then 100 else limit).

(** The outbox is read once, in the order of its sequence. *)
Definition ProjectOutbox (limit : Z) (clock : nat -> Z) (faults : nat -> option fault) (st : stores) : Z * option error * stores :=
  deliver_events (default 0 (d_cutoff (st_data st))) clock faults 0
    (take (projection_limit limit) (List.filter pending (t_outbox (st_system st)))) st.

(** * [OutboxState] *)

Record OutboxStatus := mkOutboxStatus { os_Pending : Z; os_Reserved : Z; os_Bytes : Z; os_Oldest : option Z; os_Full : bool }.

Definition oldest (l : list OutboxRow) : option Z :=
  foldr (fun r acc => Some (match acc with Some t => Z.min (ob_Created r) t | None => ob_Created r end)) None l.

Definition OutboxState (s : db) : OutboxStatus :=
  let reserved := live_attempts s in
  mkOutboxStatus (pending_count s) reserved (pending_bytes s) (oldest (List.filter pending (t_outbox s)))
    ((maxPendingOutboxEvents <=? pending_count s + reserved)
     || (maxPendingOutboxBytes <=? pending_bytes s + reserved * outboxEventAllowance)).

(** * Retention of event details *)

(** The analytics transaction of [RunRetention]: the cutoff never moves back. *)
Definition retain_events (cutoff : Z) (d : data) : data :=
  let effective := match d_cutoff d with Some c => Z.max c cutoff | None => cutoff end in
  mkData ((fun e => if ue_Created e <? effective then without_details e else e) <$> d_events d) (d_daily d) (Some effective).
