(* ===== verification/Mirror.v ===== *)
(** The ledger and its mirror: every operation of the usage services appends
    to the outbox what it changes in the attempts, so the daily totals of the
    analytics database, with the events still to deliver, are the totals of
    the attempts. *)
From S2P Require Import Prelude GoStd Money Calendar Counters Policy Json Decode Store Pricing PolicyService Admission Settlement Reservations Lifecycle Booking Reprice Reachable Projection.
Open Scope Z_scope.
Open Scope list_scope.

(** * What is counted *)

Inductive column := CInput | COutput | CCacheCreation | CCacheRead | CCache5m | CCache1h | CWebSearches | CCost | CUnknown.

Definition cell (c : column) (y : DailyRow) : Z :=
  match c with
  | CInput => dy_Input y | COutput => dy_Output y | CCacheCreation => dy_CacheCreation y | CCacheRead => dy_CacheRead y
  | CCache5m => dy_Cache5m y | CCache1h => dy_Cache1h y | CWebSearches => dy_WebSearches y | CCost => dy_Cost y | CUnknown => dy_Unknown y
  end.
Definition cell_at (c : column) (daily : gmap DailyKey DailyRow) (k : DailyKey) : Z :=
  match daily !! k with Some y => cell c y | None => 0 end.

(** The columns of an attempt. *)
Definition usage_amount (c : column) (us : UsageStatus) (u : AttemptUsage) : Z :=
  match c with
  | CInput => default 0 (au_Input u) | COutput => default 0 (au_Output u) | CCacheCreation => default 0 (au_CacheCreation u)
  | CCacheRead => default 0 (au_CacheRead u) | CCache5m => default 0 (au_Cache5m u) | CCache1h => default 0 (au_Cache1h u)
  | CWebSearches => default 0 (au_WebSearches u) | CCost => default 0 (current_cost u)
  | CUnknown => if bool_decide (us = UsUnknown) || negb (is_some (current_cost u)) then 1 else 0
  end.
Definition attempt_amount (c : column) (a : AttemptRow) : Z :=
  if settled (at_State a) then usage_amount c (at_UsageStatus a) (at_Usage a) else 0.

(** Owner and key of the requests; the daily row an attempt counts in. *)
Definition idents (s : db) : gmap string (string * string) := (fun r => (rq_Owner r, rq_Key r)) <$> t_requests s.
Definition stored (w : EventSubject) : EventSubject :=
  mkEventSubject (valid_text (ev_Owner w)) (valid_text (ev_Key w)) (valid_text (ev_Model w)) (valid_text (ev_Connection w)) (ev_Started w).
Definition attempt_subject (a : AttemptRow) (owner key : string) : EventSubject :=
  mkEventSubject owner key (as_Model (at_Snapshot a)) (as_Connection (at_Snapshot a)) (as_Started (at_Snapshot a)).
Definition key_in (ids : gmap string (string * string)) (a : AttemptRow) : option DailyKey :=
  ok ← ids !! at_Request a; Some (daily_key (stored (attempt_subject a (fst ok) (snd ok)))).

Definition share (ids : gmap string (string * string)) (c : column) (k : DailyKey) (_ : string) (a : AttemptRow) : Z :=
  if decide (key_in ids a = Some k) then attempt_amount c a else 0.

(** The total of a column over the attempts of a day, owner, key, model and
    connection: what the daily row stands for. *)
Definition ledger_total (s : db) (c : column) (k : DailyKey) : Z := msum (share (idents s) c k) (t_attempts s).

(** The columns of an event. *)
Definition event_subject (p : Payload) : option EventSubject :=
  match p with
  | AttemptReserved _ _ _ _ _ => None
  | CancelledBeforeDispatch w | AttemptSettled w _ _ _ | AttemptInterrupted w | AttemptReconciled w _ _ _ _ | CostAdjusted w _ _ => Some w
  end.
Definition correction_amount (c : column) (input output cost unknown : Z) : Z :=
  match c with CInput => input | COutput => output | CCost => cost | CUnknown => unknown | _ => 0 end.
Definition settled_amount (c : column) (us : UsageStatus) (u : AttemptUsage) : Z :=
  match c with
  | CCost => default 0 (au_Recorded u)
  | CUnknown => if bool_decide (us = UsUnknown) || negb (is_some (au_Recorded u)) then 1 else 0
  | _ => usage_amount c us u
  end.
Definition event_amount (c : column) (p : Payload) : Z :=
  match p with
  | AttemptReserved _ _ _ _ _ | CancelledBeforeDispatch _ => 0
  | AttemptSettled _ _ us u => settled_amount c us u
  | AttemptInterrupted _ => match c with CUnknown => 1 | _ => 0 end
  | AttemptReconciled _ input output cost unknown => correction_amount c input output cost unknown
  | CostAdjusted _ delta unknown => correction_amount c 0 0 delta unknown
  end.
Definition event_key (row : OutboxRow) : option DailyKey := (fun w => daily_key (stored w)) <$> event_subject (ob_Payload row).
Definition row_amount (c : column) (k : DailyKey) (row : OutboxRow) : Z :=
  if decide (event_key row = Some k) then event_amount c (ob_Payload row) else 0.
Definition sum_rows (c : column) (k : DailyKey) (l : list OutboxRow) : Z := foldr Z.add 0 (map (row_amount c k) l).

Lemma sum_rows_app c k l1 l2 : sum_rows c k (l1 ++ l2) = sum_rows c k l1 + sum_rows c k l2.
Proof. unfold sum_rows. induction l1 as [|r l1 IH]; simpl; [done|]. rewrite IH. lia. Qed.

Lemma sum_rows_one c k row : sum_rows c k [row] = row_amount c k row.
Proof. unfold sum_rows. simpl. lia. Qed.

Definition settles (p : Payload) : bool := match p with AttemptSettled _ _ _ _ | AttemptInterrupted _ => true | _ => false end.
Definition corrects (p : Payload) : bool := match p with AttemptReconciled _ _ _ _ _ | CostAdjusted _ _ _ => true | _ => false end.
Definition opens (k : DailyKey) (row : OutboxRow) : Prop := settles (ob_Payload row) = true /\ event_key row = Some k.

(** * The log

    The log is the list of all events appended so far; the outbox holds its
    end. It accounts for the attempts, no total goes below zero along it, and
    a correction comes after a settlement of the same daily row. *)

Record logged (ids : gmap string (string * string)) (m : gmap string AttemptRow) (log : list OutboxRow) : Prop := mkLogged {
  lg_keyed : forall id a, m !! id = Some a -> is_Some (key_in ids a);
  lg_total : forall c k, msum (share ids c k) m = sum_rows c k log;
  lg_blank : forall id a, m !! id = Some a -> settled (at_State a) = false -> at_Usage a = no_usage;
  lg_bounds : forall id a c, m !! id = Some a -> 0 <= attempt_amount c a <= max_int64;
  lg_prefix : forall c k p q, log = p ++ q -> 0 <= sum_rows c k p;
  lg_settled : forall id a k, m !! id = Some a -> settled (at_State a) = true -> key_in ids a = Some k -> exists row, row ∈ log /\ opens k row;
  lg_order : forall p row q, log = p ++ row :: q -> corrects (ob_Payload row) = true ->
    exists k row', event_key row = Some k /\ row' ∈ p /\ opens k row';
  lg_amounts : forall row c, row ∈ log -> in_int64 (event_amount c (ob_Payload row)) }.

Lemma key_in_snapshot ids a a' : at_Snapshot a' = at_Snapshot a -> key_in ids a' = key_in ids a.
Proof. unfold key_in, at_Request, attempt_subject. by intros ->. Qed.

(** A list with one more element splits before it or at its end. *)
Lemma snoc_split {A} (l : list A) x p q : l ++ [x] = p ++ q -> (exists q', l = p ++ q' /\ q = q' ++ [x]) \/ (p = l ++ [x] /\ q = []).
Proof.
  destruct q as [|y q _] using rev_ind; intros E; [right; by rewrite app_nil_r in E|left].
  rewrite app_assoc in E. apply app_inj_tail in E as [-> ->]. eauto.
Qed.

Lemma logged_event ids m log id a a' row :
  logged ids m log -> m !! id = Some a -> at_Snapshot a' = at_Snapshot a ->
  (event_key row = key_in ids a \/ forall c, event_amount c (ob_Payload row) = 0) ->
  (forall c, attempt_amount c a' = attempt_amount c a + event_amount c (ob_Payload row)) ->
  (forall c, 0 <= attempt_amount c a' <= max_int64) ->
  (settled (at_State a') = true -> settled (at_State a) = true \/ settles (ob_Payload row) = true /\ event_key row = key_in ids a) ->
  (settled (at_State a') = false -> at_Usage a' = no_usage) ->
  (corrects (ob_Payload row) = true -> settled (at_State a) = true /\ event_key row = key_in ids a) ->
  logged ids (<[id := a']> m) (log ++ [row]).
Proof.
  intros [K T B N P S O A] Ha Es Ek Eam Hn Hs Hb Hc. pose proof (key_in_snapshot ids a a' Es) as Ekey.
  assert (T' : forall c k, msum (share ids c k) (<[id := a']> m) = sum_rows c k (log ++ [row])).
  { intros c k. rewrite (msum_update _ _ _ a _ Ha), T, sum_rows_app, sum_rows_one. unfold share at 1 2. rewrite Ekey, Eam.
    unfold row_amount. destruct Ek as [->|Ez]; [repeat case_decide; lia|]. specialize (Ez c). repeat case_decide; lia. }
  assert (N' : forall i b c, <[id := a']> m !! i = Some b -> 0 <= attempt_amount c b <= max_int64).
  { intros i b c. destruct (decide (id = i)) as [<-|]; [rewrite lookup_insert_eq; by intros [= <-]|rewrite lookup_insert_ne by done; apply N]. }
  split; [|exact T'| |exact N'|..].
  - intros i b. destruct (decide (id = i)) as [<-|]; [rewrite lookup_insert_eq; intros [= <-]; rewrite Ekey; by eapply K|].
    rewrite lookup_insert_ne by done. apply K.
  - intros i b. destruct (decide (id = i)) as [<-|]; [rewrite lookup_insert_eq; by intros [= <-]|rewrite lookup_insert_ne by done; apply B].
  - intros c k p q E. apply snoc_split in E as [(q' & -> & _)|[-> _]]; [by eapply P|]. rewrite <- T'. apply msum_nonneg.
    intros i b Hb'. unfold share. case_decide; [by apply (N' i b c)|lia].
  - assert (W : forall k, (exists r, r ∈ log /\ opens k r) -> exists r, r ∈ log ++ [row] /\ opens k r).
    { intros k (r & Hr & Ho). exists r. split; [set_solver|done]. }
    intros i b k. destruct (decide (id = i)) as [<-|]; [rewrite lookup_insert_eq; intros [= <-]|rewrite lookup_insert_ne by done; intros; apply W; by eapply S].
    intros Hst. rewrite Ekey. intros Hk. destruct (Hs Hst) as [Hold|[Hr E]]; [apply W; by eapply S|].
    exists row. split; [set_solver|]. split; [done|]. by rewrite E.
  - intros p r q E Hr. apply snoc_split in E as [(q' & E & Eq)|[E1 E2]]; [|done].
    destruct q' as [|r' q']; injection Eq as -> Eq; [|subst; by eapply O].
    rewrite app_nil_r in *. subst p. destruct (Hc Hr) as [Hst E]. destruct (K id a Ha) as [k Hk]. destruct (S id a k Ha Hst Hk) as (r' & Hr' & Ho).
    exists k, r'. by rewrite E.
  - intros r c [Hr|Hr%list_elem_of_singleton]%elem_of_app; [by apply A|subst r].
    pose proof (Eam c). pose proof (Hn c). pose proof (N id a c Ha). unfold_ints. lia.
Qed.

(** A write that no column sees. *)
Lemma logged_quiet ids m log id a a' :
  logged ids m log -> m !! id = Some a -> at_Snapshot a' = at_Snapshot a -> settled (at_State a') = settled (at_State a) ->
  at_UsageStatus a' = at_UsageStatus a -> at_Usage a' = at_Usage a -> logged ids (<[id := a']> m) log.
Proof.
  intros [K T B N P S O A] Ha Es Est Eus Eu. pose proof (key_in_snapshot ids a a' Es) as Ekey.
  assert (Eam : forall c, attempt_amount c a' = attempt_amount c a) by (intros c; unfold attempt_amount; by rewrite Est, Eus, Eu).
  assert (L : forall i b, <[id := a']> m !! i = Some b -> exists b0, m !! i = Some b0 /\ key_in ids b = key_in ids b0
    /\ settled (at_State b) = settled (at_State b0) /\ at_Usage b = at_Usage b0 /\ forall c, attempt_amount c b = attempt_amount c b0).
  { intros i b. destruct (decide (id = i)) as [<-|]; [rewrite lookup_insert_eq; intros [= <-]; eauto 10|rewrite lookup_insert_ne by done; eauto 10]. }
  split; [| | | |done| |done|done].
  - intros i b (b0 & Hb & -> & _)%L. by eapply K.
  - intros c k. rewrite (msum_update _ _ _ a _ Ha), T. unfold share. rewrite Ekey, Eam. lia.
  - intros i b (b0 & Hb & _ & -> & -> & _)%L. by eapply B.
  - intros i b c (b0 & Hb & _ & _ & _ & ->)%L. by eapply N.
  - intros i b k (b0 & Hb & -> & -> & _ & _)%L. by eapply S.
Qed.

(** A new attempt of a known request. *)
Lemma logged_admit ids ids' m log id a row :
  logged ids m log -> m !! id = None -> is_Some (key_in ids' a) -> (forall rid ok, ids !! rid = Some ok -> ids' !! rid = Some ok) ->
  live_state (at_State a) = true -> at_Usage a = no_usage -> event_subject (ob_Payload row) = None -> corrects (ob_Payload row) = false ->
  logged ids' (<[id := a]> m) (log ++ [row]).
Proof.
  intros [K T B N P S O A] Ha Hk Hids Hl Hu He Hc.
  assert (Ekey : forall i b, m !! i = Some b -> key_in ids' b = key_in ids b).
  { intros i b Hb. destruct (K i b Hb) as [k Hk']. unfold key_in in Hk' |- *. destruct (ids !! at_Request b) as [ok|] eqn:E; [|done].
    by rewrite (Hids _ _ E). }
  assert (Eset : settled (at_State a) = false) by (destruct (at_State a); done).
  assert (Erow : forall c k, row_amount c k row = 0).
  { intros c k. unfold row_amount, event_key. rewrite He. by case_decide. }
  split.
  - intros i b. destruct (decide (id = i)) as [<-|]; [rewrite lookup_insert_eq; by intros [= <-]|rewrite lookup_insert_ne by done].
    intros Hb. rewrite (Ekey i b Hb). by eapply K.
  - intros c k. rewrite msum_insert by done. rewrite sum_rows_app, sum_rows_one, Erow, <- T.
    rewrite (msum_ext (share ids' c k) (share ids c k)) by (intros i b Hb; unfold share; by rewrite (Ekey i b Hb)).
    unfold share at 1, attempt_amount. rewrite Eset. case_decide; lia.
  - intros i b. destruct (decide (id = i)) as [<-|]; [rewrite lookup_insert_eq; by intros [= <-]|rewrite lookup_insert_ne by done; apply B].
  - intros i b c. destruct (decide (id = i)) as [<-|]; [rewrite lookup_insert_eq; intros [= <-]|rewrite lookup_insert_ne by done; apply N].
    unfold attempt_amount. by rewrite Eset.
  - intros c k p q E. apply snoc_split in E as [(q' & -> & _)|[-> _]]; [by eapply P|].
    rewrite sum_rows_app, sum_rows_one, Erow, Z.add_0_r. eapply (P c k log []). by rewrite app_nil_r.
  - intros i b k. destruct (decide (id = i)) as [<-|]; [rewrite lookup_insert_eq; intros [= <-]; by rewrite Eset|rewrite lookup_insert_ne by done].
    intros Hb Hst. rewrite (Ekey i b Hb). intros E. destruct (S i b k Hb Hst E) as (r & Hr & Ho). exists r. split; [set_solver|done].
  - intros p r q E Hr. apply snoc_split in E as [(q' & E & Eq)|[E1 E2]]; [|done].
    destruct q' as [|r' q']; injection Eq as -> Eq; [by rewrite Hc in Hr|subst; by eapply O].
  - intros r c [Hr|Hr%list_elem_of_singleton]%elem_of_app; [by apply A|subst r]. replace (event_amount c _) with 0; [unfold_ints; lia|].
    unfold event_subject in He. by destruct (ob_Payload row).
Qed.

(** * Transactions that keep the log *)

Definition view (s : db) := (idents s, t_attempts s, t_outbox s).

(** [s'] extends the log of [s]. *)
Definition logs (s s' : db) : Prop :=
  exists new, t_outbox s' = t_outbox s ++ new
    /\ forall log, logged (idents s) (t_attempts s) log -> logged (idents s') (t_attempts s') (log ++ new).

#[export] Instance logs_preorder : PreOrder logs.
Proof.
  split.
  - intros s. exists []. rewrite app_nil_r. split; [done|]. intros log. by rewrite app_nil_r.
  - intros s1 s2 s3 (n1 & E1 & L1) (n2 & E2 & L2). exists (n1 ++ n2). rewrite E2, E1, !app_assoc. split; [done|].
    intros log H. rewrite app_assoc. auto.
Qed.

Lemma logs_frame s s' : view s' = view s -> logs s s'.
Proof. intros [= Ei Ea Eo]. exists []. rewrite Ei, Ea, Eo, app_nil_r. split; [done|]. intros log. by rewrite app_nil_r. Qed.

(** An attempt changes and its event is appended. *)
Lemma logs_event s s' id a a' row :
  view s' = (idents s, <[id := a']> (t_attempts s), t_outbox s ++ [row]) -> t_attempts s !! id = Some a -> at_Snapshot a' = at_Snapshot a ->
  (event_key row = key_in (idents s) a \/ forall c, event_amount c (ob_Payload row) = 0) ->
  (at_Usage a = no_usage \/ settled (at_State a) = true -> (forall c, 0 <= attempt_amount c a <= max_int64) ->
     (forall c, attempt_amount c a' = attempt_amount c a + event_amount c (ob_Payload row)) /\
     (forall c, 0 <= attempt_amount c a' <= max_int64) /\ (settled (at_State a') = false -> at_Usage a' = no_usage)) ->
  (settled (at_State a') = true -> settled (at_State a) = true \/ settles (ob_Payload row) = true /\ event_key row = key_in (idents s) a) ->
  (corrects (ob_Payload row) = true -> settled (at_State a) = true /\ event_key row = key_in (idents s) a) ->
  logs s s'.
Proof.
  intros [= Ei Ea Eo] Ha Es Ek Eam Hs Hc. exists [row]. split; [done|]. intros log L. rewrite Ei, Ea.
  assert (D : at_Usage a = no_usage \/ settled (at_State a) = true).
  { destruct (settled (at_State a)) eqn:E; [by right|left]. by eapply (lg_blank _ _ _ L). }
  destruct (Eam D) as (E1 & E2 & E3); [intros c; by eapply (lg_bounds _ _ _ L)|]. by eapply logged_event.
Qed.

(** What statements see of the view. *)
Lemma keeps_view_request id c f : (forall r, rq_Owner (f r) = rq_Owner r /\ rq_Key (f r) = rq_Key r) -> keeps view (update_row t_requests set_requests id c f).
Proof.
  intros Hf s n s' H. apply update_row_Ok in H as [(r & Hr & _ & _ & ->)|(_ & -> & _)]; [|done]. unfold view, idents. cbn [t_attempts t_outbox t_requests set_requests].
  destruct (Hf r) as [Eo Ek]. rewrite fmap_insert, Eo, Ek, insert_id; [done|]. by rewrite lookup_fmap, Hr.
Qed.
Lemma keeps_view_requests c f : (forall r, rq_Owner (f r) = rq_Owner r /\ rq_Key (f r) = rq_Key r) -> keeps view (update_rows t_requests set_requests c f).
Proof.
  intros Hf. apply keeps_modify. intros s. unfold view, idents. cbn [t_attempts t_outbox t_requests set_requests]. do 2 f_equal.
  apply map_eq. intros i. rewrite !lookup_fmap, map_lookup_imap. destruct (t_requests s !! i) as [r|]; [|done]. simpl.
  destruct (Hf r) as [Eo Ek]. destruct (c i r); by rewrite ?Eo, ?Ek.
Qed.
#[local] Hint Extern 1 (keeps _ (update_row t_requests _ _ _ _)) => apply keeps_view_request; intros; split; reflexivity : keeps.
#[local] Hint Extern 1 (keeps _ (update_rows t_requests _ _ _)) => apply keeps_view_requests; intros; split; reflexivity : keeps.

Lemma updateQuotaPeriod_view p t c r : keeps view (updateQuotaPeriod p t c r).
Proof. unfold updateQuotaPeriod. keeps_tac. Qed.
Lemma wrap_tx_view {A} prefix (m : tx db A) : keeps view m -> keeps view (wrap_tx prefix m).
Proof. intros Hm s a s' H%wrap_tx_Ok. by eapply Hm. Qed.
Lemma or_fail_view {A} err (m : tx db A) : keeps view m -> keeps view (or_fail err m).
Proof. intros Hm s a s'. unfold or_fail. destruct (m s) as [[b s1]|] eqn:E; [|done]. intros [= -> ->]. by eapply Hm. Qed.
#[local] Hint Resolve updateQuotaPeriod_view wrap_tx_view or_fail_view : keeps.
Lemma settle_reservation_view o n p t a item : keeps view (settle_reservation o n p t a item).
Proof. unfold settle_reservation, set_reservation_state. destruct item as [? [? ?]]. keeps_tac. Qed.
#[local] Hint Resolve settle_reservation_view : keeps.
Lemma settle_item_view t u tk c x : keeps view (settle_item t u tk c x).
Proof. unfold settle_item, set_reservation_state. keeps_tac. Qed.
Lemma reconcile_item_view t tk c x : keeps view (reconcile_item t tk c x).
Proof. unfold reconcile_item, set_reservation_state. keeps_tac. Qed.
Lemma release_view id t : keeps view (releaseReservations id t).
Proof. unfold releaseReservations, release_item, set_reservation_state. keeps_tac. Qed.
Lemma correct_view id d a t : keeps view (reconcileSpendPeriods id d a t).
Proof. unfold reconcileSpendPeriods, spend_item, settle_uncertain. keeps_tac. Qed.
Lemma delete_leases_view k id : keeps view (delete_leases k id).
Proof. unfold delete_leases. keeps_tac. Qed.
Lemma insert_ledger_view k row : keeps view (insert_ledger k row).
Proof. unfold insert_ledger. keeps_tac. Qed.
Lemma record_assessment_view tok id snap i c t : keeps view (record_assessment tok id snap i c t).
Proof. unfold record_assessment, insert_assessment. keeps_tac. Qed.
Lemma set_request_state_view id st fin : keeps view (set_request_state id st fin).
Proof. unfold set_request_state. keeps_tac. Qed.
#[local] Hint Resolve settle_item_view reconcile_item_view release_view correct_view delete_leases_view insert_ledger_view record_assessment_view
  set_request_state_view : keeps.
Lemma end_or_continue_view final id st t : keeps view (end_or_continue final id st t).
Proof. unfold end_or_continue. keeps_tac. Qed.
#[local] Hint Resolve end_or_continue_view : keeps.

(** The statements that write the view, from a known view. *)
Lemma update_attempt_view id f s n s' ids m o a :
  view s = (ids, m, o) -> m !! id = Some a -> update_row t_attempts set_attempts id (fun _ => true) f s = Ok (n, s') ->
  view s' = (ids, <[id := f a]> m, o).
Proof. intros [= <- <- <-] Ha H. by rewrite (update_row_always _ _ _ _ _ _ _ a Ha H). Qed.

Lemma append_view tok r id p t s u s' ids m o :
  view s = (ids, m, o) -> appendOutbox tok r id p t s = Ok (u, s') -> exists row, ob_Payload row = p /\ view s' = (ids, m, o ++ [row]).
Proof. intros [= <- <- <-]. unfold appendOutbox. intros H. tx_inv. eexists. split; [|reflexivity]. done. Qed.

Lemma view_of {A} (m : tx db A) s a s' v : view s = v -> m s = Ok (a, s') -> keeps view m -> view s' = v.
Proof. intros <- H Hk. by eapply Hk. Qed.

(** [kept H E] passes a statement of the run [H] that keeps the view [E]. *)
Ltac kept H E :=
  let K := fresh "K" in
  apply tx_bind_Ok in H as (? & ? & K & H); apply (view_of _ _ _ _ _ E) in K; [|solve [keeps_tac]]; clear E; rename K into E.
(** [wrote H E a] passes the update of the attempt [a]. *)
Ltac wrote H E a :=
  let K := fresh "K" in
  apply tx_bind_Ok in H as (? & ? & K & H); eapply update_attempt_view with (a := a) in K; [|exact E|done]; clear E; rename K into E.

Lemma view_key s a r : t_requests s !! at_Request a = Some r -> Some (daily_key (stored (subject_of a r))) = key_in (idents s) a.
Proof. intros H. unfold key_in, idents. by rewrite lookup_fmap, H. Qed.

(** * The operations *)

Lemma cancel_logs e id : evolves logs (cancel_tx e id).
Proof.
  intros s u s' H. unfold cancel_tx in H. apply tx_bind_Ok in H as ([a r] & s0 & Hg & H). apply get_row_Ok in Hg as [Hj ->].
  destruct (attempt_join s id) as [[a0 r0]|] eqn:Ej; [|done]. cbn in Hj. destruct (decide (at_State a0 = AtReserved)) as [Est|]; [|done].
  injection Hj as -> ->. apply attempt_join_Some in Ej as [Ha Hr]. assert (E : view s = view s) by done. unfold view at 2 in E.
  kept H E. kept H E. kept H E. wrote H E a. kept H E. eapply append_view in H as (row & Ep & E'); [|exact E].
  eapply logs_event; [exact E'|exact Ha|done|right; by rewrite Ep| |done|by rewrite Ep].
  intros D B. unfold attempt_amount in B |- *. rewrite Ep, Est in *. cbn. split; [done|]. split; [done|]. intros _. destruct D as [D|D]; done.
Qed.

(** An attempt that had no usage gets the usage of its first settlement. *)
Lemma settled_amounts a st us u c :
  settled (at_State a) = false -> settled st = true -> au_Restated u = au_Recorded u ->
  attempt_amount c (mkAttemptRow (at_Snapshot a) st us u (at_FirstByte a) (at_Finished a)) = attempt_amount c a + settled_amount c us u.
Proof.
  intros Ha Hst Hu. unfold attempt_amount. rewrite Ha. cbn [at_State at_UsageStatus at_Usage]. rewrite Hst, Z.add_0_l.
  unfold settled_amount, usage_amount, current_cost. rewrite Hu. destruct c; try done; by destruct (au_Recorded u).
Qed.

Definition count_fits (v : option Z) : Prop := match v with Some n => 0 <= n <= max_int64 | None => True end.
Definition counts_ok (u : AttemptUsage) : Prop :=
  forall v, v ∈ [au_Input u; au_Output u; au_CacheCreation u; au_CacheRead u; au_Cache5m u; au_Cache1h u; au_WebSearches u; au_Recorded u] -> count_fits v.

Lemma settled_fits c us u : counts_ok u -> 0 <= settled_amount c us u <= max_int64.
Proof.
  intros H. assert (D : forall v, v ∈ [au_Input u; au_Output u; au_CacheCreation u; au_CacheRead u; au_Cache5m u; au_Cache1h u; au_WebSearches u; au_Recorded u] ->
    0 <= default 0 v <= max_int64) by (intros v Hv; specialize (H v Hv); destruct v; [done|unfold max_int64; cbn; lia]).
  destruct c; cbn; try (apply D; set_solver). unfold max_int64. case_match; lia.
Qed.

(** Calculated costs are not negative. *)
Lemma calculateCacheAwareCost_nonneg i o c ri ro rc r : calculateCacheAwareCost i o c ri ro rc = Ok r -> count_fits r.
Proof.
  destruct r as [a|]; [|done]. intros (_ & _ & _ & _ & cu & cc & co & Hu & Hco & Hcc & -> & Hm)%calculateCacheAwareCost_Ok.
  apply tokenCost_range in Hu, Hco. cbn. destruct (0 <? c); [apply tokenCost_range in Hcc|injection Hcc as <-]; lia.
Qed.

Lemma addWebSearchCost_nonneg cost fee calls r : count_fits cost -> addWebSearchCost cost fee calls = Ok r -> count_fits r.
Proof.
  unfold addWebSearchCost. destruct cost as [c|]; [|by intros _ [= <-]]. intros Hc. destruct (calls =? 0) eqn:C0; [by intros [= <-]|].
  intros ([] & G & H)%result_bind_Ok. apply ensure_Ok in G. destruct fee as [fee|]; [|by injection H as <-].
  apply result_bind_Ok in H as ([] & G2 & H). apply ensure_Ok in G2. destruct (checkedAdd _) as [t|] eqn:E; [|done]. injection H as <-.
  apply negb_true_iff, orb_false_iff in G as [C1 C2], G2 as [F1 F2]. cbn in Hc.
  assert (0 <= fee * calls <= max_int64).
  { rewrite Z.quot_div_nonneg in F2 by (unfold max_int64; lia). apply Z.ltb_ge in F2. split; [nia|].
    etrans; [|apply (Z.mul_div_le max_int64 calls); lia]. rewrite (Z.mul_comm calls). apply Z.mul_le_mono_nonneg_r; lia. }
  rewrite wrap64_id in E by (unfold_ints; lia). apply checkedAdd_nonneg in E as [-> Hm]; [|by rewrite !Forall_cons]. cbn in *. lia.
Qed.

Lemma calculatedPriceCost_nonneg s p i o cc cr ws r : calculatedPriceCost s p i o cc cr ws = Ok r -> count_fits r.
Proof.
  unfold calculatedPriceCost. destruct i, o; try by intros [= <-].
  match goal with |- (if ?b then _ else _) = _ -> _ => destruct b end; [by intros [= <-]|]. destruct (t_prices s !! p); [|done].
  intros (x & Hx & H)%result_bind_Ok. apply calculateCacheAwareCost_nonneg in Hx. destruct ws; [by eapply addWebSearchCost_nonneg|by injection H as <-].
Qed.

Lemma calculated_cost_nonneg s i a r : count_fits (si_CostNanos i) -> calculated_cost s i a = Ok r -> count_fits r.
Proof.
  intros Hc. unfold calculated_cost. destruct (si_CostNanos i) as [c|]; [by intros [= <-]|]. destruct (as_Price a); [|by intros [= <-]].
  destruct (may_calculate i a); [|by intros [= <-]]. intros H. by apply calculatedPriceCost_nonneg in H.
Qed.

(** The inputs are Go integers. *)
Definition int64_pointer (v : option Z) : Prop := match v with Some n => in_int64 n | None => True end.

Lemma check_settlement_counts i ts st us : int64_pointer (si_CostNanos i) -> check_settlement i ts = Ok (st, us) ->
  settled st = true /\ Forall count_fits [si_InputTokens i; si_OutputTokens i; si_CacheCreation i; si_CacheRead i; si_Cache5m i; si_Cache1h i; si_WebSearchCalls i; si_CostNanos i].
Proof.
  unfold check_settlement. intros Hi H. do 2 apply result_bind_Ok in H as (? & _ & H). apply result_bind_Ok in H as ([] & G & H).
  apply result_bind_Ok in H as (? & _ & H). apply ensure_Ok, negb_true_iff in G. rewrite !orb_false_iff in G.
  destruct G as [[[[[[[G1 G2] G3] G4] G5] G6] G7] G8]. split.
  - unfold settled_state_of in H. repeat case_match; simplify_eq; done.
  - assert (B : forall v, bad_count v = false -> count_fits v) by (intros [n|]; cbn; [unfold maxSafeInteger, max_int64; lia|done]).
    rewrite !Forall_cons, Forall_nil. split_and!; auto; [destruct (si_WebSearchCalls i)|destruct (si_CostNanos i)]; cbn in *; try done; unfold_ints; lia.
Qed.

(** * Settlement *)

Lemma settle_logs e id i st us : int64_pointer (si_CostNanos i) -> check_settlement i (si_ToolStatus i) = Ok (st, us) -> evolves logs (settle_tx e id i st us).
Proof.
  intros Hi Ck s u s' H. destruct (check_settlement_counts _ _ _ _ Hi Ck) as [Hst Hn]. unfold settle_tx in H.
  apply tx_bind_Ok in H as (a & ? & G & H). apply get_row_Ok in G as [Ha ->]. apply tx_bind_Ok in H as (? & ? & G & H). apply require_Ok in G as [_ ->].
  apply tx_bind_Ok in H as (? & ? & G & H). apply reads_Ok in G as [-> ->].
  destruct (t_ledger s !! si_IdempotencyKey i); [apply lift_Ok in H as [_ ->]; reflexivity|].
  apply tx_bind_Ok in H as ([a0 r] & ? & G & H). apply get_row_Ok in G as [G ->]. apply attempt_join_Some in G as [Ha0 Hr].
  rewrite Ha in Ha0. injection Ha0 as <-. apply tx_bind_Ok in H as (? & ? & G & H). apply require_Ok in G as [Hlive ->].
  apply tx_bind_Ok in H as (cost & ? & G & H). apply lift_Ok in G as [Hcost ->]. apply tx_bind_Ok in H as (tokens & ? & G & H). apply lift_Ok in G as [_ ->].
  cbn [snd] in H. unfold book_settlement in H.
  assert (Hl : settled (at_State a) = false) by (destruct (at_State a); done).
  assert (E : view s = view s) by done. unfold view at 2 in E. kept H E.
  apply tx_bind_Ok in H as (? & ? & K & H). apply reads_Ok in K as [-> ->].
  kept H E. apply tx_bind_Ok in H as (? & ? & K & H). apply require_Ok in K as [_ ->].
  wrote H E a. kept H E. kept H E. kept H E. eapply append_view in H as (row & Ep & E'); [|exact E].
  pose proof (view_key s a r Hr) as Ek. unfold event_key in *.
  assert (Cu : counts_ok (usage_of i cost (si_ToolStatus i))).
  { rewrite !Forall_cons in Hn. destruct Hn as (N1 & N2 & N3 & N4 & N5 & N6 & N7 & N8 & _). apply calculated_cost_nonneg in Hcost; [|done].
    intros v Hv. rewrite !elem_of_cons in Hv. cbn in Hv. destruct Hv as [->|[->|[->|[->|[->|[->|[->|[->|Hv]]]]]]]]; try done. by apply elem_of_nil in Hv. }
  eapply logs_event; [exact E'|exact Ha|done|left; unfold event_key; by rewrite Ep| | |by rewrite Ep].
  - intros _ _. split; [|split].
    + intros c. rewrite Ep. exact (settled_amounts a st us (usage_of i cost (si_ToolStatus i)) c Hl Hst eq_refl).
    + intros c. unfold settle_attempt_row.
      pose proof (settled_amounts a st us (usage_of i cost (si_ToolStatus i)) c Hl Hst eq_refl) as S. unfold attempt_amount in S |- *. cbn in S |- *.
      rewrite S, Hl. pose proof (settled_fits c us _ Cu). lia.
    + cbn. by rewrite Hst.
  - intros _. right. rewrite Ep. split; [done|]. unfold event_key. by rewrite Ep.
Qed.

(** * Corrections *)

(** A correction of a settled attempt: what it changes is what it reports. *)
Lemma correction_logs s s' id a a' row :
  view s' = (idents s, <[id := a']> (t_attempts s), t_outbox s ++ [row]) -> t_attempts s !! id = Some a -> at_Snapshot a' = at_Snapshot a ->
  event_key row = key_in (idents s) a -> (at_Usage a = no_usage -> settled (at_State a) = true) -> settled (at_State a') = settled (at_State a) ->
  (settled (at_State a) = true -> (forall c, 0 <= attempt_amount c a <= max_int64) ->
     forall c, attempt_amount c a' = attempt_amount c a + event_amount c (ob_Payload row) /\ 0 <= attempt_amount c a' <= max_int64) -> logs s s'.
Proof.
  intros E Ha Es Ek Hst Est Eam.
  assert (S : at_Usage a = no_usage \/ settled (at_State a) = true -> settled (at_State a) = true) by (intros [?|?]; auto).
  destruct (settled (at_State a)) eqn:Ha'; [|].
  - eapply logs_event; [exact E|done|done|by left| |auto|auto]. intros _ B. split; [|split; [|by rewrite Est]]; intros c; by destruct (Eam eq_refl B c).
  - exists [row]. injection E as E1 E2 E3. split; [done|]. intros log L. exfalso. pose proof (lg_blank _ _ _ L id a Ha Ha') as B.
    specialize (Hst B). discriminate Hst.
Qed.

Lemma subtract_exact v old d : 0 <= v <= max_int64 -> 0 <= default 0 old <= max_int64 -> subtract v old = Some d -> d = v - default 0 old.
Proof.
  intros Hv Ho. unfold subtract. rewrite wrap64_id by (unfold_ints; lia).
  intros E. apply checkedAdd_exact in E as [-> _]; [cbn; lia|]. rewrite !Forall_cons. unfold_ints. split_and!; lia || done.
Qed.

(** The columns of a reconciled attempt. *)
Lemma reconciled_amounts a us input output inputCost inputDelta outputDelta costDelta c :
  let previous := current_cost (at_Usage a) in
  let effective := coalesce inputCost previous in
  let next := match effective with Some _ => us | None => UsUnknown end in
  let was := bool_decide (at_UsageStatus a = UsUnknown) || negb (is_some previous) in
  let delta := if was && negb (bool_decide (next = UsUnknown)) && is_some effective then -1 else 0 in
  settled (at_State a) = true -> (forall c, 0 <= attempt_amount c a <= max_int64) ->
  us <> UsUnknown -> 0 <= input <= max_int64 -> 0 <= output <= max_int64 -> count_fits inputCost ->
  subtract input (au_Input (at_Usage a)) = Some inputDelta -> subtract output (au_Output (at_Usage a)) = Some outputDelta ->
  match inputCost with Some n => subtract n previous | None => Some 0 end = Some costDelta ->
  attempt_amount c (reconcile_usage next input output inputCost a)
    = attempt_amount c a + correction_amount c inputDelta outputDelta costDelta delta
  /\ 0 <= attempt_amount c (reconcile_usage next input output inputCost a) <= max_int64.
Proof.
  intros previous effective next was delta Hst B Hus Hi Ho Hc Di Do Dc.
  assert (Bi : 0 <= default 0 (au_Input (at_Usage a)) <= max_int64) by (specialize (B CInput); unfold attempt_amount in B; by rewrite Hst in B).
  assert (Bo : 0 <= default 0 (au_Output (at_Usage a)) <= max_int64) by (specialize (B COutput); unfold attempt_amount in B; by rewrite Hst in B).
  assert (Bc : 0 <= default 0 previous <= max_int64) by (specialize (B CCost); unfold attempt_amount in B; by rewrite Hst in B).
  apply subtract_exact in Di, Do; try done.
  assert (Ec : costDelta = match inputCost with Some n => n - default 0 previous | None => 0 end).
  { destruct inputCost as [n|]; [by apply subtract_exact in Dc|]. by injection Dc as <-. }
  assert (Ecur : current_cost (at_Usage (reconcile_usage next input output inputCost a)) = effective).
  { unfold effective, coalesce, current_cost. cbn. destruct inputCost; [done|]. unfold previous, current_cost. by destruct (au_Restated _). }
  specialize (B c). unfold attempt_amount in B |- *. rewrite Hst in *. cbn [at_State reconcile_usage]. rewrite Hst.
  unfold usage_amount. rewrite Ecur. fold previous in B |- *. destruct c; cbn in B |- *; try lia; try (split; [lia|exact B]).
  - rewrite Ec. unfold effective. destruct inputCost as [n|]; cbn in Hc |- *; lia.
  - unfold delta, was, next. unfold max_int64. fold previous. destruct effective as [n|] eqn:E; cbn.
    + rewrite (bool_decide_eq_false_2 (us = UsUnknown)) by done. cbn. rewrite !andb_true_r. clear. destruct (_ || _); lia.
    + rewrite (bool_decide_eq_true_2 (UsUnknown = UsUnknown)) by done. cbn. rewrite andb_false_r.
      assert (previous = None) as -> by (unfold effective, coalesce in E; destruct inputCost; done). rewrite orb_true_r. clear. lia.
Qed.

Lemma check_reconciliation_counts i input output us : int64_pointer (ri_CostNanos i) -> check_reconciliation i = Ok (input, output, us) ->
  us <> UsUnknown /\ 0 <= input <= max_int64 /\ 0 <= output <= max_int64 /\ count_fits (ri_CostNanos i).
Proof.
  unfold check_reconciliation. intros Hi. destruct (ri_InputTokens i) as [n|], (ri_OutputTokens i) as [m|], (usage_status_of (ri_UsageStatus i)) as [st|]; try done.
  intros ([] & G & [= -> -> ->])%result_bind_Ok. apply ensure_Ok, negb_true_iff in G. rewrite !orb_false_iff in G.
  destruct G as [[[[[[[G1 G2] G3] G4] _] _] _] _]. apply bool_decide_eq_false in G4. cbn in G1, G2. unfold maxSafeInteger in *.
  split_and!; [done|unfold max_int64; lia..|]. destruct (ri_CostNanos i); cbn in *; [unfold_ints; lia|done].
Qed.

Lemma reconcile_logs e actor id i input output us tokens :
  int64_pointer (ri_CostNanos i) -> check_reconciliation i = Ok (input, output, us) -> evolves logs (reconcile_tx e actor id i input output us tokens).
Proof.
  intros Hi Ck s u s' H. destruct (check_reconciliation_counts _ _ _ _ Hi Ck) as (Hus & Hin & Hout & Hcost). unfold reconcile_tx in H.
  apply tx_bind_Ok in H as (? & ? & G & H). apply reads_Ok in G as [-> ->]. apply tx_bind_Ok in H as (? & ? & G & H). apply lift_Ok in G as [_ ->].
  apply tx_bind_Ok in H as (? & ? & G & H). apply require_Ok in G as [_ ->].
  destruct (t_ledger s !! ri_IdempotencyKey i); [apply require_Ok in H as [_ ->]; reflexivity|].
  apply tx_bind_Ok in H as ([a r] & ? & G & H). apply get_row_Ok in G as [G ->]. apply attempt_join_Some in G as [Ha Hr].
  apply tx_bind_Ok in H as (? & ? & G & H). apply lift_Ok in G as [_ ->].
  apply tx_bind_Ok in H as (? & ? & G & H). apply require_Ok in G as [Hrec ->].
  apply tx_bind_Ok in H as (? & ? & G & H). apply require_Ok in G as [_ ->].
  apply tx_bind_Ok in H as (inputCost & ? & G & H). apply lift_Ok in G as [Hic ->].
  apply tx_bind_Ok in H as (? & ? & G & H). apply lift_Ok in G as [_ ->].
  assert (E : view s = view s) by done. unfold view at 2 in E. unfold requireOutboxCapacity in H. kept H E.
  assert (Hst : settled (at_State a) = true).
  { unfold reconcilable in Hrec. apply orb_true_iff in Hrec as [Hrec|Hrec]; apply andb_true_iff in Hrec as [Hrec _]; [|done].
    apply bool_decide_eq_true in Hrec. by rewrite Hrec. }
  assert (Hcf : count_fits inputCost).
  { destruct (ri_CostNanos i) as [n|]; [by injection Hic as <-|]. destruct (current_cost _); [by injection Hic as <-|].
    destruct (as_Price _); [|by injection Hic as <-]. destruct (as_WebSearchMax _); [by injection Hic as <-|]. by apply calculatedPriceCost_nonneg in Hic. }
  unfold book_reconciliation in H. apply tx_bind_Ok in H as (? & ? & G & H). apply reads_Ok in G as [-> ->]. kept H E. wrote H E a.
  destruct (subtract input _) as [di|] eqn:Di; [|by apply fail_Ok in H]. destruct (subtract output _) as [do|] eqn:Dou; [|by apply fail_Ok in H].
  destruct (match inputCost with Some n => _ | None => _ end) as [dc|] eqn:Dc; [|by apply fail_Ok in H].
  apply tx_bind_Ok in H as (? & ? & G & H). apply lift_Ok in G as [_ ->]. kept H E.
  apply tx_bind_Ok in H as (? & ? & K & H). eapply append_view in K as (row & Ep & E'); [|exact E]. apply (view_of _ _ _ _ _ E') in H; [|keeps_tac].
  pose proof (view_key s a r Hr) as Ek.
  eapply correction_logs; [exact H|exact Ha|done|unfold event_key; by rewrite Ep|done|done|].
  intros _ B c. rewrite Ep. by apply reconciled_amounts.
Qed.

(** The columns of an attempt whose cost is restated. *)
Lemma restated_amounts a amount delta c :
  settled (at_State a) = true -> (forall c, 0 <= attempt_amount c a <= max_int64) -> at_UsageStatus a <> UsUnknown -> 0 <= amount <= max_int64 ->
  delta = amount - default 0 (current_cost (at_Usage a)) ->
  attempt_amount c (with_restated amount a)
    = attempt_amount c a + correction_amount c 0 0 delta (if is_some (current_cost (at_Usage a)) then 0 else -1)
  /\ 0 <= attempt_amount c (with_restated amount a) <= max_int64.
Proof.
  intros Hst B Hus Ha ->. specialize (B c). unfold attempt_amount in B |- *. rewrite Hst in *. cbn [at_State with_restated]. rewrite Hst.
  destruct c; cbn in B |- *; try (split; [lia|exact B]); [lia|].
  rewrite (bool_decide_eq_false_2 _ Hus). cbn. unfold max_int64. destruct (is_some _); cbn; lia.
Qed.

Lemma restate_view id amount s u s' ids m o a :
  view s = (ids, m, o) -> m !! id = Some a -> restate id amount s = Ok (u, s') -> view s' = (ids, <[id := with_restated amount a]> m, o).
Proof.
  intros E Ha H. unfold restate in H. apply tx_bind_Ok in H as (? & ? & K & H). apply tx_ret_Ok in H as [_ ->].
  by eapply update_attempt_view in K.
Qed.

Lemma adjust_logs e actor id delta reason key : in_int64 delta -> evolves logs (adjust_tx e actor id delta reason key).
Proof.
  intros Hd s u s' H. unfold adjust_tx in H.
  apply tx_bind_Ok in H as (? & ? & G & H). apply reads_Ok in G as [-> ->]. apply tx_bind_Ok in H as (? & ? & G & H). apply lift_Ok in G as [_ ->].
  apply tx_bind_Ok in H as (? & ? & G & H). apply require_Ok in G as [_ ->].
  apply tx_bind_Ok in H as ([a r] & ? & G & H). apply get_row_Ok in G as [G ->]. apply attempt_join_Some in G as [Ha Hr].
  apply tx_bind_Ok in H as (? & ? & G & H). apply require_Ok in G as [Hst ->].
  apply tx_bind_Ok in H as (? & ? & G & H). apply require_Ok in G as [Hus ->].
  apply tx_bind_Ok in H as (? & ? & G & H). apply lift_Ok in G as [_ ->].
  destruct (t_ledger s !! key); [apply lift_Ok in H as [_ ->]; reflexivity|].
  destruct (checkedAdd _) as [next|] eqn:En; [|by apply fail_Ok in H].
  apply tx_bind_Ok in H as (? & ? & G & H). apply require_Ok in G as [Hpos ->].
  assert (E : view s = view s) by done. unfold view at 2 in E. unfold requireOutboxCapacity in H. kept H E. kept H E.
  apply tx_bind_Ok in H as (? & ? & K & H). eapply restate_view in K; [|exact E|exact Ha]. clear E; rename K into E. kept H E. kept H E.
  apply tx_bind_Ok in H as (? & ? & K & H). eapply append_view in K as (row & Ep & E'); [|exact E]. apply tx_ret_Ok in H as [_ ->].
  pose proof (view_key s a r Hr) as Ek. apply negb_true_iff, bool_decide_eq_false in Hus.
  eapply correction_logs; [exact E'|exact Ha|done|unfold event_key; by rewrite Ep|done|done|].
  intros _ B c. rewrite Ep. pose proof (B CCost) as Bc. unfold attempt_amount in Bc. rewrite Hst in Bc. cbn in Bc.
  apply checkedAdd_exact in En as [-> Hn]; [|rewrite !Forall_cons; unfold_ints; split_and!; lia || done].
  cbn in Hpos, Hn |- *. apply restated_amounts; [done|done|done|unfold_ints; lia|lia].
Qed.

(** ** Historical repricing *)

(** An item of a range, as its attempt stands. *)
Definition item_for (ids : gmap string (string * string)) (m : gmap string AttemptRow) (i : repriceItem) : Prop :=
  exists a, m !! it_attemptID i = Some a /\ Some (daily_key (stored (it_who i))) = key_in ids a
    /\ at_UsageStatus a <> UsUnknown /\ at_Usage a <> no_usage /\ 0 <= it_amount i <= max_int64
    /\ it_delta i = wrap64 (it_amount i - default 0 (current_cost (at_Usage a)))
    /\ it_resolveUnknown i = negb (is_some (current_cost (at_Usage a))).

Lemma insert_or_ignore_view k row : keeps view (insert_or_ignore_assessment k row).
Proof. unfold insert_or_ignore_assessment. keeps_tac. Qed.
#[local] Hint Resolve insert_or_ignore_view : keeps.

Lemma reprice_item_logs e actor n i s d s' : item_for (idents s) (t_attempts s) i -> apply_reprice_item e actor n i s = Ok (d, s') ->
  logs s s' /\ (forall j, it_attemptID j <> it_attemptID i -> item_for (idents s) (t_attempts s) j -> item_for (idents s') (t_attempts s') j).
Proof.
  intros (a & Ha & Ek & Hus & Hu & Hm & Hd & Hr) H. unfold apply_reprice_item in H. assert (E : view s = view s) by done. unfold view at 2 in E.
  apply tx_bind_Ok in H as ([] & ? & K & H); apply (view_of _ _ _ _ _ E) in K; try (solve [keeps_tac]); clear E; rename K into E.
  2: { apply tx_ret_Ok in H as [_ ->]. injection E as Ei Ea Eo. split; [apply logs_frame; unfold view; by rewrite Ei, Ea, Eo|]. intros j _. by rewrite Ei, Ea. }
  kept H E. apply tx_bind_Ok in H as (? & ? & K & H). eapply restate_view in K; [|exact E|exact Ha]. clear E; rename K into E. kept H E.
  apply tx_bind_Ok in H as (? & ? & K & H). eapply append_view in K as (row & Ep & E'); [|exact E]. apply tx_ret_Ok in H as [_ ->]. split.
  - eapply correction_logs; [exact E'|exact Ha|done|unfold event_key; by rewrite Ep|done|done|].
    intros Hst B c. rewrite Ep. pose proof (B CCost) as Bc. unfold attempt_amount in Bc. rewrite Hst in Bc. cbn in Bc.
    rewrite wrap64_id in Hd by (unfold_ints; lia). cbn [event_amount]. rewrite Hr.
    replace (if negb (is_some (current_cost (at_Usage a))) then -1 else 0) with (if is_some (current_cost (at_Usage a)) then 0 else -1) by (by destruct (is_some _)).
    by apply restated_amounts.
  - injection E' as Ei Ea _. intros j Hne (b & Hb & Hj). exists b. rewrite Ei, Ea, lookup_insert_ne by done. done.
Qed.

Lemma reprice_all_logs e actor items : forall n applied delta s r s',
  NoDup (map it_attemptID items) -> Forall (item_for (idents s) (t_attempts s)) items ->
  apply_reprice_all e actor n applied delta items s = Ok (r, s') -> logs s s'.
Proof.
  induction items as [|i items IH]; intros n applied delta s r s' Hnd Hok H; cbn [apply_reprice_all] in H.
  { apply tx_ret_Ok in H as [_ ->]. reflexivity. }
  cbn in Hnd. apply NoDup_cons in Hnd as [Hi Hnd]. apply Forall_cons in Hok as [Hi0 Hok]. apply tx_bind_Ok in H as (d & s1 & H1 & H).
  destruct (reprice_item_logs _ _ _ _ _ _ _ Hi0 H1) as [L1 Hmono].
  assert (Hok1 : Forall (item_for (idents s1) (t_attempts s1)) items).
  { apply Forall_forall. intros j Hj. apply Hmono; [|by eapply Forall_forall in Hok]. intros E. apply Hi. rewrite <- E. apply list_elem_of_fmap. by exists j. }
  etransitivity; [exact L1|]. destruct d as [d|]; [|by eapply IH]. destruct (checkedAdd _); [by eapply IH|by apply fail_Ok in H].
Qed.

(** What the query of a range guarantees of its rows. *)
Definition row_of_range (s : db) (row : string * (AttemptRow * RequestRow)) : Prop :=
  t_attempts s !! row.1 = Some row.2.1 /\ t_requests s !! at_Request row.2.1 = Some row.2.2
  /\ at_UsageStatus row.2.1 <> UsUnknown /\ at_Usage row.2.1 <> no_usage.

Lemma reprice_row_item s c m row i :
  row_of_range s row -> reprice_row s c m row = Ok (Some i) -> item_for (idents s) (t_attempts s) i /\ it_attemptID i = row.1.
Proof.
  destruct row as [id [a r]]. intros (Ha & Hr & Hus & Hu). cbn [fst snd] in *. unfold reprice_row. intros H.
  apply result_bind_Ok in H as (adj & _ & H). destruct (priceAt _ _ _ _) as [[pid p]|]; [|done].
  apply result_bind_Ok in H as (am & _ & H). apply result_bind_Ok in H as ([am'|] & _ & H); [|done].
  destruct (checkedAdd _) as [target|] eqn:E; [|done]. destruct (target <? 0) eqn:Et; [done|]. injection H as <-. split; [|done].
  apply checkedAdd_range in E. exists a. cbn. pose proof (view_key s a r Hr). split_and!; try done; [lia|unfold_ints; lia|].
  by rewrite (bool_decide_eq_false_2 _ Hus), andb_true_r.
Qed.

Lemma reprice_each_items s c m rows : forall items missing,
  Forall (row_of_range s) rows -> reprice_each s c m rows = Ok (items, missing) ->
  Forall (item_for (idents s) (t_attempts s)) items /\ sublist (map it_attemptID items) (map fst rows).
Proof.
  induction rows as [|row rows IH]; intros items missing Hrows H; cbn in H; [injection H as <- <-; split; constructor|].
  apply Forall_cons in Hrows as [Hrow Hrows]. apply result_bind_Ok in H as (i & Hi & H).
  apply result_bind_Ok in H as ([items' missing'] & Hrest & H). destruct (IH _ _ Hrows Hrest) as [F S].
  destruct i as [i|]; injection H as <- <-; [|split; [done|by constructor]].
  destruct (reprice_row_item _ _ _ _ _ Hrow Hi) as [Fi Ei]. split; [by constructor|]. cbn. rewrite Ei. by constructor.
Qed.

Lemma reprice_rows_ranged s c m from to : Forall (row_of_range s) (reprice_rows s c m from to) /\ NoDup (map fst (reprice_rows s c m from to)).
Proof.
  unfold reprice_rows. set (rows := omap _ _). assert (P := merge_sort_Permutation attempt_first rows). split.
  - apply Forall_take. rewrite P. apply Forall_forall. intros [id [a r]] Hin.
    apply list_elem_of_omap in Hin as ([id' a'] & Hin & E). apply elem_of_select_rows in Hin as [Ha Hq]. cbn in E.
    destruct (t_requests s !! at_Request a') as [r'|] eqn:Er; [|done]. injection E as -> -> ->. cbn [fst snd] in *.
    unfold repriceable in Hq. rewrite !andb_true_iff in Hq. destruct Hq as [Hq Hus].
    split_and!; [done..|by apply negb_true_iff, bool_decide_eq_false in Hus|]. intros E. change (at_Usage a = no_usage) in E. rewrite E in Hq. cbn in Hq. naive_solver.
  - eapply sublist_NoDup with (l2 := map fst (merge_sort attempt_first rows)); [|change (map fst (take 10001 (merge_sort attempt_first rows))) with (fst <$> take 10001 (merge_sort attempt_first rows)); rewrite fmap_take; apply sublist_take].
    rewrite P. unfold rows. clear P rows. match goal with |- NoDup (map fst (omap ?f ?l)) => assert (sublist (map fst (omap f l)) (l.*1)) as Hsub end.
    + induction (select_rows _ _) as [|[id a] l IH]; cbn; [constructor|]. destruct (t_requests s !! at_Request a); cbn; by constructor.
    + eapply sublist_NoDup; [|exact Hsub]. apply NoDup_select_rows.
Qed.

Lemma reprice_logs e actor input from to : evolves logs (apply_reprice_tx e actor input from to).
Proof.
  intros s u s' H. unfold apply_reprice_tx in H.
  apply tx_bind_Ok in H as (? & ? & G & H). apply reads_Ok in G as [-> ->]. apply tx_bind_Ok in H as (? & ? & G & H). apply lift_Ok in G as [_ ->].
  apply tx_bind_Ok in H as (? & ? & G & H). apply require_Ok in G as [_ ->].
  destruct (t_jobs s !! _); [tx_inv; reflexivity|].
  apply tx_bind_Ok in H as ([items missing] & ? & G & H). apply lift_Ok in G as [Hitems ->].
  assert (E : view s = view s) by done. unfold requireOutboxCapacity in H. kept H E.
  apply tx_bind_Ok in H as ([applied delta] & s2 & Hloop & H).
  unfold repriceItems in Hitems. apply result_bind_Ok in Hitems as (? & _ & Hitems).
  destruct (reprice_rows_ranged s (rp_ConnectionID input) (rp_ModelID input) from to) as [F N].
  apply reprice_each_items in Hitems as [Fi Si]; [|done]. etransitivity; [apply logs_frame; exact E|]. injection E as Ei Ea _.
  etransitivity; [eapply reprice_all_logs; [by eapply sublist_NoDup|by rewrite Ei, Ea|exact Hloop]|].
  apply logs_frame. unfold insert_job in H. assert (E : view s2 = view s2) by done. kept H E. kept H E. by apply tx_ret_Ok in H as [_ ->].
Qed.

(** * Recovery *)

Definition to_recover (ids : gmap string (string * string)) (m : gmap string AttemptRow) (x : nat * (string * (AttemptRow * RequestRow))) : Prop :=
  let '(_, (id, (a, r))) := x in
  m !! id = Some a /\ live a /\ Some (daily_key (stored (subject_of a r))) = key_in ids a.

Lemma recover_item_logs e x s u s' : to_recover (idents s) (t_attempts s) x -> recover_item e x s = Ok (u, s') ->
  logs s s' /\ (forall y, y.2.1 <> x.2.1 -> to_recover (idents s) (t_attempts s) y -> to_recover (idents s') (t_attempts s') y).
Proof.
  destruct x as [n [id [a r]]]. intros (Ha & Hl & Ek) H. unfold recover_item in H. assert (E : view s = view s) by done. unfold view at 2 in E.
  assert (Hns : settled (at_State a) = false) by (unfold live in Hl; by destruct (at_State a)).
  assert (Keep : forall a' o, view s' = (idents s, <[id := a']> (t_attempts s), o) ->
    forall y, y.2.1 <> (n, (id, (a, r))).2.1 -> to_recover (idents s) (t_attempts s) y -> to_recover (idents s') (t_attempts s') y).
  { intros a' o [= Ei Em _] [n' [id' [b rb]]] Hne (Hb & Hlb & Hkb). cbn in Hne. unfold to_recover. rewrite Ei, Em, lookup_insert_ne by done. done. }
  destruct (decide (at_State a = AtReserved)) as [Est|].
  - kept H E. wrote H E a. kept H E. eapply append_view in H as (row & Ep & E'); [|exact E]. split; [|by eapply Keep].
    eapply logs_event; [exact E'|exact Ha|done|right; by rewrite Ep| |done|by rewrite Ep].
    intros D B. unfold attempt_amount in B |- *. rewrite Ep, Hns in *. cbn. split; [done|]. split; [done|]. intros _. by destruct D.
  - kept H E. wrote H E a. kept H E. eapply append_view in H as (row & Ep & E'); [|exact E]. split; [|by eapply Keep].
    eapply logs_event; [exact E'|exact Ha|done|left; unfold event_key; by rewrite Ep| | |by rewrite Ep].
    + intros D B. rewrite Ep. assert (U : at_Usage a = no_usage) by (by destruct D; [|congruence]). unfold attempt_amount in B |- *. rewrite Hns in *. cbn. rewrite U.
      split; [by intros []|]. split; [|done]. intros []; vm_compute; split; discriminate.
    + intros _. right. rewrite Ep. split; [done|]. unfold event_key. by rewrite Ep.
Qed.

Lemma recover_loop_logs e s0 items s u s' :
  logs s0 s -> NoDup (map (fun x => x.2.1) items) -> Forall (to_recover (idents s) (t_attempts s)) items ->
  for_each (recover_item e) items s = Ok (u, s') -> logs s0 s'.
Proof.
  revert s u. induction items as [|x items IH]; intros s u L N F H; cbn [for_each] in H; [by apply tx_ret_Ok in H as [_ ->]|].
  cbn in N. apply NoDup_cons in N as [Nx N]. apply Forall_cons in F as [Fx F]. apply tx_bind_Ok in H as (? & s1 & H1 & H).
  destruct (recover_item_logs _ _ _ _ _ Fx H1) as [L1 K]. eapply IH; [by etransitivity|done| |exact H].
  apply Forall_forall. intros y Hy. apply K; [|by eapply Forall_forall in F]. intros E. apply Nx. rewrite <- E. apply list_elem_of_fmap. by exists y.
Qed.

Lemma recover_logs e : evolves logs (recover_tx e).
Proof.
  intros s u s' H. unfold recover_tx in H. apply tx_bind_Ok in H as (? & ? & G & H). apply reads_Ok in G as [-> ->].
  apply tx_bind_Ok in H as (? & s1 & Hloop & H).
  assert (E : map (fun x : nat * (string * (AttemptRow * RequestRow)) => x.2.1) (imap pair (live_join s)) = (live_join s).*1).
  { transitivity (map fst (map snd (imap pair (live_join s)))); [by rewrite map_map|by rewrite map_snd_imap_pair]. }
  etransitivity; [eapply (recover_loop_logs e s); [reflexivity|rewrite E; apply NoDup_live_join| |exact Hloop]|].
  - apply Forall_forall. intros [n [id [a r]]] Hel. apply (list_elem_of_fmap_2 snd) in Hel. cbn in Hel.
    change (snd <$> imap pair (live_join s)) with (map snd (imap pair (live_join s))) in Hel. rewrite map_snd_imap_pair in Hel.
    apply elem_of_live_join in Hel as (Ha & Hl & Hr). split_and!; [done..|by apply view_key].
  - clear E. assert (E : view s1 = view s1) by done. apply tx_bind_Ok in H as (? & ? & G & H). apply reads_Ok in G as [-> ->].
    kept H E. kept H E. apply tx_bind_Ok in H as (? & ? & G & H). apply reads_Ok in G as [-> ->].
    apply (view_of _ _ _ _ _ E) in H; [|keeps_tac]. by apply logs_frame.
Qed.

(** * Admission and the other operations *)

Lemma applyPlan_view e rq at_ t x : keeps view (applyPlan e rq at_ t x).
Proof. unfold applyPlan, insert_lease, upsert_bucket, upsert_period, insert_reservation. destruct x as [n plan]. keeps_tac. Qed.
Lemma clock_view e n fl : keeps view (effectiveTimeTxAtLeast e n fl).
Proof. unfold effectiveTimeTxAtLeast. keeps_tac. Qed.
Lemma plans_view e rq at_ t l : keeps view (for_each (applyPlan e rq at_ t) l).
Proof. apply keeps_for_each. intros x. apply applyPlan_view. Qed.
#[local] Hint Resolve applyPlan_view clock_view plans_view : keeps.

(** The request of an admission is known afterwards, and others stay. *)
Lemma book_request_view i rid owner t s u s' ids m o :
  view s = (ids, m, o) -> (ai_RequestID i = ""%string \/ rid = ai_RequestID i /\ is_Some (ids !! rid)) -> book_request i rid owner t s = Ok (u, s') ->
  exists ids', view s' = (ids', m, o) /\ is_Some (ids' !! rid) /\ forall k v, ids !! k = Some v -> ids' !! k = Some v.
Proof.
  intros E Hr H. unfold book_request in H. destruct (String.eqb_spec (ai_RequestID i) "") as [Ez|Ez].
  - apply insert_row_Ok in H as [Hn ->]. injection E as <- <- <-. exists (<[rid := (owner, ai_KeyID i)]> (idents s)).
    split; [unfold view, idents; cbn; by rewrite fmap_insert|]. split; [by rewrite lookup_insert_eq|].
    intros k v Hk. rewrite lookup_insert_ne; [done|]. intros ->. unfold idents in Hk. by rewrite lookup_fmap, Hn in Hk.
  - destruct Hr as [?|[-> Hr]]; [done|]. exists ids. split; [|done].
    apply tx_bind_Ok in H as (? & ? & K & H). apply tx_ret_Ok in H as [_ ->]. apply (view_of _ _ _ _ _ E) in K; [done|keeps_tac].
Qed.

Lemma insert_attempt_view id snap s u s' ids m o :
  view s = (ids, m, o) -> insert_attempt id snap s = Ok (u, s') ->
  m !! id = None /\ view s' = (ids, <[id := mkAttemptRow snap AtReserved UsPending no_usage None None]> m, o).
Proof.
  intros [= <- <- <-] H. unfold insert_attempt in H. apply tx_bind_Ok in H as (? & ? & G & H). apply reads_Ok in G as [-> ->].
  apply tx_bind_Ok in H as (? & ? & G & H). apply require_Ok in G as [_ ->]. by apply insert_row_Ok in H as [Hn ->].
Qed.

Lemma admit_logs e i n : evolves logs (admit_tx e i n).
Proof.
  intros s x s' H. unfold admit_tx in H. assert (E : view s = view s) by done. unfold view at 2 in E.
  set (rid := if ai_RequestID i =s "" then _ else _) in H.
  kept H E. apply tx_bind_Ok in H as ([k u] & ? & G & H). apply get_row_Ok in G as [_ ->]. apply tx_bind_Ok in H as (? & ? & G & H). apply require_Ok in G as [_ ->].
  apply tx_bind_Ok in H as (s1 & s2 & G & H). apply reads_Ok in G as [-> ->]. apply tx_bind_Ok in H as (? & ? & G & H). apply require_Ok in G as [_ ->].
  apply tx_bind_Ok in H as (ordinal & ? & G & H). apply attempt_ordinal_request in G as [-> Hreq].
  assert (Hknown : ai_RequestID i = ""%string \/ rid = ai_RequestID i /\ is_Some (idents s !! rid)).
  { unfold rid. destruct (String.eqb_spec (ai_RequestID i) "") as [?|Hne]; [by left|right]. split; [done|]. destruct (Hreq Hne) as (rq & Hrq & _).
    injection E as Ei _ _. rewrite <- Ei. unfold idents. rewrite lookup_fmap, Hrq. by eexists. }
  unfold requireOutboxCapacity in H. kept H E. cbv zeta in H. apply tx_bind_Ok in H as (? & ? & G & H). apply lift_Ok in G as [_ ->].
  apply tx_bind_Ok in H as ([priceID cost] & ? & G & H). apply lift_Ok in G as [_ ->]. apply tx_bind_Ok in H as (? & ? & G & H). apply lift_Ok in G as [_ ->].
  apply tx_bind_Ok in H as (plans & ? & G & H). apply lift_Ok in G as [_ ->]. apply tx_bind_Ok in H as (? & ? & G & H).
  destruct (book_request_view _ _ _ _ _ _ _ _ _ _ E Hknown G) as (ids & E2 & [ok Hok] & Hids). clear E.
  apply tx_bind_Ok in H as (? & ? & G2 & H). destruct (insert_attempt_view _ _ _ _ _ _ _ _ E2 G2) as [Hf E]. kept H E.
  apply tx_bind_Ok in H as (? & ? & K & H). eapply append_view in K as (row & Ep & E'); [|exact E]. apply tx_ret_Ok in H as [_ ->].
  injection E' as Ei Em Eo. exists [row]. split; [done|]. intros log L. rewrite Ei, Em. eapply logged_admit; [exact L|done| |done|done|done|by rewrite Ep|by rewrite Ep].
  unfold key_in, at_Request. cbn. rewrite Hok. by eexists.
Qed.

Lemma mark_logs from to id : live_state from = true -> live_state to = true -> evolves logs (mark_attempt from to id).
Proof.
  intros Hf Ht s u s' H. unfold mark_attempt in H. apply tx_bind_Ok in H as (n & s1 & K & H). apply require_Ok in H as [_ ->].
  apply update_row_Ok in K as [(a & Ha & Hc & _ & ->)|(_ & -> & _)]; [|reflexivity]. apply bool_decide_eq_true in Hc.
  exists []. split; [by rewrite app_nil_r|]. intros log L. rewrite app_nil_r. eapply logged_quiet; [exact L|exact Ha|done| |done|done].
  cbn. rewrite Hc. by destruct from, to.
Qed.

Lemma close_failed_view e id : keeps view (close_failed_tx e id).
Proof. unfold close_failed_tx. keeps_tac. Qed.
Lemma finalize_view e id st : keeps view (finalize_request_tx e id st).
Proof. unfold finalize_request_tx, delete_request_leases. keeps_tac. Qed.
Lemma repair_view e : keeps view (repair_tx e).
Proof.
  unfold repair_tx. apply keeps_bind; [auto with keeps|]. intros ids. induction ids as [|id ids IH]; cbn [repair_all]; [keeps_tac|].
  apply keeps_bind; [|intros ?; apply keeps_bind; [done|keeps_tac]]. unfold repair_request, delete_request_leases. keeps_tac.
Qed.

(** * One call *)

(** The costs given to a call are Go integers; an admission's input is typed. *)
Definition typed_call (op : operation) : Prop :=
  match op with
  | OpAdmit i => typed_input i
  | OpSettle _ i => int64_pointer (si_CostNanos i)
  | OpReconcileUnknown _ _ i => int64_pointer (ri_CostNanos i)
  | _ => True
  end.

Lemma commit_view {A} (m : tx db A) s : keeps view m -> logs s (snd (commit m s)).
Proof. intros Hk. apply logs_frame, keeps_commit, Hk. Qed.
Lemma commit_logs {A} (m : tx db A) s : evolves logs m -> logs s (snd (commit m s)).
Proof. apply evolves_commit, _. Qed.

Lemma create_policy_view e actor i : keeps view (create_policy_tx e actor i).
Proof. unfold create_policy_tx. keeps_tac. Qed.
Lemma update_policy_view e actor id r l u en : keeps view (update_policy_tx e actor id r l u en).
Proof. unfold update_policy_tx. keeps_tac. Qed.
Lemma create_price_view e actor i a b c d f t : keeps view (create_price_tx e actor i a b c d f t).
Proof. unfold create_price_tx, close_price. keeps_tac. Qed.

(** Every call of an operation appends to the outbox what it changes in the
    attempts. *)
Lemma perform_logs parse_time e op s : typed_call op -> logs s (perform parse_time e op s).
Proof.
  intros Ht. destruct op; cbn [perform typed_call] in *.
  - unfold Admit. destruct (invalid_admission i); [reflexivity|]. destruct (checkedAdd _); [|reflexivity]. apply commit_logs, admit_logs.
  - by apply commit_logs, mark_logs.
  - by apply commit_logs, mark_logs.
  - unfold Settle. destruct (check_settlement _ _) as [[st us]|] eqn:E; [|reflexivity]. by apply commit_logs, settle_logs.
  - apply commit_logs, cancel_logs.
  - apply commit_view, close_failed_view.
  - apply commit_view, finalize_view.
  - unfold ReconcileUnknown. destruct (check_reconciliation i) as [[[input output] us]|] eqn:E; [|reflexivity].
    cbn. destruct (nullableInt64Sum _ _); [|reflexivity]. by apply commit_logs, reconcile_logs.
  - apply commit_logs, recover_logs.
  - apply commit_view, repair_view.
  - unfold ApplyReprice. destruct (_ || _); [reflexivity|]. destruct (repriceRange _ _) as [[from to]|]; [|reflexivity]. apply commit_logs, reprice_logs.
  - unfold AdjustCost. destruct (_ || _); [reflexivity|]. destruct (parseSignedUSD usd) as [d|] eqn:E; [|reflexivity]. apply parseSignedUSD_range in E.
    destruct (d =? 0); [reflexivity|]. by apply commit_logs, adjust_logs.
  - unfold CreatePolicy. destruct (validatePolicyInput i) as [j|]; [|reflexivity].
    pose proof (commit_view _ s (create_policy_view e actor j)) as K. by destruct (commit _ s) as [[[? ?]|] s'].
  - unfold UpdatePolicy. pose proof (commit_view _ s (update_policy_view e actor id revision limit usd enabled)) as K. by destruct (commit _ s) as [[?|] s'].
  - unfold CreatePrice. match goal with |- context [match ?c with Ok _ => _ | Err _ => _ end] => destruct c as [[[[[a b] c0] d] [f t]]|] end; [|reflexivity].
    pose proof (commit_view _ s (create_price_view e actor i a b c0 d f t)) as K. by destruct (commit _ s) as [[[? ?]|] s'].
  - apply commit_view. unfold effectiveTimeTx, effectiveTimeTxAtLeast. keeps_tac.
Qed.

(** * The identifiers of the outbox *)

(** No two rows share an identifier, and a new row is still to deliver. *)
Definition distinct_kept (s s' : db) : Prop :=
  (NoDup (map ob_ID (t_outbox s)) -> NoDup (map ob_ID (t_outbox s'))) /\ forall r, r ∈ t_outbox s' -> r ∈ t_outbox s \/ ob_Delivered r = None.

Lemma distinct_kept_preorder : PreOrder distinct_kept.
Proof. split; [intros s; split; auto|intros s1 s2 s3 [N1 D1] [N2 D2]; split; [auto|]]. intros r [Hr|Hr]%D2; auto. Qed.
Lemma evolves_append tok r id p t : evolves distinct_kept (appendOutbox tok r id p t).
Proof.
  intros s u s' H. unfold appendOutbox in H. tx_inv. split; [intros N|intros r1 Hr%elem_of_app; rewrite list_elem_of_singleton in Hr; destruct Hr as [Hr| ->]; auto]. cbn.
  match goal with G : _ && _ = true |- _ => apply andb_true_iff in G as [G _]; rewrite forallb_forall in G end.
  rewrite map_app. apply NoDup_app. split; [done|]. split; [|apply NoDup_singleton].
  intros x Hx ->%list_elem_of_singleton. apply list_elem_of_fmap in Hx as (r0 & E & Hr). cbn in E.
  apply list_elem_of_In, H0 in Hr. rewrite E, String.eqb_refl in Hr. done.
Qed.
Lemma evolves_same_outbox {A} (m : tx db A) : keeps t_outbox m -> evolves distinct_kept m.
Proof. apply evolves_keeps. unfold distinct_kept. intros s s' ->. auto. Qed.
#[local] Hint Extern 1 (PreOrder _) => apply distinct_kept_preorder : evolves.
#[local] Hint Resolve evolves_append : evolves.
#[local] Hint Extern 2 (evolves _ _) => apply evolves_same_outbox; solve [auto with keeps] : evolves.
Lemma evolves_same_view {A} (m : tx db A) : keeps view m -> evolves distinct_kept m.
Proof. apply evolves_keeps. unfold distinct_kept. intros s s' [= _ _ ->]. auto. Qed.
#[local] Hint Extern 1 (evolves _ (settle_reservation _ _ _ _ _ _)) => apply evolves_same_view, settle_reservation_view : evolves.
#[local] Hint Extern 1 (evolves _ (releaseReservations _ _)) => apply evolves_same_view, release_view : evolves.
#[local] Hint Extern 1 (evolves _ (reconcileSpendPeriods _ _ _ _)) => apply evolves_same_view, correct_view : evolves.
#[local] Hint Extern 1 (evolves _ (end_or_continue _ _ _ _)) => apply evolves_same_view, end_or_continue_view : evolves.
#[local] Hint Extern 1 (evolves _ (record_assessment _ _ _ _ _ _)) => apply evolves_same_view, record_assessment_view : evolves.
#[local] Hint Extern 1 (evolves _ (effectiveTimeTxAtLeast _ _ _)) => apply evolves_same_view, clock_view : evolves.
#[local] Hint Extern 1 (evolves _ (for_each (applyPlan _ _ _ _) _)) => apply evolves_same_view, plans_view : evolves.
#[local] Hint Extern 1 (evolves _ (for_each (settle_item _ _ _ _) _)) => apply evolves_same_view, keeps_for_each; intros ?; apply settle_item_view : evolves.
#[local] Hint Extern 1 (evolves _ (for_each (reconcile_item _ _ _) _)) => apply evolves_same_view, keeps_for_each; intros ?; apply reconcile_item_view : evolves.

Lemma admit_distinct e i n : evolves distinct_kept (admit_tx e i n).
Proof. unfold admit_tx, attempt_ordinal, requireOutboxCapacity, book_request, insert_attempt. evolves_tac. Qed.
Lemma settle_distinct e id i st us : evolves distinct_kept (settle_tx e id i st us).
Proof. unfold settle_tx, book_settlement, delete_leases, insert_ledger. evolves_tac. Qed.
Lemma cancel_distinct e id : evolves distinct_kept (cancel_tx e id).
Proof. unfold cancel_tx, delete_leases, set_request_state. evolves_tac. Qed.
Lemma reconcile_distinct e actor id i input output us tokens : evolves distinct_kept (reconcile_tx e actor id i input output us tokens).
Proof. unfold reconcile_tx, requireOutboxCapacity, book_reconciliation, insert_ledger. evolves_tac. Qed.
Lemma recover_item_distinct e x : evolves distinct_kept (recover_item e x).
Proof. unfold recover_item, set_request_state. evolves_tac. Qed.
Lemma recover_distinct e : evolves distinct_kept (recover_tx e).
Proof.
  unfold recover_tx. apply evolves_bind; [apply distinct_kept_preorder|apply evolves_still; [apply distinct_kept_preorder|auto with keeps]|intros items].
  apply evolves_bind; [apply distinct_kept_preorder| |intros ?; evolves_tac; apply evolves_same_outbox, keeps_modify; done].
  induction (imap pair items) as [|x l IH]; cbn [for_each]; [evolves_tac|].
  apply evolves_bind; [apply distinct_kept_preorder|apply recover_item_distinct|intros ?; exact IH].
Qed.
Lemma adjust_distinct e actor id d r k : evolves distinct_kept (adjust_tx e actor id d r k).
Proof. unfold adjust_tx, requireOutboxCapacity, insert_ledger, restate. evolves_tac. Qed.
Lemma reprice_item_distinct e actor n i : evolves distinct_kept (apply_reprice_item e actor n i).
Proof. unfold apply_reprice_item, insert_or_ignore_assessment, insert_ledger, restate. evolves_tac. Qed.
Lemma reprice_all_distinct e actor items : forall n a d, evolves distinct_kept (apply_reprice_all e actor n a d items).
Proof.
  induction items as [|i items IH]; intros; cbn [apply_reprice_all]; [evolves_tac|].
  apply evolves_bind; [apply distinct_kept_preorder|apply reprice_item_distinct|intros ?; evolves_tac; apply IH].
Qed.
#[local] Hint Resolve reprice_all_distinct : evolves.
Lemma reprice_distinct e actor input from to : evolves distinct_kept (apply_reprice_tx e actor input from to).
Proof. unfold apply_reprice_tx, requireOutboxCapacity, insert_job. evolves_tac. Qed.

(** An event gets an identifier of its own. *)
Lemma perform_distinct parse_time e op s : distinct_kept s (perform parse_time e op s).
Proof.
  assert (C : forall A (m : tx db A), evolves distinct_kept m -> distinct_kept s (snd (commit m s))).
  { intros A m. apply evolves_commit, distinct_kept_preorder. }
  assert (V : forall A (m : tx db A), keeps view m -> distinct_kept s (snd (commit m s))) by (intros A m Hm; by apply C, evolves_same_view).
  assert (R : distinct_kept s s) by (unfold distinct_kept; auto).
  destruct op; cbn [perform].
  - unfold Admit. destruct (invalid_admission i); [done|]. destruct (checkedAdd _); [|done]. apply C, admit_distinct.
  - apply C. unfold mark_attempt. evolves_tac.
  - apply C. unfold mark_attempt. evolves_tac.
  - unfold Settle. destruct (check_settlement _ _) as [[st us]|] eqn:E; [|done]. apply C, settle_distinct.
  - apply C, cancel_distinct.
  - apply V, close_failed_view.
  - apply V, finalize_view.
  - unfold ReconcileUnknown. destruct (_ ≫= _) as [[[[input output] us] tokens]|]; [|done]. apply C, reconcile_distinct.
  - apply C, recover_distinct.
  - apply V, repair_view.
  - unfold ApplyReprice. destruct (_ || _); [done|]. destruct (repriceRange _ _) as [[from to]|]; [|done]. apply C, reprice_distinct.
  - unfold AdjustCost. destruct (_ || _); [done|]. destruct (parseSignedUSD usd) as [d|]; [|done]. destruct (d =? 0); [done|]. apply C, adjust_distinct.
  - unfold CreatePolicy. destruct (validatePolicyInput i) as [j|]; [|done].
    pose proof (V _ _ (create_policy_view e actor j)) as K. by destruct (commit _ s) as [[[? ?]|] s'].
  - unfold UpdatePolicy. pose proof (V _ _ (update_policy_view e actor id revision limit usd enabled)) as K. by destruct (commit _ s) as [[?|] s'].
  - unfold CreatePrice. match goal with |- context [match ?c with Ok _ => _ | Err _ => _ end] => destruct c as [[[[[a b] c0] d] [f t]]|] end; [|done].
    pose proof (V _ _ (create_price_view e actor i a b c0 d f t)) as K. by destruct (commit _ s) as [[[? ?]|] s'].
  - apply V. unfold effectiveTimeTx, effectiveTimeTxAtLeast. keeps_tac.
Qed.
