(* ===== verification/Counted.v ===== *)
(** How the projection counts requests: an event adds its request to the daily
    row it writes when it is the first of that request that counts. *)
From S2P Require Import Prelude GoStd Money Calendar Counters Policy Json Decode Store Projection Mirror.
Open Scope Z_scope.
Open Scope list_scope.

Definition cancels (p : Payload) : bool := match p with CancelledBeforeDispatch _ => true | _ => false end.
Definition about (id : string) (row : OutboxRow) : bool := bool_decide (ob_Request row = Some id).

(** A settlement counts unless one of the request came before it; a
    cancellation unless anything of the request that counts did. *)
Definition first_of_request (before : list OutboxRow) (row : OutboxRow) : bool :=
  match ob_Request row with
  | Some id =>
    if settles (ob_Payload row) then negb (existsb (fun r => settles (ob_Payload r) && about id r) before)
    else cancels (ob_Payload row) && negb (existsb (fun r => (settles (ob_Payload r) || cancels (ob_Payload r)) && about id r) before)
  | None => false
  end.

(** The requests the events [l], projected in this order after [before], add
    to the daily row [k]. *)
Fixpoint requests_counted (k : DailyKey) (before l : list OutboxRow) : Z :=
  match l with
  | [] => 0
  | row :: l => (if decide (event_key row = Some k) then if first_of_request before row then 1 else 0 else 0) + requests_counted k (before ++ [row]) l
  end.

Lemma requests_counted_app k before l1 l2 :
  requests_counted k before (l1 ++ l2) = requests_counted k before l1 + requests_counted k (before ++ l1) l2.
Proof.
  revert before. induction l1 as [|row l1 IH]; intros before; cbn [app requests_counted]; [by rewrite app_nil_r|].
  rewrite IH, <- app_assoc. cbn [app]. lia.
Qed.

(** * What the analytics database keeps of the events *)

Definition summary (e : EventRow) : string * option string := (ue_Type e, ue_Request e).
Definition described (r : OutboxRow) : string * (string * option string) := (ob_ID r, (event_type (ob_Payload r), ob_Request r)).

(** The events of the database are the rows of [past], each once. *)
Definition recorded (past : list OutboxRow) (events : gmap string EventRow) : Prop :=
  NoDup (map ob_ID past) /\ summary <$> events = list_to_map (map described past).

Lemma count_insert types id k e (events : gmap string EventRow) : events !! k = None ->
  count_events types id (<[k := e]> events) = (if contains types (ue_Type e) && bool_decide (ue_Request e = Some id) then 1 else 0) + count_events types id events.
Proof.
  intros Hk. unfold count_events, select_rows. rewrite !length_map_to_list. destruct (contains types (ue_Type e) && _) eqn:E.
  - rewrite map_filter_insert_True by exact E. rewrite map_size_insert_None; [lia|]. apply map_lookup_filter_None. by left.
  - rewrite map_filter_insert_False by (cbn; congruence). by rewrite delete_id.
Qed.

Lemma count_recorded types id past events : recorded past events ->
  count_events types id events = Z.of_nat (length (List.filter (fun r => contains types (event_type (ob_Payload r)) && about id r) past)).
Proof.
  revert events. induction past as [|row past IH]; intros events [Hn Hv].
  - cbn in Hv. apply fmap_empty_inv in Hv as ->. reflexivity.
  - cbn in Hn, Hv. apply NoDup_cons in Hn as [Hni Hn].
    assert (Hr : summary <$> events !! ob_ID row = Some (event_type (ob_Payload row), ob_Request row)) by (rewrite <- lookup_fmap, Hv; by rewrite lookup_insert_eq).
    apply fmap_Some in Hr as (e & He & [= Et Eq]).
    assert (Hrec : recorded past (delete (ob_ID row) events)).
    { split; [done|]. rewrite fmap_delete, Hv, delete_insert_id; [done|]. apply not_elem_of_list_to_map. rewrite <- list_fmap_compose.
      intros (r & Er & Hin)%list_elem_of_fmap. apply Hni, list_elem_of_fmap. by exists r. }
    rewrite <- (insert_delete_id _ _ _ He), (count_insert types id _ e) by apply lookup_delete_eq. rewrite (IH _ Hrec). cbn [List.filter].
    rewrite <- Et, <- Eq. change (bool_decide (ob_Request row = Some id)) with (about id row). destruct (contains _ _ && about id row); cbn [length]; lia.
Qed.

Lemma existsb_filter {A} (f : A -> bool) l : (length (List.filter f l) = 0)%nat <-> existsb f l = false.
Proof. induction l as [|x l IH]; cbn; [done|]. destruct (f x); cbn; [done|exact IH]. Qed.

(** What a row adds to the requests of its daily row. *)
Definition increment (row : OutboxRow) (events : gmap string EventRow) : Z :=
  if settles (ob_Payload row) then request_increment ["attempt.settled"%string] (ob_Request row) events
  else if cancels (ob_Payload row) then request_increment ["attempt.settled"; "request.cancelled_before_dispatch"]%string (ob_Request row) events
  else 0.

Lemma settled_type p : contains ["attempt.settled"%string] (event_type p) = settles p.
Proof. by destruct p. Qed.
Lemma counted_type p : contains ["attempt.settled"; "request.cancelled_before_dispatch"]%string (event_type p) = settles p || cancels p.
Proof. by destruct p. Qed.

(** The code counts with the event already inserted: one means the first. *)
Lemma increment_first past row events : recorded (past ++ [row]) events -> increment row events = if first_of_request past row then 1 else 0.
Proof.
  intros R. unfold increment, first_of_request, request_increment. destruct (ob_Request row) as [id|] eqn:Eid; [|by destruct (settles (ob_Payload row)), (cancels (ob_Payload row))].
  assert (Ha : about id row = true) by (unfold about; by rewrite bool_decide_true).
  assert (K : forall types (f : Payload -> bool), (forall p, contains types (event_type p) = f p) -> f (ob_Payload row) = true ->
    (if count_events types id events =? 1 then 1 else 0) = (if negb (existsb (fun r => f (ob_Payload r) && about id r) past) then 1 else 0)).
  { intros types f Hf Hrow. rewrite (count_recorded _ _ _ _ R), List.filter_app, length_app. cbn [List.filter]. rewrite Hf, Hrow. rewrite Ha. cbn [andb length].
    rewrite (List.filter_ext _ (fun r => f (ob_Payload r) && about id r)) by (intros r; by rewrite Hf).
    destruct (existsb _ past) eqn:E; cbn [negb].
    - destruct (length (List.filter (fun r => f (ob_Payload r) && about id r) past)) eqn:El; [apply existsb_filter in El; congruence|]. destruct (Z.eqb_spec (Z.of_nat (S n + 1)) 1); [lia|done].
    - apply existsb_filter in E. by rewrite E. }
  destruct (settles (ob_Payload row)) eqn:Es; [by apply (K _ settles settled_type)|].
  destruct (cancels (ob_Payload row)) eqn:Ec; [|done]. cbn [andb]. apply (K _ (fun p => settles p || cancels p) counted_type). by rewrite Es, Ec.
Qed.
