(* ===== verification/Mirrored.v ===== *)
(** The analytics database mirrors the ledger: the calls of the usage services
    and the runs of the projection, interrupted or not, as one state machine
    over both databases; its invariant; and what a run without a fault
    delivers. *)
From S2P Require Import Prelude GoStd Money Calendar Counters Policy Json Decode Store Pricing PolicyService Admission Settlement Reservations Lifecycle Booking Reprice Operations Reachable Projection Mirror Counted.
Open Scope Z_scope.
Open Scope list_scope.

(** * Projecting one event *)

(** What a payload is read as is what was written. *)
Lemma subject_member_stored p w : event_subject p = Some w -> subject_member p = stored w.
Proof. destruct p; intros [= ->]; reflexivity. Qed.

Lemma add_or_int64 err a b : in_int64 a -> in_int64 b -> add_or err a b = if decide (in_int64 (a + b)) then Ok (a + b) else Err (Msg err).
Proof. intros Ha Hb. unfold add_or. rewrite checkedAdd2 by done. by case_decide. Qed.

Lemma add_or_Ok err a b n : in_int64 a -> in_int64 b -> add_or err a b = Ok n -> n = a + b /\ in_int64 n.
Proof. intros Ha Hb. rewrite add_or_int64 by done. case_decide; [|done]. by intros [= <-]. Qed.

Lemma add_or_fits err a b : in_int64 a -> in_int64 b -> in_int64 (a + b) -> add_or err a b = Ok (a + b).
Proof. intros Ha Hb Hs. by rewrite add_or_int64, decide_True. Qed.

(** The row of a settlement. *)
Definition settlement_subject (p : Payload) : option EventSubject :=
  match p with AttemptSettled w _ _ _ | AttemptInterrupted w => Some w | _ => None end.

Lemma cell_settled_row c p w n : settlement_subject p = Some w -> cell c (settled_row p n) = event_amount c p.
Proof.
  destruct p as [| |w' st us u|w'| |]; intros [=]; [|by destruct c].
  destruct u as [i o cc cr c5 c1 r ? ws ? ?]. by destruct c; [destruct i|destruct o|destruct cc|destruct cr|destruct c5|destruct c1|destruct ws|destruct r|destruct us, r].
Qed.

(** Adding two rows adds each column. *)
Lemma add_rows_Ok y z r : (forall c, in_int64 (cell c y)) -> (forall c, in_int64 (cell c z)) -> add_rows y z = Ok r ->
  (forall c, cell c r = cell c y + cell c z /\ in_int64 (cell c r))
  /\ (in_int64 (dy_Requests y) -> in_int64 (dy_Requests z) -> dy_Requests r = dy_Requests y + dy_Requests z).
Proof.
  intros Hy Hz H. unfold add_rows in H.
  apply result_bind_Ok in H as (n0 & H0 & H). apply result_bind_Ok in H as (n1 & H1 & H). apply result_bind_Ok in H as (n2 & H2 & H).
  apply result_bind_Ok in H as (n3 & H3 & H). apply result_bind_Ok in H as (n4 & H4 & H). apply result_bind_Ok in H as (n5 & H5 & H).
  apply result_bind_Ok in H as (n6 & H6 & H). apply result_bind_Ok in H as (n7 & H7 & H). apply result_bind_Ok in H as (n8 & H8 & H).
  apply result_bind_Ok in H as (n9 & H9 & H). injection H as <-. split.
  - intros []; [exact (add_or_Ok _ _ _ _ (Hy CInput) (Hz CInput) H1)|exact (add_or_Ok _ _ _ _ (Hy COutput) (Hz COutput) H2)|exact (add_or_Ok _ _ _ _ (Hy CCacheCreation) (Hz CCacheCreation) H3)|exact (add_or_Ok _ _ _ _ (Hy CCacheRead) (Hz CCacheRead) H4)|exact (add_or_Ok _ _ _ _ (Hy CCache5m) (Hz CCache5m) H5)|exact (add_or_Ok _ _ _ _ (Hy CCache1h) (Hz CCache1h) H6)|exact (add_or_Ok _ _ _ _ (Hy CWebSearches) (Hz CWebSearches) H7)|exact (add_or_Ok _ _ _ _ (Hy CCost) (Hz CCost) H8)|exact (add_or_Ok _ _ _ _ (Hy CUnknown) (Hz CUnknown) H9)].
  - intros Hy0 Hz0. apply (add_or_Ok _ _ _ _ Hy0 Hz0 H0).
Qed.

Lemma add_rows_fit y z : (forall c, in_int64 (cell c y)) -> (forall c, in_int64 (cell c z)) -> (forall c, in_int64 (cell c y + cell c z)) ->
  in_int64 (dy_Requests y) -> in_int64 (dy_Requests z) -> in_int64 (dy_Requests y + dy_Requests z) -> exists r, add_rows y z = Ok r.
Proof.
  intros Hy Hz Hs Hy0 Hz0 Hs0. unfold add_rows. cbv zeta. rewrite (add_or_fits _ _ _ Hy0 Hz0 Hs0).
  rewrite (add_or_fits _ _ _ (Hy CInput) (Hz CInput) (Hs CInput)), (add_or_fits _ _ _ (Hy COutput) (Hz COutput) (Hs COutput)).
  rewrite (add_or_fits _ _ _ (Hy CCacheCreation) (Hz CCacheCreation) (Hs CCacheCreation)), (add_or_fits _ _ _ (Hy CCacheRead) (Hz CCacheRead) (Hs CCacheRead)).
  rewrite (add_or_fits _ _ _ (Hy CCache5m) (Hz CCache5m) (Hs CCache5m)), (add_or_fits _ _ _ (Hy CCache1h) (Hz CCache1h) (Hs CCache1h)).
  rewrite (add_or_fits _ _ _ (Hy CWebSearches) (Hz CWebSearches) (Hs CWebSearches)), (add_or_fits _ _ _ (Hy CCost) (Hz CCost) (Hs CCost)).
  rewrite (add_or_fits _ _ _ (Hy CUnknown) (Hz CUnknown) (Hs CUnknown)). by eexists.
Qed.

Definition requests_at (daily : gmap DailyKey DailyRow) (k : DailyKey) : Z := match daily !! k with Some y => dy_Requests y | None => 0 end.

(** The daily row an event writes: its columns grow by the event's. *)
Record projected (p : Payload) (daily daily' : gmap DailyKey DailyRow) (w : EventSubject) (z : DailyRow) (inc : Z) : Prop := mkProjected {
  pj_subject : event_subject p = Some w;
  pj_daily : daily' = <[daily_key (stored w) := z]> daily;
  pj_cells : forall c, cell c z = cell_at c daily (daily_key (stored w)) + event_amount c p /\ in_int64 (cell c z);
  pj_inc : 0 <= inc <= 1;
  pj_requests : in_int64 (requests_at daily (daily_key (stored w))) -> dy_Requests z = requests_at daily (daily_key (stored w)) + inc }.

Lemma write_daily_Ok k y daily daily' : write_daily k y daily = Ok daily' -> daily' = <[k := y]> daily.
Proof. unfold write_daily. destruct (daily_ok y); [by intros [= <-]|done]. Qed.

Lemma request_increment_range types id events : 0 <= request_increment types id events <= 1.
Proof. unfold request_increment. destruct id; [case_match|]; lia. Qed.

Definition cells_fit (daily : gmap DailyKey DailyRow) : Prop := forall k y c, daily !! k = Some y -> in_int64 (cell c y).

Lemma cells_fit_at daily k c : cells_fit daily -> in_int64 (cell_at c daily k).
Proof. intros H. unfold cell_at. destruct (daily !! k) eqn:E; [by eapply H|unfold_ints; lia]. Qed.

Lemma cell_at_Some c daily k y : daily !! k = Some y -> cell_at c daily k = cell c y.
Proof. unfold cell_at. by intros ->. Qed.
Lemma cell_at_None c daily k : daily !! k = None -> cell_at c daily k = 0.
Proof. unfold cell_at. by intros ->. Qed.
Lemma requests_at_Some daily k y : daily !! k = Some y -> requests_at daily k = dy_Requests y.
Proof. unfold requests_at. by intros ->. Qed.
Lemma requests_at_None daily k : daily !! k = None -> requests_at daily k = 0.
Proof. unfold requests_at. by intros ->. Qed.

(** The two corrections of a row: four columns move. *)
Lemma projected_correction p daily w y input output cost unknown :
  cells_fit daily -> event_subject p = Some w -> daily !! daily_key (stored w) = Some y -> (forall c, event_amount c p = correction_amount c input output cost unknown) ->
  in_int64 (dy_Input y + input) -> in_int64 (dy_Output y + output) -> in_int64 (dy_Cost y + cost) -> in_int64 (dy_Unknown y + unknown) ->
  projected p daily (<[daily_key (stored w) := with_totals (dy_Input y + input) (dy_Output y + output) (dy_Cost y + cost) (dy_Unknown y + unknown) y]> daily) w
    (with_totals (dy_Input y + input) (dy_Output y + output) (dy_Cost y + cost) (dy_Unknown y + unknown) y) 0.
Proof.
  intros Hfit Hw Ey He H1 H2 H3 H4. split; [done|done| |lia|].
  - intros c. rewrite (cell_at_Some _ _ _ _ Ey), He. specialize (Hfit _ _ c Ey). destruct c; cbn in *; rewrite ?Z.add_0_r; done.
  - intros _. rewrite (requests_at_Some _ _ _ Ey), Z.add_0_r. done.
Qed.

Section Event.
Context (p : Payload) (daily daily' : gmap DailyKey DailyRow).
Hypothesis Hfit : cells_fit daily.
Hypothesis Hamounts : forall c, in_int64 (event_amount c p).

Lemma projectSettlement_Ok w inc : settlement_subject p = Some w -> 0 <= inc <= 1 -> projectSettlement p inc daily = Ok daily' ->
  exists z, projected p daily daily' w z inc.
Proof.
  intros Hw Hi H. assert (Es : event_subject p = Some w) by (destruct p; done). unfold projectSettlement in H.
  apply result_bind_Ok in H as ([] & _ & H). rewrite (subject_member_stored _ _ Es) in H.
  assert (Hc : forall c, in_int64 (cell c (settled_row p inc))) by (intros c; by rewrite (cell_settled_row c p w inc Hw)).
  destruct (daily !! daily_key (stored w)) as [y|] eqn:Ey.
  - apply result_bind_Ok in H as (z & Hz & H). apply write_daily_Ok in H as ->.
    apply add_rows_Ok in Hz as [Hcell Hreq]; [|intros c; by eapply Hfit|done]. exists z. split; [done|done| |done|].
    + intros c. rewrite (cell_at_Some _ _ _ _ Ey), <- (cell_settled_row c p w inc Hw). apply Hcell.
    + rewrite (requests_at_Some _ _ _ Ey). intros Hy. apply Hreq; [done|]. cbn. unfold_ints. lia.
  - apply write_daily_Ok in H as ->. exists (settled_row p inc). split; [done|done| |done|].
    + intros c. rewrite (cell_at_None _ _ _ Ey), (cell_settled_row c p w inc Hw). split; [lia|done].
    + by rewrite (requests_at_None _ _ Ey).
Qed.

Lemma projectCancelledRequest_Ok w inc : p = CancelledBeforeDispatch w -> 0 <= inc <= 1 -> projectCancelledRequest p inc daily = Ok daily' ->
  exists z, projected p daily daily' w z inc.
Proof.
  intros -> Hi H. unfold projectCancelledRequest in H. apply result_bind_Ok in H as ([] & _ & H).
  rewrite (subject_member_stored (CancelledBeforeDispatch w) w eq_refl) in H. destruct (daily !! daily_key (stored w)) as [y|] eqn:Ey; apply write_daily_Ok in H as ->; eexists.
  - split; [done|done| |done|].
    + intros c. rewrite (cell_at_Some _ _ _ _ Ey). cbn [event_amount]. rewrite Z.add_0_r. split; [by destruct c|].
      specialize (Hfit _ _ c Ey). by destruct c.
    + by rewrite (requests_at_Some _ _ _ Ey).
  - split; [done|done| |done|].
    + intros c. rewrite (cell_at_None _ _ _ Ey). destruct c; (split; [done|unfold_ints; cbn; lia]).
    + by rewrite (requests_at_None _ _ Ey).
Qed.

Lemma projectReconciliation_Ok w i o c u : p = AttemptReconciled w i o c u -> projectReconciliation p daily = Ok daily' ->
  exists z, projected p daily daily' w z 0.
Proof.
  intros -> H. unfold projectReconciliation in H. rewrite (subject_member_stored (AttemptReconciled w i o c u) w eq_refl) in H.
  destruct (daily !! daily_key (stored w)) as [y|] eqn:Ey; [|done]. cbv zeta in H.
  apply result_bind_Ok in H as (n1 & H1 & H). apply result_bind_Ok in H as (n2 & H2 & H). apply result_bind_Ok in H as (n3 & H3 & H).
  apply result_bind_Ok in H as (n4 & H4 & H). apply result_bind_Ok in H as ([] & _ & H). apply write_daily_Ok in H as ->.
  apply add_or_Ok in H1 as [-> F1]; [|apply (Hfit _ _ CInput Ey)|apply (Hamounts CInput)]. apply add_or_Ok in H2 as [-> F2]; [|apply (Hfit _ _ COutput Ey)|apply (Hamounts COutput)].
  apply add_or_Ok in H3 as [-> F3]; [|apply (Hfit _ _ CCost Ey)|apply (Hamounts CCost)]. apply add_or_Ok in H4 as [-> F4]; [|apply (Hfit _ _ CUnknown Ey)|apply (Hamounts CUnknown)].
  eexists. by apply projected_correction.
Qed.

Lemma projectCostAdjustment_Ok w d u : p = CostAdjusted w d u -> projectCostAdjustment p daily = Ok daily' ->
  exists z, projected p daily daily' w z 0.
Proof.
  intros -> H. unfold projectCostAdjustment in H. rewrite (subject_member_stored (CostAdjusted w d u) w eq_refl) in H. apply result_bind_Ok in H as ([] & _ & H).
  destruct (daily !! daily_key (stored w)) as [y|] eqn:Ey; [|done].
  apply result_bind_Ok in H as (n1 & H1 & H). apply result_bind_Ok in H as ([] & _ & H). apply result_bind_Ok in H as (n2 & H2 & H).
  apply result_bind_Ok in H as ([] & _ & H). apply write_daily_Ok in H as ->.
  apply add_or_Ok in H1 as [-> F1]; [|apply (Hfit _ _ CCost Ey)|apply (Hamounts CCost)]. apply add_or_Ok in H2 as [-> F2]; [|apply (Hfit _ _ CUnknown Ey)|apply (Hamounts CUnknown)].
  eexists. pose proof (projected_correction (CostAdjusted w d u) daily w y 0 0 d u Hfit eq_refl Ey (fun c => eq_refl)) as K. rewrite !Z.add_0_r in K.
  apply K; [apply (Hfit _ _ CInput Ey)|apply (Hfit _ _ COutput Ey)|done|done].
Qed.
End Event.

Lemma project_daily_Ok row events daily daily' :
  cells_fit daily -> (forall c, in_int64 (event_amount c (ob_Payload row))) -> project_daily row events daily = Ok daily' ->
  (event_subject (ob_Payload row) = None /\ daily' = daily) \/ exists w z, projected (ob_Payload row) daily daily' w z (increment row events).
Proof.
  intros Hf Ha H. unfold project_daily in H. unfold increment. pose proof request_increment_range as Hinc.
  destruct (ob_Payload row) as [| w|w st us u|w|w i o c u|w d u] eqn:Ep; cbn [event_type] in H; cbn [settles cancels].
  - injection H as <-. by left.
  - right. exists w. eapply projectCancelledRequest_Ok in H as [z Hz]; [|done..]. eauto.
  - right. exists w. eapply projectSettlement_Ok in H as [z Hz]; [|done..]. eauto.
  - right. exists w. eapply projectSettlement_Ok in H as [z Hz]; [|done..]. eauto.
  - right. exists w. eapply projectReconciliation_Ok in H as [z Hz]; [|done..]. eauto.
  - right. exists w. eapply projectCostAdjustment_Ok in H as [z Hz]; [|done..]. eauto.
Qed.

(** ** When an event projects *)

Definition complete_row (row : OutboxRow) : Prop := forall w, event_subject (ob_Payload row) = Some w -> incomplete_subject (stored w) = false.

(** The columns after the event, and the request count. *)
Definition fits_after (p : Payload) (daily : gmap DailyKey DailyRow) : Prop :=
  forall w, event_subject p = Some w -> (forall c, 0 <= cell_at c daily (daily_key (stored w)) + event_amount c p <= max_int64)
    /\ 0 <= requests_at daily (daily_key (stored w)) < max_int64
    /\ (corrects p = true -> is_Some (daily !! daily_key (stored w))).

Lemma write_daily_runs k y daily : (forall c, 0 <= cell c y) -> exists daily', write_daily k y daily = Ok daily'.
Proof.
  intros H. unfold write_daily, daily_ok. pose proof (H CCacheCreation). pose proof (H CCacheRead). pose proof (H CCache5m). pose proof (H CCache1h).
  pose proof (H CWebSearches). cbn in *. rewrite !(proj2 (Z.leb_le _ _)) by done. by eexists.
Qed.

(** A correction fits its row. *)
Lemma correction_sums p daily w y :
  cells_fit daily -> (forall c, 0 <= cell_at c daily (daily_key (stored w)) + event_amount c p <= max_int64) -> daily !! daily_key (stored w) = Some y ->
  (forall c, 0 <= cell c y + event_amount c p <= max_int64) /\ (forall c, in_int64 (cell c y + event_amount c p)).
Proof.
  intros Hf Hsum Ey. assert (H : forall c, 0 <= cell c y + event_amount c p <= max_int64) by (intros c; rewrite <- (cell_at_Some _ _ _ _ Ey); apply Hsum).
  split; [done|]. intros c. specialize (H c). unfold_ints. lia.
Qed.

Section Runs.
Context (p : Payload) (daily : gmap DailyKey DailyRow).
Hypothesis Hfit : cells_fit daily.
Hypothesis Hamounts : forall c, in_int64 (event_amount c p).
Hypothesis Hafter : fits_after p daily.
Hypothesis Hcomplete : forall w, event_subject p = Some w -> incomplete_subject (stored w) = false.

Lemma projectSettlement_runs w n : settlement_subject p = Some w -> 0 <= n <= 1 -> exists daily', projectSettlement p n daily = Ok daily'.
Proof.
  intros Hw Hn. assert (Es : event_subject p = Some w) by (destruct p; done). destruct (Hafter w Es) as (Hsum & Hreq & _).
  assert (Hcell : forall c, cell c (settled_row p n) = event_amount c p) by (intros c; by apply (cell_settled_row c p w)).
  assert (Hin : forall c, in_int64 (cell c (settled_row p n))) by (intros c; by rewrite Hcell).
  unfold projectSettlement. rewrite (subject_member_stored _ _ Es), (Hcomplete w Es). cbn [negb ensure mbind result_bind].
  destruct (daily !! daily_key (stored w)) as [y|] eqn:Ey.
  - rewrite (requests_at_Some _ _ _ Ey) in Hreq. destruct (correction_sums p daily w y Hfit Hsum Ey) as [Hs Hs64].
    destruct (add_rows_fit y (settled_row p n)) as [z Hz]; [intros c; by eapply Hfit|done|intros c; by rewrite Hcell|cbn; unfold_ints; lia..|].
    rewrite Hz. cbn [mbind result_bind]. apply add_rows_Ok in Hz as [Hz _]; [|intros c; by eapply Hfit|done].
    apply write_daily_runs. intros c. destruct (Hz c) as [-> _]. rewrite Hcell. apply Hs.
  - apply write_daily_runs. intros c. rewrite Hcell. specialize (Hsum c). rewrite (cell_at_None _ _ _ Ey) in Hsum. lia.
Qed.

Lemma projectCancelledRequest_runs w n : p = CancelledBeforeDispatch w -> exists daily', projectCancelledRequest p n daily = Ok daily'.
Proof.
  intros E. assert (Es : event_subject p = Some w) by (by rewrite E). destruct (Hafter w Es) as (Hsum & _ & _).
  unfold projectCancelledRequest. rewrite (subject_member_stored p w Es), (Hcomplete w Es). cbn [negb ensure mbind result_bind].
  destruct (daily !! daily_key (stored w)) as [y|] eqn:Ey; apply write_daily_runs; intros c; [|by destruct c].
  specialize (Hsum c). rewrite (cell_at_Some _ _ _ _ Ey), E in Hsum. destruct c; cbn in *; lia.
Qed.

Lemma projectReconciliation_runs w i o c u : p = AttemptReconciled w i o c u -> exists daily', projectReconciliation p daily = Ok daily'.
Proof.
  intros E. assert (Es : event_subject p = Some w) by (by rewrite E). destruct (Hafter w Es) as (Hsum & _ & [y Ey]); [by rewrite E|].
  destruct (correction_sums p daily w y Hfit Hsum Ey) as [Hs H64]. unfold projectReconciliation. rewrite (subject_member_stored p w Es), Ey. cbv zeta.
  replace (int_member p "input_tokens") with (event_amount CInput p) by (by rewrite E).
  replace (int_member p "output_tokens") with (event_amount COutput p) by (by rewrite E).
  replace (int_member p "cost_nanos") with (event_amount CCost p) by (by rewrite E).
  replace (int_member p "unknown_delta") with (event_amount CUnknown p) by (by rewrite E).
  rewrite (add_or_fits _ _ _ (Hfit _ _ CInput Ey) (Hamounts CInput) (H64 CInput)). cbn [mbind result_bind].
  rewrite (add_or_fits _ _ _ (Hfit _ _ COutput Ey) (Hamounts COutput) (H64 COutput)). cbn [mbind result_bind].
  rewrite (add_or_fits _ _ _ (Hfit _ _ CCost Ey) (Hamounts CCost) (H64 CCost)). cbn [mbind result_bind].
  rewrite (add_or_fits _ _ _ (Hfit _ _ CUnknown Ey) (Hamounts CUnknown) (H64 CUnknown)). cbn [mbind result_bind].
  rewrite (proj2 (Z.leb_le _ _) (proj1 (Hs CUnknown))). cbn [ensure mbind result_bind]. apply write_daily_runs.
  intros k. specialize (Hs k). rewrite E in *. destruct k; cbn in *; lia.
Qed.

Lemma projectCostAdjustment_runs w d u : p = CostAdjusted w d u -> exists daily', projectCostAdjustment p daily = Ok daily'.
Proof.
  intros E. assert (Es : event_subject p = Some w) by (by rewrite E). destruct (Hafter w Es) as (Hsum & _ & [y Ey]); [by rewrite E|].
  destruct (correction_sums p daily w y Hfit Hsum Ey) as [Hs H64].
  unfold projectCostAdjustment. rewrite (subject_member_stored p w Es), (Hcomplete w Es), Ey. cbn [negb ensure mbind result_bind].
  replace (int_member p "delta_nanos") with (event_amount CCost p) by (by rewrite E).
  replace (int_member p "unknown_delta") with (event_amount CUnknown p) by (by rewrite E).
  rewrite (add_or_fits _ _ _ (Hfit _ _ CCost Ey) (Hamounts CCost) (H64 CCost)). cbn [mbind result_bind].
  rewrite (proj2 (Z.leb_le _ _) (proj1 (Hs CCost))). cbn [ensure mbind result_bind].
  rewrite (add_or_fits _ _ _ (Hfit _ _ CUnknown Ey) (Hamounts CUnknown) (H64 CUnknown)). cbn [mbind result_bind].
  rewrite (proj2 (Z.leb_le _ _) (proj1 (Hs CUnknown))). cbn [ensure mbind result_bind]. apply write_daily_runs.
  intros k. specialize (Hs k). rewrite E in *. destruct k; cbn in *; lia.
Qed.
End Runs.

Lemma project_daily_runs row events daily :
  cells_fit daily -> (forall c, in_int64 (event_amount c (ob_Payload row))) -> complete_row row -> fits_after (ob_Payload row) daily ->
  exists daily', project_daily row events daily = Ok daily'.
Proof.
  intros Hf Ha Hc Hfit. unfold project_daily, complete_row in *. pose proof request_increment_range as Hinc.
  destruct (ob_Payload row) as [| w|w st us u|w|w i o c u|w d u] eqn:Ep; cbn [event_type].
  - by eexists.
  - by eapply projectCancelledRequest_runs.
  - by eapply projectSettlement_runs.
  - by eapply projectSettlement_runs.
  - by eapply projectReconciliation_runs.
  - by eapply projectCostAdjustment_runs.
Qed.

(** * Both databases *)

(** The rows of the outbox the analytics database has not seen. *)
Definition fresh_row (d : data) (r : OutboxRow) : bool := negb (is_some (d_events d !! ob_ID r)).
Definition fresh_rows (s : db) (d : data) : list OutboxRow := List.filter (fresh_row d) (t_outbox s).

(** The requests column, while the events can be counted in an int64. *)
Record counted (past : list OutboxRow) (d : data) : Prop := mkCounted {
  ct_recorded : recorded past (d_events d);
  ct_bound : Z.of_nat (size (d_events d)) <= max_int64 -> forall k, 0 <= requests_at (d_daily d) k <= Z.of_nat (size (d_events d));
  ct_requests : Z.of_nat (size (d_events d)) <= max_int64 -> forall k, requests_at (d_daily d) k = requests_counted k [] past }.

(** [past] are the events projected so far, oldest first. *)
Record mirrored (past : list OutboxRow) (s : db) (d : data) : Prop := mkMirrored {
  mi_ids : NoDup (map ob_ID (t_outbox s));
  mi_delivered : forall r, r ∈ t_outbox s -> pending r = false -> is_Some (d_events d !! ob_ID r);
  mi_log : logged (idents s) (t_attempts s) (past ++ fresh_rows s d);
  mi_cells : forall c k, cell_at c (d_daily d) k = sum_rows c k past;
  mi_fit : cells_fit (d_daily d);
  mi_opened : forall r k, r ∈ past -> opens k r -> is_Some (d_daily d !! k);
  mi_requests : counted past d }.

Lemma filter_ext_in {A} (f g : A -> bool) l : (forall x, x ∈ l -> f x = g x) -> List.filter f l = List.filter g l.
Proof. intros H. apply List.filter_ext_in. intros x Hx. by apply H, list_elem_of_In. Qed.

Lemma filter_all {A} (f : A -> bool) l : (forall x, x ∈ l -> f x = true) -> List.filter f l = l.
Proof. intros H. induction l as [|x l IH]; [done|]. cbn. rewrite H by set_solver. f_equal. apply IH. set_solver. Qed.

Lemma filter_filter_and {A} (f g : A -> bool) l : List.filter f (List.filter g l) = List.filter (fun x => g x && f x) l.
Proof. induction l as [|x l IH]; [done|]. cbn. destruct (g x); cbn; [destruct (f x)|]; by rewrite IH. Qed.

Lemma filter_sublist_bool {A} (f : A -> bool) l : sublist (List.filter f l) l.
Proof. induction l as [|x l IH]; cbn; [done|]. destruct (f x); by constructor. Qed.

Lemma NoDup_filter_ids (f : OutboxRow -> bool) l : NoDup (map ob_ID l) -> NoDup (map ob_ID (List.filter f l)).
Proof.
  intros H. eapply sublist_NoDup; [exact H|]. induction l as [|x l IH]; cbn; [constructor|].
  cbn in H. apply NoDup_cons in H as [_ H]. destruct (f x); constructor; auto.
Qed.

(** The events of a row that is gone from a list of distinct rows. *)
Lemma filter_seen (f : OutboxRow -> bool) l row rest :
  NoDup (map ob_ID l) -> List.filter f l = row :: rest -> List.filter (fun r => f r && negb (ob_ID r =s ob_ID row)) l = rest.
Proof.
  intros Hn E. rewrite <- filter_filter_and, E. cbn. rewrite String.eqb_refl. cbn. apply filter_all.
  apply (NoDup_filter_ids f) in Hn. rewrite E in Hn. cbn in Hn. apply NoDup_cons in Hn as [Hn _].
  intros r Hr. apply negb_true_iff, String.eqb_neq. intros Er. apply Hn. rewrite <- Er. apply list_elem_of_fmap. by exists r.
Qed.

Lemma fresh_after d d' row e : d_events d' = <[ob_ID row := e]> (d_events d) -> forall r, fresh_row d' r = fresh_row d r && negb (ob_ID r =s ob_ID row).
Proof.
  intros E r. unfold fresh_row. rewrite E. destruct (String.eqb_spec (ob_ID r) (ob_ID row)) as [->|Hne]; [by rewrite lookup_insert_eq, andb_false_r|].
  rewrite lookup_insert_ne by done. by rewrite andb_true_r.
Qed.

(** What the analytics transaction commits. *)
Lemma project_event_Ok cutoff row d d' : fresh_row d row = true -> project_event cutoff row d = Ok d' ->
  d_cutoff d' = d_cutoff d /\ exists e events, d_events d' = <[ob_ID row := e]> (d_events d) /\ project_daily row events (d_daily d) = Ok (d_daily d')
    /\ summary e = (event_type (ob_Payload row), ob_Request row) /\ summary <$> events = summary <$> d_events d'.
Proof.
  intros Hf H. unfold project_event in H. unfold fresh_row in Hf. destruct (d_events d !! ob_ID row) eqn:E; [done|].
  apply result_bind_Ok in H as (daily & Hd & H). injection H as <-. cbn. split; [done|].
  destruct (_ && _); do 2 eexists; (split; [|split; [exact Hd|]]); [by rewrite insert_insert_eq| |done|done].
  split; [done|]. by rewrite insert_insert_eq, !fmap_insert.
Qed.

(** The projected row is the last of the past. *)
Lemma recorded_snoc past d d' row e : recorded past (d_events d) -> d_events d !! ob_ID row = None ->
  d_events d' = <[ob_ID row := e]> (d_events d) -> summary e = (event_type (ob_Payload row), ob_Request row) -> recorded (past ++ [row]) (d_events d').
Proof.
  intros [Hn Hv] Hnew Ed He. assert (Hni : ob_ID row ∉ map ob_ID past).
  { intros Hin. assert (Hk : (summary <$> d_events d) !! ob_ID row = None) by (by rewrite lookup_fmap, Hnew). rewrite Hv in Hk. apply not_elem_of_list_to_map in Hk.
    apply Hk. rewrite <- list_fmap_compose. exact Hin. }
  split.
  - rewrite map_app. apply NoDup_app. split_and!; [done| |apply NoDup_singleton]. intros x Hx ->%list_elem_of_singleton. done.
  - rewrite Ed, fmap_insert, Hv, He, map_app. symmetry. apply list_to_map_snoc. rewrite <- list_fmap_compose. exact Hni.
Qed.


Lemma project_event_seen cutoff row d d' : fresh_row d row = false -> project_event cutoff row d = Ok d' -> d' = d.
Proof. intros Hf. unfold project_event. unfold fresh_row in Hf. destruct (d_events d !! ob_ID row); [by intros [= <-]|done]. Qed.

(** Committing the first fresh row moves it to the past. *)
Lemma project_event_mirrored cutoff past s d d' row rest :
  mirrored past s d -> fresh_rows s d = row :: rest -> project_event cutoff row d = Ok d' ->
  mirrored (past ++ [row]) s d' /\ fresh_rows s d' = rest.
Proof.
  intros [I D L C F O Q] Er H. assert (Hf : fresh_row d row = true).
  { assert (row ∈ fresh_rows s d) as Hin by (rewrite Er; left). unfold fresh_rows in Hin. apply list_elem_of_In, filter_In in Hin. apply Hin. }
  apply project_event_Ok in H as (_ & e & events & Ee & Hp & He & Hev); [|done].
  assert (Erest : fresh_rows s d' = rest).
  { unfold fresh_rows in *. rewrite <- (filter_seen _ _ _ _ I Er). apply List.filter_ext. by apply fresh_after with (e := e). }
  assert (Hlog : past ++ fresh_rows s d = (past ++ [row]) ++ fresh_rows s d') by (rewrite Er, Erest, <- app_assoc; done).
  assert (Hnew : d_events d !! ob_ID row = None) by (unfold fresh_row in Hf; by destruct (d_events d !! ob_ID row)).
  assert (Hsize : Z.of_nat (size (d_events d')) = Z.of_nat (size (d_events d)) + 1) by (rewrite Ee, map_size_insert, Hnew; lia).
  assert (Ha : forall c, in_int64 (event_amount c (ob_Payload row))).
  { intros c. apply (lg_amounts _ _ _ L). rewrite Er. set_solver. }
  assert (D' : forall r, r ∈ t_outbox s -> pending r = false -> is_Some (d_events d' !! ob_ID r)).
  { intros r Hr Hp'. rewrite Ee. destruct (decide (ob_ID row = ob_ID r)) as [->|]; [by rewrite lookup_insert_eq|rewrite lookup_insert_ne by done; auto]. }
  pose proof (recorded_snoc _ _ _ _ _ (ct_recorded _ _ Q) Hnew Ee He) as Rec.
  assert (Hinc : increment row events = if first_of_request past row then 1 else 0) by (apply increment_first; destruct Rec as [Rn Rv]; split; [done|by rewrite Hev]).
  split; [|done]. rewrite Hlog in L. apply project_daily_Ok in Hp as [[Hs Ed]|(w & z & [Hs Ed Hz Hi Hr])]; [..|done|done].
  - split; rewrite ?Ed; [done..| | | |].
    + intros c k. rewrite C, sum_rows_app, sum_rows_one. unfold row_amount, event_key. rewrite Hs. case_decide; [done|lia].
    + done.
    + intros r k [Hr| ->%list_elem_of_singleton]%elem_of_app [Hst Hk]; [by apply (O r k)|]. unfold event_key in Hk. by rewrite Hs in Hk.
    + split; [done|..]; rewrite Hsize; intros Hm k; rewrite Ed.
      * pose proof (ct_bound _ _ Q ltac:(lia) k). lia.
      * rewrite (ct_requests _ _ Q ltac:(lia) k), requests_counted_app. cbn [requests_counted app]. unfold event_key. rewrite Hs. cbn [fmap option_fmap option_map]. rewrite decide_False by done. lia.
  - assert (Ek : event_key row = Some (daily_key (stored w))) by (unfold event_key; by rewrite Hs).
    split; rewrite ?Ed; [done..| | | |].
    + intros c k. rewrite sum_rows_app, sum_rows_one. unfold row_amount. rewrite Ek, <- C. unfold cell_at at 1. case_decide as Hk.
      * injection Hk as <-. rewrite lookup_insert_eq. apply Hz.
      * rewrite lookup_insert_ne by congruence. unfold cell_at. lia.
    + intros k y c. destruct (decide (daily_key (stored w) = k)) as [<-|]; [rewrite lookup_insert_eq; intros [= <-]; apply Hz|rewrite lookup_insert_ne by done; apply F].
    + intros r k Hin Hop. destruct (decide (daily_key (stored w) = k)) as [<-|Hne]; [by rewrite lookup_insert_eq|rewrite lookup_insert_ne by done].
      apply elem_of_app in Hin as [Hin| ->%list_elem_of_singleton]; [by apply (O r k)|]. destruct Hop as [_ Hk]. congruence.
    + assert (K : Z.of_nat (size (d_events d')) <= max_int64 -> forall k, requests_at (<[daily_key (stored w) := z]> (d_daily d)) k
          = requests_at (d_daily d) k + if decide (daily_key (stored w) = k) then increment row events else 0).
      { rewrite Hsize. intros Hm k. pose proof (ct_bound _ _ Q ltac:(lia) (daily_key (stored w))). unfold requests_at at 1. case_decide as Hk.
        - rewrite <- Hk, lookup_insert_eq. apply Hr. unfold_ints. lia.
        - rewrite lookup_insert_ne by done. unfold requests_at. lia. }
      split; [done|..]; intros Hm k; rewrite Ed, (K Hm).
      * rewrite Hsize in Hm |- *. pose proof (ct_bound _ _ Q ltac:(lia) k). case_decide; lia.
      * rewrite Hsize in Hm. rewrite (ct_requests _ _ Q ltac:(lia) k), requests_counted_app. cbn [requests_counted app]. rewrite Ek, Hinc.
        destruct (decide (daily_key (stored w) = k)) as [->|Hne]; [by rewrite decide_True, Z.add_0_r|]. rewrite decide_False by congruence. lia.
Qed.

(** ** The statements on the outbox *)

(** A rewrite of the outbox that touches only rows already projected. *)
Definition touches_seen (d : data) (f : list OutboxRow -> list OutboxRow) : Prop :=
  forall l, NoDup (map ob_ID l) -> NoDup (map ob_ID (f l)) /\ List.filter (fresh_row d) (f l) = List.filter (fresh_row d) l /\
    ((forall r, r ∈ l -> pending r = false -> is_Some (d_events d !! ob_ID r)) -> forall r, r ∈ f l -> pending r = false -> is_Some (d_events d !! ob_ID r)).

Lemma on_outbox_mirrored past s d f : mirrored past s d -> touches_seen d f -> mirrored past (on_outbox f s) d /\ fresh_rows (on_outbox f s) d = fresh_rows s d.
Proof.
  intros [I D L C F O Q] Hf. destruct (Hf _ I) as (I' & E & D'). assert (Er : fresh_rows (on_outbox f s) d = fresh_rows s d) by exact E.
  split; [|done]. split; [done|by apply D'|by rewrite Er|done..].
Qed.

Lemma mark_touches d id at_ : is_Some (d_events d !! id) -> touches_seen d (mark_delivered at_ id).
Proof.
  intros [e He] l Hn. unfold mark_delivered. split_and!.
  - rewrite map_map. erewrite map_ext; [exact Hn|]. intros r. by destruct (_ && _).
  - clear Hn. induction l as [|r l IH]; [done|]. cbn. destruct ((ob_ID r =s id) && negb (is_some (ob_Delivered r))) eqn:E; [|by rewrite IH].
    apply andb_true_iff in E as [E%String.eqb_eq _]. assert (K : forall q, ob_ID q = id -> fresh_row d q = false) by (intros q Hq; unfold fresh_row; by rewrite Hq, He).
    rewrite !K by done. exact IH.
  - intros H r (r0 & -> & Hr)%list_elem_of_fmap Hp. destruct ((ob_ID r0 =s id) && negb (is_some (ob_Delivered r0))) eqn:E; [|auto].
    apply andb_true_iff in E as [->%String.eqb_eq _]. cbn. by rewrite He.
Qed.

Lemma delete_touches d id : is_Some (d_events d !! id) -> touches_seen d (delete_delivered id).
Proof.
  intros [e He] l Hn. unfold delete_delivered. split_and!; [by apply NoDup_filter_ids| |].
  - rewrite filter_filter_and. apply List.filter_ext. intros r. destruct (String.eqb_spec (ob_ID r) id) as [E|]; [|done].
    assert (K : fresh_row d r = false) by (unfold fresh_row; by rewrite E, He). by rewrite K, andb_false_r.
  - intros H r Hr. apply H. apply list_elem_of_In in Hr. apply list_elem_of_In. by apply filter_In in Hr as [? _].
Qed.

(** ** The loop *)

(** The part of a batch not yet in the analytics database is the front of the
    fresh rows. *)
Definition in_front (rows : list OutboxRow) (s : db) (d : data) : Prop := exists tail, fresh_rows s d = List.filter (fresh_row d) rows ++ tail.

(** The analytics transaction for the next row of a batch. *)
Lemma project_next cutoff past s d d' row rows :
  mirrored past s d -> NoDup (map ob_ID (row :: rows)) -> in_front (row :: rows) s d -> project_event cutoff row d = Ok d' ->
  exists past', mirrored past' s d' /\ in_front rows s d' /\ is_Some (d_events d' !! ob_ID row) /\ (forall k, is_Some (d_events d !! k) -> is_Some (d_events d' !! k)).
Proof.
  intros M Hn [tail Hfront] H. cbn in Hn, Hfront. apply NoDup_cons in Hn as [Hni Hn]. destruct (fresh_row d row) eqn:Hf.
  - destruct (project_event_mirrored _ _ _ _ _ _ _ M Hfront H) as [M' Er]. exists (past ++ [row]). apply project_event_Ok in H as (_ & e & events & Ee & _); [|done].
    split; [done|]. rewrite Ee. split_and!.
    + exists tail. rewrite Er. f_equal. apply filter_ext_in. intros r Hr. rewrite (fresh_after _ _ _ _ Ee).
      destruct (String.eqb_spec (ob_ID r) (ob_ID row)) as [E|]; [|by rewrite andb_true_r]. exfalso. apply Hni. rewrite <- E. apply list_elem_of_fmap. by exists r.
    + by rewrite lookup_insert_eq.
    + intros k Hk. destruct (decide (ob_ID row = k)) as [->|]; [by rewrite lookup_insert_eq|by rewrite lookup_insert_ne].
  - apply project_event_seen in H as ->; [|done]. exists past. split_and!; [done|by exists tail| |done]. unfold fresh_row in Hf. by destruct (d_events d !! ob_ID row).
Qed.

(** One delivery, wherever it fails. *)
Lemma deliver_event_mirrored cutoff at_ flt past s d row rows err s' d' :
  mirrored past s d -> NoDup (map ob_ID (row :: rows)) -> in_front (row :: rows) s d ->
  deliver_event cutoff at_ flt row (mkStores s d) = (err, mkStores s' d') ->
  exists past', mirrored past' s' d' /\ view s' = (idents s, t_attempts s, t_outbox s') /\ (err = None -> in_front rows s' d').
Proof.
  intros M Hn Hfront H. cbn in H. destruct (project_event cutoff row d) as [d1|e] eqn:Ep.
  2:{ destruct flt as [[]|]; injection H as <- <- <-; by exists past. }
  destruct (project_next _ _ _ _ _ _ _ M Hn Hfront Ep) as (past' & M' & Hfront' & Hin & _).
  assert (Mk : mirrored past' (on_outbox (mark_delivered at_ (ob_ID row)) s) d1 /\ fresh_rows (on_outbox (mark_delivered at_ (ob_ID row)) s) d1 = fresh_rows s d1)
    by (by apply on_outbox_mirrored, mark_touches).
  destruct Mk as [Mk Ek]. destruct flt as [[]|]; injection H as <- <- <-.
  - by exists past.
  - exists past'. by split_and!.
  - exists past'. by split_and!.
  - destruct (on_outbox_mirrored _ _ _ _ Mk (delete_touches d1 (ob_ID row) Hin)) as [Md Ed]. exists past'. split_and!; [done..|].
    intros _. unfold in_front. by rewrite Ed, Ek.
Qed.

Lemma deliver_events_mirrored cutoff clock faults rows : forall n past s d cnt err s' d',
  mirrored past s d -> NoDup (map ob_ID rows) -> in_front rows s d ->
  deliver_events cutoff clock faults n rows (mkStores s d) = (cnt, err, mkStores s' d') ->
  exists past', mirrored past' s' d' /\ view s' = (idents s, t_attempts s, t_outbox s').
Proof.
  induction rows as [|row rows IH]; intros n past s d cnt err s' d' M Hn Hf H; cbn [deliver_events] in H.
  { injection H as _ _ <- <-. by exists past. }
  destruct (deliver_event cutoff (clock n) (faults n) row (mkStores s d)) as [e [s1 d1]] eqn:E.
  destruct (deliver_event_mirrored _ _ _ _ _ _ _ _ _ _ _ M Hn Hf E) as (past1 & M1 & V1 & F1).
  destruct e as [e|]; [injection H as _ _ <- <-; eauto|].
  cbn in Hn. apply NoDup_cons in Hn as [_ Hn]. destruct (IH _ _ _ _ _ _ _ _ M1 Hn (F1 eq_refl) H) as (past' & M' & V').
  exists past'. split; [done|]. rewrite V'. by injection V1 as -> ->.
Qed.

(** The batch of a run is in front. *)
Lemma batch_in_front past s d m : mirrored past s d ->
  in_front (take m (List.filter pending (t_outbox s))) s d /\ NoDup (map ob_ID (take m (List.filter pending (t_outbox s)))).
Proof.
  intros [I D _ _ _ _ _]. split.
  - exists (List.filter (fresh_row d) (drop m (List.filter pending (t_outbox s)))). rewrite <- List.filter_app, take_drop, filter_filter_and.
    unfold fresh_rows. apply filter_ext_in. intros r Hr. destruct (pending r) eqn:Ep; [done|]. specialize (D r Hr Ep). unfold fresh_row. by destruct (d_events d !! ob_ID r).
  - eapply sublist_NoDup; [by apply (NoDup_filter_ids pending)|]. change (sublist (ob_ID <$> take m (List.filter pending (t_outbox s))) (ob_ID <$> List.filter pending (t_outbox s))).
    rewrite fmap_take. apply sublist_take.
Qed.

(** ** Runs without a fault *)

Definition room_for (s : db) (d : data) : Prop :=
  forall c k p q, fresh_rows s d = p ++ q -> cell_at c (d_daily d) k + sum_rows c k p <= max_int64.

Lemma mark_delete at_ id l : delete_delivered id (mark_delivered at_ id l) = List.filter (fun r => negb (ob_ID r =s id)) l.
Proof.
  unfold delete_delivered, mark_delivered. induction l as [|r l IH]; [done|]. cbn [map List.filter].
  destruct (String.eqb_spec (ob_ID r) id) as [E|E]; cbn [andb].
  - destruct (ob_Delivered r) eqn:Er; cbn [is_some negb]; [rewrite Er|]; cbn [ob_ID ob_Delivered]; rewrite E, String.eqb_refl; cbn; exact IH.
  - rewrite (proj2 (String.eqb_neq _ _) E). cbn. by rewrite IH.
Qed.

Lemma first_fresh_fits past s d row rest :
  mirrored past s d -> room_for s d -> Z.of_nat (size (d_events d)) < max_int64 -> fresh_rows s d = row :: rest -> fits_after (ob_Payload row) (d_daily d).
Proof.
  intros [I D L C F O Q] R Hz Er w Hw. assert (Ek : event_key row = Some (daily_key (stored w))) by (unfold event_key; by rewrite Hw).
  split; [|split].
  - intros c. assert (Ea : sum_rows c (daily_key (stored w)) [row] = event_amount c (ob_Payload row)).
    { rewrite sum_rows_one. unfold row_amount. by rewrite decide_True. }
    rewrite <- Ea. split; [|by apply (R _ _ _ rest)]. rewrite C, <- sum_rows_app. apply (lg_prefix _ _ _ L) with (q := rest). by rewrite Er, <- app_assoc.
  - pose proof (ct_bound _ _ Q ltac:(lia) (daily_key (stored w))). lia.
  - intros Hc. destruct (lg_order _ _ _ L past row rest) as (k & row' & Hk & Hin & Hop); [by rewrite Er|done|]. rewrite Ek in Hk. injection Hk as <-. by apply (O row').
Qed.

Lemma project_event_runs cutoff past s d row rows :
  mirrored past s d -> room_for s d -> Z.of_nat (size (d_events d)) < max_int64 -> complete_row row -> in_front (row :: rows) s d ->
  exists d', project_event cutoff row d = Ok d' /\ room_for s d' /\ (size (d_events d') <= S (size (d_events d)))%nat.
Proof.
  intros M R Hz Hc [tail Hf]. cbn [List.filter] in Hf. destruct (fresh_row d row) eqn:Efresh.
  - pose proof (first_fresh_fits _ _ _ _ _ M R Hz Hf) as Hfit.
    assert (E : exists d', project_event cutoff row d = Ok d').
    { unfold project_event. assert (d_events d !! ob_ID row = None) as -> by (unfold fresh_row in Efresh; by destruct (d_events d !! ob_ID row)).
      match goal with |- context [project_daily row ?ev (d_daily d)] => destruct (project_daily_runs row ev (d_daily d)) as [daily Hd] end; [apply (mi_fit _ _ _ M)| |done|done|].
      - intros c. apply (lg_amounts _ _ _ (mi_log _ _ _ M)). rewrite Hf. set_solver.
      - cbv zeta. rewrite Hd. by eexists. }
    destruct E as [d' E]. exists d'. split; [done|]. destruct (project_event_mirrored _ _ _ _ _ _ _ M Hf E) as [M' Er].
    apply project_event_Ok in E as (_ & e & ev & Ee & _); [|done]. split; [|rewrite Ee, map_size_insert; destruct (d_events d !! ob_ID row); cbn; lia].
    intros c k p q Eq. rewrite (mi_cells _ _ _ M'), sum_rows_app, <- (mi_cells _ _ _ M), <- Z.add_assoc, <- sum_rows_app.
    apply (R c k _ q). rewrite Hf, <- app_assoc, <- Eq, Er. done.
  - exists d. split; [|split; [done|lia]]. unfold project_event. unfold fresh_row in Efresh. by destruct (d_events d !! ob_ID row).
Qed.

Lemma contains_cons x l y : contains (x :: l) y = (x =s y) || contains l y.
Proof. unfold contains. cbn. by rewrite String.eqb_sym. Qed.

(** Without a fault the whole batch is delivered. *)
Lemma deliver_events_runs cutoff clock rows : forall n past s d,
  mirrored past s d -> NoDup (map ob_ID rows) -> in_front rows s d -> room_for s d ->
  Z.of_nat (size (d_events d) + length rows) <= max_int64 -> Forall complete_row rows ->
  exists s' d', deliver_events cutoff clock (fun _ => None) n rows (mkStores s d) = (Z.of_nat (n + length rows), None, mkStores s' d')
    /\ t_outbox s' = List.filter (fun r => negb (contains (map ob_ID rows) (ob_ID r))) (t_outbox s).
Proof.
  induction rows as [|row rows IH]; intros n past s d M Hn Hf R Hz Hc; cbn [deliver_events].
  { exists s, d. rewrite Nat.add_0_r. split; [done|]. cbn. symmetry. by apply filter_all. }
  cbn [length] in Hz. apply Forall_cons in Hc as [Hc0 Hc]. destruct (project_event_runs cutoff _ _ _ _ _ M R ltac:(lia) Hc0 Hf) as (d1 & Ep & R1 & Hsz).
  set (s1 := on_outbox (delete_delivered (ob_ID row)) (on_outbox (mark_delivered (clock n) (ob_ID row)) s)).
  assert (E : deliver_event cutoff (clock n) None row (mkStores s d) = (None, mkStores s1 d1)) by (unfold deliver_event; by rewrite Ep).
  destruct (deliver_event_mirrored _ _ _ _ _ _ _ _ _ _ _ M Hn Hf E) as (past1 & M1 & _ & F1).
  assert (Efresh : fresh_rows s1 d1 = fresh_rows s d1).
  { unfold fresh_rows, s1. cbn [t_outbox on_outbox set_outbox]. destruct (project_next _ _ _ _ _ _ _ M Hn Hf Ep) as (p1 & M2 & _ & Hin & _).
    destruct (mark_touches d1 (ob_ID row) (clock n) Hin (t_outbox s) (mi_ids _ _ _ M)) as (N1 & <- & _).
    by destruct (delete_touches d1 (ob_ID row) Hin _ N1) as (_ & <- & _). }
  cbn in Hn. apply NoDup_cons in Hn as [_ Hn].
  destruct (IH (S n) past1 s1 d1 M1 Hn (F1 eq_refl)) as (s' & d' & Er & Eo); [|lia|done|].
  - intros c k p q Eq. rewrite Efresh in Eq. by apply (R1 c k p q).
  - exists s', d'. rewrite E, Er. split; [by replace (S n + length rows)%nat with (n + length (row :: rows))%nat by (cbn; lia)|]. rewrite Eo. unfold s1. cbn [t_outbox on_outbox set_outbox].
    rewrite mark_delete, filter_filter_and. apply List.filter_ext. intros r. cbn [map]. rewrite contains_cons, negb_orb. by rewrite (String.eqb_sym (ob_ID row)).
Qed.

(** * The state machine *)

Section Machine.
Context (parse_time : string -> option Z).

(** A call of the usage services, whose new events have identifiers the
    analytics database has not seen; a write elsewhere; a run of the
    projection, with any limit, clock and faults; the retention of details,
    first in the system database, then in the analytics database. *)
Inductive mirror_step : stores -> stores -> Prop :=
| ms_call e op s d :
    typed_call op ->
    (forall r, r ∈ t_outbox (perform parse_time e op s) -> r ∉ t_outbox s -> d_events d !! ob_ID r = None) ->
    mirror_step (mkStores s d) (mkStores (perform parse_time e op s) d)
| ms_elsewhere s s' d : view s' = view s -> mirror_step (mkStores s d) (mkStores s' d)
| ms_project limit clock faults st : mirror_step st (snd (ProjectOutbox limit clock faults st))
| ms_retain_requests e actor cutoff audits s d : mirror_step (mkStores s d) (mkStores (snd (RunRetention e actor cutoff audits s)) d)
| ms_retain cutoff s d : mirror_step (mkStores s d) (mkStores s (retain_events cutoff d)).

(** No attempt has been made yet. *)
Definition blank (st : stores) : Prop :=
  t_attempts (st_system st) = ∅ /\ t_outbox (st_system st) = [] /\ d_events (st_data st) = ∅ /\ d_daily (st_data st) = ∅.

Inductive mirror_reachable : stores -> Prop :=
| mr_blank st : blank st -> mirror_reachable st
| mr_step st st' : mirror_reachable st -> mirror_step st st' -> mirror_reachable st'.

Lemma blank_mirrored s d : blank (mkStores s d) -> mirrored [] s d.
Proof.
  intros (Ea & Eo & Ee & Ed). cbn in *. split; rewrite ?Eo, ?Ed, ?Ea; try done.
  - constructor.
  - intros r Hr. by apply elem_of_nil in Hr.
  - unfold fresh_rows. rewrite Eo. split; try done.
    + intros c k p q E. symmetry in E. apply app_eq_nil in E as [-> _]. by unfold sum_rows.
    + intros p row q E. by destruct p.
    + intros row c Hr. by apply elem_of_nil in Hr.
  - intros r k Hr. by apply elem_of_nil in Hr.
  - split; cbn; rewrite ?Ee, ?Ed; [split; [constructor|by rewrite fmap_empty]| |].
    + intros _ k. rewrite requests_at_None by done. rewrite map_size_empty. done.
    + intros _ k. by rewrite requests_at_None.
Qed.

Lemma call_mirrored past e op s d :
  mirrored past s d -> typed_call op ->
  (forall r, r ∈ t_outbox (perform parse_time e op s) -> r ∉ t_outbox s -> d_events d !! ob_ID r = None) ->
  mirrored past (perform parse_time e op s) d.
Proof.
  intros [I D L C F O Q] Ht Hnew. destruct (perform_distinct parse_time e op s) as [I' Hund]. specialize (I' I).
  destruct (perform_logs parse_time e op s Ht) as (new & Eo & Hlog). set (s' := perform parse_time e op s) in *.
  assert (Hn : forall r, r ∈ new -> d_events d !! ob_ID r = None /\ ob_Delivered r = None).
  { intros r Hr. assert (Hin : r ∈ t_outbox s') by (rewrite Eo; set_solver).
    assert (Hout : r ∉ t_outbox s).
    { intros Hold. rewrite Eo, map_app in I'. apply NoDup_app in I' as (_ & I' & _). apply (I' (ob_ID r)); apply list_elem_of_fmap; by exists r. }
    split; [by apply Hnew|]. by destruct (Hund r Hin). }
  assert (Ef : fresh_rows s' d = fresh_rows s d ++ new).
  { unfold fresh_rows. rewrite Eo, List.filter_app. f_equal. apply filter_all. intros r Hr. unfold fresh_row. by rewrite (proj1 (Hn r Hr)). }
  split; try done.
  - intros r Hr Hp. rewrite Eo in Hr. apply elem_of_app in Hr as [Hr|Hr]; [by apply D|]. destruct (Hn r Hr) as [_ Hd]. unfold pending in Hp. by rewrite Hd in Hp.
  - rewrite Ef, app_assoc. by apply Hlog.
Qed.

Lemma retain_mirrored past s d cutoff : mirrored past s d -> mirrored past s (retain_events cutoff d).
Proof.
  intros [I D L C F O Q].
  assert (Hl : forall k, is_Some (d_events (retain_events cutoff d) !! k) <-> is_Some (d_events d !! k)) by (intros k; cbn; rewrite lookup_fmap; apply fmap_is_Some).
  assert (Ef : fresh_rows s (retain_events cutoff d) = fresh_rows s d).
  { unfold fresh_rows. apply List.filter_ext. intros r. unfold fresh_row. cbn. rewrite lookup_fmap. by destruct (d_events d !! ob_ID r). }
  split; try done.
  - intros r Hr Hp. apply Hl. by apply D.
  - by rewrite Ef.
  - destruct Q as [[Rn Rv] Qb Qr]. split; cbn; rewrite ?map_size_fmap; [|done|done]. split; [done|]. rewrite <- Rv, <- map_fmap_compose. apply map_fmap_ext.
    intros k e _. cbn. by destruct (_ <? _).
Qed.

(** Clearing the details of attempts leaves what is counted of them. *)
Lemma retained_same requests cutoff a :
  let a' := retained_attempt requests cutoff a in
  at_State a' = at_State a /\ (forall ids, key_in ids a' = key_in ids a) /\ (forall c, attempt_amount c a' = attempt_amount c a) /\ (at_Usage a = no_usage -> at_Usage a' = no_usage).
Proof.
  unfold retained_attempt. destruct (requests !! at_Request a) as [rq|]; [destruct (details_over cutoff rq)|]; [|done..].
  split_and!; try done. by intros; cbn; match goal with H : at_Usage _ = _ |- _ => rewrite H end.
Qed.

Lemma logged_retained ids requests cutoff m log : logged ids m log -> logged ids (retained_attempt requests cutoff <$> m) log.
Proof.
  intros [K T B Bd P S O A]. split; try done.
  - intros id a'. rewrite lookup_fmap. intros (a & Ha & ->)%fmap_Some. destruct (retained_same requests cutoff a) as (_ & -> & _). by eapply K.
  - intros c k. rewrite <- (T c k). rewrite msum_fmap. apply msum_ext. intros id a _. unfold share. destruct (retained_same requests cutoff a) as (_ & -> & -> & _). done.
  - intros id a'. rewrite lookup_fmap. intros (a & Ha & ->)%fmap_Some. destruct (retained_same requests cutoff a) as (-> & _ & _ & Hu). intros Hs. by eapply Hu, B.
  - intros id a' c. rewrite lookup_fmap. intros (a & Ha & ->)%fmap_Some. destruct (retained_same requests cutoff a) as (_ & _ & -> & _). by eapply Bd.
  - intros id a' k. rewrite lookup_fmap. intros (a & Ha & ->)%fmap_Some. destruct (retained_same requests cutoff a) as (-> & -> & _). by eapply S.
Qed.

Lemma retention_mirrored past s d e actor cutoff audits : mirrored past s d -> mirrored past (snd (RunRetention e actor cutoff audits s)) d.
Proof.
  intros M. destruct (RunRetention_Ok e actor cutoff audits s) as [log [-> | ->]]; [done|]. destruct M as [I D L C F O Q]. split; try done.
  cbn. match goal with |- logged ?ids _ _ => assert (ids = idents s) as -> end; [|by apply logged_retained].
  unfold idents. cbn. rewrite <- map_fmap_compose. apply map_fmap_ext. intros k rq _. cbn. by destruct (retained_request_same cutoff rq) as (_ & -> & ->).
Qed.

Lemma reachable_mirrored st : mirror_reachable st -> exists past, mirrored past (st_system st) (st_data st).
Proof.
  induction 1 as [[s d] Hb|st st' _ [past M] Hs]; [exists []; by apply blank_mirrored|].
  destruct Hs as [e op s d Ht Hnew|s s' d [= Ei Ea Eo]|limit clock faults [s d]|e actor cutoff audits s d|cutoff s d]; cbn [st_system st_data] in *.
  - exists past. by apply call_mirrored.
  - exists past. destruct M as [I D L C F O Q]. split; unfold fresh_rows in *; rewrite ?Ei, ?Ea, ?Eo; done.
  - unfold ProjectOutbox. cbn [st_system st_data]. destruct (batch_in_front past s d (projection_limit limit) M) as [Hf Hn].
    destruct (deliver_events _ _ _ _ _ _) as [[cnt err] [s' d']] eqn:E. destruct (deliver_events_mirrored _ _ _ _ _ _ _ _ _ _ _ _ M Hn Hf E) as (past' & M' & _). by exists past'.
  - exists past. by apply retention_mirrored.
  - exists past. by apply retain_mirrored.
Qed.

(** C6: The dashboard's totals mirror the ledger: in every state the two
    databases reach, by calls of the usage services and by runs of the
    projection that may fail between the two commits and repeat, each amount
    of each daily row (its tokens, cache tokens, web searches, cost and
    unknown attempts) plus the events not yet projected is exactly the total of
    that column over the settled attempts of that day, owner, key, model and
    connection, and no daily total is negative. The requests column is counted
    from the events themselves: the events of the analytics database, each
    recorded once with its kind and request, come in an order in which the
    column of a row is the number of its events that are the first of their
    request that counts. *)
Theorem analytics_mirror_ledger (st : stores) :
  mirror_reachable st ->
  (forall c k, cell_at c (d_daily (st_data st)) k + sum_rows c k (fresh_rows (st_system st) (st_data st)) = ledger_total (st_system st) c k
    /\ 0 <= cell_at c (d_daily (st_data st)) k <= max_int64)
  /\ exists past, recorded past (d_events (st_data st)) /\ (forall c k, cell_at c (d_daily (st_data st)) k = sum_rows c k past)
     /\ (Z.of_nat (size (d_events (st_data st))) <= max_int64 -> forall k, requests_at (d_daily (st_data st)) k = requests_counted k [] past).
Proof.
  intros [past M]%reachable_mirrored. split.
  - intros c k. rewrite (mi_cells _ _ _ M). split.
    + rewrite <- sum_rows_app. unfold ledger_total. symmetry. apply (lg_total _ _ _ (mi_log _ _ _ M)).
    + split; [by eapply (lg_prefix _ _ _ (mi_log _ _ _ M))|]. rewrite <- (mi_cells _ _ _ M). destruct (cells_fit_at (d_daily (st_data st)) k c); [apply (mi_fit _ _ _ M)|done].
  - exists past. pose proof (mi_requests _ _ _ M) as Q. split_and!; [apply (ct_recorded _ _ Q)|apply (mi_cells _ _ _ M)|apply (ct_requests _ _ Q)].
Qed.

(** C7: The projection delivers: from any reachable state, a run without a
    fault, of events whose subjects are complete and whose running totals fit
    the integers of the daily rows, projects and removes the whole batch (the
    first pending events up to its limit), leaves the other events in place,
    and when the batch was everything pending the daily totals are the totals
    of the ledger. *)
Theorem projection_delivers (st : stores) (limit : Z) (clock : nat -> Z) :
  mirror_reachable st -> room_for (st_system st) (st_data st) -> Z.of_nat (size (d_events (st_data st))) + 500 <= max_int64 ->
  Forall complete_row (List.filter pending (t_outbox (st_system st))) ->
  let batch := take (projection_limit limit) (List.filter pending (t_outbox (st_system st))) in
  exists st', ProjectOutbox limit clock (fun _ => None) st = (Z.of_nat (length batch), None, st')
    /\ t_outbox (st_system st') = List.filter (fun r => negb (contains (map ob_ID batch) (ob_ID r))) (t_outbox (st_system st))
    /\ (batch = List.filter pending (t_outbox (st_system st)) ->
        forall c k, cell_at c (d_daily (st_data st')) k = ledger_total (st_system st) c k).
Proof.
  intros [past M]%reachable_mirrored R Hz Hc batch. destruct st as [s d]. cbn [st_system st_data] in *.
  destruct (batch_in_front past s d (projection_limit limit) M) as [Hf Hn]. fold batch in Hf, Hn.
  assert (Hlen : (length batch <= 500)%nat).
  { unfold batch. rewrite length_take. unfold projection_limit. destruct ((limit <? 1) || (500 <? limit)) eqn:E; [lia|]. apply orb_false_iff in E. lia. }
  destruct (deliver_events_runs (default 0 (d_cutoff d)) clock batch 0 past s d M Hn Hf R ltac:(lia)) as (s' & d' & E & Eo).
  { apply Forall_take, Hc. }
  exists (mkStores s' d'). split; [exact E|]. split; [exact Eo|]. intros Hall c k.
  destruct (deliver_events_mirrored _ _ _ _ _ _ _ _ _ _ _ _ M Hn Hf E) as (past' & M' & [= Ei Ea]). cbn [st_data].
  rewrite (mi_cells _ _ _ M'). unfold ledger_total. rewrite <- Ei, <- Ea, (lg_total _ _ _ (mi_log _ _ _ M')), sum_rows_app.
  enough (fresh_rows s' d' = []) as -> by (cbn; lia). unfold fresh_rows. destruct (List.filter (fresh_row d') (t_outbox s')) as [|r l] eqn:Ef; [done|exfalso].
  assert (Hr : In r (List.filter (fresh_row d') (t_outbox s'))) by (rewrite Ef; by left). apply filter_In in Hr as [Hr Hfr].
  assert (Hp : pending r = true).
  { destruct (pending r) eqn:Hp; [done|]. apply list_elem_of_In in Hr. specialize (mi_delivered _ _ _ M' r Hr Hp) as [e He]. unfold fresh_row in Hfr. by rewrite He in Hfr. }
  rewrite Eo in Hr. apply filter_In in Hr as [Hr Hout]. apply negb_true_iff in Hout. enough (contains (map ob_ID batch) (ob_ID r) = true) by congruence.
  unfold contains. apply existsb_exists. exists (ob_ID r). split; [|apply String.eqb_refl]. apply in_map. rewrite Hall. by apply filter_In.
Qed.
End Machine.
