(* ===== verification/Keys.v ===== *)
(** API keys ([internal/features/keys/service.go] and
    [internal/features/auth/scopes.go]): the life of a key and its secrets,
    and what a request authenticated by a secret may do. Grant columns are
    kept as the lists the code encodes into them. *)
From S2P Require Import Prelude GoStd Json Policy PathMatch Grants Store Pricing Admission Settlement Reservations Lifecycle.

(** * Scopes *)

Definition inferenceScopes : list string :=
  ["chat:generate"; "completions:generate"; "messages:batches"; "messages:web_search"; "messages:web_fetch";
   "responses:generate"; "responses:web_search"; "responses:file_search"; "embeddings:generate"; "moderations:classify";
   "decisions:generate"; "images:generate"; "images:edit"; "images:variation"; "audio:speech"; "audio:transcribe";
   "audio:translate"; "realtime:connect"; "media:generate"; "batches:manage"; "files:manage"; "vector_stores:manage";
   "models:read"; "tokens:count"]%string.

Definition ValidInferenceScope (scope : string) : bool := existsb (fun id => id =s scope) inferenceScopes.

(** * Values *)

(** What the API shows of a key; instants stay in milliseconds. *)
Record APIKey := mkAPIKey { ak_ID : string; ak_Row : KeyRow }.

Record Input := mkInput {
  in_Label : string; in_Scopes : list string; in_ModelPatterns : list string; in_ConnectionIDs : list string;
  in_ExpiresAt : string; in_State : string }.

Record Principal := mkPrincipal {
  pl_KeyID : string; pl_Owner : string; pl_Scopes : list string; pl_Models : list string; pl_Connections : list string }.

Definition AllowsScope (p : Principal) (scope : string) : bool := contains (pl_Scopes p) scope.

Definition Allows (p : Principal) (scope model connectionID : string) : bool :=
  if negb (AllowsScope p scope) || negb (contains (pl_Connections p) connectionID) then false
  else modelAllowed (pl_Models p) model.

(** [keys.validateGrants]. *)
Definition validateGrants (values : list string) : result unit :=
  _ ← ensure (Nat.leb (length values) 100) (Msg "too many grants");
  ensure (forallb valid_grant values) (Msg "grants must be between 1 and 200 characters").

(** The first two separators of a token: [strings.SplitN(token, "_", 3)] with
    three parts. *)
Fixpoint Cut (s : string) (sep : ascii) : option (string * string) :=
  match s with
  | EmptyString => None
  | String c s => if Ascii.eqb c sep then Some (EmptyString, s)
                  else match Cut s sep with Some (a, b) => Some (String c a, b) | None => None end
  end.

Definition underscore : ascii := ascii_of_nat 95.

Definition token_parts (token : string) : option (string * string * string) :=
  match Cut token underscore with
  | Some (a, rest) => match Cut rest underscore with Some (b, c) => Some (a, b, c) | None => None end
  | None => None
  end.

(** [hex.EncodeToString]. *)
Fixpoint hex_string (s : string) : string :=
  match s with
  | EmptyString => ""
  | String c s => String (hex_digit (byte_of c / 16)) (String (hex_digit (byte_of c mod 16)) (hex_string s))
  end.

(** * The service *)

Section Keys.
(** [sha256.Sum256], as a byte string, and [time.Parse(time.RFC3339, _)], as
    nanoseconds since the epoch. *)
Variables (Verifier : string -> string) (parse_time : string -> option Z).

(** [validateInput]; [at_] is the clock in nanoseconds. *)
Definition validateInput (i : Input) (at_ : Z) : result (Input * option Z) :=
  let label := TrimSpace (in_Label i) in
  _ ← ensure (negb ((label =s "") || (100 <? rune_count label))) (Msg "label must be between 1 and 100 characters");
  _ ← ensure ((in_State i =s "active") || (in_State i =s "disabled")) (Msg "state must be active or disabled");
  _ ← ensure (forallb ValidInferenceScope (in_Scopes i)) (Msg "unsupported scope");
  _ ← validateGrants (in_ModelPatterns i);
  _ ← validateGrants (in_ConnectionIDs i);
  let validated := mkInput label (unique (in_Scopes i)) (unique (in_ModelPatterns i)) (unique (in_ConnectionIDs i))
                     (in_ExpiresAt i) (in_State i) in
  if in_ExpiresAt i =s "" then Ok (validated, None)
  else match parse_time (in_ExpiresAt i) with
       | Some t => if at_ <? t then Ok (validated, Some (UnixMilli t)) else Err (Msg "expiry must be a future RFC3339 time")
       | None => Err (Msg "expiry must be a future RFC3339 time")
       end.

Definition key_state_of (s : string) : KeyState := if s =s "disabled" then KDisabled else KActive.

(** [newSecret], from the two random tokens it draws. *)
Definition newSecret (seed secret : string) : string * string * string :=
  let selector := hex_string (take_bytes 8 (Verifier seed)) in
  let token := "pag_" +:+ selector +:+ "_" +:+ secret in
  (token, selector, Verifier token).

Definition Get (ownerID keyID : string) (s : db) : result APIKey :=
  match t_keys s !! keyID with
  | Some k => if k_Owner k =s ownerID then Ok (mkAPIKey keyID k) else Err ErrNotFound
  | None => Err ErrNotFound
  end.

(** [allowedForUser]. *)
Definition allowedForUser (s : db) (userID : string) (i : Input) : result bool :=
  match t_users s !! userID with
  | Some u =>
    if decide (u_Status u = UActive) then
      let g := u_Grants u in
      Ok (g_Unrestricted g || subset (in_Scopes i) (g_Scopes g) && modelSubset (in_ModelPatterns i) (g_Models g)
                              && subset (in_ConnectionIDs i) (g_Connections g))
    else Err ErrNoRows
  | None => Err ErrNoRows
  end.

Definition require_allowed (userID : string) (i : Input) : tx db unit :=
  s ← reads (fun s => s);
  allowed ← lift (allowedForUser s userID i);
  require allowed ErrDenied.

Definition insert_secret (selector : string) (row : SecretRow) : tx db unit := insert_row t_secrets set_secrets selector row.

(** [UPDATE api_key_secrets SET .. WHERE key_id = ? AND revoked_at IS NULL]. *)
Definition unrevoked (keyID : string) (sc : SecretRow) : bool := (sc_Key sc =s keyID) && negb (is_some (sc_Revoked sc)).
Definition update_secrets (keyID : string) (f : SecretRow -> SecretRow) : tx db unit :=
  update_rows t_secrets set_secrets (fun _ sc => unrevoked keyID sc) f.
Definition with_revoked (at_ : Z) (sc : SecretRow) : SecretRow :=
  mkSecretRow (sc_Verifier sc) (sc_Key sc) (sc_Created sc) (sc_Expires sc) (Some at_).
Definition with_expiry (expires : option Z) (sc : SecretRow) : SecretRow :=
  mkSecretRow (sc_Verifier sc) (sc_Key sc) (sc_Created sc) expires (sc_Revoked sc).

Definition audit_key (tok actorID action keyID : string) (at_ : Z) : tx db unit :=
  insertAudit tok actorID action "api_key" keyID [] at_.

Definition create_tx (e : env) (ownerID : string) (i : Input) (expires : option Z) : tx db unit :=
  let keyID := "key_" +:+ token e 0 in
  let '(tok, selector, verifier) := newSecret (token e 1) (token e 2) in
  _ ← require_allowed ownerID i;
  _ ← insert_row t_keys set_keys keyID
        (mkKeyRow ownerID (in_Label i) KActive (in_Scopes i) (in_ModelPatterns i) (in_ConnectionIDs i) expires 1 (now e 1) (now e 1));
  _ ← insert_secret selector (mkSecretRow verifier keyID (now e 1) expires None);
  audit_key (token e 3) ownerID "api_key.create" keyID (now e 2).

(** [Create]; the clock reading of [validateInput] is [now_nanos]. *)
Definition Create (e : env) (now_nanos : Z) (ownerID : string) (input : Input) (s : db) : result (APIKey * string) * db :=
  let input := mkInput (in_Label input) (in_Scopes input) (in_ModelPatterns input) (in_ConnectionIDs input) (in_ExpiresAt input) "active" in
  match validateInput input now_nanos with
  | Err err => (Err err, s)
  | Ok (i, expires) =>
    let '(tok, _, _) := newSecret (token e 1) (token e 2) in
    match commit (create_tx e ownerID i expires) s with
    | (Ok _, s') => (match Get ownerID ("key_" +:+ token e 0) s' with Ok k => Ok (k, tok) | Err err => Err err end, s')
    | (Err err, s') => (Err err, s')
    end
  end.

Definition editable (ownerID : string) (revision : Z) (k : KeyRow) : bool :=
  (k_Owner k =s ownerID) && (k_Revision k =? revision) && negb (bool_decide (k_State k = KRevoked)).

Definition edit_key (i : Input) (expires : option Z) (at_ : Z) (k : KeyRow) : KeyRow :=
  mkKeyRow (k_Owner k) (in_Label i) (key_state_of (in_State i)) (in_Scopes i) (in_ModelPatterns i) (in_ConnectionIDs i)
    expires (k_Revision k + 1) (k_Created k) at_.

Definition update_tx (e : env) (ownerID keyID : string) (revision : Z) (i : Input) (expires : option Z) : tx db unit :=
  _ ← require_allowed ownerID i;
  changed ← update_row t_keys set_keys keyID (editable ownerID revision) (edit_key i expires (now e 0));
  _ ← require (changed =? 1) ErrConflict;
  _ ← update_secrets keyID (with_expiry expires);
  audit_key (token e 0) ownerID "api_key.update" keyID (now e 1).

Definition Update (e : env) (now_nanos : Z) (ownerID keyID : string) (revision : Z) (input : Input) (s : db) : result APIKey * db :=
  match Get ownerID keyID s with
  | Err err => (Err err, s)
  | Ok _ =>
    let input := mkInput (in_Label input) (in_Scopes input) (in_ModelPatterns input) (in_ConnectionIDs input)
                   (in_ExpiresAt input) (default_text (in_State input) "active") in
    match validateInput input now_nanos with
    | Err err => (Err err, s)
    | Ok (i, expires) =>
      match commit (update_tx e ownerID keyID revision i expires) s with
      | (Ok _, s') => (Get ownerID keyID s', s')
      | (Err err, s') => (Err err, s')
      end
    end
  end.

Definition revoke_key (at_ : Z) (k : KeyRow) : KeyRow :=
  mkKeyRow (k_Owner k) (k_Label k) KRevoked (k_Scopes k) (k_Models k) (k_Connections k) (k_Expires k) (k_Revision k + 1)
    (k_Created k) at_.

Definition revoke_tx (e : env) (ownerID keyID : string) (revision : Z) : tx db unit :=
  changed ← update_row t_keys set_keys keyID (editable ownerID revision) (revoke_key (now e 0));
  _ ← require (changed =? 1) ErrConflict;
  _ ← update_secrets keyID (with_revoked (now e 0));
  audit_key (token e 0) ownerID "api_key.revoke" keyID (now e 1).

Definition Revoke (e : env) (ownerID keyID : string) (revision : Z) (s : db) : result unit * db :=
  match Get ownerID keyID s with
  | Err err => (Err err, s)
  | Ok _ => commit (revoke_tx e ownerID keyID revision) s
  end.

Definition touch_key (at_ : Z) (k : KeyRow) : KeyRow :=
  mkKeyRow (k_Owner k) (k_Label k) (k_State k) (k_Scopes k) (k_Models k) (k_Connections k) (k_Expires k) (k_Revision k + 1)
    (k_Created k) at_.

(** The key [Rotate] may rotate, with its expiry. *)
Definition rotatable (s : db) (ownerID keyID : string) (revision : Z) : option (option Z) :=
  k ← t_keys s !! keyID;
  if (k_Owner k =s ownerID) && (k_Revision k =? revision) && bool_decide (k_State k = KActive) then Some (k_Expires k) else None.

Definition rotate_tx (e : env) (ownerID keyID : string) (revision : Z) : tx db unit :=
  let '(tok, selector, verifier) := newSecret (token e 0) (token e 1) in
  let at_ := now e 0 in
  expires ← get_row (fun s => rotatable s ownerID keyID revision) ErrConflict;
  _ ← require (match expires with Some t => at_ <? t | None => true end) ErrExpired;
  _ ← update_secrets keyID (with_revoked at_);
  _ ← insert_secret selector (mkSecretRow verifier keyID at_ expires None);
  _ ← update_row t_keys set_keys keyID (fun _ => true) (touch_key at_);
  audit_key (token e 2) ownerID "api_key.rotate" keyID (now e 1).

Definition Rotate (e : env) (ownerID keyID : string) (revision : Z) (s : db) : result (APIKey * string) * db :=
  match Get ownerID keyID s with
  | Err err => (Err err, s)
  | Ok _ =>
    let '(tok, _, _) := newSecret (token e 0) (token e 1) in
    match commit (rotate_tx e ownerID keyID revision) s with
    | (Ok _, s') => (match Get ownerID keyID s' with Ok k => Ok (k, tok) | Err err => Err err end, s')
    | (Err err, s') => (Err err, s')
    end
  end.

(** * Authentication *)

(** The key's grants, clamped to its owner's unless the owner is unrestricted. *)
Definition decodePrincipal (keyID : string) (k : KeyRow) (g : Grants) : Principal :=
  if g_Unrestricted g then mkPrincipal keyID (k_Owner k) (k_Scopes k) (k_Models k) (k_Connections k)
  else mkPrincipal keyID (k_Owner k) (intersection (k_Scopes k) (g_Scopes g)) (modelIntersection (k_Models k) (g_Models g))
         (intersection (k_Connections k) (g_Connections g)).

Definition before_expiry (at_ : Z) (expires : option Z) : bool :=
  match expires with None => true | Some t => at_ <? t end.

(** [api_keys JOIN users], both active, the key not expired. *)
Definition live_key (s : db) (at_ : Z) (keyID : string) : option (KeyRow * UserRow) :=
  k ← t_keys s !! keyID; u ← t_users s !! k_Owner k;
  if bool_decide (k_State k = KActive) && before_expiry at_ (k_Expires k) && bool_decide (u_Status u = UActive)
  then Some (k, u) else None.

(** The query of [Authenticate]: it reads the clock once for the secret and
    once for the key. *)
Definition secret_join (s : db) (at1 at2 : Z) (selector : string) : option (SecretRow * (KeyRow * UserRow)) :=
  sc ← t_secrets s !! selector;
  if is_some (sc_Revoked sc) || negb (before_expiry at1 (sc_Expires sc)) then None
  else ku ← live_key s at2 (sc_Key sc); Some (sc, ku).

Definition Authenticate (e : env) (token : string) (s : db) : result Principal :=
  match token_parts token with
  | Some (prefix, selector, _) =>
    if negb (prefix =s "pag") then Err ErrNotFound
    else match secret_join s (now e 0) (now e 1) selector with
         | None => Err ErrNotFound
         | Some (sc, (k, u)) =>
           if Verifier token =s sc_Verifier sc then Ok (decodePrincipal (sc_Key sc) k (u_Grants u)) else Err ErrNotFound
         end
  | None => Err ErrNotFound
  end.

(** [Service.Principal]. *)
Definition PrincipalOf (e : env) (keyID : string) (s : db) : result Principal :=
  match live_key s (now e 0) keyID with
  | Some (k, u) => Ok (decodePrincipal keyID k (u_Grants u))
  | None => Err ErrNotFound
  end.
End Keys.

(** * Lemmas *)

Lemma Cut_app (a b : string) (sep : ascii) : has_byte sep a = false -> Cut (a +:+ String sep b) sep = Some (a, b).
Proof.
  induction a as [|c a IH]; intros H; autorewrite with gw; cbn [Cut].
  - by rewrite Ascii.eqb_refl.
  - rewrite has_byte_cons in H. apply orb_false_iff in H as [Hc Ha]. by rewrite Hc, (IH Ha).
Qed.

Lemma hex_digit_not_underscore n : 0 <= n < 16 -> Ascii.eqb (hex_digit n) underscore = false.
Proof.
  intros Hn. enumerate n 16%nat; reflexivity.
Qed.

Lemma byte_of_range c : 0 <= byte_of c < 256.
Proof. unfold byte_of. pose proof (nat_ascii_bounded c). lia. Qed.

Lemma hex_string_plain s : has_byte underscore (hex_string s) = false.
Proof.
  induction s as [|c s IH]; [done|]. cbn [hex_string]. rewrite !has_byte_cons, IH, orb_false_r.
  pose proof (byte_of_range c).
  rewrite !hex_digit_not_underscore; [done|apply Z.mod_pos_bound; lia|].
  split; [apply Z.div_pos; lia|apply Z.div_lt_upper_bound; lia].
Qed.

Section KeyFacts.
Context (Verifier : string -> string) (parse_time : string -> option Z).

Lemma newSecret_parts seed secret tok selector verifier :
  newSecret Verifier seed secret = (tok, selector, verifier) ->
  token_parts tok = Some ("pag"%string, selector, secret) /\ verifier = Verifier tok.
Proof.
  unfold newSecret. intros [= <- <- <-]. split; [|done]. unfold token_parts.
  change ("pag_" +:+ ?x)%string with ("pag" +:+ String underscore x)%string. rewrite Cut_app by done.
  change ("_" +:+ ?x)%string with (String underscore x). by rewrite Cut_app by apply hex_string_plain.
Qed.

(** A successful authentication, taken apart. *)
Lemma Authenticate_Ok e tok s p :
  Authenticate Verifier e tok s = Ok p <->
  exists selector rest sc k u, token_parts tok = Some ("pag"%string, selector, rest) /\ t_secrets s !! selector = Some sc /\
    sc_Revoked sc = None /\ before_expiry (now e 0) (sc_Expires sc) = true /\
    t_keys s !! sc_Key sc = Some k /\ t_users s !! k_Owner k = Some u /\ k_State k = KActive /\
    before_expiry (now e 1) (k_Expires k) = true /\ u_Status u = UActive /\ Verifier tok = sc_Verifier sc /\
    p = decodePrincipal (sc_Key sc) k (u_Grants u).
Proof.
  unfold Authenticate, secret_join, live_key. split.
  - destruct (token_parts tok) as [[[prefix selector] rest]|]; [|done].
    destruct (prefix =s "pag") eqn:Ep; [|done]. apply String.eqb_eq in Ep as ->. cbn [negb].
    destruct (t_secrets s !! selector) as [sc|] eqn:Es; cbn; [|done].
    destruct (sc_Revoked sc) eqn:Er; [done|]. destruct (before_expiry (now e 0) (sc_Expires sc)) eqn:Ex; [|done]. cbn.
    destruct (t_keys s !! sc_Key sc) as [k|] eqn:Ek; cbn; [|done]. destruct (t_users s !! k_Owner k) as [u|] eqn:Eu; cbn; [|done].
    destruct (bool_decide (k_State k = KActive) && _ && _) eqn:Ec; cbn; [|done]. rewrite !andb_true_iff, !bool_decide_eq_true in Ec.
    destruct (Verifier tok =s sc_Verifier sc) eqn:Ev; [|done]. apply String.eqb_eq in Ev. intros [= <-].
    exists selector, rest, sc, k, u. tauto.
  - intros (selector & rest & sc & k & u & -> & Es & Er & Ex & Ek & Eu & Est & Ekx & Eus & Ev & ->).
    rewrite Es. cbn. rewrite Er, Ex. cbn. rewrite Ek. cbn. rewrite Eu. cbn.
    rewrite Est, Ekx, Eus, !bool_decide_eq_true_2 by done. cbn. by rewrite Ev, String.eqb_refl.
Qed.

Lemma decodePrincipal_ids id k g : pl_KeyID (decodePrincipal id k g) = id /\ pl_Owner (decodePrincipal id k g) = k_Owner k.
Proof. unfold decodePrincipal. by destruct (g_Unrestricted g). Qed.

(** The tables of the identity services. *)
Lemma Get_Ok owner id s a : Get owner id s = Ok a -> exists k, t_keys s !! id = Some k /\ k_Owner k = owner /\ a = mkAPIKey id k.
Proof.
  unfold Get. destruct (t_keys s !! id) as [k|]; [|done]. destruct (k_Owner k =s owner) eqn:E; [|done].
  apply String.eqb_eq in E. intros [= <-]. eauto.
Qed.

Lemma require_allowed_Ok owner i s u s' :
  require_allowed owner i s = Ok (u, s') -> s' = s /\ exists usr, t_users s !! owner = Some usr /\ u_Status usr = UActive /\
    (g_Unrestricted (u_Grants usr) = true \/
     subset (in_Scopes i) (g_Scopes (u_Grants usr)) = true /\ modelSubset (in_ModelPatterns i) (g_Models (u_Grants usr)) = true /\
     subset (in_ConnectionIDs i) (g_Connections (u_Grants usr)) = true).
Proof.
  unfold require_allowed, allowedForUser. intros H. tx_inv. split; [done|].
  match goal with H : match t_users ?s0 !! owner with Some _ => _ | None => _ end = Ok _ |- _ => destruct (t_users s0 !! owner) as [usr|]; [|done];
    destruct (decide (u_Status usr = UActive)); [|done]; injection H as H end.
  exists usr. split_and!; [done..|]. subst. 
  match goal with H : _ || _ = true |- _ => rewrite orb_true_iff, !andb_true_iff in H; tauto end.
Qed.

Lemma create_tx_Ok e owner i expires s u s' tok selector verifier :
  newSecret Verifier (token e 1) (token e 2) = (tok, selector, verifier) ->
  create_tx Verifier e owner i expires s = Ok (u, s') ->
  let id := ("key_" +:+ token e 0)%string in
  let k := mkKeyRow owner (in_Label i) KActive (in_Scopes i) (in_ModelPatterns i) (in_ConnectionIDs i) expires 1 (now e 1) (now e 1) in
  t_keys s !! id = None /\ t_secrets s !! selector = None /\ require_allowed owner i s = Ok (tt, s) /\
  exists au, s' = set_audit au (set_secrets (<[selector := mkSecretRow verifier id (now e 1) expires None]> (t_secrets s))
                    (set_keys (<[id := k]> (t_keys s)) s)).
Proof.
  intros Hn H id k. unfold create_tx, insert_secret, audit_key in H. rewrite Hn in H.
  apply tx_bind_Ok in H as ([] & s1 & Hr & H). pose proof Hr as Hr'. apply require_allowed_Ok in Hr' as [-> _].
  apply tx_bind_Ok in H as (? & s1 & Hk & H). apply insert_row_Ok in Hk as [Hk ->].
  apply tx_bind_Ok in H as (? & s1 & Hs & H). apply insert_row_Ok in Hs as [Hs ->].
  apply insertAudit_Ok in H as [au ->]. split_and!; [done..|]. by exists au.
Qed.

(** * Properties *)

(** A created key works: the token [Create] returns authenticates, as the
    new key of that owner, until the expiry it was created with. *)
Theorem Create_authenticates (e e2 : env) (nanos : Z) (owner : string) (input : Input) (s s' : db) (key : APIKey) (tok : string) :
  Create Verifier parse_time e nanos owner input s = (Ok (key, tok), s') ->
  before_expiry (now e2 0) (k_Expires (ak_Row key)) = true -> before_expiry (now e2 1) (k_Expires (ak_Row key)) = true ->
  exists p, Authenticate Verifier e2 tok s' = Ok p /\ pl_KeyID p = ak_ID key /\ pl_Owner p = owner.
Proof.
  intros H Hx1 Hx2. unfold Create in H. destruct (validateInput _ _ _) as [[i expires]|]; [|done].
  destruct (newSecret Verifier (token e 1) (token e 2)) as [[tok' selector] verifier] eqn:Hn.
  unfold commit in H. destruct (create_tx _ _ _ _ _ s) as [[[] s0]|] eqn:Ht; [|done].
  destruct (Get owner _ s0) as [k0|] eqn:Hg; [|done]. injection H as <- <- <-.
  destruct (newSecret_parts _ _ _ _ _ Hn) as [Hparts Hver].
  apply (create_tx_Ok _ _ _ _ _ _ _ tok' selector verifier Hn) in Ht as (_ & _ & Hra & au & ->).
  apply require_allowed_Ok in Hra as [_ (usr & Hu & Hact & _)].
  apply Get_Ok in Hg as (k & Hk & _ & ->). cbn [t_keys set_audit set_secrets set_keys] in Hk. rewrite lookup_insert_eq in Hk.
  injection Hk as <-. cbn [ak_Row ak_ID] in *. set (id := ("key_" +:+ token e 0)%string).
  set (k := mkKeyRow owner (in_Label i) KActive (in_Scopes i) (in_ModelPatterns i) (in_ConnectionIDs i) expires 1 (now e 1) (now e 1)).
  exists (decodePrincipal id k (u_Grants usr)). split; [|apply (decodePrincipal_ids id k)]. apply Authenticate_Ok.
  exists selector, (token e 2), (mkSecretRow verifier id (now e 1) expires None), k, usr. cbn. rewrite !lookup_insert_eq. by split_and!.
Qed.

(** C38: What a token may do, its owner may do. An authenticated principal is
    an unexpired active key of an active user, and whatever scope, model and
    connection it [Allows], the key and the user's grants allow, so the check
    of admission passes too, as long as the key's patterns quote no bytes. *)
Theorem Authenticate_within_grants (e : env) (tok : string) (s : db) (p : Principal) (i : AdmissionInput) :
  Authenticate Verifier e tok s = Ok p ->
  (forall k, t_keys s !! pl_KeyID p = Some k -> Forall (fun v => has_byte backslash v = false) (k_Models k)) ->
  Allows p (ai_Scope i) (ai_ModelID i) (ai_ConnectionID i) = true ->
  exists k u, active_key s (pl_KeyID p) (now e 1) = Some (k, u) /\ k_Owner k = pl_Owner p /\
    admissionGranted i k (u_Grants u) = true.
Proof.
  intros H Hb Hal. apply Authenticate_Ok in H as (sel & rest & sc & k & u & _ & _ & _ & _ & Hk & Hu & Hst & Hx & Hus & _ & ->).
  destruct (decodePrincipal_ids (sc_Key sc) k (u_Grants u)) as [Eid Eow]. rewrite Eid, Eow in *.
  specialize (Hb k Hk). exists k, u. split_and!; [|done|].
  - unfold active_key. rewrite Hk. cbn. rewrite Hu. cbn. rewrite decide_True by done. unfold before_expiry in Hx.
    destruct (k_Expires k); [by rewrite Hx|done].
  - unfold Allows, AllowsScope, decodePrincipal in Hal. unfold admissionGranted. destruct (g_Unrestricted (u_Grants u)) eqn:Eg; cbn [pl_Scopes pl_Models pl_Connections] in Hal.
    + destruct (contains (k_Scopes k) _) eqn:E1; [|done]. destruct (contains (k_Connections k) _) eqn:E2; [|done].
      cbn [negb orb] in Hal. by rewrite Hal.
    + destruct (contains (intersection (k_Scopes k) _) _) eqn:E1; [|done].
      destruct (contains (intersection (k_Connections k) _) _) eqn:E2; [|done]. cbn [negb orb] in Hal.
      apply contains_In, intersection_In in E1 as [E1 E1']. apply contains_In, intersection_In in E2 as [E2 E2'].
      apply modelIntersection_within in Hal as [Hm1 Hm2]; [|done].
      apply contains_In in E1, E1', E2, E2'. by rewrite E1, E1', E2, E2', Hm1, Hm2.
Qed.

(** ** Secrets *)

(** At most one secret of a key is unrevoked; it expires with its key, which
    is not revoked. *)
Record secrets_ok (s : db) : Prop := mkSecretsOk {
  so_one : forall i j a b, t_secrets s !! i = Some a -> t_secrets s !! j = Some b -> sc_Revoked a = None -> sc_Revoked b = None ->
    sc_Key a = sc_Key b -> i = j;
  so_key : forall i a, t_secrets s !! i = Some a -> exists k, t_keys s !! sc_Key a = Some k /\
    (sc_Revoked a = None -> sc_Expires a = k_Expires k /\ k_State k <> KRevoked) }.

(** The secrets of one key after a statement on its unrevoked ones. *)
Lemma update_secrets_Ok id f s u s' :
  update_secrets id f s = Ok (u, s') ->
  exists m, s' = set_secrets m s /\
    forall sel sc', m !! sel = Some sc' <-> exists sc, t_secrets s !! sel = Some sc /\ sc' = if unrevoked id sc then f sc else sc.
Proof.
  unfold update_secrets, update_rows. intros ->%modify_Ok. eexists. split; [done|]. intros sel sc'.
  rewrite map_lookup_imap. destruct (t_secrets s !! sel) as [sc|]; cbn; naive_solver.
Qed.

Lemma unrevoked_true id sc : unrevoked id sc = true <-> sc_Key sc = id /\ sc_Revoked sc = None.
Proof. unfold unrevoked. rewrite andb_true_iff, String.eqb_eq, negb_true_iff. destruct (sc_Revoked sc); cbn; intuition congruence. Qed.

Lemma update_tx_Ok e owner id rev i expires s u s' :
  update_tx e owner id rev i expires s = Ok (u, s') ->
  exists k m au, t_keys s !! id = Some k /\ k_Owner k = owner /\ k_State k <> KRevoked /\ require_allowed owner i s = Ok (tt, s) /\
    s' = set_audit au (set_secrets m (set_keys (<[id := edit_key i expires (now e 0) k]> (t_keys s)) s)) /\
    forall sel sc', m !! sel = Some sc' <-> exists sc, t_secrets s !! sel = Some sc /\ sc' = if unrevoked id sc then with_expiry expires sc else sc.
Proof.
  intros H. unfold update_tx, audit_key in H.
  apply tx_bind_Ok in H as ([] & s1 & Hr & H). pose proof Hr as Hr'. apply require_allowed_Ok in Hr' as [-> _].
  apply tx_bind_Ok in H as (n & s1 & Hu & H). apply tx_bind_Ok in H as (? & s2 & Hn & H). apply require_Ok in Hn as [Hn ->].
  apply update_row_Ok in Hu as [(k & Hk & Hc & _ & ->)|(-> & _ & _)]; [|done].
  unfold editable in Hc. rewrite !andb_true_iff, String.eqb_eq, negb_true_iff, bool_decide_eq_false in Hc. destruct Hc as [[Ho _] Hst].
  apply tx_bind_Ok in H as (? & s1 & Hs & H). apply update_secrets_Ok in Hs as (m & -> & Hm). apply insertAudit_Ok in H as [au ->].
  exists k, m, au. split_and!; done.
Qed.

Lemma revoke_tx_Ok e owner id rev s u s' :
  revoke_tx e owner id rev s = Ok (u, s') ->
  exists k m au, t_keys s !! id = Some k /\
    s' = set_audit au (set_secrets m (set_keys (<[id := revoke_key (now e 0) k]> (t_keys s)) s)) /\
    forall sel sc', m !! sel = Some sc' <-> exists sc, t_secrets s !! sel = Some sc /\ sc' = if unrevoked id sc then with_revoked (now e 0) sc else sc.
Proof.
  intros H. unfold revoke_tx, audit_key in H.
  apply tx_bind_Ok in H as (n & s1 & Hu & H). apply tx_bind_Ok in H as (? & s2 & Hn & H). apply require_Ok in Hn as [Hn ->].
  apply update_row_Ok in Hu as [(k & Hk & Hc & _ & ->)|(-> & _ & _)]; [|done].
  apply tx_bind_Ok in H as (? & s1 & Hs & H). apply update_secrets_Ok in Hs as (m & -> & Hm). apply insertAudit_Ok in H as [au ->].
  exists k, m, au. split_and!; done.
Qed.

Lemma rotate_tx_Ok e owner id rev s u s' tok selector verifier :
  newSecret Verifier (token e 0) (token e 1) = (tok, selector, verifier) -> rotate_tx Verifier e owner id rev s = Ok (u, s') ->
  exists k m au, t_keys s !! id = Some k /\ k_Owner k = owner /\ k_State k = KActive /\ m !! selector = None /\
    s' = set_audit au (set_keys (<[id := touch_key (now e 0) k]> (t_keys s))
           (set_secrets (<[selector := mkSecretRow verifier id (now e 0) (k_Expires k) None]> m) s)) /\
    forall sel sc', m !! sel = Some sc' <-> exists sc, t_secrets s !! sel = Some sc /\ sc' = if unrevoked id sc then with_revoked (now e 0) sc else sc.
Proof.
  intros Hnew H. unfold rotate_tx, insert_secret, audit_key in H. rewrite Hnew in H.
  apply tx_bind_Ok in H as (expires & s1 & Hg & H). apply get_row_Ok in Hg as [Hrot ->].
  unfold rotatable in Hrot. destruct (t_keys s !! id) as [k|] eqn:Hk; cbn in Hrot; [|done].
  destruct ((k_Owner k =s owner) && _ && _) eqn:Hc; [|done]. injection Hrot as <-.
  rewrite !andb_true_iff, String.eqb_eq, bool_decide_eq_true in Hc. destruct Hc as [[Ho _] Hst].
  apply tx_bind_Ok in H as (? & s1 & Hg & H). apply require_Ok in Hg as [_ ->].
  apply tx_bind_Ok in H as (? & s1 & Hs & H). apply update_secrets_Ok in Hs as (m & -> & Hm).
  apply tx_bind_Ok in H as (? & s1 & Hi & H). apply insert_row_Ok in Hi as [Hi ->].
  apply tx_bind_Ok in H as (? & s1 & Hu & H). apply update_row_always with (v := k) in Hu; [|done]. subst s1. apply insertAudit_Ok in H as [au ->].
  exists k, m, au. split_and!; done.
Qed.

Lemma secrets_ok_create s id k sel sc :
  secrets_ok s -> t_keys s !! id = None -> t_secrets s !! sel = None -> sc_Key sc = id -> sc_Expires sc = k_Expires k -> k_State k <> KRevoked ->
  secrets_ok (set_secrets (<[sel := sc]> (t_secrets s)) (set_keys (<[id := k]> (t_keys s)) s)).
Proof.
  intros [H1 H2] Hk Hs Hid Hx Hst.
  assert (forall j a, t_secrets s !! j = Some a -> sc_Key a <> id) as Hfresh.
  { intros j a Ha E. destruct (H2 j a Ha) as (k0 & Hk0 & _). rewrite E in Hk0. congruence. }
  split; cbn.
  - intros i j a b Ha Hb Hra Hrb E. destruct (decide (sel = i)) as [<-|Hi], (decide (sel = j)) as [<-|Hj]; [done|..].
    + rewrite lookup_insert_eq in Ha. rewrite lookup_insert_ne in Hb by done. injection Ha as <-. exfalso. apply (Hfresh j b Hb). congruence.
    + rewrite lookup_insert_ne in Ha by done. rewrite lookup_insert_eq in Hb. injection Hb as <-. exfalso. apply (Hfresh i a Ha). congruence.
    + rewrite lookup_insert_ne in Ha, Hb by done. by eapply H1.
  - intros i a Ha. destruct (decide (sel = i)) as [<-|Hi].
    + rewrite lookup_insert_eq in Ha. injection Ha as <-. exists k. rewrite Hid, lookup_insert_eq. done.
    + rewrite lookup_insert_ne in Ha by done. rewrite lookup_insert_ne by (intros E; by apply (Hfresh i a Ha)). by apply (H2 i).
Qed.

(** A change of one key and of its unrevoked secrets that keeps them apart. *)
Lemma secrets_ok_change s id k k' (f : SecretRow -> SecretRow) m :
  secrets_ok s -> t_keys s !! id = Some k ->
  (forall sel sc', m !! sel = Some sc' <-> exists sc, t_secrets s !! sel = Some sc /\ sc' = if unrevoked id sc then f sc else sc) ->
  (forall sc, sc_Key (f sc) = sc_Key sc) ->
  (forall sc, sc_Revoked (f sc) = None -> sc_Expires (f sc) = k_Expires k' /\ k_State k' <> KRevoked) ->
  secrets_ok (set_secrets m (set_keys (<[id := k']> (t_keys s)) s)).
Proof.
  intros [H1 H2] Hk Hm Hkey Hf.
  assert (forall i a, m !! i = Some a -> exists a0, t_secrets s !! i = Some a0 /\ sc_Key a = sc_Key a0 /\
    (sc_Revoked a = None -> sc_Revoked a0 = None /\ (sc_Key a = id -> exists b, a = f b))) as Hback.
  { intros i a Ha. apply Hm in Ha as (a0 & Ha0 & ->). exists a0. destruct (unrevoked id a0) eqn:E; split_and!; try done; try apply Hkey.
    - intros _. split; [by apply unrevoked_true in E as [_ ?]|eauto].
    - intros Hr. split; [done|]. intros Hid. by rewrite (proj2 (unrevoked_true id a0) (conj Hid Hr)) in E. }
  split; cbn.
  - intros i j a b Ha Hb Hra Hrb E. destruct (Hback i a Ha) as (a0 & Ha0 & Ea & Hra0), (Hback j b Hb) as (b0 & Hb0 & Eb & Hrb0).
    eapply (H1 i j a0 b0); try done; [by apply Hra0|by apply Hrb0|congruence].
  - intros i a Ha. destruct (Hback i a Ha) as (a0 & Ha0 & Ea & Hr). destruct (decide (id = sc_Key a)) as [E|Hne].
    + exists k'. rewrite <- E, lookup_insert_eq. split; [done|]. intros Hra. destruct (Hr Hra) as [_ Hb]. destruct (Hb (eq_sym E)) as [b ->]. by apply Hf.
    + rewrite lookup_insert_ne by done. destruct (H2 i a0 Ha0) as (k0 & Hk0 & Himp). exists k0. rewrite Ea. split; [done|].
      intros Hra. apply Hm in Ha as (a1 & Ha1 & Eq). rewrite Ha0 in Ha1. injection Ha1 as <-.
      destruct (unrevoked id a0) eqn:E; [|subst; by apply Himp]. apply unrevoked_true in E as [E _]. congruence.
Qed.

(** ** Sequences of operations *)

Inductive key_operation :=
| KeyCreate (owner : string) (i : Input)
| KeyUpdate (owner id : string) (revision : Z) (i : Input)
| KeyRevoke (owner id : string) (revision : Z)
| KeyRotate (owner id : string) (revision : Z).

Definition key_perform (e : env) (nanos : Z) (op : key_operation) (s : db) : db :=
  match op with
  | KeyCreate owner i => snd (Create Verifier parse_time e nanos owner i s)
  | KeyUpdate owner id rev i => snd (Update parse_time e nanos owner id rev i s)
  | KeyRevoke owner id rev => snd (Revoke e owner id rev s)
  | KeyRotate owner id rev => snd (Rotate Verifier e owner id rev s)
  end.

(** The calls of a history, oldest first. *)
Definition key_run (calls : list (env * Z * key_operation)) (s : db) : db :=
  fold_left (fun s c => key_perform c.1.1 c.1.2 c.2 s) calls s.

(** Every call either changes nothing or commits one of four transactions. *)
Lemma key_perform_cases e nanos op s (P : db -> Prop) :
  P s ->
  (forall owner i expires u s', create_tx Verifier e owner i expires s = Ok (u, s') -> P s') ->
  (forall owner id rev i expires u s', update_tx e owner id rev i expires s = Ok (u, s') -> P s') ->
  (forall owner id rev u s', revoke_tx e owner id rev s = Ok (u, s') -> P s') ->
  (forall owner id rev u s', rotate_tx Verifier e owner id rev s = Ok (u, s') -> P s') ->
  P (key_perform e nanos op s).
Proof.
  intros H0 Hc Hu Hr Ho. destruct op as [owner i|owner id rev i|owner id rev|owner id rev]; cbn.
  - unfold Create. destruct (validateInput _ _ _) as [[j x]|]; [|done]. destruct (newSecret _ _ _) as [[? ?] ?].
    unfold commit. destruct (create_tx _ _ _ _ _ s) as [[u s']|] eqn:E; [|done]. by eapply Hc.
  - unfold Update. destruct (Get _ _ _); [|done]. destruct (validateInput _ _ _) as [[j x]|]; [|done].
    unfold commit. destruct (update_tx _ _ _ _ _ _ s) as [[u s']|] eqn:E; [|done]. by eapply Hu.
  - unfold Revoke. destruct (Get _ _ _); [|done]. unfold commit. destruct (revoke_tx _ _ _ _ s) as [[u s']|] eqn:E; [|done]. by eapply Hr.
  - unfold Rotate. destruct (Get _ _ _); [|done]. destruct (newSecret _ _ _) as [[? ?] ?].
    unfold commit. destruct (rotate_tx _ _ _ _ _ s) as [[u s']|] eqn:E; [|done]. by eapply Ho.
Qed.

Lemma secrets_ok_audit au s : secrets_ok s -> secrets_ok (set_audit au s).
Proof. intros [H1 H2]. by split. Qed.

Lemma key_perform_secrets e nanos op s : secrets_ok s -> secrets_ok (key_perform e nanos op s).
Proof.
  intros Hok. apply key_perform_cases; [done|..].
  - intros owner i expires u s' H. destruct (newSecret Verifier (token e 1) (token e 2)) as [[tok sel] ver] eqn:Hn.
    apply (create_tx_Ok _ _ _ _ _ _ _ _ _ _ Hn) in H as (Hk & Hs & _ & au & ->).
    apply secrets_ok_audit. by apply secrets_ok_create.
  - intros owner id rev i expires u s' H. apply update_tx_Ok in H as (k & m & au & Hk & _ & _ & _ & -> & Hm).
    apply secrets_ok_audit. eapply secrets_ok_change; [done|done|exact Hm|done|]. intros sc _. split; [done|].
    cbn. unfold key_state_of. by case_match.
  - intros owner id rev u s' H. apply revoke_tx_Ok in H as (k & m & au & Hk & -> & Hm).
    apply secrets_ok_audit. eapply secrets_ok_change; [done|done|exact Hm|done|done].
  - intros owner id rev u s' H. destruct (newSecret Verifier (token e 0) (token e 1)) as [[tok sel] ver] eqn:Hn.
    apply (rotate_tx_Ok _ _ _ _ _ _ _ _ _ _ Hn) in H as (k & m & au & Hk & _ & Hst & Hsel & -> & Hm).
    assert (secrets_ok (set_secrets m (set_keys (<[id := touch_key (now e 0) k]> (t_keys s)) s))) as [H1 H2] by
      (eapply secrets_ok_change; [done|done|exact Hm|done|done]).
    assert (forall j a, m !! j = Some a -> sc_Key a = id -> sc_Revoked a <> None) as Hnone.
    { intros j a Ha Hid Hr. apply Hm in Ha as (a0 & Ha0 & ->). destruct (unrevoked id a0) eqn:E; [done|].
      by rewrite (proj2 (unrevoked_true id a0) (conj Hid Hr)) in E. }
    split; cbn in *.
    + intros i j a b Ha Hb Hra Hrb E. destruct (decide (sel = i)) as [<-|Hi], (decide (sel = j)) as [<-|Hj]; [done|..].
      * rewrite lookup_insert_eq in Ha. rewrite lookup_insert_ne in Hb by done. injection Ha as <-. exfalso. by apply (Hnone j b Hb).
      * rewrite lookup_insert_ne in Ha by done. rewrite lookup_insert_eq in Hb. injection Hb as <-. exfalso. by apply (Hnone i a Ha).
      * rewrite lookup_insert_ne in Ha, Hb by done. by eapply H1.
    + intros i a Ha. destruct (decide (sel = i)) as [<-|Hi].
      * rewrite lookup_insert_eq in Ha. injection Ha as <-. cbn. rewrite lookup_insert_eq. eexists. split; [done|]. cbn. by rewrite Hst.
      * rewrite lookup_insert_ne in Ha by done. by apply (H2 i).
Qed.

Definition revoked (id : string) (s : db) : Prop := exists k, t_keys s !! id = Some k /\ k_State k = KRevoked.

Lemma revoked_insert id j k s : revoked id s -> (j = id -> k_State k = KRevoked) ->
  exists k', <[j := k]> (t_keys s) !! id = Some k' /\ k_State k' = KRevoked.
Proof.
  intros (k0 & Hk0 & Hst) Hj. destruct (decide (j = id)) as [->|Hne]; [rewrite lookup_insert_eq; eauto|].
  rewrite lookup_insert_ne by done. eauto.
Qed.

Lemma key_perform_revoked id e nanos op s : revoked id s -> revoked id (key_perform e nanos op s).
Proof.
  intros Hr. apply key_perform_cases; [done|..].
  - intros owner i expires u s' H. destruct (newSecret Verifier (token e 1) (token e 2)) as [[tok sel] ver] eqn:Hn.
    apply (create_tx_Ok _ _ _ _ _ _ _ _ _ _ Hn) in H as (Hk & _ & _ & au & ->). apply revoked_insert; [done|].
    intros E. destruct Hr as (k0 & Hk0 & _). congruence.
  - intros owner j rev i expires u s' H. apply update_tx_Ok in H as (k & m & au & Hk & _ & Hst & _ & -> & _).
    apply revoked_insert; [done|]. intros ->. destruct Hr as (k0 & Hk0 & ?). congruence.
  - intros owner j rev u s' H. apply revoke_tx_Ok in H as (k & m & au & Hk & -> & _). by apply revoked_insert.
  - intros owner j rev u s' H. destruct (newSecret Verifier (token e 0) (token e 1)) as [[tok sel] ver] eqn:Hn.
    apply (rotate_tx_Ok _ _ _ _ _ _ _ _ _ _ Hn) in H as (k & m & au & Hk & _ & Hst & _ & -> & _).
    apply revoked_insert; [done|]. intros ->. destruct Hr as (k0 & Hk0 & ?). congruence.
Qed.

(** Every key operation keeps the secrets in order: at most one unrevoked
    secret per key, on a key that exists, is not revoked and has the same
    expiry. *)
Theorem key_operations_keep_secrets (calls : list (env * Z * key_operation)) (s : db) :
  secrets_ok s -> secrets_ok (key_run calls s).
Proof.
  unfold key_run. revert s. induction calls as [|[[e nanos] op] calls IH]; intros s Hs; [done|]. cbn. by apply IH, key_perform_secrets.
Qed.

(** C39: Revocation is final: after a successful [Revoke], and whatever key
    operations follow, no token authenticates as that key. *)
Theorem Revoke_is_final (e : env) (owner id : string) (revision : Z) (s s' : db) (calls : list (env * Z * key_operation)) :
  Revoke e owner id revision s = (Ok tt, s') ->
  forall e2 tok p, Authenticate Verifier e2 tok (key_run calls s') = Ok p -> pl_KeyID p <> id.
Proof.
  intros H. assert (revoked id s') as Hr.
  { unfold Revoke in H. destruct (Get _ _ _); [|done]. unfold commit in H.
    destruct (revoke_tx _ _ _ _ s) as [[u s0]|] eqn:E; [|done]. injection H as _ <-.
    apply revoke_tx_Ok in E as (k & m & au & Hk & -> & _).
    exists (revoke_key (now e 0) k). split; [apply lookup_insert_eq|done]. }
  assert (revoked id (key_run calls s')) as (k & Hk & Hst).
  { clear H. unfold key_run. revert s' Hr. induction calls as [|[[e0 nanos] op] calls IH]; intros s' Hr; [done|]. cbn.
    by apply IH, key_perform_revoked. }
  intros e2 tok p Ha E. apply Authenticate_Ok in Ha as (sel & rest & sc & k' & u & _ & _ & _ & _ & Hk' & _ & Hst' & _ & _ & _ & ->).
  destruct (decodePrincipal_ids (sc_Key sc) k' (u_Grants u)) as [Eid _]. rewrite Eid in E. subst id. congruence.
Qed.

(** Rotation replaces the secret: after a successful [Rotate] every token
    that authenticates as the key has the hash of the token it returned, and
    that token does authenticate while the key is unexpired and its owner
    active. *)
Theorem Rotate_replaces (e e2 : env) (owner id : string) (revision : Z) (s s' : db) (key : APIKey) (tok : string) :
  Rotate Verifier e owner id revision s = (Ok (key, tok), s') ->
  (forall tok2 p, Authenticate Verifier e2 tok2 s' = Ok p -> pl_KeyID p = id -> Verifier tok2 = Verifier tok) /\
  ((exists u, t_users s' !! owner = Some u /\ u_Status u = UActive) ->
   before_expiry (now e2 0) (k_Expires (ak_Row key)) = true -> before_expiry (now e2 1) (k_Expires (ak_Row key)) = true ->
   exists p, Authenticate Verifier e2 tok s' = Ok p /\ pl_KeyID p = id).
Proof.
  intros H. unfold Rotate in H. destruct (Get owner id s) as [k0|]; [|done].
  destruct (newSecret Verifier (token e 0) (token e 1)) as [[tok' sel] ver] eqn:Hn.
  unfold commit in H. destruct (rotate_tx _ _ _ _ _ s) as [[[] s0]|] eqn:Ht; [|done].
  destruct (Get owner id s0) as [k1|] eqn:Hg; [|done]. injection H as <- <- <-.
  destruct (newSecret_parts _ _ _ _ _ Hn) as [Hparts ->].
  apply (rotate_tx_Ok _ _ _ _ _ _ _ _ _ _ Hn) in Ht as (k & m & au & Hk & Ho & Hst & Hsel & -> & Hm).
  apply Get_Ok in Hg as (k2 & Hk2 & _ & ->). cbn in Hk2. rewrite lookup_insert_eq in Hk2. injection Hk2 as <-. split.
  - intros tok2 p Ha E. apply Authenticate_Ok in Ha as (sel2 & rest & sc & k' & u & _ & Hs & Hr & _ & _ & _ & _ & _ & _ & -> & ->).
    destruct (decodePrincipal_ids (sc_Key sc) k' (u_Grants u)) as [Eid _]. rewrite Eid in E. cbn in Hs.
    destruct (decide (sel = sel2)) as [<-|Hne]; [rewrite lookup_insert_eq in Hs; by injection Hs as <-|].
    rewrite lookup_insert_ne in Hs by done. apply Hm in Hs as (sc0 & _ & ->). destruct (unrevoked id sc0) eqn:Eu; [done|].
    by rewrite (proj2 (unrevoked_true id sc0) (conj E Hr)) in Eu.
  - intros (u & Hu & Hact) Hx1 Hx2. cbn [ak_Row k_Expires touch_key] in *.
    exists (decodePrincipal id (touch_key (now e 0) k) (u_Grants u)). split; [|apply decodePrincipal_ids]. apply Authenticate_Ok.
    exists sel, (token e 1), (mkSecretRow (Verifier tok') id (now e 0) (k_Expires k) None), (touch_key (now e 0) k), u. cbn in *.
    rewrite !lookup_insert_eq, Ho. by split_and!.
Qed.
End KeyFacts.
