(* ===== verification/Users.v ===== *)
(** Users ([internal/features/users/service.go] and [ValidateIdentity] of
    [internal/features/auth/service.go]): who may create, change and restrict
    whom, how a user's keys are clamped to new grants, activation and recovery
    codes, and the transfer of ownership. *)
From S2P Require Import Prelude GoStd Json Policy PathMatch Grants Store Pricing Admission Settlement Reservations Lifecycle Keys.

(** * Values *)

Definition codeLifetime : Z := 24 * 60 * 60 * 1000.

Record CreateInput := mkCreateInput { cr_Email : string; cr_DisplayName : string; cr_Role : string; cr_Grants : Grants }.
Record UpdateInput := mkUpdateInput { up_DisplayName : option string; up_Email : option string; up_Status : option string }.

(** What the API shows of a user; instants stay in milliseconds. *)
Record UserView := mkUserView { uv_ID : string; uv_Row : UserRow; uv_Status : string }.

Definition role_of (s : string) : option Role :=
  if s =s "owner" then Some Owner else if s =s "admin" then Some Admin else if s =s "member" then Some Member else None.

Definition status_text (st : UserStatus) : string :=
  match st with UActive => "active" | USuspended => "suspended" | UArchived => "archived" end.

(** [users.validateGrants]: the scopes first, then every group. *)
Definition validate_group (values : list string) : result unit :=
  _ ← ensure (Nat.leb (length values) 100) (Msg "No more than 100 grants are allowed per group");
  ensure (forallb valid_grant values) (Msg "Grants must be between 1 and 200 characters").

Definition validateUserGrants (g : Grants) : result unit :=
  _ ← match find (fun scope => negb (ValidInferenceScope scope)) (g_Scopes g) with
      | Some scope => Err (Msg ("Unsupported inference scope: " +:+ scope))
      | None => Ok tt
      end;
  _ ← validate_group (g_Scopes g);
  _ ← validate_group (g_Models g);
  validate_group (g_Connections g).

(** [encode] removes duplicates. *)
Definition encoded (unrestricted : bool) (g : Grants) : Grants :=
  mkGrants unrestricted (unique (g_Scopes g)) (unique (g_Models g)) (unique (g_Connections g)).

(** * Constraints of the users table *)

(** [COLLATE NOCASE]: ASCII letters compare without case. *)
Definition fold_byte (c : ascii) : ascii :=
  let b := byte_of c in if (65 <=? b) && (b <=? 90) then ascii_of_nat (Z.to_nat (b + 32)) else c.
Fixpoint fold_case (s : string) : string := match s with EmptyString => "" | String c s => String (fold_byte c) (fold_case s) end.
Definition same_email (a b : string) : bool := fold_case a =s fold_case b.

Definition active_owner (u : UserRow) : bool := bool_decide (u_Role u = Owner) && bool_decide (u_Status u = UActive).

(** Another row with the same email, or a second active owner
    ([one_active_owner]). *)
Definition user_conflict (s : db) (id : string) (u : UserRow) : bool :=
  existsb (fun kv => negb (fst kv =s id) && (same_email (u_Email (snd kv)) (u_Email u) || active_owner (snd kv) && active_owner u))
    (map_to_list (t_users s)).

(** INSERT and UPDATE of one user under those constraints; [err] is what the
    caller makes of a violation. *)
Definition insert_user (id : string) (u : UserRow) (err : error) : tx db unit :=
  s ← reads (fun s => s);
  _ ← require (negb (user_conflict s id u) && bool_decide (t_users s !! id = None)) err;
  insert_row t_users set_users id u.

Definition update_user (id : string) (cond : UserRow -> bool) (f : UserRow -> UserRow) (err : error) : tx db Z :=
  s ← reads (fun s => s);
  _ ← require (match t_users s !! id with Some u => negb (cond u && user_conflict s id (f u)) | None => true end) err;
  update_row t_users set_users id cond f.

(** * Reading users *)

Definition refreshActor (s : db) (id : string) : result User :=
  match t_users s !! id with
  | Some u => if decide (u_Status u = UActive) then Ok (mkUser id (u_Email u) (u_Name u) (u_Role u) (u_Status u)) else Err ErrDenied
  | None => Err ErrDenied
  end.

(** [pending_activation] is a suspended user with an activation code. *)
Definition pending_activation (s : db) (id : string) (u : UserRow) : bool :=
  bool_decide (u_Status u = USuspended)
  && existsb (fun kv => (cd_User (snd kv) =s id) && (cd_Purpose (snd kv) =s "activation")) (map_to_list (t_codes s)).

Definition readUser (s : db) (id : string) : result UserView :=
  match t_users s !! id with
  | Some u => Ok (mkUserView id u (if pending_activation s id u then "pending_activation" else status_text (u_Status u)))
  | None => Err ErrNotFound
  end.

Definition canManage (actor : User) (target : UserView) : bool :=
  bool_decide (us_Role actor = Owner) || bool_decide (us_Role actor = Admin) && bool_decide (u_Role (uv_Row target) = Member).

(** [users.modelSubset] is [modelSubset]; [users.subset] keeps duplicates. *)
Definition canGrant (s : db) (actorID : string) (g : Grants) : result bool :=
  match t_users s !! actorID with
  | Some u =>
    if decide (u_Status u = UActive) then
      let ceiling := u_Grants u in
      Ok (g_Unrestricted ceiling || users_subset (g_Scopes g) (g_Scopes ceiling) && modelSubset (g_Models g) (g_Models ceiling)
                                     && users_subset (g_Connections g) (g_Connections ceiling))
    else Err ErrNoRows
  | None => Err ErrNoRows
  end.

Definition Get (actor : User) (targetID : string) (s : db) : result UserView :=
  actor ← refreshActor s (us_ID actor);
  target ← readUser s targetID;
  _ ← ensure (canManage actor target) ErrNotFound;
  Ok target.

(** * Clamping keys *)

Definition clamp (ceiling : Grants) (at_ : Z) (k : KeyRow) : KeyRow :=
  let scopes := unique (users_intersection (k_Scopes k) (g_Scopes ceiling)) in
  let models := unique (modelIntersection (k_Models k) (g_Models ceiling)) in
  let connections := unique (users_intersection (k_Connections k) (g_Connections ceiling)) in
  if bool_decide (scopes = k_Scopes k) && bool_decide (models = k_Models k) && bool_decide (connections = k_Connections k) then k
  else mkKeyRow (k_Owner k) (k_Label k) (k_State k) scopes models connections (k_Expires k) (k_Revision k + 1) (k_Created k) at_.

Definition clampKeys (userID : string) (ceiling : Grants) (at_ : Z) : tx db unit :=
  update_rows t_keys set_keys (fun _ k => k_Owner k =s userID) (clamp ceiling at_).

Definition delete_sessions (userID : string) : tx db unit := delete_rows t_sessions set_sessions (fun _ x => ss_User x =s userID).
Definition delete_codes (userID : string) : tx db unit := delete_rows t_codes set_codes (fun _ x => cd_User x =s userID).

Section Users.
(** [sha256.Sum256] as a byte string, [strings.ToLower], and the address of
    [net/mail.ParseAddress]. *)
Variables (Verifier : string -> string) (ToLower : string -> string) (ParseAddress : string -> option string).

Definition ValidateIdentity (rawEmail rawDisplayName : string) : result (string * string) :=
  let email := ToLower (TrimSpace rawEmail) in
  _ ← ensure (match ParseAddress email with Some address => address =s email | None => false end && (str_len email <=? 254))
        (Msg "Enter a valid email address");
  let displayName := TrimSpace rawDisplayName in
  _ ← ensure (negb ((displayName =s "") || (100 <? rune_count displayName))) (Msg "Display name must be between 1 and 100 characters");
  Ok (email, displayName).

Definition insertCode (userID purpose code : string) (at_ : Z) : tx db unit :=
  insert_row t_codes set_codes (Verifier code) (mkCodeRow userID purpose (at_ + codeLifetime) at_).

Definition email_taken : error := Msg "A user with this email already exists".

(** * [Create] *)

Definition may_create (actor : User) (role : string) : bool :=
  negb (bool_decide (us_Role actor = Owner) && negb (role =s "admin") && negb (role =s "member")
        || bool_decide (us_Role actor = Admin) && negb (role =s "member")
        || negb (bool_decide (us_Role actor = Owner)) && negb (bool_decide (us_Role actor = Admin))).

Definition create_user_tx (e : env) (actor : User) (email displayName role : string) (g : Grants) : tx db UserView :=
  let id := "usr_" +:+ token e 0 in
  s ← reads (fun s => s);
  actor ← lift (refreshActor s (us_ID actor));
  _ ← require (may_create actor role) ErrDenied;
  allowed ← lift (canGrant s (us_ID actor) g);
  _ ← require allowed ErrDenied;
  match role_of role with
  | None => fail constraint_failed
  | Some r =>
    _ ← insert_user id (mkUserRow email displayName "!" r USuspended (now e 0) (now e 0) 1 1 (encoded false g)) email_taken;
    _ ← insertCode id "activation" (token e 1) (now e 0);
    _ ← insertAudit (token e 2) (us_ID actor) "user.create" "user" id [("role", JString role)]%string (now e 1);
    mret (mkUserView id (mkUserRow email displayName "!" r USuspended (now e 0) (now e 0) 1 1 g) "pending_activation")
  end.

Definition CreateUser (e : env) (actor : User) (input : CreateInput) (s : db) : result (UserView * string) * db :=
  let g := mkGrants false (g_Scopes (cr_Grants input)) (g_Models (cr_Grants input)) (g_Connections (cr_Grants input)) in
  match (identity ← ValidateIdentity (cr_Email input) (cr_DisplayName input); _ ← validateUserGrants g; Ok identity) with
  | Err err => (Err err, s)
  | Ok (email, displayName) =>
    match commit (create_user_tx e actor email displayName (cr_Role input) g) s with
    | (Ok user, s') => (Ok (user, token e 1), s')
    | (Err err, s') => (Err err, s')
    end
  end.

(** * [UpdateGrants] *)

Definition with_grants (g : Grants) (at_ : Z) (u : UserRow) : UserRow :=
  mkUserRow (u_Email u) (u_Name u) (u_Password u) (u_Role u) (u_Status u) (u_Created u) at_ (u_AuthRevision u + 1)
    (u_Revision u + 1) (encoded (g_Unrestricted (u_Grants u)) g).

Definition update_grants_tx (e : env) (actor : User) (targetID : string) (revision : Z) (g : Grants) : tx db User :=
  s ← reads (fun s => s);
  actor ← lift (refreshActor s (us_ID actor));
  target ← lift (readUser s targetID);
  _ ← require (u_Revision (uv_Row target) =? revision) ErrConflict;
  _ ← require (canManage actor target) ErrDenied;
  allowed ← lift (canGrant s (us_ID actor) g);
  _ ← require allowed ErrDenied;
  changed ← update_user targetID (fun u => u_Revision u =? revision) (with_grants g (now e 0)) constraint_failed;
  _ ← require (changed =? 1) ErrConflict;
  _ ← clampKeys targetID g (now e 0);
  _ ← delete_sessions targetID;
  _ ← insertAudit (token e 0) (us_ID actor) "user.grants_update" "user" targetID
        [("connection_ids", JList (g_Connections g)); ("model_patterns", JList (g_Models g)); ("scopes", JList (g_Scopes g))]%string
        (now e 1);
  mret actor.

Definition UpdateGrants (e : env) (actor : User) (targetID : string) (revision : Z) (grants : Grants) (s : db) : result UserView * db :=
  let g := mkGrants false (g_Scopes grants) (g_Models grants) (g_Connections grants) in
  match validateUserGrants g with
  | Err err => (Err err, s)
  | Ok _ =>
    match commit (update_grants_tx e actor targetID revision g) s with
    | (Ok actor, s') => (Get actor targetID s', s')
    | (Err err, s') => (Err err, s')
    end
  end.

(** * [Update] *)

Definition status_of (s : string) : option UserStatus :=
  if s =s "active" then Some UActive else if s =s "suspended" then Some USuspended else None.

(** The status an update writes. *)
Definition next_status (target : UserView) (input : option string) : result UserStatus :=
  match input with
  | None => Ok (u_Status (uv_Row target))
  | Some text =>
    match status_of text with
    | None => Err (Msg "Status must be active or suspended")
    | Some st => _ ← ensure (negb ((uv_Status target =s "pending_activation") && bool_decide (st = UActive)))
                       (Msg "Pending users must activate with their code"); Ok st
    end
  end.

Definition next_identity (target : UserView) (input : UpdateInput) : result (string * string) :=
  let u := uv_Row target in
  email ← match up_Email input with
          | Some raw => p ← ValidateIdentity raw (u_Name u); Ok (fst p)
          | None => Ok (u_Email u)
          end;
  name ← match up_DisplayName input with
         | Some raw => p ← ValidateIdentity email raw; Ok (snd p)
         | None => Ok (u_Name u)
         end;
  Ok (email, name).

Definition with_identity (email name : string) (st : UserStatus) (at_ : Z) (u : UserRow) : UserRow :=
  mkUserRow email name (u_Password u) (u_Role u) st (u_Created u) at_
    (u_AuthRevision u + (if negb (bool_decide (u_Status u = st)) || negb (same_email (u_Email u) email) then 1 else 0))
    (u_Revision u + 1) (u_Grants u).

Definition update_user_tx (e : env) (actor : User) (targetID : string) (revision : Z) (input : UpdateInput) : tx db User :=
  s ← reads (fun s => s);
  actor ← lift (refreshActor s (us_ID actor));
  target ← lift (readUser s targetID);
  _ ← require (canManage actor target) ErrDenied;
  _ ← require (u_Revision (uv_Row target) =? revision) ErrConflict;
  identity ← lift (next_identity target input);
  let (email, name) := (identity : string * string) in
  st ← lift (next_status target (up_Status input));
  changed ← update_user targetID (fun u => u_Revision u =? revision) (with_identity email name st (now e 0)) email_taken;
  _ ← require (changed =? 1) ErrConflict;
  _ ← (if negb (bool_decide (st = u_Status (uv_Row target))) || negb (email =s u_Email (uv_Row target))
       then delete_sessions targetID else mret tt);
  _ ← (if match up_Status input with Some text => text =s "suspended" | None => false end then delete_codes targetID else mret tt);
  _ ← insertAudit (token e 0) (us_ID actor) "user.update" "user" targetID [("status", JString (status_text st))]%string (now e 1);
  mret actor.

Definition UpdateUser (e : env) (actor : User) (targetID : string) (revision : Z) (input : UpdateInput) (s : db) : result UserView * db :=
  if targetID =s us_ID actor then (Err ErrDenied, s)
  else match commit (update_user_tx e actor targetID revision input) s with
       | (Ok actor, s') => (Get actor targetID s', s')
       | (Err err, s') => (Err err, s')
       end.

(** * [IssueCode] *)

Definition bump_revisions (at_ : Z) (u : UserRow) : UserRow :=
  mkUserRow (u_Email u) (u_Name u) (u_Password u) (u_Role u) (u_Status u) (u_Created u) at_ (u_AuthRevision u + 1)
    (u_Revision u + 1) (u_Grants u).

Definition issue_code_tx (e : env) (actor : User) (targetID purpose : string) : tx db unit :=
  s ← reads (fun s => s);
  actor ← lift (refreshActor s (us_ID actor));
  target ← lift (readUser s targetID);
  _ ← require (canManage actor target) ErrDenied;
  _ ← require (negb ((purpose =s "activation") && negb (uv_Status target =s "pending_activation"))) (Msg "User is already activated");
  _ ← require (negb ((purpose =s "recovery") && negb (bool_decide (u_Status (uv_Row target) = UActive))))
        (Msg "Reactivate the user before issuing a recovery code");
  _ ← delete_codes targetID;
  _ ← insertCode targetID purpose (token e 0) (now e 0);
  _ ← (if purpose =s "recovery" then
         _ ← update_user targetID (fun _ => true) (bump_revisions (now e 0)) constraint_failed;
         delete_sessions targetID
       else mret tt);
  insertAudit (token e 1) (us_ID actor) ("user." +:+ purpose +:+ "_code") "user" targetID [] (now e 1).

Definition IssueCode (e : env) (actor : User) (targetID purpose : string) (s : db) : result string * db :=
  if negb (purpose =s "activation") && negb (purpose =s "recovery") then (Err ErrNotFound, s)
  else match commit (issue_code_tx e actor targetID purpose) s with
       | (Ok _, s') => (Ok (token e 0), s')
       | (Err err, s') => (Err err, s')
       end.

(** * [TransferOwner] *)

Definition demote (at_ : Z) (u : UserRow) : UserRow :=
  mkUserRow (u_Email u) (u_Name u) (u_Password u) Admin (u_Status u) (u_Created u) at_ (u_AuthRevision u + 1)
    (u_Revision u + 1) (mkGrants false [] [] []).

Definition promote (at_ : Z) (u : UserRow) : UserRow :=
  mkUserRow (u_Email u) (u_Name u) (u_Password u) Owner (u_Status u) (u_Created u) at_ (u_AuthRevision u + 1)
    (u_Revision u + 1) (mkGrants true (g_Scopes (u_Grants u)) (g_Models (u_Grants u)) (g_Connections (u_Grants u))).

Definition promotable (revision : Z) (u : UserRow) : bool :=
  bool_decide (u_Role u = Admin) && bool_decide (u_Status u = UActive) && (u_Revision u =? revision).

Definition transfer_tx (e : env) (actor : User) (targetID : string) (revision : Z) : tx db unit :=
  s ← reads (fun s => s);
  actor ← lift (match refreshActor s (us_ID actor) with Ok a => Ok a | Err _ => Err ErrDenied end);
  _ ← require (bool_decide (us_Role actor = Owner)) ErrDenied;
  target ← lift (readUser s targetID);
  _ ← require (promotable revision (uv_Row target)) ErrConflict;
  changed ← update_user (us_ID actor) (fun u => bool_decide (u_Role u = Owner)) (demote (now e 0)) constraint_failed;
  _ ← require (changed =? 1) ErrDenied;
  changed ← update_user targetID (promotable revision) (promote (now e 0)) constraint_failed;
  _ ← require (changed =? 1) ErrConflict;
  _ ← delete_sessions (us_ID actor);
  _ ← delete_sessions targetID;
  _ ← delete_codes (us_ID actor);
  _ ← delete_codes targetID;
  _ ← clampKeys (us_ID actor) (mkGrants false [] [] []) (now e 0);
  insertAudit (token e 0) (us_ID actor) "owner.transfer" "user" targetID [] (now e 1).

Definition TransferOwner (e : env) (actor : User) (targetID : string) (revision : Z) (s : db) : result unit * db :=
  if us_ID actor =s targetID then (Err ErrDenied, s) else commit (transfer_tx e actor targetID revision) s.
End Users.

(** * What the transactions write *)

Lemma refreshActor_Ok s id a : refreshActor s id = Ok a ->
  us_ID a = id /\ exists u, t_users s !! id = Some u /\ u_Status u = UActive /\ us_Role a = u_Role u.
Proof.
  unfold refreshActor. destruct (t_users s !! id) as [u|]; [|done]. destruct (decide _); [|done]. intros [= <-]. cbn. eauto.
Qed.

Lemma readUser_Ok s id v : readUser s id = Ok v -> uv_ID v = id /\ t_users s !! id = Some (uv_Row v).
Proof. unfold readUser. destruct (t_users s !! id) as [u|]; [|done]. by intros [= <-]. Qed.

Lemma insert_user_Ok id u err s w s' :
  insert_user id u err s = Ok (w, s') -> t_users s !! id = None /\ user_conflict s id u = false /\ s' = set_users (<[id := u]> (t_users s)) s.
Proof.
  unfold insert_user. intros H. apply tx_bind_Ok in H as (s0 & s1 & Hg & H). apply reads_Ok in Hg as [-> ->].
  apply tx_bind_Ok in H as (? & s1 & Hg & H). apply require_Ok in Hg as [Hc ->]. apply andb_true_iff in Hc as [Hc _]. apply negb_true_iff in Hc.
  apply insert_row_Ok in H as [Hn ->]. done.
Qed.

Lemma update_user_Ok id cond f err s n s' :
  update_user id cond f err s = Ok (n, s') -> n = 1 ->
  exists u, t_users s !! id = Some u /\ cond u = true /\ s' = set_users (<[id := f u]> (t_users s)) s.
Proof.
  unfold update_user. intros H Hn. apply tx_bind_Ok in H as (s0 & s1 & Hg & H). apply reads_Ok in Hg as [-> ->].
  apply tx_bind_Ok in H as (? & s1 & Hg & H). apply require_Ok in Hg as [Hc ->].
  apply update_row_Ok in H as [(u & Hu & Hcu & _ & ->)|(-> & _ & _)]; [eauto|done].
Qed.

(** The keys of one user clamped. *)
Lemma clampKeys_Ok userID g t s w s' :
  clampKeys userID g t s = Ok (w, s') ->
  exists m, s' = set_keys m s /\ forall id k', m !! id = Some k' <->
    exists k, t_keys s !! id = Some k /\ k' = if k_Owner k =s userID then clamp g t k else k.
Proof.
  unfold clampKeys, update_rows. intros ->%modify_Ok. eexists. split; [done|]. intros id k'.
  rewrite map_lookup_imap. destruct (t_keys s !! id) as [k|]; cbn; naive_solver.
Qed.

(** An actor entitled to change a user: an active owner, or an active admin
    for a member. *)
Definition entitled (s : db) (actorID : string) (target : UserRow) : Prop :=
  exists a, t_users s !! actorID = Some a /\ u_Status a = UActive /\
    (u_Role a = Owner \/ u_Role a = Admin /\ u_Role target = Member).

Lemma canManage_entitled s id a target :
  refreshActor s id = Ok a -> canManage a target = true -> entitled s id (uv_Row target).
Proof.
  intros H Hc. apply refreshActor_Ok in H as (_ & u & Hu & Hst & Hr). exists u. split_and!; [done..|].
  unfold canManage in Hc. rewrite Hr, orb_true_iff, andb_true_iff, !bool_decide_eq_true in Hc. tauto.
Qed.

(** The identity tables the properties below speak of. *)
Definition identity (s : db) := (t_users s, t_keys s).

Section UserFacts.
Context (Verifier : string -> string) (ToLower : string -> string) (ParseAddress : string -> option string).

Lemma create_user_tx_Ok e actor email name role g s v s' :
  create_user_tx Verifier e actor email name role g s = Ok (v, s') ->
  let id := ("usr_" +:+ token e 0)%string in
  exists r a, role_of role = Some r /\ t_users s !! us_ID actor = Some a /\ u_Status a = UActive /\
    (u_Role a = Owner /\ r <> Owner \/ u_Role a = Admin /\ r = Member) /\
    canGrant s (us_ID actor) g = Ok true /\ t_users s !! id = None /\
    identity s' = (<[id := mkUserRow email name "!" r USuspended (now e 0) (now e 0) 1 1 (encoded false g)]> (t_users s), t_keys s).
Proof.
  intros H id. unfold create_user_tx in H.
  apply tx_bind_Ok in H as (s0 & s1 & Hg & H). apply reads_Ok in Hg as [-> ->].
  apply tx_bind_Ok in H as (a & s1 & Hg & H). apply lift_Ok in Hg as [Ha ->]. apply refreshActor_Ok in Ha as (Eid & au & Hau & Hst & Hrole).
  apply tx_bind_Ok in H as (? & s1 & Hg & H). apply require_Ok in Hg as [Hmay ->].
  apply tx_bind_Ok in H as (allowed & s1 & Hg & H). apply lift_Ok in Hg as [Hgrant ->].
  apply tx_bind_Ok in H as (? & s1 & Hg & H). apply require_Ok in Hg as [-> ->].
  destruct (role_of role) as [r|] eqn:Er; [|by apply fail_Ok in H].
  apply tx_bind_Ok in H as (? & s1 & Hi & H). apply insert_user_Ok in Hi as (Hn & _ & ->).
  apply tx_bind_Ok in H as (? & s1 & Hc & H). unfold insertCode in Hc. apply insert_row_Ok in Hc as [_ ->].
  apply tx_bind_Ok in H as (? & s1 & Hx & H). apply insertAudit_Ok in Hx as [aud ->]. apply tx_ret_Ok in H as [_ <-].
  exists r, au. rewrite Eid in Hgrant. split_and!; try done.
  unfold may_create in Hmay. rewrite Hrole in Hmay. unfold role_of in Er.
  destruct (role =s "owner") eqn:E1, (role =s "admin") eqn:E2, (role =s "member") eqn:E3;
    repeat match goal with H : (_ =s _) = true |- _ => apply String.eqb_eq in H end; simplify_eq; destruct (u_Role au); cbn in Hmay; auto; try done; by (left + right).
Qed.

Lemma update_grants_tx_Ok e actor id rev g s a s' :
  update_grants_tx e actor id rev g s = Ok (a, s') ->
  exists u m, t_users s !! id = Some u /\ entitled s (us_ID actor) u /\ canGrant s (us_ID actor) g = Ok true /\
    identity s' = (<[id := with_grants g (now e 0) u]> (t_users s), m) /\
    (forall sid x, t_sessions s' !! sid = Some x -> ss_User x <> id) /\
    forall kid k', m !! kid = Some k' <-> exists k, t_keys s !! kid = Some k /\ k' = if k_Owner k =s id then clamp g (now e 0) k else k.
Proof.
  intros H. unfold update_grants_tx in H.
  apply tx_bind_Ok in H as (s0 & s1 & Hg & H). apply reads_Ok in Hg as [-> ->].
  apply tx_bind_Ok in H as (act & s1 & Hg & H). apply lift_Ok in Hg as [Ha ->].
  apply tx_bind_Ok in H as (target & s1 & Hg & H). apply lift_Ok in Hg as [Ht ->]. apply readUser_Ok in Ht as [_ Ht].
  apply tx_bind_Ok in H as (? & s1 & Hg & H). apply require_Ok in Hg as [_ ->].
  apply tx_bind_Ok in H as (? & s1 & Hg & H). apply require_Ok in Hg as [Hman ->].
  apply tx_bind_Ok in H as (allowed & s1 & Hg & H). apply lift_Ok in Hg as [Hgrant ->].
  apply tx_bind_Ok in H as (? & s1 & Hg & H). apply require_Ok in Hg as [-> ->].
  apply tx_bind_Ok in H as (n & s1 & Hu & H). apply tx_bind_Ok in H as (? & s2 & Hn & H). apply require_Ok in Hn as [Hn ->].
  apply update_user_Ok in Hu as (u & Hu & _ & ->); [|by apply Z.eqb_eq].
  apply tx_bind_Ok in H as (? & s1 & Hc & H). apply clampKeys_Ok in Hc as (m & -> & Hm).
  apply tx_bind_Ok in H as (? & s1 & Hs & H). unfold delete_sessions, delete_rows in Hs. apply modify_Ok in Hs as ->.
  apply tx_bind_Ok in H as (? & s1 & Hx & H). apply insertAudit_Ok in Hx as [aud ->]. apply tx_ret_Ok in H as [_ <-].
  rewrite Ht in Hu. injection Hu as <-. pose proof (canManage_entitled _ _ _ _ Ha Hman) as Hent.
  apply refreshActor_Ok in Ha as (Eid & _). rewrite Eid in Hgrant. exists (uv_Row target), m. split_and!; try done.
  cbn. intros sid y Hy. rewrite map_lookup_filter_Some in Hy. destruct Hy as [_ Hy]. cbn in Hy. by apply String.eqb_neq.
Qed.

Lemma update_user_tx_Ok e actor id rev input s a s' :
  update_user_tx ToLower ParseAddress e actor id rev input s = Ok (a, s') ->
  exists u email name st, t_users s !! id = Some u /\ entitled s (us_ID actor) u /\
    identity s' = (<[id := with_identity email name st (now e 0) u]> (t_users s), t_keys s).
Proof.
  intros H. unfold update_user_tx in H.
  apply tx_bind_Ok in H as (s0 & s1 & Hg & H). apply reads_Ok in Hg as [-> ->].
  apply tx_bind_Ok in H as (act & s1 & Hg & H). apply lift_Ok in Hg as [Ha ->].
  apply tx_bind_Ok in H as (target & s1 & Hg & H). apply lift_Ok in Hg as [Ht ->]. apply readUser_Ok in Ht as [_ Ht].
  apply tx_bind_Ok in H as (? & s1 & Hg & H). apply require_Ok in Hg as [Hman ->].
  apply tx_bind_Ok in H as (? & s1 & Hg & H). apply require_Ok in Hg as [_ ->].
  apply tx_bind_Ok in H as ([email name] & s1 & Hg & H). apply lift_Ok in Hg as [_ ->].
  apply tx_bind_Ok in H as (st & s1 & Hg & H). apply lift_Ok in Hg as [_ ->].
  apply tx_bind_Ok in H as (n & s1 & Hu & H). apply tx_bind_Ok in H as (? & s2 & Hn & H). apply require_Ok in Hn as [Hn ->].
  apply update_user_Ok in Hu as (u & Hu & _ & ->); [|by apply Z.eqb_eq]. rewrite Ht in Hu. injection Hu as <-.
  set (s1 := set_users _ s) in *. exists (uv_Row target), email, name, st.
  split_and!; [done|by eapply canManage_entitled|].
  transitivity (identity s1); [|done].
  match type of H with ?m s1 = _ => assert (keeps identity m) as Hk; [|by eapply Hk] end.
  unfold delete_sessions, delete_codes. keeps_tac.
Qed.

Lemma issue_code_tx_Ok e actor id purpose s w s' :
  issue_code_tx Verifier e actor id purpose s = Ok (w, s') ->
  exists u, t_users s !! id = Some u /\ entitled s (us_ID actor) u /\
    (identity s' = identity s \/ identity s' = (<[id := bump_revisions (now e 0) u]> (t_users s), t_keys s)).
Proof.
  intros H. unfold issue_code_tx in H.
  apply tx_bind_Ok in H as (s0 & s1 & Hg & H). apply reads_Ok in Hg as [-> ->].
  apply tx_bind_Ok in H as (act & s1 & Hg & H). apply lift_Ok in Hg as [Ha ->].
  apply tx_bind_Ok in H as (target & s1 & Hg & H). apply lift_Ok in Hg as [Ht ->]. apply readUser_Ok in Ht as [_ Ht].
  apply tx_bind_Ok in H as (? & s1 & Hg & H). apply require_Ok in Hg as [Hman ->].
  apply tx_bind_Ok in H as (? & s1 & Hg & H). apply require_Ok in Hg as [_ ->].
  apply tx_bind_Ok in H as (? & s1 & Hg & H). apply require_Ok in Hg as [_ ->].
  apply tx_bind_Ok in H as (? & s1 & Hg & H). unfold delete_codes, delete_rows in Hg. apply modify_Ok in Hg as ->.
  apply tx_bind_Ok in H as (? & s1 & Hg & H). unfold insertCode in Hg. apply insert_row_Ok in Hg as [_ ->].
  exists (uv_Row target). split_and!; [done|by eapply canManage_entitled|]. destruct (purpose =s "recovery").
  - apply tx_bind_Ok in H as (? & s2 & Hg & H). apply insertAudit_Ok in H as [aud ->].
    apply tx_bind_Ok in Hg as (n & s3 & Hu & Hg). unfold delete_sessions, delete_rows in Hg. apply modify_Ok in Hg as ->.
    unfold update_user in Hu. apply tx_bind_Ok in Hu as (s4 & s5 & Hr & Hu). apply reads_Ok in Hr as [-> ->].
    apply tx_bind_Ok in Hu as (? & s5 & Hr & Hu). apply require_Ok in Hr as [_ ->].
    apply (update_row_always t_users set_users _ _ _ _ _ (uv_Row target)) in Hu; [subst|done]. by right.
  - apply tx_bind_Ok in H as (? & s2 & Hg & H). apply insertAudit_Ok in H as [aud ->]. apply tx_ret_Ok in Hg as [_ <-]. by left.
Qed.

Lemma transfer_tx_Ok e actor id rev s w s' :
  us_ID actor <> id -> transfer_tx e actor id rev s = Ok (w, s') ->
  exists a u m, t_users s !! us_ID actor = Some a /\ u_Status a = UActive /\ u_Role a = Owner /\
    t_users s !! id = Some u /\ u_Role u = Admin /\ u_Status u = UActive /\
    identity s' = (<[id := promote (now e 0) u]> (<[us_ID actor := demote (now e 0) a]> (t_users s)), m) /\
    forall kid k', m !! kid = Some k' <-> exists k, t_keys s !! kid = Some k /\
      k' = if k_Owner k =s us_ID actor then clamp (mkGrants false [] [] []) (now e 0) k else k.
Proof.
  intros Hne H. unfold transfer_tx in H.
  apply tx_bind_Ok in H as (s0 & s1 & Hg & H). apply reads_Ok in Hg as [-> ->].
  apply tx_bind_Ok in H as (act & s1 & Hg & H). apply lift_Ok in Hg as [Ha ->].
  destruct (refreshActor s (us_ID actor)) as [act'|] eqn:Hact; [|done]. injection Ha as ->.
  apply refreshActor_Ok in Hact as (Eid & a & Ha & Hst & Hrole).
  apply tx_bind_Ok in H as (? & s1 & Hg & H). apply require_Ok in Hg as [Hown ->]. apply bool_decide_eq_true in Hown.
  apply tx_bind_Ok in H as (target & s1 & Hg & H). apply lift_Ok in Hg as [Ht ->]. apply readUser_Ok in Ht as [_ Ht].
  apply tx_bind_Ok in H as (? & s1 & Hg & H). apply require_Ok in Hg as [Hp ->].
  unfold promotable in Hp. rewrite !andb_true_iff, !bool_decide_eq_true in Hp. destruct Hp as [[Hr1 Hr2] _].
  apply tx_bind_Ok in H as (n & s1 & Hu & H). apply tx_bind_Ok in H as (? & s2 & Hn & H). apply require_Ok in Hn as [Hn ->].
  rewrite Eid in Hu, H. apply update_user_Ok in Hu as (a' & Ha' & _ & ->); [|by apply Z.eqb_eq]. rewrite Ha in Ha'. injection Ha' as <-.
  apply tx_bind_Ok in H as (n2 & s1 & Hu & H). apply tx_bind_Ok in H as (? & s2 & Hn2 & H). apply require_Ok in Hn2 as [Hn2 ->].
  apply update_user_Ok in Hu as (u & Hu & _ & ->); [|by apply Z.eqb_eq]. cbn in Hu. rewrite lookup_insert_ne, Ht in Hu by done. injection Hu as <-.
  do 4 (apply tx_bind_Ok in H as (? & s1 & Hd & H); unfold delete_sessions, delete_codes, delete_rows in Hd; apply modify_Ok in Hd as ->).
  apply tx_bind_Ok in H as (? & s1 & Hc & H). apply clampKeys_Ok in Hc as (m & -> & Hm). apply insertAudit_Ok in H as [aud ->].
  exists a, (uv_Row target), m. split_and!; try done. congruence.
Qed.
End UserFacts.
