(* ===== verification/Credentials.v ===== *)
(** Password hashes ([internal/credentials/credentials.go]): the text a
    password is stored as, and the check of a password against such a text.
    Argon2 is a parameter; [encoding/base64] without padding is written out. *)
From S2P Require Import Prelude GoStd.

(** * encoding/base64 *)

(** The standard alphabet. *)
Definition base64_char (v : Z) : Z :=
  if v <? 26 then v + 65 else if v <? 52 then v + 71 else if v <? 62 then v - 4 else if v =? 62 then 43 else 47.
Definition base64_value (c : Z) : option Z :=
  if (65 <=? c) && (c <=? 90) then Some (c - 65)
  else if (97 <=? c) && (c <=? 122) then Some (c - 71)
  else if (48 <=? c) && (c <=? 57) then Some (c + 4)
  else if c =? 43 then Some 62 else if c =? 47 then Some 63 else None.

(** [RawStdEncoding.EncodeToString] on bytes. *)
Fixpoint base64_encode (l : list Z) : list Z :=
  match l with
  | [] => []
  | [a] => [base64_char (a / 4); base64_char (a mod 4 * 16)]
  | [a; b] => [base64_char (a / 4); base64_char (a mod 4 * 16 + b / 16); base64_char (b mod 16 * 4)]
  | a :: b :: c :: l =>
      base64_char (a / 4) :: base64_char (a mod 4 * 16 + b / 16) :: base64_char (b mod 16 * 4 + c / 64)
        :: base64_char (c mod 64) :: base64_encode l
  end.

(** [RawStdEncoding.DecodeString]: groups of four, the last of two, three or
    four characters; the unused low bits of the last one are ignored. *)
Fixpoint base64_quanta (l : list Z) : option (list Z) :=
  match l with
  | [] => Some []
  | [_] => None
  | [w; x] => w ← base64_value w; x ← base64_value x; Some [w * 4 + x / 16]
  | [w; x; y] =>
      w ← base64_value w; x ← base64_value x; y ← base64_value y;
      Some [w * 4 + x / 16; x mod 16 * 16 + y / 4]
  | w :: x :: y :: z :: l =>
      w ← base64_value w; x ← base64_value x; y ← base64_value y; z ← base64_value z; l ← base64_quanta l;
      Some (w * 4 + x / 16 :: x mod 16 * 16 + y / 4 :: y mod 4 * 64 + z :: l)
  end.
(** Line breaks are skipped wherever they stand. *)
Definition base64_decode (l : list Z) : option (list Z) :=
  base64_quanta (List.filter (fun c => negb ((c =? 10) || (c =? 13))) l).

Definition EncodeToString (s : string) : string := of_bytes (base64_encode (bytes s)).
Definition DecodeString (s : string) : option string := option_map of_bytes (base64_decode (bytes s)).

(** * Password hashes *)

Definition argonMemory : Z := 19 * 1024.
Definition argonIterations : Z := 2.
Definition argonParallel : Z := 1.
Definition argonKeyLength : Z := 32.

Definition argon_parameters : string :=
  "m=" +:+ FormatInt argonMemory +:+ ",t=" +:+ FormatInt argonIterations +:+ ",p=" +:+ FormatInt argonParallel.

Section Passwords.
(** [argon2.IDKey] at the parameters above: password, salt, key. *)
Variable IDKey : string -> string -> string.

(** [salt] is the 16 random bytes the call reads. *)
Definition HashPassword (salt password : string) : string :=
  "$argon2id$v=19$" +:+ argon_parameters +:+ "$" +:+ EncodeToString salt +:+ "$" +:+ EncodeToString (IDKey password salt).

Definition VerifyPassword (password encoded : string) : result bool :=
  match Split encoded "$"%char with
  | [_; algorithm; version; parameters; salt; key] =>
    _ ← ensure (String.eqb algorithm "argon2id" && String.eqb version "v=19" && String.eqb parameters argon_parameters)
          (Msg "stored password hash uses unsupported parameters");
    match DecodeString salt with
    | Some salt =>
      _ ← ensure (str_len salt =? 16) (Msg "stored password hash has invalid salt");
      match DecodeString key with
      | Some expected =>
        _ ← ensure (str_len expected =? argonKeyLength) (Msg "stored password hash has invalid value");
        Ok (String.eqb (IDKey password salt) expected)
      | None => Err (Msg "stored password hash has invalid value")
      end
    | None => Err (Msg "stored password hash has invalid salt")
    end
  | _ => Err (Msg "stored password hash uses unsupported parameters")
  end.
End Passwords.

(** * Lemmas *)

Definition is_byte (b : Z) : Prop := 0 <= b < 256.

Lemma base64_value_char v : 0 <= v < 64 -> base64_value (base64_char v) = Some v.
Proof.
  intros Hv. assert (Z.to_nat v < 64)%nat as Hn by lia. revert Hn. rewrite <- (Z2Nat.id v) by lia. generalize (Z.to_nat v). clear.
  intros n Hn. do 64 (destruct n as [|n]; [reflexivity|]). lia.
Qed.

(** The characters are letters, digits, [+] and [/]. *)
Lemma base64_char_range v : 0 <= v < 64 -> 43 <= base64_char v < 123 /\ base64_char v <> 36.
Proof. intros Hv. unfold base64_char. repeat case_match; lia. Qed.

Lemma quantum_ranges a b c : is_byte a -> is_byte b -> is_byte c ->
  0 <= a / 4 < 64 /\ 0 <= a mod 4 * 16 < 64 /\ 0 <= a mod 4 * 16 + b / 16 < 64 /\ 0 <= b mod 16 * 4 < 64 /\
  0 <= b mod 16 * 4 + c / 64 < 64 /\ 0 <= c mod 64 < 64.
Proof. unfold is_byte. intros. Z.div_mod_to_equations. lia. Qed.

Lemma quantum_bytes a b c : is_byte a -> is_byte b -> is_byte c ->
  a / 4 * 4 + (a mod 4 * 16) / 16 = a /\ a / 4 * 4 + (a mod 4 * 16 + b / 16) / 16 = a /\
  (a mod 4 * 16 + b / 16) mod 16 * 16 + (b mod 16 * 4) / 4 = b /\
  (a mod 4 * 16 + b / 16) mod 16 * 16 + (b mod 16 * 4 + c / 64) / 4 = b /\
  (b mod 16 * 4 + c / 64) mod 4 * 64 + c mod 64 = c.
Proof. unfold is_byte. intros. split_and!; Z.div_mod_to_equations; lia. Qed.

(** Induction three bytes at a time. *)
Lemma triples_ind (P : list Z -> Prop) :
  P [] -> (forall a, P [a]) -> (forall a b, P [a; b]) -> (forall a b c l, P l -> P (a :: b :: c :: l)) -> forall l, P l.
Proof.
  intros H0 H1 H2 H3. fix IH 1. intros [|a [|b [|c l]]]; [done|apply H1|apply H2|apply H3, IH].
Qed.

Local Ltac chars := repeat (apply Forall_cons; split; [by apply base64_char_range|]); try apply Forall_nil_2.

Lemma base64_encode_chars l : Forall is_byte l -> Forall (fun c => 43 <= c < 123 /\ c <> 36) (base64_encode l).
Proof.
  induction l as [|a|a b|a b c l IH] using triples_ind; intros Hl; cbn [base64_encode]; [constructor|..];
    repeat match goal with H : Forall _ (_ :: _) |- _ => apply Forall_cons in H as [? ?] end.
  - destruct (quantum_ranges a 0 0) as (?&?&?&?&?&?); [done..|]. chars.
  - destruct (quantum_ranges a b 0) as (?&?&?&?&?&?); [done..|]. chars.
  - destruct (quantum_ranges a b c) as (?&?&?&?&?&?); [done..|]. chars. auto.
Qed.

Lemma base64_quanta_encode l : Forall is_byte l -> base64_quanta (base64_encode l) = Some l.
Proof.
  induction l as [|a|a b|a b c l IH] using triples_ind; intros Hl; cbn [base64_encode base64_quanta]; [done|..];
    repeat match goal with H : Forall _ (_ :: _) |- _ => apply Forall_cons in H as [? ?] end.
  - destruct (quantum_ranges a 0 0) as (?&?&?&?&?&?); [done..|]. destruct (quantum_bytes a 0 0) as (E&_); [done..|].
    rewrite !base64_value_char by done. cbn. by rewrite E.
  - destruct (quantum_ranges a b 0) as (?&?&?&?&?&?); [done..|]. destruct (quantum_bytes a b 0) as (_&E1&E2&_); [done..|].
    rewrite !base64_value_char by done. cbn. by rewrite E1, E2.
  - destruct (quantum_ranges a b c) as (?&?&?&?&?&?); [done..|]. destruct (quantum_bytes a b c) as (_&E1&_&E2&E3); [done..|].
    rewrite !base64_value_char, IH by done. cbn. by rewrite E1, E2, E3.
Qed.

Lemma byte_of_is_byte c : is_byte (byte_of c).
Proof. unfold is_byte, byte_of. pose proof (nat_ascii_bounded c). lia. Qed.

Lemma bytes_range s : Forall is_byte (bytes s).
Proof. unfold bytes. apply Forall_forall. intros x (c & -> & _)%list_elem_of_fmap. apply byte_of_is_byte. Qed.

Lemma bytes_of_bytes l : Forall is_byte l -> bytes (of_bytes l) = l.
Proof.
  unfold bytes, of_bytes. rewrite String.list_ascii_of_string_of_list_ascii, List.map_map. intros Hl.
  induction Hl as [|b l Hb Hl IH]; [done|]. cbn. rewrite IH. f_equal. unfold is_byte in Hb. unfold byte_of.
  rewrite nat_ascii_embedding; lia.
Qed.

Lemma DecodeString_EncodeToString s : DecodeString (EncodeToString s) = Some s.
Proof.
  unfold DecodeString, EncodeToString. pose proof (base64_encode_chars _ (bytes_range s)) as Hc. rewrite bytes_of_bytes.
  - unfold base64_decode. rewrite forallb_filter_id.
    + rewrite base64_quanta_encode by apply bytes_range. cbn. by rewrite of_bytes_bytes.
    + apply forallb_forall. intros x Hx. rewrite Forall_forall in Hc. rewrite <- list_elem_of_In in Hx. apply Hc in Hx. lia.
  - eapply Forall_impl; [exact Hc|]. unfold is_byte. intros. lia.
Qed.

(** ** Splitting at a byte *)

Definition without (c : ascii) (s : string) : bool := str_forall (fun d => negb (Ascii.eqb d c)) s.

Lemma Split_without c s : without c s = true -> Split s c = [s].
Proof.
  induction s as [|d s IH]; [done|]. cbn. intros [Hd Hs]%andb_true_iff. apply negb_true_iff in Hd. by rewrite Hd, IH.
Qed.

Lemma Split_cons c s rest : without c s = true -> Split (s +:+ String c rest) c = s :: Split rest c.
Proof.
  induction s as [|d s IH]; autorewrite with gw; cbn; [by rewrite Ascii.eqb_refl|].
  intros [Hd Hs]%andb_true_iff. apply negb_true_iff in Hd. by rewrite Hd, IH.
Qed.

Lemma EncodeToString_without s : without "$"%char (EncodeToString s) = true.
Proof.
  pose proof (base64_encode_chars _ (bytes_range s)) as Hc. unfold EncodeToString.
  rewrite <- (bytes_of_bytes (base64_encode (bytes s))) in Hc.
  - revert Hc. unfold bytes at 1, without. generalize (of_bytes (base64_encode (bytes s))). clear. intros t.
    induction t as [|c t IH]; [done|]. cbn. intros [[_ Hc] Ht]%Forall_cons. rewrite IH, andb_true_r by done.
    apply negb_true_iff, Ascii.eqb_neq. by intros ->.
  - eapply Forall_impl; [exact Hc|]. unfold is_byte. intros. lia.
Qed.

(** A stored password hash reads back: the text [HashPassword] writes is
    accepted by [VerifyPassword], whose answer is whether the password given
    has the key of the one hashed. *)
Theorem VerifyPassword_HashPassword IDKey salt password password' :
  str_len salt = 16 -> str_len (IDKey password salt) = argonKeyLength ->
  VerifyPassword IDKey password' (HashPassword IDKey salt password) = Ok (String.eqb (IDKey password' salt) (IDKey password salt)).
Proof.
  intros Hs Hk. unfold VerifyPassword, HashPassword.
  change ("$argon2id$v=19$" +:+ argon_parameters +:+ "$" +:+ EncodeToString salt +:+ "$" +:+ EncodeToString (IDKey password salt))%string
    with ("" +:+ String "$" ("argon2id" +:+ String "$" ("v=19" +:+ String "$" (argon_parameters +:+ String "$"
            (EncodeToString salt +:+ String "$" (EncodeToString (IDKey password salt)))))))%string.
  rewrite !Split_cons, Split_without by (reflexivity || apply EncodeToString_without). cbn match.
  rewrite !String.eqb_refl, !DecodeString_EncodeToString, Hs, Hk. done.
Qed.
