(* ===== verification/Sessions.v ===== *)
(** Accounts ([internal/features/auth/service.go], [lifecycle.go]): the claim
    of a new gateway by its owner, sessions, login and its throttle,
    activation and recovery by code, and a user's own changes.

    A call reads, hashes a password outside any transaction, and then writes:
    other calls may commit in between. Such an operation takes the database
    its reads saw ([seen]) and the one its writes meet; whether one of the two
    password slots was free is the argument [busy]. *)
From S2P Require Import Prelude GoStd Json Policy PathMatch Grants Store Keys Users Credentials.
Open Scope string_scope.
Open Scope Z_scope.

Definition sessionLifetime : Z := 24 * 60 * 60 * 1000.
Definition sessionIdleLifetime : Z := 30 * 60 * 1000.
Definition sessionTouchAfter : Z := 5 * 60 * 1000.
Definition loginWindow : Z := 15 * 60 * 1000.
Definition loginBlock : Z := 15 * 60 * 1000.
Definition maxLoginFailures : Z := 5.
Definition maxSourceFailures : Z := 20.

(** * Text *)

(** [truncateUTF8]: the first [max] runes, an invalid byte replaced by
    U+FFFD; [skip] bytes belong to the rune being copied. *)
Definition replacement : string := of_bytes [239; 191; 189].
Fixpoint truncate_runes (max skip : nat) (value : string) : string :=
  match value with
  | EmptyString => ""
  | String c rest =>
    match skip, max with
    | S skip, _ => String c (truncate_runes max skip rest)
    | O, O => ""
    | O, S max =>
      let (r, w) := DecodeRuneInString value in
      if (r =? RuneError) && Nat.eqb w 1 then replacement +:+ truncate_runes max 0 rest
      else String c (truncate_runes max (Nat.pred w) rest)
    end
  end.
Definition truncateUTF8 (value : string) (max : nat) : string := truncate_runes max 0 value.

(** [utf8.ValidString]. *)
Fixpoint valid_runes (skip : nat) (s : string) : bool :=
  match s with
  | EmptyString => true
  | String _ rest =>
    match skip with
    | S skip => valid_runes skip rest
    | O => let (r, w) := DecodeRuneInString s in
           negb ((r =? RuneError) && Nat.eqb w 1) && valid_runes (Nat.pred w) rest
    end
  end.
Definition ValidString (s : string) : bool := valid_runes 0 s.

Fixpoint IndexByte (s : string) (c : ascii) : option nat :=
  match s with
  | EmptyString => None
  | String d s => if Ascii.eqb d c then Some O else option_map S (IndexByte s c)
  end.
Fixpoint LastIndexByte (s : string) (c : ascii) : option nat :=
  match s with
  | EmptyString => None
  | String d s => match LastIndexByte s c with
                  | Some i => Some (S i)
                  | None => if Ascii.eqb d c then Some O else None
                  end
  end.

(** The host of [net.SplitHostPort], [None] for its errors. *)
Definition SplitHostPort (hostport : string) : option string :=
  match LastIndexByte hostport ":" with
  | None => None
  | Some i =>
    let rest (j k : nat) (host : string) :=
      match IndexByte (drop_bytes j hostport) "[", IndexByte (drop_bytes k hostport) "]" with
      | None, None => Some host
      | _, _ => None
      end in
    if HasPrefix hostport "[" then
      match IndexByte hostport "]" with
      | Some end_ => if Nat.eqb (S end_) i then rest 1%nat (S end_) (take_bytes (end_ - 1) (drop_bytes 1 hostport)) else None
      | None => None
      end
    else
      let host := take_bytes i hostport in
      match IndexByte host ":" with Some _ => None | None => rest O O host end
  end.

Definition loginSource (remoteAddr : string) : string :=
  let remoteAddr := TrimSpace remoteAddr in
  let remoteAddr := match SplitHostPort remoteAddr with Some host => host | None => remoteAddr end in
  if remoteAddr =s "" then "unknown" else truncateUTF8 remoteAddr 200.

Definition validPasswordSize (password : string) : bool := ValidString password && (str_len password <=? 1024).

Definition validatePassword (password : string) : result unit :=
  ensure (negb (negb (validPasswordSize password) || (rune_count password <? 12)))
    (Msg "Password must be at least 12 characters and no more than 1024 bytes").

(** * Values *)

(** [auth.User]: the row as it was read. *)
Record SessionUser := mkSessionUser { su_ID : string; su_Row : UserRow }.

Record AuthenticatedSession := mkAuthenticatedSession {
  an_ID : string; an_User : SessionUser; an_CreatedAt : Z; an_LastSeenAt : Z; an_ExpiresAt : Z;
  an_AuthenticatedAt : Z; an_AuthRevision : Z; an_UserAgent : string }.

(** Instants stay in milliseconds. *)
Record SessionView := mkSessionView {
  sv_ID : string; sv_Current : bool; sv_CreatedAt : Z; sv_LastSeenAt : Z; sv_ExpiresAt : Z;
  sv_AuthenticatedAt : Z; sv_UserAgent : string }.

Record ClaimInput := mkClaimInput { cl_Email : string; cl_DisplayName : string; cl_Password : string }.
Record LoginInput := mkLoginInput { li_Email : string; li_Password : string; li_UserAgent : string; li_Source : string }.
Record ActivateInput := mkActivateInput { ac_Code : string; ac_Password : string; ac_UserAgent : string }.
Record ProfileInput := mkProfileInput {
  pf_Email : string; pf_DisplayName : string; pf_CurrentPassword : string; pf_UserAgent : string }.

(** * Reads *)

(** The owner query of [SetupRequired] and [Claim]. *)
Definition owner_exists (s : db) : bool := existsb (fun kv => active_owner kv.2) (map_to_list (t_users s)).
Definition SetupRequired (s : db) : bool := negb (owner_exists s).

(** The user a login names: emails compare without case. *)
Definition login_user (s : db) (email : string) : option (string * UserRow) :=
  find (fun kv => same_email (u_Email kv.2) email && bool_decide (u_Status kv.2 = UActive)) (map_to_list (t_users s)).

(** The WHERE clause of [SessionInfo] past the verifier. *)
Definition session_row_user (s : db) (now_ : Z) (x : SessionRow) : option UserRow :=
  u ← t_users s !! ss_User x;
  if (now_ <? ss_Expires x) && (now_ - sessionIdleLifetime <? ss_LastSeen x) && bool_decide (u_Status u = UActive)
     && (ss_AuthRevision x =? u_AuthRevision u)
  then Some u else None.

(** A code that [Activate] accepts for a user. *)
Definition code_matches (c : CodeRow) (u : UserRow) : bool :=
  (cd_Purpose c =s "recovery") && bool_decide (u_Status u = UActive)
  || (cd_Purpose c =s "activation") && bool_decide (u_Status u = USuspended).
Definition code_user (s : db) (verifier : string) (now_ : Z) : option (CodeRow * UserRow) :=
  c ← t_codes s !! verifier;
  if now_ <? cd_Expires c then u ← t_users s !! cd_User c; Some (c, u) else None.
Definition code_eligible (s : db) (verifier : string) (now_ : Z) : bool :=
  match code_user s verifier now_ with Some (c, u) => code_matches c u | None => false end.

(** * Writes *)

(** [password_hash], [status], both revisions and [updated_at]. *)
Definition with_password (hash : string) (st : UserStatus) (at_ : Z) (u : UserRow) : UserRow :=
  mkUserRow (u_Email u) (u_Name u) hash (u_Role u) st (u_Created u) at_ (u_AuthRevision u + 1) (u_Revision u + 1) (u_Grants u).

Definition with_profile (email name : string) (authBump : Z) (at_ : Z) (u : UserRow) : UserRow :=
  mkUserRow email name (u_Password u) (u_Role u) (u_Status u) (u_Created u) at_ (u_AuthRevision u + authBump)
    (u_Revision u + 1) (u_Grants u).

Definition touch (at_ : Z) (x : SessionRow) : SessionRow :=
  mkSessionRow (ss_ID x) (ss_User x) (ss_Expires x) (ss_Created x) at_ (ss_Authenticated x) (ss_AuthRevision x) (ss_UserAgent x).

(** The row a login failure leaves for its subject. *)
Definition failed_once (old : option ThrottleRow) (limit now_ : Z) : ThrottleRow :=
  let '(started, failures) :=
    match old with
    | Some t => if th_Started t + loginWindow <=? now_ then (now_, 0) else (th_Started t, th_Failures t)
    | None => (now_, 0)
    end in
  let failures := failures + 1 in
  mkThrottleRow started failures (if limit <=? failures then now_ + loginBlock else 0).

Definition stale_throttle (now_ : Z) (t : ThrottleRow) : bool := (th_Started t <? now_ - loginWindow) && (th_Blocked t <=? now_).

Definition auditAccount (tok actorID action : string) (detail : list (string * json)) (at_ : Z) : tx db unit :=
  insertAudit tok actorID action "user" actorID detail at_.

Section Sessions.
(** [sha256.Sum256] of a token as a byte string, [strings.ToLower], the
    address of [net/mail.ParseAddress], [argon2.IDKey], and the hash checked
    when a login names nobody. *)
Variables (Verifier ToLower : string -> string) (ParseAddress : string -> option string).
Variables (IDKey : string -> string -> string) (dummyHash : string).

Definition validLoginEmail (email : string) : bool :=
  match ParseAddress email with Some address => address =s email | None => false end && (str_len email <=? 254).

(** The new session carries the user's current revision of authority. *)
Definition createSession (tok userID token_ : string) (now_ clock : Z) (userAgent : string) (expected : Z) : tx db unit :=
  s ← reads (fun s => s);
  match t_users s !! userID with
  | Some u =>
    if bool_decide (u_Status u = UActive) && ((expected =? 0) || (u_AuthRevision u =? expected)) then
      let id := "ses_" +:+ tok in
      _ ← require (forallb (fun kv => negb (ss_ID kv.2 =s id)) (map_to_list (t_sessions s))) (Msg "create session");
      insert_row t_sessions set_sessions (Verifier token_)
        (mkSessionRow id userID (clock + sessionLifetime) now_ now_ now_ (u_AuthRevision u) (truncateUTF8 userAgent 200))
    else fail ErrInvalidSession
  | None => fail ErrInvalidSession
  end.

(** ** [Claim] *)

Definition claim_tx (e : env) (email displayName hash : string) : tx db (SessionUser * string) :=
  let id := "usr_" +:+ token e 1 in
  let u := mkUserRow email displayName hash Owner UActive (now e 0) (now e 0) 1 1 (mkGrants true [] [] []) in
  s ← reads (fun s => s);
  _ ← require (negb (owner_exists s)) ErrSetupComplete;
  _ ← insert_user id u (Msg "create owner");
  _ ← createSession (token e 3) id (token e 2) (now e 0) (now e 1) "" 0;
  _ ← auditAccount (token e 4) id "owner.setup_claim" [] (now e 2);
  mret (mkSessionUser id u, token e 2).

Definition Claim (e : env) (busy : bool) (input : ClaimInput) (seen s : db) : result (SessionUser * string) * db :=
  match (identity ← ValidateIdentity ToLower ParseAddress (cl_Email input) (cl_DisplayName input);
         _ ← validatePassword (cl_Password input);
         _ ← ensure (SetupRequired seen) ErrSetupComplete;
         _ ← ensure (negb busy) ErrTooManyAttempts;
         Ok identity) with
  | Err err => (Err err, s)
  | Ok (email, displayName) => commit (claim_tx e email displayName (HashPassword IDKey (token e 0) (cl_Password input))) s
  end.

(** ** [SessionInfo], [Session] *)

Definition session_view (x : SessionRow) (u : UserRow) : AuthenticatedSession :=
  mkAuthenticatedSession (ss_ID x) (mkSessionUser (ss_User x) u) (ss_Created x) (ss_LastSeen x) (ss_Expires x)
    (ss_Authenticated x) (u_AuthRevision u) (ss_UserAgent x).

Definition SessionInfo (e : env) (token_ : string) (s : db) : result AuthenticatedSession * db :=
  match (x ← t_sessions s !! Verifier token_; u ← session_row_user s (now e 0) x; Some (x, u)) with
  | None => (Err ErrInvalidSession, s)
  | Some (x, u) =>
    if ss_LastSeen x <=? now e 0 - sessionTouchAfter then
      (Ok (session_view (touch (now e 0) x) u),
       snd (commit (update_row t_sessions set_sessions (Verifier token_)
                      (fun r => (ss_ID r =s ss_ID x) && (ss_LastSeen r =? ss_LastSeen x)) (touch (now e 0))) s))
    else (Ok (session_view x u), s)
  end.

Definition Session (e : env) (token_ : string) (s : db) : result SessionUser * db :=
  let '(r, s) := SessionInfo e token_ s in (session ← r; Ok (an_User session), s).

(** ** [Login] *)

Definition checkLoginThrottle (s : db) (subject : string) (now_ : Z) : result unit :=
  match t_throttles s !! Verifier subject with
  | Some t => ensure (negb (now_ <? th_Blocked t)) ErrTooManyAttempts
  | None => Ok tt
  end.

Definition record_failure_tx (subject : string) (limit now_ : Z) : tx db unit :=
  _ ← delete_rows t_throttles set_throttles (fun _ => stale_throttle now_);
  old ← reads (fun s => t_throttles s !! Verifier subject);
  modify (fun s => set_throttles (<[Verifier subject := failed_once old limit now_]> (t_throttles s)) s).
Definition recordLoginFailure (subject : string) (limit now_ : Z) (s : db) : result unit * db :=
  commit (record_failure_tx subject limit now_) s.

Definition source_subject (source : string) : string := "source:" +:+ source.
Definition email_subject (email : string) : string := "email:" +:+ email.

Definition recordLoginFailures (email source : string) (now1 now2 : Z) (s : db) : result unit * db :=
  match recordLoginFailure (source_subject source) maxSourceFailures now1 s with
  | (Ok _, s) => recordLoginFailure (email_subject email) maxLoginFailures now2 s
  | (Err err, s) => (Err err, s)
  end.

Definition startSession (e : env) (user : SessionUser) (userAgent : string) (expected : Z) (s : db) : result (SessionUser * string) * db :=
  match commit (createSession (token e 1) (su_ID user) (token e 0) (now e 2) (now e 3) userAgent expected) s with
  | (Ok _, s) => (Ok (user, token e 0), s)
  | (Err err, s) => (Err err, s)
  end.

Definition forget_failures (email : string) (s : db) : db :=
  snd (commit (delete_rows t_throttles set_throttles (fun k _ => k =s Verifier (email_subject email))) s).

(** What a login finds before it writes: an error, a wrong guess, or the user. *)
Definition login_check (e : env) (busy : bool) (input : LoginInput) (seen : db) : result (option (string * UserRow)) :=
  let email := ToLower (TrimSpace (li_Email input)) in
  _ ← checkLoginThrottle seen (source_subject (loginSource (li_Source input))) (now e 0);
  _ ← checkLoginThrottle seen (email_subject email) (now e 1);
  _ ← ensure (validLoginEmail email && validPasswordSize (li_Password input)) ErrInvalidCredentials;
  _ ← ensure (negb busy) ErrTooManyAttempts;
  let user := login_user seen email in
  matches ← VerifyPassword IDKey (li_Password input) (match user with Some (_, u) => u_Password u | None => dummyHash end);
  Ok (match user with Some (id, u) => if (id =s "") || negb matches then None else Some (id, u) | None => None end).

Definition Login (e : env) (busy : bool) (input : LoginInput) (seen s : db) : result (SessionUser * string) * db :=
  let email := ToLower (TrimSpace (li_Email input)) in
  match login_check e busy input seen with
  | Err err => (Err err, s)
  | Ok None =>
    match recordLoginFailures email (loginSource (li_Source input)) (now e 2) (now e 3) s with
    | (Ok _, s) => (Err ErrInvalidCredentials, s)
    | (Err err, s) => (Err err, s)
    end
  | Ok (Some (id, u)) =>
    startSession e (mkSessionUser id u) (li_UserAgent input) (u_AuthRevision u) (forget_failures email s)
  end.

(** ** [Activate] *)

Definition activate_tx (e : env) (verifier hash userAgent : string) : tx db (SessionUser * string) :=
  found ← reads (fun s => code_user s verifier (now e 1));
  match found with
  | None => fail ErrInvalidActivation
  | Some (c, u) =>
    let id := cd_User c in
    _ ← require (negb ((cd_Purpose c =s "activation") && negb (bool_decide (u_Status u = USuspended)))) ErrInvalidActivation;
    _ ← require (negb ((cd_Purpose c =s "recovery") && negb (bool_decide (u_Status u = UActive)))) ErrInvalidActivation;
    _ ← update_user id (fun _ => true) (with_password hash UActive (now e 2)) (Msg "activate user");
    _ ← delete_sessions id;
    _ ← delete_codes id;
    _ ← auditAccount (token e 2) id ("account." +:+ cd_Purpose c) [("sessions_revoked", JBool true)] (now e 3);
    _ ← createSession (token e 3) id (token e 1) (now e 2) (now e 4) userAgent 0;
    mret (mkSessionUser id (mkUserRow (u_Email u) (u_Name u) (u_Password u) (u_Role u) UActive (u_Created u) (u_Updated u)
                              (u_AuthRevision u) (u_Revision u) (u_Grants u)), token e 1)
  end.

Definition Activate (e : env) (busy : bool) (input : ActivateInput) (seen s : db) : result (SessionUser * string) * db :=
  let verifier := Verifier (TrimSpace (ac_Code input)) in
  match (_ ← validatePassword (ac_Password input);
         _ ← ensure (code_eligible seen verifier (now e 0)) ErrInvalidActivation;
         ensure (negb busy) ErrTooManyAttempts) with
  | Err err => (Err err, s)
  | Ok _ => commit (activate_tx e verifier (HashPassword IDKey (token e 0) (ac_Password input)) (ac_UserAgent input)) s
  end.

(** ** [Logout], [RevokeSession], [Sessions] *)

Definition Logout (token_ : string) (s : db) : db :=
  snd (commit (delete_rows t_sessions set_sessions (fun k _ => k =s Verifier token_)) s).

Definition RevokeSession (userID sessionID : string) (s : db) : bool * db :=
  let mine (x : SessionRow) := (ss_ID x =s sessionID) && (ss_User x =s userID) in
  (Nat.eqb (length (select_rows (fun _ => mine) (t_sessions s))) 1,
   snd (commit (delete_rows t_sessions set_sessions (fun _ => mine)) s)).

Definition row_view (current : AuthenticatedSession) (x : SessionRow) : SessionView :=
  mkSessionView (ss_ID x) (ss_ID x =s an_ID current) (ss_Created x) (ss_LastSeen x) (ss_Expires x) (ss_Authenticated x) (ss_UserAgent x).
Definition newer_session (a b : SessionRow) : bool :=
  (ss_Created b <? ss_Created a) || ((ss_Created a =? ss_Created b) && String.ltb (ss_ID b) (ss_ID a)).
Definition Sessions (e : env) (current : AuthenticatedSession) (s : db) : list SessionView :=
  map (row_view current) (SliceStable newer_session (map snd (select_rows
    (fun _ x => (ss_User x =s su_ID (an_User current)) && (now e 0 <? ss_Expires x) && (now e 1 - sessionIdleLifetime <? ss_LastSeen x))
    (t_sessions s)))).
Definition CurrentSessionView (current : AuthenticatedSession) : SessionView :=
  mkSessionView (an_ID current) true (an_CreatedAt current) (an_LastSeenAt current) (an_ExpiresAt current)
    (an_AuthenticatedAt current) (an_UserAgent current).

(** ** [PrepareOwnerRecovery] *)

Definition owner_recovery_tx (e : env) (code : string) : tx db unit :=
  owner ← get_row (fun s => find (fun kv => active_owner kv.2) (map_to_list (t_users s))) (Msg "find active owner");
  let id := (owner : string * UserRow).1 in
  _ ← delete_codes id;
  _ ← insertCode Verifier id "recovery" code (now e 0);
  _ ← update_row t_users set_users id (fun _ => true) (bump_revisions (now e 0));
  _ ← delete_sessions id;
  insertAuditRow (token e 0) None "owner.offline_recovery" "user" id [] (now e 0).
Definition PrepareOwnerRecovery (e : env) (code : string) (s : db) : result unit * db := commit (owner_recovery_tx e code) s.

(** ** [ChangePassword] *)

Definition stored_password (s : db) (id : string) : result string :=
  match t_users s !! id with Some u => Ok (u_Password u) | None => Err (Msg "read current password") end.

(** The check of the current password. *)
Definition password_known (s : db) (id password : string) : result unit :=
  hash ← stored_password s id;
  matches ← VerifyPassword IDKey password hash;
  ensure matches ErrInvalidCredentials.

Definition change_password_tx (e : env) (current : AuthenticatedSession) (hash userAgent : string) : tx db string :=
  let id := su_ID (an_User current) in
  changed ← update_row t_users set_users id (fun u => u_AuthRevision u =? an_AuthRevision current)
              (fun u => with_password hash (u_Status u) (now e 0) u);
  _ ← require (changed =? 1) ErrInvalidSession;
  _ ← delete_sessions id;
  _ ← auditAccount (token e 2) id "account.password_change" [("sessions_revoked", JBool true)] (now e 1);
  _ ← createSession (token e 3) id (token e 1) (now e 0) (now e 2) userAgent 0;
  mret (token e 1).

Definition ChangePassword (e : env) (busy : bool) (current : AuthenticatedSession) (oldPassword newPassword userAgent : string)
    (seen s : db) : result string * db :=
  match (_ ← validatePassword newPassword;
         _ ← ensure (negb busy) ErrTooManyAttempts;
         password_known seen (su_ID (an_User current)) oldPassword) with
  | Err err => (Err err, s)
  | Ok _ => commit (change_password_tx e current (HashPassword IDKey (token e 0) newPassword) userAgent) s
  end.

(** ** [UpdateProfile] *)

Definition update_profile_tx (e : env) (current : AuthenticatedSession) (email name userAgent : string) (emailChanged : bool) : tx db string :=
  let id := su_ID (an_User current) in
  changed ← update_user id (fun u => u_AuthRevision u =? an_AuthRevision current)
              (with_profile email name (if emailChanged then 1 else 0) (now e 0)) email_taken;
  _ ← require (changed =? 1) ErrInvalidSession;
  newToken ← (if emailChanged then
                _ ← delete_sessions id;
                _ ← createSession (token e 1) id (token e 0) (now e 0) (now e 1) userAgent 0;
                mret (token e 0)
              else mret "");
  _ ← auditAccount (token e 2) id "account.update" [("email_changed", JBool emailChanged)] (now e 2);
  mret newToken.

Definition UpdateProfile (e : env) (busy : bool) (current : AuthenticatedSession) (input : ProfileInput) (seen s : db) :
    result (SessionUser * string) * db :=
  let id := su_ID (an_User current) in let row := su_Row (an_User current) in
  match (identity ← ValidateIdentity ToLower ParseAddress (pf_Email input) (pf_DisplayName input);
         let emailChanged := negb (fst identity =s u_Email row) in
         _ ← (if emailChanged then _ ← ensure (negb busy) ErrTooManyAttempts; password_known seen id (pf_CurrentPassword input)
              else Ok tt);
         Ok (identity, emailChanged)) with
  | Err err => (Err err, s)
  | Ok ((email, name), emailChanged) =>
    match commit (update_profile_tx e current email name (pf_UserAgent input) emailChanged) s with
    | (Ok newToken, s) =>
        (Ok (mkSessionUser id (mkUserRow email name (u_Password row) (u_Role row) (u_Status row) (u_Created row) (u_Updated row)
                                 (u_AuthRevision row) (u_Revision row) (u_Grants row)), newToken), s)
    | (Err err, s) => (Err err, s)
    end
  end.

(** ** The calls *)

(** [seen] is the database the reads of the call saw, [current] the session
    it was authenticated by. *)
Inductive account_operation :=
| AccountClaim (busy : bool) (i : ClaimInput) (seen : db)
| AccountSession (token_ : string)
| AccountLogin (busy : bool) (i : LoginInput) (seen : db)
| AccountActivate (busy : bool) (i : ActivateInput) (seen : db)
| AccountLogout (token_ : string)
| AccountRevokeSession (userID sessionID : string)
| AccountRecovery (code : string)
| AccountChangePassword (busy : bool) (current : AuthenticatedSession) (old new userAgent : string) (seen : db)
| AccountUpdateProfile (busy : bool) (current : AuthenticatedSession) (i : ProfileInput) (seen : db).

Definition account_perform (e : env) (op : account_operation) (s : db) : db :=
  match op with
  | AccountClaim busy i seen => snd (Claim e busy i seen s)
  | AccountSession token_ => snd (SessionInfo e token_ s)
  | AccountLogin busy i seen => snd (Login e busy i seen s)
  | AccountActivate busy i seen => snd (Activate e busy i seen s)
  | AccountLogout token_ => Logout token_ s
  | AccountRevokeSession userID sessionID => snd (RevokeSession userID sessionID s)
  | AccountRecovery code => snd (PrepareOwnerRecovery e code s)
  | AccountChangePassword busy current old new userAgent seen => snd (ChangePassword e busy current old new userAgent seen s)
  | AccountUpdateProfile busy current i seen => snd (UpdateProfile e busy current i seen s)
  end.
End Sessions.

(** * What the operations do to users and keys *)

(** A user's row rewritten with its role and grants as they were, suspended
    at most when it was. *)
Definition own_change (u u' : UserRow) : Prop :=
  u_Role u' = u_Role u /\ u_Grants u' = u_Grants u /\ (u_Status u' = u_Status u \/ u_Status u' = UActive).

Definition own_row_changed (s s' : db) : Prop :=
  identity s' = identity s \/
  exists id u u', t_users s !! id = Some u /\ own_change u u' /\ identity s' = (<[id := u']> (t_users s), t_keys s).

Lemma owner_exists_spec s : owner_exists s = true <-> exists id u, t_users s !! id = Some u /\ u_Role u = Owner /\ u_Status u = UActive.
Proof.
  unfold owner_exists. rewrite existsb_exists. split.
  - intros ([id u] & Hin & Ha). rewrite <- list_elem_of_In, elem_of_map_to_list in Hin. cbn in Ha. unfold active_owner in Ha.
    rewrite andb_true_iff, !bool_decide_eq_true in Ha. naive_solver.
  - intros (id & u & Hu & Hr & Hs). exists (id, u). rewrite <- list_elem_of_In, elem_of_map_to_list. split; [done|]. cbn.
    unfold active_owner. by rewrite andb_true_iff, !bool_decide_eq_true.
Qed.

Section SessionFacts.
Context (Verifier ToLower : string -> string) (ParseAddress : string -> option string).
Context (IDKey : string -> string -> string) (dummyHash : string).

Lemma createSession_keeps {X} (obs : db -> X) tok id t n c ua x :
  (forall m s, obs (set_sessions m s) = obs s) -> keeps obs (createSession Verifier tok id t n c ua x).
Proof. intros Hp. unfold createSession. keeps_tac. by apply keeps_insert_row. Qed.
#[local] Hint Extern 1 (keeps _ (createSession _ _ _ _ _ _ _ _)) => apply createSession_keeps; intros; reflexivity : keeps.
#[local] Hint Unfold delete_sessions delete_codes auditAccount insertCode : keeps.

Lemma claim_refused e busy i seen s : owner_exists s = true -> snd (Claim Verifier ToLower ParseAddress IDKey e busy i seen s) = s.
Proof.
  intros Ho. unfold Claim. match goal with |- context [match ?c with Ok _ => _ | Err _ => _ end] => destruct c as [[email name]|] end; [|done].
  unfold commit. destruct (claim_tx _ _ _ _ _ s) as [[r s']|] eqn:E; [|done]. unfold claim_tx in E. tx_peel E. by rewrite Ho in *.
Qed.

Lemma activate_tx_Ok e v hash ua s r s' :
  activate_tx Verifier e v hash ua s = Ok (r, s') ->
  exists c u s1, t_codes s !! v = Some c /\ now e 1 < cd_Expires c /\ t_users s !! cd_User c = Some u /\
    (cd_Purpose c = "activation" -> u_Status u = USuspended) /\ (cd_Purpose c = "recovery" -> u_Status u = UActive) /\
    su_ID r.1 = cd_User c /\ r.2 = token e 1 /\
    t_users s1 = <[cd_User c := with_password hash UActive (now e 2) u]> (t_users s) /\ t_keys s1 = t_keys s /\
    t_sessions s1 = filter (fun kv => (ss_User kv.2 =s cd_User c) = false) (t_sessions s) /\
    t_codes s1 = filter (fun kv => (cd_User kv.2 =s cd_User c) = false) (t_codes s) /\
    createSession Verifier (token e 3) (cd_User c) (token e 1) (now e 2) (now e 4) ua 0 s1 = Ok (tt, s').
Proof.
  intros H. unfold activate_tx in H. apply tx_bind_Ok in H as (found & s1 & Hg & H). apply reads_Ok in Hg as [-> ->].
  unfold code_user in H. destruct (t_codes s !! v) as [c|] eqn:Hc; [|by apply fail_Ok in H]. cbn in H.
  destruct (now e 1 <? cd_Expires c) eqn:Hexp; [|by apply fail_Ok in H].
  destruct (t_users s !! cd_User c) as [u|] eqn:Hu; [|by apply fail_Ok in H]. cbn in H. tx_peel H.
  apply tx_bind_Ok in H as (n & s1 & Hup & H). unfold update_user in Hup. tx_peel Hup.
  apply (update_row_always t_users set_users _ _ _ _ _ u) in Hup as ->; [|done].
  do 2 (apply tx_bind_Ok in H as (? & s1 & Hd & H); unfold delete_sessions, delete_codes, delete_rows in Hd; apply modify_Ok in Hd as ->).
  apply tx_bind_Ok in H as (? & s1 & Hx & H). unfold auditAccount in Hx. apply insertAudit_Ok in Hx as [aud ->].
  apply tx_bind_Ok in H as ([] & s1 & Hcs & H). apply tx_ret_Ok in H as [<- <-].
  eexists c, u, _. split_and!; try exact Hcs; try done; try lia.
  - intros E. match goal with H : negb ((cd_Purpose c =s "activation") && _) = true |- _ => rename H into Ha end.
    rewrite E in Ha. cbn in Ha. apply negb_true_iff, negb_false_iff, bool_decide_eq_true in Ha. done.
  - intros E. match goal with H : negb ((cd_Purpose c =s "recovery") && _) = true |- _ => rename H into Ha end.
    rewrite E in Ha. cbn in Ha. apply negb_true_iff, negb_false_iff, bool_decide_eq_true in Ha. done.
Qed.

Lemma recovery_tx_Ok e code s w s' :
  owner_recovery_tx Verifier e code s = Ok (w, s') ->
  exists id u, t_users s !! id = Some u /\ identity s' = (<[id := bump_revisions (now e 0) u]> (t_users s), t_keys s) /\
    t_sessions s' = filter (fun kv => (ss_User kv.2 =s id) = false) (t_sessions s).
Proof.
  intros H. unfold owner_recovery_tx in H. apply tx_bind_Ok in H as ([id u] & s1 & Hg & H). apply get_row_Ok in Hg as [Hf ->].
  apply find_some in Hf as [Hin _]. rewrite <- list_elem_of_In, elem_of_map_to_list in Hin. cbn [fst] in H.
  apply tx_bind_Ok in H as (? & s1 & Hd & H). unfold delete_codes, delete_rows in Hd. apply modify_Ok in Hd as ->.
  apply tx_bind_Ok in H as (? & s1 & Hi & H). unfold insertCode in Hi. apply insert_row_Ok in Hi as [_ ->].
  apply tx_bind_Ok in H as (n & s1 & Hup & H). apply (update_row_always t_users set_users _ _ _ _ _ u) in Hup as ->; [|done].
  apply tx_bind_Ok in H as (? & s1 & Hd & H). unfold delete_sessions, delete_rows in Hd. apply modify_Ok in Hd as ->.
  apply insertAuditRow_Ok in H as [aud ->]. by exists id, u.
Qed.

Lemma change_password_tx_Ok e cur hash ua s tok s' :
  change_password_tx Verifier e cur hash ua s = Ok (tok, s') ->
  let id := su_ID (an_User cur) in
  exists u s1, t_users s !! id = Some u /\ u_AuthRevision u = an_AuthRevision cur /\ tok = token e 1 /\
    t_users s1 = <[id := with_password hash (u_Status u) (now e 0) u]> (t_users s) /\ t_keys s1 = t_keys s /\
    t_sessions s1 = filter (fun kv => (ss_User kv.2 =s id) = false) (t_sessions s) /\
    createSession Verifier (token e 3) id tok (now e 0) (now e 2) ua 0 s1 = Ok (tt, s').
Proof.
  intros H id. unfold change_password_tx in H. fold id in H.
  apply tx_bind_Ok in H as (n & s1 & Hup & H). tx_peel H.
  apply update_row_Ok in Hup as [(u & Hu & Hrev & _ & ->)|(-> & _ & _)]; [|done].
  apply tx_bind_Ok in H as (? & s1 & Hd & H). unfold delete_sessions, delete_rows in Hd. apply modify_Ok in Hd as ->.
  apply tx_bind_Ok in H as (? & s1 & Hx & H). unfold auditAccount in Hx. apply insertAudit_Ok in Hx as [aud ->].
  apply tx_bind_Ok in H as ([] & s1 & Hcs & H). apply tx_ret_Ok in H as [<- <-].
  eexists u, _. split_and!; try exact Hcs; try done. lia.
Qed.

Lemma update_profile_tx_Ok e cur email name ua changed s tok s' :
  update_profile_tx Verifier e cur email name ua changed s = Ok (tok, s') ->
  let id := su_ID (an_User cur) in
  exists u s1, t_users s !! id = Some u /\ u_AuthRevision u = an_AuthRevision cur /\
    s1 = set_users (<[id := with_profile email name (if changed then 1 else 0) (now e 0) u]> (t_users s)) s /\
    exists aud, if changed
      then exists s2, createSession Verifier (token e 1) id (token e 0) (now e 0) (now e 1) ua 0
             (set_sessions (filter (fun kv => (ss_User kv.2 =s id) = false) (t_sessions s)) s1) = Ok (tt, s2) /\ s' = set_audit aud s2
      else s' = set_audit aud s1.
Proof.
  intros H id. unfold update_profile_tx in H. fold id in H.
  apply tx_bind_Ok in H as (n & s1 & Hup & H). apply tx_bind_Ok in H as (? & s2 & Hn & H). apply require_Ok in Hn as [Hn ->].
  apply update_user_Ok in Hup as (u & Hu & Hrev & ->); [|lia].
  exists u. eexists. split_and!; [done|lia|done|].
  apply tx_bind_Ok in H as (? & s1 & Hc & H). apply tx_bind_Ok in H as (? & s2 & Hx & H). unfold auditAccount in Hx.
  apply insertAudit_Ok in Hx as [aud ->]. apply tx_ret_Ok in H as [_ <-]. exists aud. destruct changed.
  - exists s1. split; [|done].
    apply tx_bind_Ok in Hc as (? & s2 & Hd & Hc). unfold delete_sessions, delete_rows in Hd. apply modify_Ok in Hd as ->.
    apply tx_bind_Ok in Hc as ([] & s2 & Hcs & Hc). apply tx_ret_Ok in Hc as [_ <-]. exact Hcs.
  - apply tx_ret_Ok in Hc as [_ <-]. done.
Qed.

(** Every call of the account service leaves users and keys alone or rewrites
    one user's own row, once the gateway has its owner. *)
Lemma same_identity {A} (m : tx db A) s : keeps identity m -> own_row_changed s (snd (commit m s)).
Proof. intros Hm. left. by apply keeps_commit. Qed.

Lemma created_identity tok id tk n c ua x s w s' : createSession Verifier tok id tk n c ua x s = Ok (w, s') -> identity s' = identity s.
Proof. intros H. eapply (createSession_keeps identity); [done|exact H]. Qed.

Lemma startSession_identity e u ua x s : identity (snd (startSession Verifier e u ua x s)) = identity s.
Proof.
  unfold startSession. rewrite <- (keeps_commit identity (createSession Verifier (token e 1) (su_ID u) (token e 0) (now e 2) (now e 3) ua x) s);
    [by destruct (commit _ s) as [[|] ?]|keeps_tac].
Qed.

Lemma recordLoginFailure_identity su l n s : identity (snd (recordLoginFailure Verifier su l n s)) = identity s.
Proof. apply keeps_commit. unfold record_failure_tx. keeps_tac. Qed.

Lemma recordLoginFailures_identity email source n1 n2 s : identity (snd (recordLoginFailures Verifier email source n1 n2 s)) = identity s.
Proof.
  unfold recordLoginFailures. rewrite <- (recordLoginFailure_identity (source_subject source) maxSourceFailures n1 s).
  destruct (recordLoginFailure _ _ _ _ s) as [[|] s1]; [apply recordLoginFailure_identity|done].
Qed.

Lemma forget_failures_identity email s : identity (forget_failures Verifier email s) = identity s.
Proof. apply keeps_commit. keeps_tac. Qed.

Lemma own_row_of s s' s1 id u u' : t_users s !! id = Some u -> own_change u u' -> identity s' = identity s1 ->
  t_users s1 = <[id := u']> (t_users s) -> t_keys s1 = t_keys s -> own_row_changed s s'.
Proof. intros Hu Hc He H1 H2. right. exists id, u, u'. split_and!; [done..|]. rewrite He. unfold identity. by rewrite H1, H2. Qed.

Lemma account_perform_own_row e op s :
  owner_exists s = true -> own_row_changed s (account_perform Verifier ToLower ParseAddress IDKey dummyHash e op s).
Proof.
  intros Ho. destruct op as [busy i seen|tok|busy i seen|busy i seen|tok|uid sid|code|busy cur old new ua seen|busy cur i seen];
    cbn [account_perform].
  - rewrite claim_refused by done. by left.
  - unfold SessionInfo. destruct (t_sessions s !! _ ≫= _) as [[x u]|]; [|by left]. case_match; [|by left]. apply same_identity. keeps_tac.
  - left. unfold Login. destruct (login_check _ _ _ _ _ _ _ _ _) as [[[id u]|]|]; [| |done].
    + by rewrite startSession_identity, forget_failures_identity.
    + pose proof (recordLoginFailures_identity (ToLower (TrimSpace (li_Email i))) (loginSource (li_Source i)) (now e 2) (now e 3) s) as Hr.
      by destruct (recordLoginFailures _ _ _ _ _ s) as [[|] s1].
  - unfold Activate. case_match; [|by left]. unfold commit. destruct (activate_tx _ _ _ _ _ s) as [[r s']|] eqn:E; [|by left].
    apply activate_tx_Ok in E as (c & u & s1 & _ & _ & Hu & _ & _ & _ & _ & H1 & H2 & _ & _ & Hcs).
    apply created_identity in Hcs. eapply own_row_of; [exact Hu| |exact Hcs|exact H1|exact H2]. split_and!; auto.
  - apply same_identity. keeps_tac.
  - unfold RevokeSession. apply same_identity. keeps_tac.
  - unfold PrepareOwnerRecovery, commit. destruct (owner_recovery_tx _ _ _ s) as [[r s']|] eqn:E; [|by left].
    apply recovery_tx_Ok in E as (id & u & Hu & He & _). right. exists id, u, (bump_revisions (now e 0) u). split_and!; auto. split_and!; auto.
  - unfold ChangePassword. case_match; [|by left]. unfold commit. destruct (change_password_tx _ _ _ _ _ s) as [[r s']|] eqn:E; [|by left].
    apply change_password_tx_Ok in E as (u & s1 & Hu & _ & _ & H1 & H2 & _ & Hcs).
    apply created_identity in Hcs. eapply own_row_of; [exact Hu| |exact Hcs|exact H1|exact H2]. split_and!; auto.
  - unfold UpdateProfile. case_match; [|by left]. destruct a as [[email name] changed]. unfold commit.
    destruct (update_profile_tx _ _ _ _ _ _ _ s) as [[r s']|] eqn:E; [|by left]. cbn.
    apply update_profile_tx_Ok in E as (u & s1 & Hu & _ & -> & aud & Hp).
    right. exists (su_ID (an_User cur)), u, (with_profile email name (if changed then 1 else 0) (now e 0) u). split_and!; [exact Hu| |destruct changed; [|by subst s']].
    + by split_and!; [| |left].
    + destruct Hp as (s2 & Hcs & ->). apply created_identity in Hcs. exact Hcs.
Qed.
End SessionFacts.
