(* ===== verification/Identity.v ===== *)
(** Users, keys and accounts together: the invariant every sequence of their
    operations keeps (one active owner, keys within their owner's grants), and
    who may change whom. *)
From S2P Require Import Prelude GoStd Json Policy PathMatch Grants Store Pricing Admission Settlement Reservations Lifecycle Keys Users Credentials Sessions.

(** * The invariant *)

(** A key no wider than grants: every scope, connection and pattern of it is
    covered. *)
Definition within (k : KeyRow) (g : Grants) : Prop :=
  (forall x, In x (k_Scopes k) -> In x (g_Scopes g)) /\
  (forall m, In m (k_Models k) -> exists allowed, In allowed (g_Models g) /\ pattern_allowed m allowed = true) /\
  (forall x, In x (k_Connections k) -> In x (g_Connections g)).

Definition covered (k : KeyRow) (g : Grants) : Prop := g_Unrestricted g = true \/ within k g.

Definition users_ok (users : gmap string UserRow) : Prop :=
  (exists id u, users !! id = Some u /\ u_Role u = Owner /\ u_Status u = UActive /\
     forall j v, users !! j = Some v -> u_Role v = Owner -> j = id) /\
  (forall id u, users !! id = Some u -> g_Unrestricted (u_Grants u) = bool_decide (u_Role u = Owner)).

Definition keys_covered (users : gmap string UserRow) (keys : gmap string KeyRow) : Prop :=
  forall id k, keys !! id = Some k -> exists u, users !! k_Owner k = Some u /\ covered k (u_Grants u).

Definition identity_ok (s : db) : Prop := users_ok (t_users s) /\ keys_covered (t_users s) (t_keys s).

(** * Operations *)

Inductive user_operation :=
| UserCreate (actor : User) (i : CreateInput)
| UserUpdateGrants (actor : User) (id : string) (revision : Z) (g : Grants)
| UserUpdate (actor : User) (id : string) (revision : Z) (i : UpdateInput)
| UserIssueCode (actor : User) (id purpose : string)
| UserTransferOwner (actor : User) (id : string) (revision : Z).

(** A call of one of the three services. *)
Inductive identity_operation :=
| OnUser (op : user_operation)
| OnKey (nanos : Z) (op : key_operation)
| OnAccount (op : account_operation).

Definition actor_of (op : user_operation) : User :=
  match op with
  | UserCreate a _ | UserUpdateGrants a _ _ _ | UserUpdate a _ _ _ | UserIssueCode a _ _ | UserTransferOwner a _ _ => a
  end.

Section Identity.
Context (Verifier : string -> string) (parse_time : string -> option Z).
Context (ToLower : string -> string) (ParseAddress : string -> option string).
Context (IDKey : string -> string -> string) (dummyHash : string).

Definition user_perform (e : env) (op : user_operation) (s : db) : db :=
  match op with
  | UserCreate a i => snd (CreateUser Verifier ToLower ParseAddress e a i s)
  | UserUpdateGrants a id r g => snd (UpdateGrants e a id r g s)
  | UserUpdate a id r i => snd (UpdateUser ToLower ParseAddress e a id r i s)
  | UserIssueCode a id p => snd (IssueCode Verifier e a id p s)
  | UserTransferOwner a id r => snd (TransferOwner e a id r s)
  end.

Definition identity_perform (e : env) (op : identity_operation) (s : db) : db :=
  match op with
  | OnUser op => user_perform e op s
  | OnKey nanos op => key_perform Verifier parse_time e nanos op s
  | OnAccount op => account_perform Verifier ToLower ParseAddress IDKey dummyHash e op s
  end.

Definition identity_run (calls : list (env * identity_operation)) (s : db) : db :=
  fold_left (fun s c => identity_perform c.1 c.2 s) calls s.

(** Every user call either leaves users and keys alone or commits one of the
    five transactions. *)
Lemma user_perform_cases e op s (P : db -> Prop) :
  P s ->
  (forall email name role g v s', create_user_tx Verifier e (actor_of op) email name role g s = Ok (v, s') -> P s') ->
  (forall id rev g a s', g_Unrestricted g = false -> update_grants_tx e (actor_of op) id rev g s = Ok (a, s') -> P s') ->
  (forall id rev i a s', id <> us_ID (actor_of op) -> update_user_tx ToLower ParseAddress e (actor_of op) id rev i s = Ok (a, s') -> P s') ->
  (forall id p w s', issue_code_tx Verifier e (actor_of op) id p s = Ok (w, s') -> P s') ->
  (forall id rev w s', us_ID (actor_of op) <> id -> transfer_tx e (actor_of op) id rev s = Ok (w, s') -> P s') ->
  P (user_perform e op s).
Proof.
  intros H0 Hc Hg Hu Hi Ht. destruct op as [a i|a id rev g|a id rev i|a id p|a id rev]; cbn.
  - unfold CreateUser. match goal with |- context [match ?c with Ok _ => _ | Err _ => _ end] => destruct c as [[email name]|] end; [|done].
    unfold commit. destruct (create_user_tx _ _ _ _ _ _ _ s) as [[v s']|] eqn:E; [|done]. by eapply Hc.
  - unfold UpdateGrants. destruct (validateUserGrants _); [|done]. unfold commit.
    destruct (update_grants_tx _ _ _ _ _ s) as [[v s']|] eqn:E; [|done]. by eapply (Hg id rev (mkGrants false (g_Scopes g) (g_Models g) (g_Connections g)) v s' eq_refl).
  - unfold UpdateUser. destruct (id =s us_ID a) eqn:En; [done|]. apply String.eqb_neq in En. unfold commit.
    destruct (update_user_tx _ _ _ _ _ _ _ s) as [[v s']|] eqn:E; [|done]. by eapply Hu.
  - unfold IssueCode. destruct (_ && _); [done|]. unfold commit.
    destruct (issue_code_tx _ _ _ _ _ s) as [[v s']|] eqn:E; [|done]. by eapply Hi.
  - unfold TransferOwner. destruct (us_ID a =s id) eqn:En; [done|]. apply String.eqb_neq in En. unfold commit.
    destruct (transfer_tx _ _ _ _ s) as [[v s']|] eqn:E; [|done]. by eapply Ht.
Qed.

(** ** Clamping *)

Lemma clamp_within g t k : within (clamp g t k) g /\ k_Owner (clamp g t k) = k_Owner k.
Proof.
  unfold clamp.
  assert (forall (vs ceiling : list string) x, In x (unique (users_intersection vs ceiling)) -> In x ceiling) as Hi.
  { intros vs ceiling x Hx. rewrite unique_In in Hx. unfold users_intersection in Hx. apply filter_In in Hx as [_ Hx].
    rewrite users_subset_spec in Hx. apply Hx. by left. }
  assert (forall x, In x (unique (modelIntersection (k_Models k) (g_Models g))) -> exists allowed, In allowed (g_Models g) /\ pattern_allowed x allowed = true) as Hm.
  { intros x Hx. rewrite unique_In in Hx. by apply modelIntersection_In in Hx as [_ Hx]. }
  destruct (bool_decide _ && bool_decide _ && bool_decide _) eqn:E; (split; [|done]).
  - rewrite !andb_true_iff, !bool_decide_eq_true in E. destruct E as [[E1 E2] E3].
    split_and!; [rewrite <- E1; apply Hi|rewrite <- E2; apply Hm|rewrite <- E3; apply Hi].
  - split_and!; [apply Hi|apply Hm|apply Hi].
Qed.


(** * Preservation *)

Lemma covered_grants k g g' : g_Scopes g' = g_Scopes g -> g_Models g' = g_Models g -> g_Connections g' = g_Connections g ->
  within k g -> within k g'.
Proof. intros E1 E2 E3. unfold within. by rewrite E1, E2, E3. Qed.

Lemma within_encoded k b g : within k g -> within k (encoded b g).
Proof.
  intros (H1 & H2 & H3). unfold within, encoded. cbn. split_and!.
  - intros x Hx. apply unique_In. auto.
  - intros m Hm. destruct (H2 m Hm) as (a & Ha & Hp). exists a. split; [by apply unique_In|done].
  - intros x Hx. apply unique_In. auto.
Qed.

(** A user changed without losing grants, the keys untouched. *)
Lemma keys_covered_same users keys id u u' :
  users !! id = Some u -> u_Grants u' = u_Grants u -> keys_covered users keys -> keys_covered (<[id := u']> users) keys.
Proof.
  intros Hu Hg Hk kid k Hkid. destruct (Hk kid k Hkid) as (v & Hv & Hc). destruct (decide (id = k_Owner k)) as [E|Hne].
  - rewrite <- E, lookup_insert_eq. exists u'. split; [done|]. rewrite <- E, Hu in Hv. injection Hv as ->. by rewrite Hg.
  - rewrite lookup_insert_ne by done. eauto.
Qed.

(** A user restricted to new grants, and the keys of that user clamped. *)
Lemma keys_covered_clamp users keys m id u' g t :
  keys_covered users keys -> (g_Unrestricted (u_Grants u') = true \/ forall k, within k g -> within k (u_Grants u')) ->
  (forall kid k', m !! kid = Some k' <-> exists k, keys !! kid = Some k /\ k' = if k_Owner k =s id then clamp g t k else k) ->
  keys_covered (<[id := u']> users) m.
Proof.
  intros Hk Hu Hm kid k' Hkid. apply Hm in Hkid as (k & Hkid & ->). destruct (Hk kid k Hkid) as (v & Hv & Hc).
  destruct (k_Owner k =s id) eqn:E.
  - apply String.eqb_eq in E. destruct (clamp_within g t k) as [Hw Ho]. rewrite Ho, E, lookup_insert_eq. exists u'. split; [done|].
    destruct Hu as [Hu|Hu]; [by left|right; auto].
  - apply String.eqb_neq in E. rewrite lookup_insert_ne by done. eauto.
Qed.

(** A changed user keeps the single owner when its role and, for the owner,
    its status stay. *)
Lemma users_ok_same users id u u' :
  users_ok users -> users !! id = Some u -> u_Role u' = u_Role u -> (u_Role u = Owner -> u_Status u' = u_Status u) ->
  g_Unrestricted (u_Grants u') = g_Unrestricted (u_Grants u) -> users_ok (<[id := u']> users).
Proof.
  intros [(o & ow & Ho & Hr & Hs & Hone) Hun] Hu Hrole Hst Hg. split.
  - destruct (decide (id = o)) as [->|Hne].
    + exists o, u'. rewrite lookup_insert_eq. simplify_eq. split_and!; [done|congruence|rewrite Hst; done|].
      intros j v Hj Hv. destruct (decide (o = j)) as [<-|Hj']; [done|]. rewrite lookup_insert_ne in Hj by done. by eapply Hone.
    + exists o, ow. rewrite lookup_insert_ne by done. split_and!; try done. intros j v Hj Hv. destruct (decide (id = j)) as [<-|Hj'].
      * rewrite lookup_insert_eq in Hj. injection Hj as <-. eapply Hone; [exact Hu|congruence].
      * rewrite lookup_insert_ne in Hj by done. by eapply Hone.
  - intros j v Hj. destruct (decide (id = j)) as [<-|Hj'].
    + rewrite lookup_insert_eq in Hj. injection Hj as <-. rewrite Hg, Hrole. by apply (Hun id).
    + rewrite lookup_insert_ne in Hj by done. by apply (Hun j).
Qed.

Lemma identity_eq s' users keys : identity s' = (users, keys) -> t_users s' = users /\ t_keys s' = keys.
Proof. intros H. by injection H. Qed.

Lemma user_perform_ok e op s : identity_ok s -> identity_ok (user_perform e op s).
Proof.
  intros [Hu Hk]. unfold identity_ok. apply user_perform_cases; [done|..].
  - intros email name role g v s' H. apply create_user_tx_Ok in H as (r & a & _ & Ha & Hst & Hrole & _ & Hn & Hid).
    apply identity_eq in Hid as [-> ->]. destruct Hu as [(o & ow & Ho & Hr & Hs & Hone) Hun]. split.
    + assert (r <> Owner) as Hro by (destruct Hrole as [[_ ?]|[_ ->]]; done). split.
      * exists o, ow. rewrite lookup_insert_ne by (intros <-; congruence). split_and!; try done.
        intros j w Hj Hw. destruct (decide (("usr_" +:+ token e 0)%string = j)) as [<-|Hj'].
        -- rewrite lookup_insert_eq in Hj. injection Hj as <-. done.
        -- rewrite lookup_insert_ne in Hj by done. by eapply Hone.
      * intros j w Hj. destruct (decide (("usr_" +:+ token e 0)%string = j)) as [<-|Hj'].
        -- rewrite lookup_insert_eq in Hj. injection Hj as <-. cbn. by rewrite bool_decide_eq_false_2.
        -- rewrite lookup_insert_ne in Hj by done. by apply (Hun j).
    + intros kid k Hkid. destruct (Hk kid k Hkid) as (w & Hw & Hc). exists w. rewrite lookup_insert_ne; [done|]. intros E. by rewrite E, Hw in Hn.
  - intros id rev g a s' Hg H. apply update_grants_tx_Ok in H as (u & m & Hid & _ & _ & He & _ & Hm).
    apply identity_eq in He as [-> ->]. split; [by eapply users_ok_same|]. eapply keys_covered_clamp; [done| |exact Hm].
    right. intros k. apply within_encoded.
  - intros id rev i a s' Hne H. apply update_user_tx_Ok in H as (u & email & name & st & Hid & Hent & He).
    apply identity_eq in He as [-> ->]. split; [|by eapply keys_covered_same]. eapply users_ok_same; try done.
    intros Hown. exfalso. destruct Hent as (b & Hb & _ & [Hb1|[_ Hb1]]); [|congruence].
    destruct Hu as [(o & ow & _ & _ & _ & Hone) _]. apply Hne. by rewrite (Hone _ _ Hid Hown), (Hone _ _ Hb Hb1).
  - intros id p w s' H. apply issue_code_tx_Ok in H as (u & Hid & _ & [He|He]).
    + apply identity_eq in He as [-> ->]. done.
    + apply identity_eq in He as [-> ->]. split; [by eapply users_ok_same|by eapply keys_covered_same].
  - intros id rev w s' Hne H. apply transfer_tx_Ok in H as (a & u & m & Ha & Hast & Hown & Hid & Hr & Hst & He & Hm); [|done].
    apply identity_eq in He as [-> ->]. destruct Hu as [(o & ow & _ & _ & _ & Hone) Hun].
    pose proof (Hone _ _ Ha Hown) as Eo. split.
    + split.
      * eexists id, _. rewrite lookup_insert_eq. split_and!; [done|done|done|]. intros j v Hj Hv.
        destruct (decide (id = j)) as [<-|Hj1]; [done|]. rewrite lookup_insert_ne in Hj by done.
        destruct (decide (us_ID (actor_of op) = j)) as [<-|Hj2]; [rewrite lookup_insert_eq in Hj; by injection Hj as <-|].
        rewrite lookup_insert_ne in Hj by done. exfalso. apply Hj2. by rewrite (Hone _ _ Hj Hv).
      * intros j v Hj. destruct (decide (id = j)) as [<-|Hj1]; [rewrite lookup_insert_eq in Hj; by injection Hj as <-|].
        rewrite lookup_insert_ne in Hj by done.
        destruct (decide (us_ID (actor_of op) = j)) as [<-|Hj2]; [rewrite lookup_insert_eq in Hj; by injection Hj as <-|].
        rewrite lookup_insert_ne in Hj by done. by apply (Hun j).
    + intros kid k' Hkid. assert (keys_covered (<[us_ID (actor_of op) := demote (now e 0) a]> (t_users s)) m) as Hk1.
      { eapply keys_covered_clamp; [done| |exact Hm]. right. intros k Hw. exact Hw. }
      destruct (Hk1 kid k' Hkid) as (v & Hv & Hc). destruct (decide (id = k_Owner k')) as [E|Hn].
      * rewrite <- E, lookup_insert_eq. eexists. split; [done|by left].
      * rewrite lookup_insert_ne by done. eauto.
Qed.

Lemma allowed_covered usr i k : 
  (g_Unrestricted (u_Grants usr) = true \/
   subset (in_Scopes i) (g_Scopes (u_Grants usr)) = true /\ modelSubset (in_ModelPatterns i) (g_Models (u_Grants usr)) = true /\
   subset (in_ConnectionIDs i) (g_Connections (u_Grants usr)) = true) ->
  k_Scopes k = in_Scopes i -> k_Models k = in_ModelPatterns i -> k_Connections k = in_ConnectionIDs i -> covered k (u_Grants usr).
Proof.
  intros [H|(H1 & H2 & H3)] E1 E2 E3; [by left|right]. unfold within. rewrite E1, E2, E3.
  split_and!; [by apply subset_spec|by apply modelSubset_spec|by apply subset_spec].
Qed.

Lemma keys_covered_insert users keys id k :
  keys_covered users keys -> (exists u, users !! k_Owner k = Some u /\ covered k (u_Grants u)) -> keys_covered users (<[id := k]> keys).
Proof.
  intros Hk Hc j k' Hj. destruct (decide (id = j)) as [<-|Hne]; [rewrite lookup_insert_eq in Hj; by injection Hj as <-|].
  rewrite lookup_insert_ne in Hj by done. by apply (Hk j).
Qed.

Lemma key_perform_ok e nanos op s : identity_ok s -> identity_ok (key_perform Verifier parse_time e nanos op s).
Proof.
  intros [Hu Hk]. unfold identity_ok. apply (key_perform_cases Verifier parse_time); [done|..].
  - intros owner i expires w s' H. destruct (newSecret Verifier (token e 1) (token e 2)) as [[tok sel] ver] eqn:Hn.
    eapply (create_tx_Ok Verifier parse_time) in H; [|exact Hn]. destruct H as (_ & _ & Hr & au & ->).
    apply (require_allowed_Ok Verifier parse_time) in Hr as [_ (usr & Husr & _ & Hal)]. cbn. split; [done|].
    apply keys_covered_insert; [done|]. exists usr. split; [done|]. by eapply allowed_covered.
  - intros owner id rev i expires w s' H. apply (update_tx_Ok Verifier parse_time) in H as (k & m & au & Hkid & Ho & _ & Hr & -> & _).
    apply (require_allowed_Ok Verifier parse_time) in Hr as [_ (usr & Husr & _ & Hal)]. cbn. split; [done|].
    apply keys_covered_insert; [done|]. exists usr. cbn. rewrite Ho. split; [done|]. by eapply allowed_covered.
  - intros owner id rev w s' H. apply (revoke_tx_Ok Verifier parse_time) in H as (k & m & au & Hkid & -> & _). cbn. split; [done|].
    apply keys_covered_insert; [done|]. exact (Hk id k Hkid).
  - intros owner id rev w s' H. destruct (newSecret Verifier (token e 0) (token e 1)) as [[tok sel] ver] eqn:Hn.
    eapply (rotate_tx_Ok Verifier parse_time) in H; [|exact Hn]. destruct H as (k & m & au & Hkid & _ & _ & _ & -> & _). cbn. split; [done|].
    apply keys_covered_insert; [done|]. exact (Hk id k Hkid).
Qed.

Lemma owner_of_ok s : identity_ok s -> owner_exists s = true.
Proof. intros [[(id & u & Hu & Hr & Hs & _) _] _]. apply owner_exists_spec. eauto. Qed.

Lemma account_perform_ok e op s : identity_ok s -> identity_ok (account_perform Verifier ToLower ParseAddress IDKey dummyHash e op s).
Proof.
  intros Hok. destruct (account_perform_own_row Verifier ToLower ParseAddress IDKey dummyHash e op s (owner_of_ok s Hok))
    as [He|(id & u & u' & Hu & (Hr & Hg & Hst) & He)]; apply identity_eq in He as [E1 E2]; unfold identity_ok; rewrite E1, E2; [done|].
  destruct Hok as [Hu1 Hk]. split; [|by eapply keys_covered_same].
  eapply users_ok_same; [exact Hu1|exact Hu|done| |by rewrite Hg].
  intros Hown. destruct Hu1 as [(o & ow & Ho & _ & Hs & Hone) _]. pose proof (Hone _ _ Hu Hown) as ->.
  rewrite Hu in Ho. injection Ho as ->. destruct Hst as [|Hst]; [done|by rewrite Hst].
Qed.

(** C28: Identity stays in order under any sequence of user, key and account
    calls, by anyone, with any interleaving of their reads: there is exactly
    one owner, active and alone unrestricted, and every key's scopes, patterns
    and connections stay covered by its owner's grants. *)
Theorem identity_kept (calls : list (env * identity_operation)) (s : db) :
  identity_ok s -> identity_ok (identity_run calls s).
Proof.
  unfold identity_run. revert s. induction calls as [|[e op] calls IH]; intros s Hs; [done|]. cbn. apply IH.
  destruct op; [by apply user_perform_ok|by apply key_perform_ok|by apply account_perform_ok].
Qed.

(** C29: Nobody gains authority: a user call changes or creates a user row only
    for an active actor that is the owner, or an admin acting on (or
    creating) a member; nobody creates an owner, and only the owner changes a
    role. *)
Theorem user_writes_authorised (e : env) (op : user_operation) (s : db) (id : string) :
  t_users (user_perform e op s) !! id <> t_users s !! id ->
  exists a u', t_users s !! us_ID (actor_of op) = Some a /\ u_Status a = UActive /\ t_users (user_perform e op s) !! id = Some u' /\
    match t_users s !! id with
    | None => u_Role a = Owner /\ u_Role u' <> Owner \/ u_Role a = Admin /\ u_Role u' = Member
    | Some u => (u_Role a = Owner \/ u_Role a = Admin /\ u_Role u = Member) /\ (u_Role u' = u_Role u \/ u_Role a = Owner)
    end.
Proof.
  apply (user_perform_cases e op s (fun s' => t_users s' !! id <> t_users s !! id -> exists a u',
    t_users s !! us_ID (actor_of op) = Some a /\ u_Status a = UActive /\ t_users s' !! id = Some u' /\
    match t_users s !! id with
    | None => u_Role a = Owner /\ u_Role u' <> Owner \/ u_Role a = Admin /\ u_Role u' = Member
    | Some u => (u_Role a = Owner \/ u_Role a = Admin /\ u_Role u = Member) /\ (u_Role u' = u_Role u \/ u_Role a = Owner)
    end)); [done|..].
  - intros email name role g v s' H. apply create_user_tx_Ok in H as (r & a & _ & Ha & Hst & Hrole & _ & Hn & Hid).
    apply identity_eq in Hid as [-> _]. destruct (decide (("usr_" +:+ token e 0)%string = id)) as [<-|Hne].
    + intros _. eexists a, _. rewrite lookup_insert_eq, Hn. done.
    + by rewrite lookup_insert_ne.
  - intros j rev g b s' _ H. apply update_grants_tx_Ok in H as (u & m & Hid & (a & Ha & Hst & Hr) & _ & He & _).
    apply identity_eq in He as [-> _]. destruct (decide (j = id)) as [->|Hne]; [|by rewrite lookup_insert_ne].
    intros _. eexists a, _. rewrite lookup_insert_eq, Hid. split_and!; try done. by left.
  - intros j rev i b s' _ H. apply update_user_tx_Ok in H as (u & email & name & st & Hid & (a & Ha & Hst & Hr) & He).
    apply identity_eq in He as [-> _]. destruct (decide (j = id)) as [->|Hne]; [|by rewrite lookup_insert_ne].
    intros _. eexists a, _. rewrite lookup_insert_eq, Hid. split_and!; try done. by left.
  - intros j p w s' H. apply issue_code_tx_Ok in H as (u & Hid & (a & Ha & Hst & Hr) & [He|He]); apply identity_eq in He as [-> _]; [done|].
    destruct (decide (j = id)) as [->|Hne]; [|by rewrite lookup_insert_ne].
    intros _. eexists a, _. rewrite lookup_insert_eq, Hid. split_and!; try done. by left.
  - intros j rev w s' Hne H. apply transfer_tx_Ok in H as (a & u & m & Ha & Hast & Hown & Hid & Hr & Hst & He & Hm); [|done].
    apply identity_eq in He as [-> _]. destruct (decide (j = id)) as [->|Hn1].
    + intros _. eexists a, _. rewrite lookup_insert_eq, Hid. split_and!; auto.
    + rewrite lookup_insert_ne by done. destruct (decide (us_ID (actor_of op) = id)) as [<-|Hn2].
      * intros _. eexists a, _. rewrite lookup_insert_eq, Ha. split_and!; auto.
      * by rewrite lookup_insert_ne.
Qed.

(** New grants take effect at once: after a successful [UpdateGrants]
    every key of the user is within them and the user has no session. *)
Theorem UpdateGrants_takes_effect (e : env) (actor : User) (id : string) (revision : Z) (g : Grants) (s s' : db) (v : UserView) :
  UpdateGrants e actor id revision g s = (Ok v, s') ->
  (forall kid k, t_keys s' !! kid = Some k -> k_Owner k = id -> within k g) /\
  (forall sid x, t_sessions s' !! sid = Some x -> ss_User x <> id).
Proof.
  unfold UpdateGrants. destruct (validateUserGrants _); [|done]. unfold commit.
  destruct (update_grants_tx _ _ _ _ _ s) as [[act s1]|] eqn:E; [|done]. intros [= _ <-].
  apply update_grants_tx_Ok in E as (usr & m & _ & _ & _ & He & Hs & Hm). apply identity_eq in He as [_ ->]. split; [|done].
  intros kid k Hk Ho. apply Hm in Hk as (k0 & _ & ->). destruct (k_Owner k0 =s id) eqn:E.
  - destruct (clamp_within (mkGrants false (g_Scopes g) (g_Models g) (g_Connections g)) (now e 0) k0) as [Hw _]. by eapply covered_grants.
  - apply String.eqb_neq in E. done.
Qed.
End Identity.
