(* ===== verification/Accounts.v ===== *)
(** Who is signed in: a session is worth no more than the authority it was
    opened under. Any change of a user's password, role, status, grants or
    email ends every session opened before it; a login or a password change
    goes by the password in force when it is written, whatever happened since
    it was read; a code works once. *)
From S2P Require Import Prelude GoStd Json Policy PathMatch Grants Store Keys Users Credentials Sessions Identity.

(** * Authority *)

(** What a session of a user lends. *)
Definition authority (u : UserRow) := (fold_case (u_Email u), u_Password u, u_Role u, u_Status u, u_Grants u).

(** A user's row may only move on, and its authority changes only together
    with its revision. *)
Definition moves_on (u u' : UserRow) : Prop :=
  u_AuthRevision u < u_AuthRevision u' \/ u_AuthRevision u = u_AuthRevision u' /\ authority u = authority u'.

Definition users_move_on (s s' : db) : Prop :=
  forall id u, t_users s !! id = Some u -> exists u', t_users s' !! id = Some u' /\ moves_on u u'.

(** Revisions count from one, and no session is ahead of its user. *)
Definition sessions_ok (s : db) : Prop :=
  (forall id u, t_users s !! id = Some u -> 0 < u_AuthRevision u) /\
  forall v x, t_sessions s !! v = Some x -> exists u, t_users s !! ss_User x = Some u /\ ss_AuthRevision x <= u_AuthRevision u.

Definition follows (s s' : db) : Prop := users_move_on s s' /\ (sessions_ok s -> sessions_ok s').

#[export] Instance moves_on_preorder : PreOrder moves_on.
Proof.
  split; [by right|]. intros u v w [H1|[H1 E1]] [H2|[H2 E2]]; unfold moves_on; [left; lia..|]. right. split; [lia|by rewrite E1].
Qed.

#[export] Instance follows_preorder : PreOrder follows.
Proof.
  split.
  - intros s. split; [|done]. intros id u Hu. by exists u.
  - intros s1 s2 s3 [H1 K1] [H2 K2]. split; [|auto]. intros id u Hu. destruct (H1 id u Hu) as (v & Hv & M1).
    destruct (H2 id v Hv) as (w & Hw & M2). exists w. split; [done|by transitivity v].
Qed.

Lemma follows_same s s' : (t_users s', t_sessions s') = (t_users s, t_sessions s) -> follows s s'.
Proof. intros [= E1 E2]. split; unfold users_move_on, sessions_ok; rewrite E1, ?E2; [|done]. intros id u Hu. by exists u. Qed.

(** ** Statements *)

Lemma follows_insert s id u' :
  (forall u, t_users s !! id = Some u -> moves_on u u') -> (t_users s !! id = None -> 0 < u_AuthRevision u') ->
  follows s (set_users (<[id := u']> (t_users s)) s).
Proof.
  intros Hm Hn. assert (users_move_on s (set_users (<[id := u']> (t_users s)) s)) as Hmove.
  { intros j u Hj. cbn. destruct (decide (id = j)) as [<-|Hne].
    - exists u'. rewrite lookup_insert_eq. auto.
    - exists u. by rewrite lookup_insert_ne. }
  split; [done|]. intros [Hpos Hok]. split.
  - intros j u Hj. cbn in Hj. destruct (decide (id = j)) as [<-|Hne].
    + rewrite lookup_insert_eq in Hj. injection Hj as <-. destruct (t_users s !! id) as [v|] eqn:Hv; [|auto].
      pose proof (Hpos id v Hv). destruct (Hm v eq_refl) as [?|[? _]]; lia.
    + rewrite lookup_insert_ne in Hj by done. by apply (Hpos j).
  - intros v x Hx. destruct (Hok v x Hx) as (u & Hu & Hle).
    destruct (Hmove _ u Hu) as (w & Hw & [?|[? _]]); exists w; (split; [done|lia]).
Qed.

Lemma evolves_insert_user id u err : 0 < u_AuthRevision u -> evolves follows (insert_user id u err).
Proof. intros Hp s w s' (Hn & _ & ->)%insert_user_Ok. apply follows_insert; [|done]. intros v Hv. congruence. Qed.

Lemma evolves_update_row_users id cond f : (forall u, cond u = true -> moves_on u (f u)) -> evolves follows (update_row t_users set_users id cond f).
Proof.
  intros Hm s w s' H. apply update_row_Ok in H as [(u & Hu & Hc & _ & ->)|(_ & -> & _)]; [|done].
  apply follows_insert; [|congruence]. intros v Hv. rewrite Hu in Hv. injection Hv as <-. auto.
Qed.

Lemma evolves_update_user id cond f err : (forall u, cond u = true -> moves_on u (f u)) -> evolves follows (update_user id cond f err).
Proof.
  intros Hm. unfold update_user. repeat (apply evolves_bind; [apply _|apply evolves_still; [apply _|auto with keeps]|intros ?]).
  by apply evolves_update_row_users.
Qed.

Lemma evolves_delete_sessions cond : evolves follows (delete_rows t_sessions set_sessions cond).
Proof.
  intros s w s' ->%modify_Ok. split; [intros id u Hu; by exists u|]. intros [Hpos Hok]. split; [done|]. intros v x [Hx _]%map_lookup_filter_Some. by apply (Hok v).
Qed.

Lemma evolves_update_sessions v cond f :
  (forall x, ss_User (f x) = ss_User x /\ ss_AuthRevision (f x) = ss_AuthRevision x) -> evolves follows (update_row t_sessions set_sessions v cond f).
Proof.
  intros Hf s w s' H. apply update_row_Ok in H as [(x & Hx & _ & _ & ->)|(_ & -> & _)]; [|done].
  split; [intros id u Hu; by exists u|]. intros [Hpos Hok]. split; [done|]. intros k y Hy. cbn in Hy. destruct (decide (v = k)) as [<-|Hne].
  - rewrite lookup_insert_eq in Hy. injection Hy as <-. destruct (Hf x) as [-> ->]. by apply (Hok v).
  - rewrite lookup_insert_ne in Hy by done. by apply (Hok k).
Qed.

Lemma createSession_Ok Verifier tok id tk n c ua x s w s' :
  createSession Verifier tok id tk n c ua x s = Ok (w, s') ->
  exists u, t_users s !! id = Some u /\ u_Status u = UActive /\ (x = 0 \/ u_AuthRevision u = x) /\ t_sessions s !! Verifier tk = None /\
    s' = set_sessions (<[Verifier tk := mkSessionRow ("ses_" +:+ tok) id (c + sessionLifetime) n n n (u_AuthRevision u)
                                          (truncateUTF8 ua 200)]> (t_sessions s)) s.
Proof.
  intros H. unfold createSession in H. apply tx_bind_Ok in H as (s0 & s1 & Hg & H). apply reads_Ok in Hg as [-> ->].
  destruct (t_users s !! id) as [u|]; [|by apply fail_Ok in H]. destruct (_ && _) eqn:E; [|by apply fail_Ok in H]. tx_peel H.
  apply insert_row_Ok in H as [Hn ->]. rewrite andb_true_iff, orb_true_iff, bool_decide_eq_true in E. destruct E as [E1 E2].
  exists u. split_and!; try done. lia.
Qed.

Lemma evolves_createSession Verifier tok id tk n c ua x : evolves follows (createSession Verifier tok id tk n c ua x).
Proof.
  intros s w s' (u & Hu & _ & _ & _ & ->)%createSession_Ok. split; [intros j v Hj; by exists v|]. intros [Hpos Hok]. split; [done|]. intros v y Hy. cbn in *.
  destruct (decide (Verifier tk = v)) as [<-|Hne].
  - rewrite lookup_insert_eq in Hy. injection Hy as <-. exists u. cbn. split; [done|lia].
  - rewrite lookup_insert_ne in Hy by done. by apply (Hok v).
Qed.

Lemma evolves_elsewhere {A} (m : tx db A) : keeps (fun s => (t_users s, t_sessions s)) m -> evolves follows m.
Proof. apply evolves_keeps. apply follows_same. Qed.

#[local] Hint Extern 1 (PreOrder _) => apply follows_preorder : evolves.
#[local] Hint Extern 1 (evolves _ (insert_user _ _ _)) => apply evolves_insert_user; reflexivity : evolves.
#[local] Hint Resolve evolves_delete_sessions evolves_createSession : evolves.
#[local] Hint Extern 2 (evolves _ _) => apply evolves_elsewhere; solve [auto with keeps] : evolves.

(** ** Calls of the user service *)

Lemma moves_bumped u u' : u_AuthRevision u' = u_AuthRevision u + 1 -> moves_on u u'.
Proof. left. lia. Qed.

Lemma with_identity_moves email name st at_ u : moves_on u (with_identity email name st at_ u).
Proof.
  unfold moves_on, with_identity, authority. cbn. destruct (negb _ || _) eqn:E; [left; lia|right].
  apply orb_false_iff in E as [E1 E2]. apply negb_false_iff, bool_decide_eq_true in E1. apply negb_false_iff, String.eqb_eq in E2.
  split; [lia|by rewrite E1, E2].
Qed.

#[local] Hint Extern 1 (evolves _ (update_user _ _ _ _)) => apply evolves_update_user; intros; first [apply moves_bumped; reflexivity|apply with_identity_moves] : evolves.
#[local] Hint Extern 1 (evolves _ (update_row t_users _ _ _ _)) => apply evolves_update_row_users; intros; apply moves_bumped; reflexivity : evolves.
#[local] Hint Unfold clampKeys delete_sessions delete_codes insertCode auditAccount : evolves.

Section Accounts.
Context (Verifier : string -> string) (parse_time : string -> option Z).
Context (ToLower : string -> string) (ParseAddress : string -> option string).
Context (IDKey : string -> string -> string) (dummyHash : string).

Lemma create_user_follows e actor email name role g : evolves follows (create_user_tx Verifier e actor email name role g).
Proof. unfold create_user_tx, insertCode. evolves_tac. Qed.

Lemma update_grants_follows e actor id rev g : evolves follows (update_grants_tx e actor id rev g).
Proof. unfold update_grants_tx, clampKeys, delete_sessions. evolves_tac. Qed.

Lemma update_user_follows e actor id rev i : evolves follows (update_user_tx ToLower ParseAddress e actor id rev i).
Proof. unfold update_user_tx, delete_sessions, delete_codes. evolves_tac. Qed.

Lemma issue_code_follows e actor id purpose : evolves follows (issue_code_tx Verifier e actor id purpose).
Proof. unfold issue_code_tx, insertCode, delete_sessions, delete_codes. evolves_tac. Qed.

Lemma transfer_follows e actor id rev : evolves follows (transfer_tx e actor id rev).
Proof. unfold transfer_tx, clampKeys, delete_sessions, delete_codes. evolves_tac. Qed.

Lemma user_perform_follows e op s : follows s (user_perform Verifier ToLower ParseAddress e op s).
Proof.
  apply user_perform_cases; [done|intros; by eapply create_user_follows|intros; by eapply update_grants_follows
    |intros; by eapply update_user_follows|intros; by eapply issue_code_follows|intros; by eapply transfer_follows].
Qed.
(** ** Calls of the key service *)

Lemma key_perform_follows e nanos op s : follows s (key_perform Verifier parse_time e nanos op s).
Proof.
  apply key_perform_cases; [done|..]; intros *; intros H; revert H;
    match goal with |- ?m _ = Ok _ -> _ => enough (evolves follows m) as Hf by (intros H; by eapply Hf) end;
    (apply evolves_elsewhere; [unfold create_tx, update_tx, revoke_tx, rotate_tx, insert_secret, update_secrets, audit_key; keeps_tac]).
Qed.

(** ** Calls of the account service *)

Lemma claim_follows e email name hash : evolves follows (claim_tx Verifier e email name hash).
Proof. unfold claim_tx, auditAccount. evolves_tac. Qed.

Lemma activate_follows e v hash ua : evolves follows (activate_tx Verifier e v hash ua).
Proof. unfold activate_tx, auditAccount, delete_sessions, delete_codes. evolves_tac. Qed.

Lemma recovery_follows e code : evolves follows (owner_recovery_tx Verifier e code).
Proof. unfold owner_recovery_tx, insertCode, delete_sessions, delete_codes. evolves_tac. Qed.

Lemma change_password_follows e cur hash ua : evolves follows (change_password_tx Verifier e cur hash ua).
Proof. unfold change_password_tx, auditAccount, delete_sessions. evolves_tac. Qed.

Lemma session_follows e tok s : follows s (snd (SessionInfo Verifier e tok s)).
Proof.
  unfold SessionInfo. destruct (_ ≫= _) as [[x u]|]; [|done]. case_match; [|done]. cbn [snd]. apply evolves_commit; [apply _|].
  by apply evolves_update_sessions.
Qed.

Lemma login_follows e busy i seen s : follows s (snd (Login Verifier ToLower ParseAddress IDKey dummyHash e busy i seen s)).
Proof.
  unfold Login. destruct (login_check _ _ _ _ _ _ _ _ _) as [[[id u]|]|]; [| |done].
  - unfold startSession. transitivity (forget_failures Verifier (ToLower (TrimSpace (li_Email i))) s).
    + unfold forget_failures. apply evolves_commit; [apply _|]. evolves_tac.
    + set (s1 := forget_failures _ _ _). match goal with |- context [commit ?m s1] => pose proof (evolves_commit follows m s1) as H;
        destruct (commit m s1) as [[|] s2] end; cbn in *; apply H, evolves_createSession.
  - assert (forall su l n s, follows s (snd (recordLoginFailure Verifier su l n s))) as Hr.
    { intros. unfold recordLoginFailure, record_failure_tx. apply evolves_commit; [apply _|]. apply evolves_elsewhere. keeps_tac. }
    unfold recordLoginFailures. pose proof (Hr (source_subject (loginSource (li_Source i))) maxSourceFailures (now e 2) s) as H1.
    destruct (recordLoginFailure _ _ _ _ s) as [[|] s1]; cbn in *; [|done]. etransitivity; [exact H1|].
    pose proof (Hr (email_subject (ToLower (TrimSpace (li_Email i)))) maxLoginFailures (now e 3) s1) as H2.
    by destruct (recordLoginFailure _ _ _ _ s1) as [[|] s2].
Qed.

Lemma update_profile_follows e cur email name ua changed s tok s' :
  (forall u, t_users s !! su_ID (an_User cur) = Some u -> u_AuthRevision u = an_AuthRevision cur -> changed = false ->
     fold_case email = fold_case (u_Email u)) ->
  update_profile_tx Verifier e cur email name ua changed s = Ok (tok, s') -> follows s s'.
Proof.
  intros Hemail H. apply update_profile_tx_Ok in H as (u & s1 & Hu & Hrev & -> & aud & H).
  set (s1 := set_users _ s) in *. assert (follows s s1) as H1.
  { apply follows_insert; [|congruence]. intros v Hv. rewrite Hu in Hv. injection Hv as <-. unfold moves_on, authority. cbn. destruct changed; [left; lia|].
    right. split; [lia|]. by rewrite (Hemail u Hu Hrev eq_refl). }
  destruct changed; [|by subst s'; etransitivity; [exact H1|by apply follows_same]].
  destruct H as (s2 & Hcs & ->). etransitivity; [exact H1|]. etransitivity; [|by apply follows_same].
  etransitivity; [|exact (evolves_createSession _ _ _ _ _ _ _ _ _ _ _ Hcs)].
  exact (evolves_delete_sessions (fun _ x => ss_User x =s su_ID (an_User cur)) s1 tt _ eq_refl).
Qed.

(** * Histories

    The database together with the sessions handed to requests so far. A
    request changes its own account with a session it was handed; everything
    else anybody may call with anything. *)

Definition world : Type := db * list AuthenticatedSession.

Definition genuine (issued : list AuthenticatedSession) (op : identity_operation) : Prop :=
  match op with
  | OnAccount (AccountChangePassword _ current _ _ _ _) | OnAccount (AccountUpdateProfile _ current _ _) => current ∈ issued
  | _ => True
  end.

Inductive step : world -> world -> Prop :=
| step_call e op s issued : genuine issued op ->
    step (s, issued) (identity_perform Verifier parse_time ToLower ParseAddress IDKey dummyHash e op s, issued)
| step_session e tok s issued current s' : SessionInfo Verifier e tok s = (Ok current, s') ->
    step (s, issued) (s', current :: issued).

Definition issued_ok (w : world) : Prop :=
  forall cur, cur ∈ w.2 -> an_AuthRevision cur = u_AuthRevision (su_Row (an_User cur)) /\
    exists u, t_users w.1 !! su_ID (an_User cur) = Some u /\ moves_on (su_Row (an_User cur)) u.

Definition world_ok (w : world) : Prop := sessions_ok w.1 /\ issued_ok w.

Lemma issued_moves s s' issued : users_move_on s s' -> issued_ok (s, issued) -> issued_ok (s', issued).
Proof.
  intros Hm Hi cur Hc. destruct (Hi cur Hc) as (Hr & u & Hu & Hmv). split; [done|].
  destruct (Hm _ u Hu) as (u' & Hu' & Hmv'). exists u'. split; [done|by transitivity u].
Qed.

(** The row a current session was read from has kept its authority. *)
Lemma issued_current s issued cur u :
  issued_ok (s, issued) -> cur ∈ issued -> t_users s !! su_ID (an_User cur) = Some u -> u_AuthRevision u = an_AuthRevision cur ->
  authority (su_Row (an_User cur)) = authority u.
Proof.
  intros Hi Hc Hu Hr. destruct (Hi cur Hc) as (Hr' & v & Hv & Hm). cbn in Hv. rewrite Hu in Hv. injection Hv as <-.
  destruct Hm as [Hm|[_ Hm]]; [lia|exact Hm].
Qed.

Lemma change_password_moves e busy cur old new ua seen s :
  follows s (snd (ChangePassword Verifier IDKey e busy cur old new ua seen s)).
Proof. unfold ChangePassword. case_match; [|done]. apply evolves_commit; [apply _|]. apply change_password_follows. Qed.

Lemma step_follows w w' : issued_ok w -> step w w' -> follows w.1 w'.1.
Proof.
  intros Hi Hs. revert Hi. destruct Hs; intros Hi; cbn; [|match goal with H : SessionInfo _ _ _ _ = _ |- _ => pose proof (session_follows e tok s) as Hf; rewrite H in Hf; exact Hf end].
  destruct op as [op|nanos op|op]; [apply user_perform_follows|apply key_perform_follows|].
  destruct op as [busy i seen|tok|busy i seen|busy i seen|tok|uid sid|code|busy cur old new ua seen|busy cur i seen]; cbn [identity_perform account_perform].
  - unfold Claim. case_match; [|done]. destruct a. apply evolves_commit; [apply _|]. apply claim_follows.
  - apply session_follows.
  - apply login_follows.
  - unfold Activate. case_match; [|done]. apply evolves_commit; [apply _|]. apply activate_follows.
  - unfold Logout. apply evolves_commit; [apply _|]. apply evolves_delete_sessions.
  - unfold RevokeSession. cbn [snd]. apply evolves_commit; [apply _|]. apply (evolves_delete_sessions (fun _ x => _)).
  - unfold PrepareOwnerRecovery. apply evolves_commit; [apply _|]. apply recovery_follows.
  - apply change_password_moves.
  - unfold UpdateProfile. case_match; [|done]. destruct a as [[email name] changed].
    match goal with H : _ = Ok (email, name, changed) |- _ => apply result_bind_Ok in H as (identity & _ & H); apply result_bind_Ok in H as (? & _ & H) end.
    match goal with H : Ok _ = Ok _ |- _ => injection H as H1 H2 end.
    unfold commit. destruct (update_profile_tx _ _ _ _ _ _ _ s) as [[tok s']|] eqn:E; [|done]. cbn.
    eapply update_profile_follows; [|exact E]. intros u Hu Hr Hch. cbn in *.
    pose proof (issued_current s issued cur u Hi ltac:(assumption) Hu Hr) as Ha. injection Ha as Ha _ _ _ _. rewrite <- Ha. f_equal.
    subst identity. rewrite Hch in H2. cbn in H2. by apply negb_false_iff, String.eqb_eq in H2.
Qed.
Lemma step_ok w w' : world_ok w -> step w w' -> users_move_on w.1 w'.1 /\ world_ok w'.
Proof.
  intros [Hs Hi] H. pose proof (step_follows w w' Hi H) as [Hm Hk]. split; [done|]. split; [auto|].
  destruct H as [e op s issued Hg|e tok s issued cur s' E]; [by eapply issued_moves|]. cbn in *.
  intros c [->|Hc]%elem_of_cons; [|by apply (issued_moves s s' issued Hm Hi)].
  clear Hi. unfold SessionInfo in E. destruct (t_sessions s !! _) as [x|]; [|done]. cbn in E.
  destruct (session_row_user s (now e 0) x) as [u|] eqn:Hu; [|done]. cbn in E. unfold session_row_user in Hu.
  destruct (t_users s !! ss_User x) as [v|] eqn:Hv; [|done]. cbn in Hu. destruct (_ && _); [|done]. injection Hu as ->.
  destruct (Hm _ u Hv) as (u' & Hu' & Hmv).
  destruct (ss_LastSeen x <=? now e 0 - sessionTouchAfter); injection E as <- <-; cbn in *; (split; [done|]); exists u'; done.
Qed.

Lemma run_ok w w' : world_ok w -> rtc step w w' -> users_move_on w.1 w'.1 /\ world_ok w'.
Proof.
  intros Hw H. induction H as [w|w1 w2 w3 H1 _ IH]; [split; [|done]; intros id u Hu; by exists u|].
  destruct (step_ok w1 w2 Hw H1) as [Hm Hw2]. destruct (IH Hw2) as [Hm2 Hw3]. split; [|done].
  intros id u Hu. destruct (Hm id u Hu) as (v & Hv & M1). destruct (Hm2 id v Hv) as (z & Hz & M2). exists z. split; [done|by transitivity v].
Qed.

Lemma session_row_user_Some s n x u :
  session_row_user s n x = Some u <->
  t_users s !! ss_User x = Some u /\ n < ss_Expires x /\ n - sessionIdleLifetime < ss_LastSeen x /\ u_Status u = UActive /\ ss_AuthRevision x = u_AuthRevision u.
Proof.
  unfold session_row_user. destruct (t_users s !! ss_User x) as [v|]; [|naive_solver]. cbn.
  destruct (_ && _) eqn:E.
  - rewrite !andb_true_iff, bool_decide_eq_true in E. destruct E as [[[E1 E2] E3] E4].
    split; [intros [= ->]; split_and!; (done || lia)|intros ([= ->] & _); done].
  - split; [done|]. intros ([= ->] & H1 & H2 & H3 & H4). rewrite (bool_decide_eq_true_2 _ H3) in E. lia.
Qed.

(** C30: A change of authority ends the sessions. Take any history of user,
    key and account calls, with any interleaving of their reads. If in the
    course of it a user's password, role, status, grants or email changed,
    every session that was open before is refused ever after, and a token
    that is accepted for this user belongs to a session opened since. *)
Theorem authority_change_ends_sessions (w w' : world) (v : string) (x : SessionRow) (u u' : UserRow) :
  world_ok w -> rtc step w w' ->
  t_sessions w.1 !! v = Some x -> t_users w.1 !! ss_User x = Some u -> t_users w'.1 !! ss_User x = Some u' ->
  authority u' <> authority u ->
  (forall n, session_row_user w'.1 n x = None) /\
  (forall e tok cur s, SessionInfo Verifier e tok w'.1 = (Ok cur, s) -> su_ID (an_User cur) = ss_User x ->
     exists x', t_sessions w'.1 !! Verifier tok = Some x' /\ ss_User x' = ss_User x /\ ss_AuthRevision x < ss_AuthRevision x').
Proof.
  intros Hw Hrun Hx Hu Hu' Hne. destruct (run_ok w w' Hw Hrun) as [Hm _]. destruct (Hm _ u Hu) as (z & Hz & Hmv).
  rewrite Hu' in Hz. injection Hz as <-. destruct Hw as [[_ Hs] _]. destruct (Hs v x Hx) as (z & Hz & Hle). rewrite Hu in Hz. injection Hz as <-.
  assert (ss_AuthRevision x < u_AuthRevision u') as Hlt by (destruct Hmv as [?|[? E]]; [lia|by rewrite E in Hne]). split.
  - intros n. destruct (session_row_user w'.1 n x) as [z|] eqn:E; [|done]. apply session_row_user_Some in E as (E & _ & _ & _ & Hr).
    rewrite Hu' in E. injection E as <-. lia.
  - intros e tok cur s E Hid. unfold SessionInfo in E. destruct (t_sessions w'.1 !! Verifier tok) as [x'|]; [|done]. cbn in E.
    destruct (session_row_user w'.1 (now e 0) x') as [z|] eqn:Ez; [|done]. cbn in E. apply session_row_user_Some in Ez as (Ez & _ & _ & _ & Hr).
    exists x'. split; [done|]. assert (su_ID (an_User cur) = ss_User x') as Hid' by (destruct (_ <=? _); by injection E as <- _).
    rewrite Hid in Hid'. rewrite <- Hid', Hu' in Ez. injection Ez as <-. split; [done|lia].
Qed.

(** * Signing in *)

(** What a row keeps while its revision stays. *)
Lemma same_revision w w' id u u' :
  world_ok w -> rtc step w w' -> t_users w.1 !! id = Some u -> t_users w'.1 !! id = Some u' ->
  u_AuthRevision u' = u_AuthRevision u -> authority u' = authority u.
Proof.
  intros Hw Hrun Hu Hu' Hr. destruct (run_ok w w' Hw Hrun) as [Hm _]. destruct (Hm id u Hu) as (z & Hz & [?|[_ E]]);
    rewrite Hu' in Hz; injection Hz as <-; [lia|done].
Qed.

(** A session is good from its creation, for a day and while it is used. *)
Lemma session_opened tok id tk n c ua x s w s' e2 :
  createSession Verifier tok id tk n c ua x s = Ok (w, s') -> now e2 0 < c + sessionLifetime -> now e2 0 - sessionIdleLifetime < n ->
  exists u cur, t_users s !! id = Some u /\ u_Status u = UActive /\ (x = 0 \/ u_AuthRevision u = x) /\
    t_users s' = t_users s /\ fst (SessionInfo Verifier e2 tk s') = Ok cur /\ an_User cur = mkSessionUser id u.
Proof.
  intros H H1 H2. apply createSession_Ok in H as (u & Hu & Hst & Hx & _ & ->). exists u.
  set (x0 := mkSessionRow _ _ _ _ _ _ _ _). unfold SessionInfo. cbn [t_sessions set_sessions]. rewrite lookup_insert_eq. cbn [mbind option_bind].
  match goal with |- context [session_row_user ?s1 _ _] => assert (session_row_user s1 (now e2 0) x0 = Some u) as -> by (by apply session_row_user_Some) end.
  cbn [mbind option_bind]. destruct (_ <=? _); eexists; (split_and!; [done|done|done|done|reflexivity|done]).
Qed.

Lemma login_user_Some s email id u :
  login_user s email = Some (id, u) -> t_users s !! id = Some u /\ same_email (u_Email u) email = true /\ u_Status u = UActive.
Proof.
  unfold login_user. intros [Hin Hc]%find_some. rewrite <- list_elem_of_In, elem_of_map_to_list in Hin.
  cbn in Hc. by rewrite andb_true_iff, bool_decide_eq_true in Hc.
Qed.

Lemma login_check_Some e busy i seen id u :
  login_check Verifier ToLower ParseAddress IDKey dummyHash e busy i seen = Ok (Some (id, u)) ->
  login_user seen (ToLower (TrimSpace (li_Email i))) = Some (id, u) /\ VerifyPassword IDKey (li_Password i) (u_Password u) = Ok true.
Proof.
  unfold login_check. intros H. do 4 (apply result_bind_Ok in H as (? & _ & H)). apply result_bind_Ok in H as (matches & Hv & H).
  destruct (login_user seen _) as [[j v]|]; [|done]. destruct (j =s ""); [done|]. destruct matches; [|done]. by injection H as -> ->.
Qed.

Lemma forget_failures_users email s : (t_users (forget_failures Verifier email s), t_sessions (forget_failures Verifier email s)) = (t_users s, t_sessions s).
Proof. done. Qed.

(** C31: A login goes by the account as it is when the session is opened. A
    login reads the account, spends its time on the password hash, and then
    writes; if it succeeds then, whatever was called in between, the password
    is the user's current one, the user is active, and the token it returns
    signs this user in for a day, while it is not left idle for half an hour. *)
Theorem Login_by_current_password (w w' : world) (e : env) (busy : bool) (i : LoginInput) (user : SessionUser) (tok : string) (s' : db) :
  world_ok w -> rtc step w w' ->
  Login Verifier ToLower ParseAddress IDKey dummyHash e busy i w.1 w'.1 = (Ok (user, tok), s') ->
  exists u, t_users w'.1 !! su_ID user = Some u /\ u_Status u = UActive /\
    same_email (u_Email u) (ToLower (TrimSpace (li_Email i))) = true /\ VerifyPassword IDKey (li_Password i) (u_Password u) = Ok true /\
    forall e2, now e2 0 < now e 3 + sessionLifetime -> now e2 0 - sessionIdleLifetime < now e 2 ->
      exists cur, fst (SessionInfo Verifier e2 tok s') = Ok cur /\ an_User cur = mkSessionUser (su_ID user) u.
Proof.
  intros Hw Hrun H. unfold Login in H. destruct (login_check _ _ _ _ _ _ _ _ _) as [[[id u0]|]|] eqn:E; [| |done].
  2: { destruct (recordLoginFailures _ _ _ _ _ _) as [[|] ?]; done. }
  apply login_check_Some in E as [Eu Hv]. apply login_user_Some in Eu as (Hu0 & Hem & Hst).
  unfold startSession in H. destruct (commit _ _) as [[[]|] s1] eqn:E; [|done]. injection H as <- <- <-. cbn [su_ID] in *.
  unfold commit in E. destruct (createSession _ _ _ _ _ _ _ _ _) as [[[] s2]|] eqn:Ec; [|done]. injection E as <-.
  pose proof Ec as Ec'. apply createSession_Ok in Ec' as (u & Hu & Hact & Hr & _ & _). cbn in Hu.
  destruct Hw as [[Hpos Hs] Hi]. pose proof (Hpos id u0 Hu0). destruct Hr as [Hr|Hr]; [lia|].
  pose proof (same_revision w w' id u0 u (conj (conj Hpos Hs) Hi) Hrun Hu0 Hu Hr) as Ha. injection Ha as Ea Ep Er Es Eg.
  exists u. split_and!; try done.
  - unfold same_email in *. by rewrite Ea.
  - by rewrite Ep.
  - intros e2 H1 H2. destruct (session_opened _ _ _ _ _ _ _ _ _ _ e2 Ec H1 H2) as (v & cur & Hv' & _ & _ & _ & Hcur & Hid).
    cbn in Hv'. rewrite Hu in Hv'. injection Hv' as <-. by exists cur.
Qed.

(** A password change replaces the password and every session. It is made
    by a request that was signed in earlier; if it succeeds, whatever was
    called since, the old password given is the current one, the new one is
    stored, and of the user's sessions only the one it returns remains. *)
Theorem ChangePassword_replaces (w w' : world) (e : env) (busy : bool) (cur : AuthenticatedSession) (old new ua tok : string) (s' : db) :
  world_ok w -> rtc step w w' -> cur ∈ w.2 ->
  ChangePassword Verifier IDKey e busy cur old new ua w.1 w'.1 = (Ok tok, s') ->
  let id := su_ID (an_User cur) in
  exists u u', t_users w'.1 !! id = Some u /\ VerifyPassword IDKey old (u_Password u) = Ok true /\
    t_users s' !! id = Some u' /\ u_Password u' = HashPassword IDKey (token e 0) new /\ u_AuthRevision u' = u_AuthRevision u + 1 /\
    (forall v x, t_sessions s' !! v = Some x -> ss_User x = id -> v = Verifier tok) /\
    forall e2, now e2 0 < now e 2 + sessionLifetime -> now e2 0 - sessionIdleLifetime < now e 0 ->
      exists cur', fst (SessionInfo Verifier e2 tok s') = Ok cur' /\ an_User cur' = mkSessionUser id u'.
Proof.
  intros Hw Hrun Hc H id. unfold ChangePassword in H.
  destruct (_ ≫= _) eqn:E in H; [|done]. apply result_bind_Ok in E as (? & _ & E). apply result_bind_Ok in E as (? & _ & E).
  unfold password_known in E. apply result_bind_Ok in E as (hash & Eh & E). apply result_bind_Ok in E as (b & Hv & Eb%ensure_Ok). subst b.
  unfold stored_password in Eh. fold id in Eh. destruct (t_users w.1 !! id) as [u0|] eqn:Hu0; [|done]. injection Eh as <-.
  unfold commit in H. destruct (change_password_tx _ _ _ _ _ _) as [[t s2]|] eqn:Et; [|done]. injection H as -> ->.
  apply change_password_tx_Ok in Et as (u & s1 & Hu & Hr & -> & Hus & _ & Hss & Hcs). fold id in Hu, Hus, Hss, Hcs.
  assert (authority u = authority u0) as Ha.
  { eapply (same_revision w w'); try done. destruct (run_ok w w' Hw Hrun) as [Hm _]. destruct (Hm id u0 Hu0) as (z & Hz & Hmv).
    rewrite Hu in Hz. injection Hz as <-. destruct Hw as [_ Hi]. destruct (Hi cur Hc) as (Hr0 & z & Hz & Hmv0). fold id in Hz. rewrite Hu0 in Hz. injection Hz as <-.
    destruct Hmv as [?|[? _]], Hmv0 as [?|[? _]]; lia. }
  injection Ha as _ Ep _ _ _. pose proof Hcs as Hcs'. apply createSession_Ok in Hcs' as (u' & Hu' & Hact & _ & _ & ->). exists u, u'.
  split_and!; try done; cbn [t_users set_sessions t_sessions]; [by rewrite Ep|..]; rewrite Hus, lookup_insert_eq in Hu'; injection Hu' as <-; try done.
  - intros v y Hx Hid. rewrite lookup_insert_Some in Hx. destruct Hx as [[<- _]|[_ Hx]]; [done|].
    rewrite Hss in Hx. apply map_lookup_filter_Some in Hx as [_ Hx]. cbn in Hx. apply String.eqb_neq in Hx. done.
  - intros e2 H1 H2. destruct (session_opened _ _ _ _ _ _ _ _ _ _ e2 Hcs H1 H2) as (v & cur' & Hv' & _ & _ & _ & Hcur & Hid).
    rewrite Hus, lookup_insert_eq in Hv'. injection Hv' as <-. by exists cur'.
Qed.

(** A code signs in once. If an activation succeeds, the code was issued
    to that user and had not expired; afterwards the user is active with the
    new password, holds no other code, no session but the one returned, and
    the same code is refused. *)
Theorem Activate_once (e : env) (busy : bool) (i : ActivateInput) (seen s : db) (user : SessionUser) (tok : string) (s' : db) :
  Activate Verifier IDKey e busy i seen s = (Ok (user, tok), s') ->
  let id := su_ID user in let code := Verifier (TrimSpace (ac_Code i)) in
  (exists c, t_codes s !! code = Some c /\ cd_User c = id /\ now e 1 < cd_Expires c) /\
  (exists u', t_users s' !! id = Some u' /\ u_Status u' = UActive /\ u_Password u' = HashPassword IDKey (token e 0) (ac_Password i)) /\
  (forall v c, t_codes s' !! v = Some c -> cd_User c <> id) /\
  (forall v x, t_sessions s' !! v = Some x -> ss_User x = id -> v = Verifier tok) /\
  (forall e2 busy2 i2 seen2, Verifier (TrimSpace (ac_Code i2)) = code -> exists err, Activate Verifier IDKey e2 busy2 i2 seen2 s' = (Err err, s')).
Proof.
  intros H id code. unfold Activate in H. case_match; [|done]. fold code in H.
  unfold commit in H. destruct (activate_tx _ _ _ _ _ _) as [[t s2]|] eqn:Et; [|done]. injection H as -> ->.
  apply activate_tx_Ok in Et as (c & u & s1 & Hc & Hexp & Hu & _ & _ & Hid & Htok & Hus & _ & Hss & Hcd & Hcs). cbn in Hid, Htok. fold id in Hid.
  rewrite <- Hid in *. apply createSession_Ok in Hcs as (u' & Hu' & Hact & _ & _ & ->). cbn [t_users t_sessions t_codes set_sessions].
  assert (forall v x, t_codes s1 !! v = Some x -> cd_User x <> id) as Hgone.
  { intros v x Hx. rewrite Hcd in Hx. apply map_lookup_filter_Some in Hx as [_ Hx]. cbn in Hx. by apply String.eqb_neq. }
  split_and!; [by exists c| |done| |].
  - exists u'. rewrite Hu'. rewrite Hus, lookup_insert_eq in Hu'. by injection Hu' as <-.
  - intros v x Hx Hx'. rewrite lookup_insert_Some in Hx. destruct Hx as [[<- _]|[_ Hx]]; [by rewrite Htok|].
    rewrite Hss in Hx. apply map_lookup_filter_Some in Hx as [_ Hx]. cbn in Hx. by apply String.eqb_neq in Hx.
  - intros e2 busy2 i2 seen2 Hcode. unfold Activate. case_match; [|by eexists]. rewrite Hcode. unfold commit.
    assert (t_codes s1 !! code = None) as Hnone.
    { destruct (t_codes s1 !! code) as [x|] eqn:Ex; [|done]. pose proof Ex as Ex'. rewrite Hcd in Ex. apply map_lookup_filter_Some in Ex as [Ex _].
      rewrite Hc in Ex. injection Ex as <-. exfalso. by eapply Hgone. }
    destruct (activate_tx _ _ _ _ _ _) as [[r s3]|err] eqn:Ex; [|by eexists].
    apply activate_tx_Ok in Ex as (c2 & ? & ? & Hc2 & _). cbn in Hc2. congruence.
Qed.
End Accounts.
