(* ===== verification/Throttle.v ===== *)
(** The login throttle ([checkLoginThrottle], [recordLoginFailure] of
    [internal/features/auth/lifecycle.go]): how many passwords can be tried
    for one email. *)
From S2P Require Import Prelude GoStd Json Policy PathMatch Grants Store Keys Users Credentials Sessions.

Section Throttle.
Context (Verifier ToLower : string -> string) (ParseAddress : string -> option string).
Context (IDKey : string -> string -> string) (dummyHash : string).

(** * Runs of logins *)

Record login_call := mkLoginCall { lc_env : env; lc_busy : bool; lc_input : LoginInput }.

Definition email_of (c : login_call) : string := ToLower (TrimSpace (li_Email (lc_input c))).
Definition source_of (c : login_call) : string := loginSource (li_Source (lc_input c)).
Definition checked (c : login_call) (seen : db) : result (option (string * UserRow)) :=
  login_check Verifier ToLower ParseAddress IDKey dummyHash (lc_env c) (lc_busy c) (lc_input c) seen.
Definition logged_in (c : login_call) (seen s : db) : db :=
  snd (Login Verifier ToLower ParseAddress IDKey dummyHash (lc_env c) (lc_busy c) (lc_input c) seen s).

(** Logins overlap: the check of one reads the database where it begins, its
    writes meet the one where it ends, and other calls come between. A slot
    for a password is taken only after the check, so the slots do not bound
    how many logins are past it. *)
Inductive login_event :=
| Begin (c : login_call)
| End (n : nat)
| Meanwhile (f : db -> db).
Notation flying := (list (login_call * db)).

(** The passwords tried and found wrong for an email, up to a right one, which
    forgets the failures. *)
Fixpoint wrong_guesses (email : string) (events : list login_event) (fl : flying) (s : db) : Z :=
  match events with
  | [] => 0
  | Begin c :: events => wrong_guesses email events (fl ++ [(c, s)])%list s
  | Meanwhile f :: events => wrong_guesses email events fl (f s)
  | End n :: events =>
    match fl !! n with
    | None => wrong_guesses email events fl s
    | Some (c, seen) =>
      let go := wrong_guesses email events (delete n fl) (logged_in c seen s) in
      if email_of c =s email then match checked c seen with Ok None => 1 + go | Ok (Some _) => 0 | Err _ => go end else go
    end
  end.

(** The logins for an email that have begun and not ended. *)
Definition under_way (email : string) (calls : list login_call) : Z := Z.of_nat (length (List.filter (fun c => email_of c =s email) calls)).
Fixpoint never_more (email : string) (k : Z) (events : list login_event) (calls : list login_call) : Prop :=
  under_way email calls <= k /\
  match events with
  | [] => True
  | Begin c :: events => never_more email k events (calls ++ [c])%list
  | End n :: events => never_more email k events (delete n calls)
  | Meanwhile _ :: events => never_more email k events calls
  end.

Definition row_of (email : string) (s : db) : option ThrottleRow := t_throttles s !! Verifier (email_subject email).

(** * One record *)

Definition cleaned (now_ : Z) (row : option ThrottleRow) : option ThrottleRow :=
  match row with Some t => if stale_throttle now_ t then None else Some t | None => None end.

Lemma record_lookup subject limit n s v :
  t_throttles (snd (recordLoginFailure Verifier subject limit n s)) !! v =
  if decide (Verifier subject = v) then Some (failed_once (cleaned n (t_throttles s !! v)) limit n) else cleaned n (t_throttles s !! v).
Proof.
  unfold recordLoginFailure, record_failure_tx, commit, delete_rows, modify, reads, mbind, tx_bind.
  cbn [snd t_throttles set_throttles]. rewrite !(lookup_delete_rows (fun _ => stale_throttle n)). fold (cleaned n (t_throttles s !! Verifier subject)).
  destruct (decide _) as [<-|Hne].
  - by rewrite lookup_insert_eq.
  - by rewrite lookup_insert_ne, (lookup_delete_rows (fun _ => stale_throttle n)).
Qed.

Lemma record_Ok subject limit n s : fst (recordLoginFailure Verifier subject limit n s) = Ok tt.
Proof. done. Qed.

(** * The budget

    Within fifteen minutes from [T]: a block lasts beyond them, a window
    opened inside them lasts beyond them too, and an older window is replaced
    at most once. [p] wrong guesses are under way, [k] at most. *)

Definition full (t : ThrottleRow) : bool := 5 <=? th_Failures t.
Definition recent (T : Z) (t : ThrottleRow) : bool := T <=? th_Started t.
Definition lasting (T : Z) (t : ThrottleRow) : bool := T + loginWindow <=? th_Blocked t.
Definition budget (T k p : Z) (row : option ThrottleRow) : Z :=
  match row with
  | None => 4 + k
  | Some t =>
    if full t then if recent T t then p else if lasting T t then if p =? 0 then 0 else p + 3 + k else 3 + 2 * k
    else if recent T t then 4 - th_Failures t + k else 7 - th_Failures t + 2 * k
  end.

(** A full row was blocked past its window when it filled up. *)
Definition row_ok (T : Z) (row : option ThrottleRow) : Prop :=
  match row with
  | None => True
  | Some t => 1 <= th_Failures t /\ (5 <= th_Failures t -> th_Started t + loginWindow <= th_Blocked t \/ T + loginWindow <= th_Blocked t)
  end.

Definition inside (T n : Z) : Prop := T <= n < T + loginWindow.

Ltac budget_tac := unfold budget, row_ok, full, recent, lasting, stale_throttle, inside, failed_once, maxLoginFailures, loginWindow, loginBlock in *; cbn in *; repeat case_match; simplify_eq; cbn in *; try lia.

Lemma budget_bounds T k p row : row_ok T row -> 0 <= p <= k -> 1 <= k -> 0 <= budget T k p row <= 6 + 2 * k.
Proof. destruct row as [t|]; cbn; [|lia]. intros [H1 H2] Hp Hk. budget_tac. Qed.

Lemma cleaned_ok T k p n row : row_ok T row -> inside T n -> 0 <= p <= k -> 1 <= k ->
  row_ok T (cleaned n row) /\ budget T k p (cleaned n row) <= budget T k p row.
Proof.
  intros Hok Hn Hp Hk. destruct row as [t|]; [|done]. cbn [cleaned]. destruct (stale_throttle n t) eqn:E; [|done]. split; [done|].
  destruct Hok as [H1 H2]. budget_tac.
Qed.

Lemma failed_once_ok T k p n row : row_ok T row -> inside T n -> 1 <= p <= k ->
  row_ok T (Some (failed_once row maxLoginFailures n)) /\ budget T k (p - 1) (Some (failed_once row maxLoginFailures n)) + 1 <= budget T k p row.
Proof. intros Hok Hn Hp. destruct row as [t|]; cbn in *; [destruct Hok as [H1 H2]|]; (split; [|]); budget_tac. Qed.

(** A login that begins is not a guess when the row is blocked; when it is
    not, the guesses under way do not count. *)
Lemma begin_ok T k p n row : row_ok T row -> inside T n -> 0 <= p < k -> (forall t, row = Some t -> th_Blocked t <= n) ->
  budget T k (p + 1) row <= budget T k p row.
Proof. intros Hok Hn Hp Hf. destruct row as [t|]; [|done]. specialize (Hf t eq_refl). destruct Hok as [H1 H2]. budget_tac. Qed.

(** * One login *)

(** The subjects of a call are not taken for the email's: SHA-256 gives them
    different digests. *)
Definition distinct_subjects (email : string) (c : login_call) : Prop :=
  Verifier (source_subject (source_of c)) <> Verifier (email_subject email) /\
  (email_of c <> email -> Verifier (email_subject (email_of c)) <> Verifier (email_subject email)).

(** The clock when a login checks, and when it records a failure. *)
Definition begins_inside (T : Z) (c : login_call) : Prop := inside T (now (lc_env c) 1).
Definition ends_inside (T : Z) (c : login_call) : Prop := inside T (now (lc_env c) 2) /\ inside T (now (lc_env c) 3).

Lemma startSession_throttles e u ua x s : t_throttles (snd (startSession Verifier e u ua x s)) = t_throttles s.
Proof.
  unfold startSession. rewrite <- (keeps_commit t_throttles (createSession Verifier (token e 1) (su_ID u) (token e 0) (now e 2) (now e 3) ua x) s);
    [by destruct (commit _ s) as [[|] ?]|apply createSession_keeps; intros; reflexivity].
Qed.

(** The row a failed login leaves. *)
Lemma failures_row email c s T k p :
  distinct_subjects email c -> ends_inside T c -> row_ok T (row_of email s) -> 0 <= p <= k -> 1 <= k ->
  let s' := snd (recordLoginFailures Verifier (email_of c) (source_of c) (now (lc_env c) 2) (now (lc_env c) 3) s) in
  exists row, row_ok T row /\ budget T k p row <= budget T k p (row_of email s) /\
    row_of email s' = if decide (email_of c = email) then Some (failed_once row maxLoginFailures (now (lc_env c) 3)) else row.
Proof.
  intros [Hsrc Hem] [Hc2 Hc3] Hok Hp Hk s'. destruct (cleaned_ok T k p (now (lc_env c) 2) _ Hok Hc2 Hp Hk) as [Hok1 Hb1].
  destruct (cleaned_ok T k p (now (lc_env c) 3) _ Hok1 Hc3 Hp Hk) as [Hok2 Hb2].
  exists (cleaned (now (lc_env c) 3) (cleaned (now (lc_env c) 2) (row_of email s))). split_and!; [done|lia|].
  subst s'. unfold recordLoginFailures. set (m := recordLoginFailure Verifier (source_subject (source_of c)) _ _ s).
  assert (fst m = Ok tt) as Hm by apply record_Ok. destruct m as [r s1] eqn:E. cbn in Hm. subst r.
  assert (s1 = snd m) as -> by (unfold m in *; by rewrite E). unfold row_of. rewrite record_lookup. subst m. rewrite record_lookup.
  rewrite (decide_False (P := Verifier (source_subject _) = _)) by done.
  destruct (decide (email_of c = email)) as [->|Hne]; [by rewrite decide_True|]. rewrite decide_False; [done|auto].
Qed.

Definition guessed (r : result (option (string * UserRow))) : bool := match r with Ok None => true | _ => false end.
Definition guessing_at (email : string) (x : login_call * db) : bool := (email_of (fst x) =s email) && guessed (checked (fst x) (snd x)).

(** The end of a login that is no right guess for the email. *)
Lemma login_row email c seen s T k p :
  distinct_subjects email c -> ends_inside T c -> row_ok T (row_of email s) -> (forall u, checked c seen = Ok (Some u) -> email_of c <> email) ->
  let g : Z := if guessing_at email (c, seen) then 1 else 0 in
  g <= p <= k -> 1 <= k ->
  row_ok T (row_of email (logged_in c seen s)) /\ budget T k (p - g) (row_of email (logged_in c seen s)) + g <= budget T k p (row_of email s).
Proof.
  intros Hd Hc Hok Hne g Hp Hk. unfold logged_in, Login. fold (checked c seen) (email_of c) (source_of c). subst g. unfold guessing_at in *. cbn [fst snd] in *.
  destruct (checked c seen) as [[[id u]|]|err] eqn:E; cbn [guessed] in *.
  - rewrite andb_false_r, Z.sub_0_r, Z.add_0_r.
    assert (row_of email (snd (startSession Verifier (lc_env c) (mkSessionUser id u) (li_UserAgent (lc_input c)) (u_AuthRevision u)
              (forget_failures Verifier (email_of c) s))) = row_of email s) as ->; [|done].
    unfold row_of. rewrite startSession_throttles. unfold forget_failures, commit, delete_rows, modify. cbn [snd t_throttles set_throttles].
    rewrite (lookup_delete_rows (fun k _ => k =s Verifier (email_subject (email_of c)))).
    clear Hp. destruct (t_throttles s !! _); [|done]. destruct (_ =s _) eqn:Ev; [|done]. apply String.eqb_eq in Ev. destruct Hd as [_ Hd].
    by destruct (Hd (Hne _ eq_refl)).
  - destruct (failures_row email c s T k p Hd Hc Hok) as (row & Hrow & Hb & He); [revert Hp; destruct (_ && _); lia|done|].
    set (m := recordLoginFailures _ _ _ _ _ _) in *. assert (snd (match m with (Ok _, s1) => (Err ErrInvalidCredentials, s1) | (Err err, s1) => (Err err, s1) end : result (SessionUser * string) * db) = snd m) as ->
      by (by destruct m as [[|] ?]). rewrite He.
    destruct (decide (email_of c = email)) as [Hemail|Hn].
    + rewrite (proj2 (String.eqb_eq _ _) Hemail) in *. cbn [andb] in *. destruct (failed_once_ok T k p (now (lc_env c) 3) row Hrow (proj2 Hc) Hp) as [H1 H2]. split; [done|]. lia.
    + rewrite (proj2 (String.eqb_neq _ _) Hn) in *. cbn [andb] in *. rewrite Z.sub_0_r. split; [done|]. lia.
  - rewrite andb_false_r, Z.sub_0_r, Z.add_0_r. done.
Qed.

(** * Runs *)

Definition guesses (email : string) (fl : flying) : Z := Z.of_nat (length (List.filter (guessing_at email) fl)).

Lemma guesses_app email fl x : guesses email (fl ++ [x])%list = guesses email fl + (if guessing_at email x then 1 else 0).
Proof. unfold guesses. rewrite List.filter_app, length_app. cbn. destruct (guessing_at email x); cbn; lia. Qed.
Lemma guesses_delete email fl n x : fl !! n = Some x -> guesses email (delete n fl) = guesses email fl - (if guessing_at email x then 1 else 0).
Proof.
  intros H. unfold guesses. rewrite delete_take_drop, List.filter_app, length_app. rewrite <- (take_drop_middle fl n x H) at 3. rewrite List.filter_app, length_app. cbn.
  destruct (guessing_at email x); cbn; lia.
Qed.
Lemma guesses_under_way email fl : 0 <= guesses email fl <= under_way email (map fst fl).
Proof.
  unfold guesses, under_way. induction fl as [|x fl IH]; [done|]. cbn [map List.filter]. destruct (guessing_at email x) eqn:G; unfold guessing_at in G; destruct (email_of (fst x) =s email); cbn [andb length] in *; [lia|done|lia..].
Qed.
Lemma map_fst_delete n (fl : flying) : map fst (delete n fl) = delete n (map fst fl).
Proof. revert n. induction fl as [|x fl IH]; intros [|n]; cbn; [done..|]. f_equal. apply IH. Qed.
Lemma never_more_now email k events calls : never_more email k events calls -> under_way email calls <= k.
Proof. by destruct events as [|[]]; intros []. Qed.
Lemma guessing_free email c s : guessing_at email (c, s) = true -> forall t, row_of email s = Some t -> th_Blocked t <= now (lc_env c) 1.
Proof.
  unfold guessing_at. cbn. intros [E%String.eqb_eq H]%andb_prop t Ht. destruct (checked c s) as [[|]|] eqn:C; try done. unfold checked, login_check in C.
  apply result_bind_Ok in C as (? & _ & C). apply result_bind_Ok in C as (? & C & _). unfold checkLoginThrottle in C. fold (email_of c) in C. rewrite E in C.
  unfold row_of in Ht. rewrite Ht in C. apply ensure_Ok in C. lia.
Qed.

(** What is asked of the events: the clocks, the digests, and that nothing
    else writes the throttles. *)
Definition event_ok (email : string) (T : Z) (ev : login_event) : Prop :=
  match ev with
  | Begin c => distinct_subjects email c /\ begins_inside T c /\ ends_inside T c
  | End _ => True
  | Meanwhile f => forall s, t_throttles (f s) = t_throttles s
  end.
Definition flying_ok (email : string) (T : Z) (x : login_call * db) : Prop := distinct_subjects email (fst x) /\ ends_inside T (fst x).

(** The end of any login leaves the budget of what is under way. *)
Lemma end_row email T k fl n c seen s :
  fl !! n = Some (c, seen) -> flying_ok email T (c, seen) -> row_ok T (row_of email s) -> under_way email (map fst fl) <= k -> 1 <= k ->
  (forall u, checked c seen = Ok (Some u) -> email_of c <> email) ->
  row_ok T (row_of email (logged_in c seen s)) /\
  budget T k (guesses email (delete n fl)) (row_of email (logged_in c seen s)) + (if guessing_at email (c, seen) then 1 else 0) <= budget T k (guesses email fl) (row_of email s).
Proof.
  intros Hn [Hd He] Hok Hu Hk Hne. rewrite (guesses_delete _ _ _ _ Hn). apply login_row; try done.
  pose proof (guesses_under_way email fl). pose proof (guesses_delete email _ _ _ Hn) as G. pose proof (guesses_under_way email (delete n fl)). destruct (guessing_at _ _); lia.
Qed.

Lemma wrong_guesses_budget email T k events : 1 <= k -> Forall (event_ok email T) events -> forall fl s,
  row_ok T (row_of email s) -> Forall (flying_ok email T) fl -> never_more email k events (map fst fl) ->
  wrong_guesses email events fl s <= budget T k (guesses email fl) (row_of email s).
Proof.
  intros Hk. induction 1 as [|ev events Hev Hevs IH]; intros fl s Hok Hfl [Hu Hm]; pose proof (guesses_under_way email fl) as Hg.
  { cbn. pose proof (budget_bounds T k (guesses email fl) _ Hok). lia. }
  destruct ev as [c|n|f]; cbn in Hev, Hm |- *.
  - destruct Hev as (Hd & Hb & He). replace (map fst fl ++ [c])%list with (map fst (fl ++ [(c, s)])%list) in Hm by apply map_app.
    pose proof (guesses_under_way email (fl ++ [(c, s)])%list) as Hg'. pose proof (never_more_now _ _ _ _ Hm).
    specialize (IH (fl ++ [(c, s)])%list s Hok). rewrite guesses_app in *. assert (Forall (flying_ok email T) (fl ++ [(c, s)])%list) as Hfl' by (apply Forall_app; split; [done|by apply Forall_singleton]).
    specialize (IH Hfl' Hm). destruct (guessing_at email (c, s)) eqn:E; [|by rewrite Z.add_0_r in IH].
    pose proof (begin_ok T k (guesses email fl) _ _ Hok Hb ltac:(lia) (guessing_free _ _ _ E)). lia.
  - rewrite <- map_fst_delete in Hm. destruct (fl !! n) as [[c seen]|] eqn:E.
    2: { assert (delete n fl = fl) as Hd by (rewrite delete_take_drop; apply lookup_ge_None in E; rewrite take_ge, drop_ge by lia; apply app_nil_r). rewrite Hd in Hm. auto. }
    assert (Forall (flying_ok email T) (delete n fl)) as Hfl' by (rewrite delete_take_drop; apply Forall_app; split; [by apply Forall_take|by apply Forall_drop]).
    pose proof (end_row email T k fl n c seen s E (proj1 (Forall_lookup _ _) Hfl _ _ E) Hok Hu Hk) as Hend. unfold guessing_at in Hend. cbn [fst snd] in Hend.
    pose proof (budget_bounds T k (guesses email fl) _ Hok ltac:(lia) Hk) as Hpos. destruct (email_of c =s email) eqn:Ee.
    + apply String.eqb_eq in Ee. destruct (checked c seen) as [[u|]|err]; [lia|..]; destruct Hend as [H1 H2]; try done; specialize (IH _ _ H1 Hfl' Hm); cbn [guessed andb] in H2; lia.
    + apply String.eqb_neq in Ee. destruct Hend as [H1 H2]; [by intros|]. specialize (IH _ _ H1 Hfl' Hm). cbn [andb] in H2. lia.
  - assert (row_of email (f s) = row_of email s) as Hr by (unfold row_of; by rewrite Hev). rewrite <- Hr in *. by apply IH.
Qed.

(** C32: Passwords cannot be tried quickly. Take any run of logins that fall
    within fifteen minutes, for any emails from any addresses, overlapping in
    any order, with other calls between them, from any point of it, with at
    most [k] logins for one email under way at once. Up to the first right
    password, which forgets the failures, at most [6 + 2k] wrong passwords are
    tried for the email: eight when its logins come one after another, ten
    when they come two at a time. The digests of the subjects are distinct. *)
Theorem login_throttled (email : string) (T k : Z) (events : list login_event) (fl : flying) (s : db) :
  row_ok T (row_of email s) -> 1 <= k -> never_more email k events (map fst fl) ->
  Forall (event_ok email T) events -> Forall (flying_ok email T) fl ->
  wrong_guesses email events fl s <= 6 + 2 * k.
Proof.
  intros Hok Hk Hm Hev Hfl. pose proof (wrong_guesses_budget email T k events Hk Hev fl s Hok Hfl Hm). pose proof (guesses_under_way email fl).
  pose proof (never_more_now _ _ _ _ Hm). pose proof (budget_bounds T k (guesses email fl) _ Hok ltac:(lia) Hk). lia.
Qed.
End Throttle.
