(* ===== verification/Limits.v ===== *)
(** The limits shown for a key ([internal/features/usage/query.go]):
    [EffectiveLimits] lists the policies an attempt of the key is charged to
    with what is left of each, and what it shows is what admission enforces. *)
From S2P Require Import Prelude GoStd Money Calendar Counters Policy Json Store Pricing PolicyService PathMatch Grants Admission.

Record EffectiveLimit := mkEffectiveLimit {
  el_Policy : runtimePolicy; el_Consumed : Z; el_Reserved : Z; el_Remaining : Z; el_ResetsAt : option Z }.

(** The dollar amounts shown for spend policies: limit, consumed, reserved, remaining. *)
Definition shown_usd (l : EffectiveLimit) : option (string * string * string * string) :=
  if decide (rp_Metric (el_Policy l) = MSpend)
  then Some (FormatUSD (rp_Limit (el_Policy l)), FormatUSD (el_Consumed l), FormatUSD (el_Reserved l), FormatUSD (el_Remaining l))
  else None.

(** One iteration of the loop over the matching policies. *)
Definition effective_limit (s : db) (effective : Z) (p : runtimePolicy) : EffectiveLimit :=
  match rp_Algorithm p with
  | Ceiling => mkEffectiveLimit p 0 0 (rp_Limit p) None
  | Concurrency =>
      let held := lease_count s (rp_ID p) in mkEffectiveLimit p held 0 (remainingCapacity (rp_Limit p) held 0) None
  | TokenBucket =>
      match t_buckets s !! rp_ID p with
      | Some b =>
          let refill := match refillAmount (wrap64 (max effective (b_LastEffective b) - b_LastRefill b)) (rp_Refill p)
                                (rp_RefillInterval p) (b_Remainder b) with Ok (refill, _) => refill | Err _ => 0 end in
          let remaining := min (rp_Limit p) (saturatingAdd (b_Remaining b) refill) in
          mkEffectiveLimit p (remainingCapacity (rp_Limit p) remaining 0) 0 remaining None
      | None => mkEffectiveLimit p 0 0 (rp_Limit p) None
      end
  | FixedWindow | Quota =>
      let '(start, end_) := periodBounds p effective in
      let '(consumed, reserved) := match t_periods s !! (rp_ID p, start) with Some q => (q_Consumed q, q_Reserved q) | None => (0, 0) end in
      mkEffectiveLimit p consumed reserved (remainingCapacity (rp_Limit p) consumed reserved) end_
  end.

Definition dashboard_safe (l : EffectiveLimit) : bool :=
  (rp_Limit (el_Policy l) <=? maxSafeInteger) && (el_Consumed l <=? maxSafeInteger) && (el_Reserved l <=? maxSafeInteger)
  && (el_Remaining l <=? maxSafeInteger).

(** The owner of the key, for an actor who may see its limits. *)
Definition limits_owner (actor : User) (keyID : string) (s : db) : result string :=
  actor ← refreshUsageActor s actor;
  match t_keys s !! keyID with
  | None => Err ErrNotFound
  | Some k =>
    let owner := k_Owner k in
    _ ← ensure (negb (bool_decide (us_Role actor = Member) && negb (owner =s us_ID actor))) ErrNotFound;
    if bool_decide (us_Role actor = Admin) && negb (owner =s us_ID actor) then
      match t_users s !! owner with
      | Some u => _ ← ensure (bool_decide (u_Role u = Member)) ErrDenied; Ok owner
      | None => Err ErrNoRows
      end
    else Ok owner
  end.

Definition EffectiveLimits (e : env) (actor : User) (keyID connectionID : string) (s : db) : result (list EffectiveLimit) * db :=
  match limits_owner actor keyID s with
  | Err err => (Err err, s)
  | Ok owner =>
    match effectiveTime e s with
    | (Err err, s) => (Err err, s)
    | (Ok effective, s) =>
      let items := map (effective_limit s effective) (matchingPolicies s owner keyID connectionID) in
      if forallb dashboard_safe items then (Ok items, s)
      else (Err (Msg "limit counters exceed the dashboard-safe integer range"), s)
    end
  end.

(** * What is shown is what is enforced *)

Lemma remainingCapacity_spec (limit consumed reserved : Z) :
  0 <= limit <= max_int64 -> 0 <= consumed <= max_int64 -> 0 <= reserved <= max_int64 ->
  remainingCapacity limit consumed reserved = Z.max 0 (limit - consumed - reserved).
Proof.
  intros Hl Hc Hr. unfold remainingCapacity. rewrite !wrap64_id by (unfold_ints; lia).
  assert (Forall in_int64 [limit; - consumed; - reserved]) as Hv by (repeat constructor; unfold_ints; lia).
  destruct (checkedAdd [limit; - consumed; - reserved]) as [n|] eqn:E.
  - apply checkedAdd_exact in E as [-> _]; [|done]. cbn. destruct (Z.ltb_spec (limit + (- consumed + (- reserved + 0))) 0); lia.
  - destruct (Z.le_gt_cases min_int64 (limit - consumed - reserved)) as [Hge|Hlt]; [|unfold_ints; lia]. exfalso.
    assert (checkedAdd [limit; - consumed; - reserved] = Some (limit - consumed - reserved)); [|congruence].
    unfold checkedAdd. apply checkedAdd_from_Some; [unfold_ints; lia|done|]. cbn. unfold_ints. split_and!; lia.
Qed.

(** A policy as the schema and the policy service leave it. *)
Record policy_runs (p : runtimePolicy) : Prop := {
  cu_limit : 0 < rp_Limit p <= max_int64;
  cu_rates : rp_Algorithm p = TokenBucket -> 0 <= rp_Refill p <= max_int64 /\ 0 < rp_RefillInterval p <= max_int64;
  cu_metric : rp_Metric p = MConcurrency <-> rp_Algorithm p = Concurrency }.

Lemma matching_runs s user key connection p :
  policies_ok s -> p ∈ matchingPolicies s user key connection -> policy_runs p.
Proof.
  intros Hok Hp. apply list_elem_of_fmap in Hp as ([id row] & -> & Hp). rewrite merge_sort_Permutation in Hp.
  apply elem_of_select_rows in Hp as [Hrow _]. destruct (map_Forall_lookup_1 _ _ _ _ Hok Hrow) as ((_ & Hl & _ & _ & _ & Ha) & Hmax & _ & Hr & Hi).
  unfold maxSafeInteger in *. constructor; cbn; [unfold max_int64; lia| |].
  - intros E. rewrite E in Ha. unfold max_int64. lia.
  - destruct (p_Algorithm row); destruct Ha as (_ & _ & _ & _ & Ha); (split; intros E; [|done || exact Ha]);
      (done || (exfalso; rewrite E in Ha; repeat destruct Ha as [Ha|Ha]; done)).
Qed.

(** The counters a policy's evaluation reads are in their ranges. *)
Record counters_ok (s : db) (effective : Z) (p : runtimePolicy) : Prop := {
  cu_period : forall q, t_periods s !! (rp_ID p, fst (periodBounds p effective)) = Some q ->
    0 <= q_Consumed q <= max_int64 /\ 0 <= q_Reserved q <= max_int64;
  cu_bucket : forall b, t_buckets s !! rp_ID p = Some b ->
    0 <= b_Remaining b <= max_int64 /\ 0 <= b_LastRefill b <= b_LastEffective b /\ b_LastEffective b <= max_int64 /\
    0 <= b_Remainder b < rp_RefillInterval p;
  cu_leases : lease_count s (rp_ID p) <= max_int64;
  cu_now : 0 <= effective <= max_int64 }.

Definition accepted {A} (r : result A) : bool := match r with Ok _ => true | Err _ => false end.

Lemma saturatingAdd_range a b : 0 <= a <= max_int64 -> 0 <= b <= max_int64 -> saturatingAdd a b = Z.min max_int64 (a + b).
Proof.
  intros Ha Hb. unfold saturatingAdd. rewrite checkedAdd2 by (unfold_ints; lia). destruct (decide _) as [H|H]; unfold_ints; lia.
Qed.

(** What is left of a bucket: its limit, or what it holds refilled. *)
Lemma bucket_remaining s effective p units reserve :
  policy_runs p -> counters_ok s effective p -> rp_Algorithm p = TokenBucket ->
  accepted (evaluate_bucket s p effective units reserve) = (units <=? el_Remaining (effective_limit s effective p)).
Proof.
  intros [Hl Hr _] [_ Hb _ Hnow] Ha. destruct (Hr Ha) as [Hrate Hint]. unfold effective_limit. rewrite Ha. unfold evaluate_bucket.
  destruct (t_buckets s !! rp_ID p) as [b|]; cbn [from_option id b_Remaining b_Remainder b_LastRefill b_LastEffective].
  - destruct (Hb b eq_refl) as (Hrem & Hlast & Hle & Hrm). rewrite !max_spec.
    set (elapsed := Z.max effective (b_LastEffective b) - b_LastRefill b).
    assert (0 <= elapsed <= max_int64) by (unfold elapsed; lia).
    rewrite wrap64_id by (unfold_ints; lia). rewrite (Z.max_r 0 elapsed) by lia.
    destruct (refillAmount elapsed (rp_Refill p) (rp_RefillInterval p) (b_Remainder b)) as [[refill next]|err] eqn:E.
    2:{ rewrite refillAmount_exact in E by lia. cbv zeta in E. repeat case_match; done. }
    apply refillAmount_range in E as [Hq _]; [|lia..]. cbn [mbind result_bind el_Remaining]. rewrite saturatingAdd_range, min_spec by lia.
    set (held := Z.min max_int64 (b_Remaining b + refill)).
    destruct (Z.leb_spec (rp_Limit p) held).
    + rewrite Z.min_l by lia. destruct (Z.ltb_spec (rp_Limit p) units), (Z.leb_spec units (rp_Limit p)); cbn; done || lia.
    + rewrite Z.min_r by lia. destruct (Z.ltb_spec held units), (Z.leb_spec units held); cbn; done || lia.
  - rewrite !max_spec, Z.max_id, Z.sub_diag. change (wrap64 0) with 0. change (Z.max 0 0) with 0.
    destruct (refillAmount 0 (rp_Refill p) (rp_RefillInterval p) 0) as [[refill next]|err] eqn:E.
    2:{ rewrite refillAmount_exact in E by lia. cbv zeta in E. repeat case_match; done. }
    rewrite refillAmount_exact in E by lia. cbv zeta in E. rewrite Z.mul_0_l, Z.add_0_l, Z.div_0_l, Z.mod_0_l in E by lia.
    destruct (Z.leb_spec (rp_RefillInterval p * two64) 0); [unfold two64 in *; lia|]. cbn in E. injection E as <- <-.
    cbn [mbind result_bind el_Remaining]. rewrite saturatingAdd_range by lia.
    destruct (Z.leb_spec (rp_Limit p) (Z.min max_int64 (rp_Limit p + 0))); [|lia].
    destruct (Z.ltb_spec (rp_Limit p) units), (Z.leb_spec units (rp_Limit p)); cbn; done || lia.
Qed.

Lemma period_remaining s effective p units reserve :
  policy_runs p -> counters_ok s effective p -> rp_Algorithm p = FixedWindow \/ rp_Algorithm p = Quota -> 0 < units <= max_int64 ->
  accepted (evaluate_period s p effective units reserve) = (units <=? el_Remaining (effective_limit s effective p)).
Proof.
  intros [Hl _ _] [Hp _ _ _] Ha Hu.
  assert (el_Remaining (effective_limit s effective p) =
    let '(c, r) := match t_periods s !! (rp_ID p, fst (periodBounds p effective)) with Some q => (q_Consumed q, q_Reserved q) | None => (0, 0) end in
    remainingCapacity (rp_Limit p) c r) as ->.
  { unfold effective_limit. destruct Ha as [-> | ->]; destruct (periodBounds p effective) as [start end_]; cbn; by destruct (t_periods s !! _). }
  unfold evaluate_period. destruct (periodBounds p effective) as [start end_]. cbn [fst] in *.
  set (cr := match t_periods s !! _ with Some q => _ | None => _ end) in *.
  assert (0 <= cr.1 <= max_int64 /\ 0 <= cr.2 <= max_int64) as [Hc Hr].
  { unfold cr. destruct (t_periods s !! _) as [q|]; [by apply Hp|unfold max_int64; cbn; lia]. }
  destruct cr as [c r]. cbn in Hc, Hr. rewrite remainingCapacity_spec by lia.
  destruct (checkedAdd [c; r; units]) as [used|] eqn:E.
  - apply checkedAdd_nonneg in E as [-> _]; [|repeat constructor; lia]. cbn [foldr].
    destruct (Z.ltb_spec (rp_Limit p) (c + (r + (units + 0)))), (Z.leb_spec units (Z.max 0 (rp_Limit p - c - r))); cbn; done || lia.
  - destruct (Z.leb_spec units (Z.max 0 (rp_Limit p - c - r))); [|done]. exfalso.
    assert (checkedAdd [c; r; units] = Some (c + (r + (units + 0)))); [|congruence].
    apply checkedAdd_nonneg; [repeat constructor; lia|]. split; [done|lia].
Qed.

(** What an attempt asks of a policy: the units it is charged, one lease of a
    concurrency policy it does not hold yet. *)
Definition asks (s : db) (p : runtimePolicy) (requestID attemptID : string) (units : Z) : Prop :=
  if decide (rp_Metric p = MConcurrency)
  then units = 1 /\ t_leases s !! (if decide (rp_ScopeKind p = ScopeConnection) then (rp_ID p, LeaseAttempt, attemptID) else (rp_ID p, LeaseRequest, requestID)) = None
  else True.

Lemma lease_remaining s effective p requestID attemptID :
  policy_runs p -> counters_ok s effective p -> rp_Algorithm p = Concurrency -> asks s p requestID attemptID 1 -> rp_Metric p = MConcurrency ->
  accepted (evaluate_concurrency s p requestID attemptID) = (1 <=? el_Remaining (effective_limit s effective p)).
Proof.
  intros [Hl _ _] [_ _ Hle _] Ha Hasks Em. unfold asks in Hasks. rewrite decide_True in Hasks by done. destruct Hasks as [_ Hnone].
  unfold evaluate_concurrency, effective_limit. rewrite Ha. cbn [el_Remaining].
  assert (0 <= lease_count s (rp_ID p)) by (unfold lease_count; lia).
  rewrite remainingCapacity_spec by (unfold max_int64 in *; lia).
  destruct (decide (rp_ScopeKind p = ScopeConnection)); rewrite Hnone;
    destruct (Z.leb_spec (rp_Limit p) (lease_count s (rp_ID p))), (Z.leb_spec 1 (Z.max 0 (rp_Limit p - lease_count s (rp_ID p) - 0))); cbn; done || lia.
Qed.

(** Evaluating one policy agrees with what is shown of it. *)
Lemma limit_enforced s effective p first requestID attemptID i tokens cost units reserve :
  policy_runs p -> counters_ok s effective p ->
  plan_units p first i tokens cost = Ok (Some (if decide (rp_Metric p = MConcurrency) then 0 else units, reserve)) ->
  0 < units <= max_int64 -> asks s p requestID attemptID units ->
  accepted (evaluatePolicy s p effective first requestID attemptID i tokens cost) = (units <=? el_Remaining (effective_limit s effective p)).
Proof.
  intros Hruns Hok Hplan Hu Hasks. pose proof (cu_metric p Hruns) as Hmc. unfold evaluatePolicy. rewrite Hplan. cbn [mbind result_bind].
  destruct (decide (rp_Metric p = MConcurrency)) as [Em|Em].
  - assert (units = 1) as -> by (unfold asks in Hasks; rewrite decide_True in Hasks by done; by destruct Hasks).
    apply lease_remaining; [done|done|by apply Hmc|done..].
  - assert (rp_Algorithm p <> Concurrency) as Ea by (intros H; by apply Em, Hmc).
    destruct (decide (rp_Algorithm p = Ceiling)) as [Ec|Ec].
    { unfold effective_limit. rewrite Ec. cbn. destruct (Z.ltb_spec (rp_Limit p) units), (Z.leb_spec units (rp_Limit p)); cbn; done || lia. }
    destruct (Z.ltb_spec units 0); [lia|]. destruct (Z.eqb_spec units 0); [lia|]. cbn [andb].
    destruct (decide (rp_Algorithm p = TokenBucket)) as [Eb|Eb]; [by apply bucket_remaining|].
    apply period_remaining; [done|done| |lia]. destruct (rp_Algorithm p); auto; done.
Qed.

Lemma limits_owner_Ok actor keyID s owner :
  limits_owner actor keyID s = Ok owner ->
  exists a, t_users s !! us_ID actor = Some a /\ u_Status a = UActive /\
    (owner = us_ID actor \/ u_Role a = Owner \/ u_Role a = Admin /\ exists u, t_users s !! owner = Some u /\ u_Role u = Member).
Proof.
  intros H. unfold limits_owner in H. apply result_bind_Ok in H as (a & Ha & H).
  apply refreshUsageActor_Ok in Ha as (Eid & u & Hu & Hst & Hrole). exists u. split_and!; [done..|].
  destruct (t_keys s !! keyID) as [k|]; [|done]. apply result_bind_Ok in H as (? & Hm%ensure_Ok & H).
  rewrite Eid in Hm, H. destruct (String.eqb_spec (k_Owner k) (us_ID actor)) as [E|E].
  - left. rewrite andb_false_r in H. congruence.
  - right. rewrite Hrole in Hm, H. destruct (u_Role u); cbn in Hm, H; [by left| |done]. right.
    destruct (t_users s !! k_Owner k) as [o|] eqn:Eo; [|done]. apply result_bind_Ok in H as (? & Ho%ensure_Ok & [= <-]).
    split; [done|]. exists o. split; [done|]. by eapply bool_decide_eq_true_1.
Qed.

(** C33: What the limits page shows is what admission enforces. [EffectiveLimits]
    lists exactly the policies an attempt of the key over the connection is
    charged to, and whatever positive amount an attempt asks of one of them,
    admission at that time accepts it for that policy exactly when it is at
    most the remaining units shown, where policies and counters are within the
    bounds their services keep. Only the key's owner, an instance owner,
    or an admin looking at a member's key is shown them. *)
Theorem EffectiveLimits_is_enforced (e : env) (actor : User) (keyID connectionID : string) (s s' : db) (items : list EffectiveLimit) :
  policies_ok s -> EffectiveLimits e actor keyID connectionID s = (Ok items, s') ->
  exists owner a effective, t_users s !! us_ID actor = Some a /\ u_Status a = UActive /\
    (owner = us_ID actor \/ u_Role a = Owner \/ u_Role a = Admin /\ exists u, t_users s !! owner = Some u /\ u_Role u = Member) /\
    effectiveTime e s = (Ok effective, s') /\
    map el_Policy items = matchingPolicies s' owner keyID connectionID /\
    forall item i first requestID attemptID tokens cost units reserve,
      item ∈ items -> counters_ok s' effective (el_Policy item) ->
      plan_units (el_Policy item) first i tokens cost = Ok (Some (if decide (rp_Metric (el_Policy item) = MConcurrency) then 0 else units, reserve)) ->
      0 < units <= max_int64 -> asks s' (el_Policy item) requestID attemptID units ->
      accepted (evaluatePolicy s' (el_Policy item) effective first requestID attemptID i tokens cost) = (units <=? el_Remaining item).
Proof.
  intros Hok. unfold EffectiveLimits. destruct (limits_owner actor keyID s) as [owner|] eqn:Ho; [|done].
  destruct (effectiveTime e s) as [[effective|] s1] eqn:Et; [|done]. destruct (forallb dashboard_safe _); [|done].
  assert (policies_ok s1) as Hok1 by (unfold effectiveTime, commit, effectiveTimeTx, effectiveTimeTxAtLeast in Et; cbn in Et; by simplify_eq/=).
  intros [= <- <-]. apply limits_owner_Ok in Ho as (a & Ha & Hst & Hwho). exists owner, a, effective.
  assert (forall p, el_Policy (effective_limit s1 effective p) = p) as Hpol.
  { intros p. unfold effective_limit. destruct (rp_Algorithm p); try done; [by destruct (t_buckets s1 !! _)|..];
      destruct (periodBounds p effective); by destruct (t_periods s1 !! _). }
  split_and!; [done..| |].
  - rewrite map_map. rewrite (map_ext _ id), map_id; [done|]. apply Hpol.
  - intros item i first rid aid tokens cost units reserve (p & -> & Hp)%list_elem_of_fmap. rewrite Hpol.
    apply limit_enforced. by eapply matching_runs.
Qed.
