(* ===== verification/Sha256.v ===== *)
(** SHA-256 as [crypto/sha256] computes it, on byte strings: the padding, the
    message schedule, the 64 rounds on eight 32-bit words, and the 32-byte
    digest; [BigEndianUint64] is [binary.BigEndian.Uint64] of its first eight
    bytes, the number the router draws from a request's seed. *)
From S2P Require Import Prelude GoStd.

Definition word32 (x : Z) : Z := x mod 4294967296.
Definition RotateRight32 (x n : Z) : Z :=
  Z.lor (Z.shiftr x n) (word32 (Z.shiftl x (32 - n))).

(** The constants are the first 32 fractional bits of the cube roots of the
    first 64 primes, and of the square roots of the first eight. *)
Definition is_prime (n : nat) : bool := forallb (fun d => negb (Nat.eqb (n mod d) 0)) (seq 2 (n - 2)).
Definition first_primes : list Z := map Z.of_nat (List.filter is_prime (seq 2 310)).

(** The largest [r] below [2 ^ bits] with [r ^ 3 <= x], bit by bit. *)
Fixpoint cube_root (bits : nat) (r x : Z) : Z :=
  match bits with
  | O => r
  | S bits => let r' := r + 2 ^ Z.of_nat bits in cube_root bits (if r' ^ 3 <=? x then r' else r) x
  end.

Definition round_constants : list Z :=
  Eval vm_compute in map (fun p => word32 (cube_root 35 0 (Z.shiftl p 96))) first_primes.
Definition initial_words : list Z :=
  Eval vm_compute in map (fun p => word32 (Z.sqrt (Z.shiftl p 64))) (firstn 8 first_primes).

(** The low [n] bytes of [x], most significant first. *)
Fixpoint big_endian (n : nat) (x : Z) : list Z :=
  match n with
  | O => []
  | S n => Z.shiftr x (8 * Z.of_nat n) mod 256 :: big_endian n x
  end.

Fixpoint big_endian_value (l : list Z) (acc : Z) : Z :=
  match l with [] => acc | b :: l => big_endian_value l (acc * 256 + b) end.

(** The message, a set bit, zeroes up to 56 modulo 64, and the bit length. *)
Definition padded (m : list Z) : list Z :=
  let n := Z.of_nat (length m) in
  m ++ [128] ++ repeat 0 (Z.to_nat ((55 - n) mod 64)) ++ big_endian 8 (8 * n).

Fixpoint chunks (fuel k : nat) (l : list Z) : list (list Z) :=
  match fuel, l with
  | S fuel, _ :: _ => firstn k l :: chunks fuel k (skipn k l)
  | _, _ => []
  end.

(** The schedule, newest word first. *)
Definition schedule_word (w : list Z) : Z :=
  let s0 := let x := nth 14 w 0 in
            Z.lxor (Z.lxor (RotateRight32 x 7) (RotateRight32 x 18)) (Z.shiftr x 3) in
  let s1 := let x := nth 1 w 0 in
            Z.lxor (Z.lxor (RotateRight32 x 17) (RotateRight32 x 19)) (Z.shiftr x 10) in
  word32 (nth 15 w 0 + s0 + nth 6 w 0 + s1).
Fixpoint extended (n : nat) (w : list Z) : list Z :=
  match n with O => w | S n => extended n (schedule_word w :: w) end.

Definition sha_round (st : list Z) (kw : Z * Z) : list Z :=
  match st with
  | [a; b; c; d; e; f; g; h] =>
      let s1 := Z.lxor (Z.lxor (RotateRight32 e 6) (RotateRight32 e 11)) (RotateRight32 e 25) in
      let ch := Z.lxor (Z.land e f) (Z.land (Z.lxor e 0xffffffff) g) in
      let t1 := h + s1 + ch + kw.1 + kw.2 in
      let s0 := Z.lxor (Z.lxor (RotateRight32 a 2) (RotateRight32 a 13)) (RotateRight32 a 22) in
      let maj := Z.lxor (Z.lxor (Z.land a b) (Z.land a c)) (Z.land b c) in
      [word32 (t1 + s0 + maj); a; b; c; word32 (d + t1); e; f; g]
  | _ => st
  end.

Definition sha_block (st : list Z) (block : list Z) : list Z :=
  let words := map (fun b => big_endian_value b 0) (chunks 16 4 block) in
  let schedule := rev (extended 48 (rev words)) in
  zip_with (fun x y => word32 (x + y)) st (fold_left sha_round (zip round_constants schedule) st).

(** [sha256.Sum256]. *)
Definition Sum256 (s : string) : list Z :=
  let m := padded (bytes s) in
  concat (map (big_endian 4) (fold_left sha_block (chunks (length m) 64 m) initial_words)).

Definition BigEndianUint64 (l : list Z) : Z := big_endian_value (firstn 8 l) 0.

(** The test vectors of the standard. *)
Example Sum256_empty :
  Sum256 "" = big_endian 32 0xe3b0c44298fc1c149afbf4c8996fb92427ae41e4649b934ca495991b7852b855.
Proof. vm_compute. reflexivity. Qed.

Example Sum256_abc :
  Sum256 "abc" = big_endian 32 0xba7816bf8f01cfea414140de5dae2223b00361a396177a9cb410ff61f20015ad.
Proof. vm_compute. reflexivity. Qed.

Example Sum256_two_blocks :
  Sum256 "abcdbcdecdefdefgefghfghighijhijkijkljklmklmnlmnomnopnopq"
  = big_endian 32 0x248d6a61d20638b8e5c026930c3e6039a33ce45964ff2167f6ecedd419db06c1.
Proof. vm_compute. reflexivity. Qed.

Lemma big_endian_bytes (n : nat) (x : Z) : Forall (fun b => 0 <= b < 256) (big_endian n x).
Proof. induction n; cbn; constructor; [apply Z.mod_pos_bound; lia|done]. Qed.

Lemma Sum256_bytes (s : string) : Forall (fun b => 0 <= b < 256) (Sum256 s).
Proof. apply Forall_concat, Forall_map, Forall_true. intros. apply big_endian_bytes. Qed.

Lemma big_endian_value_bound (l : list Z) (acc : Z) :
  Forall (fun b => 0 <= b < 256) l -> 0 <= acc ->
  0 <= big_endian_value l acc < (acc + 1) * 256 ^ Z.of_nat (length l).
Proof.
  intros Hl. revert acc. induction Hl as [|b l Hb Hl IH]; intros acc Ha; cbn [big_endian_value length]; [lia|].
  rewrite Nat2Z.inj_succ, Z.pow_succ_r by lia.
  pose proof (IH (acc * 256 + b) ltac:(lia)). pose proof (Z.pow_pos_nonneg 256 (Z.of_nat (length l))). nia.
Qed.

(** The number drawn from a seed is a [uint64]. *)
Lemma BigEndianUint64_range (s : string) : in_uint64 (BigEndianUint64 (Sum256 s)).
Proof.
  unfold BigEndianUint64.
  assert (Forall (fun b => 0 <= b < 256) (firstn 8 (Sum256 s))) as Hb.
  { apply Forall_take. apply Sum256_bytes. }
  pose proof (big_endian_value_bound _ 0 Hb ltac:(lia)) as H.
  assert (256 ^ Z.of_nat (length (firstn 8 (Sum256 s))) <= 256 ^ 8).
  { apply Z.pow_le_mono_r; [lia|]. pose proof (firstn_le_length 8 (Sum256 s)). lia. }
  unfold in_uint64, two64. lia.
Qed.
