(* ===== verification/Catalogue.v ===== *)
(** The provider catalogue ([internal/features/providers/presets.go] and the
    capability tables of [service.go]): the built-in presets with the
    operations they support, the capabilities of models and the operations
    that need them, and the forms of public model ids and capability lists. *)
From S2P Require Import Prelude GoStd Money Counters Policy Json Store PathMatch Grants.
Open Scope string_scope.

(** * Tables *)

(** A preset without its labels and documentation links. *)
Record Preset := mkPreset {
  ps_ID : string; ps_Adapter : string; ps_BaseURL : string; ps_CredentialRequired : bool;
  ps_PrivateNetwork : bool; ps_Operations : list string }.

Definition presets : list Preset :=
  [mkPreset "openai" "openai" "https://api.openai.com/v1" true false
     ["chat/completions"; "completions"; "responses"; "responses/compact"; "responses/input_tokens"; "embeddings";
      "moderations"; "images/generations"; "images/edits"; "images/variations"; "audio/speech";
      "audio/transcriptions"; "audio/translations"; "realtime"; "live"];
   mkPreset "anthropic" "anthropic" "https://api.anthropic.com/v1" true false ["messages"; "messages/count_tokens"];
   mkPreset "gemini" "gemini" "https://generativelanguage.googleapis.com/v1beta" true false
     ["generateContent"; "streamGenerateContent"; "countTokens"; "embedContent"; "batchEmbedContents";
      "interactions"; "BidiGenerateContent"; "predictLongRunning"];
   mkPreset "openrouter" "openai_compatible" "https://openrouter.ai/api/v1" true false
     ["chat/completions"; "responses"; "embeddings"; "audio/speech"];
   mkPreset "zai" "openai_compatible" "https://api.z.ai/api/paas/v4" true false ["chat/completions"; "images/generations"];
   mkPreset "minimax" "openai_compatible" "https://api.minimax.io/v1" true false
     ["chat/completions"; "responses"; "responses/input_tokens"];
   mkPreset "ollama" "openai_compatible" "http://127.0.0.1:11434/v1" false true ["chat/completions"; "embeddings"];
   mkPreset "mistral" "openai_compatible" "https://api.mistral.ai/v1" true false
     ["chat/completions"; "embeddings"; "audio/transcriptions"];
   mkPreset "groq" "openai_compatible" "https://api.groq.com/openai/v1" true false
     ["chat/completions"; "responses"; "audio/speech"; "audio/transcriptions"; "audio/translations"];
   mkPreset "deepseek" "openai_compatible" "https://api.deepseek.com" true false ["chat/completions"; "responses"];
   mkPreset "xai" "openai_compatible" "https://api.x.ai/v1" true false ["chat/completions"; "responses"; "embeddings"];
   mkPreset "together" "openai_compatible" "https://api.together.ai/v1" true false
     ["chat/completions"; "completions"; "embeddings"; "images/generations"; "audio/speech"; "audio/transcriptions";
      "audio/translations"; "videos"];
   mkPreset "replicate" "openai_compatible" "https://api.replicate.com/v1" true false ["predictions"];
   mkPreset "fireworks" "openai_compatible" "https://api.fireworks.ai/inference/v1" true false
     ["chat/completions"; "completions"; "responses"; "embeddings"];
   mkPreset "cohere" "openai_compatible" "https://api.cohere.ai/compatibility/v1" true false
     ["chat/completions"; "embeddings"];
   mkPreset "perplexity" "openai_compatible" "https://api.perplexity.ai/v1" true false
     ["chat/completions"; "responses"; "embeddings"];
   mkPreset "azure-openai" "openai_compatible" "" true false ["chat/completions"; "responses"];
   mkPreset "bedrock" "openai_compatible" "" true false ["chat/completions"; "responses"];
   mkPreset "typesafe" "openai_compatible" "https://api.typesafe.ai/v1" true false ["systemone"];
   mkPreset "laya" "openai_compatible" "http://127.0.0.1:8000/v1" false true ["systemone"];
   mkPreset "codiv" "openai_compatible" "https://api.codiv.ai/v1" true false ["systemone"];
   mkPreset "vercel-typesafe" "openai_compatible" "https://ai-gateway.vercel.sh/typesafe/v1" true false ["systemone"];
   mkPreset "kev" "openai_compatible" "http://127.0.0.1:8009/v1" false true ["systemone"];
   mkPreset "clm" "openai_compatible" "http://127.0.0.1:8700/v1" false true ["systemone"];
   mkPreset "openjev" "openai_compatible" "" false true ["systemone"];
   mkPreset "vertex" "openai_compatible" "" true false ["chat/completions"]].

(** The capabilities of each adapter; [None] where the map has no entry. *)
Definition adapters (name : string) : option (list string) :=
  if name =s "openai" then
    Some ["chat"; "completions"; "web_search"; "embeddings"; "moderations"; "count_tokens"; "images"; "image_edit";
          "image_variation"; "audio_speech"; "audio_transcription"; "audio_translation"; "realtime"]
  else if name =s "anthropic" then
    Some ["chat"; "web_search"; "web_search_dynamic"; "web_search_response_inclusion"; "web_fetch";
          "web_fetch_dynamic"; "web_fetch_cache_bypass"; "web_fetch_response_inclusion"; "count_tokens"; "prompt_cache"]
  else if name =s "gemini" then
    Some ["chat"; "count_tokens"; "embeddings"; "interactions"; "realtime"; "media_jobs"]
  else if name =s "openai_compatible" then
    Some ["chat"; "completions"; "embeddings"; "moderations"; "count_tokens"; "images"; "image_edit";
          "image_variation"; "audio_speech"; "audio_transcription"; "audio_translation"; "media_jobs"; "decisions"]
  else None.

(** The keys of [capabilityLabels]. *)
Definition known_capabilities : list string :=
  ["audio_speech"; "audio_transcription"; "audio_translation"; "chat"; "completions"; "count_tokens"; "decisions";
   "embeddings"; "image_edit"; "image_variation"; "images"; "interactions"; "moderations"; "media_jobs";
   "prompt_cache"; "realtime"; "web_fetch"; "web_fetch_cache_bypass"; "web_fetch_dynamic";
   "web_fetch_response_inclusion"; "web_search"; "web_search_dynamic"; "web_search_response_inclusion"].

Definition assoc (l : list (string * string)) (key : string) : string :=
  match find (fun kv => kv.1 =s key) l with Some kv => kv.2 | None => "" end.

Definition scopeCapabilities : list (string * string) :=
  [("audio:speech", "audio_speech"); ("audio:transcribe", "audio_transcription"); ("audio:translate", "audio_translation");
   ("chat:generate", "chat"); ("completions:generate", "completions"); ("decisions:generate", "decisions");
   ("embeddings:generate", "embeddings"); ("images:edit", "image_edit"); ("images:generate", "images");
   ("images:variation", "image_variation"); ("interactions:generate", "interactions");
   ("moderations:classify", "moderations"); ("media:generate", "media_jobs"); ("realtime:connect", "realtime");
   ("responses:generate", "chat"); ("tokens:count", "count_tokens")].

Definition CapabilityForScope (scope : string) : string := assoc scopeCapabilities scope.
Definition SupportsScope (values : list string) (scope : string) : bool :=
  let wanted := CapabilityForScope scope in negb (wanted =s "") && contains values wanted.

(** * Operations and presets *)

(** The operation named by a request path: without the query, the leading
    slashes, and what stands before the last colon. *)
Definition operation_name (operation : string) : string :=
  let operation := TrimLeft (hd "" (Split operation "?")) "/" in
  List.last (Split operation ":") "".

Definition preset_of (id : string) : option Preset := find (fun p => ps_ID p =s id) presets.

Definition PresetSupports (presetID operation : string) : bool :=
  if (presetID =s "") || (presetID =s "custom") then true
  else match preset_of presetID with
       | Some p => contains (ps_Operations p) (operation_name operation)
       | None => false
       end.

Definition operationCapability (operation : string) : string :=
  if operation =s "completions" then "completions"
  else if contains ["chat/completions"; "messages"; "generateContent"; "streamGenerateContent"; "responses"; "responses/compact"] operation then "chat"
  else if contains ["embeddings"; "embedContent"; "batchEmbedContents"] operation then "embeddings"
  else if operation =s "moderations" then "moderations"
  else if operation =s "systemone" then "decisions"
  else if operation =s "images/generations" then "images"
  else if operation =s "images/edits" then "image_edit"
  else if operation =s "images/variations" then "image_variation"
  else if operation =s "audio/speech" then "audio_speech"
  else if operation =s "audio/transcriptions" then "audio_transcription"
  else if operation =s "audio/translations" then "audio_translation"
  else if contains ["responses/input_tokens"; "messages/count_tokens"; "countTokens"] operation then "count_tokens"
  else if operation =s "interactions" then "interactions"
  else if contains ["realtime"; "live"; "BidiGenerateContent"] operation then "realtime"
  else if contains ["predictions"; "videos"; "predictLongRunning"] operation then "media_jobs"
  else "".

(** The operations [PresetSupportsCapabilities] tries. *)
Definition tried_operations : list string :=
  ["chat/completions"; "completions"; "messages"; "generateContent"; "responses"; "responses/compact";
   "responses/input_tokens"; "embeddings"; "embedContent"; "batchEmbedContents"; "moderations"; "images/generations";
   "images/edits"; "images/variations"; "audio/speech"; "audio/transcriptions"; "audio/translations";
   "messages/count_tokens"; "countTokens"; "interactions"; "realtime"; "live"; "BidiGenerateContent"; "predictions";
   "videos"; "predictLongRunning"; "systemone"].

Definition preset_supports_capability (presetID capability : string) : bool :=
  if capability =s "prompt_cache" then presetID =s "anthropic"
  else if capability =s "web_search" then (presetID =s "openai") || (presetID =s "anthropic")
  else if contains ["web_search_dynamic"; "web_search_response_inclusion"; "web_fetch_dynamic"; "web_fetch_cache_bypass";
                    "web_fetch_response_inclusion"] capability then presetID =s "anthropic"
  else if capability =s "web_fetch" then presetID =s "anthropic"
  else if capability =s "media_jobs" then contains ["replicate"; "together"; "gemini"; "custom"] presetID
  else existsb (fun operation => (operationCapability operation =s capability) && PresetSupports presetID operation) tried_operations.

Definition PresetSupportsCapabilities (presetID : string) (capabilities : list string) : bool :=
  forallb (preset_supports_capability presetID) capabilities.

Definition PresetSupportsModelCapabilities (presetID upstreamID : string) (capabilities : list string) : bool :=
  PresetSupportsCapabilities presetID capabilities
  && negb ((presetID =s "openai") && negb (upstreamID =s "whisper-1") && contains capabilities "audio_translation")
  && negb ((presetID =s "openai") && negb (upstreamID =s "dall-e-2") && contains capabilities "image_variation")
  && negb ((presetID =s "openai") && (contains capabilities "image_edit" && (upstreamID =s "dall-e-2"))).

Definition availableCapabilities (presetID adapter : string) : list string :=
  List.filter (fun c => PresetSupportsCapabilities presetID [c]) (default [] (adapters adapter)).

Definition presetCredentialRequired (presetID : string) : bool :=
  match preset_of presetID with Some p => ps_CredentialRequired p | None => true end.

Definition PresetOperationPath (presetID operation : string) : string :=
  if (presetID =s "perplexity") && (operation =s "chat/completions") then "sonar" else operation.

Definition presetAllowed (id adapter : string) : bool :=
  if id =s "custom" then true else existsb (fun p => (ps_ID p =s id) && (ps_Adapter p =s adapter)) presets.

(** * Capability lists and public ids *)

(** [normalizeCapabilities]: trimmed, without blanks and duplicates, sorted. *)
Definition normalizeCapabilities (values : list string) : list string :=
  SliceStable String.ltb (unique (List.filter (fun v => negb (v =s "")) (map TrimSpace values))).

Definition hosted_capability (value : string) : bool :=
  (value =s "prompt_cache") || HasPrefix value "web_search" || HasPrefix value "web_fetch".

Definition capability_parents : list (string * string) :=
  [("web_search_dynamic", "web_search"); ("web_search_response_inclusion", "web_search_dynamic");
   ("web_fetch_dynamic", "web_fetch"); ("web_fetch_cache_bypass", "web_fetch_dynamic");
   ("web_fetch_response_inclusion", "web_fetch_cache_bypass")].

Definition validCapabilities (values : list string) : bool :=
  forallb (contains known_capabilities) values
  && negb (existsb hosted_capability values && negb (contains values "chat"))
  && forallb (fun cp => negb (contains values cp.1 && negb (contains values cp.2))) capability_parents.

(** [NormalizePortableCapabilities]. *)
Definition NormalizePortableCapabilities (values : list string) : list string * bool :=
  let values := normalizeCapabilities values in
  (values, negb (Nat.eqb (length values) 0) && validCapabilities values).

Close Scope string_scope.
Definition id_letter (c : ascii) : bool :=
  let b := byte_of c in
  ((97 <=? b) && (b <=? 122)) || ((65 <=? b) && (b <=? 90)) || ((48 <=? b) && (b <=? 57)).
Definition id_mark (c : ascii) : bool := Ascii.eqb c "."%char || Ascii.eqb c "_"%char || Ascii.eqb c "-"%char.

(** [validPublicID]: a rune outside ASCII is refused, and so is each of its bytes. *)
Definition validPublicID (value : string) : bool :=
  negb (value =s "") && (str_len value <=? 200)
  && match value with
     | EmptyString => true
     | String c rest => id_letter c && str_forall (fun c => id_letter c || id_mark c) rest
     end.

Definition matchesModel (patterns : list string) (model : string) : bool :=
  existsb (fun pattern => matches pattern model) patterns.
