(* ===== verification/Connections.v ===== *)
(** Provider connections ([internal/features/providers/service.go],
    [credential_source.go], [crypto.go], [adapter_scripts.go]): creating and
    changing connections, the credentials and scripts bound to them, the
    upstream models they offer and the public models published over those. *)
From S2P Require Import Prelude GoStd Money Counters Policy Json Store PathMatch Grants Catalogue.

(** * What the service draws from outside

    The network library's views of addresses, the host's environment and
    files, the AES-GCM key of the installation and the JavaScript engine. *)

Record URL := mkURL {
  url_Scheme : string; url_Hostname : string; url_User : bool; url_Fragment : string; url_RawQuery : string;
  url_EscapedPath : string }.

Record Host := mkHost {
  url_Parse : string -> option URL;
  strings_ToLower : string -> string;
  strings_EqualFold : string -> string -> bool;
  (** [net.ParseIP] gives a loopback, private, link-local or unspecified address. *)
  private_ip : string -> bool;
  os_Getenv : string -> string;
  (** The contents of a regular file; [None] when it cannot be read. *)
  os_ReadFile : string -> option string;
  (** AES-GCM under the master key: nonce and additional data first. *)
  aead_Seal : string -> string -> string -> string;
  aead_Open : string -> string -> string -> option string;
  (** The script is a function expression the JavaScript engine accepts. *)
  script_compiles : string -> bool }.

(** * Inputs and views *)

Record ConnectionInput := mkConnectionInput {
  ci_Name : string; ci_Adapter : string; ci_BaseURL : string; ci_Enabled : bool; ci_AllowPrivate : bool;
  ci_TimeoutMS : Z; ci_Preset : string }.

Record Connection := mkConnection {
  co_ID : string; co_Row : ConnectionRow; co_Capabilities : list string; co_CredentialRequired : bool;
  co_CredentialState : string }.

Definition credential_state (c : Credential) : string :=
  match c with External _ => "external" | Sealed _ _ => "stored" | NoCredential => "missing" end.

Definition scanConnection (id : string) (c : ConnectionRow) : Connection :=
  mkConnection id c (availableCapabilities (cn_Preset c) (cn_Adapter c)) (presetCredentialRequired (cn_Preset c))
    (credential_state (cn_Credential c)).

Definition getConnection (id : string) (s : db) : result Connection :=
  match t_connections s !! id with Some c => Ok (scanConnection id c) | None => Err ErrNotFound end.

(** [requireManager]: the actor's current role; the error of a missing row is
    passed on as it is. *)
Definition requireManager (s : db) (actorID : string) : result Role :=
  match t_users s !! actorID with
  | Some u => _ ← ensure (bool_decide (u_Status u = UActive) && is_manager (u_Role u)) ErrDenied; Ok (u_Role u)
  | None => Err ErrNoRows
  end.

Definition audit (e : env) (draw : nat) (actorID action resourceType resourceID : string) : tx db unit :=
  insertAudit (token e draw) actorID action resourceType resourceID [] (now e 9).

(** * External credentials *)

Definition maxProviderCredentialBytes : Z := 16384.

Definition env_letter (c : ascii) : bool :=
  let b := byte_of c in
  ((65 <=? b) && (b <=? 90)) || ((97 <=? b) && (b <=? 122)) || (b =? 95).

(** [filepath.IsAbs(value) && filepath.Clean(value) == value]. *)
Definition clean_absolute (value : string) : bool :=
  HasPrefix value "/"
  && ((value =s "/") || forallb (fun part => negb (contains [""; "."; ".."]%string part)) (tail (Split value "/"%char))).

Inductive CredentialSource := FromEnv | FromFile.

Definition parseExternalCredentialRef (reference : string) : option (CredentialSource * string * bool) :=
  if 1024 <? str_len reference then None else
  let parsed :=
    if HasPrefix reference "bearer-env:" then Some (FromEnv, TrimPrefix reference "bearer-env:", true)
    else if HasPrefix reference "bearer-file:" then Some (FromFile, TrimPrefix reference "bearer-file:", true)
    else if HasPrefix reference "env:" then Some (FromEnv, TrimPrefix reference "env:", false)
    else if HasPrefix reference "file:" then Some (FromFile, TrimPrefix reference "file:", false)
    else None in
  match parsed with
  | Some (FromFile, value, bearer) => if clean_absolute value then Some (FromFile, value, bearer) else None
  | Some (FromEnv, value, bearer) =>
      if (value =s "") || (200 <? str_len value) then None
      else match value with
           | String c rest =>
               if env_letter c && str_forall (fun c => env_letter c || is_digit c) rest
               then Some (FromEnv, value, bearer) else None
           | EmptyString => None
           end
  | None => None
  end.

Definition validExternalRef (reference : string) : bool := is_some (parseExternalCredentialRef reference).

Section Connections.
Variable host : Host.

Definition resolveExternalCredential (reference : string) : result (string * bool) :=
  match parseExternalCredentialRef reference with
  | None => Err (Msg "external provider credential reference is invalid")
  | Some (source, value, bearer) =>
    raw ← match source with
          | FromEnv => Ok (os_Getenv host value)
          | FromFile =>
              match os_ReadFile host value with
              | Some raw => if maxProviderCredentialBytes <? str_len raw
                            then Err (Msg "external provider credential file is invalid") else Ok raw
              | None => Err (Msg "external provider credential file is invalid")
              end
          end;
    let credential := TrimSpace raw in
    if (credential =s "") || (maxProviderCredentialBytes <? str_len credential)
       || ContainsAny credential (String "013" (String "010" ""))
    then Err (Msg "external provider credential is unavailable") else Ok (credential, bearer)
  end.

(** [openSecret]: the connection's id is authenticated with the secret. *)
Definition openSecret (connectionID ciphertext nonce : string) : result string :=
  match aead_Open host nonce connectionID ciphertext with
  | Some secret => Ok secret
  | None => Err (Msg "provider credential cannot be decrypted")
  end.

(** * Connections *)

(** [applyPreset]. *)
Definition applyPreset (i : ConnectionInput) : ConnectionInput :=
  match preset_of (ci_Preset i) with
  | Some p => mkConnectionInput (ci_Name i) (ps_Adapter p) (if ps_BaseURL p =s "" then ci_BaseURL i else ps_BaseURL p)
                (ci_Enabled i) (ps_PrivateNetwork p) (ci_TimeoutMS i) (ci_Preset i)
  | None => i
  end.

Definition presetBaseURLAllowed (preset : string) (parsed : URL) : bool :=
  let hostname := strings_ToLower host (url_Hostname parsed) in
  let path := TrimRight (url_EscapedPath parsed) "/"%char in
  let region prefix suffix := TrimSuffix (TrimPrefix hostname prefix) suffix in
  let regional prefix suffix :=
    HasPrefix hostname prefix && HasSuffix hostname suffix && negb (region prefix suffix =s "")
    && negb (has_byte "."%char (region prefix suffix)) in
  if preset =s "azure-openai" then
    (HasSuffix hostname ".openai.azure.com" || HasSuffix hostname ".services.ai.azure.com") && (path =s "/openai/v1")
  else if preset =s "bedrock" then
    regional "bedrock-runtime."%string ".amazonaws.com"%string && (path =s "/openai/v1")
    || regional "bedrock-mantle."%string ".api.aws"%string && ((path =s "/v1") || (path =s "/openai/v1"))
  else if preset =s "vertex" then
    match Split (TrimRight (TrimLeft path "/"%char) "/"%char) "/"%char with
    | [version; projects; project; locations; location; endpoints; openapi] =>
        ((version =s "v1") || (version =s "v1beta1")) && (projects =s "projects") && negb (project =s "")
        && (locations =s "locations") && negb (location =s "") && (endpoints =s "endpoints") && (openapi =s "openapi")
        && ((hostname =s "aiplatform.googleapis.com") || (hostname =s (location +:+ "-aiplatform.googleapis.com")))
    | _ => false
    end
  else true.

Definition isPrivateHost (hostname : string) : bool :=
  strings_EqualFold host hostname "localhost" || HasSuffix (strings_ToLower host hostname) ".localhost"
  || private_ip host hostname.

Definition normalized (i : ConnectionInput) : ConnectionInput :=
  let preset := TrimSpace (ci_Preset i) in
  let i := applyPreset (mkConnectionInput (TrimSpace (ci_Name i)) (TrimSpace (ci_Adapter i))
             (TrimRight (TrimSpace (ci_BaseURL i)) "/"%char) (ci_Enabled i) (ci_AllowPrivate i) (ci_TimeoutMS i)
             (if preset =s "" then "custom"%string else preset)) in
  mkConnectionInput (ci_Name i) (ci_Adapter i) (ci_BaseURL i) (ci_Enabled i) (ci_AllowPrivate i)
    (if ci_TimeoutMS i =? 0 then 60000 else ci_TimeoutMS i) (ci_Preset i).

Definition validateConnection (input : ConnectionInput) : result ConnectionInput :=
  let i := normalized input in
  _ ← ensure (negb ((ci_Name i =s "") || (200 <? str_len (ci_Name i)) || negb (is_some (adapters (ci_Adapter i)))
                    || negb (presetAllowed (ci_Preset i) (ci_Adapter i))))
        (Msg "name and supported adapter are required");
  let absolute := Msg "base_url must be an absolute URL without credentials, query, or fragment" in
  match url_Parse host (ci_BaseURL i) with
  | None => Err absolute
  | Some u =>
    _ ← ensure (negb ((url_Hostname u =s "") || url_User u || negb (url_Fragment u =s "") || negb (url_RawQuery u =s ""))) absolute;
    _ ← ensure (presetBaseURLAllowed (ci_Preset i) u) (Msg "base_url does not match the selected cloud provider endpoint");
    _ ← ensure ((url_Scheme u =s "https") || (ci_AllowPrivate i && (url_Scheme u =s "http")))
          (Msg "base_url must use HTTPS unless private-network HTTP is enabled");
    _ ← ensure (ci_AllowPrivate i || negb (isPrivateHost (url_Hostname u))) (Msg "base_url cannot target a private network");
    _ ← ensure ((1000 <=? ci_TimeoutMS i) && (ci_TimeoutMS i <=? 600000)) (Msg "timeout_ms must be between 1000 and 600000");
    Ok i
  end.

Definition create_connection_tx (e : env) (actorID : string) (i : ConnectionInput) : tx db string :=
  s ← reads id;
  _ ← lift (requireManager s actorID);
  let id := "con_" +:+ token e 0 in
  _ ← require (bool_decide (t_connections s !! id = None)) ErrConflict;
  _ ← insert_row t_connections set_connections id
        (mkConnectionRow (ci_Name i) (ci_Adapter i) (ci_Preset i) (ci_BaseURL i) (ci_Enabled i) (ci_AllowPrivate i)
           (ci_TimeoutMS i) 1 NoCredential None (now e 0) (now e 0));
  _ ← audit e 1 actorID "provider.connection.create" "provider_connection" id;
  mret id.

Definition CreateConnection (e : env) (actorID : string) (input : ConnectionInput) (s : db) : result Connection * db :=
  match (_ ← requireManager s actorID; validateConnection input) with
  | Err err => (Err err, s)
  | Ok i => match commit (create_connection_tx e actorID i) s with
            | (Ok id, s') => (getConnection id s', s')
            | (Err err, s') => (Err err, s')
            end
  end.

(** ** Updates *)

Definition with_credential (c : Credential) (r : ConnectionRow) : ConnectionRow :=
  mkConnectionRow (cn_Name r) (cn_Adapter r) (cn_Preset r) (cn_BaseURL r) (cn_Enabled r) (cn_AllowPrivate r)
    (cn_TimeoutMS r) (cn_Revision r) c (cn_Scripts r) (cn_Created r) (cn_Updated r).
Definition with_scripts (x : option ScriptRow) (r : ConnectionRow) : ConnectionRow :=
  mkConnectionRow (cn_Name r) (cn_Adapter r) (cn_Preset r) (cn_BaseURL r) (cn_Enabled r) (cn_AllowPrivate r)
    (cn_TimeoutMS r) (cn_Revision r) (cn_Credential r) x (cn_Created r) (cn_Updated r).
Definition with_settings (i : ConnectionInput) (at_ : Z) (r : ConnectionRow) : ConnectionRow :=
  mkConnectionRow (ci_Name i) (ci_Adapter i) (ci_Preset i) (ci_BaseURL i) (ci_Enabled i) (ci_AllowPrivate i)
    (ci_TimeoutMS i) (cn_Revision r + 1) (cn_Credential r) (cn_Scripts r) (cn_Created r) at_.
Definition with_next_revision (at_ : Z) (r : ConnectionRow) : ConnectionRow :=
  mkConnectionRow (cn_Name r) (cn_Adapter r) (cn_Preset r) (cn_BaseURL r) (cn_Enabled r) (cn_AllowPrivate r)
    (cn_TimeoutMS r) (cn_Revision r + 1) (cn_Credential r) (cn_Scripts r) (cn_Created r) at_.

(** The destination a credential is sent to. *)
Definition endpoint_differs (i : ConnectionInput) (r : ConnectionRow) : bool :=
  negb (cn_Adapter r =s ci_Adapter i) || negb (cn_BaseURL r =s ci_BaseURL i) || negb (cn_Preset r =s ci_Preset i).

Definition scriptable (preset adapter : string) : bool := (preset =s "custom") && (adapter =s "openai_compatible").

Definition models_of (s : db) (connectionID : string) : list (string * UpstreamModelRow) :=
  select_rows (fun _ m => um_Connection m =s connectionID) (t_upstream_models s).

Definition update_connection_tx (e : env) (actorID id : string) (revision : Z) (i : ConnectionInput) : tx db unit :=
  s ← reads (fun s => s);
  _ ← lift (requireManager s actorID);
  _ ← require (forallb (fun m => PresetSupportsModelCapabilities (ci_Preset i) (um_UpstreamID m.2) (um_Capabilities m.2)) (models_of s id))
        (Msg "existing model capabilities exceed the selected provider preset");
  _ ← update_row t_connections set_connections id (endpoint_differs i) (with_credential NoCredential);
  _ ← (if scriptable (ci_Preset i) (ci_Adapter i) then mret 0
       else update_row t_connections set_connections id (fun _ => true) (with_scripts None));
  changed ← update_row t_connections set_connections id (fun r => cn_Revision r =? revision) (with_settings i (now e 0));
  _ ← require (changed =? 1) ErrConflict;
  audit e 0 actorID "provider.connection.update" "provider_connection" id.

Definition UpdateConnection (e : env) (actorID id : string) (revision : Z) (input : ConnectionInput) (s : db) : result Connection * db :=
  match (_ ← requireManager s actorID; validateConnection input) with
  | Err err => (Err err, s)
  | Ok i => match commit (update_connection_tx e actorID id revision i) s with
            | (Ok _, s') => (getConnection id s', s')
            | (Err err, s') => (Err err, s')
            end
  end.

(** ** Credentials *)

Definition checked_credential (e : env) (id secret externalRef : string) : result Credential :=
  _ ← ensure (negb (Bool.eqb (secret =s "") (externalRef =s ""))) (Msg "provide exactly one credential or external_ref");
  _ ← ensure ((secret =s "") || (str_len secret <=? 16384)) (Msg "credential is too large");
  _ ← ensure ((externalRef =s "") || validExternalRef externalRef)
        (Msg "external_ref must use env:NAME, file:/absolute/path, bearer-env:NAME, or bearer-file:/absolute/path");
  Ok (if secret =s "" then External externalRef
      else Sealed (aead_Seal host (token e 0) id secret) (token e 0)).

Definition put_credential_tx (e : env) (actorID id : string) (c : Credential) : tx db unit :=
  s ← reads (fun s => s);
  role ← lift (requireManager s actorID);
  _ ← require (match c with External _ => bool_decide (role = Owner) | _ => true end) ErrDenied;
  _ ← update_row t_connections set_connections id (fun _ => true) (with_credential c);
  _ ← update_row t_connections set_connections id (fun _ => true) (with_next_revision (now e 0));
  audit e 1 actorID "provider.credential.replace" "provider_connection" id.

Definition PutCredential (e : env) (actorID id secret externalRef : string) (s : db) : result unit * db :=
  match (_ ← requireManager s actorID; _ ← getConnection id s; checked_credential e id secret externalRef) with
  | Err err => (Err err, s)
  | Ok c => commit (put_credential_tx e actorID id c) s
  end.

(** ** Adapter scripts *)

Definition maxAdapterScriptBytes : Z := Z.shiftl 64 10.

Definition validateAdapterScriptInput (request response : string) : result (string * string) :=
  let request := TrimSpace request in
  let response := TrimSpace response in
  let checked name script :=
    _ ← ensure (str_len script <=? maxAdapterScriptBytes) (Msg (name +:+ " is too large"));
    ensure ((script =s "") || script_compiles host script) (Msg (name +:+ " must be a valid function expression")) in
  _ ← ensure (negb ((request =s "") && (response =s ""))) (Msg "request_script or response_script is required");
  _ ← checked "request_script"%string request;
  _ ← checked "response_script"%string response;
  Ok (request, response).

Definition script_tx (e : env) (actorID action id : string) (revision : Z) (scripts : option ScriptRow) : tx db unit :=
  s ← reads (fun s => s);
  _ ← lift (requireManager s actorID);
  changed ← update_row t_connections set_connections id (fun r => cn_Revision r =? revision) (with_next_revision (now e 0));
  _ ← require (changed =? 1) ErrConflict;
  _ ← update_row t_connections set_connections id (fun _ => true) (with_scripts scripts);
  audit e 0 actorID action "provider_connection" id.

Definition PutAdapterScript (e : env) (actorID id : string) (revision : Z) (request response : string) (s : db) : result unit * db :=
  match (_ ← requireManager s actorID; c ← getConnection id s;
         _ ← ensure (scriptable (cn_Preset (co_Row c)) (cn_Adapter (co_Row c)))
               (Msg "adapter scripts must use a custom OpenAI compatible connection");
         validateAdapterScriptInput request response) with
  | Err err => (Err err, s)
  | Ok (request, response) =>
      commit (script_tx e actorID "provider.adapter_script.update" id revision (Some (mkScriptRow request response (now e 0)))) s
  end.

Definition DeleteAdapterScript (e : env) (actorID id : string) (revision : Z) (s : db) : result unit * db :=
  match requireManager s actorID with
  | Err err => (Err err, s)
  | Ok _ => commit (script_tx e actorID "provider.adapter_script.delete" id revision None) s
  end.

(** * Models *)

Record UpstreamModel := mkUpstreamModel {
  up_ID : string; up_ConnectionID : string; up_UpstreamID : string; up_Capabilities : list string; up_Active : bool }.

Definition create_upstream_model_tx (e : env) (actorID connectionID upstreamID : string) (capabilities : list string) : tx db UpstreamModel :=
  s ← reads (fun s => s);
  _ ← lift (requireManager s actorID);
  let id := "upm_" +:+ token e 0 in
  _ ← require (bool_decide (t_upstream_models s !! id = None)
               && forallb (fun m => negb (um_UpstreamID m.2 =s upstreamID)) (models_of s connectionID)) ErrConflict;
  _ ← insert_row t_upstream_models set_upstream_models id (mkUpstreamModelRow connectionID upstreamID capabilities true);
  _ ← audit e 1 actorID "provider.model.create" "upstream_model" id;
  mret (mkUpstreamModel id connectionID upstreamID capabilities true).

Definition CreateUpstreamModel (e : env) (actorID connectionID upstreamID : string) (capabilities : list string) (s : db) :
    result UpstreamModel * db :=
  let upstreamID := TrimSpace upstreamID in
  let capabilities := normalizeCapabilities capabilities in
  match (_ ← requireManager s actorID; connection ← getConnection connectionID s;
         _ ← ensure (negb ((upstreamID =s "") || (300 <? str_len upstreamID) || Nat.eqb (length capabilities) 0
                           || negb (validCapabilities capabilities))) (Msg "upstream_id and capabilities are required");
         ensure (PresetSupportsModelCapabilities (cn_Preset (co_Row connection)) upstreamID capabilities)
           (Msg "capabilities exceed the selected provider preset")) with
  | Err err => (Err err, s)
  | Ok _ => commit (create_upstream_model_tx e actorID connectionID upstreamID capabilities) s
  end.

(** [ResolvePublicModel]: the row of an active public model whose target
    model and connection exist. *)
Definition ResolvePublicModel (id : string) (s : db) : result (string * PublicModelRow) :=
  match t_public_models s !! id with
  | Some pm => if pm_Active pm && is_some (t_upstream_models s !! pm_TargetModel pm)
                  && is_some (t_connections s !! pm_TargetConnection pm)
               then Ok (id, pm) else Err ErrNotFound
  | None => Err ErrNotFound
  end.

Definition targets_of (s : db) (publicID : string) : list ((string * string) * TargetRow) :=
  select_rows (fun k _ => k.1 =s publicID) (t_targets s).

(** [INSERT INTO public_model_targets]: both unique constraints. *)
Definition insert_target (publicID modelID : string) (row : TargetRow) (err : error) : tx db unit :=
  s ← reads (fun s => s);
  _ ← require (bool_decide (t_targets s !! (publicID, modelID) = None)
               && forallb (fun t => negb (tg_Priority t.2 =? tg_Priority row)) (targets_of s publicID)) err;
  insert_row t_targets set_targets (publicID, modelID) row.

Definition create_public_model_tx (e : env) (actorID id label description connectionID targetModelID : string)
    (capabilities : list string) : tx db unit :=
  s ← reads (fun s => s);
  _ ← lift (requireManager s actorID);
  _ ← require (bool_decide (t_public_models s !! id = None)) ErrConflict;
  _ ← insert_row t_public_models set_public_models id
        (mkPublicModelRow label description connectionID targetModelID capabilities true "fixed" false 1 (now e 0));
  _ ← insert_target id targetModelID (mkTargetRow 1 1 true (now e 0)) constraint_failed;
  audit e 0 actorID "model.publish" "public_model" id.

Definition CreatePublicModel (e : env) (actorID id label description targetModelID : string) (capabilities : list string)
    (s : db) : result (string * PublicModelRow) * db :=
  let id := TrimSpace id in
  let label := TrimSpace label in
  let capabilities := normalizeCapabilities capabilities in
  match (_ ← requireManager s actorID;
         _ ← ensure (negb (negb (validPublicID id) || (label =s "") || (200 <? str_len label) || (1000 <? str_len description)
                           || Nat.eqb (length capabilities) 0 || negb (validCapabilities capabilities)))
               (Msg "id, label, target_model_id, and capabilities are required");
         um ← match t_upstream_models s !! targetModelID with
              | Some um => if um_Active um then Ok um else Err ErrNotFound
              | None => Err ErrNotFound
              end;
         _ ← ensure (users_subset capabilities (um_Capabilities um))
               (Msg "public capabilities must be supported by the upstream model");
         Ok um) with
  | Err err => (Err err, s)
  | Ok um =>
    match commit (create_public_model_tx e actorID id label description (um_Connection um) targetModelID capabilities) s with
    | (Ok _, s') => (ResolvePublicModel id s', s')
    | (Err err, s') => (Err err, s')
    end
  end.
End Connections.
