(* ===== verification/Routing.v ===== *)
(** Routing ([internal/features/providers/routing.go]): which of a public
    model's targets may serve a request, the order the model's strategy tries
    them in, the observations that open and close a target's circuit, and the
    configuration of a route. *)
From S2P Require Import Prelude GoStd Sha256 Money Counters Policy Json Store Pricing PathMatch Grants Catalogue Connections.

Definition latencyMinimumSamples : Z := 10.
Definition latencyFreshness : Z := 15 * 60 * 1000.
Definition circuitDuration : Z := 30 * 1000.

(** * Strategies *)

Definition routeStrategyTargetLimits : list (string * Z) :=
  [("fixed", 1); ("ordered_fallback", 32); ("weighted", 32); ("lowest_cost", 32); ("lowest_latency", 32)]%string.
Definition ValidRouteStrategy (value : string) : bool := contains (map fst routeStrategyTargetLimits) value.

(** [routingPolicy(capabilities).MaxTargetsByStrategy[strategy]]. *)
Definition max_targets (capabilities : list string) (strategy : string) : option Z :=
  let allowed := if contains capabilities "embeddings" then ["fixed"]%string else map fst routeStrategyTargetLimits in
  if contains allowed strategy
  then snd <$> find (fun kv => kv.1 =s strategy) routeStrategyTargetLimits else None.

(** * Targets *)

Record Target := mkTarget {
  tt_ID : string; tt_Label : string; tt_Description : string; tt_ConnectionID : string; tt_ModelID : string;
  tt_UpstreamID : string; tt_Adapter : string; tt_Capabilities : list string; tt_Revision : Z;
  tt_Strategy : string; tt_FreeOnly : bool; tt_UpstreamCapabilities : list string; tt_BaseURL : string;
  tt_AllowPrivate : bool; tt_TimeoutMS : Z; tt_ConnectionRevision : Z; tt_Credential : string; tt_Bearer : bool;
  tt_Preset : string; tt_RequestScript : string; tt_ResponseScript : string }.

Record RouteTarget := mkRouteTarget {
  rt_UpstreamModelID : string; rt_ConnectionID : string; rt_Priority : Z; rt_Weight : Z;
  rt_EstimatedCost : option Z; rt_PriceVersionID : string; rt_LatencyMS : option Z; rt_SampleCount : Z;
  rt_CircuitUntil : option Z; rt_Target : Target }.

Record RouteRejection := mkRouteRejection { rj_UpstreamModelID : string; rj_ConnectionID : string; rj_Reason : string }.

Record RoutePlan := mkRoutePlan {
  rp_ModelID : string; rp_Strategy : string; rp_FreeOnly : bool; rp_SelectionReason : string;
  rp_SelectionMessage : string; rp_Targets : list RouteTarget; rp_Rejected : list RouteRejection }.
Definition no_plan : RoutePlan := mkRoutePlan "" "" false "" "" [] [].

Record RouteOptions := mkRouteOptions {
  op_Operation : string; op_Streaming : bool; op_InputTokens : Z; op_OutputTokens : Z; op_QuoteAt : Z;
  op_Seed : string; op_AllowsConnection : option (string -> bool); op_Eligibility : option (Target -> bool * string) }.

(** * Eligibility *)

Record StaticEligibilityInput := mkStaticEligibilityInput {
  se_Dialect : string; se_Capability : string; se_Operation : string; se_Streaming : bool; se_OpaqueMedia : bool;
  se_ImageStreaming : bool }.

Definition NativeTarget (dialect adapter : string) : bool :=
  (dialect =s adapter)
  || (((dialect =s "openai") || (dialect =s "systemone")) && (adapter =s "openai_compatible"))
  || (((dialect =s "responses") || (dialect =s "responses_compact")) && ((adapter =s "openai") || (adapter =s "openai_compatible"))).

Definition StaticTargetEligibility (t : Target) (i : StaticEligibilityInput) : bool * string :=
  let native := NativeTarget (se_Dialect i) (tt_Adapter t) in
  if (se_Operation i =s "interactions") && (negb native || negb (tt_Preset t =s "gemini"))
  then (false, "interactions_native_gemini_required")%string
  else if (se_Capability i =s "") || negb (contains (tt_Capabilities t) (se_Capability i))
          || negb (contains (tt_UpstreamCapabilities t) (se_Capability i))
  then (false, "unsupported_capability")%string
  else if se_ImageStreaming i && (negb (tt_Adapter t =s "openai") || negb (tt_Preset t =s "openai")
          || (negb (HasPrefix (tt_UpstreamID t) "gpt-image-") && negb (tt_UpstreamID t =s "chatgpt-image-latest")))
  then (false, "image_stream_native_gpt_required")%string
  else if se_OpaqueMedia i && (tt_Strategy t =s "lowest_cost") then (false, "cost_estimate_unavailable")%string
  else if se_OpaqueMedia i && tt_FreeOnly t then (false, "free_price_contract_unavailable")%string
  else if negb native && negb (se_Capability i =s "chat") then (false, "translation_unsupported")%string
  else if (se_Dialect i =s "anthropic") && se_Streaming i && negb native then (false, "anthropic_stream_usage_unavailable")%string
  else if (tt_Preset t =s "mistral") && (se_Operation i =s "audio/transcriptions") && se_Streaming i
  then (false, "preset_streaming_unsupported")%string
  else if (se_Dialect i =s "responses_compact") && negb (tt_Preset t =s "openai") then (false, "preset_operation_unsupported")%string
  else (true, ""%string).

Definition preview_dialect (operation : string) : string :=
  if contains ["messages"; "messages/count_tokens"]%string operation then "anthropic"
  else if contains ["generateContent"; "streamGenerateContent"; "countTokens"; "embedContent"; "batchEmbedContents";
                    "interactions"; "BidiGenerateContent"]%string operation then "gemini"
  else if operation =s "responses" then "responses"
  else if operation =s "responses/compact" then "responses_compact"
  else if operation =s "systemone" then "systemone"
  else "openai".

Definition preview_input (operation : string) (streaming : bool) : StaticEligibilityInput :=
  let capability := operationCapability operation in
  mkStaticEligibilityInput (preview_dialect operation) capability operation streaming
    (contains ["images"; "image_edit"; "image_variation"]%string capability || HasPrefix capability "audio_")
    (contains ["images/generations"; "images/edits"]%string operation && streaming).

Definition PreviewRouteEligibility (operation : string) (streaming : bool) (t : Target) : bool * string :=
  let operation := operation_name operation in
  let i := preview_input operation streaming in
  match StaticTargetEligibility t i with
  | (false, reason) => (false, reason)
  | (true, _) =>
    let targetOperation :=
      if NativeTarget (se_Dialect i) (tt_Adapter t) then operation
      else assoc [("anthropic", "messages"); ("gemini", "generateContent"); ("openai", "chat/completions");
                  ("openai_compatible", "chat/completions")]%string (tt_Adapter t) in
    if (targetOperation =s "") || negb (PresetSupports (tt_Preset t) targetOperation)
    then (false, "preset_operation_unsupported")%string else (true, ""%string)
  end.

(** * The order of a strategy *)

(** [items[0], items[i] = items[i], items[0]]. *)
Definition swap_first {A} (i : nat) (l : list A) : list A :=
  match l !! O, l !! i with
  | Some x, Some y => <[O := y]> (<[i := x]> l)
  | _, _ => l
  end.

Definition measured (r : RouteTarget) : bool := is_some (rt_LatencyMS r) && (latencyMinimumSamples <=? rt_SampleCount r).

Definition cost_less (a b : RouteTarget) : bool :=
  match rt_EstimatedCost a, rt_EstimatedCost b with Some x, Some y => x <? y | _, _ => false end.
Definition latency_of (r : RouteTarget) : Z := default 0 (rt_LatencyMS r).
Definition latency_less (a b : RouteTarget) : bool :=
  if negb (Bool.eqb (measured a) (measured b)) then measured a
  else if measured a && negb (latency_of a =? latency_of b) then latency_of a <? latency_of b
  else rt_Priority a <? rt_Priority b.

(** The position a weighted pick falls on; the first when it falls on none. *)
Fixpoint pick_from (i : nat) (pick : Z) (items : list RouteTarget) : option nat :=
  match items with
  | [] => None
  | x :: items => if pick <? wrapu64 (rt_Weight x) then Some i else pick_from (S i) (pick - wrapu64 (rt_Weight x)) items
  end.
Definition total_weight (items : list RouteTarget) : Z := fold_left (fun t x => wrapu64 (t + wrapu64 (rt_Weight x))) items 0.

Definition seed_number (seed : string) : Z := BigEndianUint64 (Sum256 seed).

Definition rejection_of (reason : string) (x : RouteTarget) : RouteRejection :=
  mkRouteRejection (rt_UpstreamModelID x) (rt_ConnectionID x) reason.

Definition ordered (items : list RouteTarget) (strategy seed : string) : list RouteTarget * list RouteRejection * string :=
  if strategy =s "lowest_cost" then
    (SliceStable cost_less (List.filter (fun x => is_some (rt_EstimatedCost x)) items),
     map (rejection_of "price_unknown") (List.filter (fun x => negb (is_some (rt_EstimatedCost x))) items), strategy)
  else if strategy =s "lowest_latency" then
    let items := SliceStable latency_less items in
    if Nat.ltb 1 (length items) && (seed_number seed mod 20 =? 0)
    then (swap_first 1 items, [], "lowest_latency_exploration"%string) else (items, [], strategy)
  else if strategy =s "weighted" then
    if Nat.ltb 1 (length items)
    then (swap_first (default O (pick_from 0 (seed_number seed mod total_weight items) items)) items, [], strategy)
    else (items, [], strategy)
  else (items, [], strategy).

Definition orderRoute (items : list RouteTarget) (rejected : list RouteRejection) (strategy seed : string) :
    list RouteTarget * list RouteRejection * string :=
  let '(items, unpriced, reason) := ordered items strategy seed in
  let items := if strategy =s "fixed" then firstn 1 items else items in
  (items, rejected ++ unpriced, match items with x :: _ => reason +:+ ":" +:+ rt_UpstreamModelID x | [] => reason end).

Definition routeSelectionMessage (reason : string) : string :=
  assoc [("fixed", "Fixed target selected"); ("ordered_fallback", "First available target selected");
         ("weighted", "Weighted target selected"); ("lowest_cost", "Lowest estimated cost selected");
         ("lowest_latency", "Lowest observed latency selected");
         ("lowest_latency_exploration", "Latency exploration target selected")]%string (hd ""%string (Split reason ":"%char)).

Definition rejection_messages : list (string * string) :=
  [("anthropic_stream_usage_unavailable", "Streaming usage is unavailable for this target");
   ("cache_price_contract_unavailable", "Cache pricing is unavailable for this route");
   ("circuit_open", "Target is temporarily unavailable");
   ("connection_not_granted", "API key does not grant this connection");
   ("cost_estimate_unavailable", "Cost cannot be estimated for this operation");
   ("credential_unavailable", "Provider credential is unavailable");
   ("free_price_contract_unavailable", "Verified-free pricing is unavailable");
   ("image_stream_native_gpt_required", "Streaming images require a native GPT Image target");
   ("interactions_native_gemini_required", "Interactions require the built-in Gemini preset");
   ("not_verified_free", "Target does not have verified zero pricing");
   ("preset_operation_unsupported", "Provider preset does not support this operation");
   ("price_unknown", "Target price is unknown");
   ("prompt_cache_native_required", "Prompt caching requires the built-in Anthropic preset");
   ("request_translation_unsupported", "Request cannot be translated for this target");
   ("translation_unsupported", "This operation requires a native target");
   ("unsupported_capability", "Target does not support the required capability");
   ("web_fetch_native_required", "Web fetch requires the built-in Anthropic preset");
   ("web_fetch_price_contract_unavailable", "Web fetch pricing is unavailable for this route");
   ("web_search_native_required", "Web search requires a supported native preset");
   ("web_search_price_contract_unavailable", "Web search pricing is unavailable for this route")]%string.
Definition routeRejectionMessage (reason : string) : string :=
  let message := assoc rejection_messages reason in
  if message =s "" then "Target is unavailable for this request"%string else message.

(** * Candidates: the rows of the routing query *)

Record Candidate := mkCandidate {
  cd_ModelID : string; cd_Row : TargetRow; cd_Model : UpstreamModelRow; cd_ConnectionID : string; cd_Connection : ConnectionRow }.

(** The target's row joined with its upstream model and its connection, while
    all three are enabled. *)
Definition joined (s : db) (modelID : string) (row : TargetRow) : option Candidate :=
  um ← t_upstream_models s !! modelID; cn ← t_connections s !! um_Connection um;
  if tg_Enabled row && um_Active um && cn_Enabled cn
  then Some (mkCandidate modelID row um (um_Connection um) cn) else None.

Definition priority_less (a b : Candidate) : bool := tg_Priority (cd_Row a) <? tg_Priority (cd_Row b).
Definition candidates (s : db) (publicID : string) : list Candidate :=
  SliceStable priority_less (omap (fun kv => joined s (kv.1).2 kv.2) (targets_of s publicID)).

Section Route.
Variable host : Host.

(** The credential of a candidate, and the error left in the loop's [err]. *)
Definition candidate_credential (failed : bool) (c : Candidate) : string * bool * bool :=
  match cn_Credential (cd_Connection c) with
  | External reference =>
      match resolveExternalCredential host reference with Ok (secret, bearer) => (secret, bearer, false) | Err _ => (""%string, false, true) end
  | Sealed ciphertext nonce =>
      if ciphertext =s "" then (""%string, false, failed)
      else match openSecret host (cd_ConnectionID c) ciphertext nonce with
           | Ok secret => (secret, false, false) | Err _ => (""%string, false, true) end
  | NoCredential => (""%string, false, failed)
  end.

(** Adapter scripts are read for custom OpenAI-compatible connections only. *)
Definition candidate_scripts (c : ConnectionRow) : string * string :=
  if scriptable (cn_Preset c) (cn_Adapter c)
  then match cn_Scripts c with Some r => (sr_Request r, sr_Response r) | None => (""%string, ""%string) end
  else (""%string, ""%string).

Definition candidate_target (publicID : string) (pm : PublicModelRow) (c : Candidate) (credential : string) (bearer : bool) : Target :=
  let cn := cd_Connection c in
  mkTarget publicID (pm_Label pm) (pm_Description pm) (cd_ConnectionID c) (cd_ModelID c) (um_UpstreamID (cd_Model c))
    (cn_Adapter cn) (pm_Capabilities pm) (pm_Revision pm) (pm_Strategy pm) (pm_FreeOnly pm)
    (um_Capabilities (cd_Model c)) (cn_BaseURL cn) (cn_AllowPrivate cn) (cn_TimeoutMS cn) (cn_Revision cn)
    credential bearer (cn_Preset cn) (candidate_scripts cn).1 (candidate_scripts cn).2.

(** The latency shown for a target: a fresh observation's first byte when
    streaming, else its total. *)
Definition observed_latency (o : option ObservationRow) (streaming : bool) (now_ : Z) : option Z :=
  o ← o;
  if wrap64 (now_ - latencyFreshness) <=? ro_Updated o
  then (if streaming && is_some (ro_FirstByte o) then ro_FirstByte o else ro_Total o) else None.

Definition verified_free (price : option (string * PriceRow)) (now_ : Z) : bool :=
  match price with
  | Some (_, p) => VerifiedFreePrice (pr_Input p) (pr_Output p) (pr_CacheRead p) (pr_Source p) (pr_Created p) now_
  | None => false
  end.

Definition estimated_cost (price : option (string * PriceRow)) (o : RouteOptions) : result (option Z) :=
  match price with
  | Some (_, p) => cost ← CalculateCost (op_InputTokens o) (op_OutputTokens o)
                            (ConservativeInputRate (pr_Input p) (pr_CacheRead p)) (pr_Output p); Ok (Some cost)
  | None => Ok None
  end.

Inductive verdict := Kept (r : RouteTarget) | Dropped (r : RouteRejection).

(** One iteration of the loop over the rows. *)
Definition assess (s : db) (publicID : string) (pm : PublicModelRow) (o : RouteOptions) (now_ : Z) (failed : bool) (c : Candidate) :
    result (verdict * bool) :=
  let drop reason failed := Ok (Dropped (mkRouteRejection (cd_ModelID c) (cd_ConnectionID c) reason), failed) in
  let bare := candidate_target publicID pm c "" false in
  let observation := t_observations s !! (cd_ModelID c, op_Operation o, op_Streaming o) in
  if match op_AllowsConnection o with Some allows => negb (allows (cd_ConnectionID c)) | None => false end
  then drop "connection_not_granted"%string failed else
  match (match op_Eligibility o with Some eligible => eligible bare | None => (true, ""%string) end) with
  | (false, reason) => drop reason failed
  | (true, _) =>
    let '(credential, bearer, failed) := candidate_credential failed c in
    if failed || ((credential =s "") && negb (cn_Preset (cd_Connection c) =s "ollama"))
    then drop "credential_unavailable"%string failed else
    let price := priceAt (t_prices s) (cd_ConnectionID c) publicID now_ in
    cost ← estimated_cost price o;
    if pm_FreeOnly pm && negb (verified_free price now_) then drop "not_verified_free"%string failed else
    let until := (o ← observation; ro_CircuitUntil o) in
    if match until with Some t => now_ <? t | None => false end then drop "circuit_open"%string failed else
    Ok (Kept (mkRouteTarget (cd_ModelID c) (cd_ConnectionID c) (tg_Priority (cd_Row c)) (tg_Weight (cd_Row c)) cost
                (match price with Some (id, _) => id | None => ""%string end)
                (observed_latency observation (op_Streaming o) now_)
                (match observation with Some o => ro_Successes o | None => 0 end) until
                (candidate_target publicID pm c credential bearer)), failed)
  end.

Fixpoint assess_all (s : db) (publicID : string) (pm : PublicModelRow) (o : RouteOptions) (now_ : Z) (failed : bool)
    (cs : list Candidate) : result (list verdict) :=
  match cs with
  | [] => Ok []
  | c :: cs => '(v, failed) ← assess s publicID pm o now_ failed c;
               vs ← assess_all s publicID pm o now_ failed cs; Ok (v :: vs)
  end.

Definition kept (vs : list verdict) : list RouteTarget := omap (fun v => match v with Kept r => Some r | Dropped _ => None end) vs.
Definition dropped (vs : list verdict) : list RouteRejection := omap (fun v => match v with Dropped r => Some r | Kept _ => None end) vs.

(** [Route] returns a plan and an error; the plan of a route without a target
    left is returned with [ErrNotFound]. *)
Definition Route (e : env) (publicID : string) (o : RouteOptions) (s : db) : RoutePlan * option error :=
  match t_public_models s !! publicID with
  | Some pm =>
    if pm_Active pm then
      let now_ := if op_QuoteAt o <=? 0 then now e 0 else op_QuoteAt o in
      match assess_all s publicID pm o now_ false (candidates s publicID) with
      | Err err => (no_plan, Some err)
      | Ok vs =>
        let '(targets, rejected, reason) := orderRoute (kept vs) (dropped vs) (pm_Strategy pm) (op_Seed o) in
        match targets with
        | [] => (mkRoutePlan publicID (pm_Strategy pm) (pm_FreeOnly pm) reason "No eligible target" [] rejected, Some ErrNotFound)
        | _ => (mkRoutePlan publicID (pm_Strategy pm) (pm_FreeOnly pm) reason (routeSelectionMessage reason) targets rejected, None)
        end
      end
    else (no_plan, Some ErrNotFound)
  | None => (no_plan, Some ErrNotFound)
  end.

(** [TargetIsCurrent]. *)
Definition TargetIsCurrent (s : db) (t : Target) : bool :=
  match t_public_models s !! tt_ID t, t_targets s !! (tt_ID t, tt_ModelID t), t_upstream_models s !! tt_ModelID t with
  | Some pm, Some tg, Some um =>
    match t_connections s !! um_Connection um with
    | Some cn => (um_Connection um =s tt_ConnectionID t) && (pm_Revision pm =? tt_Revision t)
                 && (um_UpstreamID um =s tt_UpstreamID t) && pm_Active pm && tg_Enabled tg && um_Active um
                 && cn_Enabled cn && (cn_Revision cn =? tt_ConnectionRevision t)
    | None => false
    end
  | _, _, _ => false
  end.

(** [HasAvailableRouteTarget]: some enabled target that is allowed, eligible
    and has a usable credential. *)
Definition HasAvailableRouteTarget (s : db) (publicID : string) (allowed : string -> bool) (eligible : option (Target -> bool)) : bool :=
  match t_public_models s !! publicID with
  | Some pm =>
    pm_Active pm &&
    existsb (fun c =>
      let cn := cd_Connection c in
      allowed (cd_ConnectionID c)
      && match eligible with
         | Some f => f (mkTarget "" "" "" (cd_ConnectionID c) "" "" (cn_Adapter cn) (pm_Capabilities pm) 0 (pm_Strategy pm)
                          (pm_FreeOnly pm) (um_Capabilities (cd_Model c)) "" false 0 0 "" false (cn_Preset cn) "" "")
         | None => true
         end
      && ((cn_Preset cn =s "ollama")
          || match cn_Credential cn with
             | Sealed ciphertext _ => negb (ciphertext =s "")
             | External reference => match resolveExternalCredential host reference with Ok (secret, _) => negb (secret =s "") | Err _ => false end
             | NoCredential => false
             end)) (candidates s publicID)
  | None => false
  end.
End Route.

(** * Configuration *)

Record RouteTargetInput := mkRouteTargetInput { ri_UpstreamModelID : string; ri_Priority : Z; ri_Weight : Z; ri_Enabled : bool }.

Definition default_weight (t : RouteTargetInput) : RouteTargetInput :=
  if ri_Weight t =? 0 then mkRouteTargetInput (ri_UpstreamModelID t) (ri_Priority t) 1 (ri_Enabled t) else t.

(** The validation loop, with the models and priorities already seen. *)
Fixpoint valid_targets (seenModels : list string) (seenPriorities : list Z) (ts : list RouteTargetInput) : bool :=
  match ts with
  | [] => true
  | t :: ts =>
    (1 <=? ri_Priority t) && (ri_Priority t <=? 1000) && (1 <=? ri_Weight t) && (ri_Weight t <=? 10000)
    && negb (ri_UpstreamModelID t =s "") && negb (contains seenModels (ri_UpstreamModelID t))
    && negb (existsb (Z.eqb (ri_Priority t)) seenPriorities)
    && valid_targets (ri_UpstreamModelID t :: seenModels) (ri_Priority t :: seenPriorities) ts
  end.

Definition enabled_count (ts : list RouteTargetInput) : Z := Z.of_nat (length (List.filter ri_Enabled ts)).

Definition check_route_models (s : db) (capabilities : list string) : list RouteTargetInput -> result unit :=
  fix check ts :=
    match ts with
    | [] => Ok tt
    | t :: ts =>
      match t_upstream_models s !! ri_UpstreamModelID t with
      | Some um =>
        if um_Active um
        then _ ← ensure (users_subset capabilities (um_Capabilities um))
                   (Msg "every route target must support the public model capabilities"); check ts
        else Err ErrNotFound
      | None => Err ErrNotFound
      end
    end.

Definition check_route (s : db) (actorID publicID : string) (revision : Z) (strategy : string) (freeOnly : bool)
    (ts : list RouteTargetInput) : result unit :=
  _ ← requireManager s actorID;
  _ ← ensure (ValidRouteStrategy strategy && negb (Nat.eqb (length ts) 0) && Nat.leb (length ts) 32)
        (Msg "a supported strategy and 1-32 targets are required");
  _ ← ensure (valid_targets [] [] ts) (Msg "route targets require unique models and priorities with valid weights");
  _ ← ensure (negb (enabled_count ts =? 0)) (Msg "at least one route target must be enabled");
  match t_public_models s !! publicID with
  | Some pm =>
    _ ← ensure (pm_Revision pm =? revision) ErrConflict;
    _ ← ensure (match max_targets (pm_Capabilities pm) strategy with
                | Some most => Z.of_nat (length ts) <=? most | None => false end)
          (Msg "the selected routing strategy does not allow this target configuration");
    check_route_models s (pm_Capabilities pm) ts
  | None => Err ErrConflict
  end.

Definition input_less (a b : RouteTargetInput) : bool := ri_Priority a <? ri_Priority b.

(** The first enabled target, or the first one. *)
Definition primary_of (ts : list RouteTargetInput) : string :=
  match find ri_Enabled ts with
  | Some t => ri_UpstreamModelID t
  | None => match ts with t :: _ => ri_UpstreamModelID t | [] => ""%string end
  end.

Definition with_route (strategy : string) (freeOnly : bool) (primary connection : string) (at_ : Z) (pm : PublicModelRow) : PublicModelRow :=
  mkPublicModelRow (pm_Label pm) (pm_Description pm) connection primary (pm_Capabilities pm) (pm_Active pm) strategy freeOnly
    (pm_Revision pm + 1) at_.

Definition configure_route_tx (e : env) (actorID publicID : string) (revision : Z) (strategy : string) (freeOnly : bool)
    (ts : list RouteTargetInput) : tx db unit :=
  s ← reads (fun s => s);
  _ ← lift (requireManager s actorID);
  let primary := primary_of ts in
  um ← get_row (fun s => t_upstream_models s !! primary) constraint_failed;
  changed ← update_row t_public_models set_public_models publicID (fun pm => pm_Revision pm =? revision)
              (with_route strategy freeOnly primary (um_Connection um) (now e 0));
  _ ← require (changed =? 1) ErrConflict;
  _ ← delete_rows t_targets set_targets (fun k _ => k.1 =s publicID);
  _ ← for_each (fun t => insert_target publicID (ri_UpstreamModelID t) (mkTargetRow (ri_Priority t) (ri_Weight t) (ri_Enabled t) (now e 0)) ErrConflict) ts;
  audit e 0 actorID "model.route.update" "public_model" publicID.

Definition ConfigureRoute (e : env) (actorID publicID : string) (revision : Z) (strategy : string) (freeOnly : bool)
    (ts : list RouteTargetInput) (s : db) : result (string * PublicModelRow) * db :=
  let ts := map default_weight ts in
  match check_route s actorID publicID revision strategy freeOnly ts with
  | Err err => (Err err, s)
  | Ok _ =>
    match commit (configure_route_tx e actorID publicID revision strategy freeOnly (SliceStable input_less ts)) s with
    | (Ok _, s') => (ResolvePublicModel publicID s', s')
    | (Err err, s') => (Err err, s')
    end
  end.

(** The targets [RouteConfig] shows, by priority. *)
Definition row_less (a b : (string * string) * TargetRow) : bool := tg_Priority a.2 <? tg_Priority b.2.
Definition route_targets (s : db) (publicID : string) : list RouteTargetInput :=
  map (fun kv => mkRouteTargetInput (kv.1).2 (tg_Priority kv.2) (tg_Weight kv.2) (tg_Enabled kv.2))
    (SliceStable row_less (targets_of s publicID)).

(** * Outcomes *)

(** [INSERT ... ON CONFLICT DO UPDATE] of an outcome: [old] is the row. *)
Definition observe (success : bool) (firstMS totalMS now_ : Z) (old : option ObservationRow) : ObservationRow :=
  let average x new := match x with Some a => Z.quot (a * 4 + new) 5 | None => new end in
  match old with
  | None => mkObservationRow (if success then 1 else 0) (if success then 0 else 1) (if success then 0 else 1)
              (Some firstMS) (Some totalMS) None now_
  | Some o =>
    mkObservationRow (ro_Successes o + if success then 1 else 0) (ro_Failures o + if success then 0 else 1)
      (if success then 0 else ro_Consecutive o + 1)
      (if success then Some (average (ro_FirstByte o) firstMS) else ro_FirstByte o)
      (if success then Some (average (ro_Total o) totalMS) else ro_Total o)
      (if success then None else if 3 <=? ro_Consecutive o + 1 then Some (now_ + circuitDuration) else ro_CircuitUntil o)
      now_
  end.

(** [RecordRouteOutcome]; the durations are in nanoseconds. The upstream
    model is a foreign key. *)
Definition RecordRouteOutcome (e : env) (targetModelID operation : string) (streaming success : bool) (firstByte total : Z) :
    db -> result unit * db :=
  let key := (targetModelID, operation, streaming) in
  commit (
    _ ← get_row (fun s => t_upstream_models s !! targetModelID) constraint_failed;
    modify (fun s => set_observations (<[key := observe success (Z.quot firstByte 1000000) (Z.quot total 1000000) (now e 0)
                                                  (t_observations s !! key)]> (t_observations s)) s)).
