(* ===== verification/Selection.v ===== *)
(** What a route plan promises: the order each strategy gives its targets,
    that a plan accounts for every candidate, and that every target it offers
    is granted, eligible, credentialed, current and not short-circuited. *)
From S2P Require Import Prelude GoStd Sha256 Money Counters Policy Json Store Pricing PathMatch Grants Catalogue Connections Routing.

(** * Swapping and picking *)

Lemma swap_first_perm {A} (i : nat) (l : list A) : swap_first i l ≡ₚ l.
Proof.
  unfold swap_first. destruct l as [|x l]; [done|]. destruct i as [|i]; [done|]. cbn.
  destruct (l !! i) as [y|] eqn:E; cbn; [|done].
  change (y :: <[i:=x]> l ≡ₚ x :: l).
  rewrite <- (take_drop_middle l i y E) at 2. rewrite insert_take_drop by (by eapply lookup_lt_Some).
  rewrite <- !Permutation_middle. apply Permutation_swap.
Qed.

Lemma swap_first_head {A} (i : nat) (l : list A) x : l !! i = Some x -> hd_error (swap_first i l) = Some x.
Proof.
  unfold swap_first. destruct l as [|y l]; [done|]. destruct i as [|i]; cbn; [congruence|].
  by intros ->.
Qed.

Lemma pick_from_shift i pick items : pick_from i pick items = (fun k => (i + k)%nat) <$> pick_from 0 pick items.
Proof.
  revert i pick. induction items as [|x items IH]; intros i pick; [done|]. cbn. destruct (_ <? _); [cbn; f_equal; lia|].
  rewrite (IH (S i)), (IH 1%nat). destruct (pick_from 0 _ items); cbn; [f_equal; lia|done].
Qed.

Definition weighty (r : RouteTarget) : Prop := 1 <= rt_Weight r <= 10000.
Fixpoint weight_before (items : list RouteTarget) : Z :=
  match items with [] => 0 | x :: items => rt_Weight x + weight_before items end.

Lemma weighty_wrap r : weighty r -> wrapu64 (rt_Weight r) = rt_Weight r.
Proof. unfold weighty. intros. apply wrapu64_id. unfold in_uint64, two64. lia. Qed.

Lemma weight_before_bound items : Forall weighty items -> 0 <= weight_before items <= 10000 * Z.of_nat (length items).
Proof. unfold weighty. induction 1 as [|x l Hx Hl IH]; [cbn; lia|]. cbn [weight_before length]. rewrite Nat2Z.inj_succ. lia. Qed.

Lemma weight_before_app xs ys : weight_before (xs ++ ys) = weight_before xs + weight_before ys.
Proof. induction xs; cbn; lia. Qed.

Lemma total_weight_sum items : Forall weighty items -> (length items <= 32)%nat -> total_weight items = weight_before items.
Proof.
  intros Hw Hl. unfold total_weight.
  enough (forall acc, 0 <= acc -> acc + 10000 * Z.of_nat (length items) < two64 ->
    fold_left (fun t x => wrapu64 (t + wrapu64 (rt_Weight x))) items acc = acc + weight_before items) as H.
  { apply H; unfold two64; lia. }
  clear Hl. induction Hw as [|x items Hx Hw IH]; intros acc Ha Hb; cbn; [lia|].
  rewrite (weighty_wrap x Hx). unfold weighty in Hx. cbn -[Z.of_nat two64] in Hb.
  rewrite wrapu64_id by (unfold in_uint64; lia). rewrite IH by lia. lia.
Qed.

Lemma pick_from_slice pre x post pick :
  Forall weighty (pre ++ x :: post) -> weight_before pre <= pick < weight_before pre + rt_Weight x ->
  pick_from 0 pick (pre ++ x :: post) = Some (length pre).
Proof.
  revert pick. induction pre as [|y pre IH]; cbn; intros pick Hw Hp.
  - apply Forall_cons in Hw as [Hx _]. rewrite weighty_wrap by done.
    destruct (Z.ltb_spec pick (rt_Weight x)); [done|lia].
  - apply Forall_cons in Hw as [Hy Hw]. rewrite weighty_wrap by done.
    assert (0 <= weight_before pre) by (apply Forall_app in Hw as [? _]; by apply weight_before_bound).
    destruct (Z.ltb_spec pick (rt_Weight y)); [lia|].
    rewrite pick_from_shift, IH; [done|done|lia].
Qed.

(** Every pick below the total weight falls in somebody's slice. *)
Lemma slice_exists items pick :
  0 <= pick < weight_before items ->
  exists pre x post, items = pre ++ x :: post /\ weight_before pre <= pick < weight_before pre + rt_Weight x.
Proof.
  revert pick. induction items as [|y items IH]; cbn; intros pick Hp; [lia|].
  destruct (Z.lt_ge_cases pick (rt_Weight y)) as [|Hge]; [exists [], y, items; cbn; split; [done|lia]|].
  destruct (IH (pick - rt_Weight y)) as (pre & x & post & -> & Hx); [lia|].
  exists (y :: pre), x, post. cbn. split; [done|lia].
Qed.

(** * Strategies *)

Lemma cost_less_asym a b : cost_less a b = true -> cost_less b a = false.
Proof. unfold cost_less. destruct (rt_EstimatedCost a), (rt_EstimatedCost b); try done. lia. Qed.

Lemma latency_less_asym a b : latency_less a b = true -> latency_less b a = false.
Proof.
  unfold latency_less. destruct (measured a), (measured b); cbn; try done; [|lia].
  destruct (latency_of a =? latency_of b) eqn:E; cbn.
  - rewrite Z.eqb_sym, E. cbn. lia.
  - rewrite Z.eqb_sym, E. cbn. lia.
Qed.

Lemma latency_less_trans a b c : latency_less b a = false -> latency_less c b = false -> latency_less c a = false.
Proof.
  unfold latency_less.
  destruct (measured a), (measured b), (measured c); cbn; try done; try lia.
  destruct (Z.eqb_spec (latency_of b) (latency_of a)), (Z.eqb_spec (latency_of c) (latency_of b)),
    (Z.eqb_spec (latency_of c) (latency_of a)); cbn; lia.
Qed.

Definition by_priority (a b : RouteTarget) : Prop := rt_Priority a <= rt_Priority b.

(** Cheaper first; equally cheap by priority. *)
Definition by_cost (a b : RouteTarget) : Prop :=
  exists x y, rt_EstimatedCost a = Some x /\ rt_EstimatedCost b = Some y /\ (x < y \/ x = y /\ by_priority a b).

(** Measured targets first, by latency; equally fast, or not measured, by priority. *)
Definition by_latency (a b : RouteTarget) : Prop :=
  match measured a, measured b with
  | true, false => True
  | false, true => False
  | true, true => latency_of a < latency_of b \/ latency_of a = latency_of b /\ by_priority a b
  | false, false => by_priority a b
  end.

Lemma StronglySorted_impl {A} (R R' : A -> A -> Prop) l :
  (forall x y, x ∈ l -> y ∈ l -> R x y -> R' x y) -> StronglySorted R l -> StronglySorted R' l.
Proof.
  induction 2 as [|x l Hl IH Hx]; constructor.
  - apply IH. intros a b Ha Hb. apply H; by right.
  - rewrite Forall_forall in Hx |- *. intros y Hy. apply H; [by left|by right|by apply Hx].
Qed.

Lemma StronglySorted_filter {A} (R : A -> A -> Prop) (p : A -> bool) l : StronglySorted R l -> StronglySorted R (List.filter p l).
Proof.
  induction 1 as [|x l Hl IH Hx]; cbn; [constructor|]. destruct (p x); [|done]. constructor; [done|].
  rewrite Forall_forall in Hx |- *. intros y Hy. apply Hx. rewrite list_elem_of_In in Hy |- *. by apply filter_In in Hy as [? _].
Qed.

(** The priced items, in the order of the lowest-cost strategy. *)
Lemma cost_order items :
  StronglySorted by_priority items ->
  StronglySorted by_cost (SliceStable cost_less (List.filter (fun x => is_some (rt_EstimatedCost x)) items)).
Proof.
  intros Hs. set (l := List.filter _ items).
  assert (Forall (fun x => exists c, rt_EstimatedCost x = Some c) l) as Hc.
  { apply Forall_forall. intros x Hx. unfold l in Hx. rewrite list_elem_of_In, filter_In in Hx. destruct Hx as [_ Hx].
    destruct (rt_EstimatedCost x); [eauto|done]. }
  assert (StronglySorted by_priority l) as Hl by (by apply StronglySorted_filter).
  (* [cost_less] is a weak order on the priced items only: compare by a total key. *)
  set (key x := default 0 (rt_EstimatedCost x)). set (less a b := key a <? key b).
  assert (SliceStable cost_less l = SliceStable less l) as ->.
  { clear Hs Hl. assert (forall x m, Forall (fun x => exists c, rt_EstimatedCost x = Some c) (x :: m) ->
      insert_stable cost_less x m = insert_stable less x m) as Hi.
    { intros x m. induction m as [|y m IH]; [done|]. intros Hm. cbn.
      assert (cost_less y x = less y x) as ->.
      { unfold cost_less, less, key. apply Forall_cons in Hm as [[cx ->] [[cy ->] _]%Forall_cons]. done. }
      destruct (less y x); [|done]. f_equal. apply IH. apply Forall_cons in Hm as [? [? ?]%Forall_cons]. by constructor. }
    induction Hc as [|x m Hx Hm IH]; [done|]. cbn. rewrite <- IH. apply Hi. constructor; [done|].
    by rewrite SliceStable_perm. }
  eapply StronglySorted_impl; [|apply (SliceStable_then_by less by_priority l); [..|done]]; unfold less; [|lia..].
  intros x y Hx Hy. rewrite SliceStable_perm in Hx, Hy. rewrite Forall_forall in Hc.
  destruct (Hc x Hx) as [cx Ex], (Hc y Hy) as [cy Ey]. unfold then_by, by_cost, key. rewrite Ex, Ey. cbn.
  intros [H|[H H']]; exists cx, cy; split_and!; try done; [left; lia|].
  destruct (Z.eq_dec cx cy); [by right|left; lia].
Qed.

Lemma latency_order items :
  StronglySorted by_priority items -> StronglySorted by_latency (SliceStable latency_less items).
Proof.
  intros Hs. eapply StronglySorted_impl; [|apply (SliceStable_then_by latency_less by_priority); [apply latency_less_asym|apply latency_less_trans|exact Hs]].
  intros x y _ _. unfold then_by, by_latency, latency_less, by_priority.
  destruct (measured x), (measured y); cbn; [|intros [?|[? ?]]; (done || lia)..].
  destruct (Z.eqb_spec (latency_of x) (latency_of y)), (Z.eqb_spec (latency_of y) (latency_of x)); cbn; intros [?|[? ?]]; lia.
Qed.

(** * Candidates *)

Lemma elem_of_candidates s publicID c :
  c ∈ candidates s publicID <->
  t_targets s !! (publicID, cd_ModelID c) = Some (cd_Row c) /\ tg_Enabled (cd_Row c) = true /\
  t_upstream_models s !! cd_ModelID c = Some (cd_Model c) /\ um_Active (cd_Model c) = true /\
  cd_ConnectionID c = um_Connection (cd_Model c) /\
  t_connections s !! cd_ConnectionID c = Some (cd_Connection c) /\ cn_Enabled (cd_Connection c) = true.
Proof.
  unfold candidates. rewrite SliceStable_perm, list_elem_of_omap. split.
  - intros ([[pid mid] row] & Hin & Hj). apply elem_of_select_rows in Hin as [Ht Hp]. cbn in *.
    apply String.eqb_eq in Hp as ->. unfold joined in Hj.
    destruct (t_upstream_models s !! mid) as [um|] eqn:Hu; [|done]. cbn in Hj.
    destruct (t_connections s !! um_Connection um) as [cn|] eqn:Hc; [|done]. cbn in Hj.
    destruct (tg_Enabled row && um_Active um && cn_Enabled cn) eqn:E; [|done].
    apply andb_true_iff in E as [[? ?]%andb_true_iff ?]. by simplify_eq/=.
  - intros (Ht & He & Hu & Ha & Hid & Hc & Hn). exists ((publicID, cd_ModelID c), cd_Row c). split.
    + apply elem_of_select_rows. split; [done|]. apply String.eqb_refl.
    + unfold joined. cbn. rewrite Hu. cbn. rewrite <- Hid, Hc. cbn. rewrite He, Ha, Hn. cbn. rewrite Hid. by destruct c; cbn in *; subst.
Qed.

Lemma NoDup_candidates s publicID : NoDup (map cd_ModelID (candidates s publicID)).
Proof.
  unfold candidates. eapply NoDup_Permutation_proper; [apply fmap_Permutation, SliceStable_perm|].
  assert (NoDup (targets_of s publicID).*1) as Hn by apply NoDup_select_rows.
  assert (forall kv, kv ∈ targets_of s publicID -> kv.1.1 = publicID) as Hp.
  { intros [k v] Hin. apply elem_of_select_rows in Hin as [_ H]. by apply String.eqb_eq in H. }
  revert Hn Hp. generalize (targets_of s publicID). intros l Hn Hp.
  induction l as [|[[pid mid] row] l IH]; [constructor|]. cbn in Hn. apply NoDup_cons in Hn as [Hni Hn].
  assert (NoDup (map cd_ModelID (omap (fun kv => joined s kv.1.2 kv.2) l))) as Hl by (apply IH; [done|]; intros; apply Hp; by right).
  cbn. destruct (joined s mid row) as [c|] eqn:Hj; [|done]. cbn. constructor; [|done].
  assert (cd_ModelID c = mid) as Hm.
  { unfold joined in Hj. repeat (case_match || destruct (_ !! _); cbn in Hj; try done). by simplify_eq. }
  rewrite Hm. intros Hin. apply list_elem_of_fmap in Hin as (c' & Hc' & Hin).
  apply list_elem_of_omap in Hin as ([[pid' mid'] row'] & Hin' & Hj'). cbn in Hj'.
  assert (cd_ModelID c' = mid') as Hm'.
  { unfold joined in Hj'. repeat (case_match || destruct (_ !! _); cbn in Hj'; try done). by simplify_eq. }
  apply Hni. apply list_elem_of_fmap. exists ((pid', mid'), row'). split; [|done]. cbn.
  pose proof (Hp _ (list_elem_of_here _ _)) as H1. pose proof (Hp _ (list_elem_of_further _ _ _ Hin')) as H2. cbn in *. congruence.
Qed.

(** * One candidate *)

(** The secret a connection's credential stands for. *)
Definition secret_of (host : Host) (connectionID : string) (c : Credential) : option (string * bool) :=
  match c with
  | External reference => match resolveExternalCredential host reference with Ok x => Some x | Err _ => None end
  | Sealed ciphertext nonce =>
      match openSecret host connectionID ciphertext nonce with Ok secret => Some (secret, false) | Err _ => None end
  | NoCredential => None
  end.

Definition without_credential (t : Target) : Target :=
  mkTarget (tt_ID t) (tt_Label t) (tt_Description t) (tt_ConnectionID t) (tt_ModelID t) (tt_UpstreamID t) (tt_Adapter t)
    (tt_Capabilities t) (tt_Revision t) (tt_Strategy t) (tt_FreeOnly t) (tt_UpstreamCapabilities t) (tt_BaseURL t)
    (tt_AllowPrivate t) (tt_TimeoutMS t) (tt_ConnectionRevision t) "" false (tt_Preset t) (tt_RequestScript t) (tt_ResponseScript t).

(** A target a plan may offer for the public model. *)
Record offered (host : Host) (s : db) (pm : PublicModelRow) (publicID : string) (o : RouteOptions) (now_ : Z) (r : RouteTarget) : Prop := {
  of_model : tt_ID (rt_Target r) = publicID;
  of_current : TargetIsCurrent s (rt_Target r) = true;
  of_granted : forall allows, op_AllowsConnection o = Some allows -> allows (tt_ConnectionID (rt_Target r)) = true;
  of_eligible : forall eligible, op_Eligibility o = Some eligible -> (eligible (without_credential (rt_Target r))).1 = true;
  of_secret : exists cn, t_connections s !! tt_ConnectionID (rt_Target r) = Some cn /\
    tt_BaseURL (rt_Target r) = cn_BaseURL cn /\
    (secret_of host (tt_ConnectionID (rt_Target r)) (cn_Credential cn) = Some (tt_Credential (rt_Target r), tt_Bearer (rt_Target r))
     \/ cn_Preset cn = "ollama"%string /\ tt_Credential (rt_Target r) = ""%string);
  of_free : pm_FreeOnly pm = true ->
    verified_free (priceAt (t_prices s) (tt_ConnectionID (rt_Target r)) publicID now_) now_ = true;
  of_circuit : forall ob until, t_observations s !! (tt_ModelID (rt_Target r), op_Operation o, op_Streaming o) = Some ob ->
    ro_CircuitUntil ob = Some until -> until <= now_ }.

Definition verdict_id (v : verdict) : string :=
  match v with Kept r => rt_UpstreamModelID r | Dropped r => rj_UpstreamModelID r end.

Section Assess.
Context (host : Host) (s : db) (publicID : string) (pm : PublicModelRow) (o : RouteOptions) (now_ : Z).
Hypothesis Hpm : t_public_models s !! publicID = Some pm.
Hypothesis Hactive : pm_Active pm = true.

Lemma candidate_current c credential bearer :
  c ∈ candidates s publicID -> TargetIsCurrent s (candidate_target publicID pm c credential bearer) = true.
Proof.
  intros (Ht & He & Hu & Ha & Hid & Hc & Hn)%elem_of_candidates. unfold TargetIsCurrent. cbn.
  rewrite Hpm, Ht, Hu, <- Hid, Hc, !String.eqb_refl, !Z.eqb_refl, Hactive, He, Ha, Hn. done.
Qed.

Lemma candidate_credential_secret failed c secret bearer :
  candidate_credential host failed c = (secret, bearer, false) ->
  secret_of host (cd_ConnectionID c) (cn_Credential (cd_Connection c)) = Some (secret, bearer) \/ secret = ""%string.
Proof.
  unfold candidate_credential, secret_of. destruct (cn_Credential (cd_Connection c)) as [|ct n|ref].
  - intros [= <- <- <-]. by right.
  - destruct (ct =s ""); [intros [= <- <- <-]; by right|]. destruct (openSecret _ _ _ _); intros; simplify_eq. by left.
  - destruct (resolveExternalCredential host ref) as [[? ?]|]; intros; simplify_eq. by left.
Qed.

Lemma assess_id failed c v failed' :
  assess host s publicID pm o now_ failed c = Ok (v, failed') -> verdict_id v = cd_ModelID c.
Proof.
  unfold assess. destruct (match op_AllowsConnection o with Some _ => _ | None => _ end); [by intros [= <- <-]|].
  destruct (match op_Eligibility o with Some _ => _ | None => _ end) as [[] ?]; [|by intros [= <- <-]].
  destruct (candidate_credential host failed c) as [[credential bearer] f].
  destruct (f || _); [by intros [= <- <-]|].
  intros (cost & _ & H)%result_bind_Ok. cbv zeta in H.
  destruct (pm_FreeOnly pm && _); [by simplify_eq|].
  destruct (match _ ≫= _ with Some _ => _ | None => _ end); by simplify_eq.
Qed.

Lemma assess_kept failed c r failed' :
  c ∈ candidates s publicID -> assess host s publicID pm o now_ failed c = Ok (Kept r, failed') ->
  offered host s pm publicID o now_ r /\ rt_Priority r = tg_Priority (cd_Row c) /\ rt_Weight r = tg_Weight (cd_Row c) /\
  rt_ConnectionID r = cd_ConnectionID c /\ tt_ModelID (rt_Target r) = rt_UpstreamModelID r.
Proof.
  intros Hc. unfold assess.
  destruct (match op_AllowsConnection o with Some _ => _ | None => _ end) eqn:Hallow; [done|].
  destruct (match op_Eligibility o with Some _ => _ | None => _ end) as [[] reason] eqn:Helig; [|done].
  destruct (candidate_credential host failed c) as [[credential bearer] f] eqn:Hcred.
  destruct f; cbn [orb]; [done|].
  destruct (_ && _) eqn:Hollama; [done|].
  intros (cost & _ & H)%result_bind_Ok. cbv zeta in H.
  destruct (pm_FreeOnly pm && _) eqn:Hfree; [done|].
  destruct (match _ ≫= _ with Some _ => _ | None => _ end) eqn:Huntil; [done|]. simplify_eq/=.
  split; [|done]. pose proof Hc as (_ & _ & _ & _ & Hid & Hcn & _)%elem_of_candidates.
  constructor; cbn.
  - done.
  - by apply candidate_current.
  - intros allows Ha. rewrite Ha in Hallow. by apply negb_false_iff.
  - intros eligible He. rewrite He in Helig.
    change ((eligible (candidate_target publicID pm c "" false)).1 = true). by rewrite Helig.
  - exists (cd_Connection c). split; [done|]. split; [done|].
    apply candidate_credential_secret in Hcred as [?| ->]; [by left|]. right.
    cbn in Hollama. by apply negb_false_iff, String.eqb_eq in Hollama.
  - intros Hf. rewrite Hf in Hfree. by apply negb_false_iff.
  - intros ob until Hob Hun. rewrite Hob in Huntil. cbn in Huntil. rewrite Hun in Huntil. lia.
Qed.

Lemma assess_all_spec cs failed vs :
  (forall c, c ∈ cs -> c ∈ candidates s publicID) ->
  assess_all host s publicID pm o now_ failed cs = Ok vs ->
  map verdict_id vs = map cd_ModelID cs /\
  Forall2 (fun c v => match v with
                      | Kept r => offered host s pm publicID o now_ r /\ rt_Priority r = tg_Priority (cd_Row c) /\
                                  rt_Weight r = tg_Weight (cd_Row c) /\ tt_ModelID (rt_Target r) = rt_UpstreamModelID r
                      | Dropped _ => True end) cs vs.
Proof.
  revert failed vs. induction cs as [|c cs IH]; cbn; intros failed vs Hcs; [intros [= <-]; by split|].
  intros ([v f] & Hv & H)%result_bind_Ok. apply result_bind_Ok in H as (vs' & Hvs & [= <-]).
  apply IH in Hvs as [Hids HF]; [|intros; apply Hcs; by right]. split.
  - cbn. by rewrite (assess_id _ _ _ _ Hv), Hids.
  - constructor; [|done]. destruct v as [r|]; [|done].
    destruct (assess_kept _ _ _ _ (Hcs c (list_elem_of_here _ _)) Hv) as (? & ? & ? & ? & ?). by split_and!.
Qed.
End Assess.

Lemma kept_dropped_ids vs :
  map rt_UpstreamModelID (kept vs) ++ map rj_UpstreamModelID (dropped vs) ≡ₚ map verdict_id vs.
Proof.
  induction vs as [|[r|r] vs IH]; cbn; [done| |].
  - by constructor.
  - rewrite <- Permutation_middle. by constructor.
Qed.

(** * Plans *)

Definition ids (ts : list RouteTarget) : list string := map rt_UpstreamModelID ts.
Definition rejected_ids (rs : list RouteRejection) : list string := map rj_UpstreamModelID rs.

Lemma filter_split_perm {A} (p : A -> bool) (l : list A) : List.filter p l ++ List.filter (fun x => negb (p x)) l ≡ₚ l.
Proof.
  induction l as [|x l IH]; cbn; [done|]. destruct (p x); cbn; [by constructor|].
  rewrite <- Permutation_middle. by constructor.
Qed.

Lemma ordered_perm items strategy seed ts rs reason :
  ordered items strategy seed = (ts, rs, reason) -> ids ts ++ rejected_ids rs ≡ₚ ids items.
Proof.
  unfold ordered, ids, rejected_ids. destruct (strategy =s "lowest_cost").
  { intros [= <- <- _]. rewrite map_map. cbn. rewrite <- map_app.
    apply fmap_Permutation. rewrite SliceStable_perm. apply filter_split_perm. }
  assert (forall l, l ≡ₚ items -> map rt_UpstreamModelID l ++ map rj_UpstreamModelID [] ≡ₚ map rt_UpstreamModelID items) as Hperm.
  { intros l Hl. cbn. rewrite app_nil_r. by apply fmap_Permutation. }
  destruct (strategy =s "lowest_latency").
  { destruct (_ && _); intros [= <- <- _]; apply Hperm; by rewrite ?swap_first_perm, SliceStable_perm. }
  destruct (strategy =s "weighted"); [|intros [= <- <- _]; by apply Hperm].
  destruct (Nat.ltb 1 _); intros [= <- <- _]; apply Hperm; by rewrite ?swap_first_perm.
Qed.

Lemma ordered_elem items strategy seed ts rs reason x :
  ordered items strategy seed = (ts, rs, reason) -> x ∈ ts -> x ∈ items.
Proof.
  unfold ordered. destruct (strategy =s "lowest_cost").
  { intros [= <- _ _]. rewrite SliceStable_perm, !list_elem_of_In. by intros [? _]%filter_In. }
  destruct (strategy =s "lowest_latency"); [destruct (_ && _); intros [= <- _ _]; by rewrite ?swap_first_perm, SliceStable_perm|].
  destruct (strategy =s "weighted"); [destruct (Nat.ltb 1 _)|]; intros [= <- _ _]; by rewrite ?swap_first_perm.
Qed.

Lemma orderRoute_elem items rejected strategy seed ts rs reason x :
  orderRoute items rejected strategy seed = (ts, rs, reason) -> x ∈ ts -> x ∈ items.
Proof.
  unfold orderRoute. destruct (ordered items strategy seed) as [[ts' rs'] reason'] eqn:E. intros [= <- _ _] Hx.
  eapply ordered_elem; [exact E|]. destruct (strategy =s "fixed"); [|done].
  rewrite <- (firstn_skipn 1 ts'). apply elem_of_app. by left.
Qed.

Lemma orderRoute_perm items rejected strategy seed ts rs reason :
  orderRoute items rejected strategy seed = (ts, rs, reason) -> strategy <> "fixed"%string ->
  ids ts ++ rejected_ids rs ≡ₚ ids items ++ rejected_ids rejected.
Proof.
  unfold orderRoute. destruct (ordered items strategy seed) as [[ts' rs'] reason'] eqn:E. intros [= <- <- _] Hs.
  destruct (String.eqb_spec strategy "fixed"); [done|]. apply ordered_perm in E.
  unfold rejected_ids. rewrite map_app, <- E. unfold rejected_ids. rewrite <- app_assoc. f_equiv. apply Permutation_app_comm.
Qed.

(** A plan is the ordered outcome of assessing every candidate. *)
Lemma Route_Ok host e publicID o s plan :
  Route host e publicID o s = (plan, None) ->
  exists pm vs now_ reason,
    t_public_models s !! publicID = Some pm /\ pm_Active pm = true /\ now_ = (if op_QuoteAt o <=? 0 then now e 0 else op_QuoteAt o) /\
    assess_all host s publicID pm o now_ false (candidates s publicID) = Ok vs /\
    orderRoute (kept vs) (dropped vs) (pm_Strategy pm) (op_Seed o) = (rp_Targets plan, rp_Rejected plan, reason) /\
    rp_Targets plan <> [] /\ rp_ModelID plan = publicID /\ rp_Strategy plan = pm_Strategy pm /\ rp_SelectionReason plan = reason.
Proof.
  unfold Route. destruct (t_public_models s !! publicID) as [pm|] eqn:Hpm; [|done]. destruct (pm_Active pm) eqn:Ha; [|done].
  cbv zeta. destruct (assess_all _ _ _ _ _ _ _ _) as [vs|] eqn:Hvs; [|done].
  destruct (orderRoute _ _ _ _) as [[ts rs] reason] eqn:Ho. destruct ts as [|t ts]; [done|].
  intros [= <-]. exists pm, vs, (if op_QuoteAt o <=? 0 then now e 0 else op_QuoteAt o), reason. by split_and!.
Qed.

Lemma kept_sorted P cs vs :
  StronglySorted (in_order priority_less) cs ->
  Forall2 (fun c v => match v with Kept r => P r /\ rt_Priority r = tg_Priority (cd_Row c) | Dropped _ => True end) cs vs ->
  StronglySorted by_priority (kept vs).
Proof.
  intros Hs H. revert Hs. induction H as [|c v cs vs Hv H IH]; intros Hs; [constructor|].
  apply StronglySorted_inv in Hs as [Hs Hc]. specialize (IH Hs). destruct v as [r|]; cbn; [|done].
  constructor; [done|]. destruct Hv as [_ Hr]. rewrite Forall_forall in Hc. apply Forall_forall. intros r' Hr'.
  apply list_elem_of_omap in Hr' as (v' & Hv' & E). destruct v' as [r''|]; simplify_eq/=.
  apply list_elem_of_lookup in Hv' as [i Hi]. destruct (Forall2_lookup_r _ _ _ _ _ H Hi) as (c' & Hc' & _ & Hr'').
  pose proof (Hc c' (list_elem_of_lookup_2 _ _ _ Hc')) as Hle. unfold in_order, priority_less in Hle. unfold by_priority. lia.
Qed.

Lemma candidates_sorted s publicID : StronglySorted (in_order priority_less) (candidates s publicID).
Proof. apply SliceStable_sorted; unfold priority_less; intros; lia. Qed.

Lemma Route_kept_sorted host s publicID pm o now_ vs :
  t_public_models s !! publicID = Some pm -> pm_Active pm = true ->
  assess_all host s publicID pm o now_ false (candidates s publicID) = Ok vs -> StronglySorted by_priority (kept vs).
Proof.
  intros Hpm Ha Hvs. apply assess_all_spec in Hvs as [_ HF]; [|done..].
  eapply (kept_sorted (fun _ => True)); [apply candidates_sorted|]. eapply Forall2_impl; [exact HF|].
  intros c [r|] H; [|done]. cbn in H. split; [done|]. by destruct H as (_ & ? & _).
Qed.

(** C26: Whatever the strategy, every target a plan offers is one the request
    may use: it belongs to the requested public model and is the current
    configuration of its model and connection; the key's connection filter
    and the request's eligibility test accept it; its credential is the one
    stored for that very connection and it is sent to that connection's base
    URL (only Ollama goes without one); a free-only model offers it only with
    a verified free price; and its circuit is closed. *)
Theorem Route_offers_usable_targets (host : Host) (e : env) (publicID : string) (o : RouteOptions) (s : db) (plan : RoutePlan) :
  Route host e publicID o s = (plan, None) ->
  exists pm, t_public_models s !! publicID = Some pm /\
    Forall (offered host s pm publicID o (if op_QuoteAt o <=? 0 then now e 0 else op_QuoteAt o)) (rp_Targets plan).
Proof.
  intros (pm & vs & now_ & reason & Hpm & Ha & -> & Hvs & Ho & _)%Route_Ok. exists pm. split; [done|].
  apply Forall_forall. intros r Hr. eapply orderRoute_elem in Hr; [|exact Ho].
  apply list_elem_of_omap in Hr as (v & Hv & E). destruct v as [r'|]; simplify_eq/=.
  apply assess_all_spec in Hvs as [_ HF]; [|done..].
  apply list_elem_of_lookup in Hv as [i Hi]. by destruct (Forall2_lookup_r _ _ _ _ _ HF Hi) as (c & _ & ? & _).
Qed.

(** A plan accounts for every enabled target of the model exactly once:
    each candidate is either offered or rejected with a reason, none twice.
    A fixed route offers one target only. *)
Theorem Route_accounts_for_candidates (host : Host) (e : env) (publicID : string) (o : RouteOptions) (s : db) (plan : RoutePlan) :
  Route host e publicID o s = (plan, None) ->
  NoDup (ids (rp_Targets plan) ++ rejected_ids (rp_Rejected plan)) /\
  (rp_Strategy plan <> "fixed"%string ->
   ids (rp_Targets plan) ++ rejected_ids (rp_Rejected plan) ≡ₚ map cd_ModelID (candidates s publicID)) /\
  (rp_Strategy plan = "fixed"%string -> length (rp_Targets plan) = 1%nat).
Proof.
  intros (pm & vs & now_ & reason & Hpm & Ha & _ & Hvs & Ho & Hne & _ & Hst & _)%Route_Ok. rewrite Hst.
  apply assess_all_spec in Hvs as [Hids _]; [|done..]. pose proof (kept_dropped_ids vs) as Hk.
  pose proof (NoDup_candidates s publicID) as Hn. rewrite <- Hids, <- Hk in Hn.
  destruct (String.eqb_spec (pm_Strategy pm) "fixed") as [Ef|Ef].
  - split_and!; [|done|].
    + unfold orderRoute, ordered in Ho. rewrite Ef in Ho. cbn [String.eqb Ascii.eqb] in Ho.
      assert (rp_Targets plan = firstn 1 (kept vs) /\ rp_Rejected plan = dropped vs) as [-> ->].
      { cbn in Ho. rewrite app_nil_r in Ho. by simplify_eq. }
      rewrite <- (firstn_skipn 1 (kept vs)), map_app, <- app_assoc in Hn.
      eapply sublist_NoDup; [exact Hn|]. unfold ids, rejected_ids. apply sublist_app; [done|]. by apply sublist_inserts_l.
    + intros _. unfold orderRoute, ordered in Ho. rewrite Ef in Ho. cbn in Ho. simplify_eq.
      destruct (rp_Targets plan) as [|x [|y l]]; [done|done|]. destruct (kept vs); done.
  - apply orderRoute_perm in Ho; [|done]. split_and!; [by rewrite Ho| |done].
    intros _. rewrite Ho. unfold ids, rejected_ids. by rewrite Hk, Hids.
Qed.

(** The order of a plan is the order its strategy names: a lowest-cost
    plan lists priced targets cheapest first, a lowest-latency plan lists
    measured targets fastest first and then the others, both with priority
    breaking ties, an ordered fallback goes by priority; only a request whose
    seed draws the one-in-twenty exploration sees the two fastest swapped. *)
Theorem Route_follows_strategy (host : Host) (e : env) (publicID : string) (o : RouteOptions) (s : db) (plan : RoutePlan) :
  Route host e publicID o s = (plan, None) ->
  (rp_Strategy plan = "ordered_fallback"%string -> StronglySorted by_priority (rp_Targets plan)) /\
  (rp_Strategy plan = "lowest_cost"%string -> StronglySorted by_cost (rp_Targets plan)) /\
  (rp_Strategy plan = "lowest_latency"%string ->
   exists ranked, StronglySorted by_latency ranked /\
     rp_Targets plan = if seed_number (op_Seed o) mod 20 =? 0 then swap_first 1 ranked else ranked).
Proof.
  intros (pm & vs & now_ & reason & Hpm & Ha & _ & Hvs & Ho & Hne & _ & Hst & _)%Route_Ok. rewrite Hst.
  pose proof (Route_kept_sorted _ _ _ _ _ _ _ Hpm Ha Hvs) as Hs.
  split_and!; intros E; unfold orderRoute, ordered in Ho; rewrite E in Ho; cbn in Ho; apply (f_equal (fun x => x.1.1)) in Ho; cbn in Ho.
  - by rewrite <- Ho.
  - rewrite <- Ho. by apply cost_order.
  - exists (SliceStable latency_less (kept vs)). split; [by apply latency_order|].
    destruct (SliceStable latency_less (kept vs)) as [|x [|y l]] eqn:El.
    + by rewrite <- Ho in Hne.
    + rewrite <- Ho. by destruct (_ =? 0).
    + rewrite <- Ho. by destruct (_ =? 0).
Qed.

(** C36: A weighted route leads with each target in proportion to its weight:
    the seed's number modulo the total weight falls into consecutive slices,
    one per target and as wide as its weight, and the target whose slice it
    falls into is tried first. The sums and the draw never leave [uint64]. *)
Theorem weighted_share (items pre post : list RouteTarget) (x : RouteTarget) (rejected : list RouteRejection) (seed : string) :
  items = pre ++ x :: post -> NoDup (ids items) -> Forall weighty items -> (1 < length items <= 32)%nat ->
  let draw := seed_number seed mod weight_before items in
  0 <= draw < weight_before items /\ weight_before items < two64 /\ total_weight items = weight_before items /\
  (hd_error (orderRoute items rejected "weighted" seed).1.1 = Some x <->
   weight_before pre <= draw < weight_before pre + rt_Weight x).
Proof.
  intros Hitems Hn Hw Hlen. cbv zeta. pose proof (weight_before_bound _ Hw) as Hb.
  assert (0 < weight_before items) as Hpos.
  { destruct items as [|y l]; [cbn in Hlen; lia|]. apply Forall_cons in Hw as [Hy Hl]. unfold weighty in Hy.
    pose proof (weight_before_bound _ Hl). cbn. lia. }
  pose proof (Z.mod_pos_bound (seed_number seed) _ Hpos) as Hd.
  set (draw := seed_number seed mod weight_before items) in *.
  assert (total_weight items = weight_before items) as Ht by (apply total_weight_sum; [done|lia]).
  split; [done|]. split; [unfold two64; lia|]. split; [done|].
  assert ((orderRoute items rejected "weighted" seed).1.1 = swap_first (default O (pick_from 0 draw items)) items) as ->.
  { unfold orderRoute, ordered. cbn [String.eqb Ascii.eqb Bool.eqb]. cbn. rewrite Ht. fold draw. destruct (length items) as [|[|n]]; [lia..|done]. }
  destruct (slice_exists items draw Hd) as (pre' & x' & post' & Hitems' & Hslice).
  assert (hd_error (swap_first (default O (pick_from 0 draw items)) items) = Some x') as ->.
  { rewrite Hitems' in Hw |- *. rewrite (pick_from_slice _ _ _ _ Hw Hslice). cbn. apply swap_first_head. apply list_lookup_middle. done. }
  split.
  - intros [= ->]. assert (pre' = pre) as ->; [|done].
    assert (length pre' = length pre) as Hl.
    { apply (NoDup_lookup (ids items) _ _ (rt_UpstreamModelID x)); [done|..]; unfold ids;
        [rewrite Hitems'|rewrite Hitems]; rewrite map_app; cbn; apply list_lookup_middle; by rewrite length_map. }
    rewrite Hitems in Hitems'. symmetry in Hitems'. by apply app_inj_1 in Hitems' as [? _].
  - intros Hx. f_equal. rewrite Hitems in Hw.
    assert (Some (length pre') = Some (length pre)) as [= Hl].
    { rewrite <- (pick_from_slice _ _ _ draw Hw Hx). rewrite <- Hitems, Hitems'. symmetry. apply pick_from_slice; [|done].
      by rewrite <- Hitems', Hitems. }
    rewrite Hitems in Hitems'. symmetry in Hitems'. apply app_inj_1 in Hitems' as [_ ?]; [congruence|done].
Qed.

(** * The circuit of a target *)

(** What happened to one (model, operation, streaming): the outcomes, oldest
    first, with their durations in milliseconds and their times. *)
Record Outcome := mkOutcome { oc_Success : bool; oc_FirstMS : Z; oc_TotalMS : Z; oc_At : Z }.

Definition observe_all (l : list Outcome) : option ObservationRow :=
  fold_left (fun row oc => Some (observe (oc_Success oc) (oc_FirstMS oc) (oc_TotalMS oc) (oc_At oc) row)) l None.

(** The specification: count what succeeded and what failed, and the failures
    since the last success; three of them keep the circuit open for thirty
    seconds after the latest. *)
Definition successes (l : list Outcome) : Z := Z.of_nat (length (List.filter oc_Success l)).
Definition failures (l : list Outcome) : Z := Z.of_nat (length (List.filter (fun oc => negb (oc_Success oc)) l)).
Fixpoint failing_streak (newest_first : list Outcome) : Z :=
  match newest_first with
  | oc :: l => if oc_Success oc then 0 else 1 + failing_streak l
  | [] => 0
  end.
Definition circuit_spec (l : list Outcome) : option Z :=
  if 3 <=? failing_streak (rev l) then (fun oc => oc_At oc + circuitDuration) <$> last l else None.

Lemma observe_all_snoc l oc :
  observe_all (l ++ [oc]) = Some (observe (oc_Success oc) (oc_FirstMS oc) (oc_TotalMS oc) (oc_At oc) (observe_all l)).
Proof. unfold observe_all. by rewrite fold_left_app. Qed.

Lemma failing_streak_nonneg l : 0 <= failing_streak l.
Proof. induction l as [|oc l IH]; cbn; [lia|]. destruct (oc_Success oc); lia. Qed.

(** C35: Recording outcomes implements the circuit breaker's specification:
    after any history the row counts the successes and the failures, its
    consecutive failures are those since the last success, and the circuit is
    open, until thirty seconds after the latest failure, exactly when there
    are three or more of them. *)
Theorem observations_implement_breaker (l : list Outcome) (row : ObservationRow) :
  observe_all l = Some row ->
  ro_Successes row = successes l /\ ro_Failures row = failures l /\
  ro_Consecutive row = failing_streak (rev l) /\ ro_CircuitUntil row = circuit_spec l.
Proof.
  revert row. induction l as [|oc l IH] using rev_ind; intros row; [done|].
  rewrite observe_all_snoc. intros [= <-].
  unfold successes, failures, circuit_spec. rewrite !List.filter_app, !length_app, rev_app_distr, last_snoc. cbn -[Z.leb Z.of_nat].
  destruct (observe_all l) as [old|] eqn:E.
  - destruct (IH old eq_refl) as (Hs & Hf & Hc & Hu). unfold successes, failures, circuit_spec in *. cbn [observe].
    destruct (oc_Success oc); cbn -[Z.leb Z.of_nat]; split_and!; try lia; try done.
    rewrite Hc, Z.add_comm. destruct (3 <=? 1 + failing_streak (rev l)) eqn:E3; [done|].
    rewrite Hu. destruct (3 <=? failing_streak (rev l)) eqn:E4; [lia|done].
  - destruct l as [|oc' l]; [|exfalso; revert E; clear; induction l as [|x l _] using rev_ind; [done|]; by rewrite app_comm_cons, observe_all_snoc].
    destruct (oc_Success oc); done.
Qed.

(** Averages stay within what was observed: once every duration recorded
    for a target lies between two bounds, so do its average first-byte and
    total latencies, whatever the order of successes and failures. *)
Theorem latency_average_bounded (lo hi : Z) (l : list Outcome) (row : ObservationRow) :
  0 <= lo -> Forall (fun oc => lo <= oc_FirstMS oc <= hi /\ lo <= oc_TotalMS oc <= hi) l ->
  observe_all l = Some row ->
  exists first total, ro_FirstByte row = Some first /\ ro_Total row = Some total /\ lo <= first <= hi /\ lo <= total <= hi.
Proof.
  intros Hlo. revert row. induction l as [|oc l IH] using rev_ind; intros row Hl; [done|].
  apply Forall_app in Hl as [Hl [[Hf Ht] _]%Forall_cons]. rewrite observe_all_snoc. intros [= <-].
  destruct (observe_all l) as [old|]; [|cbn; eauto 10].
  destruct (IH old Hl eq_refl) as (f & t & Ef & Et & Hf' & Ht'). cbn [observe]. rewrite Ef, Et.
  destruct (oc_Success oc); cbn; [|eauto 10].
  eexists _, _. split; [done|]. split; [done|].
  rewrite !Z.quot_div_nonneg by lia.
  split; (split; [apply Z.div_le_lower_bound|apply Z.div_le_upper_bound]; lia).
Qed.
