(* ===== verification/Publishing.v ===== *)
(** The life of the provider catalogue: what every call of the provider
    service does to connections, models and routes; the invariant all of them
    keep; that a credential never outlives the endpoint it was entered for;
    and that configuring a route takes effect at once. *)
From S2P Require Import Prelude GoStd Sha256 Money Counters Policy Json Store Pricing PathMatch Grants Catalogue Connections Routing Selection Users.

Definition catalogue_tables (s : db) := (t_connections s, t_upstream_models s, t_public_models s, t_targets s).

Lemma requireManager_Ok s actorID role :
  requireManager s actorID = Ok role ->
  exists u, t_users s !! actorID = Some u /\ u_Status u = UActive /\ u_Role u = role /\ is_manager role = true.
Proof.
  unfold requireManager. destruct (t_users s !! actorID) as [u|]; [|done].
  intros (? & [Hs Hm]%ensure_Ok%andb_true_iff & [= <-])%result_bind_Ok. apply bool_decide_eq_true in Hs. eauto.
Qed.

Lemma audit_keeps_catalogue e n a b c d : keeps catalogue_tables (audit e n a b c d).
Proof. unfold audit. keeps_tac. Qed.
#[export] Hint Resolve audit_keeps_catalogue : keeps.

(** An UPDATE of the connection [id] that certainly finds it. *)
Lemma update_connection_row id cond f s n s' row :
  t_connections s !! id = Some row -> update_row t_connections set_connections id cond f s = Ok (n, s') ->
  s' = set_connections (<[id := if cond row then f row else row]> (t_connections s)) s /\ (n = 1 <-> cond row = true).
Proof.
  intros Hrow [(v & Hv & Hc & -> & ->)|(-> & -> & Hc)]%update_row_Ok.
  - rewrite Hrow in Hv. injection Hv as <-. by rewrite Hc.
  - rewrite (Hc row Hrow). rewrite insert_id by done. split; [by destruct s|done].
Qed.

Section Publishing.
Context (host : Host).

(** ** Connections *)

Lemma create_connection_tx_Ok e actorID i s id s' :
  create_connection_tx e actorID i s = Ok (id, s') ->
  t_connections s !! id = None /\ exists row, cn_Adapter row = ci_Adapter i /\ cn_Preset row = ci_Preset i /\
    cn_BaseURL row = ci_BaseURL i /\ cn_TimeoutMS row = ci_TimeoutMS i /\ cn_Credential row = NoCredential /\
    catalogue_tables s' = (<[id := row]> (t_connections s), t_upstream_models s, t_public_models s, t_targets s).
Proof.
  intros H. unfold create_connection_tx in H. tx_peel H. cbv zeta in H. tx_peel H.
  apply tx_bind_Ok in H as (? & s1 & Hi & H). apply insert_row_Ok in Hi as [Hn ->].
  apply tx_bind_Ok in H as (? & s2 & Ha & H). apply tx_ret_Ok in H as [<- <-]. apply audit_keeps_catalogue in Ha.
  split; [done|]. rewrite Ha. eexists (mkConnectionRow _ _ _ _ _ _ _ _ _ _ _ _). split_and!; reflexivity.
Qed.

Lemma update_connection_tx_Ok e actorID id revision i s u s' :
  update_connection_tx e actorID id revision i s = Ok (u, s') ->
  forallb (fun m => PresetSupportsModelCapabilities (ci_Preset i) (um_UpstreamID m.2) (um_Capabilities m.2)) (models_of s id) = true /\
  exists row row', t_connections s !! id = Some row /\ cn_Revision row = revision /\
    cn_Adapter row' = ci_Adapter i /\ cn_Preset row' = ci_Preset i /\ cn_BaseURL row' = ci_BaseURL i /\
    cn_TimeoutMS row' = ci_TimeoutMS i /\ cn_Revision row' = revision + 1 /\
    cn_Credential row' = (if endpoint_differs i row then NoCredential else cn_Credential row) /\
    catalogue_tables s' = (<[id := row']> (t_connections s), t_upstream_models s, t_public_models s, t_targets s).
Proof.
  intros H. unfold update_connection_tx in H. tx_peel H. split; [done|].
  apply tx_bind_Ok in H as (n1 & s1 & Ha & H). apply tx_bind_Ok in H as (n2 & s2 & Hb & H).
  apply tx_bind_Ok in H as (n3 & s3 & Hd & H). tx_peel H. apply audit_keeps_catalogue in H.
  destruct (t_connections s !! id) as [row|] eqn:Hrow.
  2:{ exfalso. apply update_row_Ok in Ha as [(v & Hv & _)|(-> & -> & _)]; [congruence|].
      assert (s2 = s) as -> by (destruct (scriptable _ _); [by apply tx_ret_Ok in Hb as [_ <-]|];
        apply update_row_Ok in Hb as [(v & Hv & _)|(-> & -> & _)]; [congruence|done]).
      apply update_row_Ok in Hd as [(v & Hv & _)|(-> & -> & _)]; [congruence|done]. }
  apply (update_connection_row _ _ _ _ _ _ row) in Ha as [-> _]; [|done].
  set (row1 := if endpoint_differs i row then _ else _) in *.
  assert (exists row2, s2 = set_connections (<[id := row2]> (t_connections s)) s /\ cn_Revision row2 = cn_Revision row /\
            cn_Credential row2 = cn_Credential row1) as (row2 & -> & Hr2 & Hc2).
  { assert (cn_Revision row1 = cn_Revision row) as Hr by (unfold row1; by destruct (endpoint_differs i row)).
    destruct (scriptable _ _).
    - apply tx_ret_Ok in Hb as [_ <-]. by exists row1.
    - apply (update_connection_row _ _ _ _ _ _ row1) in Hb as [-> _]; [|apply lookup_insert_eq].
      exists (with_scripts None row1). cbn. by rewrite insert_insert_eq. }
  apply (update_connection_row _ _ _ _ _ _ row2) in Hd as [-> Hn]; [|apply lookup_insert_eq].
  assert (cn_Revision row2 =? revision = true) as Hrev by (apply Hn; by apply Z.eqb_eq). rewrite Hrev in H.
  exists row, (with_settings i (now e 0) row2). cbn in H. rewrite insert_insert_eq in H. apply Z.eqb_eq in Hrev.
  split_and!; try done; cbn; [congruence|congruence|]. rewrite Hc2. unfold row1. by destruct (endpoint_differs i row).
Qed.

Lemma put_credential_tx_Ok e actorID id c s u s' :
  put_credential_tx e actorID id c s = Ok (u, s') ->
  (exists role, requireManager s actorID = Ok role /\ ((exists reference, c = External reference) -> role = Owner)) /\
  forall row, t_connections s !! id = Some row ->
    catalogue_tables s' = (<[id := with_next_revision (now e 0) (with_credential c row)]> (t_connections s),
                           t_upstream_models s, t_public_models s, t_targets s).
Proof.
  intros H. unfold put_credential_tx in H. tx_peel H. split.
  - eexists. split; [eassumption|]. intros [reference ->]. by eapply bool_decide_eq_true_1.
  - intros row Hrow. apply tx_bind_Ok in H as (n1 & s1 & Ha & H). apply tx_bind_Ok in H as (n2 & s2 & Hb & H).
    apply (update_connection_row _ _ _ _ _ _ row) in Ha as [-> _]; [|done].
    apply (update_connection_row _ _ _ _ _ _ (with_credential c row)) in Hb as [-> _]; [|apply lookup_insert_eq].
    apply audit_keeps_catalogue in H. rewrite H. cbn. by rewrite insert_insert_eq.
Qed.

Lemma script_tx_Ok e actorID action id revision scripts s u s' :
  script_tx e actorID action id revision scripts s = Ok (u, s') ->
  exists row, t_connections s !! id = Some row /\ cn_Revision row = revision /\
    catalogue_tables s' = (<[id := with_scripts scripts (with_next_revision (now e 0) row)]> (t_connections s),
                           t_upstream_models s, t_public_models s, t_targets s).
Proof.
  intros H. unfold script_tx in H. tx_peel H. apply tx_bind_Ok in H as (n1 & s1 & Ha & H). tx_peel H.
  apply update_row_Ok in Ha as [(row & Hrow & Hc & -> & ->)|(-> & -> & _)]; [|done].
  apply tx_bind_Ok in H as (n2 & s2 & Hb & H).
  apply (update_connection_row _ _ _ _ _ _ (with_next_revision (now e 0) row)) in Hb as [-> _]; [|apply lookup_insert_eq].
  apply audit_keeps_catalogue in H. exists row. rewrite H. cbn. rewrite insert_insert_eq. split_and!; [done| |done]. lia.
Qed.

(** ** Models and routes *)

Lemma create_upstream_model_tx_Ok e actorID connectionID upstreamID caps s u s' :
  create_upstream_model_tx e actorID connectionID upstreamID caps s = Ok (u, s') ->
  exists id, t_upstream_models s !! id = None /\
    catalogue_tables s' = (t_connections s, <[id := mkUpstreamModelRow connectionID upstreamID caps true]> (t_upstream_models s),
                           t_public_models s, t_targets s).
Proof.
  intros H. unfold create_upstream_model_tx in H. tx_peel H. cbv zeta in H. tx_peel H.
  apply tx_bind_Ok in H as (? & s1 & Hi & H). apply insert_row_Ok in Hi as [Hn ->].
  apply tx_bind_Ok in H as (? & s2 & Ha & H). apply tx_ret_Ok in H as [_ <-]. apply audit_keeps_catalogue in Ha.
  eexists. split; [exact Hn|]. by rewrite Ha.
Qed.

Lemma insert_target_Ok publicID modelID row err s u s' :
  insert_target publicID modelID row err s = Ok (u, s') ->
  t_targets s !! (publicID, modelID) = None /\
  (forall mid r, t_targets s !! (publicID, mid) = Some r -> tg_Priority r <> tg_Priority row) /\
  s' = set_targets (<[(publicID, modelID) := row]> (t_targets s)) s.
Proof.
  intros H. unfold insert_target in H. tx_peel H. apply insert_row_Ok in H as [Hn ->].
  match goal with H : _ && _ = true |- _ => apply andb_true_iff in H as [_ Hp] end. split; [done|]. split; [|done].
  intros mid r Hr. rewrite forallb_forall in Hp. specialize (Hp ((publicID, mid), r)).
  assert (negb (tg_Priority r =? tg_Priority row) = true) as Hneg; [|lia].
  apply Hp. apply list_elem_of_In, elem_of_select_rows. split; [done|apply String.eqb_refl].
Qed.

Lemma create_public_model_tx_Ok e actorID id label description connectionID modelID caps s u s' :
  create_public_model_tx e actorID id label description connectionID modelID caps s = Ok (u, s') ->
  t_public_models s !! id = None /\
  catalogue_tables s' =
    (t_connections s, t_upstream_models s,
     <[id := mkPublicModelRow label description connectionID modelID caps true "fixed" false 1 (now e 0)]> (t_public_models s),
     <[(id, modelID) := mkTargetRow 1 1 true (now e 0)]> (t_targets s)).
Proof.
  intros H. unfold create_public_model_tx in H. tx_peel H.
  apply tx_bind_Ok in H as (? & s1 & Hi & H). apply insert_row_Ok in Hi as [Hn ->].
  apply tx_bind_Ok in H as (? & s2 & Ht & H). apply insert_target_Ok in Ht as (_ & _ & ->).
  apply audit_keeps_catalogue in H. split; [done|]. by rewrite H.
Qed.

Definition row_of (at_ : Z) (t : RouteTargetInput) : TargetRow := mkTargetRow (ri_Priority t) (ri_Weight t) (ri_Enabled t) at_.

Lemma insert_targets_Ok publicID at_ ts : forall s u s',
  for_each (fun t => insert_target publicID (ri_UpstreamModelID t) (row_of at_ t) ErrConflict) ts s = Ok (u, s') ->
  t_connections s' = t_connections s /\ t_upstream_models s' = t_upstream_models s /\ t_public_models s' = t_public_models s /\
  forall k r, t_targets s' !! k = Some r <->
    t_targets s !! k = Some r \/ exists t, t ∈ ts /\ k = (publicID, ri_UpstreamModelID t) /\ r = row_of at_ t.
Proof.
  induction ts as [|t ts IH]; intros s u s' H; cbn in H.
  - apply tx_ret_Ok in H as [_ <-]. split_and!; [done..|]. intros k r. split; [by left|]. intros [?|(t & Ht & _)]; [done|by apply elem_of_nil in Ht].
  - apply tx_bind_Ok in H as (? & s1 & Hi & H). apply insert_target_Ok in Hi as (Hn & _ & ->).
    apply IH in H as (-> & -> & -> & Hk). split_and!; [done..|]. intros k r. rewrite Hk. cbn [t_targets set_targets].
    destruct (decide ((publicID, ri_UpstreamModelID t) = k)) as [E|E].
    + rewrite <- E, lookup_insert_eq, Hn. split.
      * intros [[= <-]|(t' & Ht' & ? & ?)]; right; [exists t; split_and!; [by left|done..]|exists t'; split_and!; [by right|done..]].
      * intros [?|(t' & Ht' & Ek & ->)]; [done|]. apply elem_of_cons in Ht' as [->|Ht']; [by left|right; by exists t'].
    + rewrite lookup_insert_ne by done. split.
      * intros [?|(t' & Ht' & ? & ?)]; [by left|right; exists t'; split_and!; [by right|done..]].
      * intros [?|(t' & Ht' & Ek & ->)]; [by left|]. apply elem_of_cons in Ht' as [->|Ht']; [congruence|right; by exists t'].
Qed.

Lemma configure_route_tx_Ok e actorID publicID revision strategy freeOnly ts s u s' :
  configure_route_tx e actorID publicID revision strategy freeOnly ts s = Ok (u, s') ->
  exists pm um, t_public_models s !! publicID = Some pm /\ pm_Revision pm = revision /\
    t_upstream_models s !! primary_of ts = Some um /\
    t_connections s' = t_connections s /\ t_upstream_models s' = t_upstream_models s /\
    t_public_models s' = <[publicID := with_route strategy freeOnly (primary_of ts) (um_Connection um) (now e 0) pm]> (t_public_models s) /\
    forall k r, t_targets s' !! k = Some r <->
      (k.1 <> publicID /\ t_targets s !! k = Some r) \/ exists t, t ∈ ts /\ k = (publicID, ri_UpstreamModelID t) /\ r = row_of (now e 0) t.
Proof.
  intros H. unfold configure_route_tx in H. tx_peel H. cbv zeta in H. tx_peel H.
  apply tx_bind_Ok in H as (n & s1 & Hu & H). tx_peel H.
  apply update_row_Ok in Hu as [(pm & Hpm & Hr & -> & ->)|(-> & -> & _)]; [|done].
  apply tx_bind_Ok in H as (? & s2 & Hd & H). unfold delete_rows in Hd. apply modify_Ok in Hd as ->.
  apply tx_bind_Ok in H as (? & s3 & Hi & H). apply insert_targets_Ok in Hi as (Hc & Hm & Hp & Ht).
  apply audit_keeps_catalogue in H. unfold catalogue_tables in H. injection H as -> -> -> ->.
  rewrite Hc, Hm, Hp. eexists pm, _. split_and!; try eassumption; try done; [lia|].
  intros k r. rewrite Ht. cbn [t_targets set_targets]. rewrite map_lookup_filter_Some. cbn.
  rewrite String.eqb_neq. naive_solver.
Qed.
End Publishing.

(** * Validated routes *)

Lemma valid_targets_spec seenM seenP ts :
  valid_targets seenM seenP ts = true ->
  Forall (fun t => 1 <= ri_Priority t <= 1000 /\ 1 <= ri_Weight t <= 10000) ts /\
  NoDup (map ri_UpstreamModelID ts) /\ NoDup (map ri_Priority ts) /\
  (forall t, t ∈ ts -> ~ In (ri_UpstreamModelID t) seenM /\ ~ In (ri_Priority t) seenP).
Proof.
  revert seenM seenP. induction ts as [|t ts IH]; intros seenM seenP H.
  { split_and!; [constructor..|]. intros t Ht. by apply elem_of_nil in Ht. }
  cbn [valid_targets] in H. rewrite !andb_true_iff in H.
  destruct H as [[[[[[[Hp1 Hp2] Hw1] Hw2] _] Hm] Hp] H]. apply IH in H as (HF & HnM & HnP & Hs).
  assert (~ In (ri_UpstreamModelID t) seenM) as Hm' by (apply negb_true_iff in Hm; by rewrite <- contains_In, Hm).
  assert (~ In (ri_Priority t) seenP) as Hp'.
  { apply negb_true_iff in Hp. intros Hin. assert (existsb (Z.eqb (ri_Priority t)) seenP = true); [|congruence].
    apply existsb_exists. exists (ri_Priority t). split; [done|apply Z.eqb_refl]. }
  split_and!.
  - constructor; [lia|done].
  - cbn. constructor; [|done]. intros (t' & Et & Ht')%list_elem_of_fmap. apply Hs in Ht' as [Hx _]. apply Hx. by left.
  - cbn. constructor; [|done]. intros (t' & Et & Ht')%list_elem_of_fmap. apply Hs in Ht' as [_ Hx]. apply Hx. by left.
  - intros t' [->|Ht']%elem_of_cons; [done|]. apply Hs in Ht' as [Hx Hy]. split; intros ?; [apply Hx|apply Hy]; by right.
Qed.

Lemma check_route_Ok s actorID publicID revision strategy freeOnly ts u :
  check_route s actorID publicID revision strategy freeOnly ts = Ok u ->
  exists role pm most, requireManager s actorID = Ok role /\ ts <> [] /\ valid_targets [] [] ts = true /\ List.filter ri_Enabled ts <> [] /\
    t_public_models s !! publicID = Some pm /\ pm_Revision pm = revision /\
    max_targets (pm_Capabilities pm) strategy = Some most /\ Z.of_nat (length ts) <= most /\
    Forall (fun t => exists um, t_upstream_models s !! ri_UpstreamModelID t = Some um /\ um_Active um = true /\
                     users_subset (pm_Capabilities pm) (um_Capabilities um) = true) ts.
Proof.
  intros H. unfold check_route in H. apply result_bind_Ok in H as (role & Hrole & H).
  apply result_bind_Ok in H as (? & H1%ensure_Ok & H). apply result_bind_Ok in H as (? & H2%ensure_Ok & H).
  apply result_bind_Ok in H as (? & H3%ensure_Ok & H). destruct (t_public_models s !! publicID) as [pm|]; [|done].
  apply result_bind_Ok in H as (? & H4%ensure_Ok & H). apply result_bind_Ok in H as (? & H5%ensure_Ok & H).
  destruct (max_targets (pm_Capabilities pm) strategy) as [most|] eqn:Hmax; [|done]. exists role, pm, most. split_and!; try done.
  - rewrite !andb_true_iff in H1. by destruct ts; [destruct H1 as [[_ ?] _]|].
  - unfold enabled_count in H3. by destruct (List.filter ri_Enabled ts).
  - lia.
  - lia.
  - clear -H. induction ts as [|t ts IH]; constructor; cbn in H;
      destruct (t_upstream_models s !! ri_UpstreamModelID t) as [um|]; try done; destruct (um_Active um) eqn:E; try done;
      apply result_bind_Ok in H as (? & Hs%ensure_Ok & H); [by exists um|by apply IH].
Qed.

(** Sorting any arrangement of a strictly sorted list gives the list. *)
Lemma SliceStable_unique {A} (less : A -> A -> bool) (l l' : list A) :
  (forall a b, less a b = true -> less b a = false) ->
  (forall a b c, less b a = false -> less c b = false -> less c a = false) ->
  l' ≡ₚ l -> StronglySorted (in_order less) l ->
  (forall x y, x ∈ l -> y ∈ l -> less x y = false -> less y x = false -> x = y) ->
  SliceStable less l' = l.
Proof.
  intros Hasym Htrans Hperm Hs Hanti. apply (StronglySorted_unique_strong (in_order less)).
  - intros x y Hx Hy Hxy Hyx. rewrite SliceStable_perm, Hperm in Hx. by apply Hanti.
  - by apply SliceStable_sorted.
  - done.
  - by rewrite SliceStable_perm.
Qed.

(** * The catalogue invariant *)

(** What the tables promise whatever calls were made: connections are of a
    supported kind; every model belongs to a connection whose preset supports
    its capabilities; every route target leads from a public model to an
    upstream model that has all its capabilities, within the priority and
    weight bounds, one target per priority; every public model has a valid id
    and capability list, a route its strategy allows and an enabled target. *)
Record catalogue_ok (s : db) : Prop := {
  co_connection : forall id cn, t_connections s !! id = Some cn ->
    is_some (adapters (cn_Adapter cn)) = true /\ presetAllowed (cn_Preset cn) (cn_Adapter cn) = true /\ 1000 <= cn_TimeoutMS cn <= 600000;
  co_model : forall id um, t_upstream_models s !! id = Some um ->
    exists cn, t_connections s !! um_Connection um = Some cn /\ validCapabilities (um_Capabilities um) = true /\
      PresetSupportsModelCapabilities (cn_Preset cn) (um_UpstreamID um) (um_Capabilities um) = true;
  co_public : forall id pm, t_public_models s !! id = Some pm ->
    validPublicID id = true /\ validCapabilities (pm_Capabilities pm) = true /\
    (exists mid tg, t_targets s !! (id, mid) = Some tg /\ tg_Enabled tg = true) /\
    exists most, max_targets (pm_Capabilities pm) (pm_Strategy pm) = Some most /\ Z.of_nat (length (targets_of s id)) <= most;
  co_target : forall pid mid tg, t_targets s !! (pid, mid) = Some tg ->
    1 <= tg_Priority tg <= 1000 /\ 1 <= tg_Weight tg <= 10000 /\
    exists pm um, t_public_models s !! pid = Some pm /\ t_upstream_models s !! mid = Some um /\
      users_subset (pm_Capabilities pm) (um_Capabilities um) = true;
  co_priority : forall pid m1 m2 t1 t2, t_targets s !! (pid, m1) = Some t1 -> t_targets s !! (pid, m2) = Some t2 ->
    tg_Priority t1 = tg_Priority t2 -> m1 = m2 }.

Lemma targets_of_tables s s' id : t_targets s' = t_targets s -> targets_of s' id = targets_of s id.
Proof. unfold targets_of. by intros ->. Qed.

Lemma targets_of_other s s' id : (forall m, t_targets s' !! (id, m) = t_targets s !! (id, m)) -> targets_of s' id = targets_of s id.
Proof.
  intros H. unfold targets_of, select_rows. f_equal. apply map_eq. intros [p m]. rewrite !map_lookup_filter.
  destruct (decide (p = id)) as [->|Hne]; [by rewrite H|]. cbn. assert (p =s id = false) as -> by by apply String.eqb_neq.
  by destruct (t_targets s' !! (p, m)), (t_targets s !! (p, m)).
Qed.

(** The tables decide the invariant. *)
Lemma catalogue_ok_tables s s' : catalogue_tables s' = catalogue_tables s -> catalogue_ok s -> catalogue_ok s'.
Proof.
  unfold catalogue_tables. intros [= Hc Hm Hp Ht] [H1 H2 H3 H4 H5]. constructor; rewrite ?Hc, ?Hm, ?Hp, ?Ht; try done.
  intros id pm Hpm. rewrite (targets_of_tables _ _ _ Ht). by apply H3.
Qed.

(** A connection keeping its preset, or one whose new preset supports its models. *)
Lemma catalogue_ok_connection s s' id row :
  catalogue_ok s -> catalogue_tables s' = (<[id := row]> (t_connections s), t_upstream_models s, t_public_models s, t_targets s) ->
  is_some (adapters (cn_Adapter row)) = true -> presetAllowed (cn_Preset row) (cn_Adapter row) = true -> 1000 <= cn_TimeoutMS row <= 600000 ->
  (forall mid um, t_upstream_models s !! mid = Some um -> um_Connection um = id ->
     PresetSupportsModelCapabilities (cn_Preset row) (um_UpstreamID um) (um_Capabilities um) = true) ->
  catalogue_ok s'.
Proof.
  unfold catalogue_tables. intros [H1 H2 H3 H4 H5] [= Hc Hm Hp Ht] Ha Hpa Hto Hsup. constructor; rewrite ?Hc, ?Hm, ?Hp, ?Ht; try done.
  - intros id' cn Hcn. destruct (decide (id' = id)) as [->|]; [rewrite lookup_insert_eq in Hcn; by simplify_eq|].
    rewrite lookup_insert_ne in Hcn by done. by eapply H1.
  - intros mid um Hum. destruct (H2 mid um Hum) as (cn & Hcn & Hv & Hs). destruct (decide (um_Connection um = id)) as [E|E].
    + exists row. rewrite E, lookup_insert_eq. split_and!; [done..|]. by eapply Hsup.
    + exists cn. by rewrite lookup_insert_ne by done.
  - intros id' pm Hpm. rewrite (targets_of_tables _ _ _ Ht). by apply H3.
Qed.

Lemma models_supported s id preset :
  forallb (fun m => PresetSupportsModelCapabilities preset (um_UpstreamID m.2) (um_Capabilities m.2)) (models_of s id) = true ->
  forall mid um, t_upstream_models s !! mid = Some um -> um_Connection um = id ->
    PresetSupportsModelCapabilities preset (um_UpstreamID um) (um_Capabilities um) = true.
Proof.
  intros H mid um Hum <-. rewrite forallb_forall in H. apply (H (mid, um)).
  apply list_elem_of_In, elem_of_select_rows. split; [done|apply String.eqb_refl].
Qed.

(** The rows of one public model, as the list of its targets. *)
Lemma targets_of_perm s publicID at_ ts :
  NoDup (map ri_UpstreamModelID ts) ->
  (forall k r, t_targets s !! k = Some r /\ k.1 = publicID <-> exists t, t ∈ ts /\ k = (publicID, ri_UpstreamModelID t) /\ r = row_of at_ t) ->
  targets_of s publicID ≡ₚ map (fun t => ((publicID, ri_UpstreamModelID t), row_of at_ t)) ts.
Proof.
  intros Hn Hk. apply NoDup_Permutation.
  - eapply NoDup_fmap_1. apply NoDup_select_rows.
  - eapply (NoDup_fmap_1 (fun x : (string * string) * TargetRow => x.1.2)).
    change (NoDup (map (fun x : (string * string) * TargetRow => x.1.2) (map (fun t => (publicID, ri_UpstreamModelID t, row_of at_ t)) ts))).
    by rewrite map_map.
  - intros [k r]. unfold targets_of. rewrite elem_of_select_rows, String.eqb_eq, Hk, list_elem_of_fmap. naive_solver.
Qed.

Section Invariant.
Context (host : Host).

Lemma validateConnection_Ok input i :
  validateConnection host input = Ok i ->
  is_some (adapters (ci_Adapter i)) = true /\ presetAllowed (ci_Preset i) (ci_Adapter i) = true /\ 1000 <= ci_TimeoutMS i <= 600000 /\
  exists u, url_Parse host (ci_BaseURL i) = Some u /\ presetBaseURLAllowed host (ci_Preset i) u = true /\
    (ci_AllowPrivate i = false -> url_Scheme u = "https"%string /\ isPrivateHost host (url_Hostname u) = false).
Proof.
  unfold validateConnection. intros H. apply result_bind_Ok in H as (? & H1%ensure_Ok & H). cbv zeta in H.
  destruct (url_Parse host (ci_BaseURL (normalized input))) as [u|] eqn:Hu; [|done].
  apply result_bind_Ok in H as (? & H2%ensure_Ok & H). apply result_bind_Ok in H as (? & H3%ensure_Ok & H).
  apply result_bind_Ok in H as (? & H4%ensure_Ok & H). apply result_bind_Ok in H as (? & H5%ensure_Ok & H).
  apply result_bind_Ok in H as (? & H6%ensure_Ok & [= <-]).
  rewrite negb_true_iff, !orb_false_iff, !negb_false_iff in H1. destruct H1 as [[_ Ha] Hp]. split_and!; try done; try lia.
  exists u. split_and!; try done. intros Hpriv. rewrite Hpriv in H4, H5. rewrite orb_false_r in H4.
  apply String.eqb_eq in H4. cbn in H5. by apply negb_true_iff in H5.
Qed.

Lemma CreateConnection_ok e actorID input s : catalogue_ok s -> catalogue_ok (CreateConnection host e actorID input s).2.
Proof.
  intros Hs. unfold CreateConnection. destruct (requireManager s actorID ≫= _) as [i|] eqn:Hi; [|done].
  apply result_bind_Ok in Hi as (role & _ & Hv). apply validateConnection_Ok in Hv as (Ha & Hp & Ht & _). unfold commit.
  destruct (create_connection_tx e actorID i s) as [[id s']|] eqn:E; [|done].
  apply create_connection_tx_Ok in E as (Hn & row & Ea & Ep & _ & Et & _ & Hs'). cbn.
  eapply catalogue_ok_connection; [exact Hs|exact Hs'|by rewrite Ea|by rewrite Ea, Ep|by rewrite Et|].
  intros mid um Hum Hc. destruct (co_model s Hs mid um Hum) as (cn & Hcn & _). rewrite Hc in Hcn. congruence.
Qed.

Lemma UpdateConnection_ok e actorID id revision input s : catalogue_ok s -> catalogue_ok (UpdateConnection host e actorID id revision input s).2.
Proof.
  intros Hs. unfold UpdateConnection. destruct (requireManager s actorID ≫= _) as [i|] eqn:Hi; [|done].
  apply result_bind_Ok in Hi as (role & _ & Hv). apply validateConnection_Ok in Hv as (Ha & Hp & Ht & _). unfold commit.
  destruct (update_connection_tx e actorID id revision i s) as [[u s']|] eqn:E; [|done].
  apply update_connection_tx_Ok in E as (Hsup & row & row' & Hrow & _ & Ea & Ep & _ & Et & _ & _ & Hs'). cbn.
  eapply catalogue_ok_connection; [exact Hs|exact Hs'|by rewrite Ea|by rewrite Ea, Ep|by rewrite Et|].
  rewrite Ep. by apply models_supported.
Qed.

(** Calls that leave a connection's kind alone. *)
Lemma same_kind_ok s s' id row row' :
  catalogue_ok s -> t_connections s !! id = Some row -> cn_Adapter row' = cn_Adapter row -> cn_Preset row' = cn_Preset row ->
  cn_TimeoutMS row' = cn_TimeoutMS row ->
  catalogue_tables s' = (<[id := row']> (t_connections s), t_upstream_models s, t_public_models s, t_targets s) -> catalogue_ok s'.
Proof.
  intros Hs Hrow Ea Ep Et Hs'. destruct (co_connection s Hs id row Hrow) as (Ha & Hp & Ht).
  eapply catalogue_ok_connection; [exact Hs|exact Hs'|by rewrite Ea|by rewrite Ea, Ep|by rewrite Et|].
  intros mid um Hum <-. destruct (co_model s Hs mid um Hum) as (cn & Hcn & _ & Hsup). rewrite Ep. congruence.
Qed.

Lemma PutCredential_ok e actorID id secret ref s : catalogue_ok s -> catalogue_ok (PutCredential host e actorID id secret ref s).2.
Proof.
  intros Hs. unfold PutCredential. destruct (requireManager s actorID ≫= _) as [c|] eqn:Hi; [|done].
  apply result_bind_Ok in Hi as (role & _ & Hi). apply result_bind_Ok in Hi as (co & Hget & _). unfold getConnection in Hget.
  destruct (t_connections s !! id) as [row|] eqn:Hrow; [|done]. unfold commit.
  destruct (put_credential_tx e actorID id c s) as [[u s']|] eqn:E; [|done].
  apply put_credential_tx_Ok in E as [_ Hs']. by eapply same_kind_ok, Hs'.
Qed.

Lemma script_ok e actorID action id revision scripts s : catalogue_ok s -> catalogue_ok (commit (script_tx e actorID action id revision scripts) s).2.
Proof.
  intros Hs. unfold commit. destruct (script_tx e actorID action id revision scripts s) as [[u s']|] eqn:E; [|done].
  apply script_tx_Ok in E as (row & Hrow & _ & Hs'). by eapply same_kind_ok, Hs'.
Qed.

Lemma CreateUpstreamModel_ok e actorID connectionID upstreamID caps s :
  catalogue_ok s -> catalogue_ok (CreateUpstreamModel e actorID connectionID upstreamID caps s).2.
Proof.
  intros Hs. unfold CreateUpstreamModel. cbv zeta. destruct (requireManager s actorID ≫= _) as [c|] eqn:Hi; [|done].
  apply result_bind_Ok in Hi as (role & _ & Hi). apply result_bind_Ok in Hi as (co & Hget & Hi).
  apply result_bind_Ok in Hi as (? & Hv%ensure_Ok & Hsup%ensure_Ok). unfold getConnection in Hget.
  destruct (t_connections s !! connectionID) as [row|] eqn:Hrow; [|done]. injection Hget as <-. cbn in Hsup. unfold commit.
  destruct (create_upstream_model_tx _ _ _ _ _ s) as [[u s']|] eqn:E; [|done].
  apply create_upstream_model_tx_Ok in E as (id & Hn & Hs'). destruct Hs as [H1 H2 H3 H4 H5].
  unfold catalogue_tables in Hs'. injection Hs' as Hc Hm Hp Ht. cbn. constructor; rewrite ?Hc, ?Hm, ?Hp, ?Ht; try done.
  - intros mid um Hum. destruct (decide (mid = id)) as [->|]; [|rewrite lookup_insert_ne in Hum by done; by eapply H2].
    rewrite lookup_insert_eq in Hum. injection Hum as <-. cbn. exists row. split_and!; [done| |done].
    rewrite negb_true_iff, !orb_false_iff, negb_false_iff in Hv. by destruct Hv as [_ ?].
  - intros pid pm Hpm. rewrite (targets_of_tables _ _ _ Ht). by apply H3.
  - intros pid mid tg Htg. destruct (H4 pid mid tg Htg) as (Hp' & Hw & pm & um & Hpm & Hum & Hsub). split_and!; [lia..|].
    exists pm, um. split_and!; [done| |done]. rewrite lookup_insert_ne; [done|congruence].
Qed.

Lemma max_targets_fixed caps : max_targets caps "fixed" = Some 1.
Proof. unfold max_targets. by destruct (contains caps "embeddings"). Qed.

Lemma CreatePublicModel_ok e actorID id label description targetID caps s :
  catalogue_ok s -> catalogue_ok (CreatePublicModel e actorID id label description targetID caps s).2.
Proof.
  intros Hs. unfold CreatePublicModel. cbv zeta. destruct (requireManager s actorID ≫= _) as [um|] eqn:Hi; [|done].
  apply result_bind_Ok in Hi as (role & _ & Hi). apply result_bind_Ok in Hi as (? & Hv%ensure_Ok & Hi).
  apply result_bind_Ok in Hi as (um' & Hum & Hi). apply result_bind_Ok in Hi as (? & Hsub%ensure_Ok & [= ->]).
  destruct (t_upstream_models s !! targetID) as [um''|] eqn:Hrow; [|done]. destruct (um_Active um''); [|done]. injection Hum as ->.
  unfold commit. destruct (create_public_model_tx _ _ _ _ _ _ _ _ s) as [[u s']|] eqn:E; [|done].
  apply create_public_model_tx_Ok in E as (Hn & Hs'). set (pid := TrimSpace id) in *. set (caps' := normalizeCapabilities caps) in *.
  destruct Hs as [H1 H2 H3 H4 H5]. unfold catalogue_tables in Hs'. injection Hs' as Hc Hm Hp Ht.
  assert (forall mid tg, t_targets s !! (pid, mid) = Some tg -> False) as Hnone.
  { intros mid tg Htg. destruct (H4 _ _ _ Htg) as (_ & _ & pm & um0 & Hpm & _). congruence. }
  rewrite negb_true_iff, !orb_false_iff, !negb_false_iff in Hv. destruct Hv as [[[[[Hid _] _] _] _] Hcaps].
  cbn. constructor; rewrite ?Hc, ?Hm, ?Hp, ?Ht; try done.
  - intros pid' pm. rewrite lookup_insert. case_decide as Epid; [intros [= <-]; subst pid'|intros Hpm].
    + cbn. split_and!; [done..| |].
      * exists targetID, (mkTargetRow 1 1 true (now e 0)). by rewrite lookup_insert_eq.
      * exists 1. split; [apply max_targets_fixed|].
        rewrite (targets_of_perm s' pid (now e 0) [mkRouteTargetInput targetID 1 1 true]); [done|apply NoDup_singleton|].
        intros [p m] r. rewrite Ht, lookup_insert. setoid_rewrite list_elem_of_singleton. cbn.
        case_decide; naive_solver.
    + destruct (H3 pid' pm Hpm) as (Hv1 & Hv2 & (mid & tg & Htg & Hen) & most & Hmax & Hlen). split_and!; [done..| |].
      * exists mid, tg. by rewrite lookup_insert_ne by congruence.
      * exists most. split; [done|]. rewrite (targets_of_other s s'); [done|]. intros m. by rewrite Ht, lookup_insert_ne by congruence.
  - intros p m tg. rewrite !lookup_insert. case_decide as E; [simplify_eq; intros [= <-]|intros Htg].
    + rewrite decide_True by done. cbn. split_and!; [lia..|]. by eexists _, um.
    + destruct (H4 p m tg Htg) as (Hp' & Hw & pm & um0 & Hpm & Hum & Hsub'). rewrite decide_False by congruence. eauto 10.
  - intros p m1 m2 t1 t2. rewrite !lookup_insert. repeat case_decide; simplify_eq; [done|by intros _ ?%Hnone|by intros ?%Hnone|apply H5].
Qed.

(** [ConfigureRoute] changes nothing, or replaces the route. *)
Definition route_replaced e publicID revision strategy freeOnly sorted (s s' : db) : Prop :=
  exists pm um, t_public_models s !! publicID = Some pm /\ pm_Revision pm = revision /\
    t_upstream_models s !! primary_of sorted = Some um /\
    t_connections s' = t_connections s /\ t_upstream_models s' = t_upstream_models s /\
    t_public_models s' = <[publicID := with_route strategy freeOnly (primary_of sorted) (um_Connection um) (now e 0) pm]> (t_public_models s) /\
    forall k r, t_targets s' !! k = Some r <->
      (k.1 <> publicID /\ t_targets s !! k = Some r) \/ exists t, t ∈ sorted /\ k = (publicID, ri_UpstreamModelID t) /\ r = row_of (now e 0) t.

Lemma ConfigureRoute_cases e actorID publicID revision strategy freeOnly ts s out s' :
  ConfigureRoute e actorID publicID revision strategy freeOnly ts s = (out, s') ->
  (s' = s /\ exists err, out = Err err) \/
  (check_route s actorID publicID revision strategy freeOnly (map default_weight ts) = Ok tt /\ out = ResolvePublicModel publicID s' /\
   route_replaced e publicID revision strategy freeOnly (SliceStable input_less (map default_weight ts)) s s').
Proof.
  unfold ConfigureRoute. cbv zeta. destruct (check_route _ _ _ _ _ _ _) as [[]|] eqn:Hc; [|intros [= <- <-]; left; eauto]. unfold commit.
  destruct (configure_route_tx _ _ _ _ _ _ _ s) as [[u s1]|] eqn:E; [|intros [= <- <-]; left; eauto].
  apply configure_route_tx_Ok in E. intros [= <- <-]. by right.
Qed.

(** The configured targets, sorted by their distinct priorities. *)
Lemma configured_targets ts :
  valid_targets [] [] ts = true ->
  let sorted := SliceStable input_less ts in
  NoDup (map ri_UpstreamModelID sorted) /\ NoDup (map ri_Priority sorted) /\ StronglySorted (in_order input_less) sorted /\
  Forall (fun t => 1 <= ri_Priority t <= 1000 /\ 1 <= ri_Weight t <= 10000) sorted /\ length sorted = length ts.
Proof.
  intros (HF & HnM & HnP & _)%valid_targets_spec sorted. unfold sorted. split_and!.
  - by rewrite (fmap_Permutation ri_UpstreamModelID _ _ (SliceStable_perm input_less ts)).
  - by rewrite (fmap_Permutation ri_Priority _ _ (SliceStable_perm input_less ts)).
  - apply SliceStable_sorted; unfold input_less; intros; lia.
  - by rewrite SliceStable_perm.
  - by rewrite SliceStable_perm.
Qed.

Lemma NoDup_map_inj {A B} (f : A -> B) (l : list A) x y : NoDup (map f l) -> x ∈ l -> y ∈ l -> f x = f y -> x = y.
Proof.
  intros Hn [i Hi]%list_elem_of_lookup [j Hj]%list_elem_of_lookup Ef.
  assert (i = j) as ->; [|congruence]. apply (NoDup_lookup (map f l) i j (f x)); [done|..].
  - change (map f l) with (f <$> l). by rewrite list_lookup_fmap, Hi.
  - change (map f l) with (f <$> l). rewrite list_lookup_fmap, Hj. by rewrite Ef.
Qed.

(** The rows of the configured model are the configured targets. *)
Lemma replaced_targets e publicID revision strategy freeOnly ts s s' :
  valid_targets [] [] ts = true -> route_replaced e publicID revision strategy freeOnly (SliceStable input_less ts) s s' ->
  targets_of s' publicID ≡ₚ map (fun t => ((publicID, ri_UpstreamModelID t), row_of (now e 0) t)) (SliceStable input_less ts).
Proof.
  intros (HnM & _)%configured_targets (pm & um & _ & _ & _ & _ & _ & _ & Ht). apply targets_of_perm; [done|].
  intros k r. rewrite Ht. naive_solver.
Qed.

Lemma ConfigureRoute_ok e actorID publicID revision strategy freeOnly ts s :
  catalogue_ok s -> catalogue_ok (ConfigureRoute e actorID publicID revision strategy freeOnly ts s).2.
Proof.
  intros Hs. destruct (ConfigureRoute e actorID publicID revision strategy freeOnly ts s) as [out s'] eqn:E; cbn.
  apply ConfigureRoute_cases in E as [[-> _]|(Hcheck & _ & Hrep)]; [done|].
  apply check_route_Ok in Hcheck as (role & pm' & most & _ & Hne & Hval & Hen & Hpm' & _ & Hmax & Hlen & Hsub).
  pose proof (replaced_targets _ _ _ _ _ _ _ _ Hval Hrep) as Hperm. pose proof (configured_targets _ Hval) as (HnM & HnP & _ & HF & HL).
  set (sorted := SliceStable input_less (map default_weight ts)) in *. destruct Hrep as (pm & um & Hpm & _ & Hum & Hc & Hm & Hp & Ht).
  rewrite Hpm in Hpm'. injection Hpm' as <-. rewrite Forall_forall in HF, Hsub.
  assert (forall t, t ∈ sorted -> t ∈ map default_weight ts) as Hin by (intros t; unfold sorted; by rewrite SliceStable_perm).
  destruct Hs as [H1 H2 H3 H4 H5]. constructor; rewrite ?Hc, ?Hm, ?Hp; try done.
  - intros pid pm0. rewrite lookup_insert. case_decide as Epid; [intros [= <-]; subst pid|intros Hpm0].
    + destruct (H3 publicID pm Hpm) as (Hv1 & Hv2 & _). cbn. split_and!; [done..| |].
      * destruct (List.filter ri_Enabled (map default_weight ts)) as [|t l] eqn:El; [done|].
        assert (In t (List.filter ri_Enabled (map default_weight ts))) as [Hti Hte]%filter_In by (rewrite El; by left).
        exists (ri_UpstreamModelID t), (row_of (now e 0) t). split; [|done]. apply Ht. right. exists t. split; [|done].
        unfold sorted. by rewrite SliceStable_perm, list_elem_of_In.
      * exists most. split; [done|]. rewrite Hperm, length_map, HL. done.
    + destruct (H3 pid pm0 Hpm0) as (Hv1 & Hv2 & (mid & tg & Htg & Hte) & most' & Hmax' & Hlen'). split_and!; [done..| |].
      * exists mid, tg. split; [|done]. apply Ht. left. by split.
      * exists most'. split; [done|]. rewrite (targets_of_other s s'); [done|]. intros m. apply option_eq. intros r. rewrite Ht. naive_solver.
  - intros pid mid tg [[Hpid Htg]|(t & Hti & [= -> ->] & ->)]%Ht.
    + destruct (H4 pid mid tg Htg) as (Hr & Hw & pm0 & um0 & ? & ? & ?). split_and!; [lia..|]. exists pm0, um0.
      by rewrite lookup_insert_ne by (cbn in Hpid; congruence).
    + cbn. destruct (HF t Hti) as [Hr Hw]. split_and!; [lia..|]. destruct (Hsub t (Hin t Hti)) as (um0 & Hum0 & _ & Hsub0).
      eexists _, um0. rewrite lookup_insert_eq. split_and!; [done..|]. done.
  - intros pid m1 m2 t1 t2 Ht1%Ht Ht2%Ht Eq. cbn in *.
    destruct Ht1 as [[Hx Ht1]|(x1 & Hx1 & [= -> ->] & ->)], Ht2 as [[Hy Ht2]|(x2 & Hx2 & Ek & ->)]; try congruence; [by eapply H5|].
    injection Ek as ->. f_equal. by eapply (NoDup_map_inj ri_Priority sorted).
Qed.

(** * Histories of the provider service *)

Inductive call :=
| CallCreateConnection (actorID : string) (input : ConnectionInput)
| CallUpdateConnection (actorID id : string) (revision : Z) (input : ConnectionInput)
| CallPutCredential (actorID id secret externalRef : string)
| CallPutAdapterScript (actorID id : string) (revision : Z) (request response : string)
| CallDeleteAdapterScript (actorID id : string) (revision : Z)
| CallCreateUpstreamModel (actorID connectionID upstreamID : string) (capabilities : list string)
| CallCreatePublicModel (actorID id label description targetModelID : string) (capabilities : list string)
| CallConfigureRoute (actorID publicID : string) (revision : Z) (strategy : string) (freeOnly : bool) (targets : list RouteTargetInput).

Definition serve (e : env) (c : call) (s : db) : db :=
  match c with
  | CallCreateConnection a i => (CreateConnection host e a i s).2
  | CallUpdateConnection a id r i => (UpdateConnection host e a id r i s).2
  | CallPutCredential a id secret ref => (PutCredential host e a id secret ref s).2
  | CallPutAdapterScript a id r x y => (PutAdapterScript host e a id r x y s).2
  | CallDeleteAdapterScript a id r => (DeleteAdapterScript e a id r s).2
  | CallCreateUpstreamModel a c u caps => (CreateUpstreamModel e a c u caps s).2
  | CallCreatePublicModel a id l d m caps => (CreatePublicModel e a id l d m caps s).2
  | CallConfigureRoute a id r st f ts => (ConfigureRoute e a id r st f ts s).2
  end.

(** The calls served so far, newest first, each with the database it found;
    in between, other services may change other tables. *)
Inductive history : list (db * env * call) -> db -> Prop :=
| history_start s : catalogue_tables s = (∅, ∅, ∅, ∅) -> history [] s
| history_call h s e c : history h s -> history ((s, e, c) :: h) (serve e c s)
| history_other h s s' : history h s -> catalogue_tables s' = catalogue_tables s -> history h s'.

Lemma serve_ok e c s : catalogue_ok s -> catalogue_ok (serve e c s).
Proof.
  intros Hs. destruct c; cbn [serve].
  - by apply CreateConnection_ok.
  - by apply UpdateConnection_ok.
  - by apply PutCredential_ok.
  - unfold PutAdapterScript. destruct (requireManager s actorID ≫= _) as [[? ?]|]; [by apply script_ok|done].
  - unfold DeleteAdapterScript. destruct (requireManager s actorID); [by apply script_ok|done].
  - by apply CreateUpstreamModel_ok.
  - by apply CreatePublicModel_ok.
  - by apply ConfigureRoute_ok.
Qed.

(** C34: Whatever the provider service is asked, its tables stay consistent:
    connections of a supported adapter and preset, models within their
    connection's preset, routes whose targets have every capability of their
    public model, priorities and weights in bounds and priorities distinct,
    and every public model with an enabled target under a strategy that
    allows its targets. *)
Theorem catalogue_stays_consistent (h : list (db * env * call)) (s : db) : history h s -> catalogue_ok s.
Proof.
  induction 1 as [s Hs|h s e c _ IH|h s s' _ IH Hs].
  - unfold catalogue_tables in Hs. injection Hs as Hc Hm Hp Ht. constructor; rewrite ?Hc, ?Hm, ?Hp, ?Ht; by intros * ?%lookup_empty_Some.
  - by apply serve_ok.
  - by eapply catalogue_ok_tables.
Qed.

(** ** Credentials *)

Definition endpoint (cn : ConnectionRow) : string * string * string := (cn_Adapter cn, cn_BaseURL cn, cn_Preset cn).

(** The credential of [cn] was put into a connection with the same endpoint. *)
Definition entered_by (h : list (db * env * call)) (id : string) (cn : ConnectionRow) : Prop :=
  exists s0 e0 actorID secret externalRef cn0 role,
    (s0, e0, CallPutCredential actorID id secret externalRef) ∈ h /\
    t_connections s0 !! id = Some cn0 /\ endpoint cn0 = endpoint cn /\
    checked_credential host e0 id secret externalRef = Ok (cn_Credential cn) /\
    requireManager s0 actorID = Ok role /\ (externalRef <> ""%string -> role = Owner).

Definition same_secret (s : db) (id : string) (cn' : ConnectionRow) : Prop :=
  exists cn, t_connections s !! id = Some cn /\ cn_Credential cn = cn_Credential cn' /\ endpoint cn = endpoint cn'.

Lemma PutCredential_entered e actorID id secret ref s id' cn' :
  t_connections (PutCredential host e actorID id secret ref s).2 !! id' = Some cn' ->
  same_secret s id' cn' \/ (id' = id /\ exists cn0 role, t_connections s !! id = Some cn0 /\ endpoint cn0 = endpoint cn' /\
    checked_credential host e id secret ref = Ok (cn_Credential cn') /\ requireManager s actorID = Ok role /\ (ref <> ""%string -> role = Owner)).
Proof.
  unfold PutCredential. destruct (requireManager s actorID ≫= _) as [c|] eqn:Hi; [|left; by exists cn'].
  apply result_bind_Ok in Hi as (role & Hrole & Hi). apply result_bind_Ok in Hi as (co & Hget & Hcheck). unfold getConnection in Hget.
  destruct (t_connections s !! id) as [row|] eqn:Hrow; [|done]. unfold commit.
  destruct (put_credential_tx e actorID id c s) as [[u s']|] eqn:E; [|left; by exists cn'].
  apply put_credential_tx_Ok in E as [(role' & Hrole' & Howner) Hs']. specialize (Hs' row Hrow). rewrite Hrole in Hrole'. injection Hrole' as <-.
  apply (f_equal (fun x => x.1.1.1)) in Hs'. cbn in Hs' |- *. rewrite Hs', lookup_insert. case_decide as Eid; intros H.
  - right. injection H as <-. subst id'. split; [done|]. exists row, role. split_and!; try done.
    intros Href. apply Howner. unfold checked_credential in Hcheck.
    apply result_bind_Ok in Hcheck as (? & Hx%ensure_Ok & Hcheck). apply result_bind_Ok in Hcheck as (? & _ & Hcheck).
    apply result_bind_Ok in Hcheck as (? & _ & [= <-]). apply String.eqb_neq in Href. rewrite Href in Hx. destruct (secret =s ""); [eauto|done].
  - left. by exists cn'.
Qed.

Lemma script_secret e actorID action id revision scripts s id' cn' :
  t_connections (commit (script_tx e actorID action id revision scripts) s).2 !! id' = Some cn' -> same_secret s id' cn'.
Proof.
  unfold commit. destruct (script_tx _ _ _ _ _ _ s) as [[u s']|] eqn:E; [|intros; by exists cn'].
  apply script_tx_Ok in E as (row & Hrow & _ & Hs'). apply (f_equal (fun x => x.1.1.1)) in Hs'. cbn in Hs' |- *.
  rewrite Hs', lookup_insert. case_decide as Eid; [intros [= <-]; subst id'; by exists row|intros; by exists cn'].
Qed.

Lemma CreateConnection_secret e actorID input s id' cn' :
  t_connections (CreateConnection host e actorID input s).2 !! id' = Some cn' -> cn_Credential cn' = NoCredential \/ same_secret s id' cn'.
Proof.
  unfold CreateConnection. destruct (requireManager s actorID ≫= _) as [i|]; [|right; by exists cn']. unfold commit.
  destruct (create_connection_tx e actorID i s) as [[id s']|] eqn:E; [|right; by exists cn'].
  apply create_connection_tx_Ok in E as (_ & row & _ & _ & _ & _ & Hnone & Hs'). apply (f_equal (fun x => x.1.1.1)) in Hs'. cbn in Hs' |- *.
  rewrite Hs', lookup_insert. case_decide; [intros [= <-]; by left|right; by exists cn'].
Qed.

Lemma UpdateConnection_secret e actorID id revision input s id' cn' :
  t_connections (UpdateConnection host e actorID id revision input s).2 !! id' = Some cn' -> cn_Credential cn' = NoCredential \/ same_secret s id' cn'.
Proof.
  unfold UpdateConnection. destruct (requireManager s actorID ≫= _) as [i|]; [|right; by exists cn']. unfold commit.
  destruct (update_connection_tx e actorID id revision i s) as [[u s']|] eqn:E; [|right; by exists cn'].
  apply update_connection_tx_Ok in E as (_ & row & row' & Hrow & _ & Ea & Ep & Eb & _ & _ & Hcred & Hs').
  apply (f_equal (fun x => x.1.1.1)) in Hs'. cbn in Hs' |- *. rewrite Hs', lookup_insert. case_decide as Eid; [intros [= <-]; subst id'|right; by exists cn'].
  rewrite Hcred. destruct (endpoint_differs i row) eqn:Hd; [by left|]. right. exists row. split; [done|]. split; [by rewrite Hcred|].
  unfold endpoint_differs in Hd. rewrite !orb_false_iff, !negb_false_iff, !String.eqb_eq in Hd. destruct Hd as [[? ?] ?]. unfold endpoint. congruence.
Qed.

Lemma serve_other_secret e c s id cn' :
  t_connections (serve e c s) !! id = Some cn' ->
  cn_Credential cn' = NoCredential \/ same_secret s id cn' \/ (exists a secret ref, c = CallPutCredential a id secret ref).
Proof.
  assert (forall s', t_connections s' = t_connections s -> t_connections s' !! id = Some cn' -> same_secret s id cn') as Hsame.
  { intros s' -> H. by exists cn'. }
  destruct c; cbn [serve]; intros H.
  - apply CreateConnection_secret in H. naive_solver.
  - apply UpdateConnection_secret in H. naive_solver.
  - apply PutCredential_entered in H as [?|(-> & _)]; [auto|]. right. right. by eexists _, _, _.
  - right; left. unfold PutAdapterScript in H. destruct (requireManager s actorID ≫= _) as [[? ?]|]; [by eapply script_secret|by eapply Hsame].
  - right; left. unfold DeleteAdapterScript in H. destruct (requireManager s actorID); [by eapply script_secret|by eapply Hsame].
  - right; left. eapply Hsame; [|exact H]. unfold CreateUpstreamModel. cbv zeta. destruct (_ ≫= _); [|done]. unfold commit.
    destruct (create_upstream_model_tx _ _ _ _ _ s) as [[? ?]|] eqn:E; [|done].
    apply create_upstream_model_tx_Ok in E as (? & _ & Hs'). by apply (f_equal (fun x => x.1.1.1)) in Hs'.
  - right; left. eapply Hsame; [|exact H]. unfold CreatePublicModel. cbv zeta. destruct (_ ≫= _); [|done]. unfold commit.
    destruct (create_public_model_tx _ _ _ _ _ _ _ _ s) as [[? ?]|] eqn:E; [|done].
    apply create_public_model_tx_Ok in E as (_ & Hs'). by apply (f_equal (fun x => x.1.1.1)) in Hs'.
  - right; left. eapply Hsame; [|exact H]. destruct (ConfigureRoute _ _ _ _ _ _ _ s) as [out s'] eqn:E. cbn.
    by apply ConfigureRoute_cases in E as [[-> _]|(_ & _ & (? & ? & _ & _ & _ & -> & _))].
Qed.

Lemma entered_by_mono h x id cn cn' : endpoint cn = endpoint cn' -> cn_Credential cn = cn_Credential cn' -> entered_by h id cn -> entered_by (x :: h) id cn'.
Proof.
  intros E1 E2 (s0 & e0 & a & secret & ref & cn0 & role & Hin & Hcn0 & Hep & Hc & Hr & Ho).
  exists s0, e0, a, secret, ref, cn0, role. split_and!; try done; [by right|by rewrite Hep|by rewrite Hc, E2].
Qed.

(** Every stored credential was entered for the endpoint it now belongs to. *)
Lemma credentials_entered h s :
  history h s -> forall id cn, t_connections s !! id = Some cn -> cn_Credential cn <> NoCredential -> entered_by h id cn.
Proof.
  induction 1 as [s Hs|h s e c _ IH|h s s' _ IH Hs]; intros id cn Hcn Hne.
  - unfold catalogue_tables in Hs. injection Hs as Hc _ _ _. rewrite Hc in Hcn. by apply lookup_empty_Some in Hcn.
  - assert (same_secret s id cn -> entered_by ((s, e, c) :: h) id cn) as Hold.
    { intros (cn0 & Hcn0 & Ecr & Eep). eapply entered_by_mono; [exact Eep|exact Ecr|]. apply IH; [done|by rewrite Ecr]. }
    pose proof Hcn as [?|[?|(a & secret & ref & ->)]]%serve_other_secret; [done|auto|].
    cbn in Hcn. apply PutCredential_entered in Hcn as [?|(_ & cn0 & role & ? & ? & ? & ? & ?)]; [auto|].
    exists s, e, a, secret, ref, cn0, role. split_and!; try done. by left.
  - unfold catalogue_tables in Hs. injection Hs as Hc _ _ _. rewrite Hc in Hcn. by apply IH.
Qed.

(** C25: A credential only reaches the endpoint it was entered for: the secret
    a route plan sends with a target comes from a credential somebody put into
    that connection while it had the very base URL the plan sends it to (and
    the same adapter and preset), however the connection was edited since;
    references to the host's environment or files were put by an owner. *)
Theorem credential_reaches_only_its_endpoint (h : list (db * env * call)) (s : db) (e : env) (publicID : string) (o : RouteOptions)
    (plan : RoutePlan) (r : RouteTarget) :
  history h s -> Route host e publicID o s = (plan, None) -> r ∈ rp_Targets plan -> tt_Credential (rt_Target r) <> ""%string ->
  exists cn, cn_BaseURL cn = tt_BaseURL (rt_Target r) /\
    secret_of host (tt_ConnectionID (rt_Target r)) (cn_Credential cn) = Some (tt_Credential (rt_Target r), tt_Bearer (rt_Target r)) /\
    entered_by h (tt_ConnectionID (rt_Target r)) cn.
Proof.
  intros Hh (pm & vs & now_ & reason & Hpm & Ha & -> & Hvs & Ho & _)%Route_Ok Hr Hne.
  eapply orderRoute_elem in Hr; [|exact Ho]. apply list_elem_of_omap in Hr as (v & Hv & E). destruct v as [r'|]; simplify_eq/=.
  apply assess_all_spec in Hvs as [_ HF]; [|done..].
  apply list_elem_of_lookup in Hv as [i Hi]. destruct (Forall2_lookup_r _ _ _ _ _ HF Hi) as (c & _ & Hoff & _).
  destruct (of_secret _ _ _ _ _ _ _ Hoff) as (cn & Hcn & Hurl & [Hs|[_ ?]]); [|done].
  exists cn. split_and!; [done..|]. eapply credentials_entered; [done..|]. intros Hno. by rewrite Hno in Hs.
Qed.
End Invariant.

(** * Configuring a route *)

Lemma configured_order at_ publicID sorted :
  StronglySorted (in_order input_less) sorted -> NoDup (map ri_Priority sorted) ->
  forall l, l ≡ₚ map (fun t => ((publicID, ri_UpstreamModelID t), row_of at_ t)) sorted ->
  SliceStable row_less l = map (fun t => ((publicID, ri_UpstreamModelID t), row_of at_ t)) sorted.
Proof.
  intros Hs Hn l Hl. apply SliceStable_unique; [unfold row_less; intros; lia|unfold row_less; intros; lia|done| |].
  - clear Hl Hn. induction Hs as [|t ts Hs IH Ht]; cbn; [constructor|]. constructor; [done|]. by apply Forall_map.
  - intros x y (t1 & -> & H1)%list_elem_of_fmap (t2 & -> & H2)%list_elem_of_fmap. unfold row_less. cbn. intros.
    assert (t1 = t2) as ->; [|done]. eapply (NoDup_map_inj ri_Priority); [done..|]. lia.
Qed.

(** Configuring a route replaces it whole and at once: afterwards the
    model's targets are the given ones (a zero weight read as one) in priority
    order, its strategy is the given one and its revision one higher, the
    routes of other models and all connections are untouched, and no target
    that was routed before is current any more. *)
Theorem ConfigureRoute_takes_effect (e : env) (actorID publicID strategy : string) (revision : Z) (freeOnly : bool)
    (ts : list RouteTargetInput) (s s' : db) (pm : PublicModelRow) :
  ConfigureRoute e actorID publicID revision strategy freeOnly ts s = (Ok (publicID, pm), s') ->
  route_targets s' publicID = SliceStable input_less (map default_weight ts) /\
  pm_Strategy pm = strategy /\ pm_FreeOnly pm = freeOnly /\ pm_Revision pm = revision + 1 /\ t_public_models s' !! publicID = Some pm /\
  (forall other, other <> publicID ->
     t_public_models s' !! other = t_public_models s !! other /\ route_targets s' other = route_targets s other) /\
  t_connections s' = t_connections s /\
  (forall t, tt_ID t = publicID -> TargetIsCurrent s t = true -> TargetIsCurrent s' t = false).
Proof.
  intros [[_ [err ?]]|(Hcheck & Hout & Hrep)]%ConfigureRoute_cases; [done|].
  apply check_route_Ok in Hcheck as (role & pm' & most & _ & _ & Hval & _ & _ & _ & _ & _ & _).
  pose proof (replaced_targets _ _ _ _ _ _ _ _ Hval Hrep) as Hperm. pose proof (configured_targets _ Hval) as (_ & HnP & Hsorted & _ & _).
  set (sorted := SliceStable input_less (map default_weight ts)) in *. destruct Hrep as (pm0 & um & Hpm0 & Hrev & Hum & Hc & Hm & Hp & Ht).
  assert (t_public_models s' !! publicID = Some pm) as Hpm.
  { unfold ResolvePublicModel in Hout. rewrite Hp, lookup_insert_eq in Hout |- *. destruct (_ && _) in Hout; [|done]. by injection Hout as <-. }
  pose proof Hpm as Epm. rewrite Hp, lookup_insert_eq in Epm. injection Epm as <-. cbn. split_and!; try done; try lia.
  - unfold route_targets. rewrite (configured_order _ _ _ Hsorted HnP _ Hperm), map_map.
    rewrite (map_ext _ id), map_id; [done|]. intros t. by destruct t.
  - intros other Hne. rewrite Hp, lookup_insert_ne by done. split; [done|]. unfold route_targets.
    rewrite (targets_of_other s s'); [done|]. intros m. apply option_eq. intros r. rewrite Ht. naive_solver.
  - intros t Eid. unfold TargetIsCurrent. rewrite Eid, Hpm0, Hpm.
    destruct (t_targets s !! _); [|done]. destruct (t_upstream_models s !! tt_ModelID t) as [um0|] eqn:Eu; [|done].
    destruct (t_connections s !! um_Connection um0) as [cn|] eqn:Ec; [|done]. rewrite !andb_true_iff. intros H. destruct H as [[[[[[[_ Hr] _] _] _] _] _] _].
    destruct (t_targets s' !! _); [|done]. rewrite Hm, Eu, Hc, Ec. cbn.
    assert (pm_Revision pm0 + 1 =? tt_Revision t = false) as -> by lia. by rewrite andb_false_r.
Qed.

(** * Public ids as grants *)

Lemma id_letter_plain c : id_letter c || id_mark c = true -> PathMatch.plain_byte c = true.
Proof.
  destruct c as [[] [] [] [] [] [] [] []]; vm_compute; done.
Qed.

(** A public model's id, granted as a pattern, grants that model and no
    other: a valid id contains none of the characters patterns give a
    meaning to. *)
Theorem granted_id_matches_itself (id model : string) : validPublicID id = true -> matches id model = (model =s id).
Proof.
  unfold validPublicID. rewrite !andb_true_iff. intros [_ H]. apply Match_plain. destruct id as [|c rest]; [done|].
  apply andb_true_iff in H as [Hc Hr]. unfold plain. cbn. rewrite id_letter_plain by (by rewrite Hc). cbn.
  induction rest as [|d rest IH]; [done|]. cbn in Hr |- *. apply andb_true_iff in Hr as [Hd Hr]. by rewrite id_letter_plain, IH.
Qed.
