(* ===== verification/Scenario.v ===== *)
(** A gateway at work: an owner and a member with a key, a price, three
    policies, one request admitted, streamed, settled and adjusted, and the
    properties of the other files applied along the way. *)
From stdpp Require Import pretty.
From S2P Require Import Prelude GoStd Money Calendar Counters Policy Json Store Pricing PolicyService PathMatch Grants Admission Settlement Reservations Lifecycle Booking Charges Reprice Operations Reachable Replays Keys Users Credentials Sessions Identity.

(** * The environment *)

(** A stand-in for SHA-256, long enough for a selector, and for the parts of
    the Go library the services are parametric in. *)
Definition digest (s : string) : string := s +:+ "#sha256".
Definition lower (s : string) : string := fold_case s.
Definition address (s : string) : option string := if has_byte "@"%char s then Some s else None.

(** 1 January 2026, one minute past midnight UTC. *)
Definition instant : Z := 1767225660000.
Definition at_call (name : string) : env := mkEnv "epoch_1" (fun _ => instant) (fun n => name +:+ "_" +:+ pretty n).

Definition boss : User := mkUser "usr_1" "owner@example.com" "Owner" Owner UActive.
Definition empty_db : db := mkDb ∅ ∅ ∅ None ∅ ∅ ∅ ∅ ∅ ∅ ∅ ∅ [] ∅ ∅ ∅ ∅ ∅ ∅ ∅ ∅ ∅ ∅ ∅ [] ∅.

Definition member_grants : Grants := mkGrants false ["chat:generate"] ["gpt-*"] ["con_1"].
Definition people : db :=
  set_users {[ "usr_1" := mkUserRow "owner@example.com" "Owner" "!" Owner UActive 0 0 1 1 (mkGrants true [] [] []);
               "usr_2" := mkUserRow "member@example.com" "Member" "!" Member UActive 0 0 1 1 member_grants ]}%string empty_db.

(** * The calls *)

Definition key_input : Input := mkInput " laptop " ["chat:generate"; "chat:generate"]%string ["gpt-4*"]%string ["con_1"]%string "" "".
Definition created := Create digest sample_times (at_call "key") (instant * 1000000) "usr_2" key_input people.
Definition with_key : db := snd created.
Definition member_token : string := match fst created with Ok (_, tok) => tok | Err _ => "" end.

Definition token_policy : PolicyInput := mkPolicyInput "instance" "" "tokens" "quota" "day" 0 1000 "" 0 0 None.
Definition spend_policy : PolicyInput := mkPolicyInput "user" "usr_2" "spend" "quota" "month" 0 0 "0.01" 0 0 None.
Definition request_policy : PolicyInput := mkPolicyInput "key" "key_key_0" "requests" "fixed_window" "" 60 5 "" 0 0 None.
Definition lease_policy : PolicyInput := mkPolicyInput "connection" "con_1" "concurrency" "concurrency" "" 0 2 "" 0 0 None.
Definition price_input : PriceInput := mkPriceInput "con_1" "gpt-4o" "0.5" "1.5" (Some "0.1"%string) None "list" "2026-01-01T00:00:00Z" "" None None.

Definition catalogue_calls : list (env * operation) :=
  [(at_call "p1", OpCreatePolicy boss token_policy); (at_call "p2", OpCreatePolicy boss spend_policy);
   (at_call "p3", OpCreatePolicy boss request_policy); (at_call "p4", OpCreatePolicy boss lease_policy);
   (at_call "p5", OpCreatePrice boss price_input)].
Definition run (calls : list (env * operation)) (s : db) : db := fold_left (fun s c => perform sample_times c.1 c.2 s) calls s.
Definition configured : db := run catalogue_calls with_key.

Definition chat : AdmissionInput :=
  mkAdmissionInput "" "key_key_0" "con_1" "gpt-4o" "" "gpt-4o-2026" 1 1 "chat" "" "chat:generate" "openai" "" false 0 0 false
    "priority" "" "" 0 None false false false 512 0 true 120 80 true true true true.
Definition admitted : db := run [(at_call "a1", OpAdmit chat)] configured.
Definition attempt_id : string := "att_a1_1".

Definition chat_calls : list (env * operation) := [(at_call "a1", OpAdmit chat); (at_call "d1", OpMarkDispatching attempt_id); (at_call "t1", OpMarkStreaming attempt_id)].
Definition streaming : db := run chat_calls configured.

Definition outcome : SettlementInput :=
  mkSettlementInput "settle_1" "succeeded" "provider_reported" (Some 100) (Some 60) None (Some 40) None None None None 0 "" true (Some (instant + 5)).
Definition settle_call : env * operation := (at_call "s1", OpSettle attempt_id outcome).
Definition settled : db := run [settle_call] streaming.

Definition adjust_call : result string * db := AdjustCost (at_call "x1") boss attempt_id "0.000001" "rounding fix" "adjust_1" settled.

(** The interruption of the same request: the process stops while streaming. *)
Definition restarted : db := run [(at_call "r1", OpRecover)] streaming.

(** * What the scenario relies on *)

Lemma sample_times_bound text t : sample_times text = Some t -> UnixMilli t <= max_millis.
Proof. unfold sample_times. repeat case_match; intros; simplify_eq; vm_compute; discriminate. Qed.

Lemma run_reachable calls s : Forall (fun c => typed_operation c.2) calls -> reachable sample_times s -> reachable sample_times (run calls s).
Proof.
  unfold run. revert s. induction calls as [|[e op] calls IH]; intros s Hc Hs; [done|]. apply Forall_cons in Hc as [Ht Hc]. cbn.
  apply IH; [done|]. eapply reachable_step; [exact Hs|]. by apply step_operation.
Qed.

Lemma chat_typed : typed_input chat.
Proof. unfold typed_input, in_int64, max_int64, min_int64. cbn. lia. Qed.

Lemma configured_reachable : reachable sample_times configured.
Proof. apply run_reachable; [by repeat constructor|]. apply reachable_fresh. by split_and!. Qed.

Lemma streaming_reachable : reachable sample_times streaming.
Proof. apply run_reachable; [repeat constructor; apply chat_typed|apply configured_reachable]. Qed.

Lemma settled_reachable : reachable sample_times settled.
Proof. apply run_reachable; [by repeat constructor|apply streaming_reachable]. Qed.

Lemma configured_sound : sound configured.
Proof. apply (reachable_is_sound sample_times sample_times_bound), configured_reachable. Qed.

Lemma settled_sound : sound settled.
Proof. apply (reachable_is_sound sample_times sample_times_bound), settled_reachable. Qed.

(** * Reachable databases *)

Lemma reserved_units_conserved_witness :
  period_reserved (t_periods streaming) "pol_p1_0" 1767225600000 = 200 /\
  msum (held "pol_p1_0" 1767225600000) (t_reservations streaming) = 200.
Proof.
  destruct (reserved_units_conserved sample_times sample_times_bound streaming streaming_reachable) as [H _].
  rewrite <- H. split; vm_compute; reflexivity.
Defined.

Lemma reserved_iff_running_witness :
  exists rq, t_requests streaming !! "req_a1_0"%string = Some rq /\
    exists i a, t_attempts streaming !! i = Some a /\ at_Request a = "req_a1_0"%string /\ live a.
Proof.
  destruct (reserved_iff_running sample_times sample_times_bound streaming streaming_reachable) as [H _].
  eexists. split; [vm_compute; reflexivity|]. eapply H; [vm_compute; reflexivity|reflexivity].
Defined.

(** An import may turn a quota with a live reservation into a token bucket.
    Cancelling the attempt then looks for a bucket, and the units stay
    reserved in the period for ever: [reachable] leaves such imports out. *)
Definition bucket_policy : ConfigPolicy := mkConfigPolicy "pol_p1_0" "instance" "" "tokens" "token_bucket" "" 0 1000 10 1000 true.
Definition imported (items : list ConfigPolicy) : result unit * db :=
  ImportLimits instant "usr_1" 3 (fun _ => true) (fun _ => true) items [] admitted.
Definition cancelled_after (items : list ConfigPolicy) : db := snd (CancelBeforeDispatch (at_call "c9") attempt_id (snd (imported items))).

Lemma import_strands_reservation :
  fst (imported [bucket_policy]) = Ok tt
  /\ period_reserved (t_periods (cancelled_after [bucket_policy])) "pol_p1_0" 1767225600000 = 200
  /\ msum (held "pol_p1_0" 1767225600000) (t_reservations (cancelled_after [bucket_policy])) = 0
  /\ period_reserved (t_periods (cancelled_after [])) "pol_p1_0" 1767225600000 = 0.
Proof. vm_compute. repeat split. Qed.

(** A larger limit for the same quota is an import the machine allows. *)
Definition wider_policy : ConfigPolicy := mkConfigPolicy "pol_p1_0" "instance" "" "tokens" "quota" "day" 0 5000 0 0 true.
Lemma imported_reachable : reachable sample_times (snd (imported [wider_policy])) /\ p_LimitUnits <$> t_policies (snd (imported [wider_policy])) !! "pol_p1_0" = Some 5000.
Proof.
  split; [|vm_compute; reflexivity]. eapply reachable_step; [|apply (step_import sample_times admitted instant "usr_1" 3 (fun _ => true) (fun _ => true) [wider_policy] [])].
  - unfold admitted. apply run_reachable; [repeat constructor; apply chat_typed|apply configured_reachable].
  - apply Forall_singleton. unfold typed_policy. split_and!; vm_compute; discriminate.
  - apply Forall_nil_2.
  - intros item p Hi%list_elem_of_singleton Hp _. subst item.
    assert (E : p_Algorithm <$> t_policies admitted !! cp_ID wider_policy = Some Quota) by (vm_compute; reflexivity).
    rewrite Hp in E. clear Hp. injection E as E. rewrite E. split; discriminate.
Qed.

Lemma catalogue_well_formed_witness : size (t_policies configured) = 4%nat /\ policies_within max_int64 configured /\ prices_ok (t_prices configured).
Proof.
  split; [vm_compute; reflexivity|].
  exact (catalogue_well_formed sample_times sample_times_bound configured configured_reachable).
Defined.

Lemma Recover_idle_witness : idle restarted /\ size (t_requests restarted) = 1%nat.
Proof.
  split; [|vm_compute; reflexivity].
  apply (Recover_idle sample_times sample_times_bound (at_call "r1") streaming restarted streaming_reachable). vm_compute; reflexivity.
Defined.

Lemma at_call_distinct name n m : token (at_call name) n = token (at_call name) m -> n = m.
Proof.
  cbn. intros H. apply (inj (String.append name)) in H. apply (inj (String.append "_")) in H. by apply (inj pretty) in H.
Qed.

Lemma streaming_outbox : map ob_ID (t_outbox streaming) = ["evt_a1_6"%string].
Proof. vm_compute. reflexivity. Qed.

Lemma events_unused e n s ids :
  map ob_ID (t_outbox s) = ids -> (("evt_" +:+ token e n)%string ∉ ids) -> event_unused e n s.
Proof. intros <- Hn row Hrow E. apply Hn. rewrite <- E. rewrite list_elem_of_In. apply in_map. by rewrite <- list_elem_of_In. Qed.

Lemma streaming_events_unused n : event_unused (at_call "r1") n streaming.
Proof. apply (events_unused _ _ _ _ streaming_outbox). intros H. apply list_elem_of_singleton in H. discriminate H. Qed.

Lemma streaming_events_fit : Forall (fun x => recovery_event_fits x.2.1 x.2.2 = true) (live_join streaming).
Proof.
  apply Forall_forall. intros x Hx. rewrite list_elem_of_In in Hx. revert x Hx. apply forallb_forall.
  vm_compute. reflexivity.
Qed.

Lemma Recover_succeeds_witness : exists s', Recover (at_call "r1") streaming = (Ok tt, s').
Proof.
  apply (Recover_succeeds (at_call "r1") streaming (at_call_distinct "r1") streaming_events_unused).
  intros id a r Hel. exact (proj1 (Forall_forall _ _) streaming_events_fit (id, (a, r)) Hel).
Defined.

(** * Admission *)

Definition daily : PolicyRow := mkPolicyRow ScopeInstance "" MTokens Quota PDay 0 1000 0 0 true 1 instant instant.
Definition member_key : KeyRow := mkKeyRow "usr_2" "laptop" KActive ["chat:generate"]%string ["gpt-4*"]%string ["con_1"]%string None 1 instant instant.

Lemma configured_daily : t_policies configured !! "pol_p1_0"%string = Some daily.
Proof. vm_compute. reflexivity. Qed.
Lemma configured_key : t_keys configured !! "key_key_0"%string = Some member_key.
Proof. vm_compute. reflexivity. Qed.
Lemma chat_admitted : Admit (at_call "a1") chat configured = (Ok (mkAdmissionResult "req_a1_0" "att_a1_1" 1 instant), admitted).
Proof. vm_compute. reflexivity. Qed.
Lemma configured_unused : period_reserved (t_periods configured) "pol_p1_0" 1767225600000 = 0.
Proof. vm_compute. reflexivity. Qed.

Lemma Admit_charges_policies_witness :
  period_reserved (t_periods configured) "pol_p1_0" 1767225600000 = 0 /\
  period_reserved (t_periods admitted) "pol_p1_0" 1767225600000 = 200.
Proof.
  split; [exact configured_unused|].
  destruct (Admit_charges_policies (at_call "a1") chat configured admitted (mkAdmissionResult "req_a1_0" "att_a1_1" 1 instant)
    (so_usage _ configured_sound) (sound_limits _ (so_policies _ configured_sound)) chat_typed chat_admitted)
    as (k & tokens & cost & priceID & Hk & Ht & _ & H).
  injection Ht as <-. cbn [ai_KeyID chat] in Hk. rewrite configured_key in Hk. injection Hk as <-.
  destruct (H "pol_p1_0"%string daily 200 true configured_daily) as (_ & Hr & _); [reflexivity|by split_and!|reflexivity|lia|].
  cbv zeta in Hr. cbn [ad_AdmittedAt] in Hr. change (fst (periodBounds (runtime_of "pol_p1_0" daily) instant)) with 1767225600000 in Hr.
  rewrite configured_unused in Hr. exact Hr.
Defined.

Lemma Admit_within_limits_witness : within_limits configured (snd (Admit (at_call "a1") chat configured)).
Proof.
  apply Admit_within_limits; [exact (so_usage _ configured_sound)|exact (sound_limits _ (so_policies _ configured_sound))|exact chat_typed].
Defined.

(** * Settlement and adjustment *)

Lemma Settle_exactly_once_witness :
  snd (Settle (at_call "s2") attempt_id outcome settled) = settled /\
  snd (Settle (at_call "s3") "att_other" outcome settled) = settled.
Proof.
  destruct (Settle_exactly_once (at_call "s1") attempt_id outcome streaming settled) as [H1 H2]; [vm_compute; reflexivity|].
  split; [by rewrite H1|by apply H2].
Defined.

Definition adjusted : db := snd adjust_call.

Lemma AdjustCost_exactly_once_witness :
  AdjustCost (at_call "x2") boss attempt_id "0.000001" "rounding fix" "adjust_1" adjusted = (Ok "0.000125"%string, adjusted).
Proof.
  destruct (AdjustCost_exactly_once (at_call "x1") boss attempt_id "0.000001" "rounding fix" "adjust_1" settled adjusted "0.000125") as [H _];
    [vm_compute; reflexivity|]. apply H.
Defined.

Lemma AdjustCost_books_witness :
  period_consumed settled "pol_p2_0" 1767225600000 = 124000 /\ period_consumed adjusted "pol_p2_0" 1767225600000 = 125000.
Proof.
  split; [vm_compute; reflexivity|].
  assert (exists a, t_attempts settled !! attempt_id = Some a /\ in_int64 (default 0 (current_cost (at_Usage a)))) as (a & Ha & Hc).
  { eexists. split; [vm_compute; reflexivity|]. vm_compute. split; discriminate. }
  destruct (AdjustCost_books (at_call "x1") boss attempt_id "0.000001" "rounding fix" "adjust_1" settled adjusted "0.000125" a
    (inv_balanced _ (so_usage _ settled_sound)) Ha Hc) as (delta & Hd & _ & _ & _ & _ & _ & H); [vm_compute; reflexivity|vm_compute; reflexivity|].
  vm_compute in Hd. injection Hd as <-. rewrite H. vm_compute in Ha. injection Ha as <-. vm_compute; reflexivity.
Defined.

(** * Keys *)

Definition member_key_id : string := "key_key_0".

Lemma key_created : Create digest sample_times (at_call "key") (instant * 1000000) "usr_2" key_input people =
  (Ok (mkAPIKey member_key_id member_key, member_token), with_key).
Proof. vm_compute. reflexivity. Qed.

Lemma Create_authenticates_witness :
  exists p, Authenticate digest (at_call "in") member_token with_key = Ok p /\ pl_KeyID p = member_key_id /\ pl_Owner p = "usr_2"%string.
Proof.
  apply (Create_authenticates digest sample_times (at_call "key") (at_call "in") (instant * 1000000) "usr_2" key_input people with_key
    (mkAPIKey member_key_id member_key) member_token key_created); reflexivity.
Defined.

Definition member_principal : Principal := mkPrincipal member_key_id "usr_2" ["chat:generate"] ["gpt-4*"] ["con_1"].

Lemma member_authenticated : Authenticate digest (at_call "in") member_token with_key = Ok member_principal.
Proof. vm_compute. reflexivity. Qed.
Lemma with_key_row : t_keys with_key !! member_key_id = Some member_key.
Proof. vm_compute. reflexivity. Qed.

Lemma Authenticate_within_grants_witness :
  exists k u, active_key with_key member_key_id instant = Some (k, u) /\ k_Owner k = "usr_2"%string /\
    admissionGranted chat k (u_Grants u) = true.
Proof.
  apply (Authenticate_within_grants digest sample_times (at_call "in") member_token with_key member_principal chat member_authenticated).
  - cbn [pl_KeyID member_principal]. intros k Hk. rewrite with_key_row in Hk. injection Hk as <-. repeat constructor.
  - reflexivity.
Defined.

Lemma people_secrets : secrets_ok people.
Proof. split; [intros i j a b Ha|intros i a Ha]; discriminate Ha. Qed.

Definition key_calls : list (env * Z * key_operation) :=
  [((at_call "key", instant * 1000000), KeyCreate "usr_2" key_input); ((at_call "rot", instant * 1000000), KeyRotate "usr_2" member_key_id 1)].

Lemma key_operations_keep_secrets_witness :
  size (t_secrets (key_run digest sample_times key_calls people)) = 2%nat /\ secrets_ok (key_run digest sample_times key_calls people).
Proof. split; [vm_compute; reflexivity|]. exact (key_operations_keep_secrets digest sample_times key_calls people people_secrets). Defined.

Definition revoked_db : db := snd (Revoke (at_call "rev") "usr_2" member_key_id 1 with_key).

Lemma key_revoked : Revoke (at_call "rev") "usr_2" member_key_id 1 with_key = (Ok tt, revoked_db).
Proof. vm_compute. reflexivity. Qed.

Lemma Revoke_is_final_witness :
  Authenticate digest (at_call "in") member_token with_key = Ok member_principal /\
  ~ Authenticate digest (at_call "in") member_token revoked_db = Ok member_principal.
Proof.
  split; [exact member_authenticated|]. intros H.
  exact (Revoke_is_final digest sample_times (at_call "rev") "usr_2" member_key_id 1 with_key revoked_db [] key_revoked (at_call "in") member_token
    member_principal H eq_refl).
Defined.

Definition rotated := Rotate digest (at_call "rot") "usr_2" member_key_id 1 with_key.
Definition rotated_db : db := snd rotated.
Definition rotated_row : KeyRow := mkKeyRow "usr_2" "laptop" KActive ["chat:generate"]%string ["gpt-4*"]%string ["con_1"]%string None 2 instant instant.
Definition rotated_token : string := match fst rotated with Ok (_, tok) => tok | Err _ => "" end.

Lemma key_rotated : Rotate digest (at_call "rot") "usr_2" member_key_id 1 with_key = (Ok (mkAPIKey member_key_id rotated_row, rotated_token), rotated_db).
Proof. vm_compute. reflexivity. Qed.
Lemma rotated_owner : exists u, t_users rotated_db !! "usr_2"%string = Some u /\ u_Status u = UActive.
Proof. eexists. split; [vm_compute; reflexivity|reflexivity]. Qed.

Lemma Rotate_replaces_witness :
  exists p, Authenticate digest (at_call "in") rotated_token rotated_db = Ok p /\ pl_KeyID p = member_key_id.
Proof.
  destruct (Rotate_replaces digest sample_times (at_call "rot") (at_call "in") "usr_2" member_key_id 1 with_key rotated_db
    (mkAPIKey member_key_id rotated_row) rotated_token key_rotated) as [_ H].
  apply H; [exact rotated_owner|reflexivity|reflexivity].
Defined.

(** * Users *)

Lemma people_user id u : t_users people !! id = Some u ->
  id = "usr_1"%string /\ u_Role u = Owner /\ g_Unrestricted (u_Grants u) = true \/
  id = "usr_2"%string /\ u_Role u = Member /\ g_Unrestricted (u_Grants u) = false.
Proof.
  intros H. unfold people in H. cbn [t_users set_users] in H. apply lookup_insert_Some in H as [[<- <-]|[_ H]]; [by left|]. apply lookup_singleton_Some in H as [<- <-]. by right.
Qed.

Lemma people_ok : identity_ok people.
Proof.
  split; [split|].
  - eexists "usr_1"%string, _. split; [vm_compute; reflexivity|]. split_and!; [done|done|].
    intros j v Hj Hv. apply people_user in Hj as [[-> _]|(_ & Hr & _)]; [done|congruence].
  - intros id u Hu. apply people_user in Hu as [(_ & -> & ->)|(_ & -> & ->)]; done.
  - intros id k Hk. discriminate Hk.
Qed.

Definition narrow : Grants := mkGrants false ["chat:generate"]%string ["gpt-4o*"]%string [].
(** A stand-in for Argon2: 32 bytes made of the password and the salt. *)
Definition stretch (password salt : string) : string := take_bytes 32 (password +:+ salt +:+ "................................").
Definition salt : string := "0123456789abcdef".
Definition dummy : string := HashPassword stretch salt "invalid-login-password".

Definition recovery_call : env * identity_operation := (at_call "r1", OnAccount (AccountRecovery "lost")).
Definition identity_calls : list (env * identity_operation) :=
  [(at_call "key", OnKey (instant * 1000000) (KeyCreate "usr_2" key_input));
   (at_call "g1", OnUser (UserUpdateGrants boss "usr_2" 1 narrow)); recovery_call].

Lemma identity_kept_witness :
  k_Connections <$> t_keys (identity_run digest sample_times lower address stretch dummy identity_calls people) !! member_key_id = Some [] /\
  identity_ok (identity_run digest sample_times lower address stretch dummy identity_calls people).
Proof. split; [vm_compute; reflexivity|]. exact (identity_kept digest sample_times lower address stretch dummy identity_calls people people_ok). Defined.

Definition restricted : db := snd (UpdateGrants (at_call "g1") boss "usr_2" 1 narrow with_key).

Lemma restricted_key : exists k, t_keys restricted !! member_key_id = Some k /\ k_Owner k = "usr_2"%string.
Proof. eexists. split; [vm_compute; reflexivity|reflexivity]. Qed.
Lemma grants_updated : exists v, UpdateGrants (at_call "g1") boss "usr_2" 1 narrow with_key = (Ok v, restricted).
Proof. eexists. vm_compute. reflexivity. Qed.

Lemma UpdateGrants_takes_effect_witness : exists k, t_keys restricted !! member_key_id = Some k /\ within k narrow.
Proof.
  destruct restricted_key as (k & Hk & Ho), grants_updated as [v Hv]. exists k. split; [exact Hk|].
  destruct (UpdateGrants_takes_effect (at_call "g1") boss "usr_2" 1 narrow with_key restricted v Hv) as [H _]. exact (H member_key_id k Hk Ho).
Defined.

Lemma grants_written : t_users (user_perform digest lower address (at_call "g1") (UserUpdateGrants boss "usr_2" 1 narrow) with_key) !! "usr_2"%string <>
  t_users with_key !! "usr_2"%string.
Proof. vm_compute. discriminate. Qed.

Lemma user_writes_authorised_witness :
  exists a, t_users with_key !! us_ID boss = Some a /\ u_Status a = UActive.
Proof.
  destruct (user_writes_authorised digest lower address (at_call "g1") (UserUpdateGrants boss "usr_2" 1 narrow) with_key "usr_2" grants_written)
    as (a & u' & Ha & Hst & _). exists a. split; [exact Ha|exact Hst].
Defined.

(** * What settlement and cancellation charge *)

Lemma streaming_sound : sound streaming.
Proof. apply (reachable_is_sound sample_times sample_times_bound), streaming_reachable. Qed.

Lemma streaming_settled : Settle (at_call "s1") attempt_id outcome streaming = (Ok tt, settled).
Proof. vm_compute. reflexivity. Qed.
Lemma streaming_attempt : exists a, t_attempts streaming !! attempt_id = Some a.
Proof. eexists. vm_compute. reflexivity. Qed.
Lemma streaming_unsettled : t_ledger streaming !! "settle_1"%string = None.
Proof. vm_compute. reflexivity. Qed.

Lemma Settle_charges_policies_witness :
  exists a', t_attempts settled !! attempt_id = Some a' /\ at_State a' = AtSucceeded /\ au_Input (at_Usage a') = Some 100.
Proof.
  destruct streaming_attempt as [a Ha].
  destruct (Settle_charges_policies (at_call "s1") attempt_id outcome streaming settled a (inv_balanced _ (so_usage _ streaming_sound))
    I Ha streaming_unsettled streaming_settled) as (st & us & tokens & cost & _ & _ & Hst & _ & _ & _ & a' & Ha' & Es & _ & Ei & _).
  exists a'. split; [exact Ha'|]. split; [|exact Ei]. rewrite Es. cbn in Hst. by injection Hst as <-.
Defined.

Definition cancelled : db := snd (CancelBeforeDispatch (at_call "c1") attempt_id admitted).

Lemma admitted_reachable : reachable sample_times admitted.
Proof. apply run_reachable; [repeat constructor; apply chat_typed|apply configured_reachable]. Qed.
Lemma admitted_sound : sound admitted.
Proof. apply (reachable_is_sound sample_times sample_times_bound), admitted_reachable. Qed.
Lemma admitted_cancelled : CancelBeforeDispatch (at_call "c1") attempt_id admitted = (Ok tt, cancelled).
Proof. vm_compute. reflexivity. Qed.
Lemma admitted_consumed : period_consumed admitted "pol_p1_0" 1767225600000 = 0.
Proof. vm_compute. reflexivity. Qed.

Lemma CancelBeforeDispatch_free_witness : period_consumed cancelled "pol_p1_0" 1767225600000 = 0.
Proof.
  destruct (CancelBeforeDispatch_free (at_call "c1") attempt_id admitted cancelled (inv_balanced _ (so_usage _ admitted_sound)) admitted_cancelled)
    as [H _]. rewrite H. exact admitted_consumed.
Defined.

(** * Reconciliation after a settled spend reservation *)

(** A provider that reports a cost but no tokens. *)
Definition costed : SettlementInput :=
  mkSettlementInput "settle_2" "succeeded" "provider_reported" None None None None None None (Some 124000) None 0 "" true None.
Definition partly_settled : db := run [(at_call "s2", OpSettle attempt_id costed)] streaming.
Definition correction : ReconciliationInput := mkReconciliationInput (Some 100) (Some 60) (Some 500000) "provider_reported" "invoice" "reconcile_1".
Definition reconciled : db := snd (ReconcileUnknown (at_call "c1") boss attempt_id correction partly_settled).

(** A reconciliation with an explicit cost does not reach a spend
    reservation that was already settled. The provider reported a cost of
    124000 nano-dollars and no tokens, so the spend reservation settled at
    124000 and the token reservation stayed uncertain; reconciling the tokens
    with an invoiced cost of 500000 succeeds and raises the attempt's cost,
    while the spend period still counts 124000. *)
Theorem ReconcileUnknown_skips_settled_spend :
  fst (ReconcileUnknown (at_call "c1") boss attempt_id correction partly_settled) = Ok tt /\
  (a ← t_attempts partly_settled !! attempt_id; current_cost (at_Usage a)) = Some 124000 /\
  (a ← t_attempts reconciled !! attempt_id; current_cost (at_Usage a)) = Some 500000 /\
  period_consumed partly_settled "pol_p2_0" 1767225600000 = 124000 /\
  period_consumed reconciled "pol_p2_0" 1767225600000 = 124000.
Proof. vm_compute. done. Qed.
