(* ===== verification/Signin.v ===== *)
(** Two people signing in: a member logs in, changes the password, is
    restricted, recovers the account by code, and somebody guesses; the
    properties of the account files applied along the way. *)
From S2P Require Import Prelude GoStd Json Policy PathMatch Grants Store Pricing Keys Users Credentials Sessions Identity Accounts Throttle Scenario.

Definition horse : string := "correct horse battery".
Definition stored : string := HashPassword stretch salt horse.
Definition house : db :=
  set_users {[ "usr_1" := mkUserRow "owner@example.com" "Owner" "!" Owner UActive 0 0 1 1 (mkGrants true [] [] []);
               "usr_2" := mkUserRow "member@example.com" "Member" stored Member UActive 0 0 1 1 member_grants ]}%string empty_db.

Lemma password_roundtrip_witness : VerifyPassword stretch horse stored = Ok true.
Proof. exact (VerifyPassword_HashPassword stretch salt horse horse eq_refl eq_refl). Defined.

Definition perform_on := identity_perform digest sample_times lower address stretch dummy.
Definition sstep := step digest sample_times lower address stretch dummy.

Lemma house_user id u : t_users house !! id = Some u -> 0 < u_AuthRevision u.
Proof.
  intros H. unfold house in H. cbn [t_users set_users] in H.
  apply lookup_insert_Some in H as [[<- <-]|[_ H]]; [done|]. by apply lookup_singleton_Some in H as [<- <-].
Qed.

Lemma house_ok : world_ok (house, []).
Proof. split; [split; [exact house_user|]|]; [intros v x H; discriminate H|]. intros cur H. by apply not_elem_of_nil in H. Qed.

Lemma call_made e op s issued : genuine issued op -> rtc sstep (s, issued) (perform_on e op s, issued).
Proof. intros H. apply rtc_once. by apply step_call. Qed.

(** * Logging in while a key is being created *)

Definition key_operation_made : identity_operation := OnKey (instant * 1000000) (KeyCreate "usr_2" key_input).
Definition key_made : db := perform_on (at_call "k1") key_operation_made house.
Definition credentials : LoginInput := mkLoginInput " Member@example.com" horse "browser" "127.0.0.1:4711".
Definition login := Login digest lower address stretch dummy (at_call "l1") false credentials house key_made.
Definition signed : db := snd login.
Definition member_row : UserRow := mkUserRow "member@example.com" "Member" stored Member UActive 0 0 1 1 member_grants.

Lemma login_ok : Login digest lower address stretch dummy (at_call "l1") false credentials house key_made
  = (Ok (mkSessionUser "usr_2" member_row, "l1_0"%string), signed).
Proof. vm_compute. reflexivity. Qed.

Lemma Login_by_current_password_witness :
  exists cur, fst (SessionInfo digest (at_call "i1") "l1_0" signed) = Ok cur /\ su_ID (an_User cur) = "usr_2"%string.
Proof.
  destruct (Login_by_current_password digest sample_times lower address stretch dummy (house, []) (key_made, []) (at_call "l1") false credentials
    (mkSessionUser "usr_2" member_row) "l1_0" signed house_ok) as (u & _ & _ & _ & _ & H).
  - exact (call_made (at_call "k1") key_operation_made house [] I).
  - exact login_ok.
  - destruct (H (at_call "i1")) as (cur & Hc & Hu); [reflexivity..|]. exists cur. split; [exact Hc|]. rewrite Hu. exact eq_refl.
Defined.

(** * Restricting a member ends the session *)

Definition login_operation : identity_operation := OnAccount (AccountLogin false credentials house).
Definition narrowed : db := perform_on (at_call "g1") (OnUser (UserUpdateGrants boss "usr_2" 1 narrow)) signed.

Lemma signed_run : rtc sstep (house, []) (signed, []).
Proof.
  exact (PreOrder_Transitive (house, []) (key_made, []) (signed, []) (call_made (at_call "k1") key_operation_made house [] I)
           (call_made (at_call "l1") login_operation key_made [] I)).
Qed.

Lemma signed_ok : world_ok (signed, []).
Proof. exact (proj2 (run_ok digest sample_times lower address stretch dummy (house, []) (signed, []) house_ok signed_run)). Qed.

Definition session_verifier : string := digest "l1_0".
Definition member_session : SessionRow :=
  mkSessionRow "ses_l1_1" "usr_2" (instant + sessionLifetime) instant instant instant 1 "browser".

Lemma signed_session : t_sessions signed !! session_verifier = Some member_session.
Proof. vm_compute. reflexivity. Qed.
Lemma signed_member : t_users signed !! "usr_2"%string = Some member_row.
Proof. vm_compute. reflexivity. Qed.
Lemma narrowed_member : exists u, t_users narrowed !! "usr_2"%string = Some u /\ authority u <> authority member_row.
Proof. eexists. split; [vm_compute; reflexivity|]. vm_compute. discriminate. Qed.

Lemma authority_change_ends_sessions_witness : session_row_user narrowed instant member_session = None.
Proof.
  destruct narrowed_member as (u & Hu & Hne).
  destruct (authority_change_ends_sessions digest sample_times lower address stretch dummy (signed, []) (narrowed, []) session_verifier
    member_session member_row u signed_ok (call_made (at_call "g1") (OnUser (UserUpdateGrants boss "usr_2" 1 narrow)) signed [] I)
    signed_session signed_member Hu Hne) as [H _].
  exact (H instant).
Defined.

(** * Changing the password *)

Definition current : AuthenticatedSession :=
  mkAuthenticatedSession "ses_l1_1" (mkSessionUser "usr_2" member_row) instant instant (instant + sessionLifetime) instant 1 "browser".
Lemma session_read : SessionInfo digest (at_call "i1") "l1_0" signed = (Ok current, signed).
Proof. vm_compute. reflexivity. Qed.

Lemma current_ok : world_ok (signed, [current]).
Proof.
  exact (proj2 (run_ok digest sample_times lower address stretch dummy (signed, []) (signed, [current]) signed_ok
    (rtc_once _ _ (step_session digest sample_times lower address stretch dummy (at_call "i1") "l1_0" signed [] current signed session_read)))).
Qed.

Definition changed : db := snd (ChangePassword digest stretch (at_call "c1") false current horse "a longer pass phrase" "browser" signed signed).
Lemma change_ok : ChangePassword digest stretch (at_call "c1") false current horse "a longer pass phrase" "browser" signed signed
  = (Ok "c1_1"%string, changed).
Proof. vm_compute. reflexivity. Qed.

Lemma ChangePassword_replaces_witness :
  exists cur, fst (SessionInfo digest (at_call "i2") "c1_1" changed) = Ok cur /\ su_ID (an_User cur) = "usr_2"%string.
Proof.
  destruct (ChangePassword_replaces digest sample_times lower address stretch dummy (signed, [current]) (signed, [current]) (at_call "c1") false current
    horse "a longer pass phrase" "browser" "c1_1" changed current_ok (rtc_refl _ _) (list_elem_of_here _ _) change_ok)
    as (u & u' & _ & _ & _ & _ & _ & _ & H).
  destruct (H (at_call "i2")) as (cur & Hc & Hu); [reflexivity..|]. exists cur. split; [exact Hc|]. rewrite Hu. exact eq_refl.
Defined.

(** * A recovery code *)

Definition coded : db := perform_on (at_call "r1") (OnUser (UserIssueCode boss "usr_2" "recovery")) signed.
Definition activation : ActivateInput := mkActivateInput " r1_0 " "yet another phrase" "phone".
Definition activated : db := snd (Activate digest stretch (at_call "v1") false activation coded coded).
Lemma activation_ok : exists user, Activate digest stretch (at_call "v1") false activation coded coded = (Ok (user, "v1_1"%string), activated)
  /\ su_ID user = "usr_2"%string.
Proof. eexists. split; [vm_compute; reflexivity|reflexivity]. Qed.

Lemma Activate_once_witness : exists err, Activate digest stretch (at_call "v2") false activation activated activated = (Err err, activated).
Proof.
  destruct activation_ok as (user & H & _).
  destruct (Activate_once digest stretch (at_call "v1") false activation coded coded user "v1_1" activated H) as (_ & _ & _ & _ & Hr).
  exact (Hr (at_call "v2") false activation activated eq_refl).
Defined.

(** * Guessing *)

Definition at_minute (name : string) (minute : Z) : env := mkEnv "epoch_1" (fun _ => instant + minute * 60000) (fun n => name).
Definition guess (minute : Z) : login_call := mkLoginCall (at_minute "x" minute) false (mkLoginInput "member@example.com" "let me in" "script" "10.0.0.1:1").
Definition one (minute : Z) : list login_event := [Begin (guess minute); End 0].
(** One wrong password ten minutes earlier, and three more one after another.
    Then two logins begin; the first ends and fills the row, the second ends
    once the window has passed and opens another, in which the same goes on;
    a last login is turned away. *)
Definition guessing : list login_event :=
  one 0 ++ one 0 ++ one 0 ++ [Begin (guess 4); Begin (guess 6); End 0; End 0] ++ one 7 ++ one 7 ++ one 7
    ++ [Begin (guess 8); Begin (guess 9); End 0; Meanwhile (set_sessions ∅); End 0] ++ one 9.
Definition guessed_at : db := set_throttles {[ digest "email:member@example.com" := mkThrottleRow (instant - 600000) 1 0 ]} house.

Lemma all_guesses (P : login_event -> Prop) : (forall m, 0 <= m <= 9 -> P (Begin (guess m))) -> (forall n, P (End n)) -> P (Meanwhile (set_sessions ∅)) -> Forall P guessing.
Proof. intros H1 H2 H3. unfold guessing, one. cbn [app]. repeat (apply Forall_cons; split; [first [apply H1; lia|apply H2|apply H3]|]). apply Forall_nil_2. Qed.

Lemma ten_guesses : wrong_guesses digest lower address stretch dummy "member@example.com" guessing [] guessed_at = 10.
Proof. vm_compute. reflexivity. Qed.

Lemma login_throttled_witness : wrong_guesses digest lower address stretch dummy "member@example.com" guessing [] guessed_at <= 10.
Proof.
  apply (login_throttled digest lower address stretch dummy "member@example.com" instant 2).
  - vm_compute. split; [discriminate|]. intros H. by destruct H.
  - lia.
  - vm_compute. repeat split; discriminate.
  - apply all_guesses; [|done|done]. intros m Hm. split; [split; [vm_compute; discriminate|intros H; by destruct H]|].
    unfold begins_inside, ends_inside, inside, guess, at_minute, loginWindow. cbn. lia.
  - by apply Forall_nil_2.
Defined.
