(* ===== verification/Dispatched.v ===== *)
(** Concrete requests through the gateway: the properties of [Tokens],
    [Dispatch], [Deferral] and [Forward] applied to them. *)
From S2P Require Import Prelude GoStd Money Counters Policy Json Decode Store Pricing PolicyService Admission Settlement Reservations Lifecycle Booking Charges Reachable Replays Tokens Dispatch Deferral Forward Scenario.
Open Scope string_scope.
Open Scope Z_scope.


(** * A chat request over two targets *)

Definition chat_request : forwarded :=
  mkForwarded "chat/completions" "chat:generate" "openai" false 200 false false false false false false false false false None.
Definition answer : string := json_text "{'id':'c1','choices':[{'message':{'content':'hi'}}],'usage':{'prompt_tokens':12,'completion_tokens':5}}".

Definition answered : attempt_outcome :=
  mkOutcome true "openai" "openai" "chat/completions" false 200 None false false answer answer None None true None true false
    false false false false false false false (Some (instant + 5)).
(** The first target is overloaded. *)
Definition overloaded : attempt_outcome :=
  mkOutcome true "openai" "openai" "chat/completions" true 503 None false false "" "" None None true None true false
    false false false false false false false None.

Definition delivered_at (name : string) (k : nat) : env * delivery := (at_call name, Delivered).
Definition chat_hop (name : string) (o : attempt_outcome) : hop :=
  mkHop true chat (at_call (name +:+ "a")) false true false (at_call (name +:+ "c")) o (delivered_at (name +:+ "s")) true (at_call (name +:+ "p"))
    (fun _ => at_call (name +:+ "f")) true (at_call (name +:+ "x")).
Definition chat_plan : list hop := [chat_hop "h1" overloaded; chat_hop "h2" answered].
Definition start : handler := mkHandler configured ∅.

Definition attempts_of (s : db) : list (string * AttemptState * UsageStatus) :=
  map (fun kv => (kv.1, at_State kv.2, at_UsageStatus kv.2)) (map_to_list (t_attempts s)).

Example chat_runs :
  let '(r, h) := forward_targets chat_request chat_plan "" true start in
  r = mkReport Answered "req_h1a_0" true /\
  attempts_of (hd_db h) = [("att_h1a_1", AtFailed, UsUnknown); ("att_h2a_1", AtSucceeded, UsProviderReported)].
Proof. vm_compute. split; reflexivity. Qed.

Lemma chat_plan_plausible : Forall (plausible_hop chat_request) chat_plan.
Proof. repeat constructor; try exact chat_typed; done. Qed.
Lemma configured_keys : keys_unused configured.
Proof.
  intros id _. assert (E : map_to_list (t_ledger configured) = []) by (vm_compute; reflexivity).
  apply map_to_list_empty_iff in E. by rewrite E.
Qed.

Lemma forward_leaves_nothing_running_witness :
  let '(r, h) := forward_targets chat_request chat_plan "" true start in rp_request r = "req_h1a_0" /\ over (hd_db h) "req_h1a_0".
Proof.
  pose proof (forward_leaves_nothing_running chat_request chat_plan start eq_refl chat_plan_plausible configured_sound configured_keys) as W.
  pose proof chat_runs as R. destruct (forward_targets chat_request chat_plan "" true start) as [r h]. destruct R as [-> _].
  split; [reflexivity|]. destruct (W eq_refl) as [E|E]; [discriminate E|exact E].
Defined.

(** * What one attempt settles *)

Lemma overloaded_settlement : exists i, settlement_of chat_request overloaded "att_h1a_1" = Some i.
Proof. eexists. vm_compute. reflexivity. Qed.

Lemma retry_after_failure_witness :
  exists i, settlement_of chat_request overloaded "att_h1a_1" = Some i /\ si_State i = "failed" /\ si_FinalRequest i = false.
Proof.
  destruct overloaded_settlement as [i Hi]. exists i. split; [exact Hi|].
  destruct (retry_after_failure chat_request overloaded "att_h1a_1" i Hi) as (A & B & _); [vm_compute; reflexivity|]. split; [exact A|exact B].
Defined.

(** An Anthropic message that used both web tools and reports only the
    searches. *)
Definition web_request (fetch : bool) : forwarded :=
  mkForwarded "messages" "messages:create" "anthropic" false 300 false true fetch false false false false false false None.
Definition searched_text : string :=
  json_text "{'content':[{'type':'server_tool_use','name':'web_search','id':'s1'}],'usage':{'input_tokens':50,'output_tokens':20,'server_tool_use':{'web_search_requests':1}}}".
Definition searched (fetchKnown : bool) : attempt_outcome :=
  mkOutcome true "anthropic" "anthropic" "messages" false 200 None false false searched_text searched_text None (Some 1) true None fetchKnown false
    false false false false false false false None.

Lemma searched_settlement : exists i, settlement_of (web_request false) (searched false) "att_1" = Some i /\ si_WebSearchCalls i = Some 1.
Proof. eexists. split; [vm_compute; reflexivity|reflexivity]. Qed.
Lemma searched_tools : parseToolMetadata "anthropic" searched_text = Some (0, "none").
Proof. vm_compute. reflexivity. Qed.

Lemma searched_plausible : plausible (web_request false) (searched false) 4.
Proof.
  split; cbn [web_request searched oc_countedInput oc_searchCalls oc_fetchCalls fw_inputEstimate];
    change (accountRaw _ _) with searched_text; change (accountDialect _ _) with "anthropic".
  - intros n s. rewrite searched_tools. intros [= <- _]. by unfold maxSafeInteger.
  - by unfold maxSafeInteger.
  - exact I.
  - lia.
  - by split.
  - exact I.
  - discriminate.
Qed.

(** Its searches are reported, so it is none of the exceptions; with both web
    tools it is one. A forged status and cache counts without tokens are the
    others. *)
Definition forged_text : string := json_text "{'content':[],'_gateway_tool_call_count':1,'_gateway_tool_call_status':'none'}".
Definition transcribed_text : string := json_text "{'text':'hi','usage':{'prompt_tokens':9,'completion_tokens':2,'prompt_tokens_details':{'cached_tokens':3}}}".
Definition transcription : forwarded :=
  mkForwarded "audio/transcriptions" "audio:transcribe" "openai" false 100 false false false false false false false false false None.
Definition transcribed : attempt_outcome :=
  mkOutcome true "openai" "mistral" "audio/transcriptions" false 200 None false false transcribed_text transcribed_text None None true None true false
    false false false false false false false None.
Definition rejected (f : forwarded) (o : attempt_outcome) : bool :=
  match settlement_of f o "att_1" with
  | Some i => match check_settlement (with_tool_status i) (si_ToolStatus (with_tool_status i)) with Ok _ => false | Err _ => true end
  | None => false
  end.
Definition answers (text : string) : attempt_outcome :=
  mkOutcome true "anthropic" "anthropic" "messages" false 200 None false false text text None None true None true false
    false false false false false false false None.

Example excepted :
  forged_tools (web_request false) (searched false) = false /\ stranded_cache (web_request false) (searched false) = false
  /\ unreported_fetch (web_request false) (searched false) = false /\ unreported_fetch (web_request true) (searched false) = true
  /\ (forged_tools chat_request (answers forged_text), rejected chat_request (answers forged_text)) = (true, true)
  /\ (stranded_cache transcription transcribed, rejected transcription transcribed) = (true, true).
Proof. vm_compute. repeat split. Qed.


(** A request admitted with both web tools, where no spending is limited
    (their price is unknown), its searches reported and its fetches not. *)
Definition searching : AdmissionInput :=
  mkAdmissionInput "" "key_key_0" "con_1" "gpt-4o" "" "gpt-4o-2026" 1 1 "chat" "" "chat:generate" "openai" "" false 0 4 true
    "priority" "" "" 0 None false false false 512 0 false 120 80 true true true true.
Definition search_running : db := run [(at_call "w1", OpAdmit searching); (at_call "w2", OpMarkDispatching "att_w1_1")] (run [(at_call "p1", OpCreatePolicy boss token_policy)] with_key).

Lemma search_attempt : exists a, t_attempts search_running !! "att_w1_1" = Some a /\ is_some (as_WebSearchMax (at_Snapshot a)) = true.
Proof. eexists. split; vm_compute; reflexivity. Qed.
Lemma unfetched_settlement : exists i, settlement_of (web_request true) (searched false) "att_w1_1" = Some i.
Proof. eexists. vm_compute. reflexivity. Qed.
Lemma unfetched_usage : is_some (pu_Input (fst (settled_usage (web_request true) (searched false)))) &&
  is_some (pu_Output (fst (settled_usage (web_request true) (searched false)))) = true.
Proof. vm_compute. reflexivity. Qed.

Lemma unreported_fetch_never_settles_witness :
  exists i text, settlement_of (web_request true) (searched false) "att_w1_1" = Some i /\
    Settle (at_call "w3") "att_w1_1" i search_running = (Err (Msg text), search_running).
Proof.
  destruct unfetched_settlement as [i Hi], search_attempt as (a & Ha & Hm).
  destruct (unreported_fetch_never_settles (web_request true) (searched false) "att_w1_1" i Hi eq_refl eq_refl eq_refl eq_refl
    (or_intror unfetched_usage) eq_refl eq_refl eq_refl (at_call "w3") search_running a Ha Hm) as [text T].
  exists i, text. split; [exact Hi|exact T].
Defined.

(** * Delivery *)

(** Two calls are refused, the third is carried out and its answer lost. *)
Definition flaky (k : nat) : env * delivery :=
  (at_call "s1", match k with 0 | 1 => Refused | 2 => AnswerLost | _ => Delivered end%nat).
Definition unreachable (k : nat) : env * delivery := (at_call "s1", Refused).
Definition reached (k : nat) : env * delivery := (at_call "s1", Delivered).

Lemma flaky_settles : settle flaky attempt_id outcome (mkHandler streaming ∅) = (Ok tt, mkHandler settled ∅).
Proof. vm_compute. reflexivity. Qed.

Lemma settle_books_once_witness : booked_once (map flaky (seq 0 settle_attempts)) attempt_id outcome streaming settled.
Proof.
  pose proof (settle_books_once flaky attempt_id outcome (mkHandler streaming ∅) (mkHandler settled ∅) (Ok tt) flaky_settles) as H.
  cbn zeta in H. cbn [hd_db] in H. destruct H as [_ [H _]]. exact H.
Defined.

Lemma streaming_acceptable d : acceptable (at_call "s1", d) attempt_id outcome streaming.
Proof. exists settled. exact streaming_settled. Qed.

(** A queue with the settlement of another attempt, which is not there: it is
    dropped as final. *)
Definition waiting : handler := mkHandler streaming {[ "att_gone" := outcome ]}.
Definition two_settlements : list (string * SettlementInput) := [(attempt_id, outcome); ("att_gone", outcome)].


(** * A stream *)

Definition frames : list string := [json_text "{'usage':{'prompt_tokens':3}}"; json_text "{'usage':{'completion_tokens':4}}"].

Lemma responseObjects_stream_witness : responseObjects (sse_stream frames) = frames /\ length frames = 2%nat.
Proof.
  split; [|reflexivity]. apply responseObjects_stream; [|vm_compute; discriminate].
  repeat constructor; try (vm_compute; (reflexivity || discriminate)).
  - exists (json_text "'usage':{'prompt_tokens':3}"). reflexivity.
  - exists (json_text "'usage':{'completion_tokens':4}"). reflexivity.
Defined.
