(* ===== verification/Deployment.v ===== *)
(** A catalogue at work: two connections, a credential, two models and a
    public model routed over both, and the properties of the routing and
    publishing files applied to the plans it gives. *)
From S2P Require Import Prelude GoStd Sha256 Money Counters Policy Json Store Pricing PolicyService PathMatch Grants Admission Limits Reachable Catalogue Connections Routing Selection Users Publishing Scenario.

(** * The host *)

Definition sample_url (s : string) : option URL :=
  if HasPrefix s "https://" then
    let rest := TrimPrefix s "https://" in
    Some (mkURL "https" (hd ""%string (Split rest "/"%char)) false "" "" "/v1")
  else if HasPrefix s "http://" then
    let rest := TrimPrefix s "http://" in
    Some (mkURL "http" (hd ""%string (Split rest "/"%char)) false "" "" "/v1")
  else None.

Definition sample_host : Host :=
  mkHost sample_url fold_case (fun a b => fold_case a =s fold_case b) (fun h => HasPrefix h "127.")
    (fun name => if name =s "GROQ_KEY" then "gsk_env"%string else ""%string) (fun _ => None)
    (fun nonce aad secret => (nonce +:+ "|" +:+ aad +:+ "|" +:+ secret)%string)
    (fun nonce aad sealed => let p := (nonce +:+ "|" +:+ aad +:+ "|")%string in if HasPrefix sealed p then Some (TrimPrefix sealed p) else None)
    (fun _ => true).

(** * The calls *)

Definition calls_of (l : list (string * call)) : list (env * call) := map (fun c => (at_call c.1, c.2)) l.
Fixpoint serve_all (l : list (env * call)) (h : list (db * env * call)) (s : db) : list (db * env * call) * db :=
  match l with
  | [] => (h, s)
  | (e, c) :: l => serve_all l ((s, e, c) :: h) (serve sample_host e c s)
  end.

Definition groq_target (weight : Z) : RouteTargetInput := mkRouteTargetInput "upm_m1_0" 1 weight true.
Definition ollama_target : RouteTargetInput := mkRouteTargetInput "upm_m2_0" 2 3 true.
Definition setup : list (env * call) := calls_of
  [("c1", CallCreateConnection "usr_1" (mkConnectionInput " Groq " "" "" true false 0 "groq"));
   ("c2", CallCreateConnection "usr_1" (mkConnectionInput "Ollama" "" "" true false 0 "ollama"));
   ("k1", CallPutCredential "usr_1" "con_c1_0" "gsk_stored" "");
   ("m1", CallCreateUpstreamModel "usr_1" "con_c1_0" "llama-3.3-70b" ["chat"]);
   ("m2", CallCreateUpstreamModel "usr_1" "con_c2_0" "llama3.2" ["chat"]);
   ("p1", CallCreatePublicModel "usr_1" "llama" "Llama" "" "upm_m1_0" [" chat "]);
   ("r1", CallConfigureRoute "usr_1" "llama" 1 "ordered_fallback" false [ollama_target; groq_target 0])]%string.

Definition deployed : list (db * env * call) * db := serve_all setup [] people.
Definition published : db := deployed.2.

Lemma serve_all_history l : forall h s, history sample_host h s -> history sample_host (serve_all l h s).1 (serve_all l h s).2.
Proof. induction l as [|[e c] l IH]; intros h s Hh; cbn; [done|]. apply IH. by apply history_call. Qed.

Lemma deployed_history : history sample_host deployed.1 published.
Proof. apply serve_all_history, history_start. reflexivity. Qed.

Definition chat_options (seed : string) : RouteOptions := mkRouteOptions "chat/completions" false 100 50 instant seed None (Some (PreviewRouteEligibility "chat/completions" false)).
Definition plan : RoutePlan := (Route sample_host (at_call "q1") "llama" (chat_options "req_1") published).1.

Lemma plan_routed : Route sample_host (at_call "q1") "llama" (chat_options "req_1") published = (plan, None).
Proof. vm_compute. reflexivity. Qed.

Lemma plan_targets : map (fun r => (rt_UpstreamModelID r, tt_Credential (rt_Target r), tt_BaseURL (rt_Target r))) (rp_Targets plan) =
  [("upm_m1_0", "gsk_stored", "https://api.groq.com/openai/v1"); ("upm_m2_0", "", "http://127.0.0.1:11434/v1")]%string.
Proof. vm_compute. reflexivity. Qed.

Lemma plan_strategy : rp_Strategy plan = "ordered_fallback"%string.
Proof. vm_compute. reflexivity. Qed.

(** * Plans *)

Lemma Route_offers_usable_targets_witness :
  length (rp_Targets plan) = 2%nat /\ exists pm, Forall (offered sample_host published pm "llama" (chat_options "req_1") instant) (rp_Targets plan).
Proof.
  destruct (Route_offers_usable_targets _ _ _ _ _ _ plan_routed) as (pm & _ & H).
  split; [vm_compute; reflexivity|]. exists pm. exact H.
Defined.

Lemma Route_accounts_for_candidates_witness :
  ids (rp_Targets plan) ++ rejected_ids (rp_Rejected plan) ≡ₚ map cd_ModelID (candidates published "llama").
Proof.
  destruct (Route_accounts_for_candidates _ _ _ _ _ _ plan_routed) as (_ & H & _). apply H. rewrite plan_strategy. discriminate.
Defined.

Lemma Route_follows_strategy_witness : StronglySorted by_priority (rp_Targets plan).
Proof. destruct (Route_follows_strategy _ _ _ _ _ _ plan_routed) as [H _]. apply H, plan_strategy. Defined.

(** Two kept targets, of weights 1 and 3. *)
Definition sample_items : list RouteTarget := rp_Targets plan.
Lemma sample_items_split : exists x y, sample_items = [] ++ x :: [y] /\ rt_Weight x = 1 /\ rt_Weight y = 3 /\ NoDup (ids sample_items).
Proof.
  destruct sample_items as [|x [|y [|]]] eqn:E; try (apply (f_equal (@length _)) in E; vm_compute in E; discriminate).
  exists x, y. split; [done|]. assert (map rt_Weight sample_items = [1; 3]) as Hw by (vm_compute; reflexivity).
  assert (ids sample_items = ["upm_m1_0"; "upm_m2_0"]%string) as Hi by (vm_compute; reflexivity).
  rewrite E in Hw. injection Hw as -> ->. split_and!; [done..|]. rewrite <- E, Hi. apply (bool_decide_unpack _). vm_compute. done.
Qed.

Lemma weighted_share_witness :
  exists x, hd_error (orderRoute sample_items [] "weighted" "req_1").1.1 = Some x <-> 0 <= seed_number "req_1" mod weight_before sample_items < 1.
Proof.
  destruct sample_items_split as (x & y & E & Hx & Hy & Hn). exists x.
  destruct (weighted_share sample_items [] [y] x [] "req_1" E Hn) as (_ & _ & _ & H).
  - rewrite E. repeat constructor; unfold weighty; rewrite ?Hx, ?Hy; lia.
  - rewrite E. cbn. lia.
  - cbn [weight_before] in H. rewrite Hx in H. exact H.
Defined.

(** * Circuits *)

Definition outcomes : list Outcome :=
  [mkOutcome true 100 400 1000; mkOutcome false 30000 30000 2000; mkOutcome false 30000 30000 3000; mkOutcome false 30000 30000 4000].
Definition observed : ObservationRow := default (mkObservationRow 0 0 0 None None None 0) (observe_all outcomes).
Lemma outcomes_observed : observe_all outcomes = Some observed.
Proof. reflexivity. Qed.

Lemma observations_implement_breaker_witness : ro_Consecutive observed = 3 /\ ro_CircuitUntil observed = Some 34000.
Proof. destruct (observations_implement_breaker outcomes observed outcomes_observed) as (_ & _ & H1 & H2). rewrite H1, H2. split; reflexivity. Defined.

Lemma latency_average_bounded_witness : exists first total, ro_FirstByte observed = Some first /\ ro_Total observed = Some total /\ 100 <= first <= 30000 /\ 100 <= total <= 30000.
Proof.
  apply (latency_average_bounded 100 30000 outcomes observed); [lia| |apply outcomes_observed].
  repeat constructor; cbn; lia.
Defined.

(** * Publishing *)

Lemma catalogue_stays_consistent_witness : catalogue_ok published /\ is_some (t_public_models published !! "llama"%string) = true.
Proof. split; [apply (catalogue_stays_consistent sample_host deployed.1), deployed_history|vm_compute; reflexivity]. Defined.

Lemma first_target : exists r, r ∈ rp_Targets plan /\ tt_Credential (rt_Target r) = "gsk_stored"%string /\ tt_BaseURL (rt_Target r) = "https://api.groq.com/openai/v1"%string.
Proof.
  pose proof plan_targets as H. destruct (rp_Targets plan) as [|r l]; [done|]. exists r. injection H as _ H1 H2 _. by split; [left|].
Qed.

Lemma credential_reaches_only_its_endpoint_witness :
  exists id cn, cn_BaseURL cn = "https://api.groq.com/openai/v1"%string /\ entered_by sample_host deployed.1 id cn.
Proof.
  destruct first_target as (r & Hr & Hc & Hu).
  destruct (credential_reaches_only_its_endpoint sample_host deployed.1 published (at_call "q1") "llama" (chat_options "req_1") plan r) as (cn & Hurl & _ & H).
  - apply deployed_history.
  - apply plan_routed.
  - exact Hr.
  - rewrite Hc. discriminate.
  - exists (tt_ConnectionID (rt_Target r)), cn. split; [congruence|exact H].
Defined.

(** The route configured anew, weighted. *)
Definition reweighted : result (string * PublicModelRow) * db :=
  ConfigureRoute (at_call "r2") "usr_1" "llama" 2 "weighted" false [groq_target 4; ollama_target] published.
Lemma reweighted_Ok : exists pm, reweighted = (Ok ("llama"%string, pm), reweighted.2).
Proof. eexists. vm_compute. reflexivity. Qed.

Lemma ConfigureRoute_takes_effect_witness : route_targets reweighted.2 "llama" = [groq_target 4; ollama_target].
Proof.
  destruct reweighted_Ok as [pm H]. unfold reweighted in H at 1.
  destruct (ConfigureRoute_takes_effect _ _ _ _ _ _ _ _ _ _ H) as [E _]. rewrite E. reflexivity.
Defined.

Lemma granted_id_matches_itself_witness : matches "llama-3.3_70b" "llama-3.3_70b" = true /\ matches "llama-3.3_70b" "llama-3.3_70" = false.
Proof. rewrite !(granted_id_matches_itself "llama-3.3_70b") by reflexivity. split; reflexivity. Defined.

(** * A credential that cannot be read *)

(** The owner points Groq at an environment variable that is not set. *)
Definition unset : db := serve sample_host (at_call "k2") (CallPutCredential "usr_1" "con_c1_0" "" "env:MISSING") published.

(** A target that needs no credential is lost when the one before it
    cannot read its own: the error of Groq's unset environment variable is
    still in the loop's variable when the row of Ollama, which has none and
    needs none, is looked at, so both are rejected and the request fails,
    although Ollama alone is available (and is offered when it comes first). *)
Theorem Route_loses_keyless_target :
  HasAvailableRouteTarget sample_host unset "llama" (fun _ => true) None = true /\
  (let (p, err) := Route sample_host (at_call "q2") "llama" (chat_options "req_2") unset in
   err = Some ErrNotFound /\
   map (fun r => (rj_UpstreamModelID r, rj_Reason r)) (rp_Rejected p) =
     [("upm_m1_0", "credential_unavailable"); ("upm_m2_0", "credential_unavailable")]%string) /\
  (let reversed := serve sample_host (at_call "r3")
                     (CallConfigureRoute "usr_1" "llama" 2 "ordered_fallback" false
                        [mkRouteTargetInput "upm_m1_0" 2 1 true; mkRouteTargetInput "upm_m2_0" 1 1 true]) unset in
   ids (rp_Targets (Route sample_host (at_call "q3") "llama" (chat_options "req_3") reversed).1) = ["upm_m2_0"%string]).
Proof. vm_compute. split_and!; reflexivity. Qed.

(** * Limits shown while a request streams *)

Definition member : User := mkUser "usr_2" "member@example.com" "Member" Member UActive.
Definition shown : result (list EffectiveLimit) * db := EffectiveLimits (at_call "l1") member "key_key_0" "con_1" streaming.
Definition shown_items : list EffectiveLimit := match shown.1 with Ok items => items | Err _ => [] end.
Lemma shown_Ok : EffectiveLimits (at_call "l1") member "key_key_0" "con_1" streaming = (Ok shown_items, shown.2).
Proof. vm_compute. reflexivity. Qed.

(** The daily token policy: 200 of its 1000 units are reserved. *)
Definition token_item : EffectiveLimit := List.hd (mkEffectiveLimit (mkRuntimePolicy "" ScopeInstance MTokens Quota PDay 0 0 0 0) 0 0 0 None) shown_items.
Lemma hd_error_elem {A} (l : list A) (x : A) : hd_error l = Some x -> x ∈ l.
Proof. destruct l as [|y l]; [discriminate|]. intros [= ->]. left. Qed.
Lemma token_item_head : hd_error shown_items = Some token_item.
Proof. vm_compute. reflexivity. Qed.
Lemma token_item_metric : rp_Metric (el_Policy token_item) = MTokens.
Proof. vm_compute. reflexivity. Qed.
Lemma token_item_remaining : el_Remaining token_item = 800.
Proof. vm_compute. reflexivity. Qed.
Lemma token_item_period : option_map (fun q => (q_Consumed q, q_Reserved q)) (t_periods shown.2 !! (rp_ID (el_Policy token_item), fst (periodBounds (el_Policy token_item) instant))) = Some (0, 200).
Proof. vm_compute. reflexivity. Qed.
Lemma option_map_Some (o : option PeriodRow) q c r :
  o = Some q -> option_map (fun q => (q_Consumed q, q_Reserved q)) o = Some (c, r) -> q_Consumed q = c /\ q_Reserved q = r.
Proof. intros -> [= <- <-]. done. Qed.
Lemma token_item_bucket : t_buckets shown.2 !! rp_ID (el_Policy token_item) = None.
Proof. vm_compute. reflexivity. Qed.
Lemma eq_None_Some {A} (o : option A) x : o = None -> o = Some x -> False.
Proof. by intros ->. Qed.
Lemma token_item_leases : lease_count shown.2 (rp_ID (el_Policy token_item)) = 0.
Proof. vm_compute. reflexivity. Qed.

Lemma shown_tokens : exists item, item ∈ shown_items /\ rp_Metric (el_Policy item) = MTokens /\ el_Remaining item = 800 /\
  counters_ok shown.2 instant (el_Policy item).
Proof.
  exists token_item. split; [|split; [apply token_item_metric|split; [apply token_item_remaining|constructor]]].
  - exact (hd_error_elem _ _ token_item_head).
  - intros q Hq. pose proof (option_map_Some _ _ _ _ Hq token_item_period) as [H1 H2]. rewrite H1, H2. unfold max_int64. lia.
  - intros b Hb. exact (False_ind _ (eq_None_Some _ _ token_item_bucket Hb)).
  - rewrite token_item_leases. unfold max_int64. lia.
  - unfold instant, max_int64. lia.
Qed.

Lemma Ok_pair_inj {A B} (a b : A) (s s' : B) : (Ok a, s) = (Ok b, s') -> a = b.
Proof. by intros [= -> _]. Qed.
Lemma shown_effective : effectiveTime (at_call "l1") streaming = (Ok instant, shown.2).
Proof. vm_compute. reflexivity. Qed.

Lemma streaming_policies : policies_ok streaming.
Proof.
  apply map_Forall_to_list. assert (E : exists p1 p2 p3 p4, (map_to_list (t_policies streaming)).*2 = [p1; p2; p3; p4]
    /\ Forall (fun p => schema_ok p /\ p_LimitUnits p <= maxSafeInteger /\ p_WindowSeconds p <= maxSafeInteger /\ p_RefillUnits p <= maxSafeInteger
         /\ p_RefillIntervalMS p <= maxSafeInteger) [p1; p2; p3; p4]).
  { do 4 eexists. split; [vm_compute; reflexivity|]. unfold schema_ok, maxSafeInteger. repeat apply Forall_cons_2; [..|apply Forall_nil_2]; cbn; intuition (congruence || lia). }
  destruct E as (p1 & p2 & p3 & p4 & E & H). rewrite <- E in H. rewrite Forall_fmap in H. eapply Forall_impl; [exact H|]. by intros [i p].
Qed.

Lemma tokens_asked p s n : rp_Metric p = MTokens ->
  plan_units p true chat n None = Ok (Some (if decide (rp_Metric p = MConcurrency) then 0 else n, true)) /\ asks s p "req_9" "att_9" n.
Proof. intros Hm. unfold plan_units, asks. rewrite Hm. split; [reflexivity|exact I]. Qed.

Lemma small_ask n : 0 < n < 1000 -> 0 < n <= max_int64.
Proof. unfold max_int64. lia. Qed.

Lemma EffectiveLimits_is_enforced_witness :
  exists p, accepted (evaluatePolicy shown.2 p instant true "req_9" "att_9" chat 800 None) = true /\
            accepted (evaluatePolicy shown.2 p instant true "req_9" "att_9" chat 801 None) = false.
Proof.
  destruct (EffectiveLimits_is_enforced _ _ _ _ _ _ _ streaming_policies shown_Ok) as (owner & a & effective & _ & _ & _ & Ht & _ & H).
  rewrite (Ok_pair_inj _ _ _ _ (eq_trans (eq_sym Ht) shown_effective)) in H.
  destruct shown_tokens as (item & Hin & Hm & Hr & Hok). exists (el_Policy item).
  clear Ht. pose proof (fun n => tokens_asked _ shown.2 n Hm) as Hask.
  split.
  - rewrite (H item chat true "req_9"%string "att_9"%string 800 None 800 true Hin Hok (proj1 (Hask 800)) (small_ask 800 ltac:(lia)) (proj2 (Hask 800))).
    rewrite Hr. exact eq_refl.
  - rewrite (H item chat true "req_9"%string "att_9"%string 801 None 801 true Hin Hok (proj1 (Hask 801)) (small_ask 801 ltac:(lia)) (proj2 (Hask 801))).
    rewrite Hr. exact eq_refl.
Defined.
