(* ===== verification/Delivered.v ===== *)
(** Usage on its way to the dashboard: one request settled, projected through
    a failing analytics run, corrected and projected again, with the
    properties of [Mirrored] applied along the way. *)
From S2P Require Import Prelude GoStd Money Calendar Counters Policy Json Decode Store Pricing PolicyService Admission Settlement Reservations Lifecycle Booking Reprice Reachable Projection Mirror Counted Mirrored Scenario.
Open Scope Z_scope.
Open Scope list_scope.

Notation reachable_stores := (mirror_reachable sample_times).

(** ** Steps by computation *)

Definition call (c : env * operation) (st : stores) : stores := mkStores (perform sample_times c.1 c.2 (st_system st)) (st_data st).
Definition new_events_fresh (c : env * operation) (st : stores) : bool :=
  forallb (fresh_row (st_data st)) (drop (length (t_outbox (st_system st))) (t_outbox (st_system (call c st)))).

Lemma call_reachable c st : typed_call c.2 -> new_events_fresh c st = true -> reachable_stores st -> reachable_stores (call c st).
Proof.
  intros Ht Hf Hr. eapply mr_step; [exact Hr|]. destruct st as [s d], c as [e op]. apply ms_call; [exact Ht|].
  destruct (perform_logs sample_times e op s Ht) as (new & Eo & _). unfold new_events_fresh in Hf. cbn in *. rewrite Eo in Hf |- *.
  rewrite drop_app_length in Hf. rewrite forallb_forall in Hf. intros r [Hr'|Hr']%elem_of_app Hn; [done|].
  apply list_elem_of_In, Hf in Hr'. unfold fresh_row in Hr'. by destruct (d_events d !! ob_ID r).
Qed.

Lemma project_reachable limit clock faults st : reachable_stores st -> reachable_stores (snd (ProjectOutbox limit clock faults st)).
Proof. intros Hr. eapply mr_step; [exact Hr|]. apply ms_project. Qed.

(** ** The request *)

Definition empty_data : data := mkData ∅ ∅ None.
Definition before : stores := mkStores configured empty_data.
Definition ran : stores := fold_left (fun st c => call c st) (chat_calls ++ [settle_call]) before.

Lemma before_reachable : reachable_stores before.
Proof. apply mr_blank. split_and!; vm_compute; reflexivity. Qed.

Lemma ran_reachable : reachable_stores ran.
Proof.
  unfold ran, chat_calls. cbn [app fold_left].
  do 4 (apply call_reachable; [first [apply chat_typed|exact I]|vm_compute; reflexivity|]). apply before_reachable.
Qed.

(** The run stops after the second event's commit, before the outbox is
    marked; the cost is corrected; the next run finishes. *)
Definition stopped : Z * option error * stores := ProjectOutbox 0 (fun _ => instant) (fun n => if Nat.eqb n 1 then Some MarkFails else None) ran.
Definition corrected : stores := call (at_call "x1", OpAdjustCost boss attempt_id "0.000001" "rounding fix" "adjust_1") (snd stopped).
Definition finished : Z * option error * stores := ProjectOutbox 0 (fun _ => instant) (fun _ => None) corrected.

Definition day_key : DailyKey := ("2026-01-01", "usr_2", "key_key_0", "gpt-4o", "con_1")%string.

Lemma corrected_reachable : reachable_stores corrected.
Proof. apply call_reachable; [exact I|vm_compute; reflexivity|]. apply project_reachable, ran_reachable. Qed.

Example stopped_runs : fst stopped = (1, Some fault_error) /\ length (t_outbox (st_system (snd stopped))) = 1%nat
  /\ cell_at CCost (d_daily (st_data (snd stopped))) day_key = 124000.
Proof. split; [|split]; vm_compute; reflexivity. Qed.

Lemma analytics_mirror_ledger_witness :
  cell_at CCost (d_daily (st_data corrected)) day_key = 124000 /\ sum_rows CCost day_key (fresh_rows (st_system corrected) (st_data corrected)) = 1000
  /\ ledger_total (st_system corrected) CCost day_key = 125000 /\ requests_at (d_daily (st_data corrected)) day_key = 1
  /\ exists past, recorded past (d_events (st_data corrected)) /\ requests_counted day_key [] past = 1.
Proof.
  assert (E1 : cell_at CCost (d_daily (st_data corrected)) day_key = 124000) by (vm_compute; reflexivity).
  assert (E2 : sum_rows CCost day_key (fresh_rows (st_system corrected) (st_data corrected)) = 1000) by (vm_compute; reflexivity).
  assert (E3 : requests_at (d_daily (st_data corrected)) day_key = 1) by (vm_compute; reflexivity).
  destruct (analytics_mirror_ledger sample_times corrected corrected_reachable) as [H (past & R & _ & Q)]. destruct (H CCost day_key) as [H1 _]. rewrite E1, E2 in H1.
  split_and!; [exact E1|exact E2|rewrite <- H1; reflexivity|exact E3|]. exists past. split; [exact R|]. rewrite <- Q; [exact E3|vm_compute; discriminate].
Defined.

Definition day_row : DailyRow := mkDailyRow 1 100 60 0 40 0 0 0 124000 0.

Lemma corrected_days : map_to_list (d_daily (st_data corrected)) = [(day_key, day_row)].
Proof. vm_compute. reflexivity. Qed.
Lemma corrected_daily : d_daily (st_data corrected) = {[ day_key := day_row ]}.
Proof. rewrite <- (list_to_map_to_list (d_daily (st_data corrected))), corrected_days. apply insert_empty. Qed.

Definition correction_row : OutboxRow := List.hd (mkOutboxRow "" None None (AttemptReserved "" "" "" "" 0) 0 None) (fresh_rows (st_system corrected) (st_data corrected)).
Lemma corrected_fresh : fresh_rows (st_system corrected) (st_data corrected) = [correction_row].
Proof. vm_compute. reflexivity. Qed.
Lemma correction_small c : event_amount c (ob_Payload correction_row) <= 1000.
Proof. destruct c; vm_compute; discriminate. Qed.

Lemma corrected_room : room_for (st_system corrected) (st_data corrected).
Proof.
  intros c k p q E. rewrite corrected_fresh in E. rewrite corrected_daily.
  assert (B : cell_at c {[ day_key := day_row ]} k <= 124000).
  { unfold cell_at. destruct (decide (day_key = k)) as [<-|Hne]; [rewrite lookup_singleton_eq; destruct c; cbn; lia|rewrite lookup_singleton_ne by done; lia]. }
  assert (S : sum_rows c k p <= 1000); [|unfold max_int64; lia]. clear B. pose proof (correction_small c) as C. revert E C. generalize correction_row. intros row E C.
  destruct p as [|r p]; [change (0 <= 1000); lia|]. injection E as <- E. symmetry in E. apply app_eq_nil in E as [-> _].
  rewrite sum_rows_one. unfold row_amount. case_decide; lia.
Qed.

Lemma corrected_complete : Forall complete_row (List.filter pending (t_outbox (st_system corrected))).
Proof.
  apply Forall_forall. intros r Hr w Hw. apply list_elem_of_In in Hr.
  assert (H : forallb (fun r => match event_subject (ob_Payload r) with Some w => negb (incomplete_subject (stored w)) | None => true end)
    (List.filter pending (t_outbox (st_system corrected))) = true) by (vm_compute; reflexivity).
  rewrite forallb_forall in H. specialize (H r Hr). rewrite Hw in H. by apply negb_true_iff in H.
Qed.

Lemma projection_delivers_witness :
  exists st', finished = (2, None, st') /\ t_outbox (st_system st') = [] /\ cell_at CCost (d_daily (st_data st')) day_key = 125000.
Proof.
  destruct (projection_delivers sample_times corrected 0 (fun _ => instant) corrected_reachable corrected_room) as (st' & E & Eo & H).
  - vm_compute. discriminate.
  - exact corrected_complete.
  - exists st'. split; [exact E|]. split; [rewrite Eo; vm_compute; reflexivity|].
    rewrite H; [vm_compute; reflexivity|]. vm_compute. reflexivity.
Defined.
