(* ===== verification/Programs.v ===== *)
(** Programs over a shared state: sequences of statements between which other
    threads may run, and a rely/guarantee logic for them. *)
From S2P Require Import Prelude.
Open Scope list_scope.

(** * Programs *)

Inductive program (S A : Type) : Type :=
| Return (a : A)
| Statement (B : Type) (f : S -> B * S) (k : B -> program S A).
Arguments Return {S A} a.
Arguments Statement {S A B} f k.

#[export] Instance program_ret S : MRet (program S) := fun A a => Return a.
#[export] Instance program_bind S : MBind (program S) := fun A B k =>
  fix bind (p : program S A) : program S B :=
    match p with Return a => k a | Statement f k' => Statement f (fun b => bind (k' b)) end.

(** A program with nothing running beside it. *)
Fixpoint run {S A} (p : program S A) (s : S) : A * S :=
  match p with Return a => (a, s) | Statement f k => let '(b, s') := f s in run (k b) s' end.

Definition statement {S A} (f : S -> A * S) : program S A := Statement f Return.
Definition query {S A} (f : S -> A) : program S A := statement (fun s => (f s, s)).

(** A result passed on, its error returned. *)
Definition attempting {S A B} (r : result A) (k : A -> program S (result B)) : program S (result B) :=
  match r with Ok a => k a | Err err => Return (Err err) end.

(** * What a thread keeps, whatever the others do *)

Section Logic.
Context {S : Type} {I : S -> Prop}.
Variables (Rely Guar : relation S).
Context `{!PreOrder Rely, !PreOrder Guar}.

(** From [s] on, with steps of [Rely] before every statement, the program
    keeps the invariant, makes steps of [Guar], and ends with [Q]. *)
Fixpoint safe {A} (Q : A -> S -> Prop) (p : program S A) (s : S) : Prop :=
  match p with
  | Return a => forall s', Rely s s' -> I s' -> Q a s'
  | Statement f k => forall s', Rely s s' -> I s' ->
      let '(b, s'') := f s' in I s'' /\ Guar s' s'' /\ safe Q (k b) s''
  end.

Lemma safe_later {A} Q (p : program S A) s s' : Rely s s' -> safe Q p s -> safe Q p s'.
Proof.
  intros H. destruct p as [a|B f k]; cbn; intros Hp s2 H2 Hok; [apply Hp; [by transitivity s'|done]|].
  apply (Hp s2); [by transitivity s'|done].
Qed.

Lemma safe_start {A} Q (p : program S A) s : (forall s', Rely s s' -> I s' -> safe Q p s') -> safe Q p s.
Proof.
  intros H. destruct p as [a|B f k]; cbn; intros s' Hs Hok.
  - by apply (H s' Hs Hok).
  - by apply (H s' Hs Hok).
Qed.

Lemma safe_bind {A B} (Q : B -> S -> Prop) (R : A -> S -> Prop) (p : program S A) (k : A -> program S B) s :
  safe R p s -> (forall a s', I s' -> R a s' -> safe Q (k a) s') -> safe Q (p ≫= k) s.
Proof.
  revert s. induction p as [a|C f k' IH]; intros s Hp Hk.
  - cbn in *. apply safe_start. intros s' Hs Hok. apply Hk; [done|]. by apply Hp.
  - cbn in *. intros s' Hs Hok. specialize (Hp s' Hs Hok). destruct (f s') as [b s'']. destruct Hp as (H1 & H2 & H3). eauto.
Qed.

Lemma safe_mono {A} (Q R : A -> S -> Prop) (p : program S A) s : (forall a s', I s' -> Q a s' -> R a s') -> safe Q p s -> safe R p s.
Proof.
  intros H. revert s. induction p as [a|C f k' IH]; intros s Hp; cbn in *; [eauto|].
  intros s' Hs Hok. specialize (Hp s' Hs Hok). destruct (f s') as [b s'']. destruct Hp as (H1 & H2 & H3). eauto.
Qed.

Lemma safe_query {A B} Q (f : S -> B) (k : B -> program S A) s :
  (forall s', Rely s s' -> I s' -> safe Q (k (f s')) s') -> safe Q (query f ≫= k) s.
Proof. intros H s' Hs Hok. cbn. split; [done|]. split; [reflexivity|]. by apply H. Qed.

Lemma safe_statement {A B} Q (f : S -> B * S) (k : B -> program S A) s :
  (forall s', Rely s s' -> I s' -> let '(b, s'') := f s' in I s'' /\ Guar s' s'' /\ safe Q (k b) s'') ->
  safe Q (statement f ≫= k) s.
Proof. intros H. exact H. Qed.
End Logic.
Arguments safe {S} I Rely Guar {A} Q p s.

(** A thread that nothing runs beside keeps the invariant. *)
Lemma safe_run {S} {I : S -> Prop} {Rely Guar : relation S} `{!PreOrder Rely} {A} (Q : A -> S -> Prop) (p : program S A) s :
  safe I Rely Guar Q p s -> I s -> I (run p s).2 /\ Q (run p s).1 (run p s).2.
Proof.
  revert s. induction p as [a|B f k IH]; cbn; intros s Hp Hok.
  - split; [done|]. apply Hp; [reflexivity|done].
  - specialize (Hp s ltac:(reflexivity) Hok). destruct (f s) as [b s']. destruct Hp as (Hok' & _ & Hp). by apply IH.
Qed.

Lemma run_bind {S A B} (p : program S A) (k : A -> program S B) s : run (p ≫= k) s = run (k (run p s).1) (run p s).2.
Proof. revert s. induction p as [a|C f k' IH]; intros s; cbn; [done|]. destruct (f s) as [b s']. apply IH. Qed.

(** * Programs that only read *)

Inductive reading {S A} : program S A -> Prop :=
| reading_return a : reading (Return a)
| reading_query B (f : S -> B) k : (forall b, reading (k b)) -> reading (Statement (fun s => (f s, s)) k).

Lemma reading_bind {S A B} (p : program S A) (k : A -> program S B) : reading p -> (forall a, reading (k a)) -> reading (p ≫= k).
Proof. intros Hp Hk. induction Hp as [a|C f k' _ IH]; cbn; [apply Hk|]. apply (reading_query _ f). exact IH. Qed.

Lemma reading_query_bind {S A B} (f : S -> B) (k : B -> program S A) : (forall b, reading (k b)) -> reading (query f ≫= k).
Proof. intros H. by apply (reading_query _ f). Qed.

Lemma reading_attempting {S A B} (r : result A) (k : A -> program S (result B)) : (forall a, reading (k a)) -> reading (attempting r k).
Proof. intros H. destruct r; [apply H|apply reading_return]. Qed.

Lemma reading_run {S A} (p : program S A) s : reading p -> (run p s).2 = s.
Proof. intros Hp. induction Hp as [a|B f k _ IH]; cbn; [done|]. apply IH. Qed.

(** Reading keeps what no one else can change. *)
Lemma reading_safe {S} {I : S -> Prop} (Rely Guar : relation S) `{!PreOrder Rely, !PreOrder Guar} {A} (P : S -> Prop) (p : program S A) s :
  (forall s s', I s -> Rely s s' -> P s -> P s') -> reading p -> I s -> P s -> safe I Rely Guar (fun _ => P) p s.
Proof.
  intros HP Hp. revert s. induction Hp as [a|B f k _ IH]; intros s Hok Hs; cbn; [by eauto|].
  intros s' H Hok'. split; [done|]. split; [reflexivity|]. eauto.
Qed.
