(* ===== verification/Predictions.v ===== *)
(** Media jobs at their providers ([internal/features/mediajobs]:
    [replicate.go], [together.go], [gemini.go], [custom.go], the states of
    [worker.go]): the request of each provider, and what a reply says of the
    job. JSON members are kept as the text they were sent in, as the code's
    [json.RawMessage] does. *)
From S2P Require Import Prelude GoStd Money Calendar Counters Policy Json Decode Marshal Decoded Store Grants Catalogue Connections Sha256 Pricing Routing.
Open Scope string_scope.
Open Scope Z_scope.
Open Scope list_scope.

Definition maxInputBytes : Z := Z.shiftl 1 20.
Definition maxOutputBytes : Z := Z.shiftl 4 20.

(** * Raw members *)

(** The members of an object after its brace, each with its value's text. *)
Fixpoint raw_members (fuel : nat) (s : string) : list (string * string) :=
  match fuel with
  | O => []
  | S fuel =>
    match skip_space s with
    | EmptyString => []
    | String c s' =>
      if byte_of c =? 125 then []
      else if byte_of c =? 44 then raw_members fuel s'
      else let '(name, rest) := unquote fuel s' in
           let text := skip_space (drop_bytes 1 (skip_space rest)) in
           let '(_, rest) := decode_value fuel true text in
           (name, take_bytes (String.length text - String.length rest) text) :: raw_members fuel rest
    end
  end.

(** The first byte of a value. *)
Definition first_byte (text : string) : Z := match skip_space text with String c _ => byte_of c | EmptyString => 0 end.
Definition raw_null (text : string) : bool := first_byte text =? 110.

(** [json.Unmarshal] into a [map[string]json.RawMessage]: [None] is its
    error, [Some None] the map [null] leaves. *)
Definition UnmarshalRaw (text : string) : option (option (list (string * string))) :=
  if json_valid text then
    if first_byte text =? 123
    then Some (Some (raw_members (S (String.length text)) (drop_bytes 1 (skip_space text))))
    else if raw_null text then Some None else None
  else None.

(** Reading a member: empty when there is none. *)
Definition raw_field (m : list (string * string)) (k : string) : string := default "" (find_last m k).

(** [json.Unmarshal(raw, &s)] where [s] holds [old]. *)
Definition UnmarshalString (old raw : string) : string * bool :=
  if json_valid raw then
    if first_byte raw =? 34 then (fst (unquote (S (String.length raw)) (drop_bytes 1 (skip_space raw))), true)
    else (old, raw_null raw)
  else (old, false).

(** Bytes mapped one by one by [f], but for the two encodings of a rune that
    folds to an ASCII letter: the two bytes of [two] to the letter with them,
    the Kelvin sign to [k]. *)
Fixpoint map_letters (f : Z -> Z) (two : Z * Z * Z) (k : Z) (l : list Z) : list Z :=
  match l with
  | [] => []
  | b :: l' =>
    match l' with
    | c :: rest =>
        if (b =? two.1.1) && (c =? two.1.2) then two.2 :: map_letters f two k rest
        else match rest with
             | d :: rest' => if (b =? 226) && (c =? 132) && (d =? 170) then k :: map_letters f two k rest' else f b :: map_letters f two k l'
             | [] => f b :: map_letters f two k l'
             end
    | [] => [f b]
    end
  end.

(** The names a struct's members are matched by: letters in upper case, the
    long s as the letter it folds to. *)
Definition fold_bytes : list Z -> list Z := map_letters (fun b => if in_range b 97 122 then b - 32 else b) (197, 191, 83) 75.
Definition names_field (name field : string) : bool := bool_decide (fold_bytes (bytes name) = fold_bytes (bytes field)).

(** [json.Unmarshal] into a struct: every member in turn assigned by [assign],
    which says whether it fits. *)
Definition UnmarshalStruct {A} (assign : A -> string * string -> A * bool) (zero : A) (text : string) : option A :=
  match UnmarshalRaw text with
  | None => None
  | Some None => Some zero
  | Some (Some m) =>
    let '(v, ok) := fold_left (fun acc kv => let '(v, ok) := assign (fst acc) kv in (v, snd acc && ok)) m (zero, true) in
    if (ok : bool) then Some v else None
  end.

(** [json.Compact] with the escapes of [json.Marshal]. *)
Fixpoint compact (skip : nat) (quoted escaped : bool) (s : string) : string :=
  match s with
  | EmptyString => ""
  | String c s' =>
    match skip with
    | S skip => compact skip quoted escaped s'
    | O =>
      let b := byte_of c in
      if quoted then
        if HasPrefix s (of_bytes [226; 128; 168]) then "\u2028" +:+ compact 2 true false s'
        else if HasPrefix s (of_bytes [226; 128; 169]) then "\u2029" +:+ compact 2 true false s'
        else if b =? 60 then "\u003c" +:+ compact 0 true false s'
        else if b =? 62 then "\u003e" +:+ compact 0 true false s'
        else if b =? 38 then "\u0026" +:+ compact 0 true false s'
        else String c (compact 0 (escaped || negb (b =? 34)) (negb escaped && (b =? 92)) s')
      else if is_space b then compact 0 false false s' else String c (compact 0 (b =? 34) false s')
    end
  end.

(** [json.Marshal] of a [map[string]json.RawMessage]. *)
Definition marshal_raw (m : list (string * string)) : string :=
  "{" +:+ joined_by "," (map (fun kv => json_string (fst kv) +:+ ":" +:+ compact 0 false false (snd kv)) (sorted_members (last_of_each m))) +:+ "}".

(** [jsonObject]. *)
Definition jsonObject (text : string) : bool := match UnmarshalRaw text with Some (Some _) => true | _ => false end.

(** * Identifiers *)

Definition segment_byte (c : ascii) : bool :=
  let b := byte_of c in
  in_range b 97 122 || in_range b 65 90 || in_range b 48 57 || (b =? 45) || (b =? 95) || (b =? 46).

Definition safeSegment (value : string) : bool :=
  if (value =s "") || (value =s ".") || (value =s "..") || (200 <? str_len value) then false
  else str_forall segment_byte value.

Definition safeProviderPath (value : string) : bool :=
  if (value =s "") || (500 <? str_len value) || HasPrefix value "/" || HasSuffix value "/" then false
  else forallb safeSegment (Split value "/"%char).

Definition validCustomJobID (value : string) : bool :=
  (TrimSpace value =s value) && negb (value =s "") && (str_len value <=? 500)
  && negb (ContainsAny value (of_bytes [13; 10; 0])).

Definition splitReplicateModel (value : string) : option (string * string) :=
  match Split value "/"%char with
  | [owner; name] => if safeSegment owner && safeSegment name then Some (owner, name) else None
  | _ => None
  end.

(** * What a provider says *)

Record providerPrediction := mkPrediction { pd_ID : string; pd_Status : string; pd_Output : string; pd_Cost : option Z }.

(** The failures of a provider call: a status, a network failure, or another. *)
Inductive call_error := HTTPError (status : Z) | NetworkError | OtherError (text : string).

Definition retryableProviderError (err : call_error) : bool :=
  match err with
  | HTTPError status => (status =? 408) || (status =? 425) || (status =? 429) || (500 <=? status)
  | NetworkError => true
  | OtherError _ => false
  end.

(** What becomes of a request: an address that cannot be built, no answer
    (every error of [http.Client.Do] is a [net.Error]), an answer cut short,
    or a status and a body. *)
Inductive reply := Unsent | NoReply | CutReply (network : bool) | Reply (status : Z) (body : string).

Definition called (A : Type) : Type := call_error + A.
#[export] Instance called_ret : MRet called := fun A a => inr a.
#[export] Instance called_bind : MBind called := fun A B k m => match m with inr a => k a | inl err => inl err end.
Definition decline {A} (text : string) : called A := inl (OtherError text).
Definition demand (b : bool) (text : string) : called unit := if b then inr tt else decline text.

(** The body of a reply, at most [maxOutputBytes] long. *)
Definition reply_body (r : reply) : called (Z * string) :=
  match r with
  | Unsent => decline "invalid provider path"
  | NoReply => inl NetworkError
  | CutReply network => if network then inl NetworkError else decline "unexpected EOF"
  | Reply status body =>
      _ ← demand (str_len body <=? maxOutputBytes) "provider response exceeds 4 MiB"; inr (status, body)
  end.

Definition successful (status : Z) : called unit :=
  if (status <? 200) || (300 <=? status) then inl (HTTPError status) else inr tt.

(** ** Replicate *)

Definition assign_prediction (p : providerPrediction) (kv : string * string) : providerPrediction * bool :=
  let '(name, raw) := kv in
  if names_field name "id" then let '(id, ok) := UnmarshalString (pd_ID p) raw in (mkPrediction id (pd_Status p) (pd_Output p) (pd_Cost p), ok)
  else if names_field name "status" then let '(st, ok) := UnmarshalString (pd_Status p) raw in (mkPrediction (pd_ID p) st (pd_Output p) (pd_Cost p), ok)
  else if names_field name "output" then (mkPrediction (pd_ID p) (pd_Status p) raw (pd_Cost p), true)
  else (p, true).

(** [callReplicate], from the reply on. *)
Definition callReplicate (r : reply) : called providerPrediction :=
  '(status, raw) ← reply_body r;
  _ ← successful status;
  match UnmarshalStruct assign_prediction (mkPrediction "" "" "" None) raw with
  | Some p =>
      _ ← demand (safeSegment (pd_ID p)) "provider returned an invalid prediction";
      inr (mkPrediction (pd_ID p) (pd_Status p) (if pd_Output p =s "" then "null" else pd_Output p) None)
  | None => decline "provider returned an invalid prediction"
  end.

Definition replicateCreateRequest (model input : string) : called (string * string) :=
  if HasPrefix model "version:" then
    let version := TrimPrefix model "version:" in
    _ ← demand (safeSegment version) "invalid Replicate version model ID";
    inr ("predictions", marshal_raw [("input", input); ("version", json_string version)])
  else if HasPrefix model "deployment:" then
    match splitReplicateModel (TrimPrefix model "deployment:") with
    | Some (owner, name) => inr ("deployments/" +:+ owner +:+ "/" +:+ name +:+ "/predictions", marshal_raw [("input", input)])
    | None => decline "invalid Replicate deployment model ID"
    end
  else
    match splitReplicateModel model with
    | Some (owner, name) => inr ("models/" +:+ owner +:+ "/" +:+ name +:+ "/predictions", marshal_raw [("input", input)])
    | None => decline "invalid Replicate model ID"
    end.

(** ** Together *)

(** [togetherCost]: the first cost found, in the envelope or its output. *)
Definition nested_cost (raw : string) : string :=
  match UnmarshalRaw raw with Some (Some m) => raw_field m "cost" | _ => "" end.
Definition togetherCost (envelope : list (string * string)) : option Z :=
  let raw := raw_field envelope "cost" in
  let raw := if raw =s "" then nested_cost (raw_field envelope "output") else raw in
  let raw := if raw =s "" then nested_cost (raw_field envelope "outputs") else raw in
  if raw =s "" then None
  else match ParseUSD (TrimRight (TrimLeft raw quote_char) quote_char) with Ok cost => Some cost | Err _ => None end.

(** [callTogether], from the reply on. *)
Definition callTogether (r : reply) : called providerPrediction :=
  '(status, raw) ← reply_body r;
  _ ← successful status;
  match UnmarshalRaw raw with
  | None => decline "provider returned an invalid video job"
  | Some m =>
    let envelope := default [] m in
    let id := fst (UnmarshalString "" (raw_field envelope "id")) in
    let st := fst (UnmarshalString "" (raw_field envelope "status")) in
    _ ← demand (safeSegment id && negb (st =s "")) "provider returned an invalid video job";
    let output :=
      if negb (raw_field envelope "output" =s "") then raw_field envelope "output"
      else if negb (raw_field envelope "outputs" =s "") then raw_field envelope "outputs"
      else if st =s "completed" then raw else "null" in
    inr (mkPrediction id st output (togetherCost envelope))
  end.

(** The body [createTogetherVideo] sends. *)
Definition togetherVideoRequest (upstreamID input : string) : called string :=
  match UnmarshalRaw input with
  | Some (Some m) => inr (marshal_raw (m ++ [("model", json_string upstreamID)]))
  | _ => decline "media job input is invalid"
  end.

(** ** Gemini *)

Record geminiOperation := mkOperation { go_Name : string; go_Done : bool; go_Error : string; go_Response : string }.

Definition assign_operation (o : geminiOperation) (kv : string * string) : geminiOperation * bool :=
  let '(name, raw) := kv in
  if names_field name "name" then
    let '(v, ok) := UnmarshalString (go_Name o) raw in (mkOperation v (go_Done o) (go_Error o) (go_Response o), ok)
  else if names_field name "done" then
    if first_byte raw =? 116 then (mkOperation (go_Name o) true (go_Error o) (go_Response o), true)
    else if first_byte raw =? 102 then (mkOperation (go_Name o) false (go_Error o) (go_Response o), true)
    else (o, raw_null raw)
  else if names_field name "error" then (mkOperation (go_Name o) (go_Done o) raw (go_Response o), true)
  else if names_field name "response" then (mkOperation (go_Name o) (go_Done o) (go_Error o) raw, true)
  else (o, true).

(** [callGeminiVideo], from the reply on. *)
Definition callGeminiVideo (r : reply) : called providerPrediction :=
  '(status, raw) ← reply_body r;
  _ ← successful status;
  match UnmarshalStruct assign_operation (mkOperation "" false "" "") raw with
  | Some o =>
    _ ← demand (safeProviderPath (go_Name o)) "provider returned an invalid video operation";
    if negb (go_Done o) then inr (mkPrediction (go_Name o) "processing" "null" None)
    else if negb (go_Error o =s "") && negb (go_Error o =s "null") then inr (mkPrediction (go_Name o) "failed" "null" None)
    else _ ← demand (negb (go_Response o =s "")) "provider returned an invalid video result";
         inr (mkPrediction (go_Name o) "succeeded" (go_Response o) None)
  | None => decline "provider returned an invalid video operation"
  end.

Definition nonempty_array (raw : string) : bool :=
  (first_byte raw =? 91) && negb (first_byte (drop_bytes 1 (skip_space raw)) =? 93).

(** [geminiVideoRequest]: the input as it is, or as the only instance. *)
Definition geminiVideoRequest (input : string) : called string :=
  match UnmarshalRaw input with
  | Some (Some m) =>
    let instances := raw_field m "instances" in
    if negb (instances =s "") then
      if nonempty_array instances then inr (marshal_raw m) else decline "media job input is invalid"
    else
      let object := List.filter (fun kv => negb (fst kv =s "parameters")) m in
      match object with
      | [] => decline "media job input is invalid"
      | _ =>
        let instance := "[" +:+ marshal_raw object +:+ "]" in
        let parameters := raw_field m "parameters" in
        inr (marshal_raw (("instances", instance) :: (if parameters =s "" then [] else [("parameters", parameters)])))
      end
  | _ => decline "media job input is invalid"
  end.

(** ** Custom providers *)

(** [decodeCustomMediaPrediction]. *)
Definition custom_cost (raw : string) : option Z :=
  if raw =s "" then None
  else let '(value, ok) := UnmarshalString "" raw in
       let value := if (ok : bool) then value else TrimRight (TrimLeft raw quote_char) quote_char in
       match ParseUSD value with Ok cost => Some cost | Err _ => None end.

Definition decodeCustomMediaPrediction (raw : string) : called providerPrediction :=
  match UnmarshalRaw raw with
  | Some (Some envelope) =>
    let id := fst (UnmarshalString "" (raw_field envelope "id")) in
    let st := fst (UnmarshalString "" (raw_field envelope "status")) in
    _ ← demand (validCustomJobID id && negb (st =s "")) "custom provider returned an invalid media job";
    let output := raw_field envelope "output" in
    inr (mkPrediction id st (if output =s "" then "null" else output) (custom_cost (raw_field envelope "cost_usd")))
  | _ => decline "custom provider returned an invalid media job"
  end.

(** * Provider states *)

(** [strings.ToLower] as far as its ASCII letters go; the dotted capital I
    and the Kelvin sign have one. *)
Definition lower_bytes : list Z -> list Z := map_letters (fun b => if in_range b 65 90 then b + 32 else b) (196, 176, 105) 107.

Inductive JobState := JQueued | JSubmitting | JStarting | JProcessing | JCanceling | JSucceeded | JFailed | JCanceled | JInterrupted.
#[export] Instance JobState_eq_dec : EqDecision JobState. Proof. solve_decision. Defined.

(** [normalizeProviderState]: the state and whether it is final; [None] is
    the empty state. *)
Definition normalizeProviderState (status : string) : option (JobState * bool) :=
  let s := of_bytes (lower_bytes (bytes (TrimSpace status))) in
  if s =s "starting" then Some (JStarting, false)
  else if s =s "processing" then Some (JProcessing, false)
  else if s =s "queued" then Some (JStarting, false)
  else if s =s "in_progress" then Some (JProcessing, false)
  else if (s =s "succeeded") || (s =s "completed") then Some (JSucceeded, true)
  else if (s =s "failed") || (s =s "aborted") then Some (JFailed, true)
  else if (s =s "canceled") || (s =s "cancelled") then Some (JCanceled, true)
  else None.
