(* ===== verification/Attempts.v ===== *)
(** What the calls of the usage service do to the attempts of others: an
    attempt keeps its snapshot, one that ended stays ended, and only the call
    that marks it sets it running. The clients of the service, which keep the
    identifier of an attempt across calls, rely on it. *)
From S2P Require Import Prelude GoStd Money Calendar Counters Policy Json Store Pricing PolicyService PathMatch Grants Admission Settlement Reservations Lifecycle Booking Reprice Reachable.

(** Sent to the provider and not yet ended. *)
Definition running (a : AttemptRow) : bool := match at_State a with AtDispatching | AtStreaming => true | _ => false end.

(** [a'] is [a] later on. *)
Record later (a a' : AttemptRow) : Prop := mkLater {
  lt_snapshot : at_Snapshot a' = at_Snapshot a; lt_live : live a' -> live a }.

(** The attempt of a settlement in the ledger has ended. *)
Definition closed (s : db) (l : LedgerRow) : Prop :=
  ld_Type l = EnSettlement -> exists a, t_attempts s !! ld_Attempt l = Some a /\ ~ live a.

(** Attempts, the operations of requests and the settlements of the ledger,
    from [s] to [s']; the attempts set running are among [P]. *)
Record follows (P : string -> Prop) (s s' : db) : Prop := mkFollows {
  fw_attempts : forall id a, t_attempts s !! id = Some a -> exists a', t_attempts s' !! id = Some a' /\ later a a';
  fw_running : forall id a', t_attempts s' !! id = Some a' -> running a' = true -> P id \/ exists a, t_attempts s !! id = Some a /\ running a = true;
  fw_requests : forall id r, t_requests s !! id = Some r -> exists r', t_requests s' !! id = Some r' /\ rq_Operation r' = rq_Operation r;
  fw_ledger : forall k l, t_ledger s' !! k = Some l -> t_ledger s !! k = Some l \/ closed s' l }.

Definition nobody : string -> Prop := fun _ => False.

Lemma later_refl a : later a a.
Proof. by split. Qed.
Lemma later_trans a b c : later a b -> later b c -> later a c.
Proof. intros [E1 L1] [E2 L2]. split; [congruence|auto]. Qed.

Lemma closed_later P s s' l : follows P s s' -> closed s l -> closed s' l.
Proof.
  intros F C T. destruct (C T) as (a & Ha & Hl). destruct (fw_attempts P s s' F _ a Ha) as (a' & Ha' & L).
  exists a'. split; [done|]. intros H. by apply Hl, (lt_live _ _ L).
Qed.

#[export] Instance follows_preorder P : PreOrder (follows P).
Proof.
  split; [intros s; split; eauto using later_refl|]. intros s1 s2 s3 F1 F2. split.
  - intros id a (b & Hb & L)%(fw_attempts P s1 s2 F1). destruct (fw_attempts P s2 s3 F2 id b Hb) as (c & Hc & L'). eauto using later_trans.
  - intros id a Ha Hr. destruct (fw_running P s2 s3 F2 id a Ha Hr) as [?|(b & Hb & Hr')]; [auto|]. by apply (fw_running P s1 s2 F1 id b).
  - intros id r (q & Hq & E)%(fw_requests P s1 s2 F1). destruct (fw_requests P s2 s3 F2 id q Hq) as (u & Hu & E'). exists u. split; [done|congruence].
  - intros k l [H|H]%(fw_ledger P s2 s3 F2); [|auto]. apply (fw_ledger P s1 s2 F1) in H as [H|H]; [auto|right]. by eapply closed_later.
Qed.

Lemma follows_mono (P Q : string -> Prop) s s' : (forall id, P id -> Q id) -> follows P s s' -> follows Q s s'.
Proof.
  intros H F. split; [apply (fw_attempts P s s' F)| |apply (fw_requests P s s' F)|apply (fw_ledger P s s' F)].
  intros id a Ha Hr. destruct (fw_running P s s' F id a Ha Hr); auto.
Qed.

Lemma follows_nobody Q s s' : follows nobody s s' -> follows Q s s'.
Proof. apply follows_mono. intros id []. Qed.

Notation tables := (fun s => (t_attempts s, t_requests s, t_ledger s)) (only parsing).

Lemma follows_frame P s s' : tables s' = tables s -> follows P s s'.
Proof. intros [= Ea Er El]. split; [rewrite Ea|rewrite Ea|rewrite Er|rewrite El]; eauto using later_refl. Qed.

Section Steps.
Variable P : string -> Prop.

Lemma evolves_frame {A} (m : tx db A) : keeps tables m -> evolves (follows P) m.
Proof. apply evolves_keeps. apply follows_frame. Qed.

Lemma evolves_attempt id c f :
  (forall a, c a = true -> later a (f a) /\ (running (f a) = true -> P id \/ running a = true)) ->
  evolves (follows P) (update_row t_attempts set_attempts id c f).
Proof.
  intros Hf s n s' H. apply update_row_Ok in H as [(a & Ha & Hc & _ & ->)|(_ & -> & _)]; [|reflexivity].
  destruct (Hf a Hc) as [Hl Hr]. split; cbn [t_attempts t_requests t_ledger set_attempts]; [| |eauto..].
  - intros i b Hb. destruct (decide (i = id)) as [->|Hn].
    + rewrite lookup_insert_eq. assert (b = a) as -> by congruence. eauto.
    + rewrite lookup_insert_ne by done. eauto using later_refl.
  - intros i b [[<- <-]|[_ Hb]]%lookup_insert_Some R; [|eauto]. destruct (Hr R); eauto.
Qed.

Lemma evolves_request id c f : (forall r, rq_Operation (f r) = rq_Operation r) -> evolves (follows P) (update_row t_requests set_requests id c f).
Proof.
  intros Hf s n s' H. apply update_row_Ok in H as [(a & Ha & _ & _ & ->)|(_ & -> & _)]; [|reflexivity].
  split; cbn [t_attempts t_requests t_ledger set_requests]; [eauto using later_refl|eauto| |eauto].
  intros i b Hb. destruct (decide (i = id)) as [->|Hn].
  - rewrite lookup_insert_eq. assert (b = a) as -> by congruence. eauto.
  - rewrite lookup_insert_ne by done. eauto.
Qed.

Lemma evolves_requests c f : (forall r, rq_Operation (f r) = rq_Operation r) -> evolves (follows P) (update_rows t_requests set_requests c f).
Proof.
  intros Hf s u s' H%modify_Ok. subst s'. split; cbn [t_attempts t_requests t_ledger set_requests]; [eauto using later_refl|eauto| |eauto].
  intros i r Hr. rewrite map_lookup_imap, Hr. cbn. eexists. split; [done|]. by destruct (c i r).
Qed.

Lemma evolves_new_attempt id a : running a = false -> evolves (follows P) (insert_row t_attempts set_attempts id a).
Proof.
  intros Hr s u s' [Hn ->]%insert_row_Ok. split; cbn [t_attempts t_requests t_ledger set_attempts]; [| |eauto..].
  - intros i b Hb. rewrite lookup_insert_ne by congruence. eauto using later_refl.
  - intros i b [[<- <-]|[_ Hb]]%lookup_insert_Some R; [congruence|eauto].
Qed.

Lemma evolves_insert_request id r : evolves (follows P) (insert_row t_requests set_requests id r).
Proof.
  intros s u s' [Hn ->]%insert_row_Ok. split; cbn [t_attempts t_requests t_ledger set_requests]; [eauto using later_refl|eauto| |eauto].
  intros i b Hb. rewrite lookup_insert_ne by congruence. eauto.
Qed.

Lemma evolves_new_ledger k row : ld_Type row <> EnSettlement -> evolves (follows P) (insert_ledger k row).
Proof.
  intros Ht s u s' [Hn ->]%insert_ledger_Ok. split; cbn [t_attempts t_requests t_ledger set_ledger]; [eauto using later_refl|eauto|eauto|].
  intros k' l [[<- <-]|[_ H]]%lookup_insert_Some; [right; by intros ?|by left].
Qed.

Lemma evolves_for_each {X} (f : X -> tx db unit) l : (forall x, evolves (follows P) (f x)) -> evolves (follows P) (for_each f l).
Proof.
  intros Hf. induction l as [|x l IH]; cbn [for_each].
  - intros s u s' [_ <-]%tx_ret_Ok. reflexivity.
  - apply evolves_bind; [apply _|apply Hf|intros _; exact IH].
Qed.

(** An attempt that ends, and one whose state stays. *)
Lemma ended_attempt p a a' : at_Snapshot a' = at_Snapshot a -> live_state (at_State a') = false ->
  later a a' /\ (running a' = true -> p \/ running a = true).
Proof. intros E L. split; [split; [done|unfold live; congruence]|]. unfold running. by destruct (at_State a'). Qed.

Lemma same_attempt_state p a a' : at_Snapshot a' = at_Snapshot a -> at_State a' = at_State a ->
  later a a' /\ (running a' = true -> p \/ running a = true).
Proof. intros E L. split; [split; [done|unfold live; congruence]|]. unfold running. rewrite L. auto. Qed.
End Steps.

#[export] Hint Resolve evolves_attempt evolves_request evolves_requests evolves_new_attempt evolves_insert_request evolves_for_each : follows.

(** [follows_tac] goes through the statements of a transaction. *)
Ltac follows_tac :=
  repeat (intros; cbv zeta; first
    [ solve [apply evolves_frame; keeps_tac]
    | solve [auto with follows]
    | apply evolves_request; intros; reflexivity
    | apply evolves_requests; intros; reflexivity
    | apply evolves_new_attempt; reflexivity
    | apply evolves_new_ledger; discriminate
    | apply evolves_insert_request
    | apply evolves_attempt; intros; solve [by apply same_attempt_state | by apply ended_attempt]
    | apply evolves_for_each
    | apply evolves_bind; [apply _| |intros ?]
    | match goal with
      | |- evolves _ (match ?x with _ => _ end) => destruct x
      | |- evolves _ (if ?b then _ else _) => destruct b
      | |- evolves _ (let '(_, _) := ?x in _) => destruct x
      end ]).

Lemma updateQuotaPeriod_tables p t c r : keeps tables (updateQuotaPeriod p t c r).
Proof. unfold updateQuotaPeriod. keeps_tac. Qed.
Lemma wrap_tx_tables {A} prefix (m : tx db A) : keeps tables m -> keeps tables (wrap_tx prefix m).
Proof. intros Hm s a s' H%wrap_tx_Ok. by eapply Hm. Qed.
Lemma or_fail_tables {A} err (m : tx db A) : keeps tables m -> keeps tables (or_fail err m).
Proof. intros Hm s a s'. unfold or_fail. destruct (m s) as [[b s1]|] eqn:E; [|done]. intros [= -> ->]. by eapply Hm. Qed.
#[local] Hint Resolve updateQuotaPeriod_tables wrap_tx_tables or_fail_tables : keeps.
Lemma settle_reservation_tables o n p t a item : keeps tables (settle_reservation o n p t a item).
Proof. unfold settle_reservation, set_reservation_state. destruct item as [? [? ?]]. keeps_tac. Qed.
#[local] Hint Resolve settle_reservation_tables : keeps.
Lemma settle_item_tables t u tk c x : keeps tables (settle_item t u tk c x).
Proof. unfold settle_item, set_reservation_state. keeps_tac. Qed.
Lemma reconcile_item_tables t tk c x : keeps tables (reconcile_item t tk c x).
Proof. unfold reconcile_item, set_reservation_state. keeps_tac. Qed.
Lemma release_tables id t : keeps tables (releaseReservations id t).
Proof. unfold releaseReservations, release_item, set_reservation_state. keeps_tac. Qed.
Lemma correct_tables id d a t : keeps tables (reconcileSpendPeriods id d a t).
Proof. unfold reconcileSpendPeriods, spend_item, settle_uncertain. keeps_tac. Qed.
Lemma applyPlan_tables e r a t x : keeps tables (applyPlan e r a t x).
Proof. unfold applyPlan, insert_lease, upsert_bucket, upsert_period, insert_reservation. keeps_tac. Qed.
Lemma record_assessment_tables tok id snap i c t : keeps tables (record_assessment tok id snap i c t).
Proof. unfold record_assessment, insert_assessment. keeps_tac. Qed.
#[local] Hint Resolve settle_item_tables reconcile_item_tables release_tables correct_tables applyPlan_tables record_assessment_tables : keeps.

(** * The operations *)

Section Operations.
Variable P : string -> Prop.

Lemma admit_follows e i n : evolves (follows P) (admit_tx e i n).
Proof. unfold admit_tx, effectiveTimeTxAtLeast, attempt_ordinal, requireOutboxCapacity, book_request, insert_attempt. follows_tac. Qed.

Lemma end_or_continue_follows final id st t : evolves (follows P) (end_or_continue final id st t).
Proof. unfold end_or_continue, delete_leases, set_request_state. follows_tac. Qed.

(** A first settlement ends its attempt and records it. *)
Lemma book_settlement_follows e id i st us a r cost tokens s u s' :
  live_state st = false -> t_attempts s !! id = Some a -> book_settlement e id i st us a r cost tokens s = Ok (u, s') ->
  follows P s s' /\ exists a', t_attempts s' !! id = Some a' /\ ~ live a'.
Proof.
  intros Hst Ha H. unfold book_settlement in H. apply tx_bind_Ok in H as (? & s1 & Hl & H). apply insert_ledger_Ok in Hl as [Hn ->].
  apply tx_bind_Ok in H as (items & s1 & Hr & H). apply reads_Ok in Hr as [_ ->].
  apply tx_bind_Ok in H as (? & s1 & Hloop & H).
  assert (keeps tables (for_each (settle_item (now e 1) (bool_decide (us = UsUnknown)) tokens cost) items)) as Hk by keeps_tac.
  apply Hk in Hloop. injection Hloop as E1 E2 E3. cbn in E1, E2, E3.
  apply tx_bind_Ok in H as (? & s2 & Hr & H). apply require_Ok in Hr as [_ ->].
  apply tx_bind_Ok in H as (? & s2 & Hu & H). eapply update_row_always in Hu; [|by rewrite E1].
  match type of H with ?m s2 = _ => assert (evolves (follows P) m) as Hm end.
  { apply evolves_bind; [apply _|follows_tac|]. intros _. apply evolves_bind; [apply _|unfold delete_leases; follows_tac|].
    intros _. apply evolves_bind; [apply _|apply end_or_continue_follows|intros _; follows_tac]. }
  apply Hm in H. clear Hm.
  assert (Hend : exists a', t_attempts s2 !! id = Some a' /\ ~ live a').
  { subst s2. cbn. rewrite lookup_insert_eq. eexists. split; [done|]. unfold live. cbn. congruence. }
  split.
  - transitivity s2; [|exact H]. subst s2. split; cbn [t_attempts t_requests t_ledger set_attempts].
    + intros j b Hb. rewrite E1. destruct (decide (j = id)) as [->|Hne].
      * rewrite lookup_insert_eq. assert (b = a) as -> by congruence. eexists. split; [done|]. by apply (ended_attempt False).
      * rewrite lookup_insert_ne by done. eauto using later_refl.
    + rewrite E1. intros j b [[<- <-]|[_ Hb]]%lookup_insert_Some R; [|eauto]. by apply (ended_attempt False a) in R as [[]|R]; eauto.
    + rewrite E2. eauto.
    + rewrite E3. intros k l [[<- <-]|[_ Hl]]%lookup_insert_Some; [right|by left]. intros _. exact Hend.
  - destruct Hend as (a' & Ha' & Hd). destruct (fw_attempts P s2 s' H id a' Ha') as (a2 & Ha2 & L). exists a2. split; [done|].
    intros Hl. by apply Hd, (lt_live _ _ L).
Qed.

(** A settlement that goes through is new, or repeats one in the ledger. *)
Lemma settle_tx_cases e id i st us s u s' : live_state st = false -> settle_tx e id i st us s = Ok (u, s') ->
  follows P s s' /\
  ((exists a', t_attempts s' !! id = Some a' /\ ~ live a') \/
   (exists l, t_ledger s !! si_IdempotencyKey i = Some l /\ ld_Attempt l = id /\ ld_Type l = EnSettlement)).
Proof.
  intros Hst H. unfold settle_tx in H.
  apply tx_bind_Ok in H as (a & s1 & Hg & H). apply get_row_Ok in Hg as [Ha ->].
  apply tx_bind_Ok in H as (? & s1 & Hg & H). apply require_Ok in Hg as [Hw ->].
  apply tx_bind_Ok in H as (s0 & s1 & Hg & H). apply reads_Ok in Hg as [-> ->].
  destruct (t_ledger s !! si_IdempotencyKey i) as [entry|] eqn:El.
  - apply lift_Ok in H as [Hr ->]. split; [reflexivity|right]. exists entry. split; [done|].
    unfold replay_settlement in Hr. apply result_bind_Ok in Hr as (tokens & _ & Hr). apply ensure_Ok in Hr.
    rewrite !andb_true_iff in Hr. destruct Hr as [[[[H1 H2] _] _] _]. split; [by apply String.eqb_eq|by apply bool_decide_eq_true in H2].
  - apply tx_bind_Ok in H as ([a0 r] & s1 & Hg & H). apply get_row_Ok in Hg as [_ ->].
    apply tx_bind_Ok in H as (? & s1 & Hg & H). apply require_Ok in Hg as [_ ->].
    apply tx_bind_Ok in H as (cost & s1 & Hg & H). apply lift_Ok in Hg as [Hcost ->].
    apply tx_bind_Ok in H as (tokens & s1 & Hg & H). apply lift_Ok in Hg as [Htok ->].
    destruct (book_settlement_follows _ _ _ _ _ _ _ _ _ _ _ _ Hst Ha H) as [F E]. auto.
Qed.

Lemma settle_follows e id i st us : live_state st = false -> evolves (follows P) (settle_tx e id i st us).
Proof. intros Hst s u s' H. by destruct (settle_tx_cases _ _ _ _ _ _ _ _ Hst H). Qed.

Lemma cancel_follows e id : evolves (follows P) (cancel_tx e id).
Proof. unfold cancel_tx, delete_leases, set_request_state. follows_tac. Qed.

Lemma close_failed_follows e id : evolves (follows P) (close_failed_tx e id).
Proof. unfold close_failed_tx, delete_leases. follows_tac. Qed.

Lemma finalize_follows e id st : evolves (follows P) (finalize_request_tx e id st).
Proof. unfold finalize_request_tx, delete_request_leases. follows_tac. Qed.

Lemma reconcile_follows e actor id i input output us tokens : evolves (follows P) (reconcile_tx e actor id i input output us tokens).
Proof. unfold reconcile_tx, requireOutboxCapacity, book_reconciliation. follows_tac. Qed.

Lemma recover_follows e : evolves (follows P) (recover_tx e).
Proof. unfold recover_tx. follows_tac. intros [? [? [? ?]]]. unfold recover_item, set_request_state. follows_tac. Qed.

Lemma repair_follows e : evolves (follows P) (repair_tx e).
Proof.
  unfold repair_tx. apply evolves_bind; [apply _|follows_tac|]. intros ids. induction ids as [|id ids IH]; cbn [repair_all]; [follows_tac|].
  apply evolves_bind; [apply _| |intros ?; apply evolves_bind; [apply _|done|follows_tac]].
  unfold repair_request, delete_request_leases. follows_tac.
Qed.

Lemma adjust_follows e actor id d r k : evolves (follows P) (adjust_tx e actor id d r k).
Proof. unfold adjust_tx, requireOutboxCapacity, restate. follows_tac. Qed.

Lemma reprice_follows e actor input from to : evolves (follows P) (apply_reprice_tx e actor input from to).
Proof.
  assert (forall actor items n a d, evolves (follows P) (apply_reprice_all e actor n a d items)) as H.
  { intros actor0. induction items as [|i items IH]; intros; cbn [apply_reprice_all]; [follows_tac|].
    apply evolves_bind; [apply _| |intros ?; follows_tac; apply IH].
    unfold apply_reprice_item, insert_or_ignore_assessment, restate. follows_tac. }
  unfold apply_reprice_tx, requireOutboxCapacity, insert_job. follows_tac.
Qed.

Lemma MarkDispatching_follows id s : P id -> follows P s (snd (MarkDispatching id s)).
Proof.
  intros Hp. apply (evolves_commit (follows _)). unfold mark_attempt. apply evolves_bind; [apply _| |intros ?; follows_tac].
  apply evolves_attempt. intros a Ha%bool_decide_eq_true. split; [split; [done|]|auto]. unfold live. by rewrite Ha.
Qed.

Lemma MarkStreaming_follows id s : follows P s (snd (MarkStreaming id s)).
Proof.
  apply (evolves_commit (follows _)). unfold mark_attempt. apply evolves_bind; [apply _| |intros ?; follows_tac].
  apply evolves_attempt. intros a Ha%bool_decide_eq_true. unfold with_attempt_state. split; [split; [done|]|]; unfold live, running; rewrite Ha; auto.
Qed.
End Operations.

(** The attempts an operation sets running. *)
Definition marks (op : operation) (id : string) : Prop := match op with OpMarkDispatching id' => id = id' | _ => False end.

Lemma Settle_follows P e id i s : follows P s (snd (Settle e id i s)).
Proof.
  unfold Settle. destruct (check_settlement _ _) as [[st us]|] eqn:E; [|reflexivity]. apply check_settlement_dead in E.
  apply (evolves_commit (follows _)). by apply settle_follows.
Qed.

Lemma CancelBeforeDispatch_follows P e id s : follows P s (snd (CancelBeforeDispatch e id s)).
Proof. apply (evolves_commit (follows _)), cancel_follows. Qed.

Lemma Admit_follows P e i s : follows P s (snd (Admit e i s)).
Proof.
  unfold Admit. destruct (invalid_admission i); [reflexivity|]. destruct (checkedAdd _); [|reflexivity].
  apply (evolves_commit (follows _)), admit_follows.
Qed.

Lemma create_policy_tables e actor i : keeps tables (create_policy_tx e actor i).
Proof. unfold create_policy_tx. keeps_tac. Qed.
Lemma update_policy_tables e actor id r l u en : keeps tables (update_policy_tx e actor id r l u en).
Proof. unfold update_policy_tx. keeps_tac. Qed.
Lemma create_price_tables e actor i a b c d f t : keeps tables (create_price_tx e actor i a b c d f t).
Proof. unfold create_price_tx, close_price. keeps_tac. Qed.

(** Every call of the service leaves the attempts where they were or later. *)
Lemma perform_follows parse_time e op s : follows (marks op) s (perform parse_time e op s).
Proof.
  destruct op; cbn [perform].
  - apply Admit_follows.
  - by apply MarkDispatching_follows.
  - apply MarkStreaming_follows.
  - apply Settle_follows.
  - apply CancelBeforeDispatch_follows.
  - apply (evolves_commit (follows _)), close_failed_follows.
  - apply (evolves_commit (follows _)), finalize_follows.
  - unfold ReconcileUnknown. destruct (_ ≫= _) as [[[[input output] us] tokens]|]; [|reflexivity].
    apply (evolves_commit (follows _)), reconcile_follows.
  - apply (evolves_commit (follows _)), recover_follows.
  - apply (evolves_commit (follows _)), repair_follows.
  - unfold ApplyReprice. destruct (_ || _); [reflexivity|]. destruct (repriceRange _ _) as [[from to]|]; [|reflexivity].
    apply (evolves_commit (follows _)), reprice_follows.
  - unfold AdjustCost. destruct (_ || _); [reflexivity|]. destruct (parseSignedUSD usd) as [d|]; [|reflexivity].
    destruct (d =? 0); [reflexivity|]. apply (evolves_commit (follows _)), adjust_follows.
  - apply follows_frame. unfold CreatePolicy. destruct (validatePolicyInput i) as [j|]; [|done].
    pose proof (keeps_commit tables _ s (create_policy_tables e actor j)) as E. destruct (commit _ s) as [[[? ?]|] s']; exact E.
  - apply follows_frame. unfold UpdatePolicy.
    pose proof (keeps_commit tables _ s (update_policy_tables e actor id revision limit usd enabled)) as E. destruct (commit _ s) as [[?|] s']; exact E.
  - apply follows_frame. unfold CreatePrice. match goal with |- context [match ?c with Ok _ => _ | Err _ => _ end] => destruct c as [[[[[a b] c0] d] [f t]]|] end; [|done].
    pose proof (keeps_commit tables _ s (create_price_tables e actor i a b c0 d f t)) as E. destruct (commit _ s) as [[[? ?]|] s']; exact E.
  - apply (evolves_commit (follows _)). unfold effectiveTimeTx, effectiveTimeTxAtLeast. follows_tac.
Qed.

(** * What a successful call leaves *)

(** Every settlement of the ledger is of an attempt that ended. *)
Definition settlements_closed (s : db) : Prop := forall k l, t_ledger s !! k = Some l -> closed s l.

Lemma settlements_closed_later P s s' : follows P s s' -> settlements_closed s -> settlements_closed s'.
Proof. intros F C k l [H|H]%(fw_ledger P s s' F); [|done]. eapply closed_later; [exact F|by eapply C]. Qed.

Lemma Settle_ends e id i s u s' : settlements_closed s -> Settle e id i s = (Ok u, s') ->
  exists a, t_attempts s' !! id = Some a /\ ~ live a.
Proof.
  intros C H. unfold Settle in H. destruct (check_settlement _ _) as [[st us]|] eqn:E; [|done]. apply check_settlement_dead in E.
  unfold commit in H. destruct (settle_tx _ _ _ _ _ s) as [[u' s1]|] eqn:Es; [|done]. injection H as _ <-.
  destruct (settle_tx_cases nobody _ _ _ _ _ _ _ _ E Es) as [F [D|(l & Hl & <- & Ht)]]; [done|].
  destruct (closed_later _ _ _ _ F (C _ _ Hl) Ht) as (a & Ha & Hd). eauto.
Qed.

Lemma CancelBeforeDispatch_ends e id s u s' : CancelBeforeDispatch e id s = (Ok u, s') ->
  exists a, t_attempts s' !! id = Some a /\ ~ live a.
Proof.
  intros H. unfold CancelBeforeDispatch, commit in H. destruct (cancel_tx e id s) as [[u' s1]|] eqn:E; [|done]. injection H as _ <-.
  unfold cancel_tx in E. apply tx_bind_Ok in E as ([a r] & s0 & Hg & E). apply get_row_Ok in Hg as [Hj ->].
  destruct (attempt_join s id) as [[a0 r0]|] eqn:Ej; [|done]. cbn in Hj. destruct (decide (at_State a0 = AtReserved)) as [Est|]; [|done].
  injection Hj as -> ->. apply attempt_join_Some in Ej as [Ha Hr].
  apply tx_bind_Ok in E as (? & s2 & K & E). apply release_tables in K.
  apply tx_bind_Ok in E as (? & s3 & K2 & E). apply delete_leases_Ok in K2 as (m & -> & _).
  apply tx_bind_Ok in E as (? & s4 & K3 & E). apply delete_leases_Ok in K3 as (m' & -> & _).
  injection K as K _ _. apply tx_bind_Ok in E as (? & s5 & K4 & E). eapply update_row_always in K4; [|cbn; by rewrite K].
  match type of E with ?m s5 = _ => assert (evolves (follows nobody) m) as Hm by (unfold set_request_state; follows_tac) end.
  apply Hm in E. edestruct (fw_attempts _ _ _ E id) as (a' & Ha' & L); [subst s5; cbn; by rewrite lookup_insert_eq|].
  exists a'. split; [done|]. intros Hl%(lt_live _ _ L). done.
Qed.

(** The attempt and the request of a first admission. *)
Lemma Admit_new e i s r s' : ai_RequestID i = ""%string -> Admit e i s = (Ok r, s') ->
  exists a rq, t_attempts s' !! ad_AttemptID r = Some a /\ t_requests s' !! at_Request a = Some rq /\ rq_Operation rq = ai_Operation i.
Proof.
  intros Hid H. unfold Admit in H. destruct (invalid_admission i); [done|]. destruct (checkedAdd _) as [tokens|]; [|done].
  unfold commit in H. destruct (admit_tx e i tokens s) as [[r0 s0]|] eqn:E; [|done]. injection H as -> ->. unfold admit_tx in E. rewrite Hid in E.
  do 11 (apply tx_bind_Ok in E as (? & ? & _ & E); cbn beta iota zeta in E; try match type of E with context [match ?p with (_, _) => _ end] => destruct p end).
  apply tx_bind_Ok in E as (? & s1 & Hb & E). unfold book_request in Hb. rewrite Hid in Hb. cbn in Hb. apply insert_row_Ok in Hb as [_ ->].
  apply tx_bind_Ok in E as (? & s2 & Ha & E). unfold insert_attempt in Ha. apply tx_bind_Ok in Ha as (? & ? & Hx & Ha). apply reads_Ok in Hx as [-> ->].
  apply tx_bind_Ok in Ha as (? & ? & Hx & Ha). apply require_Ok in Hx as [_ ->]. apply insert_row_Ok in Ha as [_ ->].
  match type of E with ?m _ = _ => assert (evolves (follows nobody) m /\ forall x y, m x = Ok (r, y) -> ad_AttemptID r = "att_" +:+ token e 1)%string as [Hm Hr] end.
  { split; [follows_tac|]. intros ? ? Hx. clear - Hx. tx_inv. done. }
  rewrite (Hr _ _ E). apply Hm in E. clear Hm Hr.
  edestruct (fw_attempts _ _ _ E) as (a' & Ha' & L); [cbn; apply lookup_insert_eq|].
  edestruct (fw_requests _ _ _ E) as (q & Hq & Eq); [cbn; apply lookup_insert_eq|].
  exists a', q. split; [done|]. unfold at_Request. rewrite (lt_snapshot _ _ L). cbn. done.
Qed.
