(* ===== verification/MediaJobs.v ===== *)
(** Media jobs ([internal/features/mediajobs/service.go], [worker.go]): the
    table of jobs beside the accounting, the calls of the API and the rounds
    of the worker. The API and the worker run at the same time, and each call
    is several statements, so an operation is a [program]. *)
From S2P Require Import Prelude GoStd Money Calendar Counters Policy Json Decode Marshal Decoded Store Grants PathMatch Catalogue Connections Sha256 Pricing PolicyService Admission Settlement Keys Routing Programs Predictions.
Open Scope string_scope.
Open Scope Z_scope.
Open Scope list_scope.

(** * The table

    The columns fixed when a job is created, and the others. Ciphertexts come
    with their nonces. *)

Record JobSnapshot := mkJobSnapshot {
  js_Owner : string; js_Key : string; js_Request : string; js_Attempt : string; js_Model : string;
  js_Connection : string; js_Provider : string; js_MediaType : string; js_InputBytes : Z; js_Created : Z }.

Record MediaJob := mkMediaJob {
  mj_Snapshot : JobSnapshot; mj_ProviderJob : string; mj_State : JobState; mj_Input : option (string * string);
  mj_Output : option (string * string); mj_OutputBytes : Z; mj_Error : string; mj_CancelRequested : bool;
  mj_PollFailures : Z; mj_NextPoll : Z; mj_Revision : Z; mj_Updated : Z; mj_Completed : option Z }.

Definition mj_Attempt (j : MediaJob) : string := js_Attempt (mj_Snapshot j).

(** The system database with the jobs. *)
Record mdb := mkMdb { md_db : db; md_jobs : gmap string MediaJob }.

(** The CHECK constraints of a row. *)
Definition sealed_as (size : Z) (c : string * string) : bool := (str_len (fst c) =? size + 16) && (str_len (snd c) =? 12).
Definition job_checks (j : MediaJob) : bool :=
  contains ["image"; "video"; "audio"; "other"] (js_MediaType (mj_Snapshot j))
  && in_range (js_InputBytes (mj_Snapshot j)) 2 1048576
  && in_range (mj_OutputBytes j) 0 4194304
  && json_valid (mj_Error j)
  && in_range (mj_PollFailures j) 0 8
  && match mj_Input j with Some c => sealed_as (js_InputBytes (mj_Snapshot j)) c | None => true end
  && match mj_Output j with Some c => sealed_as (mj_OutputBytes j) c | None => mj_OutputBytes j =? 0 end.

(** The unique index over the provider's ids of a connection. *)
Definition provider_id_free (m : gmap string MediaJob) (id : string) (j : MediaJob) : bool :=
  (mj_ProviderJob j =s "")
  || forallb (fun kv => (fst kv =s id) || negb ((js_Connection (mj_Snapshot (snd kv)) =s js_Connection (mj_Snapshot j))
                                               && (mj_ProviderJob (snd kv) =s mj_ProviderJob j))) (map_to_list m).
Definition row_accepted (m : gmap string MediaJob) (id : string) (j : MediaJob) : bool := job_checks j && provider_id_free m id j.

Definition active (st : JobState) : bool := match st with JStarting | JProcessing | JCanceling => true | _ => false end.
(** [state IN ('submitting','starting','processing','canceling')]. *)
Definition in_flight (st : JobState) : bool := match st with JSubmitting => true | _ => active st end.
Definition ended (st : JobState) : bool := match st with JSucceeded | JFailed | JCanceled | JInterrupted => true | _ => false end.

(** * Programs *)

Notation program := (Programs.program mdb).
Definition query_db {A} (f : db -> A) : program A := query (fun s => f (md_db s)).

(** A transaction of another service. *)
Definition service {A} (m : db -> result A * db) : program (result A) :=
  statement (fun s => let '(r, d) := m (md_db s) in (r, mkMdb d (md_jobs s))).

(** [UPDATE media_jobs .. WHERE id = ? AND cond]: the rows changed, or the
    error of a constraint. *)
Definition update_job (id : string) (cond : MediaJob -> bool) (f : MediaJob -> MediaJob) : program (result Z) :=
  statement (fun s =>
    match md_jobs s !! id with
    | Some j => if cond j then
                  if row_accepted (md_jobs s) id (f j) then (Ok 1, mkMdb (md_db s) (<[id := f j]> (md_jobs s)))
                  else (Err constraint_failed, s)
                else (Ok 0, s)
    | None => (Ok 0, s)
    end).

(** [INSERT INTO media_jobs]. *)
Definition insert_media_job (id : string) (j : MediaJob) : program (result unit) :=
  statement (fun s =>
    if bool_decide (md_jobs s !! id = None)
       && forallb (fun kv => negb (mj_Attempt (snd kv) =s mj_Attempt j)) (map_to_list (md_jobs s))
       && row_accepted (md_jobs s) id j
    then (Ok tt, mkMdb (md_db s) (<[id := j]> (md_jobs s))) else (Err constraint_failed, s)).

(** * What the service draws from outside *)

(** The host, AES-GCM under the master key (nonce and additional data first;
    it fails for a key of the wrong length), and the adapter scripts: script,
    operation and model, then method, path and body, or status and body. *)
Record MediaHost := mkMediaHost {
  mh_Host : Host;
  mh_Seal : string -> string -> string -> option string;
  mh_Open : string -> string -> string -> option string;
  mh_Request : string -> string -> string -> string * string * string -> option (string * string * string);
  mh_Response : string -> string -> string -> Z * string -> option (Z * string);
  url_PathEscape : string -> string }.

(** What one call draws: readings of the clock, the surroundings of the calls
    of other services, random tokens and nonces, and what becomes of a
    request to the provider (method, path, body). *)
Record MediaEnv := mkMediaEnv {
  me_now : nat -> Z; me_usage : nat -> env; me_token : string; me_nonce : nat -> string;
  me_send : Target -> string -> string -> string -> reply }.

Definition media_scope : string := "media:generate".
Definition mediaPollInterval : Z := 1000.
Definition mediaMaxPollFailures : Z := 8.

Record CreateJobInput := mkCreateJobInput { mi_Model : string; mi_MediaType : string; mi_Input : string }.

(** What the API shows of a job. *)
Record JobView := mkJobView { jv_ID : string; jv_Row : MediaJob; jv_Output : option string; jv_Cancelable : bool }.
Definition scanJob (id : string) (j : MediaJob) : JobView :=
  mkJobView id j None (bool_decide (mj_State j ∈ [JQueued; JSubmitting; JStarting; JProcessing])).

Definition validMediaType (value : string) : bool := contains ["image"; "video"; "audio"; "other"] value.
Definition mediaJobAAD (id keyID : string) (size : Z) (kind : string) : string :=
  "media-job:" +:+ kind +:+ ":" +:+ id +:+ ":" +:+ keyID +:+ ":" +:+ FormatInt size.

(** The message of [ErrInvalid]. *)
Definition ErrInvalid : error := Msg "media job input is invalid".

Section Media.
Variable host : MediaHost.

Definition seal (e : MediaEnv) (n : nat) (aad plain : string) : option (string * string) :=
  c ← mh_Seal host (me_nonce e n) aad plain; Some (c, me_nonce e n).

(** ** [providers.Service.Target] *)

Definition public_target (s : db) (id : string) (pm : PublicModelRow) : Target :=
  let um := t_upstream_models s !! pm_TargetModel pm in
  mkTarget id (pm_Label pm) (pm_Description pm) (pm_TargetConnection pm) (pm_TargetModel pm)
    (match um with Some um => um_UpstreamID um | None => "" end)
    (match t_connections s !! pm_TargetConnection pm with Some c => cn_Adapter c | None => "" end)
    (pm_Capabilities pm) (pm_Revision pm) (pm_Strategy pm) (pm_FreeOnly pm) [] "" false 0 0 "" false "" "" "".

Definition has_credential (c : ConnectionRow) : bool := match cn_Credential c with NoCredential => false | _ => true end.
Definition with_connection (t : Target) (c : ConnectionRow) (credential : string) (bearer : bool) : Target :=
  mkTarget (tt_ID t) (tt_Label t) (tt_Description t) (tt_ConnectionID t) (tt_ModelID t) (tt_UpstreamID t) (tt_Adapter t)
    (tt_Capabilities t) (tt_Revision t) (tt_Strategy t) (tt_FreeOnly t) (tt_UpstreamCapabilities t) (cn_BaseURL c)
    (cn_AllowPrivate c) (cn_TimeoutMS c) (cn_Revision c) credential bearer (cn_Preset c)
    (candidate_scripts c).1 (candidate_scripts c).2.

(** The target model of a public model, its connection enabled and with a
    credential. *)
Definition TargetOf (id : string) : program (result Target) :=
  model ← query_db (fun s => match ResolvePublicModel id s with Ok (id, pm) => Ok (public_target s id pm) | Err err => Err err end);
  attempting model (fun t =>
    row ← query_db (fun s => match t_connections s !! tt_ConnectionID t with
                             | Some c => if cn_Enabled c && has_credential c then Some c else None
                             | None => None end);
    match row with
    | None => Return (Err ErrNotFound)
    | Some c =>
      Return (match cn_Credential c with
              | External reference =>
                  '(credential, bearer) ← resolveExternalCredential (mh_Host host) reference; Ok (with_connection t c credential bearer)
              | Sealed ciphertext nonce =>
                  secret ← openSecret (mh_Host host) (tt_ConnectionID t) ciphertext nonce; Ok (with_connection t c secret false)
              | NoCredential => Err ErrNotFound
              end)
    end).

Definition mediaTargetSupported (t : Target) : bool :=
  (tt_Strategy t =s "fixed")
  && ((tt_Preset t =s "replicate") || (tt_Preset t =s "together") || (tt_Preset t =s "gemini")
      || (tt_Preset t =s "custom") && negb (TrimSpace (tt_RequestScript t) =s "")).

(** ** Reading jobs *)

(** [get]: an empty key reads any job. *)
Definition get (id ownerID keyID : string) (includeOutput : bool) : program (result JobView) :=
  query (fun s =>
    match md_jobs s !! id with
    | None => Err ErrNotFound
    | Some j =>
      if (keyID =s "") || ((js_Owner (mj_Snapshot j) =s ownerID) && (js_Key (mj_Snapshot j) =s keyID)) then
        match mj_Output j with
        | Some (ciphertext, nonce) =>
          if includeOutput && negb (ciphertext =s "") then
            match mh_Open host nonce (mediaJobAAD id (js_Key (mj_Snapshot j)) (mj_OutputBytes j) "output") ciphertext with
            | Some plain => if json_valid plain then Ok (mkJobView id j (Some plain) (jv_Cancelable (scanJob id j)))
                            else Err (Msg "media job output cannot be decrypted")
            | None => Err (Msg "media job output cannot be decrypted")
            end
          else Ok (scanJob id j)
        | None => Ok (scanJob id j)
        end
      else Err ErrNotFound
    end).

Definition GetJob (p : Principal) (id : string) : program (result JobView) :=
  if AllowsScope p media_scope then get id (pl_Owner p) (pl_KeyID p) true else Return (Err ErrDenied).
Definition AdminGet (id : string) : program (result JobView) := get id "" "" false.

(** [ORDER BY created_at DESC, id DESC]. *)
Definition newest_first (a b : string * MediaJob) : bool :=
  let x := js_Created (mj_Snapshot (snd a)) in let y := js_Created (mj_Snapshot (snd b)) in
  (y <? x) || ((x =? y) && String.ltb (fst b) (fst a)).

Definition list_jobs (ownerID keyID : string) (limit : Z) : program (list JobView) :=
  let limit := if (limit <? 1) || (100 <? limit) then 50 else limit in
  query (fun s =>
    map (fun kv => scanJob (fst kv) (snd kv))
      (take (Z.to_nat limit) (SliceStable newest_first
        (List.filter (fun kv => (keyID =s "") || ((js_Owner (mj_Snapshot (snd kv)) =s ownerID) && (js_Key (mj_Snapshot (snd kv)) =s keyID)))
           (map_to_list (md_jobs s)))))).

Definition ListJobs (p : Principal) (limit : Z) : program (result (list JobView)) :=
  if AllowsScope p media_scope then l ← list_jobs (pl_Owner p) (pl_KeyID p) limit; Return (Ok l) else Return (Err ErrDenied).
Definition AdminList (limit : Z) : program (list JobView) := list_jobs "" "" limit.

(** ** Creating a job *)

Definition target_operation_of (preset : string) : string :=
  if preset =s "together" then "videos" else if preset =s "gemini" then "predictLongRunning" else "predictions".

Definition media_admission (p : Principal) (model : string) (t : Target) (quoteAt size : Z) : AdmissionInput :=
  mkAdmissionInput "" (pl_KeyID p) (tt_ConnectionID t) model (tt_ModelID t) (tt_UpstreamID t) (tt_ConnectionRevision t) (tt_Revision t)
    "media/jobs" (target_operation_of (tt_Preset t)) media_scope "gateway" (tt_Preset t) false 0 0 false "fixed media provider" ""
    "" quoteAt None false true false size 0 false 0 0 false false false false.

Definition check_create (p : Principal) (model mediaType : string) (t : Target) : result unit :=
  _ ← ensure (mediaTargetSupported t && Allows p media_scope model (tt_ConnectionID t)
              && PresetSupportsModelCapabilities (tt_Preset t) (tt_UpstreamID t) ["media_jobs"]) ErrDenied;
  ensure (negb (((tt_Preset t =s "together") || (tt_Preset t =s "gemini")) && negb (mediaType =s "video"))) ErrInvalid.

Definition CreateJob (e : MediaEnv) (p : Principal) (i : CreateJobInput) : program (result JobView) :=
  let model := TrimSpace (mi_Model i) in
  let mediaType := TrimSpace (mi_MediaType i) in
  let mediaType := if mediaType =s "" then "other" else mediaType in
  let input := mi_Input i in
  if (model =s "") || (200 <? str_len model) || negb (validMediaType mediaType) || (str_len input <? 2)
     || (maxInputBytes <? str_len input) || negb (jsonObject input)
  then Return (Err ErrInvalid) else
  target ← TargetOf model;
  attempting target (fun t =>
  attempting (check_create p model mediaType t) (fun _ =>
    let id := "media_" +:+ me_token e in
    match seal e 0 (mediaJobAAD id (pl_KeyID p) (str_len input) "input") input with
    | None => Return (Err (Msg "crypto/aes: invalid key size"))
    | Some sealed =>
      quoteAt ← query_db (QuoteTime (me_usage e 0));
      admission ← service (Admit (me_usage e 1) (media_admission p model t quoteAt (str_len input)));
      attempting admission (fun a =>
        inserted ← insert_media_job id
          (mkMediaJob (mkJobSnapshot (pl_Owner p) (pl_KeyID p) (ad_RequestID a) (ad_AttemptID a) model (tt_ConnectionID t)
                         (tt_Preset t) mediaType (str_len input) (me_now e 0))
             "" JQueued (Some sealed) None 0 "null" false 0 (me_now e 0) 1 (me_now e 0) None);
        match inserted with
        | Err err => _ ← service (CancelBeforeDispatch (me_usage e 2) (ad_AttemptID a)); Return (Err err)
        | Ok _ => get id (pl_Owner p) (pl_KeyID p) false
        end)
    end)).

(** ** Cancelling a job *)

Definition request_cancel (at_ : Z) (j : MediaJob) : MediaJob :=
  let queued := bool_decide (mj_State j = JQueued) in
  mkMediaJob (mj_Snapshot j) (mj_ProviderJob j)
    (if queued then JCanceled else if bool_decide (mj_State j ∈ [JSubmitting; JStarting; JProcessing]) then JCanceling else mj_State j)
    (if queued then None else mj_Input j) (mj_Output j) (mj_OutputBytes j) (mj_Error j) true (mj_PollFailures j) (mj_NextPoll j)
    (mj_Revision j + 1) at_ (if queued then Some at_ else mj_Completed j).

Definition cancel_job (e : MediaEnv) (id ownerID keyID : string) : program (result JobView) :=
  changed ← update_job id (fun j => (keyID =s "") || ((js_Owner (mj_Snapshot j) =s ownerID) && (js_Key (mj_Snapshot j) =s keyID)))
              (request_cancel (me_now e 0));
  attempting changed (fun n =>
    if n =? 0 then Return (Err ErrNotFound) else
    row ← query (fun s => md_jobs s !! id);
    _ ← match row with
        | Some j => if bool_decide (mj_State j = JCanceled) then service (CancelBeforeDispatch (me_usage e 0) (mj_Attempt j)) else Return (Ok tt)
        | None => Return (Ok tt)
        end;
    get id ownerID keyID false).

Definition CancelJob (e : MediaEnv) (p : Principal) (id : string) : program (result JobView) :=
  if AllowsScope p media_scope then cancel_job e id (pl_Owner p) (pl_KeyID p) else Return (Err ErrDenied).
Definition AdminCancel (e : MediaEnv) (id : string) : program (result JobView) := cancel_job e id "" "".

(** * The worker *)

(** The text of [json.Marshal] of a code and a message. *)
Definition error_json (code message : string) : string := Json.Marshal [("code", JString code); ("message", JString message)].

Definition end_job (st : JobState) (err : option string) (at_ : Z) (j : MediaJob) : MediaJob :=
  mkMediaJob (mj_Snapshot j) (mj_ProviderJob j) st None (mj_Output j) (mj_OutputBytes j) (default (mj_Error j) err)
    (mj_CancelRequested j) (mj_PollFailures j) (mj_NextPoll j) (mj_Revision j + 1) at_ (Some at_).

Definition failRow (e : MediaEnv) (n : nat) (id code message : string) : program unit :=
  _ ← update_job id (fun j => negb (ended (mj_State j))) (end_job JFailed (Some (error_json code message)) (me_now e n));
  Return tt.

(** [media_jobs JOIN attempts]: the job's attempt and its state. *)
Definition attempt_of (id : string) (s : mdb) : option (string * AttemptState) :=
  j ← md_jobs s !! id; a ← t_attempts (md_db s) !! mj_Attempt j; Some (mj_Attempt j, at_State a).

Definition running_state (st : AttemptState) : bool := match st with AtDispatching | AtStreaming => true | _ => false end.

Definition media_settlement (id state usageStatus : string) (cost : option Z) : SettlementInput :=
  mkSettlementInput ("media-job:" +:+ id +:+ ":terminal") state usageStatus None None None None None None cost None 0 "" true None.

(** [fail]. *)
Definition fail_job (e : MediaEnv) (n : nat) (id code message : string) : program unit :=
  row ← query (attempt_of id);
  match row with
  | None => Return tt
  | Some (attemptID, st) =>
    closed ← (if bool_decide (st = AtReserved) then service (CancelBeforeDispatch (me_usage e n) attemptID)
              else if running_state st then service (Settle (me_usage e n) attemptID (media_settlement id "failed" "unknown" None))
              else Return (Ok tt));
    match closed with Err _ => Return tt | Ok _ => failRow e n id code message end
  end.

(** [completeLocalCancel]. *)
Definition completeLocalCancel (e : MediaEnv) (id : string) : program unit :=
  row ← query (fun s => mj_Attempt <$> md_jobs s !! id);
  match row with
  | None => Return tt
  | Some attemptID =>
    settled ← service (Settle (me_usage e 0) attemptID (media_settlement id "cancelled" "unknown" None));
    match settled with
    | Err _ => Return tt
    | Ok _ => _ ← update_job id (fun j => bool_decide (mj_State j = JCanceling)) (end_job JCanceled None (me_now e 4)); Return tt
    end
  end.

(** [reschedule]: the delay doubles with each failure, five times at most. *)
Definition reschedule (e : MediaEnv) (id : string) (failures : Z) : program unit :=
  _ ← update_job id (fun j => active (mj_State j))
        (fun j => mkMediaJob (mj_Snapshot j) (mj_ProviderJob j) (mj_State j) (mj_Input j) (mj_Output j) (mj_OutputBytes j) (mj_Error j)
                    (mj_CancelRequested j) failures (me_now e 3 + Z.shiftl mediaPollInterval (Z.min (failures - 1) 5)) (mj_Revision j + 1)
                    (me_now e 3) (mj_Completed j));
  Return tt.

(** ** [applyPrediction] *)

(** What is stored of a prediction: state, sealed output, its size and the error. *)
Definition stored_output (e : MediaEnv) (id keyID : string) (st : JobState) (output : string) :
    JobState * option (string * string) * Z * string :=
  if maxOutputBytes <? str_len output
  then (JFailed, None, 0, error_json "provider_output_too_large" "The provider output exceeds 4 MiB")
  else match seal e 0 (mediaJobAAD id keyID (str_len output) "output") output with
       | Some sealed => (st, Some sealed, str_len output, "null")
       | None => (JFailed, None, 0, error_json "storage_unavailable" "The provider output could not be stored")
       end.

Definition settlement_state (st : JobState) : string :=
  match st with JSucceeded => "succeeded" | JCanceled => "cancelled" | JFailed => "failed" | _ => "" end.

Definition predicted (p : providerPrediction) (st : JobState) (out : option (string * string)) (size : Z) (err : string) (terminal : bool)
    (at_ : Z) (j : MediaJob) : MediaJob :=
  mkMediaJob (mj_Snapshot j) (pd_ID p) st (if terminal then None else mj_Input j) out size err (mj_CancelRequested j) 0
    (at_ + mediaPollInterval) (mj_Revision j + 1) at_ (if terminal then Some at_ else None).

Definition applyPrediction (e : MediaEnv) (id : string) (p : providerPrediction) : program unit :=
  match normalizeProviderState (pd_Status p) with
  | None => fail_job e 1 id "provider_response_invalid" "The provider returned an unsupported media job state"
  | Some (st, terminal) =>
    stored ← (if terminal && bool_decide (st = JSucceeded) && negb (pd_Output p =s "null") then
                keyID ← query (fun s => (fun j => js_Key (mj_Snapshot j)) <$> md_jobs s !! id);
                Return ((fun k => stored_output e id k st (pd_Output p)) <$> keyID)
              else Return (Some (st, None, 0, "null")));
    match stored with
    | None => Return tt
    | Some (st, out, size, err) =>
      let err := if bool_decide (st = JFailed) && (err =s "null") then error_json "provider_failed" "The provider media job failed" else err in
      settled ← (if terminal then
                   row ← query (fun s => mj_Attempt <$> md_jobs s !! id);
                   match row with
                   | None => Return (Err ErrNoRows)
                   | Some attemptID =>
                     service (Settle (me_usage e 1) attemptID
                       (media_settlement id (settlement_state st) (if is_some (pd_Cost p) then "provider_reported" else "unknown") (pd_Cost p)))
                   end
                 else Return (Ok tt));
      match settled with
      | Err _ => Return tt
      | Ok _ => _ ← update_job id (fun j => in_flight (mj_State j)) (predicted p st out size err terminal (me_now e 1)); Return tt
      end
    end
  end.

(** ** Claiming, submitting and polling *)

Definition earliest (key : MediaJob -> Z) (a b : string * MediaJob) : bool :=
  let c x := js_Created (mj_Snapshot (snd x)) in
  (key (snd a) <? key (snd b))
  || ((key (snd a) =? key (snd b)) && ((c a <? c b) || ((c a =? c b) && String.ltb (fst a) (fst b)))).
Definition first_job (key : MediaJob -> Z) (cond : MediaJob -> bool) (s : mdb) : option (string * MediaJob) :=
  head (SliceStable (earliest key) (select_rows (fun _ j => cond j) (md_jobs s))).

(** [claimQueued]: the job with its decrypted input. *)
Definition claimQueued (e : MediaEnv) : program (option (string * MediaJob * string)) :=
  row ← query (first_job (fun _ => 0) (fun j => bool_decide (mj_State j = JQueued)));
  match row with
  | None => Return None
  | Some (id, job) =>
    changed ← update_job id (fun j => bool_decide (mj_State j = JQueued))
                (fun j => mkMediaJob (mj_Snapshot j) (mj_ProviderJob j) JSubmitting (mj_Input j) (mj_Output j) (mj_OutputBytes j) (mj_Error j)
                            (mj_CancelRequested j) (mj_PollFailures j) (mj_NextPoll j) (mj_Revision j + 1) (me_now e 0) (mj_Completed j));
    match changed with
    | Ok 1 =>
      let snap := mj_Snapshot job in
      match (c ← mj_Input job; mh_Open host (snd c) (mediaJobAAD id (js_Key snap) (js_InputBytes snap) "input") (fst c)) with
      | Some plain => if jsonObject plain then Return (Some (id, job, plain))
                      else _ ← fail_job e 5 id "stored_input_invalid" "The stored media input is unavailable"; Return None
      | None => _ ← fail_job e 5 id "stored_input_invalid" "The stored media input is unavailable"; Return None
      end
    | _ => Return None
    end
  end.

Definition dueActive (e : MediaEnv) : program (option (string * MediaJob)) :=
  query (first_job mj_NextPoll (fun j => active (mj_State j) && (mj_NextPoll j <=? me_now e 2))).

(** [target]: the job's target as it is allowed and configured now. *)
Definition job_target (e : MediaEnv) (job : MediaJob) : program (result Target) :=
  let snap := mj_Snapshot job in
  principal ← query_db (PrincipalOf (me_usage e 2) (js_Key snap));
  match principal with
  | Err _ => Return (Err ErrDenied)
  | Ok p =>
    if negb (pl_Owner p =s js_Owner snap) then Return (Err ErrDenied) else
    target ← TargetOf (js_Model snap);
    attempting target (fun t =>
      if negb (tt_Preset t =s js_Provider snap) || negb (mediaTargetSupported t) || negb (tt_ConnectionID t =s js_Connection snap)
         || negb (Allows p media_scope (js_Model snap) (tt_ConnectionID t))
         || negb (PresetSupportsModelCapabilities (tt_Preset t) (tt_UpstreamID t) ["media_jobs"])
      then Return (Err ErrDenied) else Return (Ok t))
  end.

(** [callCustomMediaJob]: both scripts around the call. *)
Definition customMediaOperation : string := "media/jobs".
Definition callCustomMediaJob (e : MediaEnv) (t : Target) (method path body : string) : called providerPrediction :=
  _ ← demand (negb (TrimSpace (tt_RequestScript t) =s "")) "custom media jobs require a request adapter script";
  match mh_Request host (tt_RequestScript t) customMediaOperation (tt_UpstreamID t) (method, path, body) with
  | None => decline "adapter request script failed"
  | Some (method, path, body) =>
    '(status, raw) ← reply_body (me_send e t method path body);
    let raw := if raw =s "" then "{}" else raw in
    answer ← (if tt_ResponseScript t =s "" then inr (status, raw)
              else match mh_Response host (tt_ResponseScript t) customMediaOperation (tt_UpstreamID t) (status, raw) with
                   | Some answer => inr answer | None => decline "adapter response script failed" end);
    _ ← successful (fst answer);
    decodeCustomMediaPrediction (snd answer)
  end.

Definition customMediaJobAction (e : MediaEnv) (t : Target) (id action : string) : called providerPrediction :=
  _ ← demand (validCustomJobID id) "invalid provider job ID";
  let body := Json.Marshal [("action", JString action); ("id", JString id)] in
  let path := customMediaOperation +:+ "/" +:+ url_PathEscape host id in
  if action =s "cancel" then callCustomMediaJob e t "POST" (path +:+ "/cancel") body else callCustomMediaJob e t "GET" path body.

(** The create request of a provider. *)
Definition create_call (e : MediaEnv) (provider : string) (t : Target) (input : string) : called providerPrediction :=
  if provider =s "together" then
    body ← togetherVideoRequest (tt_UpstreamID t) input; callTogether (me_send e t "POST" "videos" body)
  else if provider =s "gemini" then
    _ ← demand (safeSegment (tt_UpstreamID t)) "invalid Gemini video model ID";
    body ← geminiVideoRequest input;
    callGeminiVideo (me_send e t "POST" ("models/" +:+ tt_UpstreamID t +:+ ":predictLongRunning") body)
  else if provider =s "custom" then callCustomMediaJob e t "POST" customMediaOperation input
  else '(path, body) ← replicateCreateRequest (tt_UpstreamID t) input; callReplicate (me_send e t "POST" path body).

(** The request of a poll: a job whose cancellation is asked is cancelled. *)
Definition poll_call (e : MediaEnv) (job : MediaJob) (t : Target) : called providerPrediction :=
  let provider := js_Provider (mj_Snapshot job) in
  let id := mj_ProviderJob job in
  let cancelling := mj_CancelRequested job || bool_decide (mj_State job = JCanceling) in
  if provider =s "together" then
    _ ← demand (safeSegment id) "invalid provider job ID"; callTogether (me_send e t "GET" ("videos/" +:+ id) "")
  else if provider =s "gemini" then
    _ ← demand (safeProviderPath id) "invalid Gemini operation ID"; callGeminiVideo (me_send e t "GET" id "")
  else if provider =s "custom" then customMediaJobAction e t id (if cancelling then "cancel" else "get")
  else
    _ ← demand (safeSegment id) "invalid provider job ID";
    if cancelling then callReplicate (me_send e t "POST" ("predictions/" +:+ id +:+ "/cancel") "{}")
    else callReplicate (me_send e t "GET" ("predictions/" +:+ id) "").

(** [submit]. [BeginDispatch] is the check that the target is current, made
    under the lock that holds configuration writes back. *)
Definition submit (e : MediaEnv) (id : string) (job : MediaJob) (input : string) : program unit :=
  target ← job_target e job;
  match target with
  | Err _ => fail_job e 1 id "permission_denied" "The API key, model, or provider grant is no longer active"
  | Ok t =>
    current ← query_db (fun s => TargetIsCurrent s t);
    if negb current then fail_job e 1 id "configuration_changed" "The provider configuration changed before submission" else
    marked ← service (MarkDispatching (mj_Attempt job));
    match marked with
    | Err _ =>
      _ ← service (CancelBeforeDispatch (me_usage e 1) (mj_Attempt job));
      failRow e 1 id "accounting_unavailable" "The media job could not be admitted for dispatch"
    | Ok _ =>
      match create_call e (js_Provider (mj_Snapshot job)) t input with
      | inl _ => fail_job e 1 id "provider_request_failed" "The provider could not create the media job"
      | inr p => applyPrediction e id p
      end
    end
  end.

(** [poll]. *)
Definition poll (e : MediaEnv) (id : string) (job : MediaJob) : program unit :=
  let provider := js_Provider (mj_Snapshot job) in
  if ((provider =s "together") || (provider =s "gemini")) && mj_CancelRequested job then completeLocalCancel e id else
  target ← job_target e job;
  match target with
  | Err _ => fail_job e 1 id "permission_denied" "The API key, model, or provider grant is no longer active"
  | Ok t =>
    current ← query_db (fun s => TargetIsCurrent s t);
    if negb current then fail_job e 1 id "configuration_changed" "The provider configuration changed while the job was running" else
    match poll_call e job t with
    | inl err =>
      let failures := mj_PollFailures job + 1 in
      if negb (retryableProviderError err) || (mediaMaxPollFailures <=? failures)
      then fail_job e 1 id "provider_poll_failed" "The provider media job could not be polled"
      else reschedule e id failures
    | inr p => applyPrediction e id p
    end
  end.

(** [workOnce]: whether there was something to do. *)
Definition workOnce (e : MediaEnv) : program bool :=
  claimed ← claimQueued e;
  match claimed with
  | Some (id, job, input) => _ ← submit e id job input; Return true
  | None =>
    due ← dueActive e;
    match due with Some (id, job) => _ ← poll e id job; Return true | None => Return false end
  end.

(** ** After a restart *)

(** [recoverSubmission]. *)
Definition recoverSubmission (e : MediaEnv) (id : string) : program unit :=
  row ← query (attempt_of id);
  match row with
  | None => Return tt
  | Some (attemptID, st) =>
    if bool_decide (st = AtReserved) then
      closed ← service (CancelBeforeDispatch (me_usage e 0) attemptID);
      match closed with
      | Ok _ => failRow e 0 id "submission_interrupted" "The gateway restarted before provider dispatch"
      | Err _ => Return tt
      end
    else if negb (running_state st) then Return tt
    else
      settled ← service (Settle (me_usage e 0) attemptID (media_settlement id "interrupted_unknown" "unknown" None));
      match settled with
      | Err _ => Return tt
      | Ok _ =>
        _ ← update_job id (fun j => bool_decide (mj_State j = JSubmitting))
              (end_job JInterrupted (Some (error_json "submission_outcome_unknown"
                 "The gateway restarted after dispatch and cannot determine the provider job ID")) (me_now e 0));
        Return tt
      end
  end.

Fixpoint recover_each (e : nat -> MediaEnv) (ids : list string) : program unit :=
  match ids with [] => Return tt | id :: ids => _ ← recoverSubmission (e O) id; recover_each (fun n => e (S n)) ids end.

(** [recoverInterrupted]. *)
Definition recoverInterrupted (e : nat -> MediaEnv) : program unit :=
  ids ← query (fun s => map fst (select_rows (fun _ j => bool_decide (mj_State j = JSubmitting) && (mj_ProviderJob j =s "")) (md_jobs s)));
  _ ← recover_each (fun n => e (S n)) ids;
  statement (fun s => (tt, mkMdb (md_db s) (map_imap (fun _ j =>
    Some (if active (mj_State j)
          then mkMediaJob (mj_Snapshot j) (mj_ProviderJob j) (mj_State j) (mj_Input j) (mj_Output j) (mj_OutputBytes j) (mj_Error j)
                 (mj_CancelRequested j) (mj_PollFailures j) (me_now (e O) 0) (mj_Revision j) (mj_Updated j) (mj_Completed j)
          else j)) (md_jobs s)))).
End Media.
