(* ===== verification/MediaLife.v ===== *)
(** What the statements of media jobs keep while the API, the worker and the
    other services interleave. Each thread is verified against what the others
    may do between its statements (its rely) and shown to do no more than it
    promises them (its guarantee). *)
From S2P Require Import Prelude GoStd Money Calendar Counters Policy Json Decode Marshal Decoded Store Grants PathMatch Catalogue Connections Sha256 Pricing PolicyService Admission Settlement Reservations Lifecycle Booking Reprice Reachable Attempts Keys Routing Programs Predictions MediaJobs.
Open Scope string_scope.
Open Scope Z_scope.
Open Scope list_scope.

(** * Identifiers a provider's jobs may have *)

Definition provider_id_ok (provider id : string) : bool :=
  if provider =s "gemini" then safeProviderPath id
  else if provider =s "custom" then validCustomJobID id
  else safeSegment id.

Lemma called_bind_inr {A B} (m : called A) (k : A -> called B) b : (m ≫= k) = inr b <-> exists a, m = inr a /\ k a = inr b.
Proof. destruct m; cbn; naive_solver. Qed.
Lemma demand_inr b text u : demand b text = inr u <-> b = true.
Proof. destruct b, u; cbn; naive_solver. Qed.

Ltac called_inv :=
  repeat match goal with
  | H : (_ ≫= _) = inr _ |- _ => apply called_bind_inr in H as (? & ? & ?)
  | H : mbind _ _ = inr _ |- _ => apply called_bind_inr in H as (? & ? & ?)
  | H : demand _ _ = inr _ |- _ => apply demand_inr in H
  | H : decline _ = inr _ |- _ => discriminate
  | H : inl _ = inr _ |- _ => discriminate
  | H : inr _ = inr _ |- _ => injection H as <-
  | p : _ * _ |- _ => destruct p
  end.

Lemma callReplicate_id r p : callReplicate r = inr p -> safeSegment (pd_ID p) = true.
Proof. unfold callReplicate. intros H. called_inv. destruct (UnmarshalStruct _ _ _); called_inv. done. Qed.

Lemma callTogether_id r p : callTogether r = inr p -> safeSegment (pd_ID p) = true.
Proof. unfold callTogether. intros H. called_inv. destruct (UnmarshalRaw _); called_inv. cbn. rewrite andb_true_iff in *. naive_solver. Qed.

Lemma callGeminiVideo_id r p : callGeminiVideo r = inr p -> safeProviderPath (pd_ID p) = true.
Proof.
  unfold callGeminiVideo. intros H. called_inv. destruct (UnmarshalStruct _ _ _); called_inv.
  destruct (negb (go_Done _)); [by called_inv|]. destruct (_ && _); called_inv; done.
Qed.

Lemma decodeCustom_id raw p : decodeCustomMediaPrediction raw = inr p -> validCustomJobID (pd_ID p) = true.
Proof. unfold decodeCustomMediaPrediction. destruct (UnmarshalRaw raw) as [[m|]|]; [|done..]. intros H. called_inv. cbn. rewrite andb_true_iff in *. naive_solver. Qed.

Lemma callCustom_id host e t m p b q : callCustomMediaJob host e t m p b = inr q -> validCustomJobID (pd_ID q) = true.
Proof.
  unfold callCustomMediaJob. intros H. apply called_bind_inr in H as (? & _ & H). destruct (mh_Request _ _ _ _ _) as [[[? ?] ?]|]; [|done].
  apply called_bind_inr in H as ([status raw] & _ & H). apply called_bind_inr in H as (? & _ & H). apply called_bind_inr in H as (? & _ & H).
  by apply decodeCustom_id in H.
Qed.

Lemma create_call_id host e provider t input p : create_call host e provider t input = inr p -> provider_id_ok provider (pd_ID p) = true.
Proof.
  unfold create_call, provider_id_ok. destruct (provider =s "together") eqn:E1.
  - apply String.eqb_eq in E1 as ->. intros H. called_inv. by eapply callTogether_id.
  - destruct (provider =s "gemini"); [intros H; called_inv; by eapply callGeminiVideo_id|].
    destruct (provider =s "custom"); [apply callCustom_id|]. intros H. called_inv. by eapply callReplicate_id.
Qed.

Lemma poll_call_id host e job t p : poll_call host e job t = inr p -> provider_id_ok (js_Provider (mj_Snapshot job)) (pd_ID p) = true.
Proof.
  unfold poll_call, provider_id_ok. destruct (js_Provider _ =s "together") eqn:E1.
  - apply String.eqb_eq in E1 as ->. intros H. called_inv. by eapply callTogether_id.
  - destruct (js_Provider _ =s "gemini"); [intros H; called_inv; by eapply callGeminiVideo_id|].
    destruct (js_Provider _ =s "custom"); [unfold customMediaJobAction; intros H; called_inv; destruct (_ =s "cancel"); by eapply callCustom_id|].
    intros H. apply called_bind_inr in H as (? & _ & H). destruct (_ || _); by eapply callReplicate_id.
Qed.

(** * The invariant *)

(** What a row says is consistent. *)
Record job_ok (j : MediaJob) : Prop := mkJobOk {
  jk_checks : job_checks j = true;
  jk_completed : is_some (mj_Completed j) = ended (mj_State j);
  jk_input : is_some (mj_Input j) = negb (ended (mj_State j));
  jk_output : is_some (mj_Output j) = true -> mj_State j = JSucceeded;
  jk_error : negb (mj_Error j =s "null") = bool_decide (mj_State j ∈ [JFailed; JInterrupted]);
  jk_failures : 0 <= mj_PollFailures j < mediaMaxPollFailures;
  jk_provider : mj_ProviderJob j = "" \/ provider_id_ok (js_Provider (mj_Snapshot j)) (mj_ProviderJob j) = true;
  jk_queued : mj_State j = JQueued -> mj_ProviderJob j = "" /\ mj_CancelRequested j = false;
  jk_canceling : mj_State j = JCanceling -> mj_CancelRequested j = true }.

(** An attempt of a media job, and one of another operation. *)
Definition attempt_for (media : bool) (s : db) (id : string) : Prop :=
  exists a r, t_attempts s !! id = Some a /\ t_requests s !! at_Request a = Some r /\ (rq_Operation r =s "media/jobs") = media.

(** The attempt under a job: not with the provider before the job is
    submitted nor after it ended, and ended when the worker ended the job. *)
Definition attempt_ok (s : db) (j : MediaJob) : Prop :=
  attempt_for true s (mj_Attempt j) /\
  forall a, t_attempts s !! mj_Attempt j = Some a ->
    (mj_State j = JQueued \/ ended (mj_State j) = true -> running a = false) /\
    (ended (mj_State j) = true -> mj_State j <> JCanceled -> ~ live a).

Record jobs_ok (s : mdb) : Prop := mkJobsOk {
  jo_rows : forall id j, md_jobs s !! id = Some j -> job_ok j;
  jo_attempts : forall id j, md_jobs s !! id = Some j -> attempt_ok (md_db s) j;
  jo_unique : forall i k x y, md_jobs s !! i = Some x -> md_jobs s !! k = Some y -> mj_Attempt x = mj_Attempt y -> i = k;
  jo_running : forall id a, t_attempts (md_db s) !! id = Some a -> running a = true ->
    attempt_for false (md_db s) id \/ exists i j, md_jobs s !! i = Some j /\ mj_Attempt j = id;
  jo_index : forall i k x y, md_jobs s !! i = Some x -> md_jobs s !! k = Some y -> mj_ProviderJob x <> "" ->
    js_Connection (mj_Snapshot x) = js_Connection (mj_Snapshot y) -> mj_ProviderJob x = mj_ProviderJob y -> i = k;
  jo_closed : settlements_closed (md_db s) }.

Lemma provider_id_free_spec m id j : provider_id_free m id j = true <->
  mj_ProviderJob j = "" \/
  forall i x, m !! i = Some x -> js_Connection (mj_Snapshot x) = js_Connection (mj_Snapshot j) -> mj_ProviderJob x = mj_ProviderJob j -> i = id.
Proof.
  unfold provider_id_free. rewrite orb_true_iff, String.eqb_eq, forallb_forall. apply or_iff_compat_l. split.
  - intros H i x Hx Ec Ep. specialize (H (i, x)). rewrite <- list_elem_of_In, elem_of_map_to_list in H. specialize (H Hx). cbn in H.
    rewrite Ec, Ep, !String.eqb_refl in H. cbn in H. rewrite orb_false_r in H. by apply String.eqb_eq in H.
  - intros H [i x]. rewrite <- list_elem_of_In, elem_of_map_to_list. intros Hx. cbn.
    destruct (js_Connection (mj_Snapshot x) =s js_Connection (mj_Snapshot j)) eqn:Ec; [|by rewrite orb_true_r].
    destruct (mj_ProviderJob x =s mj_ProviderJob j) eqn:Ep; [|by rewrite orb_true_r].
    apply String.eqb_eq in Ec, Ep. rewrite (H i x Hx Ec Ep), String.eqb_refl. done.
Qed.

Lemma row_accepted_spec m id j : row_accepted m id j = true <-> job_checks j = true /\ provider_id_free m id j = true.
Proof. apply andb_true_iff. Qed.

(** Rows with the same connections and provider's ids. *)
Lemma index_insert m id j : 
  (forall i k x y, m !! i = Some x -> m !! k = Some y -> mj_ProviderJob x <> "" ->
    js_Connection (mj_Snapshot x) = js_Connection (mj_Snapshot y) -> mj_ProviderJob x = mj_ProviderJob y -> i = k) ->
  provider_id_free m id j = true ->
  forall i k x y, <[id := j]> m !! i = Some x -> <[id := j]> m !! k = Some y -> mj_ProviderJob x <> "" ->
    js_Connection (mj_Snapshot x) = js_Connection (mj_Snapshot y) -> mj_ProviderJob x = mj_ProviderJob y -> i = k.
Proof.
  intros H Hf%provider_id_free_spec i k x y [[<- <-]|[Hni Hx]]%lookup_insert_Some [[<- <-]|[Hnk Hy]]%lookup_insert_Some Hne Ec Ep; [done| | |by eapply H].
  - destruct Hf as [?|Hf]; [done|]. symmetry. by eapply Hf.
  - destruct Hf as [?|Hf]; [congruence|]. by eapply Hf.
Qed.

Lemma attempt_for_later P b s s' id : follows P s s' -> attempt_for b s id -> attempt_for b s' id.
Proof.
  intros F (a & r & Ha & Hr & E). destruct (fw_attempts P s s' F id a Ha) as (a' & Ha' & [Es _]).
  destruct (fw_requests P s s' F _ r Hr) as (r' & Hr' & Eo). exists a', r'. unfold at_Request in *. rewrite Es, Eo. auto.
Qed.

Lemma attempt_for_one s id : attempt_for true s id -> attempt_for false s id -> False.
Proof. intros (a & r & Ha & Hr & E) (a' & r' & Ha' & Hr' & E'). congruence. Qed.

(** A step of the accounting that sets running only attempts of other operations. *)
Lemma jobs_ok_db s d : jobs_ok s -> follows (attempt_for false d) (md_db s) d -> jobs_ok (mkMdb d (md_jobs s)).
Proof.
  intros [Hr Ha Hu Hf Hix Hc] F. split; cbn [md_db md_jobs]; [done| |done| |done|by eapply settlements_closed_later].
  - intros id j Hj. destruct (Ha id j Hj) as [Hm Hs]. split; [by eapply attempt_for_later|]. pose proof Hm as (a & r & Hat & Hrq & E).
    intros a' Ha'. destruct (fw_attempts _ _ _ F _ a Hat) as (a2 & Ha2 & [_ L]). assert (a2 = a') as -> by congruence.
    destruct (Hs a Hat) as [H1 H2]. split; [|intros He Hn Hl; by apply (H2 He Hn), L].
    intros K%H1. destruct (running a') eqn:R; [|done]. destruct (fw_running _ _ _ F _ _ Ha' R) as [X|(b & Hb & Rb)]; [|congruence].
    exfalso. eapply attempt_for_one; [|exact X]. by eapply attempt_for_later.
  - intros id a Hat R. destruct (fw_running _ _ _ F _ _ Hat R) as [X|(b & Hb & Rb)]; [by left|].
    destruct (Hf id b Hb Rb) as [X|X]; [left; by eapply attempt_for_later|by right].
Qed.

(** The attempt of a job that is with its provider is set running. *)
Lemma jobs_ok_mark s id j : jobs_ok s -> md_jobs s !! id = Some j -> in_flight (mj_State j) = true ->
  jobs_ok (mkMdb (snd (MarkDispatching (mj_Attempt j) (md_db s))) (md_jobs s)).
Proof.
  intros [Hr Ha Hu Hf Hix Hc] Hj Hst. pose proof (MarkDispatching_follows (fun i => i = mj_Attempt j) _ (md_db s) eq_refl) as F.
  split; cbn [md_db md_jobs]; [done| |done| |done|by eapply settlements_closed_later].
  - intros i k Hk. destruct (Ha i k Hk) as [Hm Hs]. split; [by eapply attempt_for_later|]. destruct Hm as (a & r & Hat & Hrq & E).
    intros a' Ha'. destruct (fw_attempts _ _ _ F _ a Hat) as (a2 & Ha2 & [_ L]). assert (a2 = a') as -> by congruence.
    destruct (Hs a Hat) as [H1 H2]. split; [|intros He Hn Hl; by apply (H2 He Hn), L].
    intros K. destruct (running a') eqn:R; [|done]. destruct (fw_running _ _ _ F _ _ Ha' R) as [X|(b & Hb & Rb)].
    + assert (i = id) as -> by (by eapply Hu). assert (k = j) as -> by congruence.
      destruct K as [K|K]; [rewrite K in Hst; done|by destruct (mj_State j)].
    + assert (b = a) as -> by congruence. by rewrite <- Rb, H1.
  - intros i a Hat R. destruct (fw_running _ _ _ F _ _ Hat R) as [->|(b & Hb & Rb)]; [right; eauto|].
    destruct (Hf i b Hb Rb) as [X|X]; [left; by eapply attempt_for_later|by right].
Qed.

(** A row replaced by a later one. *)
Lemma jobs_ok_row s id j j' : jobs_ok s -> md_jobs s !! id = Some j -> mj_Snapshot j' = mj_Snapshot j ->
  provider_id_free (md_jobs s) id j' = true -> job_ok j' -> attempt_ok (md_db s) j' ->
  jobs_ok (mkMdb (md_db s) (<[id := j']> (md_jobs s))).
Proof.
  intros [Hr Ha Hu Hf Hix Hc] Hj Es Hfree Ho Hat. assert (mj_Attempt j' = mj_Attempt j) as Ea by (unfold mj_Attempt; by rewrite Es).
  split; cbn [md_db md_jobs]; [| | | |by apply index_insert|done].
  - intros i k [[<- <-]|[_ Hk]]%lookup_insert_Some; eauto.
  - intros i k [[<- <-]|[_ Hk]]%lookup_insert_Some; eauto.
  - intros i k x y [[<- <-]|[Hni Hx]]%lookup_insert_Some [[<- <-]|[Hnk Hy]]%lookup_insert_Some E; [done| | |by eapply Hu].
    + eapply Hu; [exact Hj|exact Hy|congruence].
    + eapply Hu; [exact Hx|exact Hj|congruence].
  - intros i a Hi R. destruct (Hf i a Hi R) as [X|(k & x & Hk & E)]; [by left|right].
    destruct (decide (k = id)) as [->|Hn].
    + exists id, j'. rewrite lookup_insert_eq. split; [done|]. congruence.
    + exists k, x. by rewrite lookup_insert_ne.
Qed.

Lemma jobs_ok_insert s id j : jobs_ok s -> md_jobs s !! id = None -> (forall i k, md_jobs s !! i = Some k -> mj_Attempt k <> mj_Attempt j) ->
  provider_id_free (md_jobs s) id j = true -> job_ok j -> mj_State j = JQueued -> attempt_for true (md_db s) (mj_Attempt j) ->
  jobs_ok (mkMdb (md_db s) (<[id := j]> (md_jobs s))).
Proof.
  intros [Hr Ha Hu Hf Hix Hc] Hj Hun Hfree Ho Hq Hm. split; cbn [md_db md_jobs]; [| | | |by apply index_insert|done].
  - intros i k [[<- <-]|[_ Hk]]%lookup_insert_Some; eauto.
  - intros i k [[<- <-]|[_ Hk]]%lookup_insert_Some; [|eauto]. split; [done|]. intros a Hat. rewrite Hq. split; [|done].
    intros _. destruct (running a) eqn:R; [|done]. exfalso. destruct (Hf _ a Hat R) as [X|(i & k & Hk & E)]; [by eapply attempt_for_one|by eapply Hun].
  - intros i k x y [[<- <-]|[Hni Hx]]%lookup_insert_Some [[<- <-]|[Hnk Hy]]%lookup_insert_Some E; [done|..|by eapply Hu]; exfalso; by eapply Hun.
  - intros i a Hi R. destruct (Hf i a Hi R) as [X|(k & x & Hk & E)]; [by left|right]. exists k, x.
    rewrite lookup_insert_ne by congruence. done.
Qed.

(** * What a step promises *)

(** A row later on: what was fixed stays, an ended job stays as it ended, and
    no job is queued again. *)
Record job_kept (j j' : MediaJob) : Prop := mkJobKept {
  kp_snapshot : mj_Snapshot j' = mj_Snapshot j;
  kp_ended : ended (mj_State j) = true ->
    (mj_State j', mj_ProviderJob j', mj_Output j', mj_OutputBytes j', mj_Error j', mj_Completed j')
    = (mj_State j, mj_ProviderJob j, mj_Output j, mj_OutputBytes j, mj_Error j, mj_Completed j);
  kp_queued : mj_State j' = JQueued -> mj_State j = JQueued;
  kp_cancel : mj_CancelRequested j = true -> mj_CancelRequested j' = true;
  kp_revision : mj_Revision j <= mj_Revision j' }.

Lemma job_kept_refl j : job_kept j j.
Proof. split; auto; lia. Qed.
Lemma job_kept_trans a b c : job_kept a b -> job_kept b c -> job_kept a c.
Proof.
  intros [A1 A2 A3 A4 A5] [B1 B2 B3 B4 B5]. split; [congruence| |auto|auto|lia].
  intros E. pose proof (A2 E) as K. injection K as K1 K2 K3 K4 K5 K6. rewrite B2 by (by rewrite K1). congruence.
Qed.

(** What the API and the other services do to a row: they ask for its
    cancellation. *)
Definition job_asked (j j' : MediaJob) : Prop :=
  mj_ProviderJob j' = mj_ProviderJob j /\ mj_PollFailures j' = mj_PollFailures j /\
  (mj_State j' = mj_State j \/ (mj_State j = JQueued /\ mj_State j' = JCanceled) \/ (in_flight (mj_State j) = true /\ mj_State j' = JCanceling)).

Lemma job_asked_trans a b c : job_asked a b -> job_asked b c -> job_asked a c.
Proof.
  intros (E1 & F1 & S1) (E2 & F2 & S2). split; [congruence|]. split; [congruence|]. destruct S1 as [S1|[[S1 S1']|[S1 S1']]], S2 as [S2|[[S2 S2']|[S2 S2']]]; rewrite ?S1, ?S1', ?S2' in *; try done; auto 8.
Qed.

Definition rows_step (R : MediaJob -> MediaJob -> Prop) (s s' : mdb) : Prop :=
  forall id j, md_jobs s !! id = Some j -> exists j', md_jobs s' !! id = Some j' /\ R j j'.

(** Any step, and a step of the API or of another service. *)
Record any_step (s s' : mdb) : Prop := mkAnyStep {
  an_rows : rows_step job_kept s s'; an_db : follows (fun _ => True) (md_db s) (md_db s') }.
Record api_step (s s' : mdb) : Prop := mkApiStep {
  ap_rows : rows_step (fun j j' => job_kept j j' /\ job_asked j j') s s';
  ap_db : follows (attempt_for false (md_db s')) (md_db s) (md_db s') }.

#[export] Instance any_preorder : PreOrder any_step.
Proof.
  split; [intros s; split; [|reflexivity]; intros id j Hj; eauto using job_kept_refl|].
  intros s1 s2 s3 [R1 D1] [R2 D2]. split; [|by etransitivity].
  intros id j (j' & Hj' & K)%R1. destruct (R2 id j' Hj') as (k & Hk & K'). eauto using job_kept_trans.
Qed.

#[export] Instance api_preorder : PreOrder api_step.
Proof.
  split.
  - intros s. split; [|reflexivity]. intros id j Hj. exists j. split; [done|]. split; [apply job_kept_refl|]. split_and!; auto.
  - intros s1 s2 s3 [R1 D1] [R2 D2]. split.
    + intros id j (j' & Hj' & K & A)%R1. destruct (R2 id j' Hj') as (k & Hk & K' & A'). eauto 6 using job_kept_trans, job_asked_trans.
    + transitivity (md_db s2); [|exact D2]. eapply follows_mono; [|exact D1]. intros id. by eapply attempt_for_later.
Qed.

Lemma api_any s s' : api_step s s' -> any_step s s'.
Proof.
  intros [R D]. split; [|by eapply follows_mono]. intros id j (j' & Hj' & K & _)%R. eauto.
Qed.

(** ** What the worker promises

    A cancelled job whose attempt is still live holds its reservation. Only
    the cancelling call may leave one behind, for it releases it next. *)
Definition withheld (s : mdb) (id att : string) : Prop :=
  exists j a, md_jobs s !! id = Some j /\ mj_State j = JCanceled /\ mj_Attempt j = att /\ t_attempts (md_db s) !! att = Some a /\ live a.
Definition tidy (s s' : mdb) : Prop := forall id att, withheld s' id att -> withheld s id att.

Record work_step (s s' : mdb) : Prop := mkWorkStep { wk_any : any_step s s'; wk_tidy : tidy s s' }.

#[export] Instance work_preorder : PreOrder work_step.
Proof.
  split; [intros s; split; [reflexivity|by intros ? ?]|]. intros s1 s2 s3 [A1 T1] [A2 T2]. split; [by etransitivity|]. intros id att H. by apply T1, T2.
Qed.

(** Statements of the accounting, and changes of a row. *)
Lemma tidy_db P s d : jobs_ok s -> follows P (md_db s) d -> tidy s (mkMdb d (md_jobs s)).
Proof.
  intros Hok F id att (j & a & Hj & Hc & <- & Ha & Hl). destruct (jo_attempts _ Hok id j Hj) as [(b & r & Hb & _) _].
  destruct (fw_attempts _ _ _ F _ b Hb) as (a' & Ha' & L). cbn in Ha. assert (a' = a) as -> by congruence. exists j, b. split_and!; [done..|]. by apply (lt_live _ _ L).
Qed.
Lemma tidy_row s id j j' : md_jobs s !! id = Some j -> mj_Snapshot j' = mj_Snapshot j ->
  (mj_State j' = JCanceled -> mj_State j = JCanceled \/ forall a, t_attempts (md_db s) !! mj_Attempt j = Some a -> ~ live a) ->
  tidy s (mkMdb (md_db s) (<[id := j']> (md_jobs s))).
Proof.
  intros Hj Es H i att (k & a & Hk & Hc & E & Ha & Hl). cbn in Hk, Ha. apply lookup_insert_Some in Hk as [[<- <-]|[Hn Hk]]; [|by exists k, a].
  assert (mj_Attempt j = att) as Ej by (rewrite <- E; unfold mj_Attempt; by rewrite Es).
  destruct (H Hc) as [Hc'|Hd]; [by exists j, a|]. exfalso. rewrite Ej in Hd. by apply (Hd a).
Qed.
Lemma work_db s d : jobs_ok s -> api_step s (mkMdb d (md_jobs s)) -> work_step s (mkMdb d (md_jobs s)).
Proof. intros Hok H. split; [by apply api_any|]. eapply tidy_db; [done|apply (ap_db _ _ H)]. Qed.
