(* ===== verification/MediaThreads.v ===== *)
(** The threads of media jobs: each program keeps the invariant of
    [MediaLife] and its promise, whatever the other threads do between its
    statements; and the system they make up. *)
From S2P Require Import Prelude GoStd Money Calendar Counters Policy Json Decode Marshal Decoded Store Grants PathMatch Catalogue Connections Sha256 Pricing PolicyService Admission Settlement Reservations Lifecycle Booking Reprice Reachable Attempts Keys Routing Programs Predictions MediaJobs MediaLife.
Open Scope string_scope.
Open Scope Z_scope.
Open Scope list_scope.

(** * The statements of media jobs *)

Notation safe := (Programs.safe jobs_ok).

Section Statements.
Variables (Rely Guar : relation mdb).
Context `{!PreOrder Rely, !PreOrder Guar}.
#[local] Notation held := (Programs.safe jobs_ok Rely Guar).

Lemma safe_service {A B} Q (m : db -> result B * db) (k : result B -> program A) s :
  (forall s' r d, Rely s s' -> jobs_ok s' -> m (md_db s') = (r, d) ->
     let s'' := mkMdb d (md_jobs s') in jobs_ok s'' /\ Guar s' s'' /\ held Q (k r) s'') -> held Q (service m ≫= k) s.
Proof. intros H. apply safe_statement. intros s' Hs Hok. destruct (m (md_db s')) as [r d] eqn:E. by apply H. Qed.

(** An UPDATE that changes no row, that is refused, and that changes one. *)
Lemma safe_update {A} Q id c f (k : result Z -> program A) s :
  (forall s', Rely s s' -> jobs_ok s' -> held Q (k (Ok 0)) s' /\ held Q (k (Err constraint_failed)) s' /\
     forall j, md_jobs s' !! id = Some j -> c j = true -> row_accepted (md_jobs s') id (f j) = true ->
       let s'' := mkMdb (md_db s') (<[id := f j]> (md_jobs s')) in jobs_ok s'' /\ Guar s' s'' /\ held Q (k (Ok 1)) s'') ->
  held Q (update_job id c f ≫= k) s.
Proof.
  intros H s' Hs Hok. cbn. destruct (H s' Hs Hok) as (H0 & He & H1).
  destruct (md_jobs s' !! id) as [j|] eqn:Ej; [|split; [done|]; split; [reflexivity|done]].
  destruct (c j) eqn:Ec; [|split; [done|]; split; [reflexivity|done]].
  destruct (row_accepted (md_jobs s') id (f j)) eqn:Er; [|split; [done|]; split; [reflexivity|done]].
  by apply H1.
Qed.

Lemma safe_insert {A} Q id j (k : result unit -> program A) s :
  (forall s', Rely s s' -> jobs_ok s' -> held Q (k (Err constraint_failed)) s' /\
     (md_jobs s' !! id = None -> (forall i x, md_jobs s' !! i = Some x -> mj_Attempt x <> mj_Attempt j) -> row_accepted (md_jobs s') id j = true ->
       let s'' := mkMdb (md_db s') (<[id := j]> (md_jobs s')) in jobs_ok s'' /\ Guar s' s'' /\ held Q (k (Ok tt)) s'')) ->
  held Q (insert_media_job id j ≫= k) s.
Proof.
  intros H s' Hs Hok. cbn. destruct (H s' Hs Hok) as (He & H1).
  destruct (bool_decide _ && _ && _) eqn:Ec; [|split; [done|]; split; [reflexivity|done]].
  rewrite !andb_true_iff in Ec. destruct Ec as [[Hn%bool_decide_eq_true Hun] Hch]. apply H1; [done| |done].
  intros i x Hx Heq. rewrite forallb_forall in Hun. specialize (Hun (i, x)). rewrite <- list_elem_of_In, elem_of_map_to_list in Hun.
  specialize (Hun Hx). cbn in Hun. by rewrite Heq, String.eqb_refl in Hun.
Qed.
End Statements.

(** * Steps *)

Lemma job_asked_refl j : job_asked j j.
Proof. unfold job_asked. auto. Qed.

(** A statement of the accounting that sets no attempt running. *)
Lemma db_step s d : follows nobody (md_db s) d -> api_step s (mkMdb d (md_jobs s)).
Proof.
  intros F. split; cbn; [|by apply follows_nobody]. intros id j Hj. exists j. split; [done|]. split; [apply job_kept_refl|apply job_asked_refl].
Qed.

Lemma db_ok s d : jobs_ok s -> follows nobody (md_db s) d -> jobs_ok (mkMdb d (md_jobs s)).
Proof. intros Hok F. apply jobs_ok_db; [done|]. by apply follows_nobody. Qed.

Lemma row_step (R : MediaJob -> MediaJob -> Prop) s id j j' : (forall x, R x x) -> md_jobs s !! id = Some j -> R j j' ->
  rows_step R s (mkMdb (md_db s) (<[id := j']> (md_jobs s))).
Proof.
  intros Hr Hj Hjj i k Hk. cbn. destruct (decide (i = id)) as [->|Hn].
  - rewrite lookup_insert_eq. assert (k = j) as -> by congruence. eauto.
  - rewrite lookup_insert_ne by done. eauto.
Qed.

Lemma any_row s id j j' : md_jobs s !! id = Some j -> job_kept j j' -> any_step s (mkMdb (md_db s) (<[id := j']> (md_jobs s))).
Proof. intros Hj K. split; [|reflexivity]. eapply row_step; eauto using job_kept_refl. Qed.

Lemma work_row s id j j' : md_jobs s !! id = Some j -> mj_Snapshot j' = mj_Snapshot j ->
  (mj_State j' = JCanceled -> mj_State j = JCanceled \/ forall a, t_attempts (md_db s) !! mj_Attempt j = Some a -> ~ live a) ->
  job_kept j j' -> work_step s (mkMdb (md_db s) (<[id := j']> (md_jobs s))).
Proof. intros Hj Es H K. split; [by apply (any_row _ _ j)|by eapply tidy_row]. Qed.

Lemma api_row s id j j' : md_jobs s !! id = Some j -> job_kept j j' -> job_asked j j' -> api_step s (mkMdb (md_db s) (<[id := j']> (md_jobs s))).
Proof.
  intros Hj K A. split; [|reflexivity]. eapply (row_step (fun j j' => job_kept j j' /\ job_asked j j')); [|exact Hj|done].
  intros x. split; [apply job_kept_refl|apply job_asked_refl].
Qed.

Lemma Settle_ok_step e id i s r d : jobs_ok s -> Settle e id i (md_db s) = (r, d) ->
  jobs_ok (mkMdb d (md_jobs s)) /\ api_step s (mkMdb d (md_jobs s)) /\ (r = Ok tt -> exists a, t_attempts d !! id = Some a /\ ~ live a).
Proof.
  intros Hok E. assert (follows nobody (md_db s) d) as F by (pose proof (Settle_follows nobody e id i (md_db s)) as F; by rewrite E in F).
  split; [by apply db_ok|]. split; [by apply db_step|]. intros ->. by eapply Settle_ends; [apply jo_closed|exact E].
Qed.

Lemma Cancel_ok_step e id s r d : jobs_ok s -> CancelBeforeDispatch e id (md_db s) = (r, d) ->
  jobs_ok (mkMdb d (md_jobs s)) /\ api_step s (mkMdb d (md_jobs s)) /\ (r = Ok tt -> exists a, t_attempts d !! id = Some a /\ ~ live a).
Proof.
  intros Hok E. assert (follows nobody (md_db s) d) as F by (pose proof (CancelBeforeDispatch_follows nobody e id (md_db s)) as F; by rewrite E in F).
  split; [by apply db_ok|]. split; [by apply db_step|]. intros ->. by eapply CancelBeforeDispatch_ends.
Qed.

(** * What a thread may know *)

(** The job, and that its attempt ended. *)
Definition known (id : string) (snap : JobSnapshot) (s : mdb) : Prop := exists j, md_jobs s !! id = Some j /\ mj_Snapshot j = snap.
Definition over (attemptID : string) (s : mdb) : Prop := exists a, t_attempts (md_db s) !! attemptID = Some a /\ ~ live a.

Lemma known_later id snap s s' : any_step s s' -> known id snap s -> known id snap s'.
Proof. intros [R _] (j & Hj & E). destruct (R id j Hj) as (j' & Hj' & K). exists j'. split; [done|]. rewrite (kp_snapshot _ _ K). done. Qed.
Lemma over_later id s s' : any_step s s' -> over id s -> over id s'.
Proof.
  intros [_ F] (a & Ha & Hd). destruct (fw_attempts _ _ _ F id a Ha) as (a' & Ha' & L). exists a'. split; [done|]. intros H. by apply Hd, (lt_live _ _ L).
Qed.

(** * The worker *)

Notation worker_safe := (safe api_step work_step).
Definition anything {A} (a : A) (s : mdb) : Prop := True.

Lemma worker_return {A} (a : A) s : worker_safe anything (Return a) s.
Proof. by intros s' _ _. Qed.
#[local] Hint Resolve worker_return : core.

(** A transaction of the accounting, with what it tells. *)
Lemma worker_service {A B} (Q : A -> mdb -> Prop) (m : db -> result B * db) (k : result B -> program A) s (T : result B -> db -> Prop) :
  (forall s' r d, jobs_ok s' -> m (md_db s') = (r, d) ->
     jobs_ok (mkMdb d (md_jobs s')) /\ api_step s' (mkMdb d (md_jobs s')) /\ T r d) ->
  (forall s' r, api_step s s' -> jobs_ok s' -> T r (md_db s') -> worker_safe Q (k r) s') ->
  worker_safe Q (service m ≫= k) s.
Proof.
  intros Hm Hk. apply safe_service; [apply _..|]. intros s' r d Hs Hok E. destruct (Hm s' r d Hok E) as (H1 & H2 & H3). split; [done|].
  split; [by apply work_db|]. apply Hk; [by transitivity s'|done|done].
Qed.

Definition tells_over (id : string) (r : result unit) (d : db) : Prop := r = Ok tt -> exists a, t_attempts d !! id = Some a /\ ~ live a.

(** Rows. *)
Lemma kept_open j j' : mj_Snapshot j' = mj_Snapshot j -> ended (mj_State j) = false -> mj_State j' <> JQueued ->
  mj_CancelRequested j' = mj_CancelRequested j -> mj_Revision j' = mj_Revision j + 1 -> job_kept j j'.
Proof. intros E En Hq Hc Hr. split; [done|congruence|done|congruence|lia]. Qed.

Lemma error_json_not_null c m : error_json c m =s "null" = false.
Proof. done. Qed.

(** The end of a job. *)
Lemma end_job_ok st err at_ j : job_ok j -> ended (mj_State j) = false -> ended st = true ->
  (st = JCanceled /\ err = None \/ (st = JFailed \/ st = JInterrupted) /\ exists c m, err = Some (error_json c m)) ->
  job_checks (end_job st err at_ j) = true -> job_ok (end_job st err at_ j).
Proof.
  intros [K1 K2 K3 K4 K5 K6 K7 K8 K9] En Est Herr Hc. split; cbn; [done|by rewrite Est|by rewrite Est| | |done|done| |].
  - intros Ho%K4. by rewrite Ho in En.
  - destruct Herr as [[-> ->]|[Hst (c & m & ->)]]; cbn.
    + rewrite K5. by destruct (mj_State j).
    + rewrite error_json_not_null. by destruct Hst as [-> | ->].
  - intros ->. done.
  - intros ->. done.
Qed.

Lemma over_attempt s j st : over (mj_Attempt j) s -> attempt_for true (md_db s) (mj_Attempt j) -> forall j', mj_State j' = st -> mj_Attempt j' = mj_Attempt j -> attempt_ok (md_db s) j'.
Proof.
  intros (a & Ha & Hd) Hm j' _ E. split; rewrite E; [done|]. intros b Hb. assert (b = a) as -> by congruence. split; [|done].
  intros _. unfold live in Hd. unfold running. by destruct (at_State a).
Qed.

(** The worker ends a job whose attempt is over. *)
Lemma worker_ends {A} (k : result Z -> program A) id snap c st err at_ s :
  known id snap s -> over (js_Attempt snap) s -> (forall j, c j = true -> ended (mj_State j) = false) -> ended st = true ->
  (st = JCanceled /\ err = None \/ (st = JFailed \/ st = JInterrupted) /\ exists c m, err = Some (error_json c m)) ->
  (forall r s', worker_safe anything (k r) s') ->
  worker_safe anything (update_job id c (end_job st err at_) ≫= k) s.
Proof.
  intros Hk Ho Hc Hst Herr Hr. apply safe_update; [apply _..|]. intros s' Hs Hok. split_and!; [apply Hr|apply Hr|].
  intros j Hj Hcj [Hch Hfree]%row_accepted_spec. apply Hc in Hcj. apply api_any in Hs. apply (known_later _ _ _ _ Hs) in Hk as (j0 & Hj0 & <-). assert (j0 = j) as -> by congruence.
  apply (over_later _ _ _ Hs) in Ho.
  split_and!; [|apply (work_row _ _ j); [done|done|intros _; right; destruct Ho as (a & Ha & Hd); intros b Hb; unfold mj_Attempt in Hb; by assert (b = a) as -> by congruence|]; apply kept_open; try done; by destruct st|apply Hr].
  eapply jobs_ok_row; [done|done|done|done|by apply end_job_ok; [apply (jo_rows _ Hok id)|..]|].
  eapply (over_attempt s' j st); [done|apply (jo_attempts _ Hok id j Hj)|done|done].
Qed.

Lemma failRow_safe e n id code message snap s : known id snap s -> over (js_Attempt snap) s -> worker_safe anything (failRow e n id code message) s.
Proof.
  intros Hk Ho. unfold failRow. eapply worker_ends; [exact Hk|exact Ho| |done| |intros; apply worker_return].
  - intros j. by destruct (ended (mj_State j)).
  - right. eauto.
Qed.

Lemma attempt_of_Some id s attemptID st : attempt_of id s = Some (attemptID, st) ->
  exists j a, md_jobs s !! id = Some j /\ t_attempts (md_db s) !! attemptID = Some a /\ mj_Attempt j = attemptID /\ at_State a = st.
Proof.
  unfold attempt_of. destruct (md_jobs s !! id) as [j|] eqn:Ej; [|done]. cbn. destruct (t_attempts (md_db s) !! mj_Attempt j) as [a|] eqn:Ea; [|done].
  intros [= <- <-]. eauto 6.
Qed.

(** Ending the attempt of a known job. *)
Lemma worker_settles {A} (Q : A -> mdb -> Prop) e id snap attemptID i (k : result unit -> program A) s : known id snap s ->
  (forall s' r, known id snap s' -> jobs_ok s' -> (r = Ok tt -> over attemptID s') -> worker_safe Q (k r) s') ->
  worker_safe Q (service (Settle e attemptID i) ≫= k) s.
Proof.
  intros Hk H. eapply (worker_service _ _ _ _ (tells_over attemptID)); [intros s2 r d Hok2 E2; exact (Settle_ok_step _ _ _ _ _ _ Hok2 E2)|].
  intros s2 r H2 Hok2 T. apply H; [|done|exact T]. eapply known_later; [by apply api_any|done].
Qed.

Lemma worker_cancels {A} (Q : A -> mdb -> Prop) e id snap attemptID (k : result unit -> program A) s : known id snap s ->
  (forall s' r, known id snap s' -> jobs_ok s' -> (r = Ok tt -> over attemptID s') -> worker_safe Q (k r) s') ->
  worker_safe Q (service (CancelBeforeDispatch e attemptID) ≫= k) s.
Proof.
  intros Hk H. eapply (worker_service _ _ _ _ (tells_over attemptID)); [intros s2 r d Hok2 E2; exact (Cancel_ok_step _ _ _ _ _ Hok2 E2)|].
  intros s2 r H2 Hok2 T. apply H; [|done|exact T]. eapply known_later; [by apply api_any|done].
Qed.

(** What a thread ends with when it knows the job, and its attempt over if
    the call went through. *)
Definition closing (id : string) (snap : JobSnapshot) (attemptID : string) (r : result unit) (s : mdb) : Prop :=
  known id snap s /\ (r = Ok tt -> over attemptID s).

Lemma worker_closing id snap attemptID r s : known id snap s -> (r = Ok tt -> over attemptID s) ->
  worker_safe (closing id snap attemptID) (Return r) s.
Proof.
  intros Hk Ho s' Hs%api_any Hok. split; [by eapply known_later|]. intros E. eapply over_later; [exact Hs|]. auto.
Qed.

Lemma fail_job_safe e n id code message s : worker_safe anything (fail_job e n id code message) s.
Proof.
  unfold fail_job. apply safe_query; [apply _..|]. intros s' Hs Hok. destruct (attempt_of id s') as [[attemptID st]|] eqn:E; [|done].
  apply attempt_of_Some in E as (j & a & Hj & Ha & Eat & Est). assert (known id (mj_Snapshot j) s') as Hk by (by exists j).
  apply (safe_bind _ _ _ (closing id (mj_Snapshot j) attemptID)).
  - case_bool_decide as Er; [|destruct (running_state st) eqn:Erun].
    + apply (worker_cancels _ _ id (mj_Snapshot j) _ Return); [done|]. intros. by apply worker_closing.
    + apply (worker_settles _ _ id (mj_Snapshot j) _ _ Return); [done|]. intros. by apply worker_closing.
    + apply worker_closing; [done|]. intros _. exists a. split; [done|]. unfold live. rewrite Est. by destruct st.
  - intros r s2 Hok2 [Hk2 Ho]. destruct r as [[]|err]; [|done]. eapply failRow_safe; [exact Hk2|]. rewrite <- Eat in Ho. by apply Ho.
Qed.

Lemma attempt_row id s attemptID : (mj_Attempt <$> md_jobs s !! id) = Some attemptID ->
  exists snap, known id snap s /\ attemptID = js_Attempt snap.
Proof. destruct (md_jobs s !! id) as [j|] eqn:E; [|done]. intros [= <-]. exists (mj_Snapshot j). split; [by exists j|done]. Qed.

Lemma completeLocalCancel_safe e id s : worker_safe anything (completeLocalCancel e id) s.
Proof.
  unfold completeLocalCancel. apply safe_query; [apply _..|]. intros s' Hs Hok. destruct (mj_Attempt <$> md_jobs s' !! id) as [attemptID|] eqn:E; [|done].
  apply attempt_row in E as (snap & Hk & ->). eapply worker_settles; [exact Hk|]. intros s2 r Hk2 Hok2 Ho. destruct r as [[]|]; [|done].
  eapply worker_ends; [exact Hk2|by apply Ho| |done|by left|done]. intros j Hj%bool_decide_eq_true. by rewrite Hj.
Qed.

Lemma recoverSubmission_safe e id s : worker_safe anything (recoverSubmission e id) s.
Proof.
  unfold recoverSubmission. apply safe_query; [apply _..|]. intros s' Hs Hok. destruct (attempt_of id s') as [[attemptID st]|] eqn:E; [|done].
  apply attempt_of_Some in E as (j & a & Hj & Ha & <- & Est). assert (known id (mj_Snapshot j) s') as Hk by (by exists j).
  case_bool_decide; [|destruct (running_state st); [|done]].
  - eapply worker_cancels; [exact Hk|]. intros s2 r Hk2 Hok2 Ho. destruct r as [[]|]; [|done]. eapply failRow_safe; [exact Hk2|by apply Ho].
  - eapply worker_settles; [exact Hk|]. intros s2 r Hk2 Hok2 Ho. destruct r as [[]|]; [|done].
    eapply worker_ends; [exact Hk2|by apply Ho| |done|right; eauto|done]. intros k Hk3%bool_decide_eq_true. by rewrite Hk3.
Qed.

(** ** Rows that stay open *)

Lemma attempt_ok_open s j j' : attempt_ok s j -> mj_Snapshot j' = mj_Snapshot j -> mj_State j' <> JQueued -> ended (mj_State j') = false -> attempt_ok s j'.
Proof. intros [Hm _] E Hq He. unfold attempt_ok, mj_Attempt. rewrite E. split; [done|]. intros a _. split; [intros [?|?]; congruence|congruence]. Qed.

Lemma attempt_ok_same s j j' : attempt_ok s j -> mj_Snapshot j' = mj_Snapshot j -> mj_State j' = mj_State j -> attempt_ok s j'.
Proof. unfold attempt_ok, mj_Attempt. by intros H -> ->. Qed.

Lemma reschedule_safe e id failures s : 0 <= failures < mediaMaxPollFailures -> worker_safe anything (reschedule e id failures) s.
Proof.
  intros Hf. unfold reschedule. apply safe_update; [apply _..|]. intros s' Hs Hok. split_and!; [done..|]. intros j Hj Hc [Hch Hfree]%row_accepted_spec. cbn in Hch.
  pose proof (jo_rows _ Hok id j Hj) as [K1 K2 K3 K4 K5 K6 K7 K8 K9]. split_and!; [|apply (work_row _ _ j); [done|done|by left|]|done].
  - eapply jobs_ok_row; [done|exact Hj|done|done|by split|]. by eapply attempt_ok_same; [apply (jo_attempts _ Hok id j Hj)|..].
  - apply kept_open; try done; by destruct (mj_State j).
Qed.

(** ** Predictions *)

Lemma normalize_states status st terminal : normalizeProviderState status = Some (st, terminal) ->
  terminal = ended st /\ st ∈ [JStarting; JProcessing; JSucceeded; JFailed; JCanceled].
Proof.
  unfold normalizeProviderState. repeat (destruct (_ =s _) || destruct (_ || _)); intros [= <- <-]; (split; [done|]); by repeat constructor.
Qed.

(** What [applyPrediction] stores agrees with the state it stores. *)
Record stored_ok (st : JobState) (x : JobState * option (string * string) * Z * string) : Prop := mkStoredOk {
  so_state : x.1.1.1 = st \/ st = JSucceeded /\ x.1.1.1 = JFailed;
  so_output : is_some x.1.1.2 = true -> x.1.1.1 = JSucceeded;
  so_error : x.2 = "null" \/ x.1.1.1 = JFailed }.

Section Worker.
Variable host : MediaHost.

Lemma stored_output_ok e id keyID output : stored_ok JSucceeded (stored_output host e id keyID JSucceeded output).
Proof.
  unfold stored_output. destruct (maxOutputBytes <? str_len output); [|destruct (seal host e 0 _ output)]; split; cbn; try done; auto.
Qed.

Definition prediction_known (id : string) (p : providerPrediction) (s : mdb) : Prop :=
  exists snap, known id snap s /\ provider_id_ok (js_Provider snap) (pd_ID p) = true.

Lemma prediction_known_later id p s s' : any_step s s' -> prediction_known id p s -> prediction_known id p s'.
Proof. intros H (snap & Hk & Hp). exists snap. split; [by eapply known_later|done]. Qed.

Lemma predicted_ok p st out size err terminal at_ j :
  job_ok j -> in_flight (mj_State j) = true -> terminal = ended st -> st ∈ [JStarting; JProcessing; JSucceeded; JFailed; JCanceled] ->
  (is_some out = true -> st = JSucceeded) -> negb (err =s "null") = bool_decide (st = JFailed) ->
  provider_id_ok (js_Provider (mj_Snapshot j)) (pd_ID p) = true ->
  job_checks (predicted p st out size err terminal at_ j) = true -> job_ok (predicted p st out size err terminal at_ j).
Proof.
  intros [K1 K2 K3 K4 K5 K6 K7 K8 K9] Hfl -> Hst Hout Herr Hid Hch.
  assert (is_some (mj_Input j) = true) as Hin by (rewrite K3; by destruct (mj_State j)).
  split; cbn; [exact Hch|by destruct (ended st)|by destruct (ended st)|exact Hout| |done|by right| |].
  - rewrite Herr. repeat (apply elem_of_cons in Hst as [->|Hst]; [done|]). by apply elem_of_nil in Hst.
  - intros ->. exfalso. repeat (apply elem_of_cons in Hst as [?|Hst]; [done|]). by apply elem_of_nil in Hst.
  - intros ->. exfalso. repeat (apply elem_of_cons in Hst as [?|Hst]; [done|]). by apply elem_of_nil in Hst.
Qed.

(** The last statement of [applyPrediction]. *)
Lemma predicted_safe {A} (k : result Z -> program A) id snap p st out size err terminal at_ s :
  known id snap s -> (terminal = true -> over (js_Attempt snap) s) -> terminal = ended st -> st ∈ [JStarting; JProcessing; JSucceeded; JFailed; JCanceled] ->
  (is_some out = true -> st = JSucceeded) -> negb (err =s "null") = bool_decide (st = JFailed) ->
  provider_id_ok (js_Provider snap) (pd_ID p) = true -> (forall r s', worker_safe anything (k r) s') ->
  worker_safe anything (update_job id (fun j => in_flight (mj_State j)) (predicted p st out size err terminal at_) ≫= k) s.
Proof.
  intros Hk Ho Ht Hst Hout Herr Hid Hr. apply safe_update; [apply _..|]. intros s' Hs Hok. split_and!; [apply Hr|apply Hr|].
  intros j Hj Hfl [Hch Hfree]%row_accepted_spec. cbn in Hfl, Hch. apply api_any in Hs. apply (known_later _ _ _ _ Hs) in Hk as (j0 & Hj0 & <-). assert (j0 = j) as -> by congruence.
  pose proof (jo_attempts _ Hok id j Hj) as Hat.
  assert (st <> JQueued) as Hq by (intros ->; repeat (apply elem_of_cons in Hst as [?|Hst]; [done|]); by apply elem_of_nil in Hst).
  split_and!; [|apply (work_row _ _ j); [done|done| |]; [|apply kept_open; try done; by destruct (mj_State j)]|apply Hr].
  2: { cbn. intros ->. right. rewrite Ht in Ho. destruct (over_later _ _ _ Hs (Ho eq_refl)) as (a & Ha & Hd). intros b Hb. unfold mj_Attempt in Hb. by assert (b = a) as -> by congruence. }
  eapply jobs_ok_row; [done|exact Hj|done|done|apply predicted_ok; try done; by apply (jo_rows _ Hok id)|].
  destruct (ended st) eqn:E.
  - eapply (over_attempt s' j st); [|apply Hat|done|done]. eapply over_later; [exact Hs|]. by apply Ho.
  - by eapply attempt_ok_open.
Qed.

Lemma applyPrediction_safe e id p s : prediction_known id p s -> worker_safe anything (applyPrediction host e id p) s.
Proof.
  intros Hk. unfold applyPrediction. destruct (normalizeProviderState (pd_Status p)) as [[st terminal]|] eqn:En; [|apply fail_job_safe].
  apply normalize_states in En as [-> Hst].
  apply (safe_bind _ _ _ (fun x s2 => prediction_known id p s2 /\ match x with Some x => stored_ok st x | None => True end)).
  - destruct (ended st && bool_decide (st = JSucceeded) && negb (pd_Output p =s "null")) eqn:E.
    + apply andb_true_iff in E as [E _]. apply andb_true_iff in E as [_ ->%bool_decide_eq_true].
      apply safe_query; [apply _..|]. intros s2 H2 Hok2 s3 H3 Hok3. split; [apply api_any in H2, H3; by do 2 (eapply prediction_known_later; [eassumption|])|].
      destruct (md_jobs s2 !! id); [|done]. apply stored_output_ok.
    + intros s2 H2%api_any Hok2. split; [by eapply prediction_known_later|]. split; cbn; auto. done.
  - clear Hk. intros x s2 Hok2 [Hk Hx]. destruct x as [[[[st' out] size] err]|]; [|done]. destruct Hx as [X1 X2 X3]. cbn in X1, X2, X3.
    assert (ended st' = ended st /\ st' ∈ [JStarting; JProcessing; JSucceeded; JFailed; JCanceled]) as [E' Hst'].
    { destruct X1 as [->|[-> ->]]; [done|]. split; [done|]. by repeat constructor. }
    destruct Hk as (snap & Hk & Hid).
    apply (safe_bind _ _ _ (fun r s3 => known id snap s3 /\ (r = Ok tt -> ended st = true -> over (js_Attempt snap) s3))).
    + destruct (ended st) eqn:Et.
      * apply safe_query; [apply _..|]. intros s3 H3%api_any Hok3. apply (known_later _ _ _ _ H3) in Hk.
        destruct Hk as (j & Hj & <-). rewrite Hj. cbn.
        apply (worker_settles _ _ id (mj_Snapshot j) _ _ Return); [by exists j|]. intros s4 r Hk4 Hok4 Ho s5 H5%api_any Hok5.
        split; [by eapply known_later|]. intros Er _. eapply over_later; [exact H5|]. by apply Ho.
      * intros s3 H3%api_any Hok3. split; [by eapply known_later|done].
    + clear Hk. intros r s3 Hok3 [Hk Ho]. destruct r as [[]|]; [|done].
      eapply predicted_safe; [exact Hk|by apply Ho|done|done|exact X2| |exact Hid|done].
      destruct (bool_decide (st' = JFailed) && (err =s "null")) eqn:E; [apply andb_true_iff in E as [-> _]; done|].
      apply andb_false_iff in E. case_bool_decide as Ef; [destruct E as [E|E]; [done|by rewrite E]|].
      by destruct X3 as [->|?].
Qed.

(** ** Claiming *)

(** The worker's own job: submitted, and its attempt not yet with the provider. *)
Definition claimed (id : string) (snap : JobSnapshot) (s : mdb) : Prop :=
  exists j, md_jobs s !! id = Some j /\ mj_Snapshot j = snap /\ (mj_State j = JSubmitting \/ mj_State j = JCanceling) /\
    forall a, t_attempts (md_db s) !! mj_Attempt j = Some a -> running a = false.

Lemma claimed_known id snap s : claimed id snap s -> known id snap s.
Proof. intros (j & Hj & E & _). by exists j. Qed.

Lemma claimed_later id snap s s' : jobs_ok s -> api_step s s' -> claimed id snap s -> claimed id snap s'.
Proof.
  intros Hok [R F] (j & Hj & Es & Hst & Hr). destruct (R id j Hj) as (j' & Hj' & K & (_ & _ & A)).
  pose proof (kp_snapshot _ _ K) as Es'. exists j'. split_and!; [done|congruence| |].
  - destruct A as [->|[[A _]|[_ A]]]; [done| |by right]. rewrite A in Hst. by destruct Hst.
  - unfold mj_Attempt in *. rewrite Es'. destruct (jo_attempts _ Hok id j Hj) as [Hm _]. pose proof Hm as (a & r & Ha & _ & _).
    intros a' Ha'. destruct (running a') eqn:E; [|done]. destruct (fw_running _ _ _ F _ _ Ha' E) as [X|(b & Hb & Rb)].
    + exfalso. eapply attempt_for_one; [|exact X]. by eapply attempt_for_later.
    + by rewrite (Hr b Hb) in Rb.
Qed.

Lemma first_job_Some key c s id j : first_job key c s = Some (id, j) -> md_jobs s !! id = Some j /\ c j = true.
Proof.
  unfold first_job. intros H%head_Some_elem_of. rewrite list_elem_of_In, SliceStable_perm in H. rewrite <- list_elem_of_In in H.
  by apply elem_of_select_rows in H.
Qed.

Lemma claimQueued_safe e s :
  worker_safe (fun r s' => match r with Some (id, job, _) => claimed id (mj_Snapshot job) s' | None => True end) (claimQueued host e) s.
Proof.
  unfold claimQueued. apply safe_query; [apply _..|]. intros s1 H1 Hok1. destruct (first_job _ _ s1) as [[id job]|] eqn:E; [|by intros s2 _ _].
  apply first_job_Some in E as [Hj _]. apply safe_update; [apply _..|]. intros s2 H2 Hok2. split_and!; [by intros s3 _ _|by intros s3 _ _|].
  intros j Hj2 Hq%bool_decide_eq_true [Hch Hfree]%row_accepted_spec. cbn in Hch.
  assert (mj_Snapshot j = mj_Snapshot job) as Es.
  { destruct (ap_rows _ _ H2 id job Hj) as (j2 & Hj2' & K & _). assert (j2 = j) as -> by congruence. apply (kp_snapshot _ _ K). }
  pose proof (jo_rows _ Hok2 id j Hj2) as [K1 K2 K3 K4 K5 K6 K7 K8 K9]. rewrite Hq in K2, K3, K4, K5.
  pose proof (jo_attempts _ Hok2 id j Hj2) as Hat.
  set (j' := mkMediaJob _ _ _ _ _ _ _ _ _ _ _ _ _). set (s3 := mkMdb _ _).
  assert (jobs_ok s3) as Hok3.
  { eapply jobs_ok_row; [done|exact Hj2|done|done| |by eapply attempt_ok_open]. split; cbn; try done. intros Ho%K4. done. }
  split_and!; [done|apply (work_row _ _ j); [done|done|done|]; apply kept_open; try done; cbn; by rewrite Hq|].
  assert (claimed id (mj_Snapshot job) s3) as Hc.
  { exists j'. unfold s3. cbn. rewrite lookup_insert_eq. split_and!; [done|done|by left|]. intros a Ha. apply (proj2 Hat a Ha). auto. }
  assert (forall n c m, worker_safe (fun r s' => match r with Some (id, job, _) => claimed id (mj_Snapshot job) s' | None => True end)
            (fail_job e n id c m ≫= fun _ => Return (None : option (string * MediaJob * string))) s3) as Hf.
  { intros n c m. eapply safe_bind; [apply _|apply fail_job_safe|]. by intros ? ? _ _ ? _ _. }
  destruct (mj_Input job ≫= _) as [plain|]; [|apply Hf]. destruct (jsonObject plain); [|apply Hf].
  intros s4 H4 Hok4. exact (claimed_later _ _ _ _ Hok3 H4 Hc).
Qed.

(** ** Programs that only read *)

Lemma TargetOf_reading id : reading (TargetOf host id).
Proof.
  unfold TargetOf. apply reading_query_bind. intros r. apply reading_attempting. intros t. apply reading_query_bind. intros [c|]; apply reading_return.
Qed.

Lemma job_target_reading e job : reading (job_target host e job).
Proof.
  unfold job_target. apply reading_query_bind. intros [p|err]; [|apply reading_return]. destruct (negb _); [apply reading_return|].
  apply reading_bind; [apply TargetOf_reading|]. intros r. apply reading_attempting. intros t. destruct (_ || _); apply reading_return.
Qed.

(** ** Submitting and polling *)

Lemma MarkDispatching_Err id d err d' : MarkDispatching id d = (Err err, d') -> d' = d /\ forall a, t_attempts d !! id = Some a -> at_State a <> AtReserved.
Proof.
  unfold MarkDispatching, commit, mark_attempt, mbind, tx_bind, update_row. destruct (t_attempts d !! id) as [a|] eqn:E.
  - case_bool_decide; cbn; [done|]. intros [= _ <-]. split; [done|]. by intros ? [= <-].
  - cbn. by intros [= _ <-].
Qed.

Lemma submit_safe e id job input s : jobs_ok s -> claimed id (mj_Snapshot job) s -> worker_safe anything (submit host e id job input) s.
Proof.
  intros Hok0 Hc0. unfold submit.
  apply (safe_bind _ _ _ (fun _ => claimed id (mj_Snapshot job))).
  { apply reading_safe; [apply _..|intros ? ? Hok1 H1 Hc1; exact (claimed_later _ _ _ _ Hok1 H1 Hc1)|apply job_target_reading|done|done]. }
  clear s Hok0 Hc0. intros [t|err] s Hok Hc; [|apply fail_job_safe].
  apply safe_query; [apply _..|]. intros s1 H1 Hok1. destruct (negb _); [apply fail_job_safe|].
  apply (claimed_later _ _ _ _ Hok H1) in Hc. clear s H1 Hok.
  apply safe_service; [apply _..|]. intros s2 r d H2 Hok2 E. apply (claimed_later _ _ _ _ Hok1 H2) in Hc. pose proof Hc as (j & Hj & Es & Hst & Hr).
  assert (mj_Attempt job = mj_Attempt j) as Ea by (unfold mj_Attempt; by rewrite Es). rewrite Ea in *.
  assert (d = snd (MarkDispatching (mj_Attempt j) (md_db s2))) as Ed by (by rewrite E).
  assert (known id (mj_Snapshot job) (mkMdb d (md_jobs s2))) as Hk by (exists j; done).
  destruct (jo_attempts _ Hok2 id j Hj) as [Hm _]. split; [|split].
  - rewrite Ed. eapply jobs_ok_mark; [done|exact Hj|]. by destruct Hst as [-> | ->].
  - assert (follows (fun _ => True) (md_db s2) d) as F by (rewrite Ed; by apply MarkDispatching_follows).
    split; [|by eapply tidy_db]. split; [intros i k Hi; exists k; split; [done|apply job_kept_refl]|done].
  - destruct r as [[]|err].
    + destruct (create_call _ _ _ _ _) as [?|p] eqn:Ec; [apply fail_job_safe|]. apply applyPrediction_safe. exists (mj_Snapshot job).
      split; [done|]. by eapply create_call_id.
    + apply MarkDispatching_Err in E as [-> Hres]. destruct Hm as (a & q & Ha & _ & _).
      assert (over (mj_Attempt j) (mkMdb (md_db s2) (md_jobs s2))) as Ho.
      { exists a. split; [done|]. pose proof (Hr a Ha) as R. specialize (Hres a Ha). unfold running in R. unfold live. by destruct (at_State a). }
      apply safe_start; [apply _|]. intros s3 H3%api_any Hok3. apply (known_later _ _ _ _ H3) in Hk. apply (over_later _ _ _ H3) in Ho.
      apply (worker_service _ _ _ _ (fun _ _ => True)).
      { intros s4 r d Hok4 E4. destruct (Cancel_ok_step _ _ _ _ _ Hok4 E4) as (? & ? & _). done. }
      intros s4 r H4%api_any Hok4 _. eapply failRow_safe; [by eapply known_later|].
      apply (over_later _ _ _ H4) in Ho. unfold mj_Attempt in Ho. by rewrite Es in Ho.
Qed.

Lemma poll_safe e id job s : jobs_ok s -> known id (mj_Snapshot job) s -> 0 <= mj_PollFailures job -> worker_safe anything (poll host e id job) s.
Proof.
  intros Hok0 Hk0 Hf. unfold poll. destruct (_ && _); [apply completeLocalCancel_safe|].
  apply (safe_bind _ _ _ (fun _ => known id (mj_Snapshot job))).
  { apply reading_safe; [apply _..|intros ? ? _ ?%api_any; by eapply known_later|apply job_target_reading|done|done]. }
  clear s Hok0 Hk0. intros [t|err] s Hok Hk; [|apply fail_job_safe].
  apply safe_query; [apply _..|]. intros s1 H1%api_any Hok1. destruct (negb _); [apply fail_job_safe|].
  apply (known_later _ _ _ _ H1) in Hk. destruct (poll_call _ _ _ _) as [err|p] eqn:Ec.
  - destruct (negb (retryableProviderError err)); [apply fail_job_safe|]. destruct (Z.leb_spec mediaMaxPollFailures (mj_PollFailures job + 1)); [apply fail_job_safe|].
    apply reschedule_safe. lia.
  - apply applyPrediction_safe. exists (mj_Snapshot job). split; [done|]. by eapply poll_call_id.
Qed.

Lemma workOnce_safe e s : worker_safe anything (workOnce host e) s.
Proof.
  unfold workOnce. eapply safe_bind; [apply _|apply claimQueued_safe|]. intros [[[id job] input]|] s1 Hok1 Hc.
  - eapply safe_bind; [apply _|by apply submit_safe|done].
  - apply safe_query; [apply _..|]. intros s2 H2 Hok2. destruct (first_job _ _ s2) as [[id job]|] eqn:E; [|done].
    apply first_job_Some in E as [Hj _]. eapply safe_bind; [apply _| |done]. apply poll_safe; [done|by exists job|].
    apply (jk_failures _ (jo_rows _ Hok2 id job Hj)).
Qed.
End Worker.

Lemma recover_each_safe e ids s : worker_safe anything (recover_each e ids) s.
Proof.
  revert e s. induction ids as [|id ids IH]; intros e s; [done|]. cbn [recover_each]. eapply safe_bind; [apply _|apply recoverSubmission_safe|]. intros; apply IH.
Qed.

(** All rows changed where no one looks. *)
Lemma jobs_ok_all s f : (forall j, mj_Snapshot (f j) = mj_Snapshot j /\ mj_State (f j) = mj_State j /\ mj_ProviderJob (f j) = mj_ProviderJob j) -> (forall j, job_ok j -> job_ok (f j)) ->
  (forall j, job_kept j (f j)) ->
  jobs_ok s -> let s' := mkMdb (md_db s) (map_imap (fun _ j => Some (f j)) (md_jobs s)) in jobs_ok s' /\ work_step s s'.
Proof.
  intros Hf Hj Hk [Hr Ha Hu Hru Hix Hc]. cbn zeta.
  assert (forall id j', map_imap (fun _ j => Some (f j)) (md_jobs s) !! id = Some j' -> exists j, md_jobs s !! id = Some j /\ j' = f j) as L.
  { intros id j'. rewrite map_lookup_imap. destruct (md_jobs s !! id) as [j|]; [|done]. cbn. intros [= <-]. eauto. }
  split; [split; cbn [md_db md_jobs]; [..|done]|split; [split; [|reflexivity]|]].
  - intros id j' (j & E & ->)%L. eauto.
  - intros id j' (j & E & ->)%L. destruct (Hf j) as (Es & Et & _). by eapply attempt_ok_same; [by eapply Ha|..].
  - intros i k x y (x0 & Ex & ->)%L (y0 & Ey & ->)%L E. eapply Hu; [done|done|]. unfold mj_Attempt in E.
    destruct (Hf x0) as (Es1 & _). destruct (Hf y0) as (Es2 & _). rewrite Es1, Es2 in E. exact E.
  - intros id a Hat R. destruct (Hru id a Hat R) as [X|(i & j & Hi & E)]; [by left|right]. exists i, (f j). rewrite map_lookup_imap, Hi.
    split; [done|]. unfold mj_Attempt in *. destruct (Hf j) as [-> _]. done.
  - intros i k x y (x0 & Ex & ->)%L (y0 & Ey & ->)%L. destruct (Hf x0) as (-> & _ & ->), (Hf y0) as (-> & _ & ->). by apply Hix.
  - intros id j E. cbn. rewrite map_lookup_imap, E. eauto.
  - intros id att (x & a & (j & Ej & ->)%L & Hs & Ea & Hat & Hl). destruct (Hf j) as (Es & Et & _). exists j, a. split_and!; [done|congruence| |done|done].
    unfold mj_Attempt in *. by rewrite <- Es.
Qed.

Lemma recoverInterrupted_safe e s : worker_safe anything (recoverInterrupted e) s.
Proof.
  unfold recoverInterrupted. apply safe_query; [apply _..|]. intros s1 H1 Hok1. eapply safe_bind; [apply _|apply recover_each_safe|].
  intros [] s2 Hok2 _ s3 H3 Hok3. cbn.
  match goal with |- jobs_ok ?s' /\ _ => assert (jobs_ok s' /\ work_step s3 s') as [? ?] end; [|by split_and!].
  apply jobs_ok_all; [| | |done].
  - intros j. by destruct (active (mj_State j)).
  - intros j Hj. destruct (active (mj_State j)); [|done]. by destruct Hj.
  - intros j. destruct (active (mj_State j)); [split; cbn; auto; lia|apply job_kept_refl].
Qed.
