(* ===== verification/MediaSystem.v ===== *)
(** Media jobs as a system: the calls of the API, each a thread of its own,
    the worker, and the other services on the same database, interleaved
    statement by statement, with restarts at any moment. *)
From S2P Require Import Prelude GoStd Money Calendar Counters Policy Json Decode Marshal Decoded Store Grants PathMatch Catalogue Connections Sha256 Pricing PolicyService Admission Settlement Reservations Lifecycle Booking Reprice Reachable Attempts Keys Routing Programs Predictions MediaJobs MediaLife MediaThreads.
Open Scope string_scope.
Open Scope Z_scope.
Open Scope list_scope.

(** * The calls of the API *)

Notation call_safe := (safe any_step api_step).

Lemma call_return {A} (a : A) s : call_safe anything (Return a) s.
Proof. by intros s' _ _. Qed.
#[local] Hint Resolve call_return : core.

Lemma reading_call {A} (p : program A) s : reading p -> call_safe anything p s.
Proof.
  intros Hp. revert s. induction Hp as [a|B f k _ IH]; intros s; [done|]. intros s' H Hok. split; [done|]. split; [reflexivity|]. apply IH.
Qed.

Lemma get_reading host id owner key output : reading (get host id owner key output).
Proof. unfold get. apply (reading_query _ ). intros; apply reading_return. Qed.

(** A cancellation is asked of the row. *)
Lemma request_cancel_ok at_ j : job_ok j -> job_checks (request_cancel at_ j) = true ->
  job_ok (request_cancel at_ j) /\ job_kept j (request_cancel at_ j) /\ job_asked j (request_cancel at_ j).
Proof.
  intros [K1 K2 K3 K4 K5 K6 K7 K8 K9] Hc. unfold request_cancel in *. destruct (mj_State j) eqn:Est; cbn in *;
    (split; [split; cbn; rewrite ?K2, ?K3, ?K5; try done; by intros ?%K4|split; [split; cbn; rewrite ?Est; try done; try lia|split_and!; cbn; rewrite ?Est; auto]]).
Qed.

Lemma request_cancel_attempt at_ s j : attempt_ok s j -> attempt_ok s (request_cancel at_ j).
Proof.
  intros [Hm Ha]. split; [exact Hm|]. intros a Hat. specialize (Ha a Hat) as [H1 H2]. unfold request_cancel. destruct (mj_State j) eqn:E; cbn; naive_solver.
Qed.

Section Calls.
Variable host : MediaHost.

Lemma cancel_job_safe e id owner key s : call_safe anything (cancel_job host e id owner key) s.
Proof.
  unfold cancel_job. apply safe_update; [apply _..|]. intros s1 H1 Hok1. split_and!.
  - cbn. done.
  - cbn. done.
  - intros j Hj Hc [Hch Hfree]%row_accepted_spec. pose proof (request_cancel_ok _ _ (jo_rows _ Hok1 id j Hj) Hch) as (Ho & Hk & Hask). split_and!.
    + eapply jobs_ok_row; [done|exact Hj|done|done|done|]. apply request_cancel_attempt, (jo_attempts _ Hok1 id j Hj).
    + by eapply api_row.
    + cbn [attempting]. change (1 =? 0) with false. cbv iota. apply safe_query; [apply _..|]. intros s2 H2 Hok2.
      eapply safe_bind; [apply _| |intros; apply reading_call, get_reading].
      destruct (md_jobs s2 !! id) as [k|]; [|done]. case_bool_decide; [|done].
      change (service ?m) with (service m ≫= Return). apply safe_service; [apply _..|]. intros s3 r d H3 Hok3 E.
      destruct (Cancel_ok_step _ _ _ _ _ Hok3 E) as (? & ? & _). by split_and!.
Qed.

Lemma new_job_ok snap sealed at_ :
  job_checks (mkMediaJob snap "" JQueued (Some sealed) None 0 "null" false 0 at_ 1 at_ None) = true ->
  job_ok (mkMediaJob snap "" JQueued (Some sealed) None 0 "null" false 0 at_ 1 at_ None).
Proof. intros H. split; cbn; auto; done. Qed.

Lemma CreateJob_safe e p i s : call_safe anything (CreateJob host e p i) s.
Proof.
  unfold CreateJob. destruct (_ || _); [done|]. eapply safe_bind; [apply _|apply reading_call, TargetOf_reading|]. intros [t|err] s1 Hok1 _; [|done]. cbn [attempting].
  destruct (check_create _ _ _ _) as [[]|]; [|done]. cbn [attempting]. destruct (seal host e 0 _ _) as [sealed|]; [|done].
  apply safe_query; [apply _..|]. intros s2 H2 Hok2. apply safe_service; [apply _..|]. intros s3 r d H3 Hok3 E.
  assert (follows nobody (md_db s3) d) as F by (pose proof (Admit_follows nobody (me_usage e 1) (media_admission p (TrimSpace (mi_Model i)) t (QuoteTime (me_usage e 0) (md_db s2)) (str_len (mi_Input i))) (md_db s3)) as F; by rewrite E in F).
  pose proof (db_ok _ _ Hok3 F) as Hok4. split; [done|]. split; [by apply db_step|]. destruct r as [a|err]; [|done]. cbn [attempting].
  apply Admit_new in E as (at_ & rq & Ha & Hrq & Eop); [|done].
  assert (attempt_for true d (ad_AttemptID a)) as Hm by (exists at_, rq; split_and!; [done|done|by rewrite Eop]).
  apply safe_insert; [apply _..|]. intros s5 H5 Hok5. split.
  - apply safe_service; [apply _..|]. intros s6 r d6 H6 Hok6 E6. destruct (Cancel_ok_step _ _ _ _ _ Hok6 E6) as (? & ? & _). by split_and!.
  - intros Hn Hun [Hch Hfree]%row_accepted_spec s6. assert (attempt_for true (md_db s5) (ad_AttemptID a)) as Hm5 by (eapply attempt_for_later; [apply (an_db _ _ H5)|exact Hm]).
    split_and!; [|split; [|reflexivity]|apply reading_call, get_reading].
    + apply jobs_ok_insert; [done|done|exact Hun|done|by apply new_job_ok|done|exact Hm5].
    + intros k j Hj. exists j. cbn. rewrite lookup_insert_ne by congruence. split; [done|]. split; [apply job_kept_refl|apply job_asked_refl].
Qed.
End Calls.

(** * The system *)

Section System.
Variables (host : MediaHost) (parse_time : string -> option Z).

(** A call of the API, whatever it answers. *)
Inductive api_call : program unit -> Prop :=
| call_create e p i : api_call (_ ← CreateJob host e p i; Return tt)
| call_cancel e p id : api_call (_ ← CancelJob host e p id; Return tt)
| call_admin_cancel e id : api_call (_ ← AdminCancel host e id; Return tt)
| call_get p id : api_call (_ ← GetJob host p id; Return tt)
| call_admin_get id : api_call (_ ← AdminGet host id; Return tt)
| call_list p n : api_call (_ ← ListJobs p n; Return tt)
| call_admin_list n : api_call (_ ← AdminList n; Return tt).

(** The database, the worker and the calls under way. *)
Record config := mkConfig { cf_state : mdb; cf_worker : program unit; cf_calls : list (program unit) }.

(** Operations of the usage service by others: they set running the attempts
    of their own operations only. *)
Definition others_operation (s : db) (op : operation) : Prop :=
  match op with OpMarkDispatching id => attempt_for false s id | _ => True end.

Inductive media_step (c : config) : config -> Prop :=
| step_called p : api_call p -> media_step c (mkConfig (cf_state c) (cf_worker c) (p :: cf_calls c))
| step_call l1 l2 B (f : mdb -> B * mdb) k : cf_calls c = l1 ++ Statement f k :: l2 ->
    media_step c (mkConfig (snd (f (cf_state c))) (cf_worker c) (l1 ++ k (fst (f (cf_state c))) :: l2))
| step_worker B (f : mdb -> B * mdb) k : cf_worker c = Statement f k ->
    media_step c (mkConfig (snd (f (cf_state c))) (k (fst (f (cf_state c)))) (cf_calls c))
| step_work e : cf_worker c = Return tt -> media_step c (mkConfig (cf_state c) (_ ← workOnce host e; Return tt) (cf_calls c))
| step_usage e op : others_operation (md_db (cf_state c)) op ->
    media_step c (mkConfig (mkMdb (perform parse_time e op (md_db (cf_state c))) (md_jobs (cf_state c))) (cf_worker c) (cf_calls c))
| step_others d : (t_attempts d, t_requests d, t_ledger d) = (t_attempts (md_db (cf_state c)), t_requests (md_db (cf_state c)), t_ledger (md_db (cf_state c))) ->
    media_step c (mkConfig (mkMdb d (md_jobs (cf_state c))) (cf_worker c) (cf_calls c))
| step_restart e e' : media_step c (mkConfig (mkMdb (snd (Recover e (md_db (cf_state c)))) (md_jobs (cf_state c))) (recoverInterrupted e') []).

(** The first start, on a database without attempts. *)
Definition first_start (c : config) : Prop :=
  md_jobs (cf_state c) = ∅ /\ t_attempts (md_db (cf_state c)) = ∅ /\ t_ledger (md_db (cf_state c)) = ∅ /\
  (exists e, cf_worker c = recoverInterrupted e) /\ cf_calls c = [].

Definition media_reachable (c : config) : Prop := exists c0, first_start c0 /\ rtc media_step c0 c.

(** ** Every reachable configuration keeps the invariant *)

Fixpoint calls_safe (l : list (program unit)) (s : mdb) : Prop :=
  match l with [] => True | p :: l => call_safe anything p s /\ calls_safe l s end.

Lemma calls_safe_app l1 l2 s : calls_safe (l1 ++ l2) s <-> calls_safe l1 s /\ calls_safe l2 s.
Proof. induction l1; cbn; tauto. Qed.

Record config_ok (c : config) : Prop := mkConfigOk {
  co_state : jobs_ok (cf_state c);
  co_worker : worker_safe anything (cf_worker c) (cf_state c);
  co_calls : calls_safe (cf_calls c) (cf_state c) }.

Lemma api_call_safe p s : api_call p -> call_safe anything p s.
Proof.
  intros []; eapply safe_bind; try apply _; try (intros; apply call_return).
  - apply CreateJob_safe.
  - unfold CancelJob. destruct (AllowsScope _ _); [apply cancel_job_safe|apply call_return].
  - apply cancel_job_safe.
  - unfold GetJob. destruct (AllowsScope _ _); [apply reading_call, get_reading|apply call_return].
  - apply reading_call, get_reading.
  - unfold ListJobs. destruct (AllowsScope _ _); [|apply call_return]. apply reading_call, reading_query_bind. intros; apply reading_return.
  - apply reading_call. unfold AdminList, list_jobs. apply (reading_query _). intros; apply reading_return.
Qed.

Lemma worker_later (p : program unit) s s' : api_step s s' -> worker_safe anything p s -> worker_safe anything p s'.
Proof. intros H. by apply safe_later; [apply _|]. Qed.

Lemma calls_later s s' l : any_step s s' -> calls_safe l s -> calls_safe l s'.
Proof. intros H. induction l as [|p l IH]; cbn; [done|]. intros [Hp Hl]. split; [|by apply IH]. eapply safe_later; [apply _..|exact H|done]. Qed.

Lemma follows_api s d P : jobs_ok s -> follows P (md_db s) d -> (forall id, P id -> attempt_for false (md_db s) id) ->
  jobs_ok (mkMdb d (md_jobs s)) /\ api_step s (mkMdb d (md_jobs s)).
Proof.
  intros Hok F HP. assert (follows (attempt_for false d) (md_db s) d) as F'.
  { eapply follows_mono; [|exact F]. intros id Hid. eapply attempt_for_later; [exact F|]. by apply HP. }
  split; [by apply jobs_ok_db|]. split; [|exact F']. intros id j Hj. exists j. split; [done|]. split; [apply job_kept_refl|apply job_asked_refl].
Qed.

Lemma work_safe e s : worker_safe anything (_ ← workOnce host e; Return tt) s.
Proof. eapply safe_bind; [apply _|apply workOnce_safe|]. by intros ? ? _ _ ? _ _. Qed.

(** A step keeps the invariant, and every row as [job_kept] says. *)
Lemma media_step_ok c c' : media_step c c' -> config_ok c -> config_ok c' /\ any_step (cf_state c) (cf_state c').
Proof.
  intros Hs [Hok Hw Hc]. destruct Hs as [p Hp|l1 l2 B f k E|B f k E|e E|e op Hop|d E|e e'].
  - split; [|reflexivity]. split; cbn; [done|done|]. split; [by apply api_call_safe|done].
  - rewrite E in Hc. apply calls_safe_app in Hc as [Hc1 [Hp Hc2]].
    specialize (Hp (cf_state c) ltac:(reflexivity) Hok). destruct (f (cf_state c)) as [b s']. destruct Hp as (Hok' & Hg & Hp). cbn.
    pose proof (api_any _ _ Hg) as Ha. split; [|done]. split; cbn; [done|by eapply worker_later|].
    apply calls_safe_app. split; [by eapply calls_later|]. split; [done|]. by eapply calls_later.
  - rewrite E in Hw. specialize (Hw (cf_state c) ltac:(reflexivity) Hok). destruct (f (cf_state c)) as [b s']. destruct Hw as (Hok' & [Hg _] & Hw). cbn.
    split; [|done]. split; cbn; [done|done|]. by eapply calls_later.
  - split; [|reflexivity]. split; [done|apply work_safe|done].
  - destruct (follows_api (cf_state c) _ (marks op) Hok (perform_follows parse_time e op (md_db (cf_state c)))) as [Hok' Ha].
    { destruct op; cbn in *; try done. by intros id ->. }
    pose proof (api_any _ _ Ha). split; [|done]. split; cbn; [done|by eapply worker_later|by eapply calls_later].
  - destruct (follows_api (cf_state c) d nobody Hok) as [Hok' Ha]; [by apply follows_frame|done|].
    pose proof (api_any _ _ Ha). split; [|done]. split; cbn; [done|by eapply worker_later|by eapply calls_later].
  - destruct (follows_api (cf_state c) _ (marks OpRecover) Hok (perform_follows parse_time e OpRecover (md_db (cf_state c)))) as [Hok' Ha]; [done|].
    split; [|by apply api_any]. split; cbn; [done|apply recoverInterrupted_safe|done].
Qed.

Lemma first_start_ok c : first_start c -> config_ok c.
Proof.
  intros (Ej & Ea & El & (e & Ew) & Ec). split.
  - split; rewrite ?Ej, ?Ea; try done. intros k l. by rewrite El.
  - rewrite Ew. apply recoverInterrupted_safe.
  - by rewrite Ec.
Qed.

Lemma media_steps_ok c c' : rtc media_step c c' -> config_ok c -> config_ok c' /\ any_step (cf_state c) (cf_state c').
Proof.
  induction 1 as [c|c c1 c2 Hs _ IH]; intros Hok; [by split; [|reflexivity]|]. apply media_step_ok in Hs as [Hok1 H1]; [|done].
  destruct (IH Hok1) as [Hok2 H2]. split; [done|]. by etransitivity.
Qed.

Lemma media_reachable_ok c : media_reachable c -> config_ok c.
Proof. intros (c0 & H0%first_start_ok & Hs). by apply (media_steps_ok _ _ Hs). Qed.

(** C22: The rows of media jobs agree with themselves: in every reachable
    configuration a job has its input until it ends and an end time from then
    on, an output only when it succeeded, an error exactly when it failed or
    was interrupted, fewer than eight failed polls in a row, an identifier its
    provider's drivers accept and no other job of its connection has, and an
    attempt of its own. *)
Theorem media_jobs_consistent (c : config) :
  media_reachable c ->
  (forall id j, md_jobs (cf_state c) !! id = Some j -> job_ok j) /\
  (forall i k x y, md_jobs (cf_state c) !! i = Some x -> md_jobs (cf_state c) !! k = Some y ->
     mj_Attempt x = mj_Attempt y \/
     (mj_ProviderJob x <> "" /\ js_Connection (mj_Snapshot x) = js_Connection (mj_Snapshot y) /\ mj_ProviderJob x = mj_ProviderJob y) -> i = k).
Proof.
  intros H%media_reachable_ok%co_state. split; [apply (jo_rows _ H)|]. intros i k x y Hx Hy [E|(E1 & E2 & E3)]; [by eapply (jo_unique _ H)|by eapply (jo_index _ H)].
Qed.

(** C23: How a job ended is final, and a cancellation asked for is never
    forgotten: whatever follows a reachable configuration, no job disappears,
    one that ended keeps its state, output, error and end time, and one whose
    cancellation was asked for still says so. *)
Theorem ended_job_is_final (c c' : config) (id : string) (j : MediaJob) :
  media_reachable c -> rtc media_step c c' -> md_jobs (cf_state c) !! id = Some j ->
  exists j', md_jobs (cf_state c') !! id = Some j' /\ job_kept j j'.
Proof.
  intros H%media_reachable_ok Hs Hj. destruct (media_steps_ok _ _ Hs H) as [_ [R _]]. by apply R.
Qed.
End System.
