(* ===== verification/MediaRelease.v ===== *)
(** Who releases what a media job reserved: the worker ends an attempt before
    the job; a job cancelled while it is queued is released by the cancelling
    call, whose next statements do nothing else. *)
From S2P Require Import Prelude GoStd Money Calendar Counters Policy Json Decode Marshal Decoded Store Grants PathMatch Catalogue Connections Sha256 Pricing PolicyService Admission Settlement Reservations Lifecycle Booking Reprice Reachable Attempts Keys Routing Programs Predictions MediaJobs MediaLife MediaThreads MediaSystem.
Open Scope string_scope.
Open Scope Z_scope.
Open Scope list_scope.

(** * Recovery ends every attempt *)

#[local] Hint Resolve release_tables : keeps.
Lemma recover_item_follows P e x : evolves (follows P) (recover_item e x).
Proof. destruct x as [n [id [a r]]]. unfold recover_item, set_request_state. follows_tac. Qed.

Definition dead (id : string) (s : db) : Prop := exists a, t_attempts s !! id = Some a /\ ~ live a.
Lemma dead_later P id s s' : follows P s s' -> dead id s -> dead id s'.
Proof. intros F (a & Ha & Hd). destruct (fw_attempts _ _ _ F id a Ha) as (b & Hb & L). exists b. split; [done|]. intros H. by apply Hd, (lt_live _ _ L). Qed.

Lemma finish_dead id st us t (m : tx db unit) s u s' : live_state st = false -> is_Some (t_attempts s !! id) -> evolves (follows nobody) m ->
  (_ ← update_row t_attempts set_attempts id (fun _ => true) (finish_attempt st us t); m) s = Ok (u, s') -> dead id s'.
Proof.
  intros Hst [a Ha] Hm H. apply tx_bind_Ok in H as (? & s1 & Hu & H). eapply update_row_always in Hu; [|exact Ha]. apply Hm in H. eapply dead_later; [exact H|].
  subst s1. eexists. cbn. rewrite lookup_insert_eq. split; [done|]. unfold live. cbn. by rewrite Hst.
Qed.

Lemma recover_item_dead e n id a r s u s' : is_Some (t_attempts s !! id) -> recover_item e (n, (id, (a, r))) s = Ok (u, s') -> dead id s'.
Proof.
  intros Ha H. unfold recover_item in H. destruct (decide _); apply tx_bind_Ok in H as (? & s1 & Hr & H).
  - assert (keeps (fun s => t_attempts s) (releaseReservations id (now e 0))) as K.
    { intros s0 y z Hx. assert (keeps (fun s => (t_attempts s, t_requests s, t_ledger s)) (releaseReservations id (now e 0))) as K by apply release_tables. apply K in Hx. by injection Hx. }
    apply K in Hr. eapply finish_dead; [..|exact H]; [done|by rewrite Hr|]. unfold set_request_state. follows_tac.
  - unfold update_rows in Hr. apply modify_Ok in Hr as ->. eapply finish_dead; [..|exact H]; [done|done|]. unfold set_request_state. follows_tac.
Qed.

Lemma recover_each_dead e items : forall s u s', (forall x, x ∈ items -> is_Some (t_attempts s !! fst (snd x))) ->
  for_each (recover_item e) items s = Ok (u, s') -> forall x, x ∈ items -> dead (fst (snd x)) s'.
Proof.
  induction items as [|[n [id [a r]]] items IH]; intros s u s' Hin H x Hx; [by apply elem_of_nil in Hx|]. cbn [for_each] in H. apply tx_bind_Ok in H as (? & s1 & H1 & H2).
  pose proof (recover_item_follows nobody e (n, (id, (a, r))) _ _ _ H1) as F. pose proof (evolves_for_each nobody (recover_item e) items (recover_item_follows nobody e) _ _ _ H2) as F2.
  apply elem_of_cons in Hx as [->|Hx].
  - eapply dead_later; [exact F2|]. eapply recover_item_dead; [|exact H1]. apply (Hin _ (list_elem_of_here _ _)).
  - eapply IH; [|exact H2|done]. intros y Hy. destruct (Hin y (list_elem_of_further _ _ _ Hy)) as [b Hb]. destruct (fw_attempts _ _ _ F _ b Hb) as (b' & Hb' & _). by exists b'.
Qed.

Lemma Recover_ends e s d id : Recover e s = (Ok tt, d) -> (exists a r, t_attempts s !! id = Some a /\ t_requests s !! at_Request a = Some r) -> dead id d.
Proof.
  intros H (a & r & Ha & Hr). unfold Recover, commit in H. destruct (recover_tx e s) as [[u d']|] eqn:E; [|done]. injection H as _ ->.
  unfold recover_tx in E. apply tx_bind_Ok in E as (items & s1 & Hi & E). apply reads_Ok in Hi as [-> ->]. apply tx_bind_Ok in E as (? & s1 & Hl & E).
  assert (follows nobody s1 d) as F.
  { match type of E with ?m s1 = _ => assert (evolves (follows nobody) m) as Hm by follows_tac end. by apply Hm in E. }
  eapply dead_later; [exact F|]. destruct (live_state (at_State a)) eqn:El.
  - assert (Hel : (id, (a, r)) ∈ live_join s) by (by apply elem_of_live_join).
    rewrite <- (map_snd_imap_pair (live_join s)) in Hel. apply list_elem_of_fmap in Hel as ([n y] & Ey & Hel). cbn in Ey. subst y.
    refine (recover_each_dead e (imap pair (live_join s)) _ _ _ _ Hl (n, (id, (a, r))) Hel). intros [m [k [b q]]] Hy. cbn. apply (list_elem_of_fmap_2 snd) in Hy.
    change (snd <$> imap pair (live_join s)) with (map snd (imap pair (live_join s))) in Hy. rewrite map_snd_imap_pair in Hy. apply elem_of_live_join in Hy as (Hb & _). by exists b.
  - eapply dead_later; [exact (evolves_for_each nobody (recover_item e) _ (recover_item_follows nobody e) _ _ _ Hl)|]. exists a. split; [done|]. unfold live. by rewrite El.
Qed.

(** * The cancelling call *)

Section Release.
Variables (host : MediaHost) (parse_time : string -> option Z).
Notation media_step := (media_step host parse_time).

(** The call after its row is cancelled, and when it is about to release. *)
Definition cancelled_call (e : MediaEnv) (id owner key : string) : program unit :=
  _ ← (row ← query (fun s => md_jobs s !! id);
       _ ← match row with
           | Some j => if bool_decide (mj_State j = JCanceled) then service (CancelBeforeDispatch (me_usage e 0) (mj_Attempt j)) else Return (Ok tt)
           | None => Return (Ok tt)
           end;
       get host id owner key false);
  Return tt.
Definition release_call (e : MediaEnv) (id owner key att : string) : program unit :=
  _ ← (_ ← service (CancelBeforeDispatch (me_usage e 0) att); get host id owner key false); Return tt.

Definition owing (id att : string) (p : program unit) : Prop :=
  exists e owner key, p = cancelled_call e id owner key \/ p = release_call e id owner key att.

Lemma run_release e id owner key att s : (run (release_call e id owner key att) s).2 = mkMdb (snd (CancelBeforeDispatch (me_usage e 0) att (md_db s))) (md_jobs s).
Proof. unfold release_call. rewrite run_bind. cbn [run snd]. rewrite run_bind, (reading_run _ _ (get_reading _ _ _ _ _)). cbn. by destruct (CancelBeforeDispatch _ _ _). Qed.

(** What an owing call does when it goes on is to release the attempt. *)
Lemma owing_releases id att p s : owing id att p -> withheld s id att ->
  exists e, (run p s).2 = mkMdb (snd (CancelBeforeDispatch (me_usage e 0) att (md_db s))) (md_jobs s).
Proof.
  intros (e & owner & key & [->| ->]) (j & a & Hj & Hc & <- & _); exists e; [|apply run_release].
  rewrite <- (run_release e id owner key). unfold cancelled_call. cbn -[get]. rewrite Hj, bool_decide_eq_true_2 by done. reflexivity.
Qed.

(** ** Calls that leave no reservation behind *)

Fixpoint plain {A} (p : program A) : Prop :=
  match p with Return _ => True | Statement f k => forall s, jobs_ok s -> let '(b, s') := f s in tidy s s' /\ plain (k b) end.
Fixpoint tidy_call (p : program unit) : Prop :=
  match p with
  | Return _ => True
  | Statement f k => forall s, jobs_ok s -> let '(b, s') := f s in (forall id att, withheld s' id att -> withheld s id att \/ owing id att (k b)) /\ tidy_call (k b)
  end.

Lemma plain_tidy p : plain p -> tidy_call p.
Proof.
  induction p as [a|B f k IH]; [done|]. intros H s Hok. specialize (H s Hok). destruct (f s) as [b s']. destruct H as [H1 H2]. split; [intros id att Hw; left; by apply H1|by apply IH].
Qed.
Lemma plain_bind {A B} (p : program A) (k : A -> program B) : plain p -> (forall a, plain (k a)) -> plain (p ≫= k).
Proof.
  intros Hp Hk. induction p as [a|C f k' IH]; [apply Hk|]. intros s Hok. specialize (Hp s Hok). cbn. destruct (f s) as [b s']. destruct Hp as [H1 H2]. split; [done|by apply IH].
Qed.
Lemma plain_reading {A} (p : program A) : reading p -> plain p.
Proof. induction 1 as [a|B f k _ IH]; [done|]. intros s Hok. cbn. split; [by intros ? ?|apply IH]. Qed.
Lemma plain_query {A B} (f : mdb -> B) (k : B -> program A) : (forall b, plain (k b)) -> plain (query f ≫= k).
Proof. intros H s Hok. cbn. split; [by intros ? ?|apply H]. Qed.
Lemma plain_service {A B} (m : db -> result B * db) (k : result B -> program A) : (forall s, follows nobody s (snd (m s))) -> (forall r, plain (k r)) -> plain (service m ≫= k).
Proof.
  intros F H s Hok. cbn. pose proof (F (md_db s)) as Fs. destruct (m (md_db s)) as [r d]. split; [by eapply tidy_db|apply H].
Qed.
Lemma plain_insert {A} id j (k : result unit -> program A) : mj_State j <> JCanceled -> (forall r, plain (k r)) -> plain (insert_media_job id j ≫= k).
Proof.
  intros Hs H s Hok. cbn. destruct (bool_decide _ && _ && _); (split; [|apply H]); [|by intros ? ?].
  intros i att (x & a & Hx & Hc & E & Ha & Hl). cbn in Hx, Ha. apply lookup_insert_Some in Hx as [[<- <-]|[_ Hx]]; [done|by exists x, a].
Qed.

Lemma plain_create e p i : plain (CreateJob host e p i).
Proof.
  unfold CreateJob. destruct (_ || _); [done|]. apply plain_bind; [apply plain_reading, TargetOf_reading|]. intros [t|err]; [|done]. cbn [attempting].
  destruct (check_create _ _ _ _) as [[]|]; [|done]. cbn [attempting]. destruct (seal host e 0 _ _) as [sealed|]; [|done].
  apply plain_query. intros quoteAt. apply plain_service; [apply Admit_follows|]. intros [a|err]; [|done]. cbn [attempting].
  apply plain_insert; [done|]. intros [[]|err]; [apply plain_reading, get_reading|]. apply plain_service; [apply CancelBeforeDispatch_follows|done].
Qed.

Lemma tidy_release e id owner key att : tidy_call (release_call e id owner key att).
Proof.
  apply plain_tidy. unfold release_call. apply plain_bind; [|done]. apply plain_service; [apply CancelBeforeDispatch_follows|]. intros r. apply plain_reading, get_reading.
Qed.
Lemma tidy_cancelled e id owner key : tidy_call (cancelled_call e id owner key).
Proof.
  intros s Hok. cbn -[release_call tidy_call get]. split; [by left|]. destruct (md_jobs s !! id) as [j|]; [|apply plain_tidy; apply plain_bind; [apply plain_reading, get_reading|done]].
  case_bool_decide; [apply (tidy_release e id owner key (mj_Attempt j))|]. apply plain_tidy, plain_bind; [apply plain_reading, get_reading|done].
Qed.
Lemma tidy_cancel e id owner key : tidy_call (_ ← cancel_job host e id owner key; Return tt).
Proof.
  intros s Hok. cbn -[cancelled_call tidy_call get row_accepted].
  destruct (md_jobs s !! id) as [j|] eqn:Hj; [|split; [by left|done]]. destruct (_ || _); [|split; [by left|done]]. destruct (row_accepted _ _ _); [|split; [by left|done]].
  cbn -[tidy_call get]. split; [|apply (tidy_cancelled e id owner key)].
  intros i att (x & a & Hx & Hc & E & Ha & Hl). cbn in Hx, Ha. apply lookup_insert_Some in Hx as [[<- <-]|[_ Hx]]; [|left; by exists x, a].
  destruct (decide (mj_State j = JCanceled)) as [Hs|Hs]; [left; by exists j, a|]. right. exists e, owner, key. by left.
Qed.

Lemma api_call_tidy p : api_call host p -> tidy_call p.
Proof.
  assert (forall (p : program (result JobView)), reading p -> tidy_call (_ ← p; Return tt)) as R by (intros q Hq; by apply plain_tidy, plain_bind; [apply plain_reading|]).
  intros [e q i|e q id|e id|q id|id|q n|n].
  - apply plain_tidy, plain_bind; [apply plain_create|done].
  - unfold CancelJob. destruct (AllowsScope _ _); [apply tidy_cancel|done].
  - apply tidy_cancel.
  - apply R. unfold GetJob. destruct (AllowsScope _ _); [apply get_reading|apply reading_return].
  - apply R, get_reading.
  - apply plain_tidy, plain_bind; [|done]. apply plain_reading. unfold ListJobs. destruct (AllowsScope _ _); [|apply reading_return]. apply reading_query_bind. intros; apply reading_return.
  - apply plain_tidy, plain_bind; [|done]. apply plain_reading. unfold AdminList, list_jobs. apply (reading_query _). intros; apply reading_return.
Qed.

(** * Histories *)

(** A configuration after those before it, the latest first. *)
Inductive history : list config -> Prop :=
| history_start c : first_start c -> history [c]
| history_step c c' h : history (c :: h) -> media_step c c' -> history (c' :: c :: h).

Lemma history_reachable c h : history (c :: h) -> media_reachable host parse_time c.
Proof.
  remember (c :: h) as l eqn:E. intros H. revert c h E. induction H as [c0 H0|c1 c2 h1 H IH Hs]; intros c h E; injection E as <- <-.
  - exists c0. split; [done|apply rtc_refl].
  - destruct (IH _ _ eq_refl) as (c0 & H0 & Hr). exists c0. split; [done|].
    clear -Hr Hs. induction Hr as [c|c d c1 Hd _ IH]; [eapply rtc_l; [exact Hs|apply rtc_refl]|eapply rtc_l; [exact Hd|by apply IH]].
Qed.

Lemma reachable_history c : media_reachable host parse_time c -> exists h, history (c :: h).
Proof.
  intros (c0 & H0%history_start & Hr). revert H0. generalize (@nil config). induction Hr as [c|c0 c1 c Hs _ IH]; intros h H; [by exists h|]. by apply (IH (c0 :: h)), history_step.
Qed.

(** The ledger refused a step of the history: the release of an attempt by
    the call that owed it, or the recovery of a restart. *)
Inductive refusal (att : string) (c c' : config) : Prop :=
| refused_release e id owner key err l1 l2 : cf_calls c = l1 ++ release_call e id owner key att :: l2 ->
    fst (CancelBeforeDispatch (me_usage e 0) att (md_db (cf_state c))) = Err err -> cf_state c' = cf_state c -> refusal att c c'
| refused_recovery e err : fst (Recover e (md_db (cf_state c))) = Err err -> cf_state c' = cf_state c -> cf_calls c' = [] -> refusal att c c'.
Definition refused (h : list config) (att : string) : Prop := exists h1 c' c h2, h = h1 ++ c' :: c :: h2 /\ refusal att c c'.

Lemma refused_cons c h att : refused h att -> refused (c :: h) att.
Proof. intros (h1 & c' & c0 & h2 & -> & H). by exists (c :: h1), c', c0, h2. Qed.
Lemma refused_now c c' h att : refusal att c c' -> refused (c' :: c :: h) att.
Proof. intros H. by exists [], c', c, h. Qed.

(** One statement of a call. *)
Definition stepped (p : program unit) (s : mdb) : program unit * mdb :=
  match p with Return a => (Return a, s) | Statement f k => (k (fst (f s)), snd (f s)) end.

Lemma owing_step id att p s : jobs_ok s -> owing id att p -> withheld (stepped p s).2 id att ->
  owing id att (stepped p s).1
  \/ exists e owner key err, p = release_call e id owner key att /\ fst (CancelBeforeDispatch (me_usage e 0) att (md_db s)) = Err err /\ (stepped p s).2 = s.
Proof.
  intros Hok (e & owner & key & [->| ->]) W.
  - left. change (stepped (cancelled_call e id owner key) s).2 with s in W. destruct W as (j & a & Hj & Hc & <- & _). exists e, owner, key. right.
    unfold cancelled_call. cbn -[get]. rewrite Hj, bool_decide_eq_true_2 by done. reflexivity.
  - right. exists e, owner, key. unfold release_call in *. cbn -[get] in *. destruct (CancelBeforeDispatch (me_usage e 0) att (md_db s)) as [[[]|err] d] eqn:E; cbn in *.
    + exfalso. destruct (Cancel_ok_step _ _ _ _ _ Hok E) as (_ & _ & H). destruct (H eq_refl) as (a & Ha & Hd). destruct W as (j & b & _ & _ & _ & Hb & Hl). cbn in Hb. by assert (b = a) as -> by congruence.
    + exists err. split_and!; [done|done|]. unfold CancelBeforeDispatch, commit in E. destruct (cancel_tx _ _ _) as [[]|]; [done|]. injection E as _ <-. by destruct s.
Qed.

Lemma tidy_call_step p s id att : jobs_ok s -> tidy_call p ->
  (withheld (stepped p s).2 id att -> withheld s id att \/ owing id att (stepped p s).1) /\ tidy_call (stepped p s).1.
Proof.
  intros Hok H. destruct p as [a|B f k]; [split; [by left|done]|]. specialize (H s Hok). cbn. destruct (f s) as [b s']. destruct H as [H1 H2]. split; [apply H1|done].
Qed.

(** The attempt of a withheld job stays with the state of the job. *)
Lemma withheld_db (s : mdb) d id att : (forall a, t_attempts d !! att = Some a -> live a -> exists b, t_attempts (md_db s) !! att = Some b /\ live b) ->
  withheld (mkMdb d (md_jobs s)) id att -> withheld s id att.
Proof. intros H (j & a & Hj & Hc & E & Ha & Hl). destruct (H a Ha Hl) as (b & Hb & Hlb). by exists j, b. Qed.

(** Every withheld reservation is owed by a call under way, unless refused. *)
Record traced (h : list config) (c : config) : Prop := mkTraced {
  tr_ok : config_ok c; tr_calls : forall p, In p (cf_calls c) -> tidy_call p;
  tr_accounted : forall id att, withheld (cf_state c) id att -> (exists p, In p (cf_calls c) /\ owing id att p) \/ refused h att }.

Lemma traced_tidy h c c' : traced h c -> config_ok c' -> tidy (cf_state c) (cf_state c') -> (forall p, In p (cf_calls c') -> tidy_call p) ->
  (forall p, In p (cf_calls c) -> In p (cf_calls c')) -> traced (c' :: h) c'.
Proof.
  intros [Hok Hc Ha] Hok' Ht Hc' Hin. split; [done|done|]. intros id att W%Ht. destruct (Ha id att W) as [(p & Hp & Ho)|Hr]; [left|right; by apply refused_cons].
  exists p. split; [by apply Hin|done].
Qed.

Lemma traced_call h c p l1 l2 : traced (c :: h) c -> cf_calls c = l1 ++ p :: l2 ->
  let c' := mkConfig (stepped p (cf_state c)).2 (cf_worker c) (l1 ++ (stepped p (cf_state c)).1 :: l2) in config_ok c' -> traced (c' :: c :: h) c'.
Proof.
  intros [Hok Hc Ha] E c' Hok'. pose proof (co_state _ Hok) as Hs. rewrite E in Hc. assert (tidy_call p) as Hp by (apply Hc, in_app_iff; right; by left). split; [done| |].
  - cbn. intros q [Hq|[<-|Hq]]%in_app_iff; [apply Hc, in_app_iff; by left|by apply (tidy_call_step p (cf_state c) "" "")|apply Hc, in_app_iff; right; by right].
  - intros id att W. cbn [cf_calls c']. assert (forall q, owing id att q -> q = (stepped p (cf_state c)).1 \/ In q l1 \/ In q l2 -> exists q', In q' (l1 ++ (stepped p (cf_state c)).1 :: l2) /\ owing id att q') as Hfound.
    { intros q Hq Hi. exists q. split; [|done]. apply in_app_iff. cbn. naive_solver. }
    destruct (proj1 (tidy_call_step p (cf_state c) id att Hs Hp) W) as [W0|Ho]; [|left; by eapply Hfound; [|left]].
    destruct (Ha id att W0) as [(q & Hq & Ho)|Hr]; [|right; by apply refused_cons]. rewrite E in Hq. apply in_app_iff in Hq as [Hq|[<-|Hq]]; [left; eapply Hfound; eauto| |left; eapply Hfound; eauto].
    destruct (owing_step id att p (cf_state c) Hs Ho W) as [Ho'|(e & owner & key & err & -> & He & Hst)]; [left; by eapply Hfound; [|left]|].
    right. apply refused_now. eapply refused_release; [exact E|exact He|exact Hst].
Qed.

Lemma traced_restart h c e e' : traced (c :: h) c -> let c' := mkConfig (mkMdb (snd (Recover e (md_db (cf_state c)))) (md_jobs (cf_state c))) (recoverInterrupted e') [] in
  config_ok c' -> traced (c' :: c :: h) c'.
Proof.
  intros [Hok Hc Ha] c' Hok'. split; [done|by intros ? []|]. intros id att (j & a & Hj & Hcj & Ej & Hat & Hl). cbn in Hj, Hat.
  destruct (Recover e (md_db (cf_state c))) as [[[]|err] d] eqn:E; cbn in Hat.
  - exfalso. destruct (jo_attempts _ (co_state _ Hok) id j Hj) as [(b & r & Hb & Hr & _) _]. rewrite Ej in Hb.
    destruct (Recover_ends e _ d att E ltac:(by exists b, r)) as (a' & Ha' & Hd). by assert (a' = a) as -> by congruence.
  - right. apply refused_now. eapply (refused_recovery _ _ _ e err); [by rewrite E| |done].
    unfold c'. cbn. unfold Recover, commit in E. destruct (recover_tx e (md_db (cf_state c))) as [[]|]; [done|]. injection E as _ <-. by destruct (cf_state c).
Qed.

Lemma history_traced c h : history (c :: h) -> traced (c :: h) c.
Proof.
  remember (c :: h) as l eqn:E. intros H. revert c h E. induction H as [c0 H0|c1 c2 h1 H IH Hs]; intros c h E; injection E as <- <-.
  - split; [by apply first_start_ok|by destruct H0 as (_ & _ & _ & _ & ->); intros ? []|]. intros id att (j & a & Hj & _). destruct H0 as (Ej & _). by rewrite Ej in Hj.
  - specialize (IH _ _ eq_refl). destruct (media_step_ok host parse_time c1 c2 Hs (tr_ok _ _ IH)) as [Hok2 Hany]. pose proof (co_state _ (tr_ok _ _ IH)) as Hok.
    destruct Hs as [p Hp|l1 l2 B f k E|B f k E|e E|e op Hop|d E|e e'].
    + apply (traced_tidy (c1 :: h1) c1); [done|done|by intros ? ?|intros q [<-|Hq]; [by apply api_call_tidy|by apply (tr_calls _ _ IH)]|intros q Hq; by right].
    + exact (traced_call h1 c1 (Statement f k) l1 l2 IH E Hok2).
    + apply (traced_tidy (c1 :: h1) c1); [done|done| |apply (tr_calls _ _ IH)|done]. pose proof (co_worker _ (tr_ok _ _ IH)) as Hw. rewrite E in Hw.
      specialize (Hw (cf_state c1) ltac:(reflexivity) Hok). cbn. destruct (f (cf_state c1)) as [b s']. destruct Hw as (_ & [_ Ht] & _). exact Ht.
    + apply (traced_tidy (c1 :: h1) c1); [done|done|by intros ? ?|apply (tr_calls _ _ IH)|done].
    + apply (traced_tidy (c1 :: h1) c1); [done|done| |apply (tr_calls _ _ IH)|done]. eapply tidy_db; [done|]. apply perform_follows.
    + apply (traced_tidy (c1 :: h1) c1); [done|done| |apply (tr_calls _ _ IH)|done]. eapply (tidy_db nobody); [done|]. by apply follows_frame.
    + exact (traced_restart h1 c1 e e' IH Hok2).
Qed.

End Release.
