(* ===== verification/MediaRuns.v ===== *)
(** Programs of media jobs run to their end: what a poll and a prediction come
    to, that a job whose provider does not answer is given up, and that what
    the provider delivered is what its key reads. *)
From S2P Require Import Prelude GoStd Money Calendar Counters Policy Json Decode Marshal Decoded Store Grants PathMatch Catalogue Connections Sha256 Pricing PolicyService Admission Settlement Reservations Lifecycle Booking Reprice Reachable Attempts Deferral Keys Routing Programs Predictions MediaJobs MediaLife MediaThreads.
Open Scope string_scope.
Open Scope Z_scope.
Open Scope list_scope.

(** * Running a program *)

Lemma workOnce_ok host e s : jobs_ok s -> jobs_ok (run (workOnce host e) s).2.
Proof. intros Hok. by apply (safe_run anything _ _ (workOnce_safe host e s)). Qed.

Lemma claimQueued_ok host e s : jobs_ok s -> jobs_ok (run (claimQueued host e) s).2.
Proof. intros Hok. by apply (safe_run _ _ _ (claimQueued_safe host e s)). Qed.

(** An UPDATE of a row that is there. *)
Lemma run_update id c f s j : md_jobs s !! id = Some j -> c j = true -> row_accepted (md_jobs s) id (f j) = true ->
  run (update_job id c f) s = (Ok 1, mkMdb (md_db s) (<[id := f j]> (md_jobs s))).
Proof. intros E Ec Er. cbn. by rewrite E, Ec, Er. Qed.

Lemma run_service {A} (m : db -> result A * db) s r d : m (md_db s) = (r, d) -> run (service m) s = (r, mkMdb d (md_jobs s)).
Proof. intros E. cbn. by rewrite E. Qed.

Lemma service_jobs {A} (m : db -> result A * db) s : md_jobs (run (service m) s).2 = md_jobs s.
Proof. cbn. by destruct (m (md_db s)). Qed.

(** A row keeps the provider's id it has, and another state. *)
Lemma free_same s id j j' : jobs_ok s -> md_jobs s !! id = Some j -> mj_Snapshot j' = mj_Snapshot j -> mj_ProviderJob j' = mj_ProviderJob j ->
  provider_id_free (md_jobs s) id j' = true.
Proof.
  intros Hok Hj Es Ep. apply provider_id_free_spec. rewrite Es, Ep. destruct (decide (mj_ProviderJob j = "")) as [?|Hne]; [by left|right].
  intros i x Hx Ec Ex. eapply (jo_index _ Hok i id x j); [done|done|congruence|done|done].
Qed.

Lemma end_job_checks st err at_ j : job_checks j = true -> json_valid (default (mj_Error j) err) = true -> job_checks (end_job st err at_ j) = true.
Proof. unfold job_checks. cbn. rewrite !andb_true_iff. tauto. Qed.

Lemma run_end_job id c st err at_ s j : jobs_ok s -> md_jobs s !! id = Some j -> c j = true -> json_valid (default (mj_Error j) err) = true ->
  (run (update_job id c (end_job st err at_)) s).2 = mkMdb (md_db s) (<[id := end_job st err at_ j]> (md_jobs s)).
Proof.
  intros Hok Hj Hc He. rewrite (run_update _ _ _ _ _ Hj Hc); [done|]. apply row_accepted_spec.
  split; [apply end_job_checks; [apply (jk_checks _ (jo_rows _ Hok id j Hj))|done]|by eapply free_same].
Qed.

(** ** Failing a job *)

(** The accounting refuses to close the attempt of the job. *)
Definition refuses_failure (e : MediaEnv) (n : nat) (id : string) (s : mdb) : Prop :=
  exists attemptID st, attempt_of id s = Some (attemptID, st) /\
    ((st = AtReserved /\ (CancelBeforeDispatch (me_usage e n) attemptID (md_db s)).1 <> Ok tt) \/
     (running_state st = true /\ (Settle (me_usage e n) attemptID (media_settlement id "failed" "unknown" None) (md_db s)).1 <> Ok tt)).

Lemma Cancel_error_keeps e id s err s' : CancelBeforeDispatch e id s = (Err err, s') -> s' = s.
Proof. unfold CancelBeforeDispatch, commit. destruct (cancel_tx _ _ _) as [[[] ?]|]; [done|]. by intros [= _ <-]. Qed.

(** A failed job is ended, or nothing happened because its attempt could not
    be closed. *)
Lemma run_fail_job e n id c m s j : jobs_ok s -> md_jobs s !! id = Some j -> ended (mj_State j) = false -> json_valid (error_json c m) = true ->
  (exists d j', (run (fail_job e n id c m) s).2 = mkMdb d (<[id := j']> (md_jobs s)) /\ ended (mj_State j') = true) \/
  ((run (fail_job e n id c m) s).2 = s /\ refuses_failure e n id s).
Proof.
  intros Hok Hj He Hm. assert (forall d, jobs_ok (mkMdb d (md_jobs s)) ->
    exists d' j', (run (failRow e n id c m) (mkMdb d (md_jobs s))).2 = mkMdb d' (<[id := j']> (md_jobs s)) /\ ended (mj_State j') = true) as Hrow.
  { intros d Hd. exists d, (end_job JFailed (Some (error_json c m)) (me_now e n) j). split; [|done]. unfold failRow. rewrite run_bind.
    rewrite (run_end_job _ _ _ _ _ _ j Hd); [done|done|by rewrite He|done]. }
  unfold fail_job. rewrite run_bind. cbn [run query statement fst snd].
  destruct (jo_attempts _ Hok id j Hj) as [(a & r & Ha & _) _].
  assert (attempt_of id s = Some (mj_Attempt j, at_State a)) as Eat by (unfold attempt_of; rewrite Hj; cbn; rewrite Ha; done).
  rewrite Eat, run_bind. case_bool_decide as Er; [|destruct (running_state (at_State a)) eqn:Erun].
  - cbn. destruct (CancelBeforeDispatch _ _ _) as [rr d] eqn:E. cbn. destruct (Cancel_ok_step _ _ _ _ _ Hok E) as (Hd & _).
    destruct rr as [[]|err]; [by left; apply Hrow|]. right. cbn. rewrite (Cancel_error_keeps _ _ _ _ _ E). split; [by destruct s|].
    exists (mj_Attempt j), (at_State a). split; [done|]. left. by rewrite E.
  - cbn. destruct (Settle _ _ _ _) as [rr d] eqn:E. cbn. destruct (Settle_ok_step _ _ _ _ _ _ Hok E) as (Hd & _).
    destruct rr as [[]|err]; [by left; apply Hrow|]. right. cbn. rewrite (Settle_error_keeps _ _ _ _ _ _ E). split; [by destruct s|].
    exists (mj_Attempt j), (at_State a). split; [done|]. right. by rewrite E.
  - left. destruct (Hrow (md_db s)) as (d & j' & E & Hj'); [by destruct s|]. exists d, j'. cbn. destruct s. by split.
Qed.

(** * Jobs whose provider does not answer *)

(** No request gets an answer that can be read. *)
Definition silent (e : MediaEnv) : Prop := forall t method path body, exists err, reply_body (me_send e t method path body) = inl err.

Lemma silent_create host e provider t input : silent e -> exists err, create_call host e provider t input = inl err.
Proof.
  intros He. unfold create_call. assert (forall t m p b (k : Z * string -> called providerPrediction), exists err, (reply_body (me_send e t m p b) ≫= k) = inl err) as Hs.
  { intros t' m p b k. destruct (He t' m p b) as [err ->]. by exists err. }
  destruct (provider =s "together"); [destruct (togetherVideoRequest _ _); [by eexists|apply Hs]|].
  destruct (provider =s "gemini"); [destruct (demand _ _); [by eexists|]; cbn; destruct (geminiVideoRequest _); [by eexists|apply Hs]|].
  destruct (provider =s "custom").
  - unfold callCustomMediaJob. destruct (demand _ _); [by eexists|]. cbn. destruct (mh_Request _ _ _ _ _) as [[[m p] b]|]; [apply Hs|by eexists].
  - destruct (replicateCreateRequest _ _) as [|[p b]]; [by eexists|apply Hs].
Qed.

Lemma silent_poll host e job t : silent e -> exists err, poll_call host e job t = inl err.
Proof.
  intros He. unfold poll_call. assert (forall t m p b (k : Z * string -> called providerPrediction), exists err, (reply_body (me_send e t m p b) ≫= k) = inl err) as Hs.
  { intros t' m p b k. destruct (He t' m p b) as [err ->]. by exists err. }
  destruct (_ =s "together"); [destruct (demand _ _); [by eexists|apply Hs]|].
  destruct (_ =s "gemini"); [destruct (demand _ _); [by eexists|apply Hs]|].
  destruct (_ =s "custom").
  - unfold customMediaJobAction. destruct (demand _ _); [by eexists|]. cbn.
    destruct (_ || _); unfold callCustomMediaJob; destruct (demand _ _); try (by eexists); cbn; destruct (mh_Request _ _ _ _ _) as [[[m p] b]|]; (apply Hs || by eexists).
  - destruct (demand _ _); [by eexists|]. cbn. destruct (_ || _); apply Hs.
Qed.

(** ** The work left

    One round claims a queued job; an active one has its failures left. *)

Definition job_left (j : MediaJob) : nat :=
  match mj_State j with
  | JQueued => 1
  | JStarting | JProcessing | JCanceling => Z.to_nat (mediaMaxPollFailures - mj_PollFailures j)
  | _ => 0
  end.
Definition work_left (m : gmap string MediaJob) : nat := map_fold (fun _ j n => (job_left j + n)%nat) 0%nat m.

Lemma work_left_row m id j : m !! id = Some j -> work_left m = (job_left j + work_left (delete id m))%nat.
Proof. intros Hj. unfold work_left. rewrite (map_fold_delete_L _ _ id j m); [done| |done]. intros. lia. Qed.

Lemma work_left_replace m id j j' : m !! id = Some j -> (work_left (<[id := j']> m) + job_left j = work_left m + job_left j')%nat.
Proof.
  intros Hj. rewrite (work_left_row m id j Hj), (work_left_row _ id j' (lookup_insert_eq _ _ _)), delete_insert_eq. lia.
Qed.

Lemma ended_left j : ended (mj_State j) = true -> job_left j = 0%nat.
Proof. unfold job_left. by destruct (mj_State j). Qed.

Lemma active_left s id j : jobs_ok s -> md_jobs s !! id = Some j -> active (mj_State j) = true -> (0 < job_left j)%nat.
Proof.
  intros Hok Hj Ha. pose proof (jk_failures _ (jo_rows _ Hok id j Hj)) as Hf. unfold job_left.
  destruct (mj_State j); try done; lia.
Qed.

Lemma ended_shrinks s id j j' d : md_jobs s !! id = Some j -> ended (mj_State j') = true ->
  (work_left (md_jobs (mkMdb d (<[id := j']> (md_jobs s)))) <= work_left (md_jobs s) /\
   ((0 < job_left j) -> work_left (md_jobs (mkMdb d (<[id := j']> (md_jobs s)))) < work_left (md_jobs s)))%nat.
Proof. intros Hj He. cbn. pose proof (work_left_replace _ id j j' Hj). rewrite (ended_left j' He) in *. lia. Qed.

(** A change of rows that leaves no more work. *)
Lemma update_shrinks id c f s : (forall j, md_jobs s !! id = Some j -> c j = true -> (job_left (f j) <= job_left j)%nat) ->
  (work_left (md_jobs (run (update_job id c f) s).2) <= work_left (md_jobs s))%nat.
Proof.
  intros H. cbn. destruct (md_jobs s !! id) as [j|] eqn:E; [|done]. destruct (c j) eqn:Ec; [|done].
  destruct (row_accepted _ _ _); [|done]. cbn. pose proof (work_left_replace _ id j (f j) E). specialize (H j eq_refl Ec). lia.
Qed.

Lemma failRow_shrinks e n id c m s : (work_left (md_jobs (run (failRow e n id c m) s).2) <= work_left (md_jobs s))%nat.
Proof.
  unfold failRow. rewrite run_bind. cbn [run snd]. apply update_shrinks. intros j _ _. rewrite ended_left; [lia|done].
Qed.

Lemma fail_job_shrinks e n id c m s : (work_left (md_jobs (run (fail_job e n id c m) s).2) <= work_left (md_jobs s))%nat.
Proof.
  unfold fail_job. rewrite run_bind. cbn [run query statement fst snd]. destruct (attempt_of id s) as [[attemptID st]|]; [|done].
  rewrite run_bind. match goal with |- context[run ?p s] => set (q := p) end.
  assert (md_jobs (run q s).2 = md_jobs s) as E.
  { unfold q. case_bool_decide; [|destruct (running_state st); [|done]]; apply service_jobs. }
  rewrite <- E. destruct (run q s).1; [apply failRow_shrinks|done].
Qed.

(** ** A round *)

(** A claim takes a job from the queue, or does nothing. *)
Lemma claimQueued_shrinks host e s :
  run (claimQueued host e) s = (None, s) \/ (work_left (md_jobs (run (claimQueued host e) s).2) < work_left (md_jobs s))%nat.
Proof.
  unfold claimQueued. rewrite run_bind. cbn [run query statement fst snd]. destruct (first_job _ _ s) as [[id job]|] eqn:E; [|by left].
  apply first_job_Some in E as [Hj Hq%bool_decide_eq_true]. rewrite run_bind.
  match goal with |- context[run (update_job id ?c ?f) s] =>
    assert (run (update_job id c f) s = (Err constraint_failed, s) \/
            exists s', run (update_job id c f) s = (Ok 1, s') /\ (work_left (md_jobs s') < work_left (md_jobs s))%nat) as [->|(s' & -> & Hw)] end.
  { cbn. rewrite Hj. cbn. rewrite bool_decide_true by done. destruct (row_accepted _ _ _); [right|by left]. eexists. split; [reflexivity|]. cbn.
    match goal with |- context[<[id := ?j']> _] => pose proof (work_left_replace _ id job j' Hj) as Hw end.
    unfold job_left at 1 2 in Hw. rewrite Hq in Hw. cbn in Hw. lia. }
  { by left. }
  right. cbn [fst snd]. assert (forall c m, (work_left (md_jobs (run (fail_job e 5 id c m ≫= fun _ => Return (None : option (string * MediaJob * string))) s').2) < work_left (md_jobs s))%nat) as Hf.
  { intros c m. rewrite run_bind. cbn [run fst snd]. eapply Nat.le_lt_trans; [apply fail_job_shrinks|done]. }
  destruct (mj_Input job ≫= _) as [plain|]; [|apply Hf]. destruct (jsonObject plain); [done|apply Hf].
Qed.

Lemma submit_shrinks host e id job input s : silent e ->
  (work_left (md_jobs (run (submit host e id job input) s).2) <= work_left (md_jobs s))%nat.
Proof.
  intros He. unfold submit. rewrite run_bind, (reading_run _ s (job_target_reading host e job)).
  destruct (run (job_target host e job) s).1 as [t|]; [|apply fail_job_shrinks]. rewrite run_bind. cbn [run query query_db statement fst snd].
  destruct (negb _); [apply fail_job_shrinks|]. rewrite run_bind. pose proof (service_jobs (MarkDispatching (mj_Attempt job)) s) as Hm.
  destruct (run (service _) s).1.
  - destruct (silent_create host e (js_Provider (mj_Snapshot job)) t input He) as [err ->]. by rewrite fail_job_shrinks, Hm.
  - rewrite run_bind, failRow_shrinks, service_jobs, Hm. done.
Qed.

(** A job that a round leaves as it is: the accounting refuses to close its
    attempt, or its cancellation is completed in the gateway (the drivers of
    Together and Gemini have none) but its state has moved on. *)
Definition cancelled_here (j : MediaJob) : bool :=
  ((js_Provider (mj_Snapshot j) =s "together") || (js_Provider (mj_Snapshot j) =s "gemini")) && mj_CancelRequested j.
Definition refuses_cancel (e : MediaEnv) (id : string) (j : MediaJob) (s : mdb) : Prop :=
  (Settle (me_usage e 0) (mj_Attempt j) (media_settlement id "cancelled" "unknown" None) (md_db s)).1 <> Ok tt.

Definition stuck (e : MediaEnv) (s : mdb) : Prop :=
  exists id j, first_job mj_NextPoll (fun j => active (mj_State j) && (mj_NextPoll j <=? me_now e 2)) s = Some (id, j) /\
    if cancelled_here j then refuses_cancel e id j s \/ mj_State j <> JCanceling else refuses_failure e 1 id s.

Lemma completeLocalCancel_shrinks e id s : (work_left (md_jobs (run (completeLocalCancel e id) s).2) <= work_left (md_jobs s))%nat.
Proof.
  unfold completeLocalCancel. rewrite run_bind. cbn [run query statement fst snd]. destruct (mj_Attempt <$> md_jobs s !! id) as [a|]; [|done].
  rewrite run_bind. rewrite <- (service_jobs (Settle (me_usage e 0) a (media_settlement id "cancelled" "unknown" None)) s).
  destruct (run (service _) s).1; [|done]. rewrite run_bind. cbn [run fst snd]. apply update_shrinks. intros j' _ _. rewrite ended_left; [lia|done].
Qed.

Lemma run_completeLocalCancel e id s j : jobs_ok s -> md_jobs s !! id = Some j -> active (mj_State j) = true ->
  (work_left (md_jobs (run (completeLocalCancel e id) s).2) < work_left (md_jobs s))%nat \/ refuses_cancel e id j s \/ mj_State j <> JCanceling.
Proof.
  intros Hok Hj Ha. destruct (decide (mj_State j = JCanceling)) as [Hc|]; [|by auto]. unfold refuses_cancel.
  unfold completeLocalCancel. rewrite run_bind. cbn [run query statement fst snd]. rewrite Hj. cbn [fmap option_fmap option_map].
  rewrite run_bind. destruct (Settle (me_usage e 0) (mj_Attempt j) (media_settlement id "cancelled" "unknown" None) (md_db s)) as [r d] eqn:E.
  rewrite (run_service _ _ _ _ E). destruct (Settle_ok_step _ _ _ _ _ _ Hok E) as (Hd & _). cbn [fst snd].
  destruct r as [[]|]; [|by auto]. left. rewrite run_bind. cbn [run fst snd].
  rewrite (run_end_job _ _ _ _ _ _ j Hd); [|done|by rewrite Hc|].
  - apply (ended_shrinks s id j _ d Hj); [done|]. by eapply active_left.
  - pose proof (jk_checks _ (jo_rows _ Hok id j Hj)) as K. unfold job_checks in K. rewrite !andb_true_iff in K. tauto.
Qed.

Lemma run_reschedule e id failures s j : jobs_ok s -> md_jobs s !! id = Some j -> active (mj_State j) = true ->
  mj_PollFailures j < failures < mediaMaxPollFailures ->
  (work_left (md_jobs (run (reschedule e id failures) s).2) < work_left (md_jobs s))%nat.
Proof.
  intros Hok Hj Ha Hf. pose proof (jo_rows _ Hok id j Hj) as [K1 _ _ _ _ K6 _ _ _]. unfold reschedule. rewrite run_bind. cbn [run fst snd].
  rewrite (run_update _ _ _ _ _ Hj Ha).
  - cbn. match goal with |- context[<[id := ?j']> _] => pose proof (work_left_replace _ id j j' Hj) as Hw end.
    unfold job_left at 1 2 in Hw. cbn in Hw. destruct (mj_State j); try done; lia.
  - apply row_accepted_spec. split; [|by eapply free_same]. unfold job_checks in *. cbn. rewrite !andb_true_iff in *.
    repeat split; try tauto. unfold in_range, mediaMaxPollFailures in *. rewrite andb_true_iff, !Z.leb_le. lia.
Qed.

Lemma run_poll host e id j s : jobs_ok s -> silent e -> md_jobs s !! id = Some j -> active (mj_State j) = true ->
  (work_left (md_jobs (run (poll host e id j) s).2) < work_left (md_jobs s))%nat \/
  (work_left (md_jobs (run (poll host e id j) s).2) <= work_left (md_jobs s))%nat /\
  (if cancelled_here j then refuses_cancel e id j s \/ mj_State j <> JCanceling else refuses_failure e 1 id s).
Proof.
  intros Hok He Hj Ha. unfold poll. fold (cancelled_here j). destruct (cancelled_here j).
  { destruct (run_completeLocalCancel e id s j Hok Hj Ha); [by left|right]. split; [apply completeLocalCancel_shrinks|done]. }
  assert (ended (mj_State j) = false) as Hend by (by destruct (mj_State j)).
  assert (forall c m, json_valid (error_json c m) = true ->
    (work_left (md_jobs (run (fail_job e 1 id c m) s).2) < work_left (md_jobs s))%nat \/
    (work_left (md_jobs (run (fail_job e 1 id c m) s).2) <= work_left (md_jobs s))%nat /\ refuses_failure e 1 id s) as Hf.
  { intros c m Hm. destruct (run_fail_job e 1 id c m s j Hok Hj Hend Hm) as [(d & j' & -> & He')|[_ Hr]]; [left|right; split; [apply fail_job_shrinks|done]].
    apply (ended_shrinks s id j j' d Hj He'). by eapply active_left. }
  rewrite run_bind, (reading_run _ s (job_target_reading host e j)). destruct (run (job_target host e j) s).1 as [t|]; [|by apply Hf].
  rewrite run_bind. cbn [run query query_db statement fst snd]. destruct (negb _); [by apply Hf|].
  destruct (silent_poll host e j t He) as [err ->]. pose proof (jk_failures _ (jo_rows _ Hok id j Hj)) as Hn.
  destruct (_ || _) eqn:Eb; [by apply Hf|]. left. apply orb_false_iff in Eb as [_ Eb%Z.leb_gt]. apply (run_reschedule _ _ _ _ j); [done..|]. lia.
Qed.

(** A round with silent providers finds nothing to do, leaves less to do, or
    meets a stuck job. *)
Lemma silent_round host e s : jobs_ok s -> silent e ->
  (run (workOnce host e) s).1 = false \/ (work_left (md_jobs (run (workOnce host e) s).2) < work_left (md_jobs s))%nat \/ stuck e s.
Proof.
  intros Hok He. unfold workOnce. rewrite run_bind. destruct (claimQueued_shrinks host e s) as [E|Hw].
  - rewrite E. cbn [fst snd]. rewrite run_bind. cbn [run dueActive query statement fst snd].
    destruct (first_job _ _ s) as [[id j]|] eqn:Ef; [|by left]. right. rewrite run_bind. cbn [run fst snd].
    pose proof (first_job_Some _ _ _ _ _ Ef) as [Hj [Ha _]%andb_true_iff].
    destruct (run_poll host e id j s Hok He Hj Ha) as [Hw|[_ Hs]]; [by left|right]. by exists id, j.
  - destruct (run (claimQueued host e) s).1 as [[[id job] input]|].
    + right. left. rewrite run_bind. cbn [run fst snd]. eapply Nat.le_lt_trans; [by apply submit_shrinks|done].
    + pose proof (claimQueued_ok host e s Hok) as Hok1. rewrite run_bind. cbn [run dueActive query statement fst snd].
      destruct (first_job _ _ _) as [[id j]|] eqn:Ef; [|by left]. right. left. rewrite run_bind. cbn [run fst snd].
      pose proof (first_job_Some _ _ _ _ _ Ef) as [Hj [Ha _]%andb_true_iff].
      destruct (run_poll host e id j _ Hok1 He Hj Ha) as [H|[H _]]; lia.
Qed.

(** ** The worker's loop *)

(** The rounds of [for service.workOnce(ctx) {}], one [MediaEnv] for each. *)
Fixpoint rounds (host : MediaHost) (e : nat -> MediaEnv) (n : nat) (s : mdb) : mdb :=
  match n with O => s | S n => rounds host (fun i => e (S i)) n (run (workOnce host (e O)) s).2 end.

(** C21: The worker gives up on providers that do not answer: whatever the jobs
    are and however time passes, when no request gets a readable answer, the
    loop over [workOnce] stops after at most one round for each queued job and
    eight, less the failures so far, for each active one, unless it meets a
    job it cannot end: one whose attempt the accounting refuses to close, or
    one of Together or Gemini whose cancellation a prediction has overtaken. *)
Theorem worker_loop_ends (host : MediaHost) (e : nat -> MediaEnv) (s : mdb) :
  jobs_ok s -> (forall n, silent (e n)) ->
  exists n, (n <= work_left (md_jobs s))%nat /\
    ((run (workOnce host (e n)) (rounds host e n s)).1 = false \/ stuck (e n) (rounds host e n s)).
Proof.
  remember (work_left (md_jobs s)) as w eqn:Ew. revert e s Ew. induction w as [w IH] using lt_wf_ind. intros e s -> Hok He.
  destruct (silent_round host (e O) s Hok (He O)) as [H|[H|H]]; [by exists 0%nat; split; [lia|left]| |by exists 0%nat; split; [lia|right]].
  destruct (IH _ H (fun i => e (S i)) _ eq_refl) as (n & Hn & Hend); [by apply workOnce_ok|done|].
  exists (S n). split; [lia|exact Hend].
Qed.

(** * A prediction that ends a job *)

(** AES-GCM: a tag of sixteen bytes after the text, and what was sealed opens
    with the same nonce and additional data. *)
Definition sealing (host : MediaHost) : Prop :=
  forall nonce aad plain c, mh_Seal host nonce aad plain = Some c -> str_len c = str_len plain + 16 /\ mh_Open host nonce aad c = Some plain.

(** No other job of the connection has the provider's id. *)
Definition own_provider_id (s : mdb) (id : string) (j : MediaJob) (p : providerPrediction) : Prop :=
  forall i x, md_jobs s !! i = Some x -> js_Connection (mj_Snapshot x) = js_Connection (mj_Snapshot j) -> mj_ProviderJob x = pd_ID p -> i = id.

Definition terminal_settlement (id : string) (st : JobState) (p : providerPrediction) : SettlementInput :=
  media_settlement id (settlement_state st) (if is_some (pd_Cost p) then "provider_reported" else "unknown") (pd_Cost p).

(** What is stored of a prediction in a final state. *)
Definition stored_of (host : MediaHost) (e : MediaEnv) (id : string) (j : MediaJob) (p : providerPrediction) (st : JobState) :
    JobState * option (string * string) * Z * string :=
  if bool_decide (st = JSucceeded) && negb (pd_Output p =s "null") then stored_output host e id (js_Key (mj_Snapshot j)) st (pd_Output p)
  else (st, None, 0, "null").
Definition stored_error (x : JobState * option (string * string) * Z * string) : string :=
  let '(st, _, _, err) := x in
  if bool_decide (st = JFailed) && (err =s "null") then error_json "provider_failed" "The provider media job failed" else err.

Lemma stored_of_row host e id j p st : sealing host -> str_len (me_nonce e 0) = 12 -> ended st = true -> job_checks j = true ->
  let x := stored_of host e id j p st in
  job_checks (predicted p x.1.1.1 x.1.1.2 x.1.2 (stored_error x) true (me_now e 1) j) = true.
Proof.
  intros Hs Hn He Hc. cbn zeta. unfold job_checks in Hc. rewrite !andb_true_iff in Hc. destruct Hc as [[[[[[H1 H2] H3] H4] H5] H6] H7].
  assert (forall st out size err, in_range size 0 4194304 = true -> json_valid err = true ->
    match out with Some c => sealed_as size c = true | None => size = 0 end -> job_checks (predicted p st out size err true (me_now e 1) j) = true) as Hrow.
  { intros st' out size err Hr Hj Ho. unfold job_checks. rewrite !andb_true_iff. cbn [mj_Snapshot mj_OutputBytes mj_Error mj_PollFailures mj_Input mj_Output predicted].
    split_and!; try done. destruct out; [done|by subst size]. }
  unfold stored_of, stored_output. destruct (_ && negb (pd_Output p =s "null")); [destruct (Z.ltb_spec maxOutputBytes (str_len (pd_Output p)))|].
  - by apply Hrow.
  - unfold seal. destruct (mh_Seal _ _ _ _) as [c|] eqn:Es; cbn [mbind option_bind fst snd].
    + apply Hs in Es as [Hlen _]. apply Hrow.
      * unfold in_range. rewrite andb_true_iff, !Z.leb_le. change maxOutputBytes with 4194304 in *. unfold str_len in *. lia.
      * cbn. destruct (bool_decide (st = JFailed)); vm_compute; reflexivity.
      * unfold sealed_as. cbn. rewrite Hn, Hlen, Z.eqb_refl. done.
    + by apply Hrow.
  - apply Hrow; [done| |done]. cbn. destruct (bool_decide (st = JFailed)); vm_compute; reflexivity.
Qed.

(** The provider's cost is settled and the row ends, whether or not the
    output could be stored. *)
Lemma run_applyPrediction host e id p s j st d : sealing host -> str_len (me_nonce e 0) = 12 -> jobs_ok s ->
  md_jobs s !! id = Some j -> in_flight (mj_State j) = true -> own_provider_id s id j p -> normalizeProviderState (pd_Status p) = Some (st, true) ->
  let x := stored_of host e id j p st in
  Settle (me_usage e 1) (mj_Attempt j) (terminal_settlement id x.1.1.1 p) (md_db s) = (Ok tt, d) ->
  run (applyPrediction host e id p) s =
    (tt, mkMdb d (<[id := predicted p x.1.1.1 x.1.1.2 x.1.2 (stored_error x) true (me_now e 1) j]> (md_jobs s))).
Proof.
  intros Hs Hn Hok Hj Hf Hown Hst x Ed. pose proof (normalize_states _ _ _ Hst) as [He _].
  assert (job_checks (predicted p x.1.1.1 x.1.1.2 x.1.2 (stored_error x) true (me_now e 1) j) = true) as Hc.
  { apply stored_of_row; [done|done|done|apply (jk_checks _ (jo_rows _ Hok id j Hj))]. }
  unfold applyPrediction. rewrite Hst. cbn [andb]. rewrite run_bind.
  match goal with |- context[run ?q s] => assert (run q s = (Some x, s)) as -> end.
  { unfold x, stored_of. destruct (_ && negb (pd_Output p =s "null")); [|done]. cbn. by rewrite Hj. }
  cbn [fst snd]. destruct x as [[[st' out] size] err] eqn:Ex. cbn [fst snd] in *. rewrite run_bind, run_bind. cbn [run query statement fst snd].
  rewrite Hj. cbn [fmap option_fmap option_map]. unfold terminal_settlement, mj_Attempt in *. rewrite (run_service _ _ _ _ Ed). cbn [fst snd]. rewrite run_bind.
  rewrite (run_update _ _ _ _ j); [done|done|done|]. apply row_accepted_spec. split; [exact Hc|]. apply provider_id_free_spec. right. exact Hown.
Qed.

(** A prediction for an ended job changes no row. *)
Lemma ended_update id c f s j : md_jobs s !! id = Some j -> c j = false -> run (update_job id c f) s = (Ok 0, s).
Proof. intros E Ec. cbn. by rewrite E, Ec. Qed.

Lemma ended_fail_job e n id c m s j : md_jobs s !! id = Some j -> ended (mj_State j) = true -> md_jobs (run (fail_job e n id c m) s).2 = md_jobs s.
Proof.
  intros Hj He. unfold fail_job. rewrite run_bind. cbn [run query statement fst snd]. destruct (attempt_of id s) as [[a st]|]; [|done].
  rewrite run_bind. match goal with |- context[run ?p s] => set (q := p) end.
  assert (md_jobs (run q s).2 = md_jobs s) as E.
  { unfold q. case_bool_decide; [|destruct (running_state st); [|done]]; apply service_jobs. }
  destruct (run q s).1; [|done]. unfold failRow. rewrite run_bind. rewrite (ended_update _ _ _ _ j); [done|by rewrite E|by rewrite He].
Qed.

Lemma applyPrediction_ended host e id p s j : md_jobs s !! id = Some j -> ended (mj_State j) = true ->
  md_jobs (run (applyPrediction host e id p) s).2 = md_jobs s.
Proof.
  intros Hj He. unfold applyPrediction. destruct (normalizeProviderState _) as [[st terminal]|]; [|by eapply ended_fail_job].
  rewrite run_bind. match goal with |- context[run ?q s] => assert ((run q s).2 = s) as -> end.
  { destruct (_ && negb _); [|done]. by rewrite run_bind. }
  match goal with |- context[match ?x with Some _ => _ | None => _ end] => destruct x as [[[[st' out] size] err]|]; [|done] end.
  cbn zeta. rewrite run_bind. match goal with |- context[run ?q s] => assert (md_jobs (run q s).2 = md_jobs s) as E end.
  { destruct terminal; [|done]. rewrite run_bind. cbn [run query statement fst snd]. rewrite Hj. apply service_jobs. }
  match goal with |- context[match ?x with Ok _ => _ | Err _ => _ end] => destruct x; [|exact E] end.
  rewrite run_bind, (ended_update _ _ _ _ j); [exact E|by rewrite E|by destruct (mj_State j)].
Qed.

(** C24: What a provider delivers is what its key reads, and is paid for: when
    a prediction of the job's own provider identifier succeeds with an output
    of at most 4 MiB and the accounting takes the settlement, the job ends succeeded with the provider's cost
    settled, the key that created it reads back the very bytes delivered, an
    administrator sees no output, and the input is gone. *)
Theorem delivered_output_reads (host : MediaHost) (e : MediaEnv) (principal : Principal) (id : string) (p : providerPrediction) (s : mdb) (j : MediaJob) (d : db) :
  sealing host -> str_len (me_nonce e 0) = 12 -> jobs_ok s ->
  md_jobs s !! id = Some j -> in_flight (mj_State j) = true -> own_provider_id s id j p ->
  (AllowsScope principal media_scope && (pl_Owner principal =s js_Owner (mj_Snapshot j)) && (pl_KeyID principal =s js_Key (mj_Snapshot j))) = true ->
  normalizeProviderState (pd_Status p) = Some (JSucceeded, true) -> pd_Output p <> "null" -> json_valid (pd_Output p) = true ->
  str_len (pd_Output p) <= maxOutputBytes -> (exists c, mh_Seal host (me_nonce e 0) (mediaJobAAD id (js_Key (mj_Snapshot j)) (str_len (pd_Output p)) "output") (pd_Output p) = Some c /\ c <> "") ->
  Settle (me_usage e 1) (mj_Attempt j) (terminal_settlement id JSucceeded p) (md_db s) = (Ok tt, d) ->
  let s' := (run (applyPrediction host e id p) s).2 in
  md_db s' = d /\
  (exists view, run (GetJob host principal id) s' = (Ok view, s') /\ mj_State (jv_Row view) = JSucceeded /\ jv_Output view = Some (pd_Output p)) /\
  (exists view, run (AdminGet host id) s' = (Ok view, s') /\ jv_Output view = None) /\
  (exists j', md_jobs s' !! id = Some j' /\ mj_Input j' = None /\ mj_Error j' = "null").
Proof.
  intros Hs Hn Hok Hj Hf Hown Hp Hst Hnull Hv Hlen (c & Hc & Hne) Hd. cbn zeta.
  rewrite !andb_true_iff, !String.eqb_eq in Hp. destruct Hp as [[Hp1 Hp2] Hp3].
  assert (stored_of host e id j p JSucceeded = (JSucceeded, Some (c, me_nonce e 0), str_len (pd_Output p), "null")) as Ex.
  { unfold stored_of, stored_output, seal. apply String.eqb_neq in Hnull. rewrite Hnull. cbn [andb negb].
    rewrite bool_decide_true by done. destruct (Z.ltb_spec maxOutputBytes (str_len (pd_Output p))); [lia|]. by rewrite Hc. }
  pose proof (run_applyPrediction host e id p s j JSucceeded d Hs Hn Hok Hj Hf Hown Hst) as Hrun. cbn zeta in Hrun. rewrite Ex in Hrun.
  rewrite (Hrun Hd). cbn [fst snd md_db md_jobs]. split; [done|]. apply Hs in Hc as [_ Ho]. apply String.eqb_neq in Hne.
  split_and!.
  - eexists. unfold GetJob. rewrite Hp1. unfold get. cbn. rewrite lookup_insert_eq. cbn. rewrite Hp2, Hp3, !String.eqb_refl, orb_true_r, Hne. cbn.
    rewrite Ho, Hv. done.
  - eexists. unfold AdminGet, get. cbn. rewrite lookup_insert_eq. done.
  - eexists. rewrite lookup_insert_eq. done.
Qed.

(** An output that cannot be stored is still paid for: a prediction that
    succeeds with more than 4 MiB ends the job failed, with the provider's
    cost in the settlement and no output; and whatever else is told of the
    job afterwards, its row does not change again. *)
Theorem oversized_output_is_charged (host : MediaHost) (e : MediaEnv) (id : string) (p : providerPrediction) (s : mdb) (j : MediaJob) (d : db) :
  sealing host -> str_len (me_nonce e 0) = 12 -> jobs_ok s ->
  md_jobs s !! id = Some j -> in_flight (mj_State j) = true -> own_provider_id s id j p ->
  normalizeProviderState (pd_Status p) = Some (JSucceeded, true) -> maxOutputBytes < str_len (pd_Output p) ->
  Settle (me_usage e 1) (mj_Attempt j) (media_settlement id "failed" (if is_some (pd_Cost p) then "provider_reported" else "unknown") (pd_Cost p)) (md_db s) = (Ok tt, d) ->
  let s' := (run (applyPrediction host e id p) s).2 in
  md_db s' = d /\
  (exists j', md_jobs s' !! id = Some j' /\ mj_State j' = JFailed /\ mj_Output j' = None /\ mj_Input j' = None /\
     mj_Error j' = error_json "provider_output_too_large" "The provider output exceeds 4 MiB") /\
  (forall e' p', md_jobs (run (applyPrediction host e' id p') s').2 = md_jobs s').
Proof.
  intros Hs Hn Hok Hj Hf Hown Hst Hlen Hd. cbn zeta.
  assert (stored_of host e id j p JSucceeded = (JFailed, None, 0, error_json "provider_output_too_large" "The provider output exceeds 4 MiB")) as Ex.
  { unfold stored_of, stored_output. rewrite bool_decide_true by done. destruct (pd_Output p =s "null") eqn:E.
    - apply String.eqb_eq in E. rewrite E in Hlen. done.
    - cbn [andb negb]. destruct (Z.ltb_spec maxOutputBytes (str_len (pd_Output p))); [done|lia]. }
  pose proof (run_applyPrediction host e id p s j JSucceeded d Hs Hn Hok Hj Hf Hown Hst) as Hrun. cbn zeta in Hrun. rewrite Ex in Hrun.
  rewrite (Hrun Hd). cbn [fst snd md_db md_jobs]. split; [done|]. split.
  - eexists. rewrite lookup_insert_eq. done.
  - intros e' p'. eapply applyPrediction_ended; [cbn; apply lookup_insert_eq|done].
Qed.

(** * After a restart *)

(** The accounting recovers before the worker does and ends every attempt, so
    [recoverSubmission] finds none to settle: a job whose submission a restart
    interrupted stays [submitting], which nothing looks at again, although the
    decision on media jobs says it becomes [interrupted_unknown]. *)
Lemma recoverSubmission_finds_nothing e id s : idle (md_db s) -> run (recoverSubmission e id) s = (tt, s).
Proof.
  intros Hi. unfold recoverSubmission. rewrite run_bind. cbn [run query statement fst snd]. unfold attempt_of.
  destruct (md_jobs s !! id) as [j|]; [|done]. cbn. destruct (t_attempts (md_db s) !! mj_Attempt j) as [a|] eqn:Ea; [|done]. cbn.
  pose proof (id_attempts _ Hi _ a Ea) as Hl. unfold live in Hl. by destruct (at_State a).
Qed.

Theorem restart_strands_submission (e : env) (e' : nat -> MediaEnv) (s : mdb) (d : db) (id : string) (j : MediaJob) :
  invariant (md_db s) -> Recover e (md_db s) = (Ok tt, d) ->
  md_jobs s !! id = Some j -> mj_State j = JSubmitting ->
  md_jobs (run (recoverInterrupted e') (mkMdb d (md_jobs s))).2 !! id = Some j.
Proof.
  intros Hinv HR Hj Hst. assert (idle d) as Hi.
  { unfold Recover, commit in HR. destruct (recover_tx e (md_db s)) as [[u s0]|] eqn:E; [|done]. injection HR as _ <-. by apply (recover_tx_Ok e _ u s0 Hinv). }
  unfold recoverInterrupted. rewrite run_bind. cbn [run query statement fst snd].
  assert (forall ids e1, run (recover_each e1 ids) (mkMdb d (md_jobs s)) = (tt, mkMdb d (md_jobs s))) as Hids.
  { induction ids as [|i ids IH]; intros e1; [done|]. cbn [recover_each]. rewrite run_bind, recoverSubmission_finds_nothing by done. apply IH. }
  rewrite run_bind, Hids. cbn. rewrite map_lookup_imap, Hj. cbn. by rewrite Hst.
Qed.
