(* ===== verification/Studio.v ===== *)
(** A media studio: two connections, a key and a few jobs created, submitted,
    polled, cancelled and met by a restart, and the properties of media jobs
    applied to them; and two ways in which a job is left for ever. *)
From S2P Require Import Prelude GoStd Sha256 Money Calendar Counters Policy Json Decode Marshal Decoded Store Pricing PolicyService PathMatch Grants Admission Settlement Reservations Lifecycle Booking Reprice Reachable Attempts Limits Catalogue Connections Keys Routing Selection Users Publishing Programs Predictions MediaJobs MediaLife MediaThreads MediaSystem MediaRelease MediaRuns Scenario Deployment.
Open Scope string_scope.
Open Scope Z_scope.
Open Scope list_scope.

(** * The studio *)

Definition media_setup : list (env * call) := calls_of
  [("v1", CallCreateConnection "usr_1" (mkConnectionInput "Replicate" "" "" true false 0 "replicate"));
   ("w1", CallPutCredential "usr_1" "con_v1_0" "r8_stored" "");
   ("n1", CallCreateUpstreamModel "usr_1" "con_v1_0" "owner/film" ["media_jobs"]);
   ("u1", CallCreatePublicModel "usr_1" "film" "Film" "" "upm_n1_0" ["media_jobs"]);
   ("v2", CallCreateConnection "usr_1" (mkConnectionInput "Together" "" "" true false 0 "together"));
   ("w2", CallPutCredential "usr_1" "con_v2_0" "tg_stored" "");
   ("n2", CallCreateUpstreamModel "usr_1" "con_v2_0" "clips" ["media_jobs"]);
   ("u2", CallCreatePublicModel "usr_1" "clip" "Clip" "" "upm_n2_0" ["media_jobs"])].
Definition media_key : Input := mkInput "studio" ["media:generate"] ["film"; "clip"] ["con_v1_0"; "con_v2_0"] "" "".
Definition studio_db : db :=
  snd (Keys.Create digest sample_times (at_call "key") (instant * 1000000) "usr_1" media_key (serve_all media_setup [] people).2).
Definition studio : mdb := mkMdb studio_db ∅.
Definition studio_principal : Principal :=
  match PrincipalOf (at_call "who") "key_key_0" studio_db with Ok p => p | Err _ => mkPrincipal "" "" [] [] [] end.

(** A stand-in for AES-GCM with a tag that does not depend on the key. *)
Definition tag : string := "0123456789abcdef".
Definition studio_host : MediaHost :=
  mkMediaHost sample_host (fun nonce aad plain => Some (plain +:+ tag))
    (fun nonce aad sealed => Some (String.substring 0 (String.length sealed - 16) sealed))
    (fun _ _ _ request => Some request) (fun _ _ _ answer => Some answer) (fun x => x).

(** A call at a second of the day, the provider answering so. *)
Definition at_second (name : string) (second : Z) (answer : reply) : MediaEnv :=
  mkMediaEnv (fun _ => instant + second * 1000) (fun n => at_call (name +:+ String (Ascii.ascii_of_nat (65 + n)) ""))
    name (fun _ => "twelve bytes") (fun _ _ _ _ => answer).
Definition answered (id status : string) : reply :=
  Reply 201 (Json.Marshal [("id", JString id); ("status", JString status); ("output", JString "https://delivery/film.mp4")]).

(** * Reaching configurations *)

Notation media_steps := (rtc (media_step studio_host sample_times)).
Notation reached := (media_reachable studio_host sample_times).

Notation run := Programs.run.

Lemma media_steps_trans (c1 c2 c3 : config) : media_steps c1 c2 -> media_steps c2 c3 -> media_steps c1 c3.
Proof. induction 1 as [|c c' c'' Hs _ IH]; [done|]. intros H. eapply rtc_l; [exact Hs|]. by apply IH. Qed.
Lemma one_step (c c' : config) : media_step studio_host sample_times c c' -> media_steps c c'.
Proof. intros H. eapply rtc_l; [exact H|apply rtc_refl]. Qed.

Lemma worker_runs p s l : media_steps (mkConfig s p l) (mkConfig (run p s).2 (Return tt) l).
Proof.
  revert s. induction p as [[]|B f k IH]; intros s; [apply rtc_refl|]. eapply rtc_l; [by apply step_worker|]. cbn.
  destruct (f s) as [b s']. apply IH.
Qed.

Lemma call_runs (p : program unit) s w l : media_steps (mkConfig s w (p :: l)) (mkConfig (run p s).2 w (Return tt :: l)).
Proof.
  revert s. induction p as [[]|B f k IH]; intros s; [apply rtc_refl|]. eapply rtc_l; [by apply (step_call _ _ _ [] l)|]. cbn.
  destruct (f s) as [b s']. apply IH.
Qed.

(** A worker stopped between two statements. *)
Fixpoint advance (n : nat) (p : program unit) (s : mdb) : program unit * mdb :=
  match n, p with S n, Statement f k => let '(b, s') := f s in advance n (k b) s' | _, _ => (p, s) end.
Lemma worker_advances n p s l : media_steps (mkConfig s p l) (mkConfig (advance n p s).2 (advance n p s).1 l).
Proof.
  revert p s. induction n as [|n IH]; intros p s; [apply rtc_refl|]. destruct p as [a|B f k]; [apply rtc_refl|].
  eapply rtc_l; [by apply step_worker|]. cbn. destruct (f s) as [b s']. apply IH.
Qed.

(** Reached, with the worker at a point of its program. *)
Definition reached_at (w : program unit) (s : mdb) : Prop := exists l, reached (mkConfig s w l).
Notation at_rest := (reached_at (Return tt)).

Lemma reached_more c c' : reached c -> media_steps c c' -> reached c'.
Proof. intros (c0 & H0 & H) H'. exists c0. split; [done|]. by eapply media_steps_trans. Qed.

Lemma reached_call w p s : api_call studio_host p -> reached_at w s -> reached_at w (run p s).2.
Proof. intros Hp [l H]. exists (Return tt :: l). eapply reached_more; [exact H|]. eapply rtc_l; [by apply (step_called _ _ _ p)|]. apply call_runs. Qed.

Lemma reached_begin e s : at_rest s -> reached_at (_ ← workOnce studio_host e; Return tt) s.
Proof. intros [l H]. exists l. eapply reached_more; [exact H|]. apply one_step. by apply step_work. Qed.

Lemma reached_advance n w s : reached_at w s -> reached_at (advance n w s).1 (advance n w s).2.
Proof. intros [l H]. exists l. eapply reached_more; [exact H|apply worker_advances]. Qed.

Lemma reached_end w s : reached_at w s -> at_rest (run w s).2.
Proof. intros [l H]. exists l. eapply reached_more; [exact H|apply worker_runs]. Qed.

(** A restart: the accounting recovers, then the worker starts. *)
Definition restarted (e : env) (e' : nat -> MediaEnv) (s : mdb) : mdb :=
  (run (recoverInterrupted e') (mkMdb (snd (Recover e (md_db s))) (md_jobs s))).2.
Lemma reached_restart e e' w s : reached_at w s -> at_rest (restarted e e' s).
Proof.
  intros [l H]. apply (reached_end (recoverInterrupted e')). exists []. eapply reached_more; [exact H|]. apply one_step, (step_restart _ _ (mkConfig s w l)).
Qed.

(** The studio after the first start. *)
Definition boot : program unit := recoverInterrupted (fun n => at_second "boot" 0 Unsent).
Definition booted : mdb := (run boot studio).2.
Lemma reached_start : at_rest booted.
Proof.
  apply (reached_end boot). exists [], (mkConfig studio boot []). split; [|apply rtc_refl].
  split; [done|]. split; [vm_compute; reflexivity|]. split; [vm_compute; reflexivity|]. split; [|done]. by eexists.
Qed.

(** * A job *)

Definition create_in (name model : string) (second : Z) (s : mdb) : mdb :=
  (run (_ ← CreateJob studio_host (at_second name second Unsent) studio_principal (mkCreateJobInput model "video" "{}"); Return tt) s).2.
Definition cancel_in (id : string) (second : Z) (s : mdb) : mdb :=
  (run (_ ← CancelJob studio_host (at_second "cancel" second Unsent) studio_principal id; Return tt) s).2.
Definition round (name : string) (second : Z) (answer : reply) (s : mdb) : mdb :=
  (run (_ ← workOnce studio_host (at_second name second answer); Return tt) s).2.

Lemma reached_create w name model second s : reached_at w s -> reached_at w (create_in name model second s).
Proof. intros H. refine (reached_call w _ s _ H). apply call_create. Qed.
Lemma reached_cancel w id second s : reached_at w s -> reached_at w (cancel_in id second s).
Proof. intros H. refine (reached_call w _ s _ H). apply call_cancel. Qed.
Lemma reached_round name second answer s : at_rest s -> at_rest (round name second answer s).
Proof. intros H. exact (reached_end _ s (reached_begin _ s H)). Qed.

(** Created, submitted a second later, and ended by its first poll. *)
Definition created_film : mdb := create_in "film" "film" 0 booted.
Definition submitted_film : mdb := round "r1" 1 (answered "prd_1" "starting") created_film.
Definition ended_film : mdb := round "r2" 3 (answered "prd_1" "succeeded") submitted_film.
Definition film : MediaJob := default (mkMediaJob (mkJobSnapshot "" "" "" "" "" "" "" "" 0 0) "" JQueued None None 0 "" false 0 0 0 0 None) (md_jobs ended_film !! "media_film").

Lemma reached_submitted : at_rest submitted_film.
Proof. apply reached_round, reached_create, reached_start. Qed.
Lemma reached_ended : at_rest ended_film.
Proof. apply reached_round, reached_submitted. Qed.

Lemma film_row : md_jobs ended_film !! "media_film" = Some film.
Proof. vm_compute. reflexivity. Qed.

Ltac computed := vm_compute; reflexivity.

(** A cancellation of the queued job, stopped after its first statement: the
    job is cancelled, and its reservation not yet released. *)
Lemma call_advances n p s w l : media_steps (mkConfig s w (p :: l)) (mkConfig (advance n p s).2 w ((advance n p s).1 :: l)).
Proof.
  revert p s. induction n as [|n IH]; intros p s; [apply rtc_refl|]. destruct p as [a|B f k]; [apply rtc_refl|].
  eapply rtc_l; [by apply (step_call _ _ _ [] l)|]. cbn. destruct (f s) as [b s']. apply IH.
Qed.
Definition cancelling : program unit := _ ← CancelJob studio_host (at_second "cancel" 1 Unsent) studio_principal "media_film"; Return tt.
Definition cancelled_film : mdb := (advance 1 cancelling created_film).2.
Definition cancelled_job : MediaJob := default film (md_jobs cancelled_film !! "media_film").


Lemma media_jobs_consistent_witness : job_ok film /\ mj_State film = JSucceeded.
Proof.
  destruct reached_ended as [l H]. split; [|computed].
  exact (proj1 (media_jobs_consistent studio_host sample_times _ H) "media_film" film film_row).
Defined.

(** A cancellation that comes too late. *)
Lemma cancel_steps id second s w l : exists l', media_steps (mkConfig s w l) (mkConfig (cancel_in id second s) w l').
Proof. eexists. eapply rtc_l; [apply (step_called _ _ _ _ (call_cancel _ (at_second "cancel" second Unsent) studio_principal id))|]. apply call_runs. Qed.

Lemma ended_job_is_final_witness : exists j', md_jobs (cancel_in "media_film" 5 ended_film) !! "media_film" = Some j' /\ job_kept film j' /\ mj_CancelRequested j' = true.
Proof.
  destruct reached_ended as [l H]. destruct (cancel_steps "media_film" 5 ended_film (Return tt) l) as [l' H'].
  destruct (ended_job_is_final studio_host sample_times _ _ "media_film" film H H' film_row) as (j' & Hj & K).
  exists j'. split; [exact Hj|]. split; [exact K|]. cbn [cf_state] in Hj.
  assert (mj_CancelRequested <$> (md_jobs (cancel_in "media_film" 5 ended_film) !! "media_film") = Some true) as E by computed.
  rewrite Hj in E. injection E as E. exact E.
Defined.

Lemma submitted_ok : jobs_ok submitted_film.
Proof. destruct reached_submitted as [l H]. apply (co_state _ (media_reachable_ok _ _ _ H)). Qed.

(** The provider of the submitted job falls silent: eight rounds are enough. *)
Definition silence (n : nat) : MediaEnv := at_second ("s" +:+ pretty.pretty n) (3 + 40 * Z.of_nat n) NoReply.
Lemma silence_silent n : silent (silence n).
Proof. intros t m p b. by exists NetworkError. Qed.
Lemma worker_loop_ends_witness :
  work_left (md_jobs submitted_film) = 8%nat /\
  (exists n, (n <= 8)%nat /\ ((run (workOnce studio_host (silence n)) (rounds studio_host silence n submitted_film)).1 = false \/ stuck (silence n) (rounds studio_host silence n submitted_film))) /\
  (run (workOnce studio_host (silence 8)) (rounds studio_host silence 8 submitted_film)).1 = false.
Proof.
  assert (work_left (md_jobs submitted_film) = 8%nat) as Hw by computed. split; [exact Hw|]. split; [|computed].
  rewrite <- Hw. exact (worker_loop_ends studio_host silence submitted_film submitted_ok silence_silent).
Defined.

(** ** The output *)

Lemma substring_prefix a b : String.substring 0 (String.length a) (a +:+ b) = a.
Proof. induction a as [|c a IH]; [by destruct b|]. exact (f_equal (String c) IH). Qed.
Lemma studio_seals : sealing studio_host.
Proof.
  intros nonce aad plain c [= <-]. cbn [mh_Open studio_host]. unfold str_len. rewrite str_length_app. split; [change (String.length tag) with 16%nat; lia|].
  change (String.length tag) with 16%nat. rewrite Nat.add_sub. by rewrite substring_prefix.
Qed.

Definition submitted_row : MediaJob := default film (md_jobs submitted_film !! "media_film").
Lemma submitted_rows : md_jobs submitted_film = {[ "media_film" := submitted_row ]}.
Proof. computed. Qed.
Definition delivery : providerPrediction := mkPrediction "prd_1" " Succeeded" (Json.Marshal [("url", JString "https://delivery/film.mp4")]) (Some 250000000).
Definition delivery_call : MediaEnv := at_second "d1" 3 NoReply.
Definition delivery_settled : result unit * db :=
  Settle (me_usage delivery_call 1) (mj_Attempt submitted_row) (terminal_settlement "media_film" JSucceeded delivery) (md_db submitted_film).
Lemma delivery_accepted : delivery_settled = (Ok tt, delivery_settled.2).
Proof. computed. Qed.

Lemma delivered_output_reads_witness :
  let s' := (run (applyPrediction studio_host delivery_call "media_film" delivery) submitted_film).2 in
  (exists view, run (GetJob studio_host studio_principal "media_film") s' = (Ok view, s') /\ jv_Output view = Some (pd_Output delivery)) /\
  (fun row => ld_Cost row) <$> t_ledger (md_db s') !! "media-job:media_film:terminal" = Some (Some 250000000).
Proof.
  cbn zeta. assert (md_jobs submitted_film !! "media_film" = Some submitted_row) as Hrow by (rewrite submitted_rows; apply lookup_singleton_eq).
  destruct (delivered_output_reads studio_host delivery_call studio_principal "media_film" delivery submitted_film submitted_row delivery_settled.2
    studio_seals eq_refl submitted_ok Hrow) as (E & (view & Hv & _ & Ho) & _).
  - computed.
  - intros i x. rewrite submitted_rows. intros [<- _]%lookup_singleton_Some _ _. reflexivity.
  - computed.
  - computed.
  - discriminate.
  - computed.
  - vm_compute. discriminate.
  - eexists. split; [reflexivity|discriminate].
  - exact delivery_accepted.
  - split; [exists view; split; [exact Hv|exact Ho]|]. rewrite E. computed.
Defined.

(** * Jobs left for ever

    Each of the two is reachable, and the round that meets it leaves the
    database as it was and reports that there was work, so the worker goes
    round without a pause; no job due later is polled any more. *)

(** A restart ends the attempts of running jobs. When the provider has
    finished one, its settlement is refused for ever. *)
Definition back : mdb := restarted (at_call "rec") (fun n => at_second "back" 30 Unsent) submitted_film.
Theorem restart_strands_finished_job :
  at_rest back /\ mj_State <$> md_jobs back !! "media_film" = Some JStarting /\
  run (workOnce studio_host (at_second "r4" 31 (answered "prd_1" "succeeded"))) back = (true, back).
Proof. split; [|split; computed]. apply (reached_restart _ _ (Return tt)), reached_submitted. Qed.

Definition answered_clip (status : string) : reply :=
  Reply 200 (Json.Marshal [("id", JString "vid_1"); ("status", JString status)]).
Definition created_clip : mdb := create_in "clip" "clip" 0 booted.
Definition submitted_clip : mdb := round "r1" 1 (answered_clip "queued") created_clip.

(** The worker's poll has asked Together, which has not answered yet, when the
    key cancels the job: the answer takes the state from [canceling] back to
    [processing], and the local cancellation, which ends [canceling] jobs
    only, settles the attempt but not the row. *)
Definition poll_under_way : program unit * mdb :=
  advance 6 (_ ← workOnce studio_host (at_second "r2" 3 (answered_clip "in_progress")); Return tt) submitted_clip.
Definition cancelled_meanwhile : mdb := cancel_in "media_clip" 4 poll_under_way.2.
Definition overtaken : mdb := (run poll_under_way.1 cancelled_meanwhile).2.
Definition settled_clip : mdb := round "r3" 6 NoReply overtaken.

Theorem overtaken_cancellation_spins :
  at_rest settled_clip /\
  (fun j => (mj_State j, mj_CancelRequested j)) <$> md_jobs cancelled_meanwhile !! "media_clip" = Some (JCanceling, true) /\
  (fun j => (mj_State j, mj_CancelRequested j, at_State <$> t_attempts (md_db settled_clip) !! mj_Attempt j)) <$> md_jobs settled_clip !! "media_clip"
    = Some (JProcessing, true, Some AtCancelled) /\
  run (workOnce studio_host (at_second "r4" 8 NoReply)) settled_clip = (true, settled_clip).
Proof.
  split; [|split_and!; computed]. apply reached_round. apply (reached_end poll_under_way.1). apply reached_cancel.
  apply (reached_advance 6), reached_begin. apply reached_round, reached_create, reached_start.
Qed.
